(* ===== verification/_CoqProject ===== *)
-Q . S2P
Prelude.v
Identifier.v
Acl.v
Resolved.v
State.v
Resources.v
Authority.v
Listeners.v
Numbers.v
Channel.v
Ipc.v
Paths.v
FsScope.v
AssetProtocol.v
Csp.v
AppAssets.v
Values.v
Plugins.v
BundleResources.v
Runtime.v
EventLoop.v
Windows.v
WebviewSetup.v
ConfigFiles.v
BuildSupport.v
TauriBuild.v
Html.v
EmbedAssets.v
Pbxproj.v
JsonObject.v
MigrateConfig.v
MigrateProofs.v
Menus.v
AclCli.v
CargoManifest.v
CorePlugins.v
CoreCommands.v
Commands.v
Bundler.v
LinuxPackages.v
RustInterface.v
WindowsInstallers.v
Installed.v
MacBundle.v
Serde.v
ConfigData.v
ConfigLaws.v
DevCommand.v
Signer.v
