(* ===== verification/Prelude.v ===== *)
(** * Verification of the Tauri core

    Tauri builds desktop applications whose windows are web pages. A page is
    not trusted with the machine: what it may do is decided by the core library
    [src/crates/tauri] over the data of [src/crates/tauri-utils]. This library
    models the path of a request from a page to the code that serves it, and the
    life of the windows and webviews that make such requests, from the runtime
    [src/crates/tauri-runtime-wry] up to the application; it proves that the
    decisions taken on the way are the ones the configuration asks for, and that
    the runtime and the application agree on what is open.

    ** How the parts work together

    At build time [Resolved::resolve] turns the permission manifests of the
    plugins and the capabilities of the application into tables of allowed and
    denied commands with their scopes. At run time the [RuntimeAuthority] holds
    these tables, can be extended by [add_capability], and answers
    [resolve_access]. A page invokes a command through the custom protocol or a
    posted message; [Webview::on_message] checks the invoke key, asks the
    authority, and calls the handler of a plugin or of the application.
    Handlers answer through callbacks and channels, keep objects in the resource
    table and in the managed state, and emit events to listeners in Rust and in
    pages. Files leave through the asset protocol, which the file system scope
    guards; pages and their scripts leave through the application protocol,
    which puts nonces into the page and a policy into the response.

    Under it runs the event loop. The runtime keeps the windows with their
    webviews and the web contexts they share; dispatchers on any thread send it
    messages, the main thread handles them, and native events become events of
    the application, which may prevent a close or an exit. The manager of the
    application keeps its own maps of windows and webviews by label over the
    store of the runtime, prepares each webview with its url, scripts and
    protocols, and gives the events to plugins and listeners.

    ** The files

    - [Prelude] (this file): outcomes of Rust computations ([Ok], [Err],
      [Panic], [Diverge]) with their monad and loops, strings as lists of bytes,
      ordered maps, and the lemmas, tactics and hints on them.
    - [Identifier]: [acl/identifier.rs], the validation of permission
      identifiers byte by byte. The state machine [next] is [ValidByte::next].
    - [Acl]: the data of [acl/mod.rs], [value.rs], [capability.rs],
      [manifest.rs] and [platform.rs], and [Manifest::new].
    - [Resolved]: [acl/resolved.rs]. The state of the loops of
      [Resolved::resolve] is a record; [on_permission] is the body of the loop
      over permissions, [resolve_command] the helper of the source.
    - [State], [Resources]: [state.rs] and [resources/mod.rs].
    - [Authority]: [ipc/authority.rs]. The record [RuntimeAuthority] holds the
      tables of allowed and denied commands and the scopes with their two caches.
    - [Listeners]: [event/listener.rs], [event/mod.rs] and the emitters of
      [manager/mod.rs]. The callback of a handler is a program over the
      operations of the listeners, so that handlers that listen, unlisten and
      emit while they run are covered; the lock and the queue of pending actions
      are part of the state. Threads appear as the steps of the operations that
      find the lock taken.
    - [Numbers], [Channel]: decimal texts, and [ipc/channel.rs].
    - [Ipc]: [ipc/protocol.rs], [ipc/format_callback.rs] and [on_message] with
      [is_local_url] of [webview/mod.rs]. What a message causes is the list of
      its actions: calls of handlers, answers and rejections.
    - [Paths]: Unix paths of [std::path], and [path/mod.rs].
    - [FsScope]: [scope/fs.rs] and the [FsScope] of [config.rs].
    - [AssetProtocol]: [protocol/asset.rs] and [mime_type.rs].
    - [Csp]: policies and configured headers of [config.rs], and [set_csp],
      [replace_csp_nonce] and [replace_with_callback] of [manager/mod.rs].
    - [AppAssets]: [assets.rs], [AppManager::get_asset], and the protocols
      [protocol/tauri.rs] and [protocol/isolation.rs].
    - [Values]: the conversions of [acl/value.rs] from and to JSON and TOML.
    - [Plugins]: [plugin.rs]. The trait is the class [Plugin], [TauriPlugin] its
      instance; the store is a list in the order of registration.
    - [BundleResources]: [tauri-utils/Source/resources.rs]. The five methods of
      the iterator call each other and are mutual fixpoints.
    - [Runtime]: [tauri-runtime-wry/Source/lib.rs] on Linux. [Context] is the
      state of the main thread with the shared window ids of the dispatchers,
      the messages of the proxy and the log of native calls; [Cmd] is a call of
      a dispatcher, [message] the message it sends, [handle_with] the handling
      of a message; code that runs on the main thread is a list of calls.
    - [EventLoop]: [handle_event_loop] and the loops of the same file. The
      application is the class [AppCode]; a run is a sequence of [step]s of the
      native loop, of other threads and of the closures of webviews.
    - [Windows]: the maps of [manager/window.rs] and [manager/webview.rs], the
      builders of [window/mod.rs] and [webview/mod.rs], and the callback of
      [app.rs], which is an instance of [AppCode].
    - [WebviewSetup]: [prepare_webview] and [prepare_pending_webview] of
      [manager/webview.rs] and the closures made there.
    - [ConfigFiles]: [tauri-utils/Source/config/parse.rs], the layers of
      configuration of [tauri-cli/Source/helpers/config.rs], and [get_config] of
      [tauri-codegen/Source/lib.rs].
    - [BuildSupport]: [tauri-utils/Source/io.rs] and [acl/build.rs], the
      permission and capability files that build scripts read and write.
    - [TauriBuild]: [tauri-build/Source/acl.rs], the build script of an
      application, with the part of [tauri-codegen/Source/context.rs] that reads
      its files back and resolves them. The files are the state passed on.
    - [Html], [EmbedAssets]: [tauri-utils/Source/html.rs], the injections into
      pages, and [tauri-codegen/Source/embedded_assets.rs], which puts the files
      of the frontend into the application that [AppAssets] serves.
    - [Pbxproj]: [tauri-cli/Source/helpers/pbxproj.rs], Xcode projects as lines.
    - [JsonObject], [MigrateConfig], [MigrateProofs]: JSON objects, and
      [migrate/migrations/v1/config.rs] of the command line over them.
    - [Menus]: [manager/menu.rs], [manager/tray.rs] and the menu methods of
      [app.rs] and [window/mod.rs]. The native menus of windows are state.
    - [AclCli]: the commands of [tauri-cli/Source/acl], which edit the permission
      and capability files that [BuildSupport] reads.
    - [CargoManifest]: [interface/rust/manifest.rs] of the command line and
      [tauri-build/Source/manifest.rs], which write and check Cargo features.
    - [CorePlugins], [CoreCommands]: the permissions that [tauri/build.rs] gives
      the core plugins, and the commands of windows, webviews and resources.
    - [Commands]: the wrappers that [tauri-macros/Source/command] generates, with
      the arguments of [ipc/command.rs] and the resolver of [ipc/mod.rs].
    - [Bundler], [LinuxPackages]: of [tauri-bundler/Source/bundle] the settings,
      the categories, [bundle_project] over the packagers of one type, the
      archives of the updater, and the packagers of Linux as the trees of files
      they make.
    - [RustInterface]: [interface/rust.rs], [interface/rust/desktop.rs] and
      [interface/mod.rs] of the command line, from the options of a command to
      the call of Cargo and the settings of the bundler.
    - [WindowsInstallers]: of [tauri-bundler/Source/bundle/windows] the packagers
      [msi/mod.rs] and [nsis/mod.rs], [sign.rs] and [util.rs], and
      [tauri-cli/Source/inspect.rs].
    - [Installed]: [tauri-utils/Source/platform.rs], [path/desktop.rs],
      [process.rs] and the restarts of [app.rs], on Linux; what the build script
      of [tauri-build/Source/lib.rs] copies next to the binary; and the target
      triples of the host.
    - [MacBundle]: [tauri-bundler/Source/bundle/macos], the application bundle,
      what is signed in it, the disk image and the bundle for iOS, and the
      resource directory and restart of an application in such a bundle.
    - [Serde], [ConfigData] and [ConfigLaws]: [tauri-utils/Source/config.rs] with
      the types of [lib.rs] and [acl/capability.rs] in it. [Serde] has what the
      derived code does with a description of a type, [ConfigData] the types and
      their descriptions, [ConfigLaws] the theorems.
    - [DevCommand]: of [tauri-cli/Source] [dev.rs] and
      [dev/builtin_dev_server.rs], the checks of [build.rs], [run_hook] of
      [helpers/mod.rs] and the directories of [helpers/app_paths.rs].
    - [Signer]: [tauri-cli/Source/helpers/updater_signature.rs], the commands of
      [signer] and [sign_updaters] of [bundle.rs].

    ** What the theorems show

    The comment before a theorem names its conditions, and the theorem that
    shows what happens otherwise where there is one.

    - Access control: [resolve_refines] relates resolution to a specification by
      contributions of capabilities; [access_granted_iff] carries it through the
      authority to the decision, and [plugin_call_is_permitted] through
      [on_message] to the call of a plugin. [granted_scope_resolves] and
      [add_capability_extends] say that scopes and later capabilities keep that
      true, [on_message_authorized] and [protocol_responses] that every other
      message is answered by one rejection and calls nothing.
    - Files: a forbidden path is never allowed again ([forbidden_is_final]),
      rules have the effect they name ([file_rules_apply]), paths resolved by
      the application cannot leave their directory ([resource_path_contained],
      [safe_path_contained]), and the asset protocol serves only allowed files,
      whole or by range ([asset_access_guarded], [single_range_served]).
    - Pages: the policy of a response admits exactly the nonces put into the
      page ([set_csp_extends]); a page leaves with the policy made for it, and
      without one where none is configured ([page_served_with_its_policy]).
    - Events and channels: an emission calls each matching handler once and
      ends, also when handlers emit, listen and unlisten ([emit_delivers]);
      channel data arrives once and in order ([channel_delivers_once],
      [channel_messages_in_order]).
    - The loop: it exits only after a request that nothing prevented and tells
      the end once ([exit_is_requested]); it does exit when the windows are gone
      ([loop_ends_with_windows]); the first answer decides a close request
      ([close_request_decides]).
    - Windows: web contexts live as long as their webviews
      ([contexts_follow_webviews]), the maps of the manager and of the runtime
      stay in step when windows are built and destroyed ([window_build_linked],
      [destroyed_window_leaves_both]), and a page that listens to close requests
      keeps its window ([page_listener_keeps_window]).
    - Webviews and plugins: what a webview is opened with ([webview_prepared],
      [prepared_schemes_have_handlers]), who decides a navigation
      ([navigation_allowed_iff]), and which plugin gets a command
      ([store_dispatches_by_name], [unknown_plugin_rejected_once]).
    - The bundle: the iterator over resource patterns ends with the resources of
      its specification ([resources_enumerated]), each put where the running
      application looks for it ([bundled_where_resolved]). The configuration
      reaches the bundler ([configuration_reaches_bundler]), which takes the
      binary from where the build put it ([built_binary_bundled]), makes every
      package once and in order ([linux_bundles_built]) and puts the same files
      into packages of both kinds ([deb_rpm_agree]); the control file reads back
      ([control_file_reads_back]). Both installers of Windows put the resources
      into the same directories when no library lies next to the binary
      ([installers_agree]), a version that is accepted fits
      the fields of an installer ([wix_version_bounds]), the directories to remove
      are those that were created ([ancestors_removed]), and texts of the
      configuration survive the quoting of NSIS ([nsis_text_reads_back]).
    - Applications of macOS: code is signed from the inside out
      ([signed_inside_out]), the search for it ends where bundles nest to a
      bounded depth ([nested_code_found]), and the credentials are those of the
      first source that has them ([notarize_auth_decides]).
    - The configuration as data: what was written is read back
      ([config_read_back]), missing sections are their defaults
      ([defaults_agree]), an identifier is needed and enough
      ([identifier_required], [minimal_config]), unknown fields are refused
      ([unknown_field_refused]), names in kebab case are read
      ([kebab_names_read]), and colors have bytes ([color_in_bounds],
      [color_forms]).
    - Development: the server for static files sends only what is in its
      directory ([served_from_directory]), the same files as the application
      that is built from it ([same_file_served]), on the first free port
      ([port_found]); its url reaches the build ([dev_url_handed_on]). The wait
      for a server ends ([waiting_ends]), a failure ends the process that was
      started before ([failure_ends_process]), a build that is not refused meets
      the conditions of its checks ([build_checked]), and the directories of a
      project have what makes them one ([project_directories]).
    - Updates: with a pair of keys that was generated every package an updater
      installs gets a signature that the public key verifies
      ([updates_verify]), also through the files and commands of the pair
      ([pair_saved], [generated_pair_signs]).
    - The installed application: it finds its resources where its package put
      them, in a directory named after the product on Linux
      ([installed_resource_found], [app_resource_found]), starts again with
      its main program ([restart_starts_main]) and, while it is developed, where the
      build script did ([dev_resource_found]); the version of its executable
      keeps each number ([file_version_fields]).
    - The build: configuration files are found and merged in the documented
      order ([read_from_hierarchy]), and the compiled configuration is the one
      the command line computed ([compiled_config_agrees]); the files of a folder
      give exactly their capabilities ([capabilities_unique]), a plugin is found
      under its name ([plugin_name_roundtrip]), generated permissions are
      written when they change ([autogenerated_files]) and can be named
      ([generated_permission_named]). What the build script validates is what
      resolution needs ([validation_matches_resolution]), and what it collects is
      what is resolved ([build_hands_over], [selected_references]). Every file of
      the frontend is served with the content it was given
      ([embedded_assets_served]), and what the command line writes into the
      manifest is what the build script accepts ([rewritten_manifest_accepted]).
    - Commands: a function is called with the arguments of the message
      ([command_called]) and answers once ([app_message_answered_once]); the
      commands of the core act on the window they name
      ([window_command_addressed]) and all of them need a permission
      ([core_commands_guarded]).
    - Menus: which menu a window has ([menus_invariant], [set_menu_assigns]).
    - Projects: a configuration of version 1 keeps its settings when it is
      migrated ([migrate_config_moves], [migrate_config_idempotent]), and edits of
      capabilities and Xcode projects change what they name and nothing else
      ([permission_rm_removes], [add_build_setting_reparsed]).
    - Data: parsers accept exactly what they should ([try_from_accepts],
      [parse_invoke_request_accepts]), tables of resources and state keep what
      is stored in them.
    Some theorems exhibit behaviour that is not what the code means to do, each
    on a concrete run: [runtime_scope_collision], [deny_ignores_origin],
    [global_scope_cache_ignores_plugin], [nested_filter_is_lost],
    [once_reemitting_panics], [concurrent_registration_stranded],
    [once_blocks_scope], [circular_default_diverges],
    [core_identifier_doubled_separator], [channel_id_roundtrip],
    [parse_keeps_leading_parent], [multi_range_underflows],
    [isolation_index_by_name_not_found], [large_integers_collapse],
    [toml_nan_panics], [directory_glob_report_depends_on_order],
    [map_directory_dot_kept], [reparent_to_closed_window_panics],
    [ipc_dispatcher_stale_after_reparent], [failed_webview_keeps_context],
    [automation_leaks_context], [context_dropped_before_webview],
    [failed_window_stays_in_manager], [failed_reparent_recorded],
    [label_check_races], [dropped_directory_differs],
    [empty_window_is_webview_window], [disabled_platform_file_ignored],
    [failed_reload_moves_process], [identifier_overwriter_not_found],
    [unjoinable_app_path_panics], [inlined_default_needs_commands],
    [capability_referenced_twice_panics], [read_line_depends_on_chunks],
    [generated_permission_unnamable], [second_addition_outside],
    [added_setting_set_again], [setting_not_restored], [addition_inside_value],
    [export_options_stale], [partial_asset_reused], [scope_alone_grants],
    [null_license_wins], [global_tauri_lost], [null_key_keeps_updater],
    [asset_protocol_not_enabled], [interrupted_migration_loses_permissions],
    [closed_window_menu_stays], [closed_window_handler_stays],
    [wrong_icon_removed], [wildcard_removes_others], [capability_replaced],
    [list_of_capabilities_unchanged], [unrelated_file_removed],
    [platforms_read_differently], [target_table_hides_dependency],
    [target_features_spread], [literal_version_quoted],
    [formatting_changes_strings], [core_defaults_not_written],
    [core_default_grants_nothing], [unescaped_search_counts],
    [reparent_to_unknown_succeeds], [webview_window_argument_fails],
    [next_major_version_too_old], [v1_updater_needs_appimage],
    [rpm_ignores_resource_targets], [short_description_adds_field],
    [own_xdg_mime_replaced], [dotted_name_not_found], [inline_profile_conflicts],
    [target_dir_without_triple], [bundle_forgets_arguments],
    [own_tray_library_replaced], [second_binary_dropped],
    [default_run_not_first], [dlls_replace_root_resources],
    [msi_keeps_source_names], [second_target_dropped], [rtf_license_wrapped],
    [custom_language_files_collide], [nsis_plugins_elsewhere],
    [binary_ids_collide], [wix_version_not_checked], [restart_skips_cleanup],
    [resource_dir_of_product], [cargo_resources_beside], [host_triple_armel],
    [host_triple_unknown], [wide_minor_is_a_major],
    [named_framework_not_signed], [empty_association_panics],
    [odd_icon_refused], [ios_ignores_resource_targets],
    [ios_plist_not_escaped], [given_config_loses_dev_url],
    [unreachable_server_leaves_process], [encoded_path_falls_back],
    [index_leaves_directory], [identifier_beyond_ascii], [entry_order_is_none],
    [missing_file_leaves_signature], [public_key_lost],
    [signer_ignores_documented_variable], [default_window_not_focused],
    [kebab_names_missing], [null_minimum_version_returns],
    [app_path_read_as_url], [unit_variants_take_fields], [color_panics],
    [signed_color_accepted] and [color_trimmed_with_sign_only].

    ** Parameters

    Code outside of the repository is a type class whose operations the
    definitions take: [GlobLib] and [GlobPathLib] (glob), [UrlPatternLib] and
    [UrlLib] (urlpattern, url), [WebLib] and [HttpLib] (mime, http, serde_json),
    [UnicodeTables] (the alphanumeric characters), [FileSystem] (canonical
    paths), [AssetLib] (files, infer, http_range, percent-encoding), [ServeLib]
    (brotli, percent-encoding, header values, the frame template), [SerdeLib]
    (numbers of serde_json and toml), [ResourceFs] (glob, walkdir, file tests),
    [RuntimeTypes] and [Native] (tao and wry: the types the runtime passes on,
    and what native calls answer, as functions of the calls made before),
    [UrlOps] and [SetupEnv] (more of url, script templates, directories),
    [ConfigLib], [ConfigFs], [BuildLib] and [BuildEnv] (parsers, the file system
    and the schema generator at build time), [SelectorLib], [TemplateLib],
    [HtmlSerializer] and [EmbedLib] (kuchiki, serialize-to-javascript, brotli),
    [V1Lib] and [V1Files] (the configuration of version 1), [AclCliLib] and
    [ManifestLib] (toml_edit), [CommandLib] and [ArgLib] (serde, heck and native
    calls of commands), [SimilarityLib], [Packagers] and [PackLib] (strsim, the
    packagers of one type, archives and the file system of a package),
    [CargoEnv] (Cargo, its metadata and the project directory), [WindowsLib]
    (semver, uuid, the templates and tools of installers, the network), [Host]
    (the running process, its environment and the user directories), [MacLib]
    (keychains, images, property lists as text, directories), [DevServerLib] and
    [ScriptWorld] (sockets, the parser of HTML, scripts and the file system they
    change), [Minisign] (keys, signatures and base64), [UrlText] and
    [VersionLib] (url, semver, uuid and the file of a version). Of serde, whose
    derived code is generated, [Serde] writes out what its documentation says of
    the attributes of containers, variants and fields. Code of the
    user is a class as well: [AppCode] of the loop, [ManagerHooks] and
    [UserCode] of the application, [HookTypes] of plugins. The
    deserialization of scopes, the callbacks of plugins, the random numbers and
    the order of hash maps are arguments. The witnesses instantiate each of them
    by a concrete function.

    ** Fuel and bounds

    - The expansion of permission sets recurses without a bound in the source.
      [resolve_terminates] gives one result of resolution for all fuel above the
      ranks of the sets when their references are well founded;
      [circular_default_diverges] shows that a cycle spends any fuel.
    - An emission may cause emissions. [emit_delivers] needs fuel above the rank
      of the event, where handlers emit only events of lower rank; a handler
      that emits its own event has no end in the source either.
    - [nested_code_found] needs fuel above the rank of a framework, where nested
      bundles rank below the directory that has them; links are not followed.
    - The search for a port has the ports above the first as fuel, the wait for
      a server its 90 rounds.
    - [resources_enumerated] needs three units of fuel for each entry still to be
      visited and two more; the directories and globs are finite lists.
    - The expansion of Cargo features recurses like that of permission sets:
      [enabled_features_reached] needs fuel above the rank of a feature, and
      [circular_feature_diverges] is the cycle.
    - Other recursion is structural or takes the length of its text as fuel,
      of which every round consumes a byte.
    - Integers are [Z] or [N] with the wrap-around or the panic of their width
      written out: [u32] ids and counters, [u64] ranges of files.

    ** What is not modelled

    The errors of serde, the TOML and JSON parsers, the mobile plugins and the proxy of the
    mobile development server, the UNC paths and asset keys of Windows, tracing,
    poisoned locks, the runtime on platforms other than Linux, the attributes
    and the centring of a new window, the setters of window handles that only
    call the runtime, menu items and images, the macros other than commands, the
    archives and checksums of packages, tools of packagers that fail,
    the notarization itself, the search for the signing tool of Windows, the
    resource directories of Windows and iOS, and of the bundler, the command line and the code generation
    what is not named above. Errors of the file system in the middle of a read or
    of a write are not modelled either. The legacy copy of the crates under
    [src/core] is not modelled: the workspace builds [src/crates].

    ** Plan

    Next would be the life cycle of [app.rs] from the builder to the restart, the
    keys of [pattern/isolation.rs], and the tokens that [config.rs] and [acl]
    generate. *)
From Stdlib Require Import Ascii.
From stdpp Require Export base gmap strings list list_numbers sorting.

#[global] Open Scope stdpp_scope.

(** ** Outcomes of Rust computations

    A Rust call returns [Ok] or [Err], panics, or, for the calls whose
    recursion the source does not bound, does not return: [Diverge] is what a
    fuelled model answers when its fuel is spent. *)
Inductive outcome (E A : Type) : Type :=
| Ok (a : A)
| Err (e : E)
| Panic (msg : string)
| Diverge.
Arguments Ok {E A} a.
Arguments Err {E A} e.
Arguments Panic {E A} msg.
Arguments Diverge {E A}.

#[global] Instance outcome_ret E : MRet (outcome E) := λ A a, Ok a.
#[global] Instance outcome_bind E : MBind (outcome E) := λ A B f m,
  match m with
  | Ok a => f a
  | Err e => Err e
  | Panic msg => Panic msg
  | Diverge => Diverge
  end.
#[global] Instance outcome_fmap E : FMap (outcome E) := λ A B f m,
  match m with
  | Ok a => Ok (f a)
  | Err e => Err e
  | Panic msg => Panic msg
  | Diverge => Diverge
  end.

(** [Option::ok_or]. *)
Definition ok_or {E A} (o : option A) (e : E) : outcome E A :=
  match o with Some a => Ok a | None => Err e end.

(** [Result::ok]. *)
Definition ok {E A} (r : outcome E A) : option A :=
  match r with Ok a => Some a | _ => None end.

(** [Option::unwrap] and [expect]. *)
Definition expect {E A} (o : option A) (msg : string) : outcome E A :=
  match o with Some a => Ok a | None => Panic msg end.

(** [Result::map_err]. *)
Definition map_err {E F A} (f : E → F) (r : outcome E A) : outcome F A :=
  match r with
  | Ok a => Ok a
  | Err e => Err (f e)
  | Panic msg => Panic msg
  | Diverge => Diverge
  end.

(** The [for] loop whose body may fail: state is threaded left to right and
    the first result other than [Ok] ends the loop. *)
Fixpoint for_each {E S A} (f : S → A → outcome E S) (l : list A) (s : S) : outcome E S :=
  match l with
  | [] => Ok s
  | a :: l => s' ← f s a; for_each f l s'
  end.

(** [iter.map(f).collect::<Result<Vec<_>, _>>()]. *)
Fixpoint collect {E A B} (f : A → outcome E B) (l : list A) : outcome E (list B) :=
  match l with
  | [] => Ok []
  | a :: l => b ← f a; bs ← collect f l; Ok (b :: bs)
  end.

(** ** Strings

    A Rust [String] is the [string] of its bytes. *)
Fixpoint strip_prefix (p s : string) : option string :=
  match p, s with
  | EmptyString, _ => Some s
  | String c p', String d s' => if decide (c = d) then strip_prefix p' s' else None
  | String _ _, EmptyString => None
  end.

Definition starts_with (p s : string) : bool :=
  match strip_prefix p s with Some _ => true | None => false end.

(** The bytes of a string, and back. *)
Abbreviation bytes := String.list_ascii_of_string.
Abbreviation of_bytes := String.string_of_list_ascii.

Definition rev_string (s : string) : string := of_bytes (reverse (bytes s)).

Definition ends_with (p s : string) : bool := starts_with (rev_string p) (rev_string s).

(** [str::split(char)]: at least one piece, the pieces between separators. *)
Fixpoint split_bytes (sep : ascii) (l : list ascii) : list (list ascii) :=
  match l with
  | [] => [[]]
  | c :: l =>
      if decide (c = sep) then [] :: split_bytes sep l
      else match split_bytes sep l with
           | [] => [[c]]
           | p :: ps => (c :: p) :: ps
           end
  end.

Definition split_on (sep : ascii) (s : string) : list string :=
  of_bytes <$> split_bytes sep (bytes s).

(** [[T]::join]. *)
Abbreviation join := String.concat.

(** ** Ordered maps

    A [BTreeMap] is a [gmap]; iterating it visits the keys in increasing
    order, which for strings is the order of their bytes. *)
Definition key_le {V} (R : relation string) (x y : string * V) : Prop := R x.1 y.1.

#[global] Instance key_le_dec {V} R `{!RelDecision R} : RelDecision (@key_le V R).
Proof. intros x y. unfold key_le. apply _. Defined.

Definition btree_to_list {V} (m : gmap string V) : list (string * V) :=
  merge_sort (key_le String.le) (map_to_list m).

Definition btree_keys {V} (m : gmap string V) : list string := (btree_to_list m).*1.
Definition btree_values {V} (m : gmap string V) : list V := (btree_to_list m).*2.

(** [map.entry(k).or_insert(d)] followed by an update of the entry in place. *)
Definition entry_or {K V} `{Countable K} (d : V) (f : V → V) (k : K) (m : gmap K V) : gmap K V :=
  <[k := f (default d (m !! k))]> m.

(** ** Machine integers *)
Definition u32_max : Z := 2 ^ 32 - 1.
Definition u64_modulus : Z := 2 ^ 64.
(** [AtomicU32::fetch_add(1)] wraps around. *)
Definition wrapping_u32 (z : Z) : Z := z `mod` 2 ^ 32.

(** ** Tactics *)
Ltac destruct_outcome :=
  match goal with
  | H : context [match ?m with Ok _ => _ | Err _ => _ | Panic _ => _ | Diverge => _ end] |- _ =>
      let E := fresh "Hm" in destruct m eqn:E; simplify_eq/=
  | |- context [match ?m with Ok _ => _ | Err _ => _ | Panic _ => _ | Diverge => _ end] =>
      let E := fresh "Hm" in destruct m eqn:E; simplify_eq/=
  end.

Create HintDb tauri.
Create Rewrite HintDb tauri.

(** ** Lemmas on outcomes *)
Lemma bind_ok {E A B} (f : A → outcome E B) m b :
  m ≫= f = Ok b ↔ ∃ a, m = Ok a ∧ f a = Ok b.
Proof. destruct m; simpl; naive_solver. Qed.

Lemma fmap_ok {E A B} (f : A → B) (m : outcome E A) b :
  f <$> m = Ok b ↔ ∃ a, m = Ok a ∧ b = f a.
Proof. destruct m; simpl; naive_solver. Qed.

Lemma ok_or_ok {E A} (o : option A) (e : E) a : ok_or o e = Ok a ↔ o = Some a.
Proof. destruct o; naive_solver. Qed.

Lemma for_each_app {E S A} (f : S → A → outcome E S) l1 l2 s :
  for_each f (l1 ++ l2) s = for_each f l1 s ≫= for_each f l2.
Proof.
  revert s. induction l1 as [|a l1 IH]; intros s; simpl; [done|].
  destruct (f s a); simpl; auto.
Qed.

(** A loop that ends preserves every invariant of its body. *)
Lemma for_each_inv {E S A} (P : S → Prop) (f : S → A → outcome E S) l s s' :
  (∀ s a s', a ∈ l → P s → f s a = Ok s' → P s') →
  P s → for_each f l s = Ok s' → P s'.
Proof.
  revert s. induction l as [|a l IH]; intros s Hf Hs Hl; simpl in Hl; [by simplify_eq|].
  apply bind_ok in Hl as (s1 & H1 & H2).
  eapply IH; [| |exact H2].
  - intros ??? Hin. apply Hf. by right.
  - eapply Hf; [left|exact Hs|exact H1].
Qed.

Lemma for_each_not_diverge {E S A} (f : S → A → outcome E S) l s :
  (∀ s a, a ∈ l → f s a ≠ Diverge) → for_each f l s ≠ Diverge.
Proof.
  revert s. induction l as [|a l IH]; intros s Hf; simpl; [done|].
  destruct (f s a) as [s'| | |] eqn:Hs; simpl; try done.
  - apply IH. intros ?? Hin. apply Hf. by right.
  - exfalso. by apply (Hf s a); [left|].
Qed.

(** Two bodies that agree where the first returns give the same loop there. *)
Lemma for_each_agree {E S A} (f g : S → A → outcome E S) l s :
  (∀ s a, a ∈ l → f s a ≠ Diverge → g s a = f s a) →
  for_each f l s ≠ Diverge → for_each g l s = for_each f l s.
Proof.
  revert s. induction l as [|a l IH]; intros s Hfg Hl; simpl in *; [done|].
  assert (f s a ≠ Diverge) as Hs by (intros Heq; by rewrite Heq in Hl).
  rewrite Hfg by (first [left; done | done]). destruct (f s a) as [s'| | |]; simpl in *; try done.
  apply IH; [|done]. intros ?? Hin. apply Hfg. by right.
Qed.

Lemma collect_ok {E A B} (f : A → outcome E B) l bs :
  collect f l = Ok bs ↔ Forall2 (λ a b, f a = Ok b) l bs.
Proof.
  revert bs. induction l as [|a l IH]; intros bs; simpl.
  - split; [intros; simplify_eq; constructor|inversion 1; done].
  - rewrite bind_ok. split.
    + intros (b & Hb & Hr). apply bind_ok in Hr as (bs' & Hbs & ?). simplify_eq.
      constructor; [done|]. by apply IH.
    + inversion 1 as [|? b ? bs' Hb Hbs]; subst. exists b. split; [done|].
      apply IH in Hbs. rewrite Hbs. done.
Qed.

Lemma collect_not_diverge {E A B} (f : A → outcome E B) l :
  (∀ a, f a ≠ Diverge) → collect f l ≠ Diverge.
Proof.
  intros Hf. induction l as [|a l IH]; simpl; [done|].
  specialize (Hf a). destruct (f a); try done. simpl. by destruct (collect f l).
Qed.

Lemma elem_of_concat {A} (x : A) ls : x ∈ concat ls ↔ ∃ l, x ∈ l ∧ l ∈ ls.
Proof. induction ls; simpl; [set_solver|]. rewrite elem_of_app. set_solver. Qed.

(** ** Lemmas on strings *)
Lemma append_nil_l s : "" +:+ s = s.
Proof. done. Qed.

Lemma append_cons c a b : String c a +:+ b = String c (a +:+ b).
Proof. done. Qed.

Lemma bytes_append a b : bytes (a +:+ b) = bytes a ++ bytes b.
Proof. induction a as [|c a IH]; [done|]. rewrite append_cons. simpl. by rewrite IH. Qed.

Lemma bytes_inj a b : bytes a = bytes b → a = b.
Proof.
  intros H. rewrite <-(String.string_of_list_ascii_of_string a), H.
  apply String.string_of_list_ascii_of_string.
Qed.

Lemma of_bytes_append a b : of_bytes (a ++ b) = of_bytes a +:+ of_bytes b.
Proof.
  apply bytes_inj. rewrite bytes_append, !String.list_ascii_of_string_of_list_ascii. done.
Qed.

Lemma bytes_of_bytes l : bytes (of_bytes l) = l.
Proof. apply String.list_ascii_of_string_of_list_ascii. Qed.

Lemma of_bytes_bytes s : of_bytes (bytes s) = s.
Proof. apply String.string_of_list_ascii_of_string. Qed.

Lemma length_bytes s : length (bytes s) = String.length s.
Proof. induction s; simpl; congruence. Qed.

Lemma length_append a b : String.length (a +:+ b) = String.length a + String.length b.
Proof. by rewrite <-!length_bytes, bytes_append, length_app. Qed.

Lemma strip_prefix_spec p s r : strip_prefix p s = Some r ↔ s = p +:+ r.
Proof.
  revert s. induction p as [|c p IH]; intros s; simpl.
  - rewrite append_nil_l. naive_solver.
  - rewrite append_cons. destruct s as [|d s]; [naive_solver|].
    case_decide as Hc; [subst; rewrite IH; naive_solver|naive_solver].
Qed.

Lemma starts_with_spec p s : starts_with p s = true ↔ ∃ r, s = p +:+ r.
Proof.
  unfold starts_with. destruct (strip_prefix p s) as [r|] eqn:E.
  - apply strip_prefix_spec in E. naive_solver.
  - split; [done|]. intros [r Hr]. apply strip_prefix_spec in Hr. congruence.
Qed.

(** ** Lemmas on ordered maps *)
Lemma btree_to_list_perm {V} (m : gmap string V) : btree_to_list m ≡ₚ map_to_list m.
Proof. apply merge_sort_Permutation. Qed.

Lemma elem_of_btree_to_list {V} (m : gmap string V) k v :
  (k, v) ∈ btree_to_list m ↔ m !! k = Some v.
Proof. rewrite btree_to_list_perm. apply elem_of_map_to_list. Qed.

Lemma elem_of_btree_keys {V} (m : gmap string V) k : k ∈ btree_keys m ↔ is_Some (m !! k).
Proof.
  unfold btree_keys. rewrite list_elem_of_fmap. split.
  - intros ([k' v] & -> & H). apply elem_of_btree_to_list in H. eauto.
  - intros [v H]. exists (k, v). split; [done|]. by apply elem_of_btree_to_list.
Qed.

Lemma elem_of_btree_values {V} (m : gmap string V) v :
  v ∈ btree_values m ↔ ∃ k, m !! k = Some v.
Proof.
  unfold btree_values. rewrite list_elem_of_fmap. split.
  - intros ([k v'] & -> & H). apply elem_of_btree_to_list in H. eauto.
  - intros [k H]. exists (k, v). split; [done|]. by apply elem_of_btree_to_list.
Qed.

Lemma lookup_entry_or_eq {K V} `{Countable K} d (f : V → V) (k : K) m :
  entry_or d f k m !! k = Some (f (default d (m !! k))).
Proof. apply lookup_insert_eq. Qed.

Lemma lookup_entry_or_ne {K V} `{Countable K} d (f : V → V) (k k' : K) m :
  k ≠ k' → entry_or d f k m !! k' = m !! k'.
Proof. intros. by apply lookup_insert_ne. Qed.

Lemma btree_to_list_NoDup {V} (m : gmap string V) : NoDup (btree_to_list m).*1.
Proof. rewrite btree_to_list_perm. apply NoDup_fst_map_to_list. Qed.

(** Updating the entries of a map along a list of distinct keys. *)
Lemma lookup_foldl_entry {V W} (d : V) (f : W → V → V) l (m : gmap string V) k :
  NoDup l.*1 →
  foldl (λ m p, entry_or d (f p.2) p.1 m) m l !! k =
  match (list_to_map l : gmap string W) !! k with
  | Some w => Some (f w (default d (m !! k)))
  | None => m !! k
  end.
Proof.
  revert m. induction l as [|[k' w] l IH]; intros m Hnd; simpl in *; [done|].
  apply NoDup_cons in Hnd as [Hk Hnd]. rewrite IH by done.
  destruct (decide (k' = k)) as [->|Hne].
  - rewrite lookup_insert_eq. rewrite not_elem_of_list_to_map_1 by done. apply lookup_entry_or_eq.
  - rewrite lookup_insert_ne by done. by rewrite lookup_entry_or_ne.
Qed.

(** The loop [for (k, w) in map { update(entry(k), w) }]. *)
Lemma lookup_foldl_btree {V W} (d : V) (f : W → V → V) (r : gmap string W) m k :
  foldl (λ m p, entry_or d (f p.2) p.1 m) m (btree_to_list r) !! k =
  match r !! k with
  | Some w => Some (f w (default d (m !! k)))
  | None => m !! k
  end.
Proof.
  rewrite lookup_foldl_entry by apply btree_to_list_NoDup.
  rewrite (list_to_map_proper _ (map_to_list r)), list_to_map_to_list;
    [done|apply btree_to_list_NoDup|apply btree_to_list_perm].
Qed.

#[export] Hint Resolve elem_of_btree_keys elem_of_btree_values : tauri.
#[export] Hint Rewrite @lookup_entry_or_eq @bytes_append bytes_of_bytes of_bytes_bytes : tauri.
