(* ===== verification/Identifier.v ===== *)
(** * Permission identifiers

    Models [tauri-utils/Source/acl/identifier.rs]: the byte-wise validation of
    [Identifier::try_from], which records the index of the separator, and the
    two views [get_prefix] and [get_base] that the access control list uses to
    find a manifest and a permission in it. *)
From Stdlib Require Import Ascii.
From S2P Require Import Prelude.

Module Identifier.

Definition IDENTIFIER_SEPARATOR : ascii := ":"%char.
Definition HYPHEN : ascii := "-"%char.
Definition PLUGIN_PREFIX : string := "tauri-plugin-".
Definition CORE_PLUGIN_IDENTIFIER_PREFIX : string := "core:".

Definition MAX_LEN_PREFIX : nat := 64 - String.length PLUGIN_PREFIX.
Definition MAX_LEN_BASE : nat := 64.
Definition MAX_LEN_IDENTIFIER : nat := MAX_LEN_PREFIX + 1 + MAX_LEN_BASE.

(** The separator is a [NonZeroU8] index into [inner]. *)
Record Identifier := mk_identifier {
  inner : string;
  separator : option nat;
}.

Inductive ParseIdentifierError :=
| StartsWithTauriPlugin
| Empty
| Humongous (len : nat)
| InvalidFormat
| MultipleSeparators
| TrailingHyphen
| PrefixWithoutBase.

Definition get (id : Identifier) : string := inner id.

Definition separator_index (id : Identifier) : option nat := separator id.

(** The slices [inner[i + 1..]] and [inner[0..i]]; that the index is in range
    is part of [try_from_views]. *)
Definition get_base (id : Identifier) : string :=
  match separator_index id with
  | None => get id
  | Some i => of_bytes (drop (i + 1) (bytes (inner id)))
  end.

Definition get_prefix (id : Identifier) : option string :=
  (λ i, of_bytes (take i (bytes (inner id)))) <$> separator_index id.

(** [todo!()]. *)
Definition set_prefix (id : Identifier) : outcome ParseIdentifierError unit :=
  Panic "not yet implemented".

Inductive ValidByte :=
| Separator
| Byte (byte : ascii).

Definition in_range (lo hi : N) (c : ascii) : bool :=
  bool_decide (lo ≤ N_of_ascii c)%N && bool_decide (N_of_ascii c ≤ hi)%N.

(** [u8::is_ascii_alphanumeric]. *)
Definition is_ascii_alphanumeric (c : ascii) : bool :=
  in_range 48 57 c || in_range 65 90 c || in_range 97 122 c.

Definition alpha_numeric (byte : ascii) : option ValidByte :=
  if is_ascii_alphanumeric byte then Some (Byte byte) else None.

Definition alpha_numeric_hyphen (byte : ascii) : option ValidByte :=
  if is_ascii_alphanumeric byte || bool_decide (byte = HYPHEN) then Some (Byte byte) else None.

Definition is_hyphen (b : ValidByte) : bool :=
  match b with Byte c => bool_decide (c = HYPHEN) | Separator => false end.

Definition next (self : ValidByte) (next : ascii) : option ValidByte :=
  if is_hyphen self && bool_decide (next = IDENTIFIER_SEPARATOR) then None
  else if (match self with Separator => true | Byte _ => false end) && bool_decide (next = HYPHEN)
  then None
  else if bool_decide (next = IDENTIFIER_SEPARATOR) then Some Separator
  else match self with
       | Separator => alpha_numeric next
       | Byte _ => if is_hyphen self then alpha_numeric next else alpha_numeric_hyphen next
       end.

(** The loop over the bytes after the first. [idx] is a [u8]: the addition
    panics when it does not fit, and so does the conversion to [NonZeroU8] of
    zero. *)
Fixpoint scan (is_core_identifier : bool) (prev : ValidByte) (idx : nat)
    (separator : option nat) (l : list ascii)
    : outcome ParseIdentifierError (ValidByte * option nat) :=
  match l with
  | [] => Ok (prev, separator)
  | byte :: l =>
      let idx := idx + 1 in
      if decide (255 < idx) then Panic "attempt to add with overflow"
      else match next prev byte with
           | None => Err InvalidFormat
           | Some (Byte c) => scan is_core_identifier (Byte c) idx separator l
           | Some Separator =>
               if bool_decide (separator = None) || is_core_identifier then
                 if decide (idx = 0) then Panic "called `Result::unwrap()` on an `Err` value"
                 else scan is_core_identifier Separator idx (Some idx) l
               else Err MultipleSeparators
           end
  end.

Definition try_from (value : string) : outcome ParseIdentifierError Identifier :=
  if starts_with PLUGIN_PREFIX value then Err StartsWithTauriPlugin
  else if bool_decide (value = "") then Err Empty
  else if decide (MAX_LEN_IDENTIFIER < String.length value) then Err (Humongous (String.length value))
  else
    let is_core_identifier := starts_with CORE_PLUGIN_IDENTIFIER_PREFIX value in
    let l := bytes value in
    prev ← ok_or (head l ≫= alpha_numeric) InvalidFormat;
    '(prev, separator) ← scan is_core_identifier prev 0 None (tail l);
    match prev with
    | Separator => Err PrefixWithoutBase
    | Byte c =>
        if decide (c = HYPHEN) then Err TrailingHyphen
        else Ok (mk_identifier value separator)
    end.

(** ** Specification

    Which bytes may follow each other, said of the bytes alone. *)
Definition alnum (c : ascii) : Prop := is_ascii_alphanumeric c = true.

Definition adjacent (a b : ascii) : Prop :=
  (alnum a ∧ (alnum b ∨ b = HYPHEN ∨ b = IDENTIFIER_SEPARATOR)) ∨
  (a = HYPHEN ∧ alnum b) ∨
  (a = IDENTIFIER_SEPARATOR ∧ (alnum b ∨ b = IDENTIFIER_SEPARATOR)).

Definition separators (l : list ascii) : nat :=
  length (filter (λ c, c = IDENTIFIER_SEPARATOR) l).

Definition well_formed (s : string) : Prop :=
  starts_with PLUGIN_PREFIX s = false ∧
  String.length s ≤ MAX_LEN_IDENTIFIER ∧
  (∃ a, head (bytes s) = Some a ∧ alnum a) ∧
  (∃ z, last (bytes s) = Some z ∧ alnum z) ∧
  Sorted adjacent (bytes s) ∧
  (starts_with CORE_PLUGIN_IDENTIFIER_PREFIX s = true ∨ separators (bytes s) ≤ 1).

(** The byte a state of the scan stands for. *)
Definition char_of (b : ValidByte) : ascii :=
  match b with Separator => IDENTIFIER_SEPARATOR | Byte c => c end.

Definition of_char (c : ascii) : ValidByte :=
  if decide (c = IDENTIFIER_SEPARATOR) then Separator else Byte c.

(** Index of the last separator seen. *)
Fixpoint last_separator (idx : nat) (sep : option nat) (l : list ascii) : option nat :=
  match l with
  | [] => sep
  | c :: l =>
      last_separator (idx + 1) (if decide (c = IDENTIFIER_SEPARATOR) then Some (idx + 1) else sep) l
  end.

Definition seen (sep : option nat) : nat := match sep with Some _ => 1 | None => 0 end.

(** ** Lemmas *)
Lemma alnum_not_hyphen c : alnum c → c ≠ HYPHEN.
Proof. by intros H ->. Qed.

Lemma alnum_not_separator c : alnum c → c ≠ IDENTIFIER_SEPARATOR.
Proof. by intros H ->. Qed.

#[local] Hint Resolve alnum_not_hyphen alnum_not_separator : core.

Lemma of_char_char_of b : b ≠ Byte IDENTIFIER_SEPARATOR → of_char (char_of b) = b.
Proof. destruct b as [|c]; unfold of_char, char_of; case_decide; naive_solver. Qed.

(** One step of the scan is adjacency. *)
Lemma next_spec b c v :
  (b = Separator ∨ alnum (char_of b) ∨ b = Byte HYPHEN) →
  next b c = Some v ↔ adjacent (char_of b) c ∧ v = of_char c.
Proof.
  intros Hb. unfold next, adjacent, of_char, alpha_numeric, alpha_numeric_hyphen, alnum, is_hyphen.
  destruct b as [|d]; simpl in *;
    repeat case_bool_decide; repeat case_decide; simplify_eq/=;
    try (destruct (is_ascii_alphanumeric c) eqn:Hc; simpl);
    try (destruct (is_ascii_alphanumeric d) eqn:Hd; simpl); naive_solver.
Qed.

Lemma adjacent_valid a c :
  adjacent a c → of_char c = Separator ∨ alnum (char_of (of_char c)) ∨ of_char c = Byte HYPHEN.
Proof.
  unfold of_char, adjacent. case_decide; simpl; [by left|]. naive_solver.
Qed.

Lemma char_of_of_char c : char_of (of_char c) = c.
Proof. unfold of_char. case_decide; by subst. Qed.

Lemma separators_cons c l :
  separators (c :: l) = (if decide (c = IDENTIFIER_SEPARATOR) then 1 else 0) + separators l.
Proof. unfold separators. rewrite filter_cons. by case_decide. Qed.

(** The scan accepts exactly the chains of adjacent bytes, and answers the last
    byte and the index of the last separator. *)
Lemma scan_spec core b idx sep l r :
  (b = Separator ∨ alnum (char_of b) ∨ b = Byte HYPHEN) →
  idx + length l ≤ 255 →
  scan core b idx sep l = Ok r ↔
  Sorted adjacent (char_of b :: l) ∧
  r = (of_char (default (char_of b) (last l)), last_separator idx sep l) ∧
  (core = true ∨ separators l + seen sep ≤ 1).
Proof.
  revert b idx sep. induction l as [|c l IH]; intros b idx sep Hb Hlen; simpl in *.
  { rewrite of_char_char_of by (intros ->; destruct Hb as [?|[?|?]]; done).
    split; [|naive_solver]. intros. simplify_eq. split_and!; [repeat constructor|done|].
    right. destruct sep; simpl; lia. }
  rewrite decide_False by lia. rewrite separators_cons.
  assert (default (char_of b) (last (c :: l)) = default (char_of (of_char c)) (last l)) as Hlast.
  { rewrite char_of_of_char, last_cons. by destruct (last l). }
  rewrite Hlast.
  destruct (next b c) as [v|] eqn:Hn.
  - apply next_spec in Hn as [Hadj ->]; [|done]. pose proof (adjacent_valid _ _ Hadj) as Hv.
    unfold of_char in *. case_decide as Hc; simpl in *.
    + case_decide; [lia|].
      destruct (bool_decide (sep = None) || core) eqn:Hs.
      * rewrite IH by (eauto; lia). simpl. rewrite Hc.
        split; intros (H1 & H2 & H3); (split; [|split]); try done.
        -- constructor; [done|]. constructor. by rewrite <-Hc.
        -- destruct H3 as [?|H3]; [by left|]. destruct core; [by left|right].
           destruct sep; simpl in *; [done|lia].
        -- by apply Sorted_inv in H1 as [? _].
        -- destruct H3 as [?|H3]; [by left|]. destruct core; [by left|right].
           destruct sep; simpl in *; [done|lia].
      * apply orb_false_iff in Hs as [Hs ->]. apply bool_decide_eq_false in Hs.
        split; [done|]. intros (_ & _ & [?|Hl]); [done|]. destruct sep; simpl in *; [lia|done].
    + rewrite IH by (eauto; lia). simpl.
      split; intros (H1 & H2 & H3); (split; [|split]); try done.
      * constructor; [done|]. by constructor.
      * by apply Sorted_inv in H1 as [? _].
  - split; [done|]. intros (H1 & _ & _). exfalso.
    apply Sorted_inv in H1 as [_ Hhd]. inversion Hhd as [|?? Hadj]; subst.
    assert (next b c = Some (of_char c)) as Hx by (by apply next_spec). congruence.
Qed.

Lemma scan_no_panic core b idx sep l :
  idx + length l ≤ 255 →
  (∀ msg, scan core b idx sep l ≠ Panic msg) ∧ scan core b idx sep l ≠ Diverge.
Proof.
  revert b idx sep. induction l as [|c l IH]; intros b idx sep Hlen; simpl in *; [done|].
  rewrite decide_False by lia.
  destruct (next b c) as [[|d]|]; [|apply IH; lia|done].
  destruct (_ || _); [|done]. case_decide; [lia|]. apply IH; lia.
Qed.

Lemma last_separator_spec idx sep l :
  match last_separator idx sep l with
  | None => sep = None ∧ IDENTIFIER_SEPARATOR ∉ l
  | Some i =>
      (sep = Some i ∧ IDENTIFIER_SEPARATOR ∉ l) ∨
      ∃ l1 l2, l = l1 ++ IDENTIFIER_SEPARATOR :: l2 ∧ i = idx + 1 + length l1 ∧
               IDENTIFIER_SEPARATOR ∉ l2
  end.
Proof.
  revert idx sep. induction l as [|c l IH]; intros idx sep; simpl.
  { destruct sep; [left|]; split; auto; apply not_elem_of_nil. }
  specialize (IH (idx + 1) (if decide (c = IDENTIFIER_SEPARATOR) then Some (idx + 1) else sep)).
  destruct (last_separator _ _ l) as [i|].
  - destruct IH as [[Hs Hl]|(l1 & l2 & -> & -> & Hl)].
    + case_decide as Hc; simplify_eq.
      * right. exists [], l. split_and!; [done|simpl; lia|done].
      * left. split; [done|]. rewrite not_elem_of_cons. naive_solver.
    + right. exists (c :: l1), l2. split_and!; [done|simpl; lia|done].
  - destruct IH as [Hs Hl]. case_decide; [done|]. split; [done|].
    rewrite not_elem_of_cons. naive_solver.
Qed.

Lemma sorted_adjacent_byte a l x :
  Sorted adjacent (a :: l) → x ∈ l → alnum x ∨ x = HYPHEN ∨ x = IDENTIFIER_SEPARATOR.
Proof.
  revert a. induction l as [|y l IH]; intros a Hs Hx; [by apply not_elem_of_nil in Hx|].
  apply Sorted_inv in Hs as [Hs Hhd]. inversion Hhd as [|?? Hadj]; subst.
  apply elem_of_cons in Hx as [->|Hx]; [unfold adjacent in Hadj; naive_solver|eauto].
Qed.

(** What a successful parse goes through. *)
Lemma try_from_ok s id :
  try_from s = Ok id ↔
  well_formed s ∧ id = mk_identifier s (last_separator 0 None (tail (bytes s))).
Proof.
  unfold try_from, well_formed.
  destruct (starts_with PLUGIN_PREFIX s); [naive_solver|].
  case_bool_decide as He; [subst; simpl; naive_solver|].
  case_decide as Hlen; [naive_solver lia|].
  assert (length (bytes s) ≤ 116) as Hle.
  { change MAX_LEN_IDENTIFIER with 116 in Hlen. rewrite length_bytes. lia. }
  destruct (bytes s) as [|a l] eqn:Hs.
  { exfalso. apply He. by apply bytes_inj. }
  simpl in *. unfold alpha_numeric.
  destruct (is_ascii_alphanumeric a) eqn:Ha; simpl.
  2: { split; [done|]. intros ((_ & _ & (a' & ? & Ha') & _) & _). simplify_eq.
       unfold alnum in Ha'. congruence. }
  change (alnum a) in Ha.
  assert (last (a :: l) = Some (default a (last l))) as Hl.
  { rewrite last_cons. by destruct (last l). }
  rewrite Hl. split.
  - intros H. apply bind_ok in H as ([b sep] & Hscan & Hb).
    apply scan_spec in Hscan as (Hsorted & ? & Hsep); simpl in *; [|naive_solver|lia].
    destruct b as [|c]; [done|]. case_decide as Hc; [done|]. simplify_eq/=.
    assert (default a (last l) = c) as Hd.
    { rewrite <-(char_of_of_char (default a (last l))). unfold of_char in *.
      case_decide; simplify_eq; done. }
    split; [|done]. split_and!; try done; [lia|eauto| |].
    + exists c. rewrite Hd. split; [done|].
      destruct (last l) as [z|] eqn:Hz; simpl in Hd; subst; [|done].
      apply last_Some in Hz as [l' ->].
      destruct (sorted_adjacent_byte a (l' ++ [c]) c) as [?|[?|?]]; [done|set_solver|done|done|].
      unfold of_char in *. case_decide; naive_solver.
    + destruct Hsep as [?|?]; [by left|right]. rewrite separators_cons, decide_False by eauto. lia.
  - intros ((_ & _ & _ & (z & Hz & Hzal) & Hsorted & Hsep) & ->). simplify_eq.
    apply bind_ok. eexists (of_char (default a (last l)), _). split.
    + apply scan_spec; simpl; [naive_solver|lia|]. split_and!; [done|done|].
      destruct Hsep as [?|Hle']; [by left|right].
      rewrite separators_cons, decide_False in Hle' by eauto. lia.
    + unfold of_char. rewrite decide_False by eauto. by rewrite decide_False by eauto.
Qed.

Lemma try_from_inner s id : try_from s = Ok id → inner id = s.
Proof. intros H. by apply try_from_ok in H as [_ ->]. Qed.

(** ** Properties *)

(** [Identifier::try_from] accepts a string exactly when it is well formed:
    no [tauri-plugin-] prefix, 1 to 116 bytes, first and last byte
    alphanumeric, hyphens only between alphanumerics, no hyphen next to a
    separator, and a single separator unless the identifier starts with
    [core:]. *)
Theorem try_from_accepts s : (∃ id, try_from s = Ok id) ↔ well_formed s.
Proof.
  split.
  - intros [id H]. by apply try_from_ok in H as [? _].
  - intros H. eexists. apply try_from_ok. by split.
Qed.

(** The two views of a parsed identifier give it back: without a separator
    the base is the whole string and there is no prefix; with one, the string
    is [prefix:base], both parts are not empty and the base has no separator
    (so the split is at the last one), and the index used for the slices is
    inside the string. *)
Theorem try_from_views s id :
  try_from s = Ok id →
  inner id = s ∧
  match get_prefix id with
  | None => get_base id = s ∧ IDENTIFIER_SEPARATOR ∉ bytes s
  | Some p =>
      s = p +:+ String IDENTIFIER_SEPARATOR (get_base id) ∧
      p ≠ "" ∧ get_base id ≠ "" ∧ (IDENTIFIER_SEPARATOR ∉ bytes (get_base id)) ∧
      (∃ i, separator_index id = Some i ∧ 0 < i ∧ i + 1 < String.length s ∧ String.length p = i)
  end.
Proof.
  intros H. apply try_from_ok in H as [Hwf ->]. split; [done|].
  destruct Hwf as (_ & _ & (a & Ha & Hal) & (z & Hz & Hzal) & _ & _).
  unfold get_prefix, get_base, separator_index, get; simpl.
  destruct (bytes s) as [|a' l] eqn:Hs; simplify_eq/=.
  pose proof (last_separator_spec 0 None l) as Hsep.
  destruct (last_separator 0 None l) as [i|]; simpl.
  2: { split; [done|]. rewrite not_elem_of_cons. split; [|naive_solver].
       intros <-. by apply alnum_not_separator in Hal. }
  destruct Hsep as [[? _]|(l1 & l2 & -> & -> & Hl2)]; [done|].
  replace (a :: l1 ++ IDENTIFIER_SEPARATOR :: l2)
    with ((a :: l1) ++ IDENTIFIER_SEPARATOR :: l2) in * by done.
  rewrite take_app_length' by (simpl; lia).
  replace (0 + 1 + length l1 + 1) with (length (a :: l1) + 1) by (simpl; lia).
  rewrite drop_app_add. change (drop 1 (IDENTIFIER_SEPARATOR :: l2)) with l2.
  assert (l2 ≠ []) as Hne.
  { intros ->. rewrite last_app in Hz. simpl in Hz. simplify_eq.
    by apply alnum_not_separator in Hzal. }
  assert (∀ l, l ≠ [] → of_bytes l ≠ "") as Hnb by (by intros [|] ?).
  split_and!; auto; [|by rewrite bytes_of_bytes|].
  - apply bytes_inj. rewrite Hs, bytes_append. simpl. by rewrite !bytes_of_bytes.
  - eexists. split; [done|]. rewrite <-length_bytes, Hs, length_app. simpl.
    rewrite <-length_bytes, bytes_of_bytes. simpl.
    destruct l2; [done|]. simpl. lia.
Qed.

Lemma try_from_views_witness :
  get_prefix (mk_identifier "core:window:allow-close" (Some 11)) = Some "core:window" ∧
  "core:window:allow-close" =
    "core:window" +:+ String IDENTIFIER_SEPARATOR
      (get_base (mk_identifier "core:window:allow-close" (Some 11))).
Proof.
  split; [reflexivity|].
  refine (proj1 (proj2 (try_from_views "core:window:allow-close"
    (mk_identifier "core:window:allow-close" (Some 11)) _))).
  vm_compute. reflexivity.
Defined.

(** Parsing an identifier always returns: neither the [u8] index of the
    scan nor its conversion to [NonZeroU8] can panic, since at most 116 bytes
    are scanned. *)
Theorem try_from_total s :
  (∃ id, try_from s = Ok id) ∨ (∃ e, try_from s = Err e).
Proof.
  destruct (try_from s) as [id|e|msg|] eqn:H; [by left; eauto|by right; eauto| |]; exfalso.
  all: unfold try_from in H; repeat (case_match; try done);
    destruct (head (bytes s) ≫= alpha_numeric) as [b|]; simpl in H; [|done];
    destruct (scan_no_panic (starts_with CORE_PLUGIN_IDENTIFIER_PREFIX s) b 0 None
      (tail (bytes s))) as [? ?];
    [change MAX_LEN_IDENTIFIER with 116 in *; pose proof (length_bytes s); destruct (bytes s); simpl in *; lia|].
  all: destruct (scan _ _ _ _ _) as [[[] ?]| | |] eqn:Hsc; simpl in H;
    repeat (case_match; try done); naive_solver.
Qed.

(** Inside [core:] identifiers a separator may follow a separator, so
    [core::default] parses, with the prefix [core:] that names no manifest. *)
Theorem core_identifier_doubled_separator :
  try_from "core::default" = Ok (mk_identifier "core::default" (Some 5)) ∧
  get_prefix (mk_identifier "core::default" (Some 5)) = Some "core:" ∧
  try_from "fs::default" = Err MultipleSeparators.
Proof. vm_compute. done. Qed.

End Identifier.
