(* ===== verification/Acl.v ===== *)
(** * Data of the access control list

    Models the types of [tauri-utils/Source/acl]: [value.rs], [mod.rs],
    [capability.rs] and [manifest.rs], the platform [Target] of [platform.rs],
    and [Manifest::new]. The glob and URL-pattern packages are not part of the
    repository: they are the type classes [GlobLib] and [UrlPatternLib], whose
    operations every client takes as they are. *)
From Stdlib Require Import SpecFloat.
From S2P Require Import Prelude Identifier.
Import Identifier.

(** ** Interfaces of the packages the access control list calls *)

(** The [glob] package: a pattern parsed from a string ([None] is a
    [PatternError]), its source text, and matching against a label. *)
Class GlobLib := {
  Pattern : Type;
  Pattern_new : string → option Pattern;
  Pattern_as_str : Pattern → string;
  Pattern_matches : Pattern → string → bool;
}.

(** The fields of [urlpattern::UrlPatternInit] that the source rewrites, and
    the others, which it passes on. *)
Record UrlPatternInit (Rest : Type) := mk_init {
  init_search : option string;
  init_hash : option string;
  init_pathname : option string;
  init_rest : Rest;
}.
Arguments mk_init {Rest}.
Arguments init_search {Rest}.
Arguments init_hash {Rest}.
Arguments init_pathname {Rest}.
Arguments init_rest {Rest}.

(** The [urlpattern] and [url] packages. [UrlPattern_test] is [None] when the
    package answers an error. *)
Class UrlPatternLib := {
  InitRest : Type;
  UrlPattern : Type;
  Url : Type;
  parse_constructor_string : string → option (UrlPatternInit InitRest);
  UrlPattern_parse : UrlPatternInit InitRest → option UrlPattern;
  UrlPattern_test : UrlPattern → Url → option bool;
  Url_as_str : Url → string;
}.

Module Acl.

Definition APP_ACL_KEY : string := "__app-acl__".

(** ** Values, commands, scopes *)

(** [f64] is a binary64 datum. *)
Inductive Number :=
| Int (i : Z)
| Float (f : spec_float).

(** A [Map] lists its entries in key order. *)
Inductive Value :=
| Null
| Bool (b : bool)
| Number_ (n : Number)
| String_ (s : string)
| List (l : list Value)
| Map (m : list (string * Value)).

Inductive Target := MacOS | Windows | Linux | Android | Ios.

#[global] Instance Target_eq_dec : EqDecision Target.
Proof. solve_decision. Defined.

Definition Target_to_string (t : Target) : string :=
  match t with
  | MacOS => "macOS"
  | Windows => "windows"
  | Linux => "linux"
  | Android => "android"
  | Ios => "iOS"
  end.

(** [str::contains]. *)
Fixpoint str_contains (p s : string) : bool :=
  starts_with p s || match s with EmptyString => false | String _ s => str_contains p s end.

Definition from_triple (target : string) : Target :=
  if str_contains "darwin" target then MacOS
  else if str_contains "windows" target then Windows
  else if str_contains "android" target then Android
  else if str_contains "ios" target then Ios
  else Linux.

Record Commands := mk_commands {
  commands_allow : list string;
  commands_deny : list string;
}.

Record Scopes := mk_scopes {
  scopes_allow : option (list Value);
  scopes_deny : option (list Value);
}.

Definition Scopes_default : Scopes := mk_scopes None None.

Definition Scopes_is_empty (s : Scopes) : bool :=
  match scopes_allow s, scopes_deny s with None, None => true | _, _ => false end.

Record Permission := mk_permission {
  permission_version : option N;
  permission_identifier : string;
  permission_description : option string;
  permission_commands : Commands;
  permission_scope : Scopes;
  permission_platforms : option (list Target);
}.

(** [platforms.as_ref().map(|p| p.contains(target)).unwrap_or(true)]. *)
Definition platform_active (platforms : option (list Target)) (target : Target) : bool :=
  match platforms with Some ps => bool_decide (target ∈ ps) | None => true end.

Definition Permission_is_active (p : Permission) (target : Target) : bool :=
  platform_active (permission_platforms p) target.

Record PermissionSet := mk_permission_set {
  set_identifier : string;
  set_description : string;
  set_permissions : list string;
}.

(** ** Remote URL patterns *)
Section Remote.
Context `{UL : UrlPatternLib}.

Record RemoteUrlPattern := mk_remote {
  remote_pattern : UrlPattern;
  remote_as_str : string;
}.

(** A field that is absent, or accepted by [is_default], becomes a wildcard. *)
Definition wildcard_unless (is_default : string → bool) (o : option string) : option string :=
  match o with
  | None => Some "*"
  | Some p => if is_default p then Some "*" else Some p
  end.

Definition RemoteUrlPattern_from_str (s : string) : option RemoteUrlPattern :=
  init ← parse_constructor_string s;
  let init := mk_init (wildcard_unless (λ p, bool_decide (p = "")) (init_search init))
                      (init_hash init) (init_pathname init) (init_rest init) in
  let init := mk_init (init_search init)
                      (wildcard_unless (λ p, bool_decide (p = "")) (init_hash init))
                      (init_pathname init) (init_rest init) in
  let init := mk_init (init_search init) (init_hash init)
                      (wildcard_unless (λ p, bool_decide (p = "") || bool_decide (p = "/"))
                         (init_pathname init))
                      (init_rest init) in
  pattern ← UrlPattern_parse init;
  Some (mk_remote pattern s).

(** An error of the package counts as no match. *)
Definition RemoteUrlPattern_test (p : RemoteUrlPattern) (url : Url) : bool :=
  default false (UrlPattern_test (remote_pattern p) url).

Inductive ExecutionContext :=
| Local
| Remote (url : RemoteUrlPattern).

End Remote.
Arguments RemoteUrlPattern : clear implicits.
Arguments RemoteUrlPattern UL : rename.
Arguments ExecutionContext : clear implicits.
Arguments ExecutionContext UL : rename.

(** ** Capabilities *)
Inductive PermissionEntry :=
| PermissionRef (identifier : Identifier)
| ExtendedPermission (identifier : Identifier) (scope : Scopes).

Definition PermissionEntry_identifier (e : PermissionEntry) : Identifier :=
  match e with
  | PermissionRef identifier => identifier
  | ExtendedPermission identifier _ => identifier
  end.

Record CapabilityRemote := mk_capability_remote {
  remote_urls : list string;
}.

Record Capability := mk_capability {
  capability_identifier : string;
  capability_description : string;
  capability_remote : option CapabilityRemote;
  capability_local : bool;
  capability_windows : list string;
  capability_webviews : list string;
  capability_permissions : list PermissionEntry;
  capability_platforms : option (list Target);
}.

Definition Capability_is_active (c : Capability) (target : Target) : bool :=
  platform_active (capability_platforms c) target.

Inductive CapabilityFile :=
| CapabilityFile_Capability (c : Capability)
| CapabilityFile_List (l : list Capability)
| CapabilityFile_NamedList (capabilities : list Capability).

(** ** Manifests

    The schema of the global scope is an opaque JSON text. *)
Record DefaultPermission := mk_default_permission {
  default_version : option N;
  default_description : option string;
  default_permissions : list string;
}.

Record PermissionFile := mk_permission_file {
  file_default : option DefaultPermission;
  file_set : list PermissionSet;
  file_permission : list Permission;
}.

Record Manifest := mk_manifest {
  default_permission : option PermissionSet;
  permissions : gmap string Permission;
  permission_sets : gmap string PermissionSet;
  global_scope_schema : option string;
}.

Definition set_of_default (default : DefaultPermission) : PermissionSet :=
  mk_permission_set "default"
    (match default_description default with
     | Some d => d
     | None => "Default plugin permissions."
     end)
    (default_permissions default).

(** One turn of the loop of [Manifest::new]. *)
Definition add_permission_file (manifest : Manifest) (f : PermissionFile) : Manifest :=
  let manifest :=
    match file_default f with
    | Some default =>
        mk_manifest (Some (set_of_default default)) (permissions manifest)
          (permission_sets manifest) (global_scope_schema manifest)
    | None => manifest
    end in
  let permissions :=
    foldl (λ m permission, <[permission_identifier permission := permission]> m)
      (permissions manifest) (file_permission f) in
  let permission_sets :=
    foldl (λ m set, <[set_identifier set := set]> m) (permission_sets manifest) (file_set f) in
  mk_manifest (default_permission manifest) permissions permission_sets
    (global_scope_schema manifest).

Definition Manifest_new (permission_files : list PermissionFile)
    (global_scope_schema : option string) : Manifest :=
  foldl add_permission_file (mk_manifest None ∅ ∅ global_scope_schema) permission_files.

(** ** A concrete glob and URL-pattern package, to run the model

    Patterns are literal labels or [*]; a URL pattern is a literal URL. *)
Definition literal_glob : GlobLib := {|
  Pattern := string;
  Pattern_new p := if decide (p = "[") then None else Some p;
  Pattern_as_str p := p;
  Pattern_matches p s := bool_decide (p = "*") || bool_decide (p = s);
|}.

Definition literal_url : UrlPatternLib := {|
  InitRest := string;
  UrlPattern := string;
  Url := string;
  parse_constructor_string s := if decide (s = "") then None else Some (mk_init None None None s);
  UrlPattern_parse init := Some (init_rest init);
  UrlPattern_test p u := Some (bool_decide (p = u));
  Url_as_str u := u;
|}.

(** ** Lemmas *)

(** The last binding of a key in a list of keyed items wins. *)
Lemma lookup_foldl_insert {A} (key : A → string) (l : list A) (m : gmap string A) k :
  foldl (λ m a, <[key a := a]> m) m l !! k =
  match last (filter (λ a, key a = k) l) with Some a => Some a | None => m !! k end.
Proof.
  revert m. induction l as [|a l IH]; intros m; simpl; [done|].
  rewrite IH, filter_cons. case_decide as Hk.
  - rewrite last_cons. destruct (last _); [done|]. subst. apply lookup_insert_eq.
  - destruct (last _); [done|]. by apply lookup_insert_ne.
Qed.

Lemma add_permission_file_permissions m f :
  permissions (add_permission_file m f) =
  foldl (λ m p, <[permission_identifier p := p]> m) (permissions m) (file_permission f).
Proof. unfold add_permission_file. by destruct (file_default f). Qed.

Lemma add_permission_file_sets m f :
  permission_sets (add_permission_file m f) =
  foldl (λ m s, <[set_identifier s := s]> m) (permission_sets m) (file_set f).
Proof. unfold add_permission_file. by destruct (file_default f). Qed.

Lemma add_permission_file_default m f :
  default_permission (add_permission_file m f) =
  match file_default f with Some d => Some (set_of_default d) | None => default_permission m end.
Proof. unfold add_permission_file. by destruct (file_default f). Qed.

Lemma foldl_add_permissions fs m :
  permissions (foldl add_permission_file m fs) =
  foldl (λ m p, <[permission_identifier p := p]> m) (permissions m) (fs ≫= file_permission).
Proof.
  revert m. induction fs as [|f fs IH]; intros m; simpl; [done|].
  by rewrite IH, foldl_app, add_permission_file_permissions.
Qed.

Lemma foldl_add_sets fs m :
  permission_sets (foldl add_permission_file m fs) =
  foldl (λ m s, <[set_identifier s := s]> m) (permission_sets m) (fs ≫= file_set).
Proof.
  revert m. induction fs as [|f fs IH]; intros m; simpl; [done|].
  by rewrite IH, foldl_app, add_permission_file_sets.
Qed.

Lemma foldl_add_default fs m :
  default_permission (foldl add_permission_file m fs) =
  match last (omap file_default fs) with
  | Some d => Some (set_of_default d)
  | None => default_permission m
  end.
Proof.
  revert m. induction fs as [|f fs IH]; intros m; simpl; [done|].
  rewrite IH, add_permission_file_default. destruct (file_default f) as [d|]; [|done].
  rewrite last_cons. by destruct (last _).
Qed.

(** ** Properties *)

(** [Manifest::new] merges the permission files of a plugin so that the
    last definition of an identifier wins: among all files in order, for
    permissions, for permission sets and for the default set, which is always
    stored under the name default. *)
Theorem manifest_new_last_wins files schema k :
  permissions (Manifest_new files schema) !! k =
    last (filter (λ p, permission_identifier p = k) (files ≫= file_permission)) ∧
  permission_sets (Manifest_new files schema) !! k =
    last (filter (λ s, set_identifier s = k) (files ≫= file_set)) ∧
  default_permission (Manifest_new files schema) =
    set_of_default <$> last (omap file_default files).
Proof.
  unfold Manifest_new. rewrite foldl_add_permissions, foldl_add_sets, foldl_add_default.
  rewrite !lookup_foldl_insert; simpl. rewrite !lookup_empty.
  split_and!; by destruct (last _).
Qed.

End Acl.
