(* ===== verification/Resolved.v ===== *)
(** * Resolution of the access control list

    Models [tauri-utils/Source/acl/resolved.rs]: from the manifests of the
    plugins and the capabilities of the application, [Resolved::resolve]
    computes which commands are allowed and denied, in which contexts and
    windows, and with which scopes. The expansion of permission sets is the
    one unbounded recursion of the source and takes fuel; [Diverge] is the
    answer when it is spent. *)
From S2P Require Import Prelude Identifier Acl.
Import Identifier Acl.

Module Resolved.

(** The errors resolution can return. *)
Inductive Error :=
| Glob
| SetPermissionNotFound (permission set : string)
| UnknownManifest (key available : string)
| UnknownPermission (key permission : string).

Abbreviation ScopeKey := N.

Section Resolve.
Context {GL : GlobLib} {UL : UrlPatternLib}.

Record ResolvedCommandReference := mk_reference {
  reference_capability : string;
  reference_permission : string;
}.

Record ResolvedCommand := mk_resolved_command {
  context : ExecutionContext UL;
  referenced_by : ResolvedCommandReference;
  windows : list Pattern;
  webviews : list Pattern;
  scope_id : option ScopeKey;
}.

Record ResolvedScope := mk_resolved_scope {
  scope_allow : list Value;
  scope_deny : list Value;
}.

Definition ResolvedScope_default : ResolvedScope := mk_resolved_scope [] [].

Record Resolved := mk_resolved {
  allowed_commands : gmap string (list ResolvedCommand);
  denied_commands : gmap string (list ResolvedCommand);
  command_scope : gmap ScopeKey ResolvedScope;
  global_scope : gmap string ResolvedScope;
}.

(** The mutable variables of [Resolved::resolve]. The counter of the scopes is a
    [u64] in the source; it counts the permissions of a build. *)
Record ResolveState := mk_state {
  st_allowed : gmap string (list ResolvedCommand);
  st_denied : gmap string (list ResolvedCommand);
  st_scope_id : ScopeKey;
  st_command_scope : gmap ScopeKey ResolvedScope;
  st_global : gmap string (list Scopes);
}.

Definition initial_state : ResolveState := mk_state ∅ ∅ 0 ∅ ∅.

Record ResolvedPermission := mk_resolved_permission {
  rp_key : string;
  rp_permission_name : string;
  rp_commands : Commands;
  rp_scope : Scopes;
}.

Record TraversedPermission := mk_traversed {
  tp_key : string;
  tp_permission_name : string;
  tp_permission : Permission;
}.

Definition display_perm_key (prefix : string) : string :=
  if decide (prefix = APP_ACL_KEY) then "app manifest" else prefix.

(** ** Permission sets *)

(** What one name of a set stands for: the manifest it is looked up in, the
    identifier and the key that go with it, and the name to look up. *)
Definition set_member (acl : gmap string Manifest) (permission_id : Identifier)
    (key : string) (manifest : Manifest) (perm : string) (id : Identifier)
    : Manifest * Identifier * string * string :=
  match (k ← get_prefix id; m ← acl !! k; Some (k, m)) with
  | Some (new_key, manifest') => (manifest', id, new_key, get_base id)
  | None => (manifest, permission_id, key, perm)
  end.

Fixpoint get_permission_set_permissions (fuel : nat) (permission_id : Identifier)
    (acl : gmap string Manifest) (manifest : Manifest) (set : PermissionSet)
    : outcome Error (list TraversedPermission) :=
  match fuel with
  | 0 => Diverge
  | S fuel =>
      let key := default APP_ACL_KEY (get_prefix permission_id) in
      for_each (λ permissions_acc perm,
        match try_from perm with
        | Ok id =>
            let '(manifest, permission_id, key, permission_name) :=
              set_member acl permission_id key manifest perm id in
            if decide (permission_name = "default") then
              match default_permission manifest with
              | Some default =>
                  ps ← get_permission_set_permissions fuel permission_id acl manifest default;
                  Ok (permissions_acc ++ ps)
              | None => Ok permissions_acc
              end
            else match permissions manifest !! permission_name with
                 | Some permission =>
                     Ok (permissions_acc ++ [mk_traversed key permission_name permission])
                 | None =>
                     match permission_sets manifest !! permission_name with
                     | Some permission_set =>
                         ps ← get_permission_set_permissions fuel permission_id acl manifest
                                permission_set;
                         Ok (permissions_acc ++ ps)
                     | None => Err (SetPermissionNotFound permission_name (set_identifier set))
                     end
                 end
        | _ => Panic "invalid identifier in permission set?"
        end) (set_permissions set) []
  end.

Definition get_permissions (fuel : nat) (permission_id : Identifier) (acl : gmap string Manifest)
    : outcome Error (list TraversedPermission) :=
  let key := default APP_ACL_KEY (get_prefix permission_id) in
  let permission_name := get_base permission_id in
  manifest ← ok_or (acl !! key)
    (UnknownManifest (display_perm_key key) (join ", " (btree_keys acl)));
  if decide (permission_name = "default") then
    match default_permission manifest with
    | Some default => get_permission_set_permissions fuel permission_id acl manifest default
    | None => Ok []
    end
  else match permission_sets manifest !! permission_name with
       | Some set => get_permission_set_permissions fuel permission_id acl manifest set
       | None =>
           match permissions manifest !! permission_name with
           | Some permission => Ok [mk_traversed key permission_name permission]
           | None => Err (UnknownPermission (display_perm_key key) permission_name)
           end
       end.

(** ** Permissions of a capability *)

(** [acc.get_or_insert_with(Default::default).extend(values)], when there are
    values. *)
Definition extend_opt (acc values : option (list Value)) : option (list Value) :=
  match values with
  | Some vs => Some (default [] acc ++ vs)
  | None => acc
  end.

Definition resolved_permission (permission_entry : PermissionEntry) (tp : TraversedPermission)
    : ResolvedPermission :=
  let resolved_scope := Scopes_default in
  let resolved_scope :=
    match permission_entry with
    | ExtendedPermission _ scope =>
        mk_scopes (extend_opt (scopes_allow resolved_scope) (scopes_allow scope))
                  (extend_opt (scopes_deny resolved_scope) (scopes_deny scope))
    | PermissionRef _ => resolved_scope
    end in
  let permission := tp_permission tp in
  let resolved_scope :=
    mk_scopes (extend_opt (scopes_allow resolved_scope) (scopes_allow (permission_scope permission)))
              (extend_opt (scopes_deny resolved_scope) (scopes_deny (permission_scope permission))) in
  let commands :=
    mk_commands ([] ++ commands_allow (permission_commands permission))
                ([] ++ commands_deny (permission_commands permission)) in
  mk_resolved_permission (tp_key tp) (tp_permission_name tp) commands resolved_scope.

Definition with_resolved_permissions {S} (fuel : nat) (capability : Capability)
    (acl : gmap string Manifest) (target : Target)
    (f : S → ResolvedPermission → outcome Error S) (s : S) : outcome Error S :=
  for_each (λ s permission_entry,
    let permission_id := PermissionEntry_identifier permission_entry in
    permissions ← get_permissions fuel permission_id acl;
    for_each (λ s tp, f s (resolved_permission permission_entry tp))
      (filter (λ tp, Permission_is_active (tp_permission tp) target = true) permissions) s)
    (capability_permissions capability) s.

(** ** Commands *)

(** [raw.sort()] puts the patterns in the order of their bytes. *)
Definition parse_glob_patterns (raw : list string) : outcome Error (list Pattern) :=
  collect (λ pattern, ok_or (Pattern_new pattern) Glob) (merge_sort String.le raw).

Definition remote_context (url : string) : outcome Error (ExecutionContext UL) :=
  match RemoteUrlPattern_from_str url with
  | Some p => Ok (Remote p)
  | None => Panic "invalid URL pattern for remote URL"
  end.

(** The contexts of a capability: local, then its remote URLs. *)
Definition contexts (capability : Capability) : outcome Error (list (ExecutionContext UL)) :=
  remotes ← (match capability_remote capability with
             | Some remote => collect remote_context (remote_urls remote)
             | None => Ok []
             end);
  Ok ((if capability_local capability then [Local] else []) ++ remotes).

Definition resolve_command (commands : gmap string (list ResolvedCommand)) (command : string)
    (capability : Capability) (scope_id : option ScopeKey)
    (referenced_by_permission_identifier : string)
    : outcome Error (gmap string (list ResolvedCommand)) :=
  contexts ← contexts capability;
  for_each (λ commands context,
    windows ← parse_glob_patterns (capability_windows capability);
    webviews ← parse_glob_patterns (capability_webviews capability);
    Ok (entry_or [] (λ resolved_list, resolved_list ++
          [mk_resolved_command context
             (mk_reference (capability_identifier capability) referenced_by_permission_identifier)
             windows webviews scope_id]) command commands))
    contexts commands.

(** The key of a command in the resolved maps. *)
Definition command_key (key command : string) : string :=
  if decide (key = APP_ACL_KEY) then command
  else match strip_prefix "core:" key with
       | Some core_plugin_name => "plugin:" +:+ core_plugin_name +:+ "|" +:+ command
       | None => "plugin:" +:+ key +:+ "|" +:+ command
       end.

Definition resolve_commands (commands : gmap string (list ResolvedCommand)) (key : string)
    (names : list string) (capability : Capability) (scope_id : option ScopeKey)
    (permission_name : string) : outcome Error (gmap string (list ResolvedCommand)) :=
  for_each (λ commands name,
    resolve_command commands (command_key key name) capability scope_id permission_name)
    names commands.

(** A permission with neither allowed nor denied commands only extends the
    global scope of its plugin. *)
Definition is_global (rp : ResolvedPermission) : bool :=
  bool_decide (commands_allow (rp_commands rp) = []) &&
  bool_decide (commands_deny (rp_commands rp) = []).

(** The closure given to [with_resolved_permissions]. *)
Definition on_permission (capability : Capability) (st : ResolveState) (rp : ResolvedPermission)
    : outcome Error ResolveState :=
  if is_global rp then
    Ok (mk_state (st_allowed st) (st_denied st) (st_scope_id st) (st_command_scope st)
          (entry_or [] (λ l, l ++ [rp_scope rp]) (rp_key rp) (st_global st)))
  else
    let '(current_scope_id, command_scope, scope_id) :=
      if Scopes_is_empty (rp_scope rp) then (st_scope_id st, st_command_scope st, None)
      else
        let current_scope_id := (st_scope_id st + 1)%N in
        (current_scope_id,
         <[current_scope_id :=
             mk_resolved_scope (default [] (scopes_allow (rp_scope rp)))
                               (default [] (scopes_deny (rp_scope rp)))]> (st_command_scope st),
         Some current_scope_id) in
    allowed ← resolve_commands (st_allowed st) (rp_key rp) (commands_allow (rp_commands rp))
                capability scope_id (rp_permission_name rp);
    denied ← resolve_commands (st_denied st) (rp_key rp) (commands_deny (rp_commands rp))
                capability scope_id (rp_permission_name rp);
    Ok (mk_state allowed denied current_scope_id command_scope (st_global st)).

Definition merge_scopes (scopes : list Scopes) : ResolvedScope :=
  foldl (λ r scope,
    mk_resolved_scope (scope_allow r ++ default [] (scopes_allow scope))
                      (scope_deny r ++ default [] (scopes_deny scope)))
    ResolvedScope_default scopes.

Definition resolve_capability (fuel : nat) (acl : gmap string Manifest) (target : Target)
    (st : ResolveState) (capability : Capability) : outcome Error ResolveState :=
  with_resolved_permissions fuel capability acl target (on_permission capability) st.

Definition resolve (fuel : nat) (acl : gmap string Manifest)
    (capabilities : gmap string Capability) (target : Target) : outcome Error Resolved :=
  st ← for_each (resolve_capability fuel acl target)
         (filter (λ c, Capability_is_active c target = true) (btree_values capabilities))
         initial_state;
  Ok (mk_resolved (st_allowed st) (st_denied st) (st_command_scope st)
        (merge_scopes <$> st_global st)).

End Resolve.

Arguments ResolvedCommand : clear implicits.
Arguments ResolvedCommand GL UL : rename.
Arguments Resolved : clear implicits.
Arguments Resolved GL UL : rename.
Arguments ResolveState : clear implicits.
Arguments ResolveState GL UL : rename.

(** ** Specification

    What resolution promises, without its loops: the permissions each active
    capability contributes, in order, each numbered with the key of its scope
    when it has one; and for each command the entries those permissions give. *)
Section Spec.
Context {GL : GlobLib} {UL : UrlPatternLib}.

(** The permissions an entry of a capability contributes on a target. *)
Definition entry_permissions (fuel : nat) (acl : gmap string Manifest) (target : Target)
    (e : PermissionEntry) : outcome Error (list ResolvedPermission) :=
  tps ← get_permissions fuel (PermissionEntry_identifier e) acl;
  Ok (resolved_permission e <$>
        filter (λ tp, Permission_is_active (tp_permission tp) target = true)
          (tps : list TraversedPermission)).

Definition contributions (fuel : nat) (acl : gmap string Manifest) (target : Target)
    (caps : list Capability) : outcome Error (list (Capability * ResolvedPermission)) :=
  css ← collect (λ c,
          pss ← collect (entry_permissions fuel acl target) (capability_permissions c);
          Ok (pair c <$> concat (pss : list (list ResolvedPermission)))) caps;
  Ok (concat css).

(** The capabilities resolution looks at, in the order it does. *)
Definition active_capabilities (caps : gmap string Capability) (target : Target) : list Capability :=
  filter (λ c, Capability_is_active c target = true) (btree_values caps).

Definition needs_scope (rp : ResolvedPermission) : bool :=
  negb (is_global rp) && negb (Scopes_is_empty (rp_scope rp)).

(** Scope keys are handed out in order, starting after [n]. *)
Fixpoint number (n : N) (l : list (Capability * ResolvedPermission))
    : list (Capability * ResolvedPermission * option ScopeKey) :=
  match l with
  | [] => []
  | (c, rp) :: l =>
      if needs_scope rp then (c, rp, Some (n + 1)%N) :: number (n + 1) l
      else (c, rp, None) :: number n l
  end.

(** [rc] is an entry that capability [c] gives to a command of permission
    [rp] with scope key [sid]. *)
Definition entry_of (c : Capability) (rp : ResolvedPermission) (sid : option ScopeKey)
    (rc : ResolvedCommand GL UL) : Prop :=
  (∃ ctxs, contexts c = Ok ctxs ∧ context rc ∈ ctxs) ∧
  parse_glob_patterns (capability_windows c) = Ok (windows rc) ∧
  parse_glob_patterns (capability_webviews c) = Ok (webviews rc) ∧
  scope_id rc = sid ∧
  referenced_by rc = mk_reference (capability_identifier c) (rp_permission_name rp).

(** The entries of command [cmd] among numbered contributions, for the allowed
    ([dir] is [commands_allow]) or the denied commands. *)
Definition gives (dir : Commands → list string)
    (g : Capability * ResolvedPermission * option ScopeKey) (cmd : string)
    (rc : ResolvedCommand GL UL) : Prop :=
  let '(c, rp, sid) := g in
  ∃ name, name ∈ dir (rp_commands rp) ∧ cmd = command_key (rp_key rp) name ∧ entry_of c rp sid rc.

Definition scope_of (rp : ResolvedPermission) : ResolvedScope :=
  mk_resolved_scope (default [] (scopes_allow (rp_scope rp)))
                    (default [] (scopes_deny (rp_scope rp))).

(** The entries stored for a command. *)
Definition entries (m : gmap string (list (ResolvedCommand GL UL))) (cmd : string) :=
  default [] (m !! cmd).

Definition no_empty_entry (m : gmap string (list (ResolvedCommand GL UL))) : Prop :=
  ∀ cmd, m !! cmd ≠ Some [].

(** The state after the numbered contributions [gs], the next key being after
    [n]. *)
Record resolves_to (gs : list (Capability * ResolvedPermission * option ScopeKey))
    (st : ResolveState GL UL) : Prop := {
  to_allowed : ∀ cmd rc, rc ∈ entries (st_allowed st) cmd ↔
    ∃ g, g ∈ gs ∧ is_global g.1.2 = false ∧ gives commands_allow g cmd rc;
  to_denied : ∀ cmd rc, rc ∈ entries (st_denied st) cmd ↔
    ∃ g, g ∈ gs ∧ is_global g.1.2 = false ∧ gives commands_deny g cmd rc;
  to_allowed_ne : no_empty_entry (st_allowed st);
  to_denied_ne : no_empty_entry (st_denied st);
  to_scope : ∀ k s, st_command_scope st !! k = Some s ↔
    ∃ c rp, (c, rp, Some k) ∈ gs ∧ s = scope_of rp;
  to_bound : ∀ c rp k, (c, rp, Some k) ∈ gs → (k ≤ st_scope_id st)%N;
  to_global : ∀ key, default [] (st_global st !! key) =
    (λ g, rp_scope g.1.2) <$>
      filter (λ g, is_global g.1.2 = true ∧ rp_key g.1.2 = key) gs;
}.

(** ** Lemmas *)
Lemma entries_insert_ne m k l cmd : k ≠ cmd → entries (<[k := l]> m) cmd = entries m cmd.
Proof. intros. unfold entries. by rewrite lookup_insert_ne. Qed.

Lemma entries_entry_or m k rc cmd rc' :
  rc' ∈ entries (entry_or [] (λ l, l ++ [rc]) k m) cmd ↔
  rc' ∈ entries m cmd ∨ (cmd = k ∧ rc' = rc).
Proof.
  unfold entries. destruct (decide (k = cmd)) as [->|Hne].
  - rewrite lookup_entry_or_eq; simpl. rewrite elem_of_app, list_elem_of_singleton. naive_solver.
  - rewrite lookup_entry_or_ne by done. naive_solver.
Qed.

Lemma no_empty_entry_or m k rc :
  no_empty_entry m → no_empty_entry (entry_or [] (λ l, l ++ [rc]) k m).
Proof.
  intros Hm cmd. destruct (decide (k = cmd)) as [->|Hne].
  - rewrite lookup_entry_or_eq. intros Hx. simplify_eq. by destruct (default [] (m !! cmd)).
  - by rewrite lookup_entry_or_ne.
Qed.

(** [resolve_command] adds exactly the entries of the capability. *)
Lemma resolve_command_entries m cmd c sid rp m' :
  resolve_command m cmd c sid (rp_permission_name rp) = Ok m' →
  (∀ k rc, rc ∈ entries m' k ↔ rc ∈ entries m k ∨ (k = cmd ∧ entry_of c rp sid rc)) ∧
  (no_empty_entry m → no_empty_entry m').
Proof.
  unfold resolve_command. intros H. apply bind_ok in H as (ctxs & Hctx & H).
  assert (∀ k rc, k = cmd ∧ entry_of c rp sid rc ↔ k = cmd ∧ context rc ∈ ctxs ∧
    parse_glob_patterns (capability_windows c) = Ok (windows rc) ∧
    parse_glob_patterns (capability_webviews c) = Ok (webviews rc) ∧ scope_id rc = sid ∧
    referenced_by rc = mk_reference (capability_identifier c) (rp_permission_name rp)) as Hent.
  { intros. unfold entry_of. rewrite Hctx. naive_solver. }
  setoid_rewrite Hent. clear Hent Hctx. revert m H.
  induction ctxs as [|ctx ctxs IH]; intros m H; simpl in H.
  { simplify_eq. split; [|done]. intros. set_solver. }
  apply bind_ok in H as (m1 & H1 & H). apply bind_ok in H1 as (ws & Hws & H1).
  apply bind_ok in H1 as (wvs & Hwvs & H1). simplify_eq.
  destruct (IH _ H) as [IHe IHn]. split.
  - intros k rc. rewrite IHe, entries_entry_or, elem_of_cons. split.
    + intros [[?|[-> ->]]|?]; [naive_solver| |naive_solver]. right. simpl. naive_solver.
    + intros [?|(-> & [Hc|Hc] & Hw & Hv & Hs & Hr)]; [naive_solver| |naive_solver].
      left. right. split; [done|]. destruct rc; simpl in *. congruence.
  - intros. apply IHn. by apply no_empty_entry_or.
Qed.

Lemma resolve_commands_entries m names c sid rp m' :
  resolve_commands m (rp_key rp) names c sid (rp_permission_name rp) = Ok m' →
  (∀ k rc, rc ∈ entries m' k ↔ rc ∈ entries m k ∨
    ∃ name, name ∈ names ∧ k = command_key (rp_key rp) name ∧ entry_of c rp sid rc) ∧
  (no_empty_entry m → no_empty_entry m').
Proof.
  unfold resolve_commands. revert m. induction names as [|name names IH]; intros m H; simpl in H.
  { simplify_eq. split; [|done]. intros. set_solver. }
  apply bind_ok in H as (m1 & H1 & H).
  destruct (resolve_command_entries _ _ _ _ _ _ H1) as [He Hn].
  destruct (IH _ H) as [IHe IHn]. split; [|naive_solver].
  intros k rc. rewrite IHe, He. setoid_rewrite elem_of_cons. naive_solver.
Qed.

Lemma is_global_allow rp : is_global rp = true → commands_allow (rp_commands rp) = [].
Proof. unfold is_global. rewrite andb_true_iff, !bool_decide_eq_true. naive_solver. Qed.

Lemma exists_elem_app {A} (P : A → Prop) gs g :
  (∃ x, x ∈ gs ++ [g] ∧ P x) ↔ (∃ x, x ∈ gs ∧ P x) ∨ P g.
Proof. setoid_rewrite elem_of_app. setoid_rewrite list_elem_of_singleton. naive_solver. Qed.

(** One more contribution. *)
Definition numbered (st : ResolveState GL UL) (c : Capability) (rp : ResolvedPermission)
    : Capability * ResolvedPermission * option ScopeKey :=
  (c, rp, if needs_scope rp then Some (st_scope_id st + 1)%N else None).

Lemma on_permission_global gs st c rp st' :
  is_global rp = true → on_permission c st rp = Ok st' →
  resolves_to gs st → resolves_to (gs ++ [(c, rp, None)]) st' ∧ st_scope_id st' = st_scope_id st.
Proof.
  unfold on_permission. intros Hg H Hst. rewrite Hg in H. simplify_eq.
  split; [|done]. destruct Hst as [Ha Hd Hane Hdne Hs Hb Hgl].
  constructor; simpl; try done.
  - intros. rewrite Ha, exists_elem_app. simpl. rewrite Hg. clear. intuition done.
  - intros. rewrite Hd, exists_elem_app. simpl. rewrite Hg. clear. intuition done.
  - intros. rewrite Hs. setoid_rewrite elem_of_app. setoid_rewrite list_elem_of_singleton. naive_solver.
  - intros ???. rewrite elem_of_app, list_elem_of_singleton. naive_solver.
  - intros key. rewrite filter_app, fmap_app, <-Hgl, filter_cons, filter_nil. simpl.
    destruct (decide (rp_key rp = key)) as [<-|Hne].
    + rewrite lookup_entry_or_eq. simpl. rewrite decide_True by done. done.
    + rewrite lookup_entry_or_ne by done. rewrite decide_False by (simpl; intros [_ ?]; congruence). by rewrite app_nil_r.
Qed.

Lemma on_permission_commands gs st c rp st' :
  is_global rp = false → on_permission c st rp = Ok st' →
  resolves_to gs st →
  resolves_to (gs ++ [numbered st c rp]) st' ∧
  st_scope_id st' = (if needs_scope rp then st_scope_id st + 1 else st_scope_id st)%N.
Proof.
  unfold on_permission, numbered, needs_scope. intros Hg H Hst. rewrite Hg in *. simpl.
  destruct Hst as [Ha Hd Hane Hdne Hs Hb Hgl].
  destruct (Scopes_is_empty (rp_scope rp)) eqn:He; simpl;
    apply bind_ok in H as (al & H1 & H); apply bind_ok in H as (de & H2 & H); simplify_eq;
    apply resolve_commands_entries in H1 as [H1 H1n];
    apply resolve_commands_entries in H2 as [H2 H2n]; (split; [|done]); constructor; simpl;
    try (by auto).
  all: try (intros cmd rc; first [rewrite H1, Ha|rewrite H2, Hd]; rewrite exists_elem_app; simpl;
    rewrite Hg; clear; tauto).
  - intros. rewrite Hs. setoid_rewrite elem_of_app. setoid_rewrite list_elem_of_singleton. naive_solver.
  - intros ???. rewrite elem_of_app, list_elem_of_singleton. naive_solver.
  - intros key. rewrite filter_app, filter_cons, filter_nil, decide_False, app_nil_r
      by (simpl; intros [? _]; congruence).
    apply Hgl.
  - intros k s. destruct (decide (k = st_scope_id st + 1)%N) as [->|Hne].
    + rewrite lookup_insert_eq. split.
      * intros. simplify_eq. exists c, rp. rewrite elem_of_app, list_elem_of_singleton. auto.
      * intros (c' & rp' & [Hin|Hin]%elem_of_app & ->).
        -- apply Hb in Hin. lia.
        -- apply list_elem_of_singleton in Hin. by simplify_eq.
    + rewrite lookup_insert_ne, Hs by done. setoid_rewrite elem_of_app.
      setoid_rewrite list_elem_of_singleton. naive_solver.
  - intros c' rp' k [Hin|Hin]%elem_of_app; [apply Hb in Hin; lia|].
    apply list_elem_of_singleton in Hin. simplify_eq. lia.
  - intros key. rewrite filter_app, filter_cons, filter_nil, decide_False, app_nil_r
      by (simpl; intros [? _]; congruence).
    apply Hgl.
Qed.

(** The loop over the contributions of one capability or of all of them. *)
Lemma on_permissions_number gs st (l : list (Capability * ResolvedPermission)) st' :
  for_each (λ st cp, on_permission cp.1 st cp.2) l st = Ok st' →
  resolves_to gs st → resolves_to (gs ++ number (st_scope_id st) l) st'.
Proof.
  revert gs st. induction l as [|[c rp] l IH]; intros gs st H Hst; simpl in *.
  { simplify_eq. by rewrite app_nil_r. }
  apply bind_ok in H as (st1 & H1 & H).
  destruct (is_global rp) eqn:Hg.
  - destruct (on_permission_global _ _ _ _ _ Hg H1 Hst) as [Hst1 Hid].
    assert (needs_scope rp = false) as -> by (unfold needs_scope; by rewrite Hg).
    specialize (IH _ _ H Hst1). rewrite <-app_assoc, Hid in IH. done.
  - destruct (on_permission_commands _ _ _ _ _ Hg H1 Hst) as [Hst1 Hid].
    specialize (IH _ _ H Hst1). rewrite <-app_assoc in IH. unfold numbered in IH. rewrite Hid in IH.
    by destruct (needs_scope rp).
Qed.

Lemma for_each_fmap {E S A B} (f : S → B → outcome E S) (g : A → B) l s :
  for_each f (g <$> l) s = for_each (λ s a, f s (g a)) l s.
Proof.
  revert s. induction l as [|a l IH]; intros s; simpl; [done|]. destruct (f s (g a)); simpl; auto.
Qed.

Lemma resolve_capability_flat fuel acl target c st st' :
  resolve_capability fuel acl target st c = Ok st' ↔
  ∃ pss, collect (entry_permissions fuel acl target) (capability_permissions c) = Ok pss ∧
    for_each (λ st cp, on_permission cp.1 st cp.2) (pair c <$> concat pss) st = Ok st'.
Proof.
  unfold resolve_capability, with_resolved_permissions.
  generalize (capability_permissions c) as es. intros es. revert st.
  induction es as [|e es IH]; intros st; simpl; [naive_solver|]. rewrite bind_ok. split.
  - intros (st1 & H1 & H). apply bind_ok in H1 as (tps & Htps & H1).
    apply IH in H as (pss & Hpss & H). 
    eassert (entry_permissions fuel acl target e = Ok _) as He
      by (unfold entry_permissions; rewrite Htps; reflexivity).
    rewrite He. simpl. rewrite Hpss. simpl. eexists. split; [done|]. simpl.
    rewrite fmap_app, for_each_app, !for_each_fmap. simpl. rewrite H1. exact H.
  - intros (pss & Hpss & H). apply bind_ok in Hpss as (ps & Hps & Hpss).
    apply bind_ok in Hpss as (pss' & Hpss & ?). simplify_eq/=.
    unfold entry_permissions in Hps. apply bind_ok in Hps as (tps & Htps & ?). simplify_eq.
    rewrite Htps. simpl. rewrite fmap_app, for_each_app, !for_each_fmap in H. simpl in H.
    apply bind_ok in H as (st1 & H1 & H). exists st1. split; [done|].
    apply IH. by exists pss'.
Qed.

Lemma resolve_capabilities_flat fuel acl target caps st st' :
  for_each (resolve_capability fuel acl target) caps st = Ok st' ↔
  ∃ l, contributions fuel acl target caps = Ok l ∧
    for_each (λ st cp, on_permission cp.1 st cp.2) l st = Ok st'.
Proof.
  unfold contributions. revert st. induction caps as [|c caps IH]; intros st; simpl.
  { naive_solver. }
  rewrite bind_ok. split.
  - intros (st1 & H1 & H). apply resolve_capability_flat in H1 as (pss & Hpss & H1).
    apply IH in H as (l & Hl & H). apply bind_ok in Hl as (css & Hcss & ?). simplify_eq.
    rewrite Hpss. simpl. rewrite Hcss. simpl. eexists. split; [done|]. simpl.
    by rewrite for_each_app, H1.
  - intros (l & Hl & H). apply bind_ok in Hl as (css & Hcss & ?). simplify_eq.
    apply bind_ok in Hcss as (cs & Hcs & Hcss). apply bind_ok in Hcs as (pss & Hpss & ?).
    apply bind_ok in Hcss as (css' & Hcss & ?). simplify_eq/=.
    rewrite for_each_app in H. apply bind_ok in H as (st1 & H1 & H). exists st1. split.
    + apply resolve_capability_flat. eauto.
    + apply IH. rewrite Hcss. simpl. eauto.
Qed.

(** What is in the list of contributions. *)
Lemma contributions_elem fuel acl target caps l c rp :
  contributions fuel acl target caps = Ok l → (c, rp) ∈ l →
  c ∈ caps ∧ ∃ e tps tp, e ∈ capability_permissions c ∧
    get_permissions fuel (PermissionEntry_identifier e) acl = Ok tps ∧ tp ∈ tps ∧
    Permission_is_active (tp_permission tp) target = true ∧ rp = resolved_permission e tp.
Proof.
  unfold contributions. intros H Hin. apply bind_ok in H as (css & Hcss & ?). simplify_eq.
  apply collect_ok in Hcss. apply elem_of_concat in Hin as (cs & Hin & Hcs).
  apply list_elem_of_lookup in Hcs as [i Hi].
  destruct (Forall2_lookup_r _ _ _ _ _ Hcss Hi) as (c' & Hc' & Hcs).
  apply bind_ok in Hcs as (pss & Hpss & ?). simplify_eq.
  apply list_elem_of_fmap in Hin as (rp' & ? & Hin). simplify_eq.
  split; [by eapply list_elem_of_lookup_2|].
  apply collect_ok in Hpss. apply elem_of_concat in Hin as (ps & Hin & Hps).
  apply list_elem_of_lookup in Hps as [j Hj].
  destruct (Forall2_lookup_r _ _ _ _ _ Hpss Hj) as (e & He & Hps).
  apply bind_ok in Hps as (tps & Htps & ?). simplify_eq.
  apply list_elem_of_fmap in Hin as (tp & -> & Hin). apply list_elem_of_filter in Hin as [? ?].
  exists e, tps, tp. split_and!; try done. by eapply list_elem_of_lookup_2.
Qed.

Lemma number_elem n l c rp sid : (c, rp, sid) ∈ number n l → (c, rp) ∈ l.
Proof.
  revert n. induction l as [|[c' rp'] l IH]; intros n; simpl; [set_solver|].
  destruct (needs_scope rp'); rewrite !elem_of_cons; naive_solver.
Qed.

(** The key after the contributions. *)
Fixpoint last_key (n : N) (l : list (Capability * ResolvedPermission)) : N :=
  match l with
  | [] => n
  | (_, rp) :: l => last_key (if needs_scope rp then n + 1 else n)%N l
  end.

Lemma last_key_le n l : (n ≤ last_key n l)%N.
Proof.
  revert n. induction l as [|[c rp] l IH]; intros n; simpl; [lia|].
  destruct (needs_scope rp); [etrans; [|apply IH]; lia|apply IH].
Qed.

Lemma number_keys n l k :
  (∃ c rp, (c, rp, Some k) ∈ number n l) ↔ (n + 1 ≤ k ≤ last_key n l)%N.
Proof.
  revert n. induction l as [|[c rp] l IH]; intros n; simpl.
  { split; [set_solver|lia]. }
  destruct (needs_scope rp).
  - specialize (IH (n + 1)%N). pose proof (last_key_le (n + 1) l). setoid_rewrite elem_of_cons.
    split.
    + intros (c' & rp' & [?|Hin]); [simplify_eq; lia|].
      destruct IH as [IH _]. lapply IH; [lia|eauto].
    + intros Hk. destruct (decide (k = n + 1)%N) as [->|]; [eauto|].
      destruct IH as [_ IH]. lapply IH; [naive_solver|lia].
  - rewrite <-IH. setoid_rewrite elem_of_cons. naive_solver.
Qed.

Lemma number_global n l key :
  (λ g, rp_scope g.1.2) <$> filter (λ g, is_global g.1.2 = true ∧ rp_key g.1.2 = key) (number n l) =
  (λ g, rp_scope g.2) <$> filter (λ g, is_global g.2 = true ∧ rp_key g.2 = key) l.
Proof.
  revert n. induction l as [|[c rp] l IH]; intros n; simpl; [done|].
  destruct (needs_scope rp); rewrite !filter_cons; simpl; case_decide; simpl; by rewrite IH.
Qed.

Lemma elem_of_active caps target c :
  c ∈ active_capabilities caps target ↔
  (∃ k, caps !! k = Some c) ∧ Capability_is_active c target = true.
Proof.
  unfold active_capabilities. rewrite list_elem_of_filter, elem_of_btree_values. naive_solver.
Qed.

Lemma resolves_to_initial : resolves_to [] initial_state.
Proof.
  constructor; simpl; try done; unfold entries, no_empty_entry;
    intros; rewrite ?lookup_empty; simpl; set_solver.
Qed.

Lemma resolve_state fuel acl caps target r :
  resolve fuel acl caps target = Ok r →
  ∃ l st, contributions fuel acl target (active_capabilities caps target) = Ok l ∧
    resolves_to (number 0 l) st ∧
    r = mk_resolved (st_allowed st) (st_denied st) (st_command_scope st)
          (merge_scopes <$> st_global st).
Proof.
  unfold resolve. intros H. apply bind_ok in H as (st & H & ?). simplify_eq.
  apply resolve_capabilities_flat in H as (l & Hl & H). exists l, st. split_and!; [done| |done].
  apply (on_permissions_number [] initial_state); [done|apply resolves_to_initial].
Qed.

(** Scope keys of entries are stored. *)
Lemma resolve_scope_stored fuel acl caps target r cmd rc k :
  resolve fuel acl caps target = Ok r →
  rc ∈ entries (allowed_commands r) cmd ∨ rc ∈ entries (denied_commands r) cmd →
  scope_id rc = Some k → is_Some (command_scope r !! k).
Proof.
  intros H Hrc Hk. apply resolve_state in H as (l & st & Hl & [Ha Hd _ _ Hs _ _] & ->). simpl in *.
  assert (∃ c rp, (c, rp, Some k) ∈ number 0 l) as (c & rp & Hin).
  { destruct Hrc as [Hrc|Hrc]; [apply Ha in Hrc|apply Hd in Hrc];
      destruct Hrc as ([[c rp] sid] & Hg & _ & name & _ & _ & _ & _ & _ & Hsid & _);
      rewrite Hk in Hsid; subst; eauto. }
  exists (scope_of rp). apply Hs. eauto.
Qed.

(** Where an allowed entry comes from. *)
Lemma allowed_origin fuel acl caps target r cmd rc :
  resolve fuel acl caps target = Ok r →
  rc ∈ entries (allowed_commands r) cmd →
  ∃ k c e tps tp name ctxs,
    caps !! k = Some c ∧ Capability_is_active c target = true ∧
    e ∈ capability_permissions c ∧
    get_permissions fuel (PermissionEntry_identifier e) acl = Ok tps ∧ tp ∈ tps ∧
    Permission_is_active (tp_permission tp) target = true ∧
    name ∈ commands_allow (permission_commands (tp_permission tp)) ∧
    cmd = command_key (tp_key tp) name ∧
    contexts c = Ok ctxs ∧ context rc ∈ ctxs ∧
    parse_glob_patterns (capability_windows c) = Ok (windows rc) ∧
    parse_glob_patterns (capability_webviews c) = Ok (webviews rc).
Proof.
  intros H Hrc. apply resolve_state in H as (l & st & Hl & [Ha _ _ _ _ _ _] & ->).
  apply Ha in Hrc as ([[c rp] sid] & Hg & _ & name & Hname & -> & (ctxs & Hctxs & Hctx) & Hw & Hv & _).
  apply number_elem, contributions_elem with (1 := Hl) in Hg as (Hc & e & tps & tp & He & Htps & Htp & Hact & ->).
  apply elem_of_active in Hc as [[k Hk] Hca].
  exists k, c, e, tps, tp, name, ctxs. naive_solver.
Qed.

Lemma merge_scopes_spec l :
  merge_scopes l =
  mk_resolved_scope (l ≫= λ s, default [] (scopes_allow s)) (l ≫= λ s, default [] (scopes_deny s)).
Proof.
  unfold merge_scopes.
  assert (∀ r, foldl (λ r scope, mk_resolved_scope
      (scope_allow r ++ default [] (scopes_allow scope))
      (scope_deny r ++ default [] (scopes_deny scope))) r l =
    mk_resolved_scope (scope_allow r ++ (l ≫= λ s, default [] (scopes_allow s)))
      (scope_deny r ++ (l ≫= λ s, default [] (scopes_deny s)))) as ->; [|done].
  induction l as [|s l IH]; intros r; simpl; [by destruct r; simpl; rewrite !app_nil_r|].
  rewrite IH. simpl. by rewrite !app_assoc.
Qed.

End Spec.

(** ** Expansion of permission sets: termination *)
Section Sets.

(** A set being expanded: the identifier that led to it, its manifest, itself. *)
Abbreviation node := (Identifier * Manifest * PermissionSet)%type.

(** The sets the members of a set refer to. *)
Inductive refers (acl : gmap string Manifest) : node → node → Prop :=
| refers_default pid m set perm id m' pid' key' set' :
    perm ∈ set_permissions set → try_from perm = Ok id →
    set_member acl pid (default APP_ACL_KEY (get_prefix pid)) m perm id =
      (m', pid', key', "default") →
    default_permission m' = Some set' →
    refers acl (pid, m, set) (pid', m', set')
| refers_set pid m set perm id m' pid' key' name set' :
    perm ∈ set_permissions set → try_from perm = Ok id →
    set_member acl pid (default APP_ACL_KEY (get_prefix pid)) m perm id =
      (m', pid', key', name) →
    permissions m' !! name = None →
    permission_sets m' !! name = Some set' →
    refers acl (pid, m, set) (pid', m', set').

Definition expand (fuel : nat) (acl : gmap string Manifest) (n : node) :=
  get_permission_set_permissions fuel n.1.1 acl n.1.2 n.2.

(** More fuel does not change a result. *)
Lemma expand_fuel_mono acl fuel fuel' n :
  fuel ≤ fuel' → expand fuel acl n ≠ Diverge → expand fuel' acl n = expand fuel acl n.
Proof.
  revert fuel' n. induction fuel as [|fuel IH]; intros fuel' [[pid m] set] Hle Hn; [done|].
  destruct fuel' as [|fuel']; [lia|]. unfold expand in *. simpl in *.
  apply for_each_agree; [|done]. intros acc perm _ Hb.
  destruct (try_from perm) as [id| | |]; try done.
  destruct (set_member _ _ _ _ _ _) as [[[m' pid'] key'] name].
  assert (∀ set', get_permission_set_permissions fuel pid' acl m' set' ≠ Diverge →
    get_permission_set_permissions fuel' pid' acl m' set' =
    get_permission_set_permissions fuel pid' acl m' set') as Hrec.
  { intros set'. apply (IH fuel' (pid', m', set')). lia. }
  repeat case_match; try done; (rewrite Hrec; [done|]); intros Hd; rewrite Hd in Hb; done.
Qed.

Lemma expand_ranked acl (rank : node → nat) fuel n :
  (∀ x y, rtc (refers acl) n x → refers acl x y → rank y < rank x) →
  rank n < fuel → expand fuel acl n ≠ Diverge.
Proof.
  revert n. induction fuel as [|fuel IH]; intros [[pid m] set] Hrank Hn; [lia|].
  unfold expand. simpl. apply for_each_not_diverge. intros acc perm Hperm.
  destruct (try_from perm) as [id| | |] eqn:Hid; try done.
  destruct (set_member _ _ _ _ _ _) as [[[m' pid'] key'] name] eqn:Hmem.
  assert (∀ set', refers acl (pid, m, set) (pid', m', set') →
    get_permission_set_permissions fuel pid' acl m' set' ≠ Diverge) as Hrec.
  { intros set' Hr. apply (IH (pid', m', set')).
    - intros x y Hx. apply Hrank. by eapply rtc_l.
    - apply Hrank in Hr; [lia|done]. }
  case_decide; subst; repeat case_match; try done; (rename select PermissionSet into set');
    (assert (get_permission_set_permissions fuel pid' acl m' set' ≠ Diverge) as Hd
      by (apply Hrec; (by eapply refers_default) || (by eapply refers_set)));
    by destruct (get_permission_set_permissions fuel pid' acl m' set').
Qed.

(** Expanding a set returns when the references from it are well founded. *)
Definition well_founded_from (acl : gmap string Manifest) (rank : node → nat) (n : node) : Prop :=
  ∀ x y, rtc (refers acl) n x → refers acl x y → rank y < rank x.

Lemma expand_terminates acl rank n fuel fuel' :
  well_founded_from acl rank n → rank n < fuel → rank n < fuel' →
  expand fuel acl n ≠ Diverge ∧ expand fuel acl n = expand fuel' acl n.
Proof.
  intros Hrank H H'. split; [by apply (expand_ranked _ rank)|].
  destruct (decide (fuel ≤ fuel')).
  - symmetry. apply expand_fuel_mono; [done|]. by apply (expand_ranked _ rank).
  - apply expand_fuel_mono; [lia|]. by apply (expand_ranked _ rank).
Qed.

(** The set a permission identifier names, if it names one. *)
Definition entry_node (acl : gmap string Manifest) (pid : Identifier) : option node :=
  m ← acl !! default APP_ACL_KEY (get_prefix pid);
  set ← (if decide (get_base pid = "default") then default_permission m
         else permission_sets m !! get_base pid);
  Some (pid, m, set).

Lemma get_permissions_node fuel fuel' pid acl :
  get_permissions fuel pid acl =
  match entry_node acl pid with Some n => expand fuel acl n | None => get_permissions fuel' pid acl end.
Proof.
  unfold get_permissions, entry_node. destruct (acl !! _) as [m|]; [simpl|done].
  case_decide; simpl; [by destruct (default_permission m)|].
  by destruct (permission_sets m !! _).
Qed.

Lemma get_permissions_leaf fuel pid acl :
  entry_node acl pid = None → get_permissions fuel pid acl ≠ Diverge.
Proof.
  unfold get_permissions, entry_node. destruct (acl !! _) as [m|]; [simpl|done].
  case_decide; simpl; [by destruct (default_permission m)|].
  destruct (permission_sets m !! _); [done|]. by destruct (permissions m !! _).
Qed.

Lemma get_permissions_terminates acl rank pid fuel fuel' :
  (∀ n, entry_node acl pid = Some n → rank n < fuel ∧ rank n < fuel' ∧ well_founded_from acl rank n) →
  get_permissions fuel pid acl ≠ Diverge ∧ get_permissions fuel pid acl = get_permissions fuel' pid acl.
Proof.
  intros Hn. rewrite (get_permissions_node fuel fuel').
  destruct (entry_node acl pid) as [n|] eqn:He.
  - destruct (Hn n eq_refl) as (? & ? & ?). rewrite (get_permissions_node fuel' fuel'), He.
    by apply (expand_terminates _ rank).
  - split; [by apply get_permissions_leaf|done].
Qed.

End Sets.

(** ** The other steps of resolution return *)
Section Steps.
Context {GL : GlobLib} {UL : UrlPatternLib}.

Lemma contexts_return c : contexts c ≠ Diverge.
Proof.
  unfold contexts. destruct (capability_remote c) as [remote|]; [|done].
  assert (collect remote_context (remote_urls remote) ≠ Diverge) as H.
  { apply collect_not_diverge. intros u. unfold remote_context. by destruct (RemoteUrlPattern_from_str u). }
  by destruct (collect remote_context (remote_urls remote)).
Qed.

Lemma parse_glob_patterns_return raw : parse_glob_patterns raw ≠ Diverge.
Proof. apply collect_not_diverge. intros p. by destruct (Pattern_new p). Qed.

Lemma resolve_commands_return m key names c sid pn : resolve_commands m key names c sid pn ≠ Diverge.
Proof.
  apply for_each_not_diverge. intros m' name _. unfold resolve_command.
  pose proof (contexts_return c) as Hc. destruct (contexts c) as [cs| | |]; try done. simpl.
  apply for_each_not_diverge. intros m'' ctx _.
  pose proof (parse_glob_patterns_return (capability_windows c)) as Hw.
  destruct (parse_glob_patterns (capability_windows c)); try done. simpl.
  pose proof (parse_glob_patterns_return (capability_webviews c)) as Hv.
  by destruct (parse_glob_patterns (capability_webviews c)).
Qed.

Lemma on_permission_return c st rp : on_permission c st rp ≠ Diverge.
Proof.
  unfold on_permission. destruct (is_global rp); [done|].
  destruct (if Scopes_is_empty _ then _ else _) as [[n cs] sid].
  pose proof (resolve_commands_return (st_allowed st) (rp_key rp) (commands_allow (rp_commands rp)) c sid
    (rp_permission_name rp)) as Ha.
  destruct (resolve_commands (st_allowed st) _ _ _ _ _); try done. simpl.
  pose proof (resolve_commands_return (st_denied st) (rp_key rp) (commands_deny (rp_commands rp)) c sid
    (rp_permission_name rp)) as Hd.
  by destruct (resolve_commands (st_denied st) _ _ _ _ _).
Qed.

(** One result for all fuel above the ranks. *)
Lemma resolve_one_result acl caps target (rank : Identifier * Manifest * PermissionSet → nat) bound :
  (∀ c e n, c ∈ active_capabilities caps target → e ∈ capability_permissions c →
     entry_node acl (PermissionEntry_identifier e) = Some n →
     rank n ≤ bound ∧ well_founded_from acl rank n) →
  ∃ r, r ≠ Diverge ∧ ∀ fuel, bound < fuel → resolve fuel acl caps target = r.
Proof.
  intros Hrank. exists (resolve (S bound) acl caps target).
  assert (∀ fuel c e, bound < fuel → c ∈ active_capabilities caps target → e ∈ capability_permissions c →
    get_permissions (S bound) (PermissionEntry_identifier e) acl ≠ Diverge ∧
    get_permissions (S bound) (PermissionEntry_identifier e) acl =
      get_permissions fuel (PermissionEntry_identifier e) acl) as Hget.
  { intros fuel c e Hf Hc He. apply (get_permissions_terminates _ rank).
    intros n Hn. destruct (Hrank c e n Hc He Hn). split_and!; [lia|lia|done]. }
  assert (for_each (resolve_capability (S bound) acl target) (active_capabilities caps target)
    initial_state ≠ Diverge) as Hloop.
  { apply for_each_not_diverge. intros st c Hc. apply for_each_not_diverge. intros st' e He.
    destruct (Hget (S bound) c e ltac:(lia) Hc He) as [Hd _]. cbv beta zeta.
    destruct (get_permissions _ _ _) as [ps| | |]; try done. simpl.
    apply for_each_not_diverge. intros. apply on_permission_return. }
  unfold resolve. fold (active_capabilities caps target). split.
  - by destruct (for_each _ _ _).
  - intros fuel Hf. f_equal. apply for_each_agree; [|done]. intros st c Hc Hd.
    apply for_each_agree; [|done]. intros st' e He _. cbv beta zeta.
    by destruct (Hget fuel c e Hf Hc He) as [_ ->].
Qed.

End Steps.

(** ** Properties *)
Section Properties.
Context {GL : GlobLib} {UL : UrlPatternLib}.

(** C3. Resolution implements its specification: the entries stored for a
    command, allowed or denied, are exactly those that the permissions of the
    active capabilities give to it, with the windows, webviews, contexts and
    scope keys of the capability and the permission; no command is stored with
    an empty list; and a scope key holds the scope of the permission it was
    handed to. *)
Theorem resolve_refines fuel acl caps target r :
  resolve fuel acl caps target = Ok r →
  ∃ l, contributions fuel acl target (active_capabilities caps target) = Ok l ∧
    (∀ cmd rc, rc ∈ entries (allowed_commands r) cmd ↔
      ∃ g, g ∈ number 0 l ∧ is_global g.1.2 = false ∧ gives commands_allow g cmd rc) ∧
    (∀ cmd rc, rc ∈ entries (denied_commands r) cmd ↔
      ∃ g, g ∈ number 0 l ∧ is_global g.1.2 = false ∧ gives commands_deny g cmd rc) ∧
    no_empty_entry (allowed_commands r) ∧ no_empty_entry (denied_commands r) ∧
    (∀ k s, command_scope r !! k = Some s ↔
      ∃ c rp, (c, rp, Some k) ∈ number 0 l ∧ s = scope_of rp).
Proof.
  intros H. apply resolve_state in H as (l & st & Hl & [] & ->). exists l. naive_solver.
Qed.

(** Least privilege: when a command ends up allowed in some context, an
    active capability lists an entry whose identifier expands to a permission
    that is active on the target and allows that command, and the context is
    one of that capability. *)
Theorem resolve_allowed_sound fuel acl caps target r cmd rc :
  resolve fuel acl caps target = Ok r →
  rc ∈ entries (allowed_commands r) cmd →
  ∃ k c e tps tp name ctxs,
    caps !! k = Some c ∧ Capability_is_active c target = true ∧
    e ∈ capability_permissions c ∧
    get_permissions fuel (PermissionEntry_identifier e) acl = Ok tps ∧ tp ∈ tps ∧
    Permission_is_active (tp_permission tp) target = true ∧
    name ∈ commands_allow (permission_commands (tp_permission tp)) ∧
    cmd = command_key (tp_key tp) name ∧
    contexts c = Ok ctxs ∧ context rc ∈ ctxs ∧
    parse_glob_patterns (capability_windows c) = Ok (windows rc) ∧
    parse_glob_patterns (capability_webviews c) = Ok (webviews rc).
Proof. apply allowed_origin. Qed.

(** Scope keys cannot dangle: every scope key of an allowed or denied entry
    is stored, so the [unwrap] that reads it back cannot panic; the keys stored
    are exactly 1 to n. *)
Theorem resolve_scope_keys fuel acl caps target r :
  resolve fuel acl caps target = Ok r →
  (∀ cmd rc k, rc ∈ entries (allowed_commands r) cmd ∨ rc ∈ entries (denied_commands r) cmd →
    scope_id rc = Some k → is_Some (command_scope r !! k)) ∧
  ∃ n, ∀ k, is_Some (command_scope r !! k) ↔ (1 ≤ k ≤ n)%N.
Proof.
  intros H. split; [intros; by eapply resolve_scope_stored|].
  apply resolve_state in H as (l & st & Hl & [_ _ _ _ Hs _ _] & ->). simpl.
  exists (last_key 0 l). intros k. rewrite <-(number_keys 0 l k). split.
  - intros [s Hk]. apply Hs in Hk. naive_solver.
  - intros (c & rp & Hin). exists (scope_of rp). apply Hs. eauto.
Qed.

(** The global scope of a plugin is the concatenation, in the order of the
    capabilities and of their entries, of the scopes of the permissions that
    name no command. *)
Theorem resolve_global_scope fuel acl caps target r :
  resolve fuel acl caps target = Ok r →
  ∃ l, contributions fuel acl target (active_capabilities caps target) = Ok l ∧
  ∀ key, default ResolvedScope_default (global_scope r !! key) =
    let scopes := (λ g, rp_scope g.2) <$>
      filter (λ g, is_global g.2 = true ∧ rp_key g.2 = key) l in
    mk_resolved_scope (scopes ≫= λ s, default [] (scopes_allow s))
                      (scopes ≫= λ s, default [] (scopes_deny s)).
Proof.
  intros H. apply resolve_state in H as (l & st & Hl & [_ _ _ _ _ _ Hg] & ->).
  exists l. split; [done|]. intros key. simpl. rewrite lookup_fmap. specialize (Hg key).
  rewrite number_global in Hg.
  destruct (st_global st !! key) as [ss|]; simpl in *; [|by rewrite <-Hg].
  by rewrite merge_scopes_spec, Hg.
Qed.

(** C35. Resolution returns whenever the permission sets it expands do not refer
    to each other in a circle: with a rank that decreases along the references,
    any fuel above the ranks of the sets that the active capabilities name is
    enough, and the result does not depend on the fuel. *)
Theorem resolve_terminates acl caps target (rank : Identifier * Manifest * PermissionSet → nat) bound :
  (∀ c e n, c ∈ active_capabilities caps target → e ∈ capability_permissions c →
     entry_node acl (PermissionEntry_identifier e) = Some n →
     rank n ≤ bound ∧ well_founded_from acl rank n) →
  ∃ r, r ≠ Diverge ∧ ∀ fuel, bound < fuel → resolve fuel acl caps target = r.
Proof. apply resolve_one_result. Qed.

End Properties.

(** ** A small application: one plugin, one capability *)
#[local] Existing Instances literal_glob literal_url.

Definition ex_read : Permission :=
  mk_permission None "allow-read" None (mk_commands ["read"] [])
    (mk_scopes (Some [String_ "$HOME/*"]) None) None.

Definition ex_deny : Permission :=
  mk_permission None "deny-write" None (mk_commands [] ["write"]) Scopes_default (Some [Linux]).

Definition ex_base : Permission :=
  mk_permission None "scope-base" None (mk_commands [] []) (mk_scopes (Some [String_ "/srv"]) None) None.

Definition ex_manifest : Manifest :=
  mk_manifest (Some (mk_permission_set "default" "" ["allow-read"; "deny-write"]))
    {[ "allow-read" := ex_read; "deny-write" := ex_deny; "scope-base" := ex_base ]}
    {[ "all" := mk_permission_set "all" "" ["default"; "scope-base"] ]} None.

Definition ex_acl : gmap string Manifest := {[ "fs" := ex_manifest ]}.

Definition ex_capability : Capability :=
  mk_capability "main-capability" "" None true ["main"] []
    [PermissionRef (mk_identifier "fs:all" (Some 2))] None.

Definition ex_capabilities : gmap string Capability := {[ "main-capability" := ex_capability ]}.

Definition ex_resolved : Resolved _ _ :=
  match resolve 3 ex_acl ex_capabilities Linux with
  | Ok r => r
  | _ => mk_resolved ∅ ∅ ∅ ∅
  end.

Definition ex_entry : ResolvedCommand _ _ :=
  mk_resolved_command Local (mk_reference "main-capability" "allow-read") ["main"] [] (Some 1%N).

Lemma resolve_refines_witness :
  resolve 3 ex_acl ex_capabilities Linux = Ok ex_resolved ∧
  ∃ l, contributions 3 ex_acl Linux (active_capabilities ex_capabilities Linux) = Ok l ∧ length l = 3.
Proof.
  assert (resolve 3 ex_acl ex_capabilities Linux = Ok ex_resolved) as H by (vm_compute; reflexivity).
  split; [exact H|].
  destruct (resolve_refines 3 ex_acl ex_capabilities Linux ex_resolved H) as (l & Hl & _).
  exists l. split; [exact Hl|]. vm_compute in Hl. by injection Hl as <-.
Defined.

Lemma resolve_allowed_sound_witness :
  entries (allowed_commands ex_resolved) "plugin:fs|read" = [ex_entry] ∧
  ∃ k c, ex_capabilities !! k = Some c ∧ Capability_is_active c Linux = true.
Proof.
  assert (entries (allowed_commands ex_resolved) "plugin:fs|read" = [ex_entry]) as He
    by (vm_compute; reflexivity).
  split; [exact He|].
  destruct (resolve_allowed_sound 3 ex_acl ex_capabilities Linux ex_resolved "plugin:fs|read" ex_entry)
    as (k & c & _ & _ & _ & _ & _ & Hk & Hc & _).
  - vm_compute; reflexivity.
  - rewrite He. left.
  - eauto.
Defined.

Lemma resolve_scope_keys_witness :
  ∃ n, ∀ k, is_Some (command_scope ex_resolved !! k) ↔ (1 ≤ k ≤ n)%N.
Proof.
  refine (proj2 (resolve_scope_keys 3 ex_acl ex_capabilities Linux ex_resolved _)).
  vm_compute; reflexivity.
Defined.

Lemma resolve_global_scope_witness :
  global_scope ex_resolved !! "fs" = Some (mk_resolved_scope [String_ "/srv"] []) ∧
  ∃ l, contributions 3 ex_acl Linux (active_capabilities ex_capabilities Linux) = Ok l.
Proof.
  split; [vm_compute; reflexivity|].
  destruct (resolve_global_scope 3 ex_acl ex_capabilities Linux ex_resolved) as (l & Hl & _).
  - vm_compute; reflexivity.
  - eauto.
Defined.

Definition ex_id : Identifier := mk_identifier "fs:all" (Some 2).
Definition ex_all : PermissionSet := mk_permission_set "all" "" ["default"; "scope-base"].
Definition ex_default : PermissionSet := mk_permission_set "default" "" ["allow-read"; "deny-write"].

Lemma ex_refers_all y :
  refers ex_acl (ex_id, ex_manifest, ex_all) y → y = (ex_id, ex_manifest, ex_default).
Proof.
  inversion 1 as [????????? Hp Hid Hm Hd|?????????? Hp Hid Hm Hn Hs]; subst;
    (repeat (apply elem_of_cons in Hp as [->|Hp])); try (by apply not_elem_of_nil in Hp);
    vm_compute in Hid; injection Hid as <-; vm_compute in Hm; simplify_eq; try done.
  - vm_compute in Hd. by simplify_eq.
Qed.

Lemma ex_refers_default y : ¬ refers ex_acl (ex_id, ex_manifest, ex_default) y.
Proof.
  inversion 1 as [????????? Hp Hid Hm Hd|?????????? Hp Hid Hm Hn Hs]; subst;
    (repeat (apply elem_of_cons in Hp as [->|Hp])); try (by apply not_elem_of_nil in Hp);
    vm_compute in Hid; injection Hid as <-; vm_compute in Hm; simplify_eq; done.
Qed.

Definition ex_rank (n : Identifier * Manifest * PermissionSet) : nat :=
  if decide (set_identifier n.2 = "all") then 1 else 0.

Lemma ex_well_founded : well_founded_from ex_acl ex_rank (ex_id, ex_manifest, ex_all).
Proof.
  intros x y Hx Hy.
  apply rtc_inv in Hx as [<-|(z & Hz & Hx)].
  - apply ex_refers_all in Hy as ->. vm_compute. lia.
  - apply ex_refers_all in Hz as ->. apply rtc_inv in Hx as [<-|(z & Hz & _)].
    + by apply ex_refers_default in Hy.
    + by apply ex_refers_default in Hz.
Qed.

Lemma resolve_terminates_witness :
  ∃ r, r ≠ Diverge ∧ ∀ fuel, 1 < fuel → resolve fuel ex_acl ex_capabilities Linux = r.
Proof.
  destruct (resolve_terminates ex_acl ex_capabilities Linux ex_rank 1) as (r & Hr & Hf);
    [|exists r; split; [exact Hr|exact Hf]].
  intros c e n Hc He Hn.
  assert (active_capabilities ex_capabilities Linux = [ex_capability]) as Hcaps
    by (vm_compute; reflexivity).
  rewrite Hcaps in Hc. apply list_elem_of_singleton in Hc as ->.
  apply list_elem_of_singleton in He as ->. vm_compute in Hn. injection Hn as <-.
  split; [vm_compute; lia|exact ex_well_founded].
Defined.

(** Resolution has no guard against circular sets: a default set that
    contains itself is expanded for ever, whatever the fuel. *)
Theorem circular_default_diverges fuel :
  let manifest :=
    mk_manifest (Some (mk_permission_set "default" "" ["default"])) ∅ ∅ None in
  get_permissions fuel (mk_identifier "fs:default" (Some 2)) {[ "fs" := manifest ]} = Diverge.
Proof.
  intros manifest. change (expand fuel {[ "fs" := manifest ]}
    (mk_identifier "fs:default" (Some 2), manifest, mk_permission_set "default" "" ["default"])
    = Diverge).
  induction fuel as [|fuel IH]; [done|]. unfold expand in *. simpl in *. by rewrite IH.
Qed.

End Resolved.
