(* ===== verification/State.v ===== *)
(** * Managed state

    Models [tauri/Source/state.rs]: the type-indexed store [StateManager]. A
    value is boxed as [dyn Any], that is with the identifier of its type, and
    the lock that every operation takes makes each of them one step. *)
From Stdlib Require Import ZArith.
From S2P Require Import Prelude.

Module State.

Abbreviation TypeId := N.

(** ** The hasher of the map: it uses the input as the hash *)
Module IdentHash.

(** [(self.0 << 8) | (i as u64)] on 64 bits. *)
Definition write_u8 (h i : Z) : Z := Z.lor (Z.shiftl h 8 `mod` u64_modulus)%Z i.
Definition write (h : Z) (bytes : list Z) : Z := foldl write_u8 h bytes.
Definition write_u64 (h i : Z) : Z := i.
Definition finish (h : Z) : Z := h.

End IdentHash.

Section StateManager.
Context {Obj : Type}.

(** [Box<dyn Any>]. *)
Record Boxed := mk_boxed { type_id : TypeId; value : Obj }.

(** [downcast::<T>()]. *)
Definition downcast (T : TypeId) (b : Boxed) : option Obj :=
  if decide (type_id b = T) then Some (value b) else None.

Abbreviation StateManager := (gmap TypeId Boxed).

Definition new : StateManager := ∅.

Definition set (T : TypeId) (state : Obj) (map : StateManager) : bool * StateManager :=
  let already_set := bool_decide (is_Some (map !! T)) in
  (negb already_set, if already_set then map else <[T := mk_boxed T state]> map).

Definition unmanage (T : TypeId) (map : StateManager) : option Obj * StateManager :=
  (map !! T ≫= downcast T, delete T map).

Definition try_get (T : TypeId) (map : StateManager) : option Obj := map !! T ≫= downcast T.

Definition get (T : TypeId) (map : StateManager) : outcome Empty_set Obj :=
  expect (try_get T map) "state: get() when given type is not managed".

(** Every value is stored under the identifier of its own type. *)
Definition well_typed (map : StateManager) : Prop :=
  ∀ T b, map !! T = Some b → type_id b = T.

(** The operations, as the steps of a run. *)
Inductive op := Set_ (T : TypeId) (state : Obj) | Unmanage (T : TypeId).

Definition step (map : StateManager) (o : op) : StateManager :=
  match o with Set_ T s => (set T s map).2 | Unmanage T => (unmanage T map).2 end.

(** ** Lemmas *)
Lemma downcast_boxed T s : downcast T (mk_boxed T s) = Some s.
Proof. unfold downcast. by rewrite decide_True. Qed.

Lemma set_well_typed T s map : well_typed map → well_typed (set T s map).2.
Proof.
  intros Hm T' b. unfold set. simpl. case_bool_decide; [apply Hm|].
  rewrite lookup_insert_Some. naive_solver.
Qed.

Lemma unmanage_well_typed T map : well_typed map → well_typed (unmanage T map).2.
Proof. intros Hm T' b. simpl. rewrite lookup_delete_Some. naive_solver. Qed.

Lemma try_get_well_typed T map :
  well_typed map → (is_Some (try_get T map) ↔ is_Some (map !! T)).
Proof.
  intros Hm. unfold try_get. destruct (map !! T) as [b|] eqn:Hb; simpl; [|done].
  unfold downcast. rewrite (Hm _ _ Hb), decide_True by done. naive_solver.
Qed.

Lemma steps_well_typed ops map : well_typed map → well_typed (foldl step map ops).
Proof.
  revert map. induction ops as [|o ops IH]; intros map Hm; simpl; [done|]. apply IH.
  destruct o; [by apply set_well_typed|by apply unmanage_well_typed].
Qed.

Lemma new_well_typed : well_typed new.
Proof. intros T b. unfold new. by rewrite lookup_empty. Qed.

(** ** Properties *)

(** C40. After any sequence of [set] and [unmanage] every value is stored under
    its own type, so a downcast of a stored value never fails: a type is
    readable exactly when the map has an entry for it, and [get] panics exactly
    when it has none. *)
Theorem state_downcast_never_fails ops T :
  let map := foldl step new ops in
  (is_Some (try_get T map) ↔ is_Some (map !! T)) ∧
  ((∃ v, get T map = Ok v) ↔ is_Some (map !! T)).
Proof.
  intros map. assert (well_typed map) as Hm by apply steps_well_typed, new_well_typed.
  pose proof (try_get_well_typed T map Hm) as Ht. split; [done|].
  unfold get. rewrite <-Ht. destruct (try_get T map); simpl; naive_solver.
Qed.

(** Managed state is write-once: on a free type [set] answers [true] and
    the value is read back; on a managed type it answers [false] and changes
    nothing; [unmanage] gives the value back and frees the type; no operation
    touches another type. *)
Theorem state_set_get_unmanage T s map :
  let '(first, map') := set T s map in
  (first = true ↔ map !! T = None) ∧
  (first = true → try_get T map' = Some s ∧ unmanage T map' = (Some s, delete T map)) ∧
  (first = false → map' = map) ∧
  (unmanage T map).2 !! T = None ∧
  ∀ T', T' ≠ T → map' !! T' = map !! T' ∧ (unmanage T map).2 !! T' = map !! T'.
Proof.
  unfold set, try_get, unmanage. case_bool_decide as Hs; simpl.
  - destruct Hs as [b Hb]. rewrite Hb. split_and!; try done.
    + apply lookup_delete_eq.
    + intros. by rewrite lookup_delete_ne.
  - apply eq_None_not_Some in Hs. split_and!; try done.
    + intros _. rewrite lookup_insert_eq. simpl. rewrite downcast_boxed. split; [done|].
      by rewrite delete_insert_eq.
    + apply lookup_delete_eq.
    + intros T' Hne. by rewrite lookup_insert_ne, lookup_delete_ne.
Qed.

End StateManager.

(** ** The hasher *)

(** The bytes read as one big-endian number. *)
Definition big_endian (bytes : list Z) : Z := foldl (λ n b, n * 256 + b)%Z 0%Z bytes.

(** The low byte is free after the shift, so [|] is [+]. *)
Lemma lor_low_byte x i : (0 ≤ i < 256)%Z → Z.lor (x * 256) i = (x * 256 + i)%Z.
Proof.
  intros Hi. assert (Z.land (x * 256) i = 0)%Z as H0.
  { apply Z.bits_inj'. intros n Hn. rewrite Z.land_spec, Z.bits_0.
    change 256%Z with (2 ^ 8)%Z. destruct (decide (n < 8)%Z) as [Hlt|Hge].
    - by rewrite Z.mul_pow2_bits_low.
    - rewrite (Z.bits_above_log2 i), andb_false_r; [done|lia|].
      destruct (decide (i = 0)%Z) as [->|]; [simpl; lia|].
      assert (Z.log2 i < 8)%Z by (apply Z.log2_lt_pow2; lia). lia. }
  rewrite <-Z.lxor_lor by done. symmetry. by apply Z.add_nocarry_lxor.
Qed.

Lemma write_u8_add h i :
  (0 ≤ i < 256)%Z → IdentHash.write_u8 h i = ((h * 256 + i) `mod` u64_modulus)%Z.
Proof.
  intros Hi. unfold IdentHash.write_u8, u64_modulus. rewrite Z.shiftl_mul_pow2 by lia.
  change (2 ^ 8)%Z with 256%Z. change (2 ^ 64)%Z with (2 ^ 56 * 256)%Z.
  rewrite Z.mul_mod_distr_r, lor_low_byte by lia.
  pose proof (Z.div_mod h (2 ^ 56) ltac:(lia)). pose proof (Z.mod_pos_bound h (2 ^ 56) ltac:(lia)).
  apply Z.mod_unique with (h `div` 2 ^ 56)%Z; lia.
Qed.

Lemma write_big_endian h bytes :
  Forall (λ b, 0 ≤ b < 256)%Z bytes → (0 ≤ h < u64_modulus)%Z →
  IdentHash.write h bytes = (foldl (λ n b, n * 256 + b) h bytes `mod` u64_modulus)%Z.
Proof.
  intros Hb Hh. unfold IdentHash.write.
  assert (∀ h', h = (h' `mod` u64_modulus)%Z →
    foldl IdentHash.write_u8 h bytes = (foldl (λ n b, n * 256 + b) h' bytes `mod` u64_modulus)%Z)
    as Hgen; [|apply Hgen; symmetry; by apply Z.mod_small].
  clear Hh. revert h. induction Hb as [|b bytes Hb _ IH]; intros h h' Hh; simpl; [done|].
  apply IH. rewrite write_u8_add by done. subst.
  rewrite <-Z.add_mod_idemp_l, Z.mul_mod_idemp_l, Z.add_mod_idemp_l by done. done.
Qed.

(** The bytes before the last eight are shifted out. *)
Lemma foldl_big_endian h bytes :
  foldl (λ n b, n * 256 + b)%Z h bytes = (h * 256 ^ Z.of_nat (length bytes) + big_endian bytes)%Z.
Proof.
  unfold big_endian. revert h. induction bytes as [|b bytes IH]; intros h; cbn [foldl length]; [lia|].
  rewrite (IH (h * 256 + b)%Z), (IH (0 * 256 + b)%Z), Nat2Z.inj_succ, Z.pow_succ_r by lia. lia.
Qed.

Lemma big_endian_bound bytes :
  Forall (λ b, 0 ≤ b < 256)%Z bytes → (0 ≤ big_endian bytes < 256 ^ Z.of_nat (length bytes))%Z.
Proof.
  induction 1 as [|b bytes Hb _ IH]; [by vm_compute|].
  assert (big_endian (b :: bytes) = b * 256 ^ Z.of_nat (length bytes) + big_endian bytes)%Z as ->.
  { unfold big_endian at 1. cbn [foldl]. by rewrite foldl_big_endian. }
  cbn [length]. rewrite Nat2Z.inj_succ, Z.pow_succ_r by lia. nia.
Qed.

(** Hashing the eight bytes of a type identifier gives those bytes as one
    number, whatever was hashed before: the hasher is the identity on 64-bit
    identifiers, so two different identifiers never collide. *)
Theorem ident_hash_identity h bytes :
  (0 ≤ h < u64_modulus)%Z → Forall (λ b, 0 ≤ b < 256)%Z bytes → length bytes = 8 →
  IdentHash.finish (IdentHash.write h bytes) = big_endian bytes.
Proof.
  intros Hh Hb Hlen. unfold IdentHash.finish. rewrite write_big_endian, foldl_big_endian, Hlen by done.
  change (256 ^ Z.of_nat 8)%Z with u64_modulus. 
  rewrite Z.add_comm, Z.mod_add by done. apply Z.mod_small.
  pose proof (big_endian_bound bytes Hb) as Hbound. by rewrite Hlen in Hbound.
Qed.

Lemma ident_hash_identity_witness :
  IdentHash.finish (IdentHash.write 7 [1; 2; 3; 4; 5; 6; 7; 8]%Z) =
  big_endian [1; 2; 3; 4; 5; 6; 7; 8]%Z.
Proof.
  apply ident_hash_identity; [by split|by repeat constructor|reflexivity].
Defined.

End State.
