(* ===== verification/Resources.v ===== *)
(** * The resource table

    Models [tauri/Source/resources/mod.rs]: objects handed to the frontend
    under random 32-bit identifiers. The random source is a parameter of the
    insertion, as the list of the numbers it draws. *)
From Stdlib Require Import ZArith.
From S2P Require Import Prelude State.

Module Resources.

Abbreviation ResourceId := Z.
Abbreviation TypeId := State.TypeId.

Inductive Error := BadResourceId (rid : ResourceId).

Section Table.
Context {Obj : Type}.

(** [Arc<dyn Resource>]: a shared object with the type it was created with.
    [name] and [close] are methods of the object. *)
Abbreviation Resource := (@State.Boxed Obj).

Abbreviation ResourceTable := (gmap ResourceId Resource).

Context (name : Resource → string).

(** [u32::from_ne_bytes] of four random bytes. *)
Definition is_u32 (z : Z) : Prop := (0 ≤ z ≤ u32_max)%Z.

(** The loop draws until the identifier is free; the draws left are given back. *)
Fixpoint fresh_rid (index : ResourceTable) (draws : list Z) : outcome Empty_set (ResourceId * list Z) :=
  match draws with
  | [] => Diverge
  | rid :: draws =>
      if decide (is_Some (index !! rid)) then fresh_rid index draws else Ok (rid, draws)
  end.

Definition add_arc_dyn (draws : list Z) (resource : Resource) (index : ResourceTable)
    : outcome Empty_set (ResourceId * ResourceTable * list Z) :=
  '(rid, draws) ← fresh_rid index draws;
  let removed_resource := index !! rid in
  let index := <[rid := resource]> index in
  if decide (removed_resource = None) then Ok (rid, index, draws)
  else Panic "assertion failed: removed_resource.is_none()".

Definition add_arc (T : TypeId) (draws : list Z) (resource : Obj) (index : ResourceTable) :=
  add_arc_dyn draws (State.mk_boxed T resource) index.

Definition add (T : TypeId) (draws : list Z) (resource : Obj) (index : ResourceTable) :=
  add_arc T draws resource index.

Definition has (rid : ResourceId) (index : ResourceTable) : bool :=
  bool_decide (is_Some (index !! rid)).

Definition get (T : TypeId) (rid : ResourceId) (index : ResourceTable) : outcome Error Obj :=
  ok_or (index !! rid ≫= State.downcast T) (BadResourceId rid).

Definition get_any (rid : ResourceId) (index : ResourceTable) : outcome Error Resource :=
  ok_or (index !! rid) (BadResourceId rid).

Definition replace (T : TypeId) (rid : ResourceId) (resource : Obj) (index : ResourceTable)
    : outcome Error ResourceTable :=
  let result := index !! rid in
  let index := <[rid := State.mk_boxed T resource]> index in
  if decide (is_Some result) then Ok index else Panic "assertion failed: result.is_some()".

Definition take (T : TypeId) (rid : ResourceId) (index : ResourceTable)
    : outcome Error Obj * ResourceTable :=
  match get T rid index with
  | Ok resource => (Ok resource, delete rid index)
  | r => (r, index)
  end.

Definition take_any (rid : ResourceId) (index : ResourceTable)
    : outcome Error Resource * ResourceTable :=
  (ok_or (index !! rid) (BadResourceId rid), delete rid index).

(** [(id, name)] of every resource. *)
Definition names (index : ResourceTable) : list (ResourceId * string) :=
  (λ p, (p.1, name p.2)) <$> map_to_list index.

(** [close] removes the resource and calls its [close] method; the second
    component is the resource whose method is called. *)
Definition close (rid : ResourceId) (index : ResourceTable)
    : outcome Error Resource * ResourceTable :=
  (ok_or (index !! rid) (BadResourceId rid), delete rid index).

Definition clear (index : ResourceTable) : ResourceTable := ∅.

(** ** Lemmas *)
Lemma fresh_rid_spec index draws rid rest :
  fresh_rid index draws = Ok (rid, rest) →
  index !! rid = None ∧ ∃ used, draws = used ++ rid :: rest ∧ Forall (λ d, is_Some (index !! d)) used.
Proof.
  induction draws as [|d draws IH]; simpl; [done|]. case_decide as Hd.
  - intros H. destruct (IH H) as (? & used & -> & ?). split; [done|].
    exists (d :: used). split; [done|]. by constructor.
  - intros. simplify_eq. split; [by apply eq_None_not_Some|]. by exists [].
Qed.

Lemma fresh_rid_finds index draws :
  Exists (λ d, index !! d = None) draws → ∃ p, fresh_rid index draws = Ok p.
Proof.
  induction 1 as [d draws Hd|d draws _ [p IH]]; simpl.
  - rewrite decide_False; [eauto|]. by apply eq_None_not_Some.
  - case_decide; eauto.
Qed.

(** ** Properties *)

(** Adding a resource returns as soon as the random source draws a free
    identifier, never trips its assertion, and then: the identifier was free
    and is one of the draws, it now reads as the resource at its own type and
    as an error at every other type, and the other entries are unchanged. *)
Theorem add_fresh T draws resource index :
  Exists (λ d, index !! d = None) draws →
  ∃ rid index' rest, add T draws resource index = Ok (rid, index', rest) ∧
    index !! rid = None ∧ rid ∈ draws ∧
    get T rid index' = Ok resource ∧
    (∀ T', T' ≠ T → get T' rid index' = Err (BadResourceId rid)) ∧
    (∀ rid', rid' ≠ rid → index' !! rid' = index !! rid').
Proof.
  intros Hd. destruct (fresh_rid_finds _ _ Hd) as [[rid rest] Hf].
  destruct (fresh_rid_spec _ _ _ _ Hf) as (Hn & used & -> & _).
  exists rid, (<[rid := State.mk_boxed T resource]> index), rest.
  unfold add, add_arc, add_arc_dyn, get. rewrite Hf. simpl. rewrite decide_True by done.
  rewrite lookup_insert_eq. simpl. rewrite State.downcast_boxed. split_and!; try done.
  - set_solver.
  - intros T' HT. unfold State.downcast. simpl. by rewrite decide_False.
  - intros. by rewrite lookup_insert_ne.
Qed.

(** [take] removes a resource exactly when it answers it: at the right type
    the resource leaves the table, and at a wrong type or a free identifier
    the answer is [BadResourceId] and the table is unchanged. *)
Theorem take_removes_iff_ok T rid (index : ResourceTable) :
  (∃ resource, index !! rid = Some (State.mk_boxed T resource) ∧
    take T rid index = (Ok resource, delete rid index) ∧ has rid (take T rid index).2 = false) ∨
  ((∀ resource, index !! rid ≠ Some (State.mk_boxed T resource)) ∧
    take T rid index = (Err (BadResourceId rid), index)).
Proof.
  unfold take, get. destruct (index !! rid) as [[T' v]|] eqn:Hr; simpl; [|by right].
  unfold State.downcast. simpl. case_decide as HT; subst; simpl.
  - left. exists v. split_and!; try done. unfold has. simpl. by rewrite lookup_delete_eq.
  - right. split; [|done]. intros ??. simplify_eq.
Qed.

End Table.

Lemma add_fresh_witness :
  ∃ rid index' rest,
    add 1%N [5; 5; 9]%Z "menu" {[ 5%Z := State.mk_boxed 2%N "tray" ]} = Ok (rid, index', rest) ∧
    get 1%N rid index' = Ok "menu" ∧ rid = 9%Z.
Proof.
  destruct (add_fresh 1%N [5; 5; 9]%Z "menu" {[ 5%Z := State.mk_boxed 2%N "tray" ]})
    as (rid & index' & rest & Ha & _ & _ & Hg & _).
  - do 2 apply Exists_cons_tl. apply Exists_cons_hd. vm_compute. reflexivity.
  - exists rid, index', rest. split; [exact Ha|]. split; [exact Hg|].
    vm_compute in Ha. congruence.
Defined.

End Resources.
