(* ===== verification/Authority.v ===== *)
(** * The runtime authority

    Models [tauri/Source/ipc/authority.rs]: the capabilities built at run time,
    the decision [RuntimeAuthority::resolve_access] that guards every IPC
    command, its diagnostic [resolve_access_message], the extension of the
    authority by [add_capability], and the typed scopes of commands and plugins
    with their caches. Scope objects are deserialized by code of the
    application: [deserialize] is a parameter. *)
From Stdlib Require Import Ascii.
From S2P Require Import Prelude Identifier Acl Resolved State.
Import Identifier Acl Resolved.

Module Authority.

Section Data.
Context {GL : GlobLib} {UL : UrlPatternLib}.

Inductive Origin :=
| OriginLocal
| OriginRemote (url : Url).

Definition Origin_to_string (o : Origin) : string :=
  match o with
  | OriginLocal => "local"
  | OriginRemote url => "remote: " +:+ Url_as_str url
  end.

Definition Origin_matches (o : Origin) (context : ExecutionContext UL) : bool :=
  match o, context with
  | OriginLocal, Local => true
  | OriginRemote url, Remote url_pattern => RemoteUrlPattern_test url_pattern url
  | _, _ => false
  end.

End Data.

(** ** Building a capability at run time *)
Module CapabilityBuilder.

Definition new (identifier : string) : Capability :=
  mk_capability identifier "" None true [] [] [] None.

Definition remote (url : string) (c : Capability) : Capability :=
  let urls := match capability_remote c with Some r => remote_urls r | None => [] end in
  mk_capability (capability_identifier c) (capability_description c)
    (Some (mk_capability_remote (urls ++ [url]))) (capability_local c) (capability_windows c)
    (capability_webviews c) (capability_permissions c) (capability_platforms c).

Definition local (b : bool) (c : Capability) : Capability :=
  mk_capability (capability_identifier c) (capability_description c) (capability_remote c) b
    (capability_windows c) (capability_webviews c) (capability_permissions c) (capability_platforms c).

Definition windows (ws : list string) (c : Capability) : Capability :=
  mk_capability (capability_identifier c) (capability_description c) (capability_remote c)
    (capability_local c) (capability_windows c ++ ws) (capability_webviews c)
    (capability_permissions c) (capability_platforms c).

Definition window (w : string) (c : Capability) : Capability := windows [w] c.

Definition webviews (vs : list string) (c : Capability) : Capability :=
  mk_capability (capability_identifier c) (capability_description c) (capability_remote c)
    (capability_local c) (capability_windows c) (capability_webviews c ++ vs)
    (capability_permissions c) (capability_platforms c).

Definition webview (v : string) (c : Capability) : Capability := webviews [v] c.

Definition push_permission (e : PermissionEntry) (c : Capability) : Capability :=
  mk_capability (capability_identifier c) (capability_description c) (capability_remote c)
    (capability_local c) (capability_windows c) (capability_webviews c)
    (capability_permissions c ++ [e]) (capability_platforms c).

(** The identifier is parsed; an invalid one panics. *)
Definition parse_permission (permission : string) : outcome Empty_set Identifier :=
  expect (ok (try_from permission)) ("invalid permission identifier '" +:+ permission +:+ "'").

Definition permission (p : string) (c : Capability) : outcome Empty_set Capability :=
  identifier ← parse_permission p;
  Ok (push_permission (PermissionRef identifier) c).

(** [serialize] is the application's [Serialize], [None] where it fails. *)
Definition permission_scoped {T} (serialize : T → option Value) (p : string)
    (allowed denied : list T) (c : Capability) : outcome Empty_set Capability :=
  identifier ← parse_permission p;
  allowed_scope ← collect (λ a, expect (serialize a) "failed to serialize scope") allowed;
  denied_scope ← collect (λ a, expect (serialize a) "failed to serialize scope") denied;
  Ok (push_permission
        (ExtendedPermission identifier (mk_scopes (Some allowed_scope) (Some denied_scope))) c).

Definition platforms (ps : list Target) (c : Capability) : Capability :=
  mk_capability (capability_identifier c) (capability_description c) (capability_remote c)
    (capability_local c) (capability_windows c) (capability_webviews c)
    (capability_permissions c) (Some (default [] (capability_platforms c) ++ ps)).

Definition platform (p : Target) (c : Capability) : Capability := platforms [p] c.

Definition build (c : Capability) : CapabilityFile := CapabilityFile_Capability c.

End CapabilityBuilder.

Section Runtime.
Context {GL : GlobLib} {UL : UrlPatternLib}.
(** Scope objects, and how the application deserializes one at a type. *)
Context {Obj : Type} (deserialize : State.TypeId → Value → option Obj).

(** ** Typed scopes *)

(** [ScopeValue<T>]: the objects a scope allows and denies. *)
Record ScopeValue := mk_scope_value {
  sv_allow : list Obj;
  sv_deny : list Obj;
}.

Inductive Error := CannotDeserializeScope.

Abbreviation Cache := (gmap State.TypeId (@State.Boxed ScopeValue)).

Record ScopeManager := mk_scope_manager {
  sm_command_scope : gmap ScopeKey ResolvedScope;
  sm_global_scope : gmap string ResolvedScope;
  sm_command_cache : gmap ScopeKey Cache;
  sm_global_scope_cache : Cache;
}.

Record RuntimeAuthority := mk_authority {
  acl : gmap string Manifest;
  ra_allowed_commands : gmap string (list (ResolvedCommand GL UL));
  ra_denied_commands : gmap string (list (ResolvedCommand GL UL));
  scope_manager : ScopeManager;
}.

(** Deserializing a scope: the allowed values, then the denied ones, the first
    failure ends it. *)
Definition scope_value (T : State.TypeId) (scope : ResolvedScope) : outcome Error ScopeValue :=
  allow ← collect (λ v, ok_or (deserialize T v) CannotDeserializeScope) (scope_allow scope);
  deny ← collect (λ v, ok_or (deserialize T v) CannotDeserializeScope) (scope_deny scope);
  Ok (mk_scope_value allow deny).

Definition get_global_scope_typed (T : State.TypeId) (key : string) (sm : ScopeManager)
    : outcome Error ScopeValue * ScopeManager :=
  match State.try_get T (sm_global_scope_cache sm) with
  | Some cached => (Ok cached, sm)
  | None =>
      match scope_value T (default ResolvedScope_default (sm_global_scope sm !! key)) with
      | Ok scope =>
          (Ok scope,
           mk_scope_manager (sm_command_scope sm) (sm_global_scope sm) (sm_command_cache sm)
             (State.set T scope (sm_global_scope_cache sm)).2)
      | r => (r, sm)
      end
  end.

Definition get_command_scope_typed (T : State.TypeId) (key : ScopeKey) (sm : ScopeManager)
    : outcome Error ScopeValue * ScopeManager :=
  match sm_command_cache sm !! key with
  | None => (Panic "called `Option::unwrap()` on a `None` value", sm)
  | Some cache =>
      match State.try_get T cache with
      | Some cached => (Ok cached, sm)
      | None =>
          match sm_command_scope sm !! key with
          | None => (Panic "missing command scope for key", sm)
          | Some resolved_scope =>
              match scope_value T resolved_scope with
              | Ok value =>
                  (Ok value,
                   mk_scope_manager (sm_command_scope sm) (sm_global_scope sm)
                     (<[key := (State.set T value cache).2]> (sm_command_cache sm))
                     (sm_global_scope_cache sm))
              | r => (r, sm)
              end
          end
      end
  end.

(** [CommandScope::resolve]: the loop over the scope keys, with the objects
    pushed so far. *)
Fixpoint resolve_scopes (T : State.TypeId) (scope_ids : list ScopeKey) (acc : ScopeValue)
    (sm : ScopeManager) : outcome Error ScopeValue * ScopeManager :=
  match scope_ids with
  | [] => (Ok acc, sm)
  | scope_id :: scope_ids =>
      match get_command_scope_typed T scope_id sm with
      | (Ok scope, sm) =>
          resolve_scopes T scope_ids
            (mk_scope_value (sv_allow acc ++ sv_allow scope) (sv_deny acc ++ sv_deny scope)) sm
      | (r, sm) => (r, sm)
      end
  end.

Definition CommandScope_resolve (T : State.TypeId) (scope_ids : list ScopeKey) (sm : ScopeManager)
    : outcome Error ScopeValue * ScopeManager :=
  resolve_scopes T scope_ids (mk_scope_value [] []) sm.

(** [CommandScope::from_command]: the commands the invocation was granted by,
    or [None] for an invocation that needed no access control. *)
Definition CommandScope_from_command (T : State.TypeId)
    (command_acl : option (list (ResolvedCommand GL UL))) (sm : ScopeManager)
    : outcome Error ScopeValue * ScopeManager :=
  match (λ resolved : list (ResolvedCommand GL UL), omap scope_id resolved) <$> command_acl with
  | Some scope_ids => CommandScope_resolve T scope_ids sm
  | None => (Ok (mk_scope_value [] []), sm)
  end.

Definition GlobalScope_from_command (T : State.TypeId) (plugin : option string) (sm : ScopeManager)
    : outcome Error ScopeValue * ScopeManager :=
  get_global_scope_typed T (default APP_ACL_KEY plugin) sm.

(** [CommandScope::matches], for a scope object that matches an input. *)
Definition CommandScope_matches {Input} (matches : Obj → Input → bool) (scope : ScopeValue)
    (input : Input) : bool :=
  if existsb (λ s, matches s input) (sv_deny scope) then false
  else if decide (sv_allow scope = []) then true
  else existsb (λ s, matches s input) (sv_allow scope).

(** ** The authority *)
Definition RuntimeAuthority_new (acl : gmap string Manifest) (resolved : Resolved GL UL)
    : RuntimeAuthority :=
  mk_authority acl (allowed_commands resolved) (denied_commands resolved)
    (mk_scope_manager (command_scope resolved) (global_scope resolved)
       ((λ _, State.new) <$> command_scope resolved) State.new).

Definition has_app_manifest (ra : RuntimeAuthority) : bool :=
  bool_decide (is_Some (acl ra !! APP_ACL_KEY)).

Definition allow_command (command : string) (context : ExecutionContext UL) (ra : RuntimeAuthority)
    : outcome Empty_set RuntimeAuthority :=
  star ← expect (Pattern_new "*") "called `Result::unwrap()` on an `Err` value";
  Ok (mk_authority (acl ra)
        (<[command := [mk_resolved_command context (mk_reference "" "") [star] [] None]]>
           (ra_allowed_commands ra))
        (ra_denied_commands ra) (scope_manager ra)).

Definition matches_webview (webview : string) (cmd : ResolvedCommand GL UL) : bool :=
  existsb (λ w, Pattern_matches w webview) (webviews cmd).

Definition matches_window (window : string) (cmd : ResolvedCommand GL UL) : bool :=
  existsb (λ w, Pattern_matches w window) (windows cmd).

(** The decision. The first test is whether the command has denied entries:
    the [map] gives [Some] whichever origin they are for. *)
Definition resolve_access (ra : RuntimeAuthority) (command window webview : string) (origin : Origin)
    : option (list (ResolvedCommand GL UL)) :=
  match (λ resolved, existsb (λ cmd, Origin_matches origin (context cmd)) resolved)
          <$> (ra_denied_commands ra !! command) with
  | Some _ => None
  | None =>
      resolved ← ra_allowed_commands ra !! command;
      let resolved_cmds :=
        List.filter (λ cmd, Origin_matches origin (context cmd) &&
                       (matches_webview webview cmd || matches_window window cmd)) resolved in
      if decide (resolved_cmds = []) then None else Some resolved_cmds
  end.

(** ** Adding a capability *)
Definition extend_scope (scope : ResolvedScope) (entry : ResolvedScope) : ResolvedScope :=
  mk_resolved_scope (scope_allow entry ++ scope_allow scope) (scope_deny entry ++ scope_deny scope).

(** One turn of the loop that fills the global scope. *)
Definition fill_global_scope (sm : ScopeManager) (p : string * ResolvedScope) : ScopeManager :=
  mk_scope_manager (sm_command_scope sm)
    (entry_or ResolvedScope_default (extend_scope p.2) p.1 (sm_global_scope sm))
    (sm_command_cache sm) State.new.

(** One turn of the loop that fills the command scopes. *)
Definition fill_command_scope (scopes : gmap ScopeKey ResolvedScope) (sm : ScopeManager)
    (resolved_cmd : ResolvedCommand GL UL) : outcome Empty_set ScopeManager :=
  match scope_id resolved_cmd with
  | None => Ok sm
  | Some scope_id =>
      command_scope ← expect (scopes !! scope_id) "called `Option::unwrap()` on a `None` value";
      Ok (mk_scope_manager
            (entry_or ResolvedScope_default (extend_scope command_scope) scope_id (sm_command_scope sm))
            (sm_global_scope sm) (<[scope_id := State.new]> (sm_command_cache sm))
            (sm_global_scope_cache sm))
  end.

(** One turn of the loop over the allowed commands. *)
Definition add_allowed (scopes : gmap ScopeKey ResolvedScope) (ra : RuntimeAuthority)
    (p : string * list (ResolvedCommand GL UL)) : outcome Empty_set RuntimeAuthority :=
  sm ← for_each (fill_command_scope scopes) p.2 (scope_manager ra);
  Ok (mk_authority (acl ra) (entry_or [] (λ l, l ++ p.2) p.1 (ra_allowed_commands ra))
        (ra_denied_commands ra) sm).

(** The capabilities of a file by identifier. *)
Definition capability_map (f : CapabilityFile) : gmap string Capability :=
  match f with
  | CapabilityFile_Capability c => {[ capability_identifier c := c ]}
  | CapabilityFile_List l | CapabilityFile_NamedList l =>
      foldl (λ m c, <[capability_identifier c := c]> m) ∅ l
  end.

(** The result of [resolve] is unwrapped. *)
Definition unwrap_resolved {A} (r : outcome Resolved.Error A) : outcome Empty_set A :=
  match r with
  | Ok a => Ok a
  | Err _ => Panic "called `Result::unwrap()` on an `Err` value"
  | Panic msg => Panic msg
  | Diverge => Diverge
  end.

Definition add_resolved (resolved : Resolved GL UL) (ra : RuntimeAuthority)
    : outcome Empty_set RuntimeAuthority :=
  let sm := foldl fill_global_scope (scope_manager ra) (btree_to_list (global_scope resolved)) in
  let denied :=
    foldl (λ m p, entry_or [] (λ l, l ++ p.2) p.1 m) (ra_denied_commands ra)
      (btree_to_list (denied_commands resolved)) in
  for_each (add_allowed (command_scope resolved)) (btree_to_list (allowed_commands resolved))
    (mk_authority (acl ra) (ra_allowed_commands ra) denied sm).

Definition add_capability (fuel : nat) (target : Target) (capability : CapabilityFile)
    (ra : RuntimeAuthority) : outcome Empty_set RuntimeAuthority :=
  resolved ← unwrap_resolved (resolve fuel (acl ra) (capability_map capability) target);
  add_resolved resolved ra.

(** ** The diagnostic message of debug builds *)
Definition dquote : string := String "034"%char "".
Definition quoted (s : string) : string := dquote +:+ s +:+ dquote.
Definition newline : string := String "010"%char "".

Definition print_references (resolved : list (ResolvedCommand GL UL)) : string :=
  join " || " ((λ r, "capability: " +:+ reference_capability (referenced_by r) +:+
                     ", permission: " +:+ reference_permission (referenced_by r)) <$> resolved).

Definition print_context (c : ExecutionContext UL) : string :=
  match c with Local => "URL: local" | Remote url => "URL: " +:+ remote_as_str url end.

Definition print_allowed_on (resolved : list (ResolvedCommand GL UL)) : string :=
  if decide (resolved = []) then "command not allowed on any window/webview/URL context"
  else
    let last_index := length resolved - 1 in
    foldl (λ s p,
      let '(index, cmd) := p in
      let windows := join ", " ((λ w, quoted (Pattern_as_str w)) <$> windows cmd) in
      let webviews := join ", " ((λ w, quoted (Pattern_as_str w)) <$> webviews cmd) in
      let s := s +:+ "[" in
      let s := if decide (windows = "") then s else s +:+ "windows: " +:+ windows +:+ ", " in
      let s := if decide (webviews = "") then s else s +:+ "webviews: " +:+ webviews +:+ ", " in
      let s := s +:+ print_context (context cmd) in
      let s := s +:+ "]" in
      if decide (index = last_index) then s else s +:+ ", ")
      "allowed on: " (imap pair resolved).

(** The recursion over the sets follows the references of one manifest. *)
Fixpoint has_permissions_allowing_command (fuel : nat) (manifest : Manifest) (set : PermissionSet)
    (command : string) : outcome Empty_set bool :=
  match fuel with
  | 0 => Diverge
  | S fuel =>
      for_each (λ found permission_id,
        if found : bool then Ok true
        else if decide (permission_id = "default") then
          match default_permission manifest with
          | Some default => has_permissions_allowing_command fuel manifest default command
          | None => Ok false
          end
        else match permission_sets manifest !! permission_id with
             | Some ref_set => has_permissions_allowing_command fuel manifest ref_set command
             | None =>
                 match permissions manifest !! permission_id with
                 | Some permission =>
                     Ok (bool_decide (command ∈ commands_allow (permission_commands permission)))
                 | None => Ok false
                 end
             end) (set_permissions set) false
  end.

(** The permissions of a manifest that allow a command: the default set, the
    sets, the permissions, sorted. *)
Definition permissions_referencing_command (fuel : nat) (manifest : Manifest) (command_name : string)
    : outcome Empty_set (list string) :=
  from_default ← (match default_permission manifest with
                  | Some default =>
                      b ← has_permissions_allowing_command fuel manifest default command_name;
                      Ok (if b : bool then ["default"] else [])
                  | None => Ok []
                  end);
  from_sets ← for_each (λ acc set,
                b ← has_permissions_allowing_command fuel manifest set command_name;
                Ok (if b : bool then acc ++ [set_identifier set] else acc))
                (btree_values (permission_sets manifest)) from_default;
  let all := foldl (λ acc permission,
               if decide (command_name ∈ commands_allow (permission_commands permission))
               then acc ++ [permission_identifier permission] else acc)
               from_sets (btree_values (permissions manifest)) in
  Ok (merge_sort String.le all).

Definition permission_error_detail (fuel : nat) (ra : RuntimeAuthority) (key command_name : string)
    : outcome Empty_set string :=
  match (match acl ra !! key with Some m => Some m | None => acl ra !! ("core:" +:+ key) end) with
  | Some manifest =>
      refs ← permissions_referencing_command fuel manifest command_name;
      let associated_permissions :=
        join ", " ((λ p, if decide (key = APP_ACL_KEY) then p else key +:+ ":" +:+ p) <$> refs) in
      Ok (if decide (associated_permissions = "") then "Command not found"
          else "Permissions associated with this command: " +:+ associated_permissions)
  | None => Ok "Plugin not found"
  end.

Definition message_command (key command_name : string) : string :=
  if decide (key = APP_ACL_KEY) then command_name else "plugin:" +:+ key +:+ "|" +:+ command_name.

Definition command_pretty_name (key command_name : string) : string :=
  if decide (key = APP_ACL_KEY) then command_name else key +:+ "." +:+ command_name.

(** The lines for the entries of a command found under another origin. *)
Definition found_matches (resolved_cmds : list (ResolvedCommand GL UL)) : string :=
  join newline ((λ r,
    let context := match context r with
                   | Local => "[local]"
                   | Remote url => "[remote: " +:+ remote_as_str url +:+ "]"
                   end in
    "- context: " +:+ context +:+ ", referenced by: capability: " +:+
    reference_capability (referenced_by r) +:+ ", permission: " +:+
    reference_permission (referenced_by r)) <$> resolved_cmds).

Definition resolve_access_message (fuel : nat) (ra : RuntimeAuthority)
    (key command_name window webview : string) (origin : Origin) : outcome Empty_set string :=
  let command := message_command key command_name in
  let pretty := command_pretty_name key command_name in
  match ra_denied_commands ra !! command with
  | Some resolved =>
      Ok (pretty +:+ " explicitly denied on origin " +:+ Origin_to_string origin +:+ newline +:+
          newline +:+ "referenced by: " +:+ print_references resolved)
  | None =>
      let command_matches := ra_allowed_commands ra !! command in
      match ra_allowed_commands ra !! command with
      | Some resolved =>
          let matching := List.filter (λ cmd, Origin_matches origin (context cmd)) resolved in
          if existsb (matches_webview webview) matching || existsb (matches_window window) matching
          then Ok "allowed"
          else Ok (pretty +:+ " not allowed on window " +:+ quoted window +:+ ", webview " +:+
                   quoted webview +:+ ", URL: " +:+
                   (match origin with OriginLocal => "local" | OriginRemote url => Url_as_str url end) +:+
                   newline +:+ newline +:+ print_allowed_on resolved +:+ newline +:+ newline +:+
                   "referenced by: " +:+ print_references resolved)
      | None =>
          detail ← permission_error_detail fuel ra key command_name;
          Ok (match command_matches with
              | Some resolved_cmds =>
                  pretty +:+ " not allowed on origin [" +:+ Origin_to_string origin +:+
                  "]. Please create a capability that has this origin on the context field." +:+
                  newline +:+ newline +:+ "Found matches for: " +:+ found_matches resolved_cmds +:+
                  newline +:+ newline +:+ detail
              | None => pretty +:+ " not allowed. " +:+ detail
              end)
      end
  end.

(** ** Specification *)

(** The entries of a list that admit an invocation. *)
Definition admits (window webview : string) (origin : Origin) (cmd : ResolvedCommand GL UL) : bool :=
  Origin_matches origin (context cmd) && (matches_webview webview cmd || matches_window window cmd).

Definition granted (m : gmap string (list (ResolvedCommand GL UL)))
    (command window webview : string) (origin : Origin) : list (ResolvedCommand GL UL) :=
  List.filter (admits window webview origin) (entries m command).

(** What the scope of a granted command is, without the caches: the objects of
    the scopes of all its keys, in order. *)
Definition uncached_scope (T : State.TypeId) (scopes : gmap ScopeKey ResolvedScope)
    (scope_ids : list ScopeKey) : outcome Error ScopeValue :=
  values ← collect (λ k, scope_value T (default ResolvedScope_default (scopes !! k))) scope_ids;
  Ok (mk_scope_value (values ≫= sv_allow) (values ≫= sv_deny)).

(** A cached value is what the stored scope deserializes to. *)
Definition coherent (sm : ScopeManager) : Prop :=
  ∀ k cache, sm_command_cache sm !! k = Some cache →
    ∃ scope, sm_command_scope sm !! k = Some scope ∧
      ∀ T v, State.try_get T cache = Some v → scope_value T scope = Ok v.

Definition cached (sm : ScopeManager) (k : ScopeKey) : Prop := is_Some (sm_command_cache sm !! k).

(** The invariant of the authority: the caches are coherent and every scope key
    of an allowed command has a cache. *)
Record authority_inv (ra : RuntimeAuthority) : Prop := {
  inv_coherent : coherent (scope_manager ra);
  inv_cached : ∀ cmd rc k, rc ∈ entries (ra_allowed_commands ra) cmd →
    scope_id rc = Some k → cached (scope_manager ra) k;
}.

Definition with_scope_manager (ra : RuntimeAuthority) (sm : ScopeManager) : RuntimeAuthority :=
  mk_authority (acl ra) (ra_allowed_commands ra) (ra_denied_commands ra) sm.

(** The authorities of a running application: built from a resolved access
    control list, then extended and queried. *)
Inductive reachable : RuntimeAuthority → Prop :=
| reachable_new fuel acl caps target r :
    resolve fuel acl caps target = Ok r → reachable (RuntimeAuthority_new acl r)
| reachable_add_capability fuel target f ra ra' :
    reachable ra → add_capability fuel target f ra = Ok ra' → reachable ra'
| reachable_allow_command command context ra ra' :
    reachable ra → allow_command command context ra = Ok ra' → reachable ra'
| reachable_command_scope T command_acl ra :
    reachable ra →
    reachable (with_scope_manager ra (CommandScope_from_command T command_acl (scope_manager ra)).2)
| reachable_global_scope T plugin ra :
    reachable ra →
    reachable (with_scope_manager ra (GlobalScope_from_command T plugin (scope_manager ra)).2).

(** ** Lemmas *)
Lemma resolve_access_granted ra command window webview origin l :
  resolve_access ra command window webview origin = Some l ↔
  ra_denied_commands ra !! command = None ∧
  l = granted (ra_allowed_commands ra) command window webview origin ∧ l ≠ [].
Proof.
  unfold resolve_access, granted, entries.
  destruct (ra_denied_commands ra !! command); simpl; [naive_solver|].
  destruct (ra_allowed_commands ra !! command); simpl; [|naive_solver].
  fold (admits window webview origin). case_decide; naive_solver.
Qed.

Lemma elem_of_granted m command window webview origin rc :
  rc ∈ granted m command window webview origin ↔
  rc ∈ entries m command ∧ admits window webview origin rc = true.
Proof. unfold granted. rewrite !list_elem_of_In. apply filter_In. Qed.

Lemma try_get_new T : State.try_get (Obj := ScopeValue) T State.new = None.
Proof. unfold State.try_get, State.new. by rewrite lookup_empty. Qed.

(** Caching the right value keeps a cache right. *)
Lemma set_coherent scope T v (cache : Cache) :
  scope_value T scope = Ok v →
  (∀ T v, State.try_get T cache = Some v → scope_value T scope = Ok v) →
  ∀ T' v', State.try_get T' (State.set T v cache).2 = Some v' → scope_value T' scope = Ok v'.
Proof.
  intros Hv Hc T' v'. unfold State.set. simpl. case_bool_decide; [apply Hc|].
  unfold State.try_get. destruct (decide (T = T')) as [<-|Hne].
  - rewrite lookup_insert_eq. simpl. rewrite State.downcast_boxed. naive_solver.
  - rewrite lookup_insert_ne by done. apply Hc.
Qed.

Lemma get_command_scope_typed_spec T k sm :
  coherent sm → cached sm k →
  let '(r, sm') := get_command_scope_typed T k sm in
  r = scope_value T (default ResolvedScope_default (sm_command_scope sm !! k)) ∧
  coherent sm' ∧ sm_command_scope sm' = sm_command_scope sm ∧
  (∀ k', cached sm k' → cached sm' k').
Proof.
  intros Hsm [cache Hk]. unfold get_command_scope_typed. rewrite Hk.
  destruct (Hsm _ _ Hk) as (scope & Hscope & Hc). rewrite Hscope. simpl.
  destruct (State.try_get T cache) as [v|] eqn:Hv; [by rewrite (Hc _ _ Hv)|].
  destruct (scope_value T scope) as [v| | |] eqn:Hs; try done.
  split_and!; [done| |done|].
  - intros k' cache'. simpl. rewrite lookup_insert_Some. intros [[<- <-]|[_ Hk']]; [|by apply Hsm].
    exists scope. split; [done|]. by eapply set_coherent.
  - intros k' Hk'. unfold cached. simpl. rewrite lookup_insert_is_Some.
    destruct (decide (k = k')); auto.
Qed.

Lemma resolve_scopes_spec T ids acc sm :
  coherent sm → (∀ k, k ∈ ids → cached sm k) →
  let '(r, sm') := resolve_scopes T ids acc sm in
  r = (vs ← uncached_scope T (sm_command_scope sm) ids;
       Ok (mk_scope_value (sv_allow acc ++ sv_allow vs) (sv_deny acc ++ sv_deny vs))) ∧
  coherent sm' ∧ (∀ k, cached sm k → cached sm' k).
Proof.
  revert acc sm. induction ids as [|k ids IH]; intros acc sm Hsm Hids; simpl.
  - rewrite !app_nil_r. by destruct acc.
  - pose proof (get_command_scope_typed_spec T k sm Hsm (Hids k ltac:(left))) as Hg.
    destruct (get_command_scope_typed T k sm) as [r sm1]. destruct Hg as (-> & Hsm1 & Hs1 & Hc1).
    unfold uncached_scope. simpl.
    destruct (scope_value T _) as [v| | |]; simpl; try done.
    specialize (IH (mk_scope_value (sv_allow acc ++ sv_allow v) (sv_deny acc ++ sv_deny v)) sm1 Hsm1).
    destruct (resolve_scopes T ids _ sm1) as [r2 sm2].
    destruct IH as (-> & Hsm2 & Hc2); [intros; apply Hc1, Hids; by right|].
    split_and!; [|done|auto]. rewrite Hs1. unfold uncached_scope.
    destruct (collect _ ids); simpl; try done. by rewrite <-!app_assoc.
Qed.

Lemma CommandScope_from_command_inv T command_acl sm :
  coherent sm →
  let sm' := (CommandScope_from_command T command_acl sm).2 in
  coherent sm' ∧ ∀ k, cached sm k → cached sm' k.
Proof.
  intros Hsm. unfold CommandScope_from_command. destruct command_acl as [l|]; simpl; [|done].
  unfold CommandScope_resolve. generalize (mk_scope_value [] []).
  generalize (omap scope_id l). clear l. intros ids. revert sm Hsm.
  induction ids as [|k ids IH]; intros sm Hsm acc; simpl; [done|].
  destruct (sm_command_cache sm !! k) as [cache|] eqn:Hk.
  - pose proof (get_command_scope_typed_spec T k sm Hsm ltac:(by eexists)) as Hg.
    destruct (get_command_scope_typed T k sm) as [[v| | |] sm1];
      destruct Hg as (_ & Hsm1 & _ & Hc); simpl; try done.
    destruct (IH sm1 Hsm1 (mk_scope_value (sv_allow acc ++ sv_allow v) (sv_deny acc ++ sv_deny v)))
      as [? ?]. split; auto.
  - unfold get_command_scope_typed. by rewrite Hk.
Qed.

Lemma get_global_scope_typed_frame T key sm :
  let sm' := (get_global_scope_typed T key sm).2 in
  sm_command_scope sm' = sm_command_scope sm ∧ sm_command_cache sm' = sm_command_cache sm ∧
  sm_global_scope sm' = sm_global_scope sm.
Proof. unfold get_global_scope_typed. destruct (State.try_get _ _); [done|]. by destruct_outcome. Qed.

(** *** Lemmas on adding a capability *)
Lemma fill_global_scope_frame l sm :
  let sm' := foldl fill_global_scope sm l in
  sm_command_scope sm' = sm_command_scope sm ∧ sm_command_cache sm' = sm_command_cache sm ∧
  sm_global_scope sm' =
    foldl (λ m p, entry_or ResolvedScope_default (extend_scope p.2) p.1 m) (sm_global_scope sm) l.
Proof.
  revert sm. induction l as [|p l IH]; intros sm; simpl; [done|].
  destruct (IH (fill_global_scope sm p)) as (-> & -> & ->). done.
Qed.

Lemma fill_command_scope_spec scopes sm rc sm' :
  fill_command_scope scopes sm rc = Ok sm' → coherent sm →
  coherent sm' ∧ (∀ k, cached sm k → cached sm' k) ∧
  (∀ k, scope_id rc = Some k → cached sm' k) ∧ sm_global_scope sm' = sm_global_scope sm.
Proof.
  unfold fill_command_scope. destruct (scope_id rc) as [k|]; [|naive_solver].
  intros H Hsm. apply bind_ok in H as (scope & _ & ?). simplify_eq. split_and!; try done; simpl.
  - intros k' cache. simpl. rewrite lookup_insert_Some. intros [[<- <-]|[Hne Hk']].
    + eexists. rewrite lookup_entry_or_eq. split; [done|]. intros T v. by rewrite try_get_new.
    + rewrite lookup_entry_or_ne by done. by apply Hsm.
  - intros k' Hk'. unfold cached. simpl. rewrite lookup_insert_is_Some. destruct (decide (k = k')); auto.
  - intros k' [= <-]. unfold cached. simpl. rewrite lookup_insert_eq. by eexists.
Qed.

Lemma fill_command_scopes_spec scopes l sm sm' :
  for_each (fill_command_scope scopes) l sm = Ok sm' → coherent sm →
  coherent sm' ∧ (∀ k, cached sm k → cached sm' k) ∧
  (∀ rc k, rc ∈ l → scope_id rc = Some k → cached sm' k) ∧ sm_global_scope sm' = sm_global_scope sm.
Proof.
  revert sm. induction l as [|rc l IH]; intros sm H Hsm; simpl in H.
  - simplify_eq. split_and!; try done. intros rc k Hrc. by apply not_elem_of_nil in Hrc.
  - apply bind_ok in H as (sm1 & H1 & H2).
    apply fill_command_scope_spec in H1 as (Hsm1 & Hm1 & Hk1 & Hg1); [|done].
    apply IH in H2 as (Hsm2 & Hm2 & Hk2 & Hg2); [|done].
    split_and!; [done|auto| |congruence].
    intros rc' k Hrc. apply elem_of_cons in Hrc as [->|Hrc]; eauto.
Qed.

Lemma add_allowed_spec scopes ra p ra' :
  add_allowed scopes ra p = Ok ra' →
  acl ra' = acl ra ∧
  ra_allowed_commands ra' = entry_or [] (λ l, l ++ p.2) p.1 (ra_allowed_commands ra) ∧
  ra_denied_commands ra' = ra_denied_commands ra ∧
  for_each (fill_command_scope scopes) p.2 (scope_manager ra) = Ok (scope_manager ra').
Proof. unfold add_allowed. intros H. apply bind_ok in H as (sm & Hsm & ?). by simplify_eq. Qed.

Lemma entries_entry_app (m : gmap string (list (ResolvedCommand GL UL))) k l cmd rc :
  rc ∈ entries (entry_or [] (λ l', l' ++ l) k m) cmd ↔ rc ∈ entries m cmd ∨ (cmd = k ∧ rc ∈ l).
Proof.
  unfold entries. destruct (decide (k = cmd)) as [->|Hne].
  - rewrite lookup_entry_or_eq. simpl. rewrite elem_of_app. tauto.
  - rewrite lookup_entry_or_ne by done. naive_solver.
Qed.

Lemma add_allowed_inv scopes ra p ra' :
  add_allowed scopes ra p = Ok ra' → authority_inv ra → authority_inv ra'.
Proof.
  intros H [Hco Hca]. apply add_allowed_spec in H as (_ & Ha & _ & Hsm).
  apply fill_command_scopes_spec in Hsm as (Hco' & Hm & Hk & _); [|done].
  constructor; [done|]. intros cmd rc k Hrc Hsid. rewrite Ha in Hrc.
  apply entries_entry_app in Hrc as [Hrc|[_ Hrc]]; eauto.
Qed.

Lemma add_allowed_all scopes l ra ra' :
  for_each (add_allowed scopes) l ra = Ok ra' → coherent (scope_manager ra) →
  acl ra' = acl ra ∧
  ra_allowed_commands ra' =
    foldl (λ m p, entry_or [] (λ l, l ++ p.2) p.1 m) (ra_allowed_commands ra) l ∧
  ra_denied_commands ra' = ra_denied_commands ra ∧
  sm_global_scope (scope_manager ra') = sm_global_scope (scope_manager ra).
Proof.
  revert ra. induction l as [|p l IH]; intros ra H Hco; simpl in H; [by simplify_eq|].
  apply bind_ok in H as (ra1 & H1 & H2).
  apply add_allowed_spec in H1 as (Hacl & Hal & Hde & Hsm).
  apply fill_command_scopes_spec in Hsm as (Hco' & _ & _ & Hg); [|done].
  apply IH in H2 as (-> & -> & -> & ->); [|done].
  rewrite Hacl, Hal, Hde, Hg. done.
Qed.

Lemma add_resolved_inv r ra ra' :
  add_resolved r ra = Ok ra' → authority_inv ra → authority_inv ra'.
Proof.
  unfold add_resolved. intros H [Hco Hca].
  destruct (fill_global_scope_frame (btree_to_list (global_scope r)) (scope_manager ra))
    as (Hs & Hc & _).
  revert H. apply for_each_inv; [intros ?????? ; by eapply add_allowed_inv|].
  constructor; simpl.
  - intros k cache. rewrite Hs, Hc. apply Hco.
  - intros cmd rc k Hrc Hk. unfold cached. rewrite Hc. by eapply Hca.
Qed.

(** Filling the scopes of entries whose keys are stored does not panic. *)
Lemma fill_command_scopes_total scopes l sm :
  (∀ rc k, rc ∈ l → scope_id rc = Some k → is_Some (scopes !! k)) →
  ∃ sm', for_each (fill_command_scope scopes) l sm = Ok sm'.
Proof.
  revert sm. induction l as [|rc l IH]; intros sm Hl; simpl; [by eexists|].
  assert (∃ sm1, fill_command_scope scopes sm rc = Ok sm1) as [sm1 ->].
  { unfold fill_command_scope. destruct (scope_id rc) as [k|] eqn:Hk; [|by eexists].
    destruct (Hl rc k) as [scope ->]; [by left|done|]. by eexists. }
  apply IH. intros ???. apply Hl. by right.
Qed.

Lemma add_allowed_total scopes l ra :
  (∀ p rc k, p ∈ l → rc ∈ p.2 → scope_id rc = Some k → is_Some (scopes !! k)) →
  ∃ ra', for_each (add_allowed scopes) l ra = Ok ra'.
Proof.
  revert ra. induction l as [|p l IH]; intros ra Hl; simpl; [by eexists|].
  assert (∃ ra1, add_allowed scopes ra p = Ok ra1) as [ra1 ->].
  { unfold add_allowed. destruct (fill_command_scopes_total scopes p.2 (scope_manager ra)) as [sm ->];
      [|by eexists]. intros rc k. apply Hl. by left. }
  apply IH. intros p' rc k Hp. apply Hl. by right.
Qed.

Lemma add_resolved_total fuel acl caps target r ra :
  resolve fuel acl caps target = Ok r → ∃ ra', add_resolved r ra = Ok ra'.
Proof.
  intros Hr. apply add_allowed_total. intros [cmd l] rc k Hp Hrc Hk.
  apply elem_of_btree_to_list in Hp. eapply resolve_scope_stored; [done| |done].
  left. unfold entries. by rewrite Hp.
Qed.

(** What a map holds after its entries are extended by those of another. *)
Definition extended (m r : gmap string (list (ResolvedCommand GL UL))) (cmd : string) :=
  match r !! cmd with Some l => Some (entries m cmd ++ l) | None => m !! cmd end.

Lemma add_resolved_spec r ra ra' :
  add_resolved r ra = Ok ra' → coherent (scope_manager ra) →
  acl ra' = acl ra ∧
  (∀ cmd, ra_allowed_commands ra' !! cmd = extended (ra_allowed_commands ra) (allowed_commands r) cmd) ∧
  (∀ cmd, ra_denied_commands ra' !! cmd = extended (ra_denied_commands ra) (denied_commands r) cmd) ∧
  (∀ key, sm_global_scope (scope_manager ra') !! key =
     match global_scope r !! key with
     | Some s => Some (extend_scope s
                   (default ResolvedScope_default (sm_global_scope (scope_manager ra) !! key)))
     | None => sm_global_scope (scope_manager ra) !! key
     end).
Proof.
  unfold add_resolved. intros H Hco.
  destruct (fill_global_scope_frame (btree_to_list (global_scope r)) (scope_manager ra))
    as (Hs & Hc & Hg).
  apply add_allowed_all in H as (Hacl & Hal & Hde & Hgl); simpl in *;
    [|intros k cache; rewrite Hs, Hc; apply Hco].
  rewrite Hal, Hde, Hgl, Hg. split_and!; [done| | |]; intros k.
  - apply (lookup_foldl_btree [] (λ w l, l ++ w)).
  - apply (lookup_foldl_btree [] (λ w l, l ++ w)).
  - apply (lookup_foldl_btree ResolvedScope_default extend_scope).
Qed.

Lemma entries_extended m r m' cmd :
  m' !! cmd = extended m r cmd → entries m' cmd = entries m cmd ++ entries r cmd.
Proof.
  unfold extended, entries. intros ->. destruct (r !! cmd); simpl; [done|]. by rewrite app_nil_r.
Qed.

Lemma extended_None m r cmd : extended m r cmd = None ↔ m !! cmd = None ∧ r !! cmd = None.
Proof. unfold extended. destruct (r !! cmd); naive_solver. Qed.

Lemma granted_extended m r m' cmd w v o :
  m' !! cmd = extended m r cmd → granted m' cmd w v o = granted m cmd w v o ++ granted r cmd w v o.
Proof. intros H. unfold granted. rewrite (entries_extended m r m' cmd H). apply List.filter_app. Qed.

Lemma unwrap_resolved_ok {A} (r : outcome Resolved.Error A) a : unwrap_resolved r = Ok a ↔ r = Ok a.
Proof. destruct r; naive_solver. Qed.

Lemma new_inv fuel acl caps target r :
  resolve fuel acl caps target = Ok r → authority_inv (RuntimeAuthority_new acl r).
Proof.
  intros Hr. constructor; simpl.
  - intros k cache. simpl. rewrite lookup_fmap. destruct (command_scope r !! k) as [s|]; [|done].
    intros [= <-]. exists s. split; [done|]. intros T v. by rewrite try_get_new.
  - intros cmd rc k Hrc Hk. unfold cached. simpl. rewrite lookup_fmap.
    destruct (resolve_scope_stored fuel acl caps target r cmd rc k) as [s ->]; eauto.
Qed.

Lemma reachable_inv ra : reachable ra → authority_inv ra.
Proof.
  induction 1 as [fuel a caps target r Hr|fuel target f ra ra' _ IH H|command ctx ra ra' _ IH H
                 |T l ra _ IH|T plugin ra _ IH].
  - by eapply new_inv.
  - unfold add_capability in H. apply bind_ok in H as (r & _ & H). by eapply add_resolved_inv.
  - unfold allow_command in H. apply bind_ok in H as (star & _ & ?). simplify_eq.
    destruct IH as [Hco Hca]. constructor; [done|]. simpl. intros cmd rc k. unfold entries.
    destruct (decide (command = cmd)) as [->|Hne].
    + rewrite lookup_insert_eq. simpl. rewrite list_elem_of_singleton. by intros ->.
    + rewrite lookup_insert_ne by done. apply Hca.
  - destruct IH as [Hco Hca]. pose proof (CommandScope_from_command_inv T l _ Hco) as [? ?].
    constructor; [done|]. intros cmd rc k Hrc Hk. simpl in *. eauto.
  - destruct IH as [Hco Hca]. unfold GlobalScope_from_command.
    pose proof (get_global_scope_typed_frame T (default APP_ACL_KEY plugin) (scope_manager ra))
      as (Hs & Hc & _).
    constructor; unfold coherent, cached in *; simpl; rewrite ?Hs, ?Hc; done.
Qed.

Lemma scope_value_no_panic T s msg : scope_value T s ≠ Panic msg.
Proof.
  assert (∀ l, collect (λ v, ok_or (deserialize T v) CannotDeserializeScope) l ≠ Panic msg) as Hc.
  { induction l as [|v l IH]; simpl; [done|]. destruct (deserialize T v); simpl; [|done].
    by destruct (collect _ l). }
  unfold scope_value. pose proof (Hc (scope_allow s)) as Ha. pose proof (Hc (scope_deny s)) as Hd.
  destruct (collect _ (scope_allow s)); simpl; try congruence.
  destruct (collect _ (scope_deny s)); simpl; congruence.
Qed.

Lemma uncached_scope_no_panic T scopes ids msg : uncached_scope T scopes ids ≠ Panic msg.
Proof.
  unfold uncached_scope.
  assert (collect (λ k, scope_value T (default ResolvedScope_default (scopes !! k))) ids ≠ Panic msg)
    as Hc.
  { induction ids as [|k ids IH]; simpl; [done|].
    pose proof (scope_value_no_panic T (default ResolvedScope_default (scopes !! k)) msg).
    destruct (scope_value T _); simpl; try congruence. destruct (collect _ ids); simpl; congruence. }
  destruct (collect _ ids); simpl; congruence.
Qed.

Lemma existsb_filter {A} (f g : A → bool) l :
  existsb f (List.filter g l) = existsb (λ x, g x && f x) l.
Proof.
  induction l as [|x l IH]; simpl; [done|]. destruct (g x); simpl; [|done]. by rewrite IH.
Qed.

Lemma existsb_or {A} (f g : A → bool) l : existsb f l || existsb g l = existsb (λ x, f x || g x) l.
Proof.
  induction l as [|x l IH]; simpl; [done|]. rewrite <-IH.
  by destruct (f x), (g x), (existsb f l), (existsb g l).
Qed.

Lemma existsb_ext_eq {A} (f g : A → bool) l : (∀ x, f x = g x) → existsb f l = existsb g l.
Proof. intros Hfg. induction l as [|x l IH]; simpl; [done|]. by rewrite Hfg, IH. Qed.

Lemma existsb_nonempty {A} (f : A → bool) l : existsb f l = true ↔ List.filter f l ≠ [].
Proof. induction l as [|x l IH]; simpl; [done|]. destruct (f x); simpl; naive_solver. Qed.

(** What the message tests is whether some entry admits the invocation. *)
Lemma message_test l window webview origin :
  let matching := List.filter (λ cmd, Origin_matches origin (context cmd)) l in
  existsb (matches_webview webview) matching || existsb (matches_window window) matching = true ↔
  List.filter (admits window webview origin) l ≠ [].
Proof.
  simpl. rewrite !existsb_filter, existsb_or, <-existsb_nonempty.
  assert (∀ x : ResolvedCommand GL UL,
    (Origin_matches origin (context x) && matches_webview webview x
     || Origin_matches origin (context x) && matches_window window x) =
    admits window webview origin x) as Hx.
  { intros x. unfold admits. by destruct (Origin_matches _ _). }
  by rewrite (existsb_ext_eq _ _ l Hx).
Qed.

(** ** Properties *)

(** A permission of a capability that allows the command for this invocation:
    the contexts of the capability include one for the origin, and its window
    or webview patterns match. *)
Definition capability_admits (c : Capability) (window webview : string) (origin : Origin) : Prop :=
  ∃ ctxs ctx ws vs,
    contexts c = Ok ctxs ∧ ctx ∈ ctxs ∧ Origin_matches origin ctx = true ∧
    parse_glob_patterns (capability_windows c) = Ok ws ∧
    parse_glob_patterns (capability_webviews c) = Ok vs ∧
    (existsb (λ p, Pattern_matches p webview) vs || existsb (λ p, Pattern_matches p window) ws) = true.

(** A permission lists the command of this key. *)
Definition lists (dir : Commands → list string) (rp : ResolvedPermission) (command : string) : Prop :=
  ∃ name, name ∈ dir (rp_commands rp) ∧ command = command_key (rp_key rp) name.

Lemma number_elem_inv n l c rp : (c, rp) ∈ l → ∃ sid, (c, rp, sid) ∈ number n l.
Proof.
  revert n. induction l as [|[c' rp'] l IH]; intros n; simpl; [intros H; by apply not_elem_of_nil in H|].
  rewrite elem_of_cons. intros [Heq|H].
  - simplify_eq. destruct (needs_scope rp'); eexists; left.
  - destruct (needs_scope rp').
    + destruct (IH (n + 1)%N H) as [sid Hs]. exists sid. by right.
    + destruct (IH n H) as [sid Hs]. exists sid. by right.
Qed.

Lemma lists_not_global dir rp command :
  lists dir rp command → dir = commands_allow ∨ dir = commands_deny → is_global rp = false.
Proof.
  intros (name & Hn & _) Hd. unfold is_global. apply not_true_is_false.
  rewrite andb_true_iff, !bool_decide_eq_true. intros [Ha Hb].
  destruct Hd as [->| ->]; [rewrite Ha in Hn|rewrite Hb in Hn]; by apply not_elem_of_nil in Hn.
Qed.

(** The capability has a context, and its patterns are well formed: the
    commands of its permissions get an entry. *)
Definition capability_applies (c : Capability) : Prop :=
  ∃ ctxs ctx ws vs,
    contexts c = Ok ctxs ∧ ctx ∈ ctxs ∧
    parse_glob_patterns (capability_windows c) = Ok ws ∧
    parse_glob_patterns (capability_webviews c) = Ok vs.

Lemma resolved_granted fuel acl caps target r l command window webview origin :
  resolve fuel acl caps target = Ok r →
  contributions fuel acl target (active_capabilities caps target) = Ok l →
  granted (allowed_commands r) command window webview origin ≠ [] ↔
  ∃ c rp, (c, rp) ∈ l ∧ lists commands_allow rp command ∧ capability_admits c window webview origin.
Proof.
  intros Hr Hl. apply resolve_state in Hr as (l' & st & Hl' & [Ha _ _ _ _ _ _] & ->).
  assert (l' = l) as -> by congruence. simpl. split.
  - intros Hne. destruct (granted _ _ _ _ _) as [|rc rcs] eqn:Hg; [done|].
    assert (rc ∈ granted (st_allowed st) command window webview origin) as Hrc by (rewrite Hg; left).
    apply elem_of_granted in Hrc as [Hrc Hadm].
    apply Ha in Hrc as ([[c rp] sid] & Hin & _ & name & Hn & Hk & (ctxs & Hc & Hctx) & Hw & Hv & _).
    apply andb_true_iff in Hadm as [Ho Hm].
    exists c, rp. split_and!; [by eapply number_elem|by exists name|].
    exists ctxs, (context rc), (windows rc), (webviews rc). by split_and!.
  - intros (c & rp & Hin & Hlist & ctxs & ctx & ws & vs & Hc & Hctx & Ho & Hw & Hv & Hm) Hg.
    destruct (number_elem_inv 0 l c rp Hin) as [sid Hsid].
    set (rc := mk_resolved_command ctx
      (mk_reference (capability_identifier c) (rp_permission_name rp)) ws vs sid).
    assert (rc ∈ granted (st_allowed st) command window webview origin) as Hrc;
      [|rewrite Hg in Hrc; by apply not_elem_of_nil in Hrc].
    apply elem_of_granted. split.
    + apply Ha. exists (c, rp, sid). split_and!; [done|by eapply lists_not_global; eauto|].
      destruct Hlist as (name & Hn & Hk). exists name. split_and!; [done|done|].
      split; [by exists ctxs|done].
    + unfold admits. simpl. by rewrite Ho.
Qed.

Lemma resolved_denied fuel acl caps target r l command :
  resolve fuel acl caps target = Ok r →
  contributions fuel acl target (active_capabilities caps target) = Ok l →
  denied_commands r !! command = None ↔
  ¬ ∃ c rp, (c, rp) ∈ l ∧ lists commands_deny rp command ∧ capability_applies c.
Proof.
  intros Hr Hl. apply resolve_state in Hr as (l' & st & Hl' & [_ Hd _ Hne _ _ _] & ->).
  assert (l' = l) as -> by congruence. simpl. split.
  - intros Hnone (c & rp & Hin & Hlist & ctxs & ctx & ws & vs & Hc & Hctx & Hw & Hv).
    destruct (number_elem_inv 0 l c rp Hin) as [sid Hsid].
    set (rc := mk_resolved_command ctx
      (mk_reference (capability_identifier c) (rp_permission_name rp)) ws vs sid).
    assert (rc ∈ entries (st_denied st) command) as Hrc;
      [|unfold entries in Hrc; rewrite Hnone in Hrc; by apply not_elem_of_nil in Hrc].
    apply Hd. exists (c, rp, sid). split_and!; [done|by eapply lists_not_global; eauto|].
    destruct Hlist as (name & Hn & Hk). exists name. split_and!; [done|done|].
    split; [by exists ctxs|done].
  - intros Hno. destruct (st_denied st !! command) as [[|rc rcs]|] eqn:Hk; [|exfalso|done].
    { by apply Hne in Hk. }
    assert (rc ∈ entries (st_denied st) command) as Hrc by (unfold entries; rewrite Hk; left).
    apply Hd in Hrc as ([[c rp] sid] & Hin & _ & name & Hn & Hck & (ctxs & Hc & Hctx) & Hw & Hv & _).
    apply Hno. exists c, rp. split_and!; [by eapply number_elem|by exists name|].
    by exists ctxs, (context rc), (windows rc), (webviews rc).
Qed.

(** C2. The access decision, end to end: for an authority built from a
    resolved access control list, an invocation is granted exactly when some
    permission that an active capability contributes allows the command, that
    capability having a context for the origin and a pattern for the window or
    the webview, and no contributed permission denies the command. *)
Theorem access_granted_iff fuel acl caps target r command window webview origin :
  resolve fuel acl caps target = Ok r →
  ∃ l, contributions fuel acl target (active_capabilities caps target) = Ok l ∧
  (is_Some (resolve_access (RuntimeAuthority_new acl r) command window webview origin) ↔
   (∃ c rp, (c, rp) ∈ l ∧ lists commands_allow rp command ∧
      capability_admits c window webview origin) ∧
   ¬ (∃ c rp, (c, rp) ∈ l ∧ lists commands_deny rp command ∧ capability_applies c)).
Proof.
  intros Hr. pose proof (resolve_state _ _ _ _ _ Hr) as (l & _ & Hl & _). exists l. split; [done|].
  rewrite <-(resolved_denied _ _ _ _ _ _ _ Hr Hl), <-(resolved_granted _ _ _ _ _ _ _ _ _ _ Hr Hl).
  unfold is_Some. setoid_rewrite resolve_access_granted. simpl. naive_solver.
Qed.

(** What an invocation is granted is never empty, holds only entries of the
    command whose context matches the origin and whose window or webview
    pattern matches, and is granted only when the command has no denied entry,
    whatever origin that entry is for. *)
Theorem access_is_checked ra command window webview origin l :
  resolve_access ra command window webview origin = Some l →
  l ≠ [] ∧ ra_denied_commands ra !! command = None ∧
  ∀ rc, rc ∈ l ↔ rc ∈ entries (ra_allowed_commands ra) command ∧
    Origin_matches origin (context rc) = true ∧
    (matches_webview webview rc = true ∨ matches_window window rc = true).
Proof.
  intros H. apply resolve_access_granted in H as (Hd & -> & Hne). split_and!; [done|done|].
  intros rc. rewrite elem_of_granted. unfold admits. by rewrite andb_true_iff, orb_true_iff.
Qed.

(** C6. In every authority an application can reach, by building it from a
    resolved list, adding capabilities, allowing commands and reading scopes,
    the scope of a granted invocation resolves without a panic, and the cached
    lookup answers what deserializing the stored scopes afresh does. *)
Theorem granted_scope_resolves ra T command window webview origin l :
  reachable ra →
  resolve_access ra command window webview origin = Some l →
  let r := (CommandScope_from_command T (Some l) (scope_manager ra)).1 in
  r = uncached_scope T (sm_command_scope (scope_manager ra)) (omap scope_id l) ∧
  ∀ msg, r ≠ Panic msg.
Proof.
  intros Hra H. apply reachable_inv in Hra as [Hco Hca].
  apply resolve_access_granted in H as (_ & Hl & _).
  pose proof (resolve_scopes_spec T (omap scope_id l) (mk_scope_value [] []) _ Hco) as Hs.
  unfold CommandScope_from_command, CommandScope_resolve. simpl.
  destruct (resolve_scopes _ _ _ _) as [r sm]. destruct Hs as (-> & _ & _).
  { intros k Hk. apply list_elem_of_omap in Hk as (rc & Hrc & Hk). subst.
    apply elem_of_granted in Hrc as [Hrc _]. eauto. }
  simpl. split.
  - destruct (uncached_scope _ _ _) as [[]| | |]; done.
  - intros msg. pose proof (uncached_scope_no_panic T (sm_command_scope (scope_manager ra))
      (omap scope_id l) msg). destruct (uncached_scope _ _ _) as [[]| | |]; simpl; congruence.
Qed.

(** C7. Adding a capability that resolves succeeds and only adds: an
    invocation is granted afterwards exactly when neither the authority nor the
    capability denies the command and one of them grants it, with the entries
    of both in order; the global scope of every plugin is extended likewise. *)
Theorem add_capability_extends fuel target f ra r :
  reachable ra →
  resolve fuel (acl ra) (capability_map f) target = Ok r →
  ∃ ra', add_capability fuel target f ra = Ok ra' ∧ reachable ra' ∧
    (∀ command window webview origin l,
       resolve_access ra' command window webview origin = Some l ↔
       ra_denied_commands ra !! command = None ∧ denied_commands r !! command = None ∧ l ≠ [] ∧
       l = granted (ra_allowed_commands ra) command window webview origin ++
           granted (allowed_commands r) command window webview origin) ∧
    (∀ plugin, default ResolvedScope_default (sm_global_scope (scope_manager ra') !! plugin) =
       extend_scope (default ResolvedScope_default (global_scope r !! plugin))
         (default ResolvedScope_default (sm_global_scope (scope_manager ra) !! plugin))).
Proof.
  intros Hra Hr. destruct (add_resolved_total _ _ _ _ _ ra Hr) as [ra' Hadd].
  assert (add_capability fuel target f ra = Ok ra') as Hcap by (unfold add_capability; by rewrite Hr).
  exists ra'. pose proof (inv_coherent _ (reachable_inv _ Hra)) as Hco.
  apply add_resolved_spec in Hadd as (_ & Hal & Hde & Hg); [|done].
  split_and!; [done|by eapply reachable_add_capability| |].
  - intros command window webview origin l. rewrite resolve_access_granted, Hde, extended_None.
    rewrite (granted_extended _ _ _ _ _ _ _ (Hal command)). tauto.
  - intros plugin. rewrite Hg. destruct (global_scope r !! plugin) as [s|]; simpl; [done|].
    destruct (default _ _) as [a d]. unfold extend_scope. simpl. by rewrite !app_nil_r.
Qed.

(** The diagnostic of debug builds agrees with the decision: the message
    for a command is the word allowed exactly when the invocation is granted. *)
Theorem access_message_agrees fuel ra key command_name window webview origin :
  resolve_access_message fuel ra key command_name window webview origin = Ok "allowed" ↔
  is_Some (resolve_access ra (message_command key command_name) window webview origin).
Proof.
  unfold is_Some. setoid_rewrite resolve_access_granted. unfold resolve_access_message.
  set (command := message_command key command_name).
  assert (∀ a b, String.length a > 7 → "allowed" ≠ command_pretty_name key command_name +:+ (a +:+ b))
    as Hlong.
  { intros a b Ha Heq. apply (f_equal String.length) in Heq. rewrite !length_append in Heq.
    simpl in Heq. lia. }
  destruct (ra_denied_commands ra !! command) as [d|].
  { split; [intros [= H]|intros (l & ? & _); done].
    symmetry in H. apply Hlong in H; [done|simpl; lia]. }
  unfold granted, entries. destruct (ra_allowed_commands ra !! command) as [l|]; simpl.
  - pose proof (message_test l window webview origin) as Ht. simpl in Ht.
    destruct (existsb _ _ || existsb _ _).
    + split; [|done]. intros _. eexists. split_and!; [done..|]. by apply Ht.
    + split; [intros [= H]; symmetry in H; apply Hlong in H; [done|simpl; lia]|].
      intros (l' & _ & -> & Hne). by apply Ht in Hne.
  - split; [|naive_solver]. intros H. apply bind_ok in H as (detail & _ & [= H]).
    symmetry in H. apply Hlong in H; [done|simpl; lia].
Qed.

(** The cache of the global scopes is keyed by the type only: once a scope
    of some plugin was read at a type, every plugin reads that one at the same
    type. *)
Theorem global_scope_cache_ignores_plugin T p1 p2 sm v sm' :
  get_global_scope_typed T p1 sm = (Ok v, sm') →
  State.well_typed (sm_global_scope_cache sm) →
  get_global_scope_typed T p2 sm' = (Ok v, sm').
Proof.
  unfold get_global_scope_typed. intros H Hwt.
  destruct (State.try_get T (sm_global_scope_cache sm)) as [c|] eqn:Hc; [simplify_eq; by rewrite Hc|].
  destruct (scope_value T _) as [s| | |]; simplify_eq/=.
  unfold State.set. rewrite bool_decide_false.
  - simpl. unfold State.try_get. rewrite lookup_insert_eq. simpl. by rewrite State.downcast_boxed.
  - rewrite <-(State.try_get_well_typed T _ Hwt), Hc. by intros [? ?].
Qed.

End Runtime.
Arguments ScopeValue : clear implicits.
Arguments ScopeManager : clear implicits.
Arguments RuntimeAuthority GL UL Obj : clear implicits, rename.

(** ** A running application *)
#[local] Existing Instances literal_glob literal_url.

(** Scope objects are their raw values. *)
Definition ex_deserialize (T : State.TypeId) (v : Value) : option Value := Some v.

Definition ex_authority : RuntimeAuthority _ _ Value := RuntimeAuthority_new ex_acl ex_resolved.

Lemma ex_resolve : resolve 3 ex_acl ex_capabilities Linux = Ok ex_resolved.
Proof. vm_compute. reflexivity. Defined.

Lemma ex_reachable : reachable ex_deserialize ex_authority.
Proof. eapply reachable_new, ex_resolve. Defined.

Lemma ex_access :
  resolve_access ex_authority "plugin:fs|read" "main" "other" OriginLocal = Some [ex_entry].
Proof. vm_compute. reflexivity. Defined.

Lemma access_granted_iff_witness :
  ∃ l, contributions 3 ex_acl Linux (active_capabilities ex_capabilities Linux) = Ok l ∧
  (∃ c rp, (c, rp) ∈ l ∧ lists commands_allow rp "plugin:fs|read" ∧
     capability_admits c "main" "other" OriginLocal).
Proof.
  destruct (access_granted_iff (Obj := Value) 3 ex_acl ex_capabilities Linux ex_resolved "plugin:fs|read" "main"
    "other" OriginLocal ex_resolve) as (l & Hl & H).
  exists l. split; [exact Hl|]. apply H. exists [ex_entry]. exact ex_access.
Defined.

Lemma access_is_checked_witness :
  matches_window "main" ex_entry = true ∧ ra_denied_commands ex_authority !! "plugin:fs|read" = None.
Proof.
  destruct (access_is_checked ex_authority "plugin:fs|read" "main" "other" OriginLocal [ex_entry]
    ex_access) as (_ & Hd & H).
  split; [vm_compute; reflexivity|exact Hd].
Defined.

Lemma granted_scope_resolves_witness :
  (CommandScope_from_command ex_deserialize 7%N (Some [ex_entry]) (scope_manager ex_authority)).1 =
  Ok (mk_scope_value [String_ "$HOME/*"] []).
Proof.
  destruct (granted_scope_resolves ex_deserialize ex_authority 7%N "plugin:fs|read" "main" "other"
    OriginLocal [ex_entry] ex_reachable ex_access) as [H _].
  rewrite H. vm_compute. reflexivity.
Defined.

(** A capability added at run time, for a second window and a remote page. *)
Definition ex_runtime_capability : CapabilityFile :=
  match CapabilityBuilder.permission "fs:scope-base"
          (CapabilityBuilder.window "second" (CapabilityBuilder.new "runtime")) with
  | Ok c => CapabilityBuilder.build c
  | _ => CapabilityFile_List []
  end.

Lemma add_capability_extends_witness :
  ∃ ra', add_capability 3 Linux ex_runtime_capability ex_authority = Ok ra' ∧
    reachable ex_deserialize ra' ∧
    default ResolvedScope_default (sm_global_scope (scope_manager ra') !! "fs") =
    mk_resolved_scope [String_ "/srv"; String_ "/srv"] [].
Proof.
  destruct (resolve 3 (acl ex_authority) (capability_map ex_runtime_capability) Linux)
    as [r|e|m|] eqn:Hr; [|vm_compute in Hr; discriminate..].
  destruct (add_capability_extends ex_deserialize 3 Linux ex_runtime_capability ex_authority r
    ex_reachable Hr) as (ra' & Hra & Hreach & _ & Hg).
  exists ra'. split_and!; [exact Hra|exact Hreach|].
  rewrite Hg. vm_compute in Hr. injection Hr as <-. vm_compute. reflexivity.
Defined.

Definition ex_global_sm : ScopeManager Value :=
  mk_scope_manager ∅ {[ "a" := mk_resolved_scope [String_ "/a"] [] ]} ∅ ∅.

Lemma global_scope_cache_ignores_plugin_witness :
  (get_global_scope_typed ex_deserialize 7%N "b" ex_global_sm).1 = Ok (mk_scope_value [] []) ∧
  (get_global_scope_typed ex_deserialize 7%N "b"
     (get_global_scope_typed ex_deserialize 7%N "a" ex_global_sm).2).1 =
  Ok (mk_scope_value [String_ "/a"] []).
Proof.
  split; [vm_compute; reflexivity|].
  rewrite (global_scope_cache_ignores_plugin ex_deserialize 7%N "a" "b" ex_global_sm
    (mk_scope_value [String_ "/a"] [])
    (get_global_scope_typed ex_deserialize 7%N "a" ex_global_sm).2);
    [reflexivity|vm_compute; reflexivity|apply State.new_well_typed].
Defined.

(** A plugin whose command [write] a first capability allows locally and a
    second, which only has a remote context, denies. *)
Definition ex_mixed_acl : gmap string Manifest :=
  {[ "fs" := mk_manifest None
       {[ "allow-write" := mk_permission None "allow-write" None (mk_commands ["write"] [])
            (mk_scopes (Some [String_ "/home"]) None) None;
          "deny-write" := mk_permission None "deny-write" None (mk_commands [] ["write"])
            Scopes_default None;
          "allow-fetch" := mk_permission None "allow-fetch" None (mk_commands ["fetch"] [])
            (mk_scopes (Some [String_ "https://example.com"]) None) None ]} ∅ None ]}.

Definition ex_local_capability : Capability :=
  mk_capability "local" "" None true ["main"] []
    [PermissionRef (mk_identifier "fs:allow-write" (Some 2))] None.

Definition ex_remote_capability : Capability :=
  mk_capability "remote" "" (Some (mk_capability_remote ["https://example.com"])) false ["main"] []
    [PermissionRef (mk_identifier "fs:deny-write" (Some 2))] None.

Definition ex_fetch_capability : Capability :=
  mk_capability "fetch" "" None true ["main"] []
    [PermissionRef (mk_identifier "fs:allow-fetch" (Some 2))] None.

Definition ex_mixed (caps : gmap string Capability) : option (RuntimeAuthority _ _ Value) :=
  r ← ok (resolve 3 ex_mixed_acl caps Linux);
  Some (RuntimeAuthority_new ex_mixed_acl r).

(** A denial that a capability makes only for remote pages also refuses the
    local page: without the remote capability the local invocation is granted,
    with it the same invocation is refused, though the only denied entry does
    not match the local origin. *)
Theorem deny_ignores_origin :
  (ra ← ex_mixed {[ "local" := ex_local_capability ]};
   Some (bool_decide (is_Some
     (resolve_access ra "plugin:fs|write" "main" "main" OriginLocal)))) = Some true ∧
  (ra ← ex_mixed {[ "local" := ex_local_capability; "remote" := ex_remote_capability ]};
   Some (resolve_access ra "plugin:fs|write" "main" "main" OriginLocal,
         (λ rc, Origin_matches OriginLocal (context rc)) <$>
           entries (ra_denied_commands ra) "plugin:fs|write")) = Some (None, [false]).
Proof. vm_compute. done. Qed.

(** Scope keys restart at one when a capability is added at run time, so
    the scopes of unrelated commands are merged: after the capability for
    [fetch] is added, the scope of [write] also allows what only [fetch] was
    given. *)
Theorem runtime_scope_collision :
  let scope ra :=
    l ← resolve_access ra "plugin:fs|write" "main" "main" OriginLocal;
    ok (CommandScope_from_command ex_deserialize 7%N (Some l) (scope_manager ra)).1 in
  (ex_mixed {[ "local" := ex_local_capability ]} ≫= scope) =
    Some (mk_scope_value [String_ "/home"] []) ∧
  (ra ← ex_mixed {[ "local" := ex_local_capability ]};
   ra ← ok (add_capability 3 Linux (CapabilityFile_Capability ex_fetch_capability) ra);
   scope ra) =
    Some (mk_scope_value [String_ "/home"; String_ "https://example.com"] []).
Proof. vm_compute. done. Qed.

End Authority.
