(* ===== verification/Listeners.v ===== *)
(** * Events

    Models [tauri/Source/event/listener.rs] (the [Listeners] of an
    application), the event data of [event/mod.rs], and the emitters of
    [manager/mod.rs]. The mutex of the handlers is taken with [try_lock]: while
    an emission runs its callbacks it is held, so whatever a callback asks for
    is queued as [Pending] and flushed after the emission. Callbacks are the
    programs of type [Prog]: they read and write the state [W] of the
    application and call the operations of this file. *)
From Stdlib Require Import Ascii.
From S2P Require Import Prelude.

(** The part of [char::is_alphanumeric] that consults the Unicode tables. *)
Class UnicodeTables := { unicode_alphanumeric : N → bool }.

Module Listeners.

(** A [u32]. *)
Abbreviation EventId := Z.

Inductive EventTarget :=
| Any
| AnyLabel (label : string)
| App
| Window (label : string)
| Webview (label : string)
| WebviewWindow (label : string).

#[global] Instance EventTarget_eq_dec : EqDecision EventTarget.
Proof. solve_decision. Defined.

#[global] Instance EventTarget_countable : Countable EventTarget.
Proof.
  refine (inj_countable'
    (λ t, match t with
          | Any => (0%N, "") | AnyLabel l => (1%N, l) | App => (2%N, "") | Window l => (3%N, l)
          | Webview l => (4%N, l) | WebviewWindow l => (5%N, l)
          end)
    (λ p, match p with
          | (0%N, _) => Any | (1%N, l) => AnyLabel l | (2%N, _) => App | (3%N, l) => Window l
          | (4%N, l) => Webview l | (_, l) => WebviewWindow l
          end) _); by intros [].
Defined.

Record EmitArgs := mk_emit_args {
  event_name : string;
  event : string;
  payload : string;
}.

Record Event := mk_event {
  event_id : EventId;
  data : string;
}.

Record JsHandler := mk_js_handler {
  js_target : EventTarget;
  js_id : EventId;
}.

#[global] Instance JsHandler_eq_dec : EqDecision JsHandler.
Proof. solve_decision. Defined.

#[global] Instance JsHandler_countable : Countable JsHandler.
Proof.
  refine (inj_countable' (λ h, (js_target h, js_id h)) (λ p, mk_js_handler p.1 p.2) _); by intros [].
Defined.

(** ** Event names *)
Section Names.
Context `{U : UnicodeTables}.

(** The code points of a UTF-8 string. *)
Fixpoint chars (fuel : nat) (l : list ascii) : list N :=
  match fuel, l with
  | S fuel, c :: l =>
      let b := N_of_ascii c in
      let n := if (b <? 128)%N then 0 else if (b <? 224)%N then 1 else if (b <? 240)%N then 2 else 3 in
      let lead := if (b <? 128)%N then b
                  else if (b <? 224)%N then (b - 192)%N
                  else if (b <? 240)%N then (b - 224)%N else (b - 240)%N in
      foldl (λ acc c, acc * 64 + (N_of_ascii c - 128))%N lead (take n l) :: chars fuel (drop n l)
  | _, _ => []
  end.

Definition is_alphanumeric (c : N) : bool :=
  if (c <? 128)%N then
    ((48 <=? c) && (c <=? 57) || (65 <=? c) && (c <=? 90) || (97 <=? c) && (c <=? 122))%N
  else unicode_alphanumeric c.

(** The separators are [-], [/], [:] and [_]. *)
Definition is_event_name_valid (event : string) : bool :=
  forallb (λ c, is_alphanumeric c || (c =? 45)%N || (c =? 47)%N || (c =? 58)%N || (c =? 95)%N)
    (chars (String.length event) (bytes event)).

Definition assert_event_name_is_valid {E} (event : string) : outcome E () :=
  if is_event_name_valid event then Ok ()
  else Panic "Event name must include only alphanumeric characters, `-`, `/`, `:` and `_`.".

End Names.

Section Listeners.
Context {W : Type}.

(** ** Callbacks *)
Inductive Prog :=
| PDone
| PEffect (f : W → W) (k : W → Prog)
| PListen (event : string) (target : EventTarget) (callback : Event → Prog) (k : EventId → Prog)
| POnce (event : string) (target : EventTarget) (callback : Event → Prog) (k : EventId → Prog)
| PUnlisten (id : EventId) (k : Prog)
| PEmitFilter (args : EmitArgs) (filter : option (EventTarget → bool)) (k : Prog).

(** The closure of [once] owns a cell with the handler, taken when it is
    called. *)
Inductive Callback :=
| Fn (f : Event → Prog)
| FnOnce (cell : option (Event → Prog)).

Record Handler := mk_handler {
  target : EventTarget;
  callback : Callback;
}.

Inductive Pending :=
| PendingUnlisten (id : EventId)
| PendingListen (id : EventId) (event : string) (handler : Handler)
| PendingEmit (args : EmitArgs).

(** ** State

    [calls] is the history of the callbacks that were called, with the name of
    the event. *)
Record Listeners := mk_listeners {
  pending : list Pending;
  locked : bool;
  handlers : gmap string (gmap EventId Handler);
  js_event_listeners : gmap string (gmap string (gset JsHandler));
  next_id : EventId;
  world : W;
  calls : list (string * Event);
}.

Definition Listeners_default (w : W) : Listeners := mk_listeners [] false ∅ ∅ 0 w [].

Definition set_pending (p : list Pending) (st : Listeners) : Listeners :=
  mk_listeners p (locked st) (handlers st) (js_event_listeners st) (next_id st) (world st) (calls st).
Definition set_locked (b : bool) (st : Listeners) : Listeners :=
  mk_listeners (pending st) b (handlers st) (js_event_listeners st) (next_id st) (world st) (calls st).
Definition set_handlers (h : gmap string (gmap EventId Handler)) (st : Listeners) : Listeners :=
  mk_listeners (pending st) (locked st) h (js_event_listeners st) (next_id st) (world st) (calls st).
Definition set_js (js : gmap string (gmap string (gset JsHandler))) (st : Listeners) : Listeners :=
  mk_listeners (pending st) (locked st) (handlers st) js (next_id st) (world st) (calls st).
Definition set_world (w : W) (st : Listeners) : Listeners :=
  mk_listeners (pending st) (locked st) (handlers st) (js_event_listeners st) (next_id st) w (calls st).
Definition log_call (name : string) (e : Event) (st : Listeners) : Listeners :=
  mk_listeners (pending st) (locked st) (handlers st) (js_event_listeners st) (next_id st) (world st)
    (calls st ++ [(name, e)]).

(** ** Operations *)
Definition next_event_id (st : Listeners) : EventId * Listeners :=
  (next_id st,
   mk_listeners (pending st) (locked st) (handlers st) (js_event_listeners st)
     (wrapping_u32 (next_id st + 1)) (world st) (calls st)).

Definition insert_pending (action : Pending) (st : Listeners) : Listeners :=
  set_pending (pending st ++ [action]) st.

Definition listen_with_id (id : EventId) (event : string) (handler : Handler) (st : Listeners)
    : Listeners :=
  if locked st then insert_pending (PendingListen id event handler) st
  else set_handlers (entry_or ∅ (λ m, <[id := handler]> m) event (handlers st)) st.

Definition listen_callback (event : string) (target : EventTarget) (callback : Callback)
    (st : Listeners) : EventId * Listeners :=
  let '(id, st) := next_event_id st in
  (id, listen_with_id id event (mk_handler target callback) st).

Definition listen (event : string) (target : EventTarget) (handler : Event → Prog) (st : Listeners)
    : EventId * Listeners :=
  listen_callback event target (Fn handler) st.

Definition once (event : string) (target : EventTarget) (handler : Event → Prog) (st : Listeners)
    : EventId * Listeners :=
  listen_callback event target (FnOnce (Some handler)) st.

Definition unlisten (id : EventId) (st : Listeners) : Listeners :=
  if locked st then insert_pending (PendingUnlisten id) st
  else set_handlers (delete id <$> handlers st) st.

Definition match_any_or_filter (target : EventTarget) (filter : option (EventTarget → bool)) : bool :=
  bool_decide (target = Any) || match filter with Some f => f target | None => true end.

(** Running the program of a callback. [emit_filter] is the operation below,
    which the program may call again. *)
Fixpoint run (emit_filter : EmitArgs → option (EventTarget → bool) → Listeners →
      outcome Empty_set Listeners) (p : Prog) (st : Listeners) : outcome Empty_set Listeners :=
  match p with
  | PDone => Ok st
  | PEffect f k => let w := f (world st) in run emit_filter (k w) (set_world w st)
  | PListen event target callback k =>
      let '(id, st) := listen event target callback st in run emit_filter (k id) st
  | POnce event target callback k =>
      let '(id, st) := once event target callback st in run emit_filter (k id) st
  | PUnlisten id k => run emit_filter k (unlisten id st)
  | PEmitFilter args filter k => st ← emit_filter args filter st; run emit_filter k st
  end.

(** The handler of [once] is taken out of its cell. *)
Definition take_cell (event : string) (id : EventId) (h : Handler) (st : Listeners) : Listeners :=
  set_handlers (entry_or ∅ (λ m, <[id := mk_handler (target h) (FnOnce None)]> m) event
                  (handlers st)) st.

(** Calling the callback of a handler registered for [args]. *)
Definition call_handler (emit_filter : EmitArgs → option (EventTarget → bool) → Listeners →
      outcome Empty_set Listeners) (args : EmitArgs) (st : Listeners) (p : EventId * Handler)
    : outcome Empty_set Listeners :=
  let '(id, h) := p in
  let e := mk_event id (payload args) in
  match callback h with
  | Fn f => run emit_filter (f e) (log_call (event_name args) e st)
  | FnOnce None => Panic "attempted to call handler more than once"
  | FnOnce (Some f) =>
      st ← run emit_filter (f e) (log_call (event_name args) e (take_cell (event_name args) id h st));
      Ok (unlisten id st)
  end.

(** The iteration order of the hash maps is not specified: it is a parameter. *)
Context (iter : gmap EventId Handler → list (EventId * Handler)).
Context (iter_js : gset JsHandler → list JsHandler).

Definition matching (args : EmitArgs) (filter : option (EventTarget → bool)) (st : Listeners)
    : list (EventId * Handler) :=
  match handlers st !! event_name args with
  | Some hs => List.filter (λ p, match_any_or_filter (target p.2) filter) (iter hs)
  | None => []
  end.

(** One action of [flush_pending]. *)
Definition flush_action (emit : EmitArgs → Listeners → outcome Empty_set Listeners)
    (st : Listeners) (action : Pending) : outcome Empty_set Listeners :=
  match action with
  | PendingUnlisten id => Ok (unlisten id st)
  | PendingListen id event handler => Ok (listen_with_id id event handler st)
  | PendingEmit args => emit args st
  end.

Definition flush_pending (emit : EmitArgs → Listeners → outcome Empty_set Listeners)
    (st : Listeners) : outcome Empty_set Listeners :=
  for_each (flush_action emit) (pending st) (set_pending [] st).

(** Emission and flush call each other: the fuel bounds their nesting. *)
Fixpoint emit_filter (fuel : nat) (args : EmitArgs) (filter : option (EventTarget → bool))
    (st : Listeners) : outcome Empty_set Listeners :=
  if locked st then Ok (insert_pending (PendingEmit args) st)
  else
    match fuel with
    | 0 => Diverge
    | S fuel =>
        let hs := matching args filter st in
        st ← for_each (call_handler (emit_filter fuel) args) hs (set_locked true st);
        let st := set_locked false st in
        let maybe_pending := negb (bool_decide (hs = [])) in
        if maybe_pending then flush_pending (λ args, emit_filter fuel args None) st else Ok st
    end.

Definition emit (fuel : nat) (args : EmitArgs) (st : Listeners) : outcome Empty_set Listeners :=
  emit_filter fuel args None st.

(** ** Listeners of the webviews *)
Definition listen_js (event source_webview_label : string) (target : EventTarget) (id : EventId)
    (st : Listeners) : Listeners :=
  set_js (entry_or ∅ (entry_or ∅ (λ s, {[ mk_js_handler target id ]} ∪ s) event)
            source_webview_label (js_event_listeners st)) st.

Definition unlisten_js_in (event : string) (id : EventId) (js_listeners : gmap string (gset JsHandler))
    : gmap string (gset JsHandler) :=
  match js_listeners !! event with
  | None => js_listeners
  | Some handlers =>
      let handlers := filter (λ h, js_id h ≠ id) handlers in
      if decide (handlers = ∅) then delete event js_listeners else <[event := handlers]> js_listeners
  end.

Definition unlisten_js (event : string) (id : EventId) (st : Listeners) : Listeners :=
  set_js (unlisten_js_in event id <$> js_event_listeners st) st.

Definition has_js_listener (event : string) (filter : EventTarget → bool) (st : Listeners) : bool :=
  existsb (λ p : string * gmap string (gset JsHandler),
    match p.2 !! event with
    | Some handlers => existsb (λ h, filter (js_target h)) (elements handlers)
    | None => false
    end) (map_to_list (js_event_listeners st)).

(** The scripts an emission evaluates: the label of each webview that has
    listeners for the event, with the ids of those that match. [eval] answers
    whether a webview evaluated its script; the first failure ends the loop. *)
Fixpoint emit_js_filter (eval : string → bool) (webviews : list string) (event : string)
    (filter : option (EventTarget → bool)) (st : Listeners)
    : bool * list (string * list EventId) :=
  match webviews with
  | [] => (true, [])
  | label :: webviews =>
      match js_event_listeners st !! label ≫= (.!! event) with
      | None => emit_js_filter eval webviews event filter st
      | Some handlers =>
          let ids := js_id <$>
            List.filter (λ h, match_any_or_filter (js_target h) filter) (iter_js handlers) in
          if eval label then
            let '(b, l) := emit_js_filter eval webviews event filter st in (b, (label, ids) :: l)
          else (false, [])
      end
  end.

(** ** Emitters of the application manager

    [serialize] is the JSON text of a string; the payload is given as its JSON
    text, [None] where the application's serialization fails. *)
Section Manager.
Context `{U : UnicodeTables} (serialize : string → string).

Inductive EmitError := SerializationFailed | EvalFailed.

Definition EmitArgs_new (event : string) (payload : option string) : outcome EmitError EmitArgs :=
  payload ← ok_or payload SerializationFailed;
  Ok (mk_emit_args event (serialize event) payload).

Definition no_error {E A} (r : outcome Empty_set A) : outcome E A :=
  match r with
  | Ok a => Ok a
  | Err e => match e with end
  | Panic msg => Panic msg
  | Diverge => Diverge
  end.

(** The scripts evaluated, and the result. *)
Abbreviation Emission := (list (string * list EventId) * outcome EmitError Listeners)%type.

Definition emit_args_filter (fuel : nat) (eval : string → bool) (webviews : list string)
    (event : string) (args : EmitArgs) (filter : option (EventTarget → bool)) (st : Listeners)
    : Emission :=
  let '(evaluated, scripts) := emit_js_filter eval webviews event filter st in
  (scripts,
   if evaluated then no_error (emit_filter fuel args filter st) else Err EvalFailed).

Definition manager_emit (fuel : nat) (eval : string → bool) (webviews : list string) (event : string)
    (payload : option string) (st : Listeners) : Emission :=
  match (_ ← assert_event_name_is_valid event; EmitArgs_new event payload) with
  | Ok args => emit_args_filter fuel eval webviews event args None st
  | Err e => ([], Err e)
  | Panic msg => ([], Panic msg)
  | Diverge => ([], Diverge)
  end.

Definition manager_emit_filter (fuel : nat) (eval : string → bool) (webviews : list string)
    (event : string) (payload : option string) (filter : EventTarget → bool) (st : Listeners)
    : Emission :=
  match (_ ← assert_event_name_is_valid event; EmitArgs_new event payload) with
  | Ok args => emit_args_filter fuel eval webviews event args (Some filter) st
  | Err e => ([], Err e)
  | Panic msg => ([], Panic msg)
  | Diverge => ([], Diverge)
  end.

Definition emit_to (fuel : nat) (eval : string → bool) (webviews : list string)
    (target : EventTarget) (event : string) (payload : option string) (st : Listeners) : Emission :=
  match target with
  | Any => manager_emit fuel eval webviews event payload st
  | AnyLabel target_label =>
      manager_emit_filter fuel eval webviews event payload (λ t,
        match t with
        | Window label | Webview label | WebviewWindow label | AnyLabel label =>
            bool_decide (label = target_label)
        | _ => false
        end) st
  | Window target_label =>
      manager_emit_filter fuel eval webviews event payload (λ t,
        match t with
        | AnyLabel label | Window label => bool_decide (label = target_label)
        | _ => false
        end) st
  | Webview target_label =>
      manager_emit_filter fuel eval webviews event payload (λ t,
        match t with
        | AnyLabel label | Webview label => bool_decide (label = target_label)
        | _ => false
        end) st
  | WebviewWindow target_label =>
      manager_emit_filter fuel eval webviews event payload (λ t,
        match t with
        | AnyLabel label | WebviewWindow label => bool_decide (label = target_label)
        | _ => false
        end) st
  | App => manager_emit_filter fuel eval webviews event payload (λ t, bool_decide (t = target)) st
  end.

End Manager.

(** ** Specification *)
Definition handler_at (st : Listeners) (ev : string) (id : EventId) : option Handler :=
  handlers st !! ev ≫= (.!! id).

(** The cell of a [once] handler is empty: calling it again would panic. *)
Definition taken (st : Listeners) (ev : string) (id : EventId) : Prop :=
  ∃ h, handler_at st ev id = Some h ∧ callback h = FnOnce None.

(** The program emits only events of rank below [n], and registers only
    handlers that emit below the rank of their event. *)
Inductive emits_below (rank : string → nat) : nat → Prog → Prop :=
| below_done n : emits_below rank n PDone
| below_effect n f k : (∀ w, emits_below rank n (k w)) → emits_below rank n (PEffect f k)
| below_listen n ev t cb k :
    (∀ e, emits_below rank (rank ev) (cb e)) → (∀ id, emits_below rank n (k id)) →
    emits_below rank n (PListen ev t cb k)
| below_once n ev t cb k :
    (∀ e, emits_below rank (rank ev) (cb e)) → (∀ id, emits_below rank n (k id)) →
    emits_below rank n (POnce ev t cb k)
| below_unlisten n id k : emits_below rank n k → emits_below rank n (PUnlisten id k)
| below_emit n args f k :
    rank (event_name args) < n → emits_below rank n k → emits_below rank n (PEmitFilter args f k).

Definition handler_ok (rank : string → nat) (ev : string) (h : Handler) : Prop :=
  match callback h with
  | Fn f | FnOnce (Some f) => ∀ e, emits_below rank (rank ev) (f e)
  | FnOnce None => True
  end.

Definition handlers_ok (rank : string → nat) (st : Listeners) : Prop :=
  ∀ ev id h, handler_at st ev id = Some h → handler_ok rank ev h.

Definition pending_ok (rank : string → nat) (n : nat) (a : Pending) : Prop :=
  match a with
  | PendingUnlisten _ => True
  | PendingListen _ ev h => handler_ok rank ev h ∧ callback h ≠ FnOnce None
  | PendingEmit args => rank (event_name args) < n
  end.

(** At rest: no emission runs, nothing is queued. *)
Definition at_rest (st : Listeners) : Prop := locked st = false ∧ pending st = [].

Definition quiescent (st : Listeners) : Prop := at_rest st ∧ ∀ ev id, ¬ taken st ev id.

(** The calls an emission makes to the handlers registered when it starts. *)
Definition deliveries (args : EmitArgs) (hs : list (EventId * Handler)) : list (string * Event) :=
  (λ p, (event_name args, mk_event p.1 (payload args))) <$> hs.

(** ** Lemmas *)
Lemma emit_filter_locked fuel args f st :
  locked st = true → emit_filter fuel args f st = Ok (insert_pending (PendingEmit args) st).
Proof. intros H. destruct fuel; simpl; by rewrite H. Qed.

Lemma run_queue_spec rank n p st :
  emits_below rank n p → locked st = true →
  ∃ st' acts, (∀ fuel, run (emit_filter fuel) p st = Ok st') ∧
    locked st' = true ∧ handlers st' = handlers st ∧ calls st' = calls st ∧
    pending st' = pending st ++ acts ∧ Forall (pending_ok rank n) acts.
Proof.
  intros Hp. revert st. induction Hp as [n|n f k _ IH|n ev t cb k Hcb _ _ IH|n ev t cb k Hcb _ _ IH
    |n id k _ IH|n args f k Hr _ IH]; intros st Hl; simpl.
  - exists st, []. rewrite app_nil_r. by split_and!.
  - apply (IH _ (set_world (f (world st)) st)). done.
  - unfold listen, listen_callback, listen_with_id. simpl. rewrite Hl.
    edestruct (IH (next_id st)) as (st' & acts & Hrun & Hl' & Hh & Hc & Hpe & Hok);
      [|exists st', (PendingListen (next_id st) ev (mk_handler t (Fn cb)) :: acts);
        split_and!; [exact Hrun|done|exact Hh|exact Hc|..]]; [done| |].
    + rewrite Hpe. simpl. by rewrite <-app_assoc.
    + constructor; [|done]. by split.
  - unfold once, listen_callback, listen_with_id. simpl. rewrite Hl.
    edestruct (IH (next_id st)) as (st' & acts & Hrun & Hl' & Hh & Hc & Hpe & Hok);
      [|exists st', (PendingListen (next_id st) ev (mk_handler t (FnOnce (Some cb))) :: acts);
        split_and!; [exact Hrun|done|exact Hh|exact Hc|..]]; [done| |].
    + rewrite Hpe. simpl. by rewrite <-app_assoc.
    + constructor; [|done]. by split.
  - unfold unlisten. rewrite Hl.
    destruct (IH (insert_pending (PendingUnlisten id) st)) as
      (st' & acts & Hrun & Hl' & Hh & Hc & Hpe & Hok); [done|].
    exists st', (PendingUnlisten id :: acts). split_and!; [done|done|done|done| |by constructor].
    rewrite Hpe. simpl. by rewrite <-app_assoc.
  - destruct (IH (insert_pending (PendingEmit args) st)) as
      (st' & acts & Hrun & Hl' & Hh & Hc & Hpe & Hok); [done|].
    exists st', (PendingEmit args :: acts).
    split_and!; [|done|done|done| |by constructor].
    + intros fuel. rewrite emit_filter_locked by done. apply Hrun.
    + rewrite Hpe. simpl. by rewrite <-app_assoc.
Qed.

Lemma handler_at_take ev id h st ev' id' :
  handler_at (take_cell ev id h st) ev' id' =
  if decide (ev = ev' ∧ id = id') then Some (mk_handler (target h) (FnOnce None))
  else handler_at st ev' id'.
Proof.
  unfold handler_at, take_cell. simpl. destruct (decide (ev = ev')) as [<-|Hne].
  - rewrite lookup_entry_or_eq. simpl. destruct (decide (id = id')) as [<-|Hne].
    + rewrite lookup_insert_eq, decide_True; done.
    + rewrite lookup_insert_ne by done. rewrite decide_False by naive_solver.
      by destruct (handlers st !! ev); simpl; rewrite ?lookup_empty.
  - rewrite lookup_entry_or_ne by done. rewrite decide_False by naive_solver. done.
Qed.

Lemma taken_frame st st' : handlers st' = handlers st → ∀ ev id, taken st' ev id ↔ taken st ev id.
Proof. intros H ev id. unfold taken, handler_at. by rewrite H. Qed.

Lemma handlers_ok_frame rank st st' :
  handlers st' = handlers st → handlers_ok rank st → handlers_ok rank st'.
Proof. intros H. unfold handlers_ok, handler_at. by rewrite H. Qed.

(** Calling one handler: it is logged, what it asks for is queued, and if its
    cell was emptied then its removal is queued. *)
Lemma call_handler_spec rank args st id h :
  handler_ok rank (event_name args) h → callback h ≠ FnOnce None →
  locked st = true → handlers_ok rank st →
  ∃ st' acts, (∀ fuel, call_handler (emit_filter fuel) args st (id, h) = Ok st') ∧
    locked st' = true ∧ handlers_ok rank st' ∧
    calls st' = calls st ++ [(event_name args, mk_event id (payload args))] ∧
    pending st' = pending st ++ acts ∧ Forall (pending_ok rank (rank (event_name args))) acts ∧
    ∀ ev' id', taken st' ev' id' → taken st ev' id' ∨ ev' = event_name args ∧ PendingUnlisten id' ∈ acts.
Proof.
  intros Hok Ht Hl Hst. unfold call_handler, handler_ok in *.
  destruct (callback h) as [f|[f|]]; [| |done].
  - destruct (run_queue_spec rank (rank (event_name args)) (f (mk_event id (payload args)))
      (log_call (event_name args) (mk_event id (payload args)) st))
      as (st' & acts & Hrun & Hl' & Hh & Hc & Hp & Ha); [apply Hok|done|].
    exists st', acts. split_and!; [done|done|by eapply handlers_ok_frame|done|done|done|].
    intros ev' id' H. left. by apply (taken_frame st st' Hh).
  - destruct (run_queue_spec rank (rank (event_name args)) (f (mk_event id (payload args)))
      (log_call (event_name args) (mk_event id (payload args)) (take_cell (event_name args) id h st)))
      as (st' & acts & Hrun & Hl' & Hh & Hc & Hp & Ha); [apply Hok|done|].
    exists (insert_pending (PendingUnlisten id) st'), (acts ++ [PendingUnlisten id]).
    split_and!; [|done| |done| | |].
    + intros fuel. rewrite Hrun. simpl. unfold unlisten. by rewrite Hl'.
    + apply (handlers_ok_frame _ (take_cell (event_name args) id h st)); [done|].
      intros ev' id' h'. rewrite handler_at_take. case_decide; [naive_solver|apply Hst].
    + simpl. rewrite Hp. by rewrite app_assoc.
    + apply Forall_app. split; [done|]. by repeat constructor.
    + intros ev' id' H.
      apply (taken_frame (take_cell (event_name args) id h st) _ Hh) in H.
      destruct H as (h' & Hh' & Ht'). rewrite handler_at_take in Hh'. case_decide as Hd.
      * destruct Hd as [<- <-]. right. split; [done|]. rewrite elem_of_app, list_elem_of_singleton. auto.
      * left. by exists h'.
Qed.

Lemma call_handlers_spec rank args hs st :
  (∀ p, p ∈ hs → handler_ok rank (event_name args) p.2 ∧ callback p.2 ≠ FnOnce None) →
  locked st = true → handlers_ok rank st →
  ∃ st' acts, (∀ fuel, for_each (call_handler (emit_filter fuel) args) hs st = Ok st') ∧
    locked st' = true ∧ handlers_ok rank st' ∧
    calls st' = calls st ++ deliveries args hs ∧
    pending st' = pending st ++ acts ∧ Forall (pending_ok rank (rank (event_name args))) acts ∧
    ∀ ev' id', taken st' ev' id' → taken st ev' id' ∨ ev' = event_name args ∧ PendingUnlisten id' ∈ acts.
Proof.
  revert st. induction hs as [|[id h] hs IH]; intros st Hhs Hl Hst.
  - exists st, []. simpl. rewrite !app_nil_r. split_and!; auto.
  - destruct (Hhs (id, h)) as [Hok Ht]; [by left|].
    destruct (call_handler_spec rank args st id h Hok Ht Hl Hst)
      as (st1 & acts1 & H1 & Hl1 & Hst1 & Hc1 & Hp1 & Ha1 & Ht1).
    destruct (IH st1) as (st2 & acts2 & H2 & Hl2 & Hst2 & Hc2 & Hp2 & Ha2 & Ht2);
      [intros p Hp; apply Hhs; by right|done|done|].
    exists st2, (acts1 ++ acts2). split_and!; [|done|done| | |by apply Forall_app|].
    + intros fuel. cbn [for_each]. rewrite H1. apply H2.
    + rewrite Hc2, Hc1. by rewrite <-app_assoc.
    + rewrite Hp2, Hp1. by rewrite <-app_assoc.
    + intros ev' id' H. rewrite elem_of_app.
      destruct (Ht2 _ _ H) as [H'|[-> H']]; [|auto]. destruct (Ht1 _ _ H') as [|[-> ?]]; auto.
Qed.

(** Unlocked [unlisten] and [listen_with_id]. *)
Lemma handler_at_unlisten id st ev id' :
  locked st = false →
  handler_at (unlisten id st) ev id' = if decide (id = id') then None else handler_at st ev id'.
Proof.
  intros Hl. unfold unlisten, handler_at. rewrite Hl. simpl. rewrite lookup_fmap.
  destruct (handlers st !! ev) as [m|]; simpl; [|by case_decide].
  case_decide; subst; [apply lookup_delete_eq|by apply lookup_delete_ne].
Qed.

Lemma handler_at_listen id event h st ev id' :
  locked st = false →
  handler_at (listen_with_id id event h st) ev id' =
  if decide (event = ev ∧ id = id') then Some h else handler_at st ev id'.
Proof.
  intros Hl. unfold listen_with_id, handler_at. rewrite Hl. simpl.
  destruct (decide (event = ev)) as [<-|Hne].
  - rewrite lookup_entry_or_eq. simpl. destruct (decide (id = id')) as [<-|Hne].
    + rewrite lookup_insert_eq, decide_True; done.
    + rewrite lookup_insert_ne by done. rewrite decide_False by naive_solver.
      by destruct (handlers st !! event); simpl; rewrite ?lookup_empty.
  - rewrite lookup_entry_or_ne by done. by rewrite decide_False by naive_solver.
Qed.

Lemma unlisten_frame id st :
  locked st = false →
  locked (unlisten id st) = false ∧ pending (unlisten id st) = pending st ∧
  calls (unlisten id st) = calls st.
Proof. intros Hl. unfold unlisten. by rewrite Hl. Qed.

Lemma listen_with_id_frame id event h st :
  locked st = false →
  let st' := listen_with_id id event h st in
  locked st' = false ∧ pending st' = pending st ∧ calls st' = calls st.
Proof. intros Hl. unfold listen_with_id. by rewrite Hl. Qed.

(** *** Emission

    [iter] lists every handler once. *)
Context (Hiter : ∀ m, iter m ≡ₚ map_to_list m).

Lemma elem_of_matching args f st id h :
  (id, h) ∈ matching args f st ↔
  handler_at st (event_name args) id = Some h ∧ match_any_or_filter (target h) f = true.
Proof.
  unfold matching, handler_at. destruct (handlers st !! event_name args) as [m|]; simpl.
  - rewrite list_elem_of_In, filter_In, <-list_elem_of_In, Hiter, elem_of_map_to_list. done.
  - split; [intros H; by apply not_elem_of_nil in H|naive_solver].
Qed.

(** [st'] is a state at rest that follows [st]: no new cell is empty, and the
    calls since are [l] followed by calls for events of rank below [n]. *)
Record follows (rank : string → nat) (n : nat) (l : list (string * Event)) (st st' : Listeners) : Prop := {
  follows_rest : at_rest st';
  follows_ok : handlers_ok rank st';
  follows_taken : ∀ ev id, taken st' ev id → taken st ev id;
  follows_calls : ∃ rest, calls st' = calls st ++ l ++ rest ∧ Forall (λ c, rank c.1 < n) rest;
}.

(** Every emission of rank below [n] ends, whatever the fuel above its rank. *)
Definition emissions_end (rank : string → nat) (n : nat) : Prop :=
  ∀ args f st, rank (event_name args) < n → at_rest st → handlers_ok rank st →
    (∀ ev id, taken st ev id → rank (event_name args) < rank ev) →
    ∃ st', (∀ fuel, rank (event_name args) < fuel → emit_filter fuel args f st = Ok st') ∧
      follows rank (rank (event_name args)) (deliveries args (matching args f st)) st st'.

Lemma flush_action_spec rank n st a :
  emissions_end rank n → pending_ok rank n a → at_rest st → handlers_ok rank st →
  (∀ ev id, taken st ev id → n ≤ rank ev) →
  ∃ st', (∀ fuel, n ≤ fuel → flush_action (λ args, emit_filter fuel args None) st a = Ok st') ∧
    follows rank n [] st st' ∧ ∀ ev id, taken st' ev id → a ≠ PendingUnlisten id.
Proof.
  intros Hend Ha [Hl Hp] Hok Ht. destruct a as [id|id ev h|args]; simpl in *.
  - destruct (unlisten_frame id st Hl) as (Hl' & Hp' & Hc').
    exists (unlisten id st). split_and!; [done|split|].
    + by split; [|rewrite Hp'].
    + intros ev id' h. rewrite handler_at_unlisten by done. case_decide; [done|apply Hok].
    + intros ev id' (h & Hh & Hc). rewrite handler_at_unlisten in Hh by done.
      case_decide; [done|]. by exists h.
    + exists []. rewrite Hc', app_nil_r. done.
    + intros ev id' (h & Hh & _). rewrite handler_at_unlisten in Hh by done.
      case_decide; [done|]. naive_solver.
  - destruct (listen_with_id_frame id ev h st Hl) as (Hl' & Hp' & Hc').
    exists (listen_with_id id ev h st). destruct Ha as [Hh Hnt]. split_and!; [done|split|done].
    + by split; [|rewrite Hp'].
    + intros ev' id' h'. rewrite handler_at_listen by done. case_decide; [naive_solver|apply Hok].
    + intros ev' id' (h' & Hh' & Hc). rewrite handler_at_listen in Hh' by done.
      case_decide; [naive_solver|]. by exists h'.
    + exists []. rewrite Hc', app_nil_r. done.
  - destruct (Hend args None st Ha) as (st' & He & Hf); [done|done|intros ?? H; apply Ht in H; lia|].
    exists st'. split_and!; [intros fuel ?; apply He; lia| |done].
    destruct Hf as [Hr Ho Hta (rest & Hc & Hrest)]. split; [done..|].
    eexists. split; [exact Hc|]. apply Forall_app. split; [|eapply Forall_impl; [done|simpl; lia]].
    apply Forall_fmap, Forall_true. done.
Qed.

Lemma follows_trans rank n l1 l2 st1 st2 st3 :
  Forall (λ c, rank c.1 < n) l2 →
  follows rank n l1 st1 st2 → follows rank n l2 st2 st3 → follows rank n l1 st1 st3.
Proof.
  intros Hl [_ _ Ht1 (r1 & Hc1 & Hr1)] [Hr Ho Ht2 (r2 & Hc2 & Hr2)]. split; [done|done|auto|].
  exists (r1 ++ l2 ++ r2). split; [rewrite Hc2, Hc1; by rewrite <-!app_assoc|].
  rewrite !Forall_app. done.
Qed.

Lemma flush_spec rank n l st :
  emissions_end rank n → Forall (pending_ok rank n) l → at_rest st → handlers_ok rank st →
  (∀ ev id, taken st ev id → n ≤ rank ev) →
  ∃ st', (∀ fuel, n ≤ fuel →
      for_each (flush_action (λ args, emit_filter fuel args None)) l st = Ok st') ∧
    follows rank n [] st st' ∧ ∀ ev id, taken st' ev id → PendingUnlisten id ∉ l.
Proof.
  intros Hend. revert st. induction l as [|a l IH]; intros st Hl Hr Hok Ht.
  - exists st. split_and!; [done| |intros ?? _; apply not_elem_of_nil].
    split; [done|done|done|]. exists []. by rewrite app_nil_r.
  - apply Forall_cons in Hl as [Ha Hl].
    destruct (flush_action_spec rank n st a Hend Ha Hr Hok Ht) as (st1 & H1 & Hf1 & Hn1).
    pose proof Hf1 as [Hr1 Ho1 Ht1 _].
    destruct (IH st1 Hl Hr1 Ho1) as (st2 & H2 & Hf2 & Hn2); [intros ?? H; by apply Ht1, Ht in H|].
    exists st2. split_and!.
    + intros fuel Hf. cbn [for_each]. rewrite H1 by done. by apply H2.
    + by eapply follows_trans; [constructor| |].
    + intros ev id H. apply not_elem_of_cons. split; [|by eapply Hn2].
      intros Heq. eapply (Hn1 ev id); [|done]. by apply (follows_taken _ _ _ _ _ Hf2).
Qed.

Lemma emission_ends rank n : emissions_end rank n.
Proof.
  induction n as [n IHn] using lt_wf_ind. intros args f st Hn [Hl Hp] Hok Ht.
  set (m := rank (event_name args)) in *. specialize (IHn m Hn).
  set (hs := matching args f st) in *.
  destruct (call_handlers_spec rank args hs (set_locked true st))
    as (st1 & acts & H1 & Hl1 & Ho1 & Hc1 & Hp1 & Ha1 & Ht1); [|done|done|].
  { intros [id h] Hin. apply elem_of_matching in Hin as [Hh _]. split; [by eapply Hok|].
    intros Hc. assert (m < rank (event_name args)) as ?; [|lia]. apply (Ht _ id). by exists h. }
  simpl in Hp1, Hc1. rewrite Hp in Hp1. simpl in Hp1.
  destruct (flush_spec rank m acts (set_pending [] (set_locked false st1))) as (st2 & H2 & Hf2 & Hn2);
    [done|done|done|by eapply handlers_ok_frame|..].
  { intros ev id H. destruct (Ht1 ev id) as [H'|[-> _]]; [exact H| |done].
    specialize (Ht ev id H'). lia. }
  exists st2. split.
  - intros fuel Hfuel. destruct fuel as [|fuel]; [lia|]. simpl. rewrite Hl. fold hs.
    rewrite H1. simpl. case_bool_decide as Hhs; simpl.
    + rewrite Hhs in *. simpl in *. specialize (H1 0). injection H1 as <-. simpl in Hp1.
      rewrite Hp in Hp1. subst acts. specialize (H2 m ltac:(lia)). simpl in H2.
      rewrite <-H2. destruct st. simpl in *. by subst.
    + unfold flush_pending. simpl. rewrite Hp1. apply H2. lia.
  - destruct Hf2 as [Hr2 Ho2 Ht2 (rest & Hc2 & Hrest)]. split; [done|done| |].
    + intros ev id H. destruct (Ht1 ev id) as [H'|[_ H']]; [by apply Ht2|exact H'|].
      by apply Hn2 in H.
    + exists rest. split; [|done]. rewrite Hc2. simpl. rewrite Hc1. by rewrite <-app_assoc.
Qed.

(** *** Listening *)

(** Every registered id was handed out. *)
Definition ids_ok (st : Listeners) : Prop :=
  (0 ≤ next_id st ≤ u32_max)%Z ∧
  ∀ ev id h, handler_at st ev id = Some h → (0 ≤ id < next_id st)%Z.

Definition js_at (st : Listeners) (label event : string) : gset JsHandler :=
  default ∅ (js_event_listeners st !! label ≫= (.!! event)).

Lemma js_at_listen ev label t id st l e h :
  h ∈ js_at (listen_js ev label t id st) l e ↔
  h ∈ js_at st l e ∨ (l = label ∧ e = ev ∧ h = mk_js_handler t id).
Proof.
  unfold js_at, listen_js. simpl. destruct (decide (label = l)) as [<-|Hne];
    [rewrite lookup_entry_or_eq; simpl|rewrite lookup_entry_or_ne by done; naive_solver].
  destruct (decide (ev = e)) as [<-|Hne].
  - rewrite lookup_entry_or_eq. simpl. rewrite elem_of_union, elem_of_singleton.
    destruct (js_event_listeners st !! label) as [m|]; simpl; rewrite ?lookup_empty; simpl;
      clear; set_solver.
  - rewrite lookup_entry_or_ne by done.
    destruct (js_event_listeners st !! label) as [m|]; simpl; rewrite ?lookup_empty; simpl;
      naive_solver.
Qed.

Lemma js_at_unlisten ev id st l e h :
  h ∈ js_at (unlisten_js ev id st) l e ↔ h ∈ js_at st l e ∧ ¬ (e = ev ∧ js_id h = id).
Proof.
  unfold js_at, unlisten_js. simpl. rewrite lookup_fmap.
  destruct (js_event_listeners st !! l) as [m|]; simpl; [|clear; set_solver].
  unfold unlisten_js_in. destruct (m !! ev) as [hs|] eqn:Hm.
  - destruct (decide (ev = e)) as [<-|Hne].
    + rewrite Hm. simpl. case_decide as Hf.
      * rewrite lookup_delete_eq. simpl. split; [intros H; by apply not_elem_of_empty in H|].
        intros [Hh Hn]. assert (h ∈ filter (λ h, js_id h ≠ id) hs) as Hin;
          [apply elem_of_filter; naive_solver|]. rewrite Hf in Hin. by apply not_elem_of_empty in Hin.
      * rewrite lookup_insert_eq. simpl. rewrite elem_of_filter. naive_solver.
    + case_decide; [rewrite lookup_delete_ne by done|rewrite lookup_insert_ne by done]; naive_solver.
  - split; [|naive_solver]. intros Hh. split; [done|]. intros [-> _]. rewrite Hm in Hh.
    by apply not_elem_of_empty in Hh.
Qed.

Lemma has_js_listener_spec event f st :
  has_js_listener event f st = true ↔ ∃ l h, h ∈ js_at st l event ∧ f (js_target h) = true.
Proof.
  unfold has_js_listener, js_at. rewrite existsb_exists. split.
  - intros ([l m] & Hin & H). apply list_elem_of_In, elem_of_map_to_list in Hin. simpl in H.
    destruct (m !! event) as [hs|] eqn:Hm; [|done].
    apply existsb_exists in H as (h & Hh & Hf). apply list_elem_of_In, elem_of_elements in Hh.
    exists l, h. rewrite Hin. simpl. by rewrite Hm.
  - intros (l & h & Hh & Hf). destruct (js_event_listeners st !! l) as [m|] eqn:Hl; simpl in Hh;
      [|by apply not_elem_of_empty in Hh].
    destruct (m !! event) as [hs|] eqn:Hm; simpl in Hh; [|by apply not_elem_of_empty in Hh].
    exists (l, m). split; [by apply list_elem_of_In, elem_of_map_to_list|]. simpl. rewrite Hm.
    apply existsb_exists. exists h. split; [|done]. by apply list_elem_of_In, elem_of_elements.
Qed.

(** ** Properties *)

(** C5. Delivery of an event. When the events that handlers emit have lower
    rank than the event they handle, an emission at rest ends without a panic:
    it calls each handler registered for the event whose target matches
    exactly once, then only handlers of events of lower rank, and leaves
    nothing queued and no once-handler half removed. *)
Theorem emit_delivers rank args f st :
  quiescent st → handlers_ok rank st →
  NoDup (matching args f st) ∧
  (∀ id h, (id, h) ∈ matching args f st ↔
     handler_at st (event_name args) id = Some h ∧ match_any_or_filter (target h) f = true) ∧
  ∃ st' rest,
    (∀ fuel, rank (event_name args) < fuel → emit_filter fuel args f st = Ok st') ∧
    quiescent st' ∧ handlers_ok rank st' ∧
    calls st' = calls st ++ deliveries args (matching args f st) ++ rest ∧
    Forall (λ c, rank c.1 < rank (event_name args)) rest.
Proof.
  intros [Hr Ht] Hok. split_and!.
  - unfold matching. destruct (handlers st !! event_name args); [|constructor].
    apply NoDup_ListNoDup, List.NoDup_filter, NoDup_ListNoDup. rewrite Hiter. apply NoDup_map_to_list.
  - intros id h. apply elem_of_matching.
  - destruct (emission_ends rank (S (rank (event_name args))) args f st)
      as (st' & He & [Hr' Ho Ht' (rest & Hc & Hrest)]); [lia|done|done|by intros ?? ?%Ht|].
    exists st', rest. split_and!; [done| |done|done|done]. split; [done|].
    intros ev id H. by apply (Ht ev id), Ht'.
Qed.

(** Listening outside of an emission. While fewer than 2^32 ids were
    handed out, the id of a new handler is unused, the handler is registered
    under it for its event and nothing else changes, and removing the id gives
    back the handlers there were. *)
Theorem listen_unlisten_roundtrip ev t cb st :
  at_rest st → ids_ok st →
  let '(id, st') := listen_callback ev t cb st in
  (∀ ev', handler_at st ev' id = None) ∧
  (∀ ev' id', handler_at st' ev' id' =
     if decide (ev = ev' ∧ id = id') then Some (mk_handler t cb) else handler_at st ev' id') ∧
  (∀ ev' id', handler_at (unlisten id st') ev' id' = handler_at st ev' id') ∧
  ((next_id st < u32_max)%Z → ids_ok st').
Proof.
  intros [Hl Hp] [Hn Hids]. unfold listen_callback. simpl.
  set (st1 := mk_listeners _ _ _ _ _ _ _).
  assert (locked st1 = false) as Hl1 by done.
  assert (∀ ev id, handler_at st1 ev id = handler_at st ev id) as Hat by done.
  assert (∀ ev', handler_at st ev' (next_id st) = None) as Hfresh.
  { intros ev'. destruct (handler_at st ev' (next_id st)) eqn:H; [|done]. apply Hids in H. lia. }
  destruct (listen_with_id_frame (next_id st) ev (mk_handler t cb) st1 Hl1) as (Hl2 & _ & _).
  split_and!; [done|intros; rewrite <-Hat; by apply handler_at_listen| |].
  - intros ev' id'. rewrite handler_at_unlisten, handler_at_listen by done.
    rewrite Hat. repeat case_decide; subst; naive_solver.
  - intros Hlt. unfold ids_ok.
    assert (next_id (listen_with_id (next_id st) ev (mk_handler t cb) st1) = next_id st + 1)%Z as ->.
    { unfold listen_with_id. rewrite Hl1. simpl. unfold wrapping_u32. apply Z.mod_small.
      unfold u32_max in *. lia. }
    split; [lia|]. intros ev' id' h. rewrite handler_at_listen by done.
    case_decide; [intros _; lia|]. rewrite Hat. intros Hh. apply Hids in Hh. lia.
Qed.

(** The listeners of the webviews form a set: registering adds one, removing
    an id of an event removes exactly the listeners with that id for that
    event, in every webview, and [has_js_listener] answers whether a listener
    of the event matches the filter. *)
Theorem js_listeners_spec ev label t id st :
  (∀ l e h, h ∈ js_at (listen_js ev label t id st) l e ↔
     h ∈ js_at st l e ∨ (l = label ∧ e = ev ∧ h = mk_js_handler t id)) ∧
  (∀ l e h, h ∈ js_at (unlisten_js ev id st) l e ↔
     h ∈ js_at st l e ∧ ¬ (e = ev ∧ js_id h = id)) ∧
  (∀ e f, has_js_listener e f st = true ↔
     ∃ l h, h ∈ js_at st l e ∧ f (js_target h) = true).
Proof.
  split_and!; intros; [apply js_at_listen|apply js_at_unlisten|apply has_js_listener_spec].
Qed.

(** *** Targets *)
Definition target_label (t : EventTarget) : option string :=
  match t with
  | Window l | Webview l | WebviewWindow l | AnyLabel l => Some l
  | _ => None
  end.

(** An event emitted to [tgt] reaches the listeners on [t]: one of them is
    [Any], they are equal, or they have the same label and one of them is an
    [AnyLabel]. *)
Definition reaches (tgt t : EventTarget) : Prop :=
  t = Any ∨ tgt = Any ∨ t = tgt ∨
  ∃ l, target_label t = Some l ∧ target_label tgt = Some l ∧ (t = AnyLabel l ∨ tgt = AnyLabel l).

Context (Hiter_js : ∀ s, iter_js s ≡ₚ elements s).

(** The scripts evaluated go to the webviews with a listener of the event, with
    the ids of the listeners that match. *)
Lemma emit_js_filter_spec eval webviews event f st :
  (∀ l, l ∈ webviews → eval l = true) →
  (emit_js_filter eval webviews event f st).1 = true ∧
  ∀ label id, (∃ ids, (label, ids) ∈ (emit_js_filter eval webviews event f st).2 ∧ id ∈ ids) ↔
    label ∈ webviews ∧ ∃ h, h ∈ js_at st label event ∧ js_id h = id ∧
      match_any_or_filter (js_target h) f = true.
Proof.
  induction webviews as [|l ls IH]; intros Hev; simpl.
  - split; [done|]. intros label id. split.
    + intros (ids & H & _). by apply not_elem_of_nil in H.
    + intros [H _]. by apply not_elem_of_nil in H.
  - destruct IH as [IH1 IH2]; [intros; apply Hev; by right|].
    destruct (js_event_listeners st !! l ≫= (.!! event)) as [hs|] eqn:Hl.
    + rewrite (Hev l) by left. destruct (emit_js_filter eval ls event f st) as [b scripts].
      simpl in *. split; [done|]. intros label id. rewrite elem_of_cons.
      assert (id ∈ js_id <$> List.filter (λ h, match_any_or_filter (js_target h) f) (iter_js hs) ↔
        ∃ h, h ∈ js_at st l event ∧ js_id h = id ∧ match_any_or_filter (js_target h) f = true) as Hids.
      { unfold js_at. rewrite Hl. simpl. rewrite list_elem_of_fmap.
        split; intros (h & Hh); exists h; revert Hh;
          rewrite list_elem_of_In, filter_In, <-list_elem_of_In, Hiter_js, elem_of_elements; naive_solver. }
      split.
      * intros (ids & [Heq|Hin]%elem_of_cons & Hid).
        -- simplify_eq. split; [by left|]. by apply Hids.
        -- destruct (IH2 label id) as [H _]. destruct H as [Hls Hh]; [by exists ids|]. auto.
      * intros [[->|Hls] Hh].
        -- eexists. split; [by left|]. by apply Hids.
        -- destruct (IH2 label id) as [_ H]. destruct H as (ids & Hin & Hid); [done|].
           exists ids. split; [by right|done].
    + split; [done|]. intros label id. rewrite IH2, elem_of_cons. split; [naive_solver|].
      intros [[->|Hls] Hh]; [|done]. destruct Hh as (h & Hh & _). unfold js_at in Hh.
      rewrite Hl in Hh. by apply not_elem_of_empty in Hh.
Qed.

Lemma emit_to_filter `{U : UnicodeTables} serialize fuel eval webviews tgt event payload st :
  ∃ f, (∀ t, match_any_or_filter t f = true ↔ reaches tgt t) ∧
    emit_to serialize fuel eval webviews tgt event payload st =
    match f with
    | Some f => manager_emit_filter serialize fuel eval webviews event payload f st
    | None => manager_emit serialize fuel eval webviews event payload st
    end.
Proof.
  destruct tgt as [|l| |l|l|l]; [exists None|eexists (Some _)..]; (split; cycle 1; [reflexivity|]);
    intros t; unfold match_any_or_filter, reaches; rewrite orb_true_iff, bool_decide_eq_true;
    destruct t; simpl; rewrite ?bool_decide_eq_true; naive_solver.
Qed.

(** Targeted emission reaches whom it should: for a valid event name, a
    payload that serializes and webviews that evaluate scripts, an event
    emitted to a target is delivered to exactly the registered handlers, and to
    exactly the webview listeners, whose target the event reaches. *)
Theorem emit_to_reaches `{U : UnicodeTables} serialize fuel eval webviews tgt event payload st :
  is_event_name_valid event = true →
  (∀ l, l ∈ webviews → eval l = true) →
  let args := mk_emit_args event (serialize event) payload in
  let '(scripts, r) := emit_to serialize fuel eval webviews tgt event (Some payload) st in
  (∃ f, r = no_error (emit_filter fuel args f st) ∧
     ∀ id h, (id, h) ∈ matching args f st ↔ handler_at st event id = Some h ∧ reaches tgt (target h)) ∧
  (∀ label id, (∃ ids, (label, ids) ∈ scripts ∧ id ∈ ids) ↔
     label ∈ webviews ∧ ∃ h, h ∈ js_at st label event ∧ js_id h = id ∧ reaches tgt (js_target h)).
Proof.
  intros Hv Hev args.
  destruct (emit_to_filter serialize fuel eval webviews tgt event (Some payload) st) as (f & Hf & ->).
  destruct (emit_js_filter_spec eval webviews event f st Hev) as [H1 H2].
  assert (match f with
    | Some f => manager_emit_filter serialize fuel eval webviews event (Some payload) f st
    | None => manager_emit serialize fuel eval webviews event (Some payload) st
    end = emit_args_filter fuel eval webviews event args f st) as ->.
  { unfold manager_emit_filter, manager_emit, assert_event_name_is_valid. rewrite Hv. by destruct f. }
  unfold emit_args_filter. destruct (emit_js_filter _ _ _ _ _) as [b scripts]. simpl in *. subst b.
  split.
  - exists f. split; [done|]. intros id h. rewrite elem_of_matching, Hf. done.
  - intros label id. rewrite H2. setoid_rewrite Hf. done.
Qed.

(** Registering a handler at rest keeps what an emission needs. *)
Lemma listen_callback_ready rank ev t cb st :
  quiescent st → handlers_ok rank st → handler_ok rank ev (mk_handler t cb) → cb ≠ FnOnce None →
  let st' := (listen_callback ev t cb st).2 in quiescent st' ∧ handlers_ok rank st'.
Proof.
  intros [[Hl Hp] Ht] Hok Hh Hcb. unfold listen_callback. simpl.
  set (st1 := mk_listeners _ _ _ _ _ _ _).
  destruct (listen_with_id_frame (next_id st) ev (mk_handler t cb) st1 Hl) as (Hl' & Hp' & _).
  split; [split; [split; [done|by rewrite Hp']|]|].
  - intros ev' id' (h & Hat & Hc). rewrite handler_at_listen in Hat by done.
    case_decide; [naive_solver|]. apply (Ht ev' id'). by exists h.
  - intros ev' id' h. rewrite handler_at_listen by done. case_decide; [naive_solver|]. apply Hok.
Qed.

Lemma default_ready rank w : quiescent (Listeners_default w) ∧ handlers_ok rank (Listeners_default w).
Proof.
  split; [split; [done|]|].
  - intros ev id (h & Hh & _). unfold handler_at in Hh. simpl in Hh. by rewrite lookup_empty in Hh.
  - intros ev id h Hh. unfold handler_at in Hh. simpl in Hh. by rewrite lookup_empty in Hh.
Qed.

End Listeners.
Arguments Prog : clear implicits.
Arguments Listeners : clear implicits.
Arguments Handler : clear implicits.

(** ** An application with a few handlers *)
#[local] Instance no_unicode : UnicodeTables := {| unicode_alphanumeric _ := false |}.

Definition ex_args (e : string) : EmitArgs := mk_emit_args e e "1".
Definition ex_quiet : Event → Prog () := λ _, PDone.
Definition ex_forward (e : string) (f : option (EventTarget → bool)) : Event → Prog () :=
  λ _, PEmitFilter (ex_args e) f PDone.

(** A once-handler on [first] that emits [second], two handlers on [second]. *)
Definition ex_listeners : Listeners () :=
  let st := Listeners_default () in
  let st := (listen_callback "first" Any (FnOnce (Some (ex_forward "second" None))) st).2 in
  let st := (listen_callback "second" (Window "main") (Fn ex_quiet) st).2 in
  (listen_callback "second" (AnyLabel "other") (Fn ex_quiet) st).2.

Definition ex_rank (e : string) : nat := if decide (e = "first") then 1 else 0.

Lemma ex_ready : quiescent ex_listeners ∧ handlers_ok ex_rank ex_listeners.
Proof.
  destruct (default_ready (W := ()) ex_rank ()) as [Hq Ho]. unfold ex_listeners.
  destruct (listen_callback_ready ex_rank "first" Any (FnOnce (Some (ex_forward "second" None))) _ Hq Ho)
    as [Hq1 Ho1]; [|done|].
  { intros e. constructor; [vm_compute; lia|constructor]. }
  destruct (listen_callback_ready ex_rank "second" (Window "main") (Fn ex_quiet) _ Hq1 Ho1)
    as [Hq2 Ho2]; [intros e; constructor|done|].
  apply (listen_callback_ready ex_rank "second" (AnyLabel "other") (Fn ex_quiet) _ Hq2 Ho2);
    [intros e; constructor|done].
Qed.

Lemma emit_delivers_witness :
  ∃ st', emit_filter map_to_list 2 (ex_args "first") None ex_listeners = Ok st' ∧ quiescent st' ∧
    length (calls st') = 3.
Proof.
  destruct (emit_delivers map_to_list (λ m, reflexivity _) ex_rank (ex_args "first") None ex_listeners
    (proj1 ex_ready) (proj2 ex_ready)) as (_ & _ & st' & rest & He & Hq & _ & _ & _).
  exists st'. specialize (He 2 ltac:(vm_compute; lia)). split_and!; [exact He|exact Hq|].
  vm_compute in He. injection He as <-. reflexivity.
Defined.

Lemma listen_unlisten_roundtrip_witness :
  handler_at (listen_callback "first" App (Fn ex_quiet) (Listeners_default ())).2 "first" 0 =
  Some (mk_handler App (Fn ex_quiet)).
Proof.
  destruct (listen_unlisten_roundtrip "first" App (Fn ex_quiet) (Listeners_default ()))
    as (_ & H & _); [done| |].
  - split; [vm_compute; split; intros [=]|]. intros ev id h Hh. unfold handler_at in Hh. simpl in Hh.
    by rewrite lookup_empty in Hh.
  - apply (H "first" 0%Z).
Defined.

Lemma emit_to_reaches_witness :
  is_event_name_valid "second" = true ∧
  ∃ f, (emit_to map_to_list elements (λ s, s) 2 (λ _, true) ["main"] (WebviewWindow "other") "second"
         (Some "1") ex_listeners).2 =
       no_error (emit_filter map_to_list 2 (mk_emit_args "second" "second" "1") f ex_listeners) ∧
    ∀ id h, (id, h) ∈ matching map_to_list (mk_emit_args "second" "second" "1") f ex_listeners ↔
      handler_at ex_listeners "second" id = Some h ∧ reaches (WebviewWindow "other") (target h).
Proof.
  split; [vm_compute; reflexivity|].
  pose proof (emit_to_reaches map_to_list elements (λ m, reflexivity _) (λ s, reflexivity _)
    (λ s, s) 2 (λ _, true) ["main"] (WebviewWindow "other") "second" "1" ex_listeners
    ltac:(vm_compute; reflexivity) ltac:(done)) as H. cbv zeta in H.
  destruct (emit_to _ _ _ _ _ _ _ _ _ _) as [scripts r]. destruct H as [H _]. exact H.
Defined.

(** A filtered emission made by a callback loses its filter: queued while
    the handlers are locked, it is flushed without one, so the handler on the
    window main is called although the filter only accepts other. *)
Theorem nested_filter_is_lost :
  let only_other := Some (λ t, bool_decide (t = AnyLabel "other")) in
  let st := (listen "outer" Any (ex_forward "second" only_other) ex_listeners).2 in
  (calls <$> emit_filter map_to_list 3 (ex_args "second") only_other st) =
    Ok [("second", mk_event 2 "1")] ∧
  (calls <$> emit_filter map_to_list 3 (ex_args "outer") None st) =
    Ok [("outer", mk_event 3 "1"); ("second", mk_event 2 "1"); ("second", mk_event 1 "1")].
Proof. vm_compute. done. Qed.

(** A once-handler that emits its own event panics: the emission is flushed
    before the removal of the handler, which is then called a second time. *)
Theorem once_reemitting_panics :
  let st := (once "again" Any (ex_forward "again" None) (Listeners_default ())).2 in
  emit_filter map_to_list 5 (ex_args "again") None st =
    Panic "attempted to call handler more than once".
Proof. vm_compute. done. Qed.

(** A registration made while another thread holds the handlers outside of
    an emission is stranded: it is queued, and an emission of its event after
    the lock is released neither calls it nor takes it from the queue. *)
Theorem concurrent_registration_stranded e cb (st : Listeners ()) fuel :
  at_rest st → handlers st !! e = None →
  let st' := set_locked false (listen e Any cb (set_locked true st)).2 in
  emit_filter map_to_list (S fuel) (ex_args e) None st' = Ok st' ∧
  pending st' = [PendingListen (next_id st) e (mk_handler Any (Fn cb))].
Proof.
  intros [Hl Hp] He. simpl. unfold listen, listen_callback, listen_with_id. simpl.
  unfold matching. simpl. rewrite He, Hp. simpl. done.
Qed.

Lemma concurrent_registration_stranded_witness :
  let st' := set_locked false (listen "x" Any ex_quiet (set_locked true ex_listeners)).2 in
  emit_filter map_to_list 1 (ex_args "x") None st' = Ok st' ∧ calls st' = [].
Proof.
  split; [|vm_compute; reflexivity].
  exact (proj1 (concurrent_registration_stranded "x" ex_quiet ex_listeners 0
    (conj eq_refl eq_refl) ltac:(vm_compute; reflexivity))).
Defined.

End Listeners.
