(* ===== verification/Numbers.v ===== *)
(** * Decimal texts of machine integers

    The [Display] of [u32] and its [FromStr]: an optional plus sign, then at
    least one digit, the value at most [u32::MAX]. Also [str::split_once]. *)
From Stdlib Require Import DecimalString DecimalN DecimalFacts.
From S2P Require Import Prelude.

Definition print_u32 (n : N) : string := NilZero.string_of_uint (N.to_uint n).

Definition parse_u32 (s : string) : option N :=
  d ← NilZero.uint_of_string (match strip_prefix "+" s with Some r => r | None => s end);
  let n := N.of_uint d in
  if (Z.of_N n <=? u32_max)%Z then Some n else None.

(** The text before the first occurrence of a pattern, and the text after. *)
Fixpoint split_once (p s : string) : option (string * string) :=
  match strip_prefix p s with
  | Some r => Some ("", r)
  | None =>
      match s with
      | EmptyString => None
      | String c s => '(a, b) ← split_once p s; Some (String c a, b)
      end
  end.

Lemma to_uint_not_nil n : N.to_uint n ≠ Decimal.Nil.
Proof.
  destruct n as [|p]; [done|]. simpl. intros H.
  pose proof (DecimalPos.Unsigned.to_uint_nonnil p). done.
Qed.

(** A decimal text starts with no sign. *)
Lemma print_u32_no_plus n : strip_prefix "+" (print_u32 n) = None.
Proof.
  unfold print_u32. pose proof (to_uint_not_nil n). by destruct (N.to_uint n).
Qed.

Lemma parse_print_u32 n : (Z.of_N n ≤ u32_max)%Z → parse_u32 (print_u32 n) = Some n.
Proof.
  intros Hn. unfold parse_u32. rewrite print_u32_no_plus. unfold print_u32.
  rewrite NilZero.usu by apply to_uint_not_nil. simpl. rewrite DecimalN.Unsigned.of_to.
  destruct (Z.leb_spec (Z.of_N n) u32_max); [done|lia].
Qed.

Lemma parse_u32_bound s n : parse_u32 s = Some n → (Z.of_N n ≤ u32_max)%Z.
Proof.
  unfold parse_u32. destruct (NilZero.uint_of_string _); simpl; [|done].
  destruct (Z.leb_spec (Z.of_N (N.of_uint u)) u32_max); intros; by simplify_eq.
Qed.

Lemma split_once_sound p s a b : split_once p s = Some (a, b) → s = a +:+ p +:+ b.
Proof.
  revert a. induction s as [|c s IH]; intros a; simpl.
  - destruct (strip_prefix p "") eqn:H; [|done]. intros [= <- <-].
    by apply strip_prefix_spec in H.
  - destruct (strip_prefix p (String c s)) eqn:H.
    + intros [= <- <-]. by apply strip_prefix_spec in H.
    + destruct (split_once p s) as [[a' b']|] eqn:Hs; simpl; [|done]. intros [= <- <-].
      by rewrite append_cons, (IH a').
Qed.

Lemma split_once_prefix p r : split_once p (p +:+ r) = Some ("", r).
Proof.
  assert (strip_prefix p (p +:+ r) = Some r) as H by by apply strip_prefix_spec.
  destruct (p +:+ r); simpl; by rewrite H.
Qed.
