(* ===== verification/Channel.v ===== *)
(** * IPC channels

    Models [tauri/Source/ipc/channel.rs]: the data a command sends to a page
    over a channel waits in a queue under a fresh id, a script evaluated in the
    page fetches it by that id, and the command [fetch] hands it out. *)
From S2P Require Import Prelude Numbers.

(** The [http] package: the text of a header value, [None] when it is not
    visible ASCII. *)
Class HttpLib := { HeaderValue_to_str : string → option string }.

Module Channel.

Definition IPC_PAYLOAD_PREFIX : string := "__CHANNEL__:".
Definition CHANNEL_PLUGIN_NAME : string := "__TAURI_CHANNEL__".
Definition FETCH_CHANNEL_DATA_COMMAND : string := "plugin:__TAURI_CHANNEL__|fetch".
Definition CHANNEL_ID_HEADER_NAME : string := "Tauri-Channel-Id".

Inductive InvokeResponseBody :=
| Json (s : string)
| Raw (bytes : string).

(** [CallbackFn], a [u32]. *)
Abbreviation CallbackFn := N.

(** [AtomicU32] and [AtomicUsize] counters wrap around. *)
Definition fetch_add_u32 (n : N) : N := ((n + 1) `mod` 2 ^ 32)%N.
Definition fetch_add_usize (n : N) : N := ((n + 1) `mod` 2 ^ 64)%N.

(** The queue of an application, the counter of data ids, and the scripts
    evaluated so far, with the label of their webview. *)
Record Channels := mk_channels {
  queue : gmap N InvokeResponseBody;
  data_counter : N;
  evaluated : list (string * string);
}.

Definition Channels_default : Channels := mk_channels ∅ 0 [].

(** A channel made from an id of the page counts its messages. *)
Record JsChannel := mk_js_channel {
  callback_id : CallbackFn;
  counter : N;
}.

Definition serialize_channel (id : N) : string := IPC_PAYLOAD_PREFIX +:+ print_u32 id.

Definition JavaScriptChannelId_from_str (s : string) : outcome string CallbackFn :=
  '(_, id) ← ok_or (split_once IPC_PAYLOAD_PREFIX s) "invalid channel string";
  ok_or (parse_u32 id) "invalid channel ID".

Definition channel_on (id : CallbackFn) : JsChannel := mk_js_channel id 0.

(** What both kinds of channel do with a message: queue it, then evaluate the
    script that fetches it. The message stays queued when [eval] fails. *)
Definition enqueue (eval : string → string → bool) (label : string) (script : N → string)
    (body : InvokeResponseBody) (st : Channels) : bool * Channels :=
  let data_id := data_counter st in
  let js := script data_id in
  (eval label js,
   mk_channels (<[data_id := body]> (queue st)) (fetch_add_u32 data_id)
     (if eval label js then evaluated st ++ [(label, js)] else evaluated st)).

Definition fetch_script (data_id : N) (continuation : string) : string :=
  "window.__TAURI_INTERNALS__.invoke('" +:+ FETCH_CHANNEL_DATA_COMMAND +:+
  "', null, { headers: { '" +:+ CHANNEL_ID_HEADER_NAME +:+ "': '" +:+ print_u32 data_id +:+
  "' } }).then((response) => " +:+ continuation +:+ ").catch(console.error)".

(** The script of a message of a JavaScript channel, with its number. *)
Definition message_script (callback i data_id : N) : string :=
  fetch_script data_id ("window['_' + " +:+ print_u32 callback +:+ "]({ message: response, id: " +:+
                        print_u32 i +:+ " })").

(** The handler of [channel_on]. *)
Definition send_js (interceptor : option (string → CallbackFn → N → InvokeResponseBody → bool))
    (eval : string → string → bool) (label : string) (body : InvokeResponseBody)
    (ch : JsChannel) (st : Channels) : bool * JsChannel * Channels :=
  let i := counter ch in
  let ch := mk_js_channel (callback_id ch) (fetch_add_usize i) in
  if match interceptor with Some f => f label (callback_id ch) i body | None => false end
  then (true, ch, st)
  else
    let '(b, st) := enqueue eval label (message_script (callback_id ch) i) body st in
    (b, ch, st).

(** The handler of [from_callback_fn]. *)
Definition send_callback (eval : string → string → bool) (label : string) (callback : CallbackFn)
    (body : InvokeResponseBody) (st : Channels) : bool * Channels :=
  enqueue eval label
    (λ data_id, fetch_script data_id ("window['_' + " +:+ print_u32 callback +:+ "](response)"))
    body st.

(** The command of the channel plugin: [header] is the value of the header
    [Tauri-Channel-Id], if any. *)
Definition fetch `{HttpLib} (header : option string) (st : Channels)
    : outcome string InvokeResponseBody * Channels :=
  match (v ← header; s ← HeaderValue_to_str v; parse_u32 s) with
  | None => (Err "missing channel id header", st)
  | Some id =>
      match queue st !! id with
      | Some data => (Ok data, mk_channels (delete id (queue st)) (data_counter st) (evaluated st))
      | None => (Err "data not found", st)
      end
  end.

(** Sending a list of messages over a JavaScript channel. *)
Fixpoint send_all (eval : string → string → bool) (label : string) (bodies : list InvokeResponseBody)
    (ch : JsChannel) (st : Channels) : JsChannel * Channels :=
  match bodies with
  | [] => (ch, st)
  | body :: bodies =>
      let '(_, ch, st) := send_js None eval label body ch st in send_all eval label bodies ch st
  end.

(** ** Specification *)

(** Queued ids were handed out, and the counter did not wrap. *)
Definition ids_fresh (st : Channels) : Prop :=
  (Z.of_N (data_counter st) ≤ u32_max)%Z ∧ ∀ id, is_Some (queue st !! id) → (id < data_counter st)%N.

(** ** Lemmas *)
Lemma fetch_add_u32_small n : (Z.of_N n < u32_max)%Z → fetch_add_u32 n = (n + 1)%N.
Proof. unfold fetch_add_u32, u32_max. intros. apply N.mod_small. lia. Qed.

Lemma ids_fresh_free st : ids_fresh st → queue st !! data_counter st = None.
Proof.
  intros [_ H]. destruct (queue st !! data_counter st) eqn:Hq; [|done].
  specialize (H _ (ex_intro _ _ Hq)). lia.
Qed.

Lemma enqueue_fresh eval label script body st :
  ids_fresh st → (Z.of_N (data_counter st) < u32_max)%Z →
  let st' := (enqueue eval label script body st).2 in
  ids_fresh st' ∧ queue st' = <[data_counter st := body]> (queue st) ∧
  data_counter st' = (data_counter st + 1)%N.
Proof.
  intros [Hc Hids] Hlt. simpl. rewrite (fetch_add_u32_small _ Hlt). split_and!; [|done|done].
  split; simpl; [lia|]. intros id. rewrite lookup_insert_is_Some.
  intros [<-|[_ H]]; [lia|]. apply Hids in H. lia.
Qed.

Lemma fetch_queued `{HttpLib} id v s st data :
  HeaderValue_to_str v = Some s → parse_u32 s = Some id → queue st !! id = Some data →
  fetch (Some v) st = (Ok data, mk_channels (delete id (queue st)) (data_counter st) (evaluated st)).
Proof. intros Hv Hs Hq. unfold fetch. simpl. by rewrite Hv; simpl; rewrite Hs, Hq. Qed.

Lemma fetch_absent `{HttpLib} id v s st :
  HeaderValue_to_str v = Some s → parse_u32 s = Some id → queue st !! id = None →
  fetch (Some v) st = (Err "data not found", st).
Proof. intros Hv Hs Hq. unfold fetch. simpl. by rewrite Hv; simpl; rewrite Hs, Hq. Qed.

(** ** Properties *)

(** Data sent over a channel is delivered once: while fewer than 2^32
    messages were sent, the id of a message is unused, fetching with the id
    that its script carries gives the message back and leaves the queue as it
    was before, and fetching a second time fails. [HeaderValue_to_str] is the
    identity on the digits of an id. *)
Theorem channel_delivers_once `{HttpLib} eval label script body st :
  ids_fresh st → (Z.of_N (data_counter st) < u32_max)%Z →
  (∀ n, HeaderValue_to_str (print_u32 n) = Some (print_u32 n)) →
  let header := Some (print_u32 (data_counter st)) in
  let st1 := (enqueue eval label script body st).2 in
  ids_fresh st1 ∧ queue st !! data_counter st = None ∧
  ∃ st2, fetch header st1 = (Ok body, st2) ∧ queue st2 = queue st ∧
    fetch header st2 = (Err "data not found", st2).
Proof.
  intros Hst Hlt Hstr. pose proof (ids_fresh_free st Hst) as Hfree.
  destruct (enqueue_fresh eval label script body st Hst Hlt) as (Hst1 & Hq & _).
  assert (parse_u32 (print_u32 (data_counter st)) = Some (data_counter st)) as Hp
    by (apply parse_print_u32; lia).
  cbv zeta in *. split_and!; [exact Hst1|done|]. eexists. split_and!.
  - eapply fetch_queued; [apply Hstr|exact Hp|]. rewrite Hq. apply lookup_insert_eq.
  - simpl. by rewrite delete_insert_id.
  - eapply fetch_absent; [apply Hstr|exact Hp|]. simpl. apply lookup_delete_eq.
Qed.

(** The messages of a JavaScript channel are numbered in the order they are
    sent and all of them wait in the queue: sending a list of messages over a
    channel whose page evaluates scripts evaluates one script per message,
    numbered consecutively, and queues the messages under consecutive ids. *)
Theorem channel_messages_in_order eval label bodies ch st :
  (∀ js, eval label js = true) →
  ids_fresh st →
  (Z.of_N (data_counter st) + Z.of_nat (length bodies) ≤ u32_max)%Z →
  (Z.of_N (counter ch) + Z.of_nat (length bodies) < u64_modulus)%Z →
  let '(ch', st') := send_all eval label bodies ch st in
  evaluated st' = evaluated st ++
    imap (λ k _, (label, message_script (callback_id ch) (counter ch + N.of_nat k)
                           (data_counter st + N.of_nat k))) bodies ∧
  (∀ k body, bodies !! k = Some body → queue st' !! (data_counter st + N.of_nat k)%N = Some body) ∧
  (∀ id, (id < data_counter st)%N → queue st' !! id = queue st !! id) ∧
  counter ch' = (counter ch + N.of_nat (length bodies))%N ∧ ids_fresh st'.
Proof.
  intros Hev. revert ch st. induction bodies as [|body bodies IH]; intros ch st Hst Hd Hc; simpl.
  - rewrite app_nil_r, N.add_0_r. by split_and!.
  - simpl in Hd, Hc.
    destruct (enqueue_fresh eval label (message_script (callback_id ch) (counter ch)) body st Hst)
      as (Hst1 & Hq1 & Hd1); [lia|].
    assert (fetch_add_usize (counter ch) = (counter ch + 1)%N) as Hadd.
    { unfold fetch_add_usize. apply N.mod_small. unfold u64_modulus in Hc. lia. }
    specialize (IH (mk_js_channel (callback_id ch) (counter ch + 1)) _ Hst1).
    rewrite Hd1, Hq1 in IH. simpl in IH. rewrite Hev in IH. rewrite Hadd, Hev.
    destruct (send_all _ _ _ _ _) as [ch' st']. destruct IH as (He & Hb & Hold & Hct & Hf); [lia..|].
    split_and!; [| | | |done].
    + rewrite He, <-app_assoc. simpl. rewrite !N.add_0_r. do 2 f_equal. apply imap_ext.
      intros k b _. simpl. do 2 f_equal; lia.
    + intros [|k] b Hk; simpl in Hk.
      * simplify_eq. rewrite N.add_0_r, Hold by lia. apply lookup_insert_eq.
      * specialize (Hb k b Hk). replace (data_counter st + N.of_nat (S k))%N
          with (data_counter st + 1 + N.of_nat k)%N by lia. done.
    + intros id Hid. rewrite Hold by lia. apply lookup_insert_ne. lia.
    + rewrite Hct. lia.
Qed.

(** The text of a channel id is read back: every [u32] id survives
    serialization. The reader also accepts text before the prefix. *)
Theorem channel_id_roundtrip id junk :
  (Z.of_N id ≤ u32_max)%Z →
  JavaScriptChannelId_from_str (serialize_channel id) = Ok id ∧
  (split_once IPC_PAYLOAD_PREFIX (junk +:+ serialize_channel id) = Some (junk, print_u32 id) →
   JavaScriptChannelId_from_str (junk +:+ serialize_channel id) = Ok id).
Proof.
  intros Hid. unfold JavaScriptChannelId_from_str. split.
  - unfold serialize_channel. rewrite split_once_prefix. simpl. by rewrite parse_print_u32.
  - intros ->. simpl. by rewrite parse_print_u32.
Qed.

(** ** Witnesses *)
#[local] Instance ascii_http : HttpLib := {| HeaderValue_to_str s := Some s |}.

Lemma default_fresh : ids_fresh Channels_default.
Proof.
  split; [vm_compute; intros [=]|]. intros id [x Hx]. simpl in Hx. by rewrite lookup_empty in Hx.
Defined.

Lemma channel_delivers_once_witness :
  let st1 := (send_callback (λ _ _, true) "main" 7 (Json "[1]") Channels_default).2 in
  ids_fresh st1 ∧ fst (fetch (Some "0") st1) = Ok (Json "[1]").
Proof.
  destruct (channel_delivers_once (λ _ _, true) "main"
    (λ data_id, fetch_script data_id ("window['_' + " +:+ print_u32 7 +:+ "](response)"))
    (Json "[1]") Channels_default default_fresh ltac:(vm_compute; reflexivity) ltac:(reflexivity))
    as (H & _ & st2 & Hf & _).
  split; [exact H|]. vm_compute. reflexivity.
Defined.

Lemma channel_messages_in_order_witness :
  let st' := (send_all (λ _ _, true) "main" [Json "1"; Json "2"] (channel_on 3) Channels_default).2 in
  queue st' !! 1%N = Some (Json "2") ∧ length (evaluated st') = 2.
Proof.
  pose proof (channel_messages_in_order (λ _ _, true) "main" [Json "1"; Json "2"] (channel_on 3)
    Channels_default ltac:(reflexivity) default_fresh ltac:(vm_compute; intros [=])
    ltac:(vm_compute; reflexivity)) as H.
  destruct (send_all _ _ _ _ _) as [ch' st']. destruct H as (He & Hb & _).
  split; [exact (Hb 1 (Json "2") eq_refl)|]. simpl. rewrite He. reflexivity.
Defined.

Lemma channel_id_roundtrip_witness :
  JavaScriptChannelId_from_str ("junk" +:+ serialize_channel 42) = Ok 42%N.
Proof.
  apply (channel_id_roundtrip 42 "junk"); [vm_compute; intros [=]|vm_compute; reflexivity].
Defined.

End Channel.
