(* ===== verification/Ipc.v ===== *)
(** * Invocation of commands

    Models how a message of a page becomes the call of a command: the custom
    protocol and the post-message entry points of [tauri/Source/ipc/protocol.rs],
    the scripts of [ipc/format_callback.rs], and [Webview::on_message] with
    [is_local_url] of [webview/mod.rs], which checks the invoke key and asks the
    runtime authority. Desktop builds are modelled, the mobile plugins are not. *)
From Stdlib Require Import Ascii.
From S2P Require Import Prelude Numbers Identifier Acl Resolved State Authority Channel.
Import Identifier Acl Resolved Authority.

(** The [url] package. *)
Class UrlLib (UL : UrlPatternLib) := {
  Url_parse : string → option Url;
  Url_scheme : Url → string;
  Url_domain : Url → option string;
  Url_make_relative : Url → Url → option string;
}.

(** The [serde_json] and [mime] packages, the percent decoding of
    [percent_encoding], and [serialize_to_javascript]. A parse error is the
    text the package gives. *)
Class WebLib := {
  JsonValue : Type;
  json_from_slice : string → string + JsonValue;
  json_to_string : JsonValue → string;
  json_string : string → JsonValue;
  json_empty_object : JsonValue;
  raw_value : string → string + string;
  to_javascript : string → string;
  Mime : Type;
  Mime_eq_dec :: EqDecision Mime;
  Mime_parse : string → option Mime;
  Mime_to_string : Mime → string;
  APPLICATION_OCTET_STREAM : Mime;
  APPLICATION_JSON : Mime;
  TEXT_PLAIN : Mime;
  percent_decode_utf8_lossy : string → string;
}.

Module Ipc.

Section Ipc.
Context {GL : GlobLib} {UL : UrlPatternLib} {UR : UrlLib UL} {WL : WebLib} {HL : HttpLib}.
Context {Obj : Type}.

(** ** Requests and responses *)
Inductive InvokeBody :=
| BodyJson (v : JsonValue)
| BodyRaw (bytes : string).

(** A header is found under its name in any case; here each name has one
    spelling, the one it has where the source uses it. *)
Abbreviation HeaderMap := (gmap string string).

Record InvokeRequest := mk_invoke_request {
  cmd : string;
  callback : Channel.CallbackFn;
  error : Channel.CallbackFn;
  url : Url;
  body : InvokeBody;
  headers : HeaderMap;
  invoke_key : string;
}.

Inductive InvokeResponse :=
| ResponseOk (b : Channel.InvokeResponseBody)
| ResponseErr (e : JsonValue).

Inductive Method := POST | OPTIONS | OtherMethod.

Record HttpRequest := mk_http_request {
  method : Method;
  path : string;
  req_headers : HeaderMap;
  req_body : string;
}.

Record HttpResponse := mk_http_response {
  status : N;
  resp_headers : HeaderMap;
  resp_body : string;
}.

Definition TAURI_CALLBACK_HEADER_NAME : string := "Tauri-Callback".
Definition TAURI_ERROR_HEADER_NAME : string := "Tauri-Error".
Definition TAURI_INVOKE_KEY_HEADER_NAME : string := "Tauri-Invoke-Key".
Definition TAURI_RESPONSE_HEADER_NAME : string := "Tauri-Response".
Definition TAURI_RESPONSE_HEADER_ERROR : string := "error".
Definition TAURI_RESPONSE_HEADER_OK : string := "ok".

(** ** Parsing a request of the custom protocol *)

(** [headers.get(name).ok_or(missing)?.to_str().map_err(|_| not_text)?]. *)
Definition header_text (headers : HeaderMap) (name missing not_text : string)
    : outcome string string :=
  v ← ok_or (headers !! name) missing;
  ok_or (HeaderValue_to_str v) not_text.

Definition header_callback (headers : HeaderMap) (name missing not_text not_number : string)
    : outcome string Channel.CallbackFn :=
  s ← header_text headers name missing not_text;
  ok_or (parse_u32 s) not_number.

Definition content_type (headers : HeaderMap) : outcome string Mime :=
  match (v ← headers !! "content-type"; HeaderValue_to_str v) with
  | Some mime => ok_or (Mime_parse mime) "unknown content type"
  | None => Ok APPLICATION_OCTET_STREAM
  end.

(** [isolation] decrypts a payload when the application uses the isolation
    pattern. *)
Definition parse_body (content_type : Mime) (has_payload : bool) (body : string)
    : outcome string InvokeBody :=
  if decide (content_type = APPLICATION_OCTET_STREAM) then Ok (BodyRaw body)
  else if decide (content_type = APPLICATION_JSON) then
    if has_payload then
      match json_from_slice body with inl e => Err e | inr v => Ok (BodyJson v) end
    else Ok (BodyJson json_empty_object)
  else Err ("content type " +:+ Mime_to_string content_type +:+ " is not implemented").

Definition parse_invoke_request (isolation : option (string → string + string * Mime))
    (request : HttpRequest) : outcome string InvokeRequest :=
  let headers := req_headers request in
  let body := req_body request in
  cmd ← (match path request with
         | EmptyString => Panic "byte index 1 is out of bounds"
         | String _ rest => Ok (percent_decode_utf8_lossy rest)
         end);
  let has_payload := negb (bool_decide (body = "")) in
  content_type ← content_type headers;
  '(body, content_type) ←
    (match isolation with
     | Some decrypt =>
         if has_payload then match decrypt body with inl e => Err e | inr p => Ok p end
         else Ok (body, content_type)
     | None => Ok (body, content_type)
     end);
  invoke_key ← header_text headers TAURI_INVOKE_KEY_HEADER_NAME
                 "missing Tauri-Invoke-Key header" "Tauri invoke key header value must be a string";
  origin ← header_text headers "origin" "missing Origin header" "Origin header value must be a string";
  url ← ok_or (Url_parse origin) "Origin header is not a valid URL";
  callback ← header_callback headers TAURI_CALLBACK_HEADER_NAME "missing Tauri-Callback header"
               "Tauri callback header value must be a string"
               "Tauri callback header value must be a numeric string";
  error ← header_callback headers TAURI_ERROR_HEADER_NAME "missing Tauri-Error header"
            "Tauri error header value must be a string"
            "Tauri error header value must be a numeric string";
  body ← parse_body content_type has_payload body;
  Ok (mk_invoke_request cmd callback error url body headers invoke_key).

(** ** The application, as a message sees it *)
Record Webview := mk_webview {
  label : string;
  window_label : string;
}.

(** [windows_like] is a build for Windows or Android; [base_path] the URL of
    the development server or of the distributed frontend. *)
Record Manager := mk_manager {
  windows_like : bool;
  debug_assertions : bool;
  base_path : option Url;
  uri_scheme_protocols : gset string;
  manager_invoke_key : string;
  runtime_authority : RuntimeAuthority GL UL Obj;
  webviews_of : gmap string Webview;
}.

Definition protocol_url (m : Manager) (https : bool) : outcome Empty_set Url :=
  let text :=
    if windows_like m then (if https then "https" else "http") +:+ "://tauri.localhost"
    else "tauri://localhost" in
  expect (Url_parse text) "called `Result::unwrap()` on an `Err` value".

Definition get_url (m : Manager) (https : bool) : outcome Empty_set Url :=
  match base_path m with Some url => Ok url | None => protocol_url m https end.

(** [unwrap_or_default().0] of the first part of the domain. *)
Definition first_label (domain : option string) : string :=
  match domain ≫= split_once "." with Some (a, _) => a | None => "" end.

Definition is_local_url (m : Manager) (current_url : Url) : outcome Empty_set bool :=
  let uses_https := bool_decide (Url_scheme current_url = "https") in
  protocol ← protocol_url m uses_https;
  if bool_decide (Url_scheme current_url = Url_scheme protocol) &&
     bool_decide (Url_domain current_url = Url_domain protocol) then Ok true
  else
    base ← get_url m uses_https;
    if bool_decide (is_Some (Url_make_relative base current_url)) then Ok true
    else
      let scheme := Url_scheme current_url in
      if windows_like m then
        let maybe_protocol := first_label (Url_domain current_url) in
        Ok (bool_decide (maybe_protocol ∈ uri_scheme_protocols m) &&
            bool_decide (scheme = Url_scheme protocol))
      else Ok (bool_decide (scheme ∈ uri_scheme_protocols m)).

(** ** Handling a message *)
Record Invoke := mk_invoke {
  invoke_command : string;
  invoke_payload : InvokeBody;
  invoke_headers : HeaderMap;
  invoke_acl : option (list (ResolvedCommand GL UL));
}.

(** What a message makes happen, in order. *)
Inductive Action :=
| CallPlugin (plugin : string) (invoke : Invoke)
| CallApp (invoke : Invoke)
| Respond (r : InvokeResponse).

(** A handler answers whether it knows the command, and may have used the
    resolver already. *)
Record Handled := mk_handled {
  handled : bool;
  responded : option InvokeResponse;
}.

(** [InvokeResolver::reject]: the responder is taken once. *)
Definition reject (consumed : bool) (msg : string) : outcome Empty_set (list Action) :=
  if consumed then Panic "resolver consumed" else Ok [Respond (ResponseErr (json_string msg))].

(** After the call of a handler: its answer, then the rejection of a command it
    does not know. *)
Definition after_call (call : Action) (h : Handled) (command : string)
    : outcome Empty_set (list Action) :=
  let answer := match responded h with Some r => [Respond r] | None => [] end in
  tail ← (if handled h then Ok []
          else reject (bool_decide (is_Some (responded h))) ("Command " +:+ command +:+ " not found"));
  Ok (call :: answer ++ tail).

Definition plugin_command (cmd : string) : option (string * string) :=
  raw_command ← strip_prefix "plugin:" cmd;
  match split_on "|" raw_command with
  | [] => None
  | plugin :: tokens => Some (plugin, default "" (head tokens))
  end.

Definition acl_origin (is_local : bool) (url : Url) : Origin :=
  if is_local then OriginLocal else OriginRemote url.

Definition on_message (fuel : nat) (m : Manager) (extend_api : string → Invoke → Handled)
    (invoke_handler : Invoke → Handled) (w : Webview) (request : InvokeRequest)
    : outcome Empty_set (list Action) :=
  is_local ← is_local_url m (url request);
  if decide (invoke_key request ≠ manager_invoke_key m) then Ok []
  else
    let origin := acl_origin is_local (url request) in
    let resolved_acl :=
      resolve_access (runtime_authority m) (cmd request) (window_label w) (label w) origin in
    let has_app_acl_manifest := has_app_manifest (runtime_authority m) in
    let invoke := mk_invoke (cmd request) (body request) (headers request) resolved_acl in
    let plugin_command := plugin_command (cmd request) in
    if (bool_decide (is_Some plugin_command) || has_app_acl_manifest) &&
       negb (bool_decide (cmd request = Channel.FETCH_CHANNEL_DATA_COMMAND)) &&
       bool_decide (resolved_acl = None) then
      if debug_assertions m then
        let '(key, command_name) := default (APP_ACL_KEY, cmd request) plugin_command in
        msg ← resolve_access_message fuel (runtime_authority m) key command_name
                (window_label w) (label w) origin;
        reject false msg
      else reject false ("Command " +:+ cmd request +:+ " not allowed by ACL")
    else
      match plugin_command with
      | Some (plugin, command_name) =>
          let invoke := mk_invoke command_name (body request) (headers request) resolved_acl in
          after_call (CallPlugin plugin invoke) (extend_api plugin invoke) command_name
      | None => after_call (CallApp invoke) (invoke_handler invoke) (cmd request)
      end.

(** ** The custom protocol *)

(** The headers every response gets. *)
Definition respond (r : HttpResponse) : HttpResponse :=
  mk_http_response (status r)
    (<["access-control-expose-headers" := TAURI_RESPONSE_HEADER_NAME]>
       (<["access-control-allow-origin" := "*"]> (resp_headers r)))
    (resp_body r).

Definition http_response (r : InvokeResponse) : HttpResponse :=
  let response_header :=
    match r with ResponseOk _ => TAURI_RESPONSE_HEADER_OK | ResponseErr _ => TAURI_RESPONSE_HEADER_ERROR end in
  let '(response, mime_type) :=
    match r with
    | ResponseOk (Channel.Json v) => (mk_http_response 200 ∅ v, APPLICATION_JSON)
    | ResponseOk (Channel.Raw v) => (mk_http_response 200 ∅ v, APPLICATION_OCTET_STREAM)
    | ResponseErr e => (mk_http_response 200 ∅ (json_to_string e), APPLICATION_JSON)
    end in
  mk_http_response (status response)
    (<["content-type" := Mime_to_string mime_type]>
       (<[TAURI_RESPONSE_HEADER_NAME := response_header]> (resp_headers response)))
    (resp_body response).

Definition plain_text (status : N) (text : string) : HttpResponse :=
  mk_http_response status {[ "content-type" := Mime_to_string TEXT_PLAIN ]} text.

(** Calls of handlers and responses, in order. *)
Inductive Effect :=
| Call (a : Action)
| Answer (r : HttpResponse).

Definition effect_of (a : Action) : Effect :=
  match a with Respond r => Answer (respond (http_response r)) | a => Call a end.

Definition get (fuel : nat) (m : Manager) (isolation : option (string → string + string * Mime))
    (extend_api : string → Invoke → Handled) (invoke_handler : Invoke → Handled)
    (webview_label : string) (request : HttpRequest) : outcome Empty_set (list Effect) :=
  match method request with
  | POST =>
      match webviews_of m !! webview_label with
      | Some webview =>
          match parse_invoke_request isolation request with
          | Ok request =>
              acts ← on_message fuel m extend_api invoke_handler webview request;
              Ok (map effect_of acts)
          | Err e => Ok [Answer (respond (plain_text 500 e))]
          | Panic msg => Panic msg
          | Diverge => Diverge
          end
      | None => Ok [Answer (respond (plain_text 500 "failed to acquire webview reference"))]
      end
  | OPTIONS =>
      Ok [Answer (respond (mk_http_response 200 {[ "access-control-allow-headers" := "*" ]} ""))]
  | OtherMethod => Ok [Answer (respond (plain_text 405 "only POST and OPTIONS are allowed"))]
  end.

(** ** Scripts that answer a page *)
Definition MAX_JSON_STR_LEN : Z := 2 ^ 30 - 2.
Definition MIN_JSON_PARSE_LEN : Z := 10240.

(** An error of [serde_json], with its text. *)
Inductive FormatError := JsonError (text : string).

Definition FormatError_to_string (e : FormatError) : string :=
  match e with JsonError text => "JSON error: " +:+ text end.

Definition str_len (s : string) : Z := Z.of_nat (String.length s).

Definition serialize_js_with (debug : bool) (json_string : string) (cb : string → string)
    : outcome FormatError string :=
  json ← (match raw_value json_string with inl e => Err (JsonError e) | inr json => Ok json end);
  match json with
  | EmptyString => Panic "index out of bounds"
  | String first _ =>
      if debug && bool_decide (first = "034"%char) && negb (str_len json <? MAX_JSON_STR_LEN)%Z
      then Panic "passing a string larger than the max JavaScript literal string size"
      else if (MIN_JSON_PARSE_LEN <? str_len json)%Z &&
              (bool_decide (first = "{"%char) || bool_decide (first = "["%char)) then
        let serialized := to_javascript json in
        if (str_len serialized <? MAX_JSON_STR_LEN)%Z then Ok (cb serialized) else Ok (cb json)
      else Ok (cb json)
  end.

(** The call of a callback of the page, guarded by its presence. *)
Definition callback_script (fn : Channel.CallbackFn) (arg : string) : string :=
  let name := "window[" +:+ quoted ("_" +:+ print_u32 fn) +:+ "]" in
  newline +:+ "    if (" +:+ name +:+ ") {" +:+ newline +:+ "      " +:+ name +:+ "(" +:+ arg +:+ ")" +:+
  newline +:+ "    } else {" +:+ newline +:+ "      console.warn(" +:+
  quoted ("[TAURI] Couldn't find callback id " +:+ print_u32 fn +:+
          " in window. This happens when the app is reloaded while Rust is running an asynchronous operation.")
  +:+ ")" +:+ newline +:+ "    }".

Definition format_raw (debug : bool) (function_name : Channel.CallbackFn) (json_string : string)
    : outcome FormatError string :=
  serialize_js_with debug json_string (callback_script function_name).

(** The argument is given as its JSON text. *)
Definition format_result_raw (debug : bool) (raw_result : string + string)
    (success_callback error_callback : Channel.CallbackFn) : outcome FormatError string :=
  match raw_result with
  | inr res => format_raw debug success_callback res
  | inl err => format_raw debug error_callback err
  end.

(** ** The post-message entry point *)
Record Message := mk_message {
  msg_cmd : string;
  msg_callback : Channel.CallbackFn;
  msg_error : Channel.CallbackFn;
  msg_payload : JsonValue;
  msg_headers : HeaderMap;
  custom_protocol_ipc_blocked : bool;
  msg_invoke_key : string;
}.

(** [responder_eval]: a script that could not be formatted is replaced by the
    call of the error callback; a failed evaluation is ignored. *)
Definition responder_eval (debug : bool) (eval : string → string → bool) (webview_label : string)
    (js : outcome FormatError string) (error : Channel.CallbackFn) (st : Channel.Channels)
    : outcome Empty_set Channel.Channels :=
  eval_js ←
    (match js with
     | Ok js => Ok js
     | Err e =>
         match format_raw debug error (json_to_string (json_string (FormatError_to_string e))) with
         | Ok js => Ok js
         | Err _ => Panic "unable to serialize response error string to json"
         | Panic msg => Panic msg
         | Diverge => Diverge
         end
     | Panic msg => Panic msg
     | Diverge => Diverge
     end);
  Ok (if eval webview_label eval_js
      then Channel.mk_channels (Channel.queue st) (Channel.data_counter st)
             (Channel.evaluated st ++ [(webview_label, eval_js)])
      else st).

(** The responder of a posted message. [apple] is a build for macOS or iOS;
    [raw_json] the JSON text of a byte array. *)
Definition post_respond (apple debug : bool) (raw_json : string → string)
    (eval : string → string → bool) (webview_label : string) (message : Message)
    (response : InvokeResponse) (st : Channel.Channels) : outcome Empty_set Channel.Channels :=
  let callback := msg_callback message in
  let error := msg_error message in
  let can_use_channel_for_response :=
    negb (bool_decide (msg_cmd message = Channel.FETCH_CHANNEL_DATA_COMMAND)) &&
    negb (custom_protocol_ipc_blocked message) in
  match response with
  | ResponseOk (Channel.Json v) =>
      if negb apple && (starts_with "{" v || starts_with "[" v) && can_use_channel_for_response
      then Ok (Channel.send_callback eval webview_label callback (Channel.Json v) st).2
      else responder_eval debug eval webview_label
             (format_result_raw debug (inr v) callback error) error st
  | ResponseOk (Channel.Raw v) =>
      if apple || negb can_use_channel_for_response
      then responder_eval debug eval webview_label
             (format_result_raw debug (inr (raw_json v)) callback error) error st
      else Ok (Channel.send_callback eval webview_label callback (Channel.Raw v) st).2
  | ResponseErr e =>
      responder_eval debug eval webview_label
        (format_result_raw debug (inl (json_to_string e)) callback error) error st
  end.

(** What a posted message makes happen: the actions of [on_message], or a
    script that reports the parse error. [parse_message] reads the JSON text
    (and decrypts it under the isolation pattern). *)
Definition handle_ipc_message (fuel : nat) (m : Manager) (parse_message : string → string + Message)
    (extend_api : string → Invoke → Handled) (invoke_handler : Invoke → Handled)
    (webview_label uri request_body : string) : outcome Empty_set (list Action + string) :=
  match webviews_of m !! webview_label with
  | None => Ok (inl [])
  | Some webview =>
      match parse_message request_body with
      | inr message =>
          url ← expect (Url_parse uri) "invalid IPC request URL";
          acts ← on_message fuel m extend_api invoke_handler webview
                   (mk_invoke_request (msg_cmd message) (msg_callback message) (msg_error message)
                      url (BodyJson (msg_payload message)) (msg_headers message)
                      (msg_invoke_key message));
          Ok (inl acts)
      | inl e => Ok (inr ("console.error(" +:+ json_to_string (json_string e) +:+ ")"))
      end
  end.

(** ** Specification *)

(** A message was let through: its key is the application's, and unless the
    command needs no access control the authority granted it. *)
Definition authorized (m : Manager) (w : Webview) (request : InvokeRequest)
    (origin : Origin) (acl : option (list (ResolvedCommand GL UL))) : Prop :=
  invoke_key request = manager_invoke_key m ∧
  acl = resolve_access (runtime_authority m) (cmd request) (window_label w) (label w) origin ∧
  (is_Some acl ∨ cmd request = Channel.FETCH_CHANNEL_DATA_COMMAND ∨
   (strip_prefix "plugin:" (cmd request) = None ∧ has_app_manifest (runtime_authority m) = false)).

Definition is_call (a : Action) : option Invoke :=
  match a with CallPlugin _ i | CallApp i => Some i | Respond _ => None end.

(** ** Lemmas *)
Lemma split_bytes_join sep l :
  ∃ p ps, split_bytes sep l = p :: ps ∧ l = p ++ mjoin ((λ q, sep :: q) <$> ps).
Proof.
  induction l as [|c l IH]; simpl; [by exists [], []|].
  destruct IH as (p & ps & Hs & Hl). case_decide as Hc.
  - exists [], (split_bytes sep l). split; [done|]. rewrite Hs. simpl. by f_equal.
  - exists (c :: p), ps. rewrite Hs. split; [done|]. simpl. by f_equal.
Qed.

(** The plugin and the command of a message are the first two parts of its
    text. *)
Lemma plugin_command_text cmd p c :
  plugin_command cmd = Some (p, c) →
  (cmd = "plugin:" +:+ p ∧ c = "") ∨ ∃ rest, cmd = "plugin:" +:+ p +:+ "|" +:+ c +:+ rest.
Proof.
  unfold plugin_command. destruct (strip_prefix "plugin:" cmd) as [raw|] eqn:Hs; simpl; [|done].
  apply strip_prefix_spec in Hs. subst cmd. unfold split_on.
  destruct (split_bytes_join "|" (bytes raw)) as (l & ls & -> & Hraw). simpl. intros [= <- <-].
  assert (raw = of_bytes l +:+ of_bytes (mjoin ((λ q, "|"%char :: q) <$> ls))) as ->.
  { rewrite <-of_bytes_append, <-Hraw. by rewrite of_bytes_bytes. }
  destruct ls as [|q qs]; simpl.
  - left. split; [|done]. f_equal. apply bytes_inj. by rewrite bytes_append, app_nil_r.
  - right. exists (of_bytes (mjoin ((λ q, "|"%char :: q) <$> qs))).
    rewrite of_bytes_append. done.
Qed.

Lemma plugin_command_None cmd : plugin_command cmd = None ↔ strip_prefix "plugin:" cmd = None.
Proof.
  unfold plugin_command. destruct (strip_prefix "plugin:" cmd) as [raw|]; simpl; [|done].
  unfold split_on. destruct (split_bytes_join "|" (bytes raw)) as (l & ls & -> & _). done.
Qed.

Lemma reject_no_call consumed msg acts a :
  reject consumed msg = Ok acts → a ∈ acts → is_call a = None.
Proof.
  unfold reject. destruct consumed; [done|]. intros [= <-] Ha.
  apply list_elem_of_singleton in Ha. by subst.
Qed.

Lemma after_call_calls call h command acts a i :
  after_call call h command = Ok acts → a ∈ acts → is_call a = Some i → a = call.
Proof.
  unfold after_call. intros H Ha Hi. apply bind_ok in H as (tail & Ht & [= <-]).
  apply elem_of_cons in Ha as [->|Ha]; [done|]. apply elem_of_app in Ha as [Ha|Ha].
  - destruct (responded h); [|by apply not_elem_of_nil in Ha].
    apply list_elem_of_singleton in Ha. by subst.
  - destruct (handled h); [simplify_eq; by apply not_elem_of_nil in Ha|].
    by rewrite (reject_no_call _ _ _ _ Ht Ha) in Hi.
Qed.

(** The access check of [on_message]. *)
Definition needs_acl (m : Manager) (request : InvokeRequest) : bool :=
  (bool_decide (is_Some (plugin_command (cmd request))) || has_app_manifest (runtime_authority m)) &&
  negb (bool_decide (cmd request = Channel.FETCH_CHANNEL_DATA_COMMAND)).

Lemma needs_acl_false m request :
  needs_acl m request = false →
  cmd request = Channel.FETCH_CHANNEL_DATA_COMMAND ∨
  (strip_prefix "plugin:" (cmd request) = None ∧ has_app_manifest (runtime_authority m) = false).
Proof.
  unfold needs_acl. rewrite andb_false_iff, negb_false_iff, orb_false_iff, bool_decide_eq_true,
    bool_decide_eq_false, <-eq_None_not_Some, plugin_command_None. tauto.
Qed.

(** The outcome of [on_message] once the origin is known: nothing, a rejection,
    or the call of one handler. *)
Lemma on_message_cases fuel m ext ih w request acts :
  on_message fuel m ext ih w request = Ok acts →
  ∃ is_local, is_local_url m (url request) = Ok is_local ∧
    let origin := acl_origin is_local (url request) in
    let acl := resolve_access (runtime_authority m) (cmd request) (window_label w) (label w) origin in
    (invoke_key request ≠ manager_invoke_key m ∧ acts = []) ∨
    (invoke_key request = manager_invoke_key m ∧ needs_acl m request = true ∧ acl = None ∧
       ∃ e, acts = [Respond (ResponseErr e)]) ∨
    (invoke_key request = manager_invoke_key m ∧ (needs_acl m request = false ∨ is_Some acl) ∧
       ∃ call h c i, after_call call h c = Ok acts ∧ is_call call = Some i ∧ invoke_acl i = acl ∧
         match call with
         | CallPlugin p i => plugin_command (cmd request) = Some (p, invoke_command i)
         | _ => plugin_command (cmd request) = None ∧ invoke_command i = cmd request
         end).
Proof.
  unfold on_message. intros H. apply bind_ok in H as (is_local & Hl & H). exists is_local.
  split; [done|]. set (origin := acl_origin is_local (url request)) in *. cbv zeta in *.
  set (acl := resolve_access _ _ _ _ _) in *. case_decide as Hkey; [left; naive_solver|right].
  assert (invoke_key request = manager_invoke_key m) as Hk
    by (destruct (decide (invoke_key request = manager_invoke_key m)); [done|naive_solver]).
  fold (needs_acl m request) in H. destruct (needs_acl m request && bool_decide (acl = None)) eqn:Hn.
  - apply andb_true_iff in Hn as [Hn Ha]. apply bool_decide_eq_true in Ha.
    left. split_and!; [done|done|done|]. destruct (debug_assertions m); [|simpl in H; naive_solver].
    destruct (default _ _) as [key name]. apply bind_ok in H as (msg & _ & H). simpl in H. naive_solver.
  - right. split_and!; [done| |].
    + apply andb_false_iff in Hn as [?|Ha]; [by left|]. right.
      apply bool_decide_eq_false in Ha. destruct acl; [by eexists|done].
    + destruct (plugin_command (cmd request)) as [[p c]|] eqn:Hp; do 4 eexists; by split_and!.
Qed.

(** ** Properties *)

(** A request that carries what the protocol needs, and the invocation it is. *)
Record well_formed_request (req : HttpRequest) (r : InvokeRequest) : Prop := {
  wf_cmd : ∃ c rest, path req = String c rest ∧ cmd r = percent_decode_utf8_lossy rest;
  wf_body : ∃ mime, content_type (req_headers req) = Ok mime ∧
    parse_body mime (negb (bool_decide (req_body req = ""))) (req_body req) = Ok (body r);
  wf_key : ∃ v, req_headers req !! TAURI_INVOKE_KEY_HEADER_NAME = Some v ∧
    HeaderValue_to_str v = Some (invoke_key r);
  wf_url : ∃ v o, req_headers req !! "origin" = Some v ∧ HeaderValue_to_str v = Some o ∧
    Url_parse o = Some (url r);
  wf_callback : ∃ v s, req_headers req !! TAURI_CALLBACK_HEADER_NAME = Some v ∧
    HeaderValue_to_str v = Some s ∧ parse_u32 s = Some (callback r);
  wf_error : ∃ v s, req_headers req !! TAURI_ERROR_HEADER_NAME = Some v ∧
    HeaderValue_to_str v = Some s ∧ parse_u32 s = Some (error r);
  wf_headers : headers r = req_headers req;
}.

Lemma header_text_ok h name e1 e2 s :
  header_text h name e1 e2 = Ok s ↔ ∃ v, h !! name = Some v ∧ HeaderValue_to_str v = Some s.
Proof.
  unfold header_text. rewrite bind_ok. setoid_rewrite ok_or_ok. done.
Qed.

Lemma header_callback_ok h name e1 e2 e3 n :
  header_callback h name e1 e2 e3 = Ok n ↔
  ∃ v s, h !! name = Some v ∧ HeaderValue_to_str v = Some s ∧ parse_u32 s = Some n.
Proof.
  unfold header_callback. rewrite bind_ok. setoid_rewrite header_text_ok. setoid_rewrite ok_or_ok.
  naive_solver.
Qed.

(** The custom protocol accepts exactly the requests that carry a command
    path, a known content type with a body of that type, an invoke key, a valid
    origin and two numeric callback ids, and the invocation has those values. *)
Theorem parse_invoke_request_accepts req r :
  parse_invoke_request None req = Ok r ↔ well_formed_request req r.
Proof.
  unfold parse_invoke_request. split.
  - intros H. apply bind_ok in H as (command & Hcmd & H). apply bind_ok in H as (mime & Hmime & H).
    simpl in H. apply bind_ok in H as (key & Hkey%header_text_ok & H).
    apply bind_ok in H as (origin & Horigin%header_text_ok & H).
    apply bind_ok in H as (u & Hurl%ok_or_ok & H).
    apply bind_ok in H as (cb & Hcb%header_callback_ok & H).
    apply bind_ok in H as (er & Her%header_callback_ok & H).
    apply bind_ok in H as (b & Hb & [= <-]).
    constructor; simpl; [|by exists mime|done| |done|done|done].
    + destruct (path req) as [|c rest]; [done|]. exists c, rest. naive_solver.
    + destruct Horigin as (v & ? & ?). by exists v, origin.
  - intros [(c & rest & Hp & Hc) (mime & Hm & Hb) Hk (v & o & Hv & Ho & Hu) Hcb Her Hh].
    rewrite Hp. simpl. rewrite Hm. simpl.
    rewrite (proj2 (header_text_ok _ _ _ _ _) Hk). simpl.
    rewrite (proj2 (header_text_ok _ _ _ _ o)) by (by exists v). simpl. rewrite Hu. simpl.
    rewrite (proj2 (header_callback_ok _ _ _ _ _ _) Hcb). simpl.
    rewrite (proj2 (header_callback_ok _ _ _ _ _ _) Her). simpl.
    rewrite Hb. simpl. rewrite <-Hc, <-Hh. by destruct r.
Qed.

(** C4. Every call of a handler is authorized. A message with a wrong key does
    nothing; any other message either reaches one handler, for the plugin and
    the command its text names, and only when the key is right and the
    authority granted it (or the command needs no access control), or is
    answered with exactly one rejection. *)
Theorem on_message_authorized fuel m ext ih w request acts :
  on_message fuel m ext ih w request = Ok acts →
  (invoke_key request ≠ manager_invoke_key m → acts = []) ∧
  (∀ a i, a ∈ acts → is_call a = Some i →
     ∃ is_local, is_local_url m (url request) = Ok is_local ∧
       authorized m w request (acl_origin is_local (url request)) (invoke_acl i) ∧
       match a with
       | CallPlugin p _ =>
           (cmd request = "plugin:" +:+ p ∧ invoke_command i = "") ∨
           ∃ rest, cmd request = "plugin:" +:+ p +:+ "|" +:+ invoke_command i +:+ rest
       | _ => strip_prefix "plugin:" (cmd request) = None ∧ invoke_command i = cmd request
       end) ∧
  (invoke_key request = manager_invoke_key m → (∀ a, a ∈ acts → is_call a = None) →
     ∃ e, acts = [Respond (ResponseErr e)]).
Proof.
  intros H. apply on_message_cases in H as (is_local & Hl & Hcases). cbv zeta in Hcases.
  destruct Hcases as [[Hk ->]|[(Hk & Hn & Ha & e & ->)|(Hk & Hn & call & h & c & i & Hac & Hi & Hacl & Hp)]].
  - split_and!; [done| |done]. intros a i Hin. by apply not_elem_of_nil in Hin.
  - split_and!; [done| |by exists e]. intros a i Hin. apply list_elem_of_singleton in Hin. by subst.
  - split_and!; [done| |].
    + intros a i' Hin Hi'. pose proof (after_call_calls _ _ _ _ _ _ Hac Hin Hi') as ->.
      rewrite Hi in Hi'. simplify_eq. exists is_local. split_and!; [done| |].
      * split_and!; [done|done|]. rewrite Hacl. destruct Hn as [Hn|Hn]; [right|by left].
        by apply needs_acl_false.
      * destruct call as [p i0|i0|]; simpl in Hi; simplify_eq.
        -- by apply plugin_command_text.
        -- by rewrite <-plugin_command_None.
    + intros _ Hno. exfalso. unfold after_call in Hac. apply bind_ok in Hac as (tail & _ & [= <-]).
      specialize (Hno call ltac:(left)). congruence.
Qed.

(** C1. From the page to the capability: when the authority of the application
    is the one built from its resolved access control list, with nothing added
    to it since, a plugin command other than the fetch of channel data runs only
    if an active capability contributes a permission that allows exactly this
    command for the origin and the window or webview of the message, and no
    contributed permission denies it. The data of a channel is fetched without a
    permission. *)
Theorem plugin_call_is_permitted fuel m ext ih w request acts p i rfuel acl caps target r :
  on_message fuel m ext ih w request = Ok acts →
  CallPlugin p i ∈ acts → cmd request ≠ Channel.FETCH_CHANNEL_DATA_COMMAND →
  resolve rfuel acl caps target = Ok r → runtime_authority m = RuntimeAuthority_new acl r →
  ∃ is_local l, is_local_url m (url request) = Ok is_local ∧
    contributions rfuel acl target (active_capabilities caps target) = Ok l ∧
    (∃ c rp, (c, rp) ∈ l ∧ lists commands_allow rp (cmd request) ∧
       capability_admits c (window_label w) (label w) (acl_origin is_local (url request))) ∧
    ¬ (∃ c rp, (c, rp) ∈ l ∧ lists commands_deny rp (cmd request) ∧ capability_applies c).
Proof.
  intros H Hin Hfetch Hr Hra. apply on_message_cases in H as (is_local & Hl & Hcases).
  cbv zeta in Hcases. exists is_local.
  destruct Hcases as [[_ ->]|[(_ & _ & _ & e & ->)|(_ & Hn & call & h & c & i' & Hac & _ & _ & Hp)]];
    [by apply not_elem_of_nil in Hin|by apply list_elem_of_singleton in Hin|].
  pose proof (after_call_calls _ _ _ _ _ _ Hac Hin eq_refl) as <-.
  destruct Hn as [Hn|[l' Hacc]].
  { apply needs_acl_false in Hn as [?|[Hpc _]]; [done|].
    apply plugin_command_None in Hpc. congruence. }
  rewrite Hra in Hacc. apply resolve_access_granted in Hacc as (Hd & Hg & Hne). simpl in Hd, Hg.
  pose proof (resolve_state _ _ _ _ _ Hr) as (l & _ & Hcl & _). exists l.
  split_and!; [done|done| |].
  - eapply resolved_granted; [exact Hr|exact Hcl|]. by rewrite <-Hg.
  - by eapply resolved_denied.
Qed.

(** C38. What the custom protocol answers: every response may be read by the
    page (its origin and the response header are exposed); a request that is
    neither POST nor OPTIONS, names no webview or does not parse is answered
    once, with its status, and calls no handler; the response header tells a
    resolved command from a rejected one. *)
Theorem protocol_responses fuel m iso ext ih lbl req effs :
  get fuel m iso ext ih lbl req = Ok effs →
  (∀ r, Answer r ∈ effs →
     resp_headers r !! "access-control-allow-origin" = Some "*" ∧
     resp_headers r !! "access-control-expose-headers" = Some TAURI_RESPONSE_HEADER_NAME) ∧
  (method req = OPTIONS → ∃ r, effs = [Answer r] ∧ status r = 200%N) ∧
  (method req = OtherMethod → ∃ r, effs = [Answer r] ∧ status r = 405%N) ∧
  (method req = POST →
     webviews_of m !! lbl = None ∨ (∃ e, parse_invoke_request iso req = Err e) →
     ∃ r, effs = [Answer r] ∧ status r = 500%N) ∧
  (∀ r, resp_headers (respond (http_response r)) !! TAURI_RESPONSE_HEADER_NAME =
     Some (match r with ResponseOk _ => "ok" | ResponseErr _ => "error" end)).
Proof.
  intros H.
  assert (∀ r, resp_headers (respond r) !! "access-control-allow-origin" = Some "*" ∧
     resp_headers (respond r) !! "access-control-expose-headers" = Some TAURI_RESPONSE_HEADER_NAME) as Hcors.
  { intros r. unfold respond. simpl. rewrite lookup_insert_ne, !lookup_insert_eq by done. done. }
  assert (∀ r, ∃ h, respond (http_response r) = respond h) as Hresp by eauto.
  split_and!.
  - intros r Hr. unfold get in H. destruct (method req); [|simplify_eq; apply list_elem_of_singleton in Hr; simplify_eq; apply Hcors..].
    destruct (webviews_of m !! lbl); [|simplify_eq; apply list_elem_of_singleton in Hr; simplify_eq; apply Hcors].
    destruct (parse_invoke_request iso req) as [q|e| |]; try done;
      [|simplify_eq; apply list_elem_of_singleton in Hr; simplify_eq; apply Hcors].
    apply bind_ok in H as (acts & _ & [= <-]). apply list_elem_of_In, in_map_iff in Hr as (a & Ha & _).
    destruct a; simplify_eq/=. apply Hcors.
  - intros Hm. unfold get in H. rewrite Hm in H. injection H as <-. by eexists.
  - intros Hm. unfold get in H. rewrite Hm in H. injection H as <-. by eexists.
  - intros Hm Hor. unfold get in H. rewrite Hm in H.
    destruct (webviews_of m !! lbl); [|injection H as <-; by eexists].
    destruct Hor as [?|[e He]]; [done|]. rewrite He in H. injection H as <-. by eexists.
  - intros r. unfold respond. simpl. rewrite !lookup_insert_ne by done.
    destruct r as [[]|]; simpl; rewrite lookup_insert_ne, lookup_insert_eq by done; done.
Qed.

End Ipc.
Arguments Manager : clear implicits.
Arguments Manager GL UL Obj : rename.

(** ** A running application *)
#[local] Existing Instances literal_glob literal_url Channel.ascii_http.

#[local] Instance literal_url_lib : UrlLib literal_url := {|
  Url_parse s := if decide (s = "") then None else Some s;
  Url_scheme u := match split_once "://" u with Some (a, _) => a | None => "" end;
  Url_domain u := snd <$> split_once "://" u;
  Url_make_relative a b := if decide (a = b) then Some "" else None;
|}.

#[local] Instance text_web : WebLib := {|
  JsonValue := string;
  json_from_slice s := if decide (s = "") then inl "EOF" else inr s;
  json_to_string s := s;
  json_string s := s;
  json_empty_object := "{}";
  raw_value s := if decide (s = "") then inl "EOF" else inr s;
  to_javascript s := "JSON.parse('" +:+ s +:+ "')";
  Mime := string;
  Mime_parse s := if decide (s = "") then None else Some s;
  Mime_to_string s := s;
  APPLICATION_OCTET_STREAM := "application/octet-stream";
  APPLICATION_JSON := "application/json";
  TEXT_PLAIN := "text/plain";
  percent_decode_utf8_lossy s := s;
|}.

Definition ex_webview : Webview := mk_webview "main" "main".

Definition ex_manager : Manager _ _ Value :=
  mk_manager false true None ∅ "key" ex_authority {[ "main" := ex_webview ]}.

Definition ex_http (command key : string) : HttpRequest :=
  mk_http_request POST ("/" +:+ command)
    {[ "content-type" := "application/json"; "origin" := "tauri://localhost";
       TAURI_INVOKE_KEY_HEADER_NAME := key; TAURI_CALLBACK_HEADER_NAME := "1";
       TAURI_ERROR_HEADER_NAME := "2" ]} "[]".

Definition ex_request (command key : string) : InvokeRequest :=
  mk_invoke_request command 1 2 ("tauri://localhost" : @Url literal_url) (BodyJson ("[]" : JsonValue))
    (req_headers (ex_http command key)) key.

(** Handlers that know every command and answer at once. *)
Definition ex_plugin (p : string) (i : Invoke) : Handled :=
  mk_handled true (Some (ResponseOk (Channel.Json "[]"))).
Definition ex_app (i : Invoke) : Handled := mk_handled false None.

Definition ex_invoke : Invoke :=
  mk_invoke "read" (BodyJson ("[]" : JsonValue)) (req_headers (ex_http "plugin:fs|read" "key"))
    (Some [ex_entry]).

Lemma parse_invoke_request_accepts_example :
  parse_invoke_request None (ex_http "plugin:fs|read" "key") = Ok (ex_request "plugin:fs|read" "key").
Proof. vm_compute. reflexivity. Qed.

Lemma ex_on_message :
  on_message 3 ex_manager ex_plugin ex_app ex_webview (ex_request "plugin:fs|read" "key") =
  Ok [CallPlugin "fs" ex_invoke; Respond (ResponseOk (Channel.Json "[]"))].
Proof. vm_compute. reflexivity. Defined.

Lemma on_message_authorized_witness :
  ∃ is_local, is_local_url ex_manager (url (ex_request "plugin:fs|read" "key")) = Ok is_local ∧
    authorized ex_manager ex_webview (ex_request "plugin:fs|read" "key")
      (acl_origin is_local (url (ex_request "plugin:fs|read" "key"))) (invoke_acl ex_invoke).
Proof.
  destruct (on_message_authorized 3 ex_manager ex_plugin ex_app ex_webview
    (ex_request "plugin:fs|read" "key") _ ex_on_message) as (_ & H & _).
  destruct (H (CallPlugin "fs" ex_invoke) ex_invoke) as (b & Hb & Ha & _); [left|reflexivity|].
  exists b. exact (conj Hb Ha).
Defined.

Lemma plugin_call_is_permitted_witness :
  ∃ l, contributions 3 ex_acl Linux (active_capabilities ex_capabilities Linux) = Ok l ∧
    ∃ c rp, (c, rp) ∈ l ∧ lists commands_allow rp "plugin:fs|read".
Proof.
  destruct (plugin_call_is_permitted 3 ex_manager ex_plugin ex_app ex_webview
    (ex_request "plugin:fs|read" "key") _ "fs" ex_invoke 3 ex_acl ex_capabilities Linux ex_resolved
    ex_on_message ltac:(left) ltac:(discriminate) ex_resolve eq_refl)
    as (is_local & l & _ & Hl & (c & rp & Hin & Hlist & _) & _).
  exists l. split; [exact Hl|]. exists c, rp. exact (conj Hin Hlist).
Defined.

Definition ex_preflight : HttpRequest := mk_http_request OPTIONS "/" ∅ "".

Lemma protocol_responses_witness :
  ∃ r, get 3 ex_manager None ex_plugin ex_app "main" ex_preflight = Ok [Answer r] ∧
    resp_headers r !! "access-control-allow-origin" = Some "*" ∧ status r = 200%N.
Proof.
  destruct (protocol_responses 3 ex_manager None ex_plugin ex_app "main" ex_preflight _ eq_refl)
    as (H & H200 & _).
  destruct (H200 eq_refl) as (r & Hr & Hs). exists r. split; [|split; [|exact Hs]].
  - rewrite <-Hr. reflexivity.
  - apply H. rewrite Hr. left.
Defined.

End Ipc.
