(* ===== verification/Paths.v ===== *)
(** * Paths

    Models [tauri/Source/path/mod.rs] over Unix paths: the components of a path
    and the building of a [PathBuf] from [std::path], [SafePathBuf], the
    variables of [BaseDirectory], [PathResolver::parse] and [resolve_path]. The
    directories of the user come from the operating system: they are a
    parameter. *)
From Stdlib Require Import Ascii.
From S2P Require Import Prelude.

Module Paths.

(** ** [std::path] on Unix *)
Inductive Component := RootDir | CurDir | ParentDir | Normal (s : string).

#[global] Instance Component_eq_dec : EqDecision Component.
Proof. solve_decision. Defined.

Definition component_str (c : Component) : string :=
  match c with RootDir => "/" | CurDir => "." | ParentDir => ".." | Normal s => s end.

Definition is_absolute (p : string) : bool := starts_with "/" p.

(** The component a segment between separators stands for; empty segments and
    dots are skipped. *)
Definition segment_component (seg : string) : option Component :=
  if decide (seg = "") then None
  else if decide (seg = ".") then None
  else if decide (seg = "..") then Some ParentDir
  else Some (Normal seg).

Definition segments (p : string) : list string := split_on "/" p.

(** The components after the root or the leading dot. *)
Definition body (p : string) : list Component := omap segment_component (segments p).

Definition lead (p : string) : list Component :=
  if is_absolute p then [RootDir]
  else if decide (head (segments p) = Some ".") then [CurDir] else [].

Definition components (p : string) : list Component := lead p ++ body p.

(** [PathBuf::push]: an absolute path replaces, another is appended. *)
Definition push (p q : string) : string :=
  if is_absolute q then q
  else if decide (p = "") then q
  else if ends_with "/" p then p +:+ q
  else p +:+ "/" +:+ q.

(** [components.collect::<PathBuf>()]. *)
Definition collect_path (cs : list Component) : string :=
  foldl (λ p c, push p (component_str c)) "" cs.

Definition normalize (p : string) : string := collect_path (components p).

(** ** [SafePathBuf] *)
Definition SafePathBuf_new (path : string) : outcome string string :=
  if existsb (λ c, bool_decide (c = ParentDir)) (components path)
  then Err "cannot traverse directory, rewrite the path without the use of `../`"
  else Ok path.

(** ** [BaseDirectory] *)
Inductive BaseDirectory :=
| Audio | Cache | Config | Data | LocalData | Document | Download | Picture | Public | Video
| Resource | Temp | AppConfig | AppData | AppLocalData | AppCache | AppLog | Desktop | Executable
| Font | Home | Runtime | Template.

#[global] Instance BaseDirectory_eq_dec : EqDecision BaseDirectory.
Proof. solve_decision. Defined.

Definition variable (d : BaseDirectory) : string :=
  match d with
  | Audio => "$AUDIO"
  | Cache => "$CACHE"
  | Config => "$CONFIG"
  | Data => "$DATA"
  | LocalData => "$LOCALDATA"
  | Document => "$DOCUMENT"
  | Download => "$DOWNLOAD"
  | Picture => "$PICTURE"
  | Public => "$PUBLIC"
  | Video => "$VIDEO"
  | Resource => "$RESOURCE"
  | Temp => "$TEMP"
  | AppConfig => "$APPCONFIG"
  | AppData => "$APPDATA"
  | AppLocalData => "$APPLOCALDATA"
  | AppCache => "$APPCACHE"
  | AppLog => "$APPLOG"
  | Home => "$HOME"
  | Desktop => "$DESKTOP"
  | Executable => "$EXE"
  | Font => "$FONT"
  | Runtime => "$RUNTIME"
  | Template => "$TEMPLATE"
  end.

Definition from_variable (s : string) : option BaseDirectory :=
  match s with
  | "$AUDIO" => Some Audio
  | "$CACHE" => Some Cache
  | "$CONFIG" => Some Config
  | "$DATA" => Some Data
  | "$LOCALDATA" => Some LocalData
  | "$DOCUMENT" => Some Document
  | "$DOWNLOAD" => Some Download
  | "$PICTURE" => Some Picture
  | "$PUBLIC" => Some Public
  | "$VIDEO" => Some Video
  | "$RESOURCE" => Some Resource
  | "$TEMP" => Some Temp
  | "$APPCONFIG" => Some AppConfig
  | "$APPDATA" => Some AppData
  | "$APPLOCALDATA" => Some AppLocalData
  | "$APPCACHE" => Some AppCache
  | "$APPLOG" => Some AppLog
  | "$HOME" => Some Home
  | "$DESKTOP" => Some Desktop
  | "$EXE" => Some Executable
  | "$FONT" => Some Font
  | "$RUNTIME" => Some Runtime
  | "$TEMPLATE" => Some Template
  | _ => None
  end%string.

(** ** Resolution *)
Section Resolver.
(** The directory of each base, [None] where the system has none. *)
Context (dir : BaseDirectory → option string).

Inductive PathError := UnknownPath.

(** The components of a resource, as the bundler lays them out. *)
Definition push_resource (resource_path : string) (c : Component) : string :=
  match c with
  | RootDir => push resource_path "_root_"
  | CurDir => resource_path
  | ParentDir => push resource_path "_up_"
  | Normal p => push resource_path p
  end.

Definition resolve_path (directory : BaseDirectory) (path : option string)
    : outcome PathError string :=
  let resolve_resource := bool_decide (directory = Resource) in
  base_dir_path ← ok_or (dir directory) UnknownPath;
  match path with
  | None => Ok base_dir_path
  | Some path =>
      if resolve_resource
      then Ok (push base_dir_path (foldl push_resource "" (components path)))
      else Ok (push base_dir_path path)
  end.

Definition resolve (path : string) (directory : BaseDirectory) : outcome PathError string :=
  resolve_path directory (Some path).

(** The first component of a path to parse. *)
Definition parse_first (c : option Component) : outcome PathError string :=
  match c with
  | Some (Normal str) =>
      match from_variable str with
      | Some base_directory =>
          base ← resolve_path base_directory None;
          Ok (push "" base)
      | None => Ok (push "" str)
      end
  | Some component => Ok (push "" (component_str component))
  | None => Ok ""
  end.

Definition parse (path : string) : outcome PathError string :=
  let cs := components path in
  p ← parse_first (head cs);
  Ok (foldl (λ p c, if decide (c = ParentDir) then p else push p (component_str c)) p (tail cs)).

End Resolver.

(** ** Lemmas *)
Definition is_normal (c : Component) : Prop := ∃ s, c = Normal s.

(** A name that can be a component: not empty, no separator, no dots. *)
Definition name (s : string) : Prop := segments s = [s] ∧ segment_component s = Some (Normal s).

Lemma split_bytes_app sep a b :
  split_bytes sep (a ++ sep :: b) = split_bytes sep a ++ split_bytes sep b.
Proof.
  induction a as [|c a IH]; simpl; [by rewrite decide_True|].
  case_decide; rewrite IH; [done|]. destruct (split_bytes sep a) eqn:Ha; [|done].
  destruct a as [|d a]; simpl in Ha; [done|]. case_decide; [done|]. by destruct (split_bytes sep a).
Qed.

Lemma split_bytes_ne sep l : split_bytes sep l ≠ [].
Proof. destruct l as [|c l]; simpl; [done|]. case_decide; [done|]. by destruct (split_bytes sep l). Qed.

Lemma split_bytes_piece sep l p : p ∈ split_bytes sep l → sep ∉ p.
Proof.
  revert p. induction l as [|c l IH]; simpl; intros p.
  - rewrite list_elem_of_singleton. intros ->. apply not_elem_of_nil.
  - case_decide as Hc.
    + rewrite elem_of_cons. intros [->|Hp]; [apply not_elem_of_nil|by apply IH].
    + destruct (split_bytes sep l) as [|q qs] eqn:Hs; [by apply split_bytes_ne in Hs|].
      rewrite elem_of_cons. intros [->|Hp]; [|apply IH; by right].
      rewrite not_elem_of_cons. split; [done|]. apply IH. left.
Qed.

Lemma split_bytes_single sep l : sep ∉ l → split_bytes sep l = [l].
Proof.
  induction l as [|c l IH]; simpl; [done|]. rewrite not_elem_of_cons. intros [Hc Hl].
  rewrite decide_False by congruence. by rewrite (IH Hl).
Qed.

Lemma segments_app p q : segments (p +:+ "/" +:+ q) = segments p ++ segments q.
Proof.
  unfold segments, split_on. rewrite !bytes_append. simpl.
  by rewrite split_bytes_app, fmap_app.
Qed.

Lemma segments_ne p : segments p ≠ [].
Proof.
  unfold segments, split_on. intros H. apply fmap_nil_inv in H. by apply split_bytes_ne in H.
Qed.

Lemma segments_piece p s : s ∈ segments p → segments s = [s].
Proof.
  unfold segments, split_on. intros (l & -> & Hl)%list_elem_of_fmap. apply split_bytes_piece in Hl.
  by rewrite bytes_of_bytes, split_bytes_single.
Qed.

(** A path that ends with the separator is one with an empty last segment. *)
Lemma ends_with_slash p : ends_with "/" p = true → ∃ p', p = p' +:+ "/".
Proof.
  unfold ends_with, rev_string. rewrite starts_with_spec. intros [r Hr].
  apply (f_equal bytes) in Hr. rewrite bytes_of_bytes, bytes_append in Hr. simpl in Hr.
  exists (of_bytes (reverse (bytes r))). apply bytes_inj.
  rewrite bytes_append, bytes_of_bytes. simpl.
  rewrite <-(reverse_involutive (bytes p)), Hr. by rewrite reverse_cons.
Qed.

Lemma append_assoc (a b c : string) : (a +:+ b) +:+ c = a +:+ b +:+ c.
Proof. apply bytes_inj. by rewrite !bytes_append, app_assoc. Qed.

Lemma append_nil_r (a : string) : a +:+ "" = a.
Proof. apply bytes_inj. by rewrite bytes_append, app_nil_r. Qed.

Lemma segments_slash p' q : segments ((p' +:+ "/") +:+ q) = segments p' ++ segments q.
Proof. rewrite append_assoc. apply segments_app. Qed.

(** Pushing a relative path appends its components after the lead. *)
Lemma body_push p q : is_absolute q = false → body (push p q) = body p ++ body q.
Proof.
  intros Hq. unfold push. rewrite Hq. case_decide as Hp; [by subst|].
  destruct (ends_with "/" p) eqn:He.
  - apply ends_with_slash in He as [p' ->]. unfold body.
    rewrite segments_slash. rewrite <-(append_nil_r (p' +:+ "/")), segments_slash.
    rewrite !omap_app. simpl. by rewrite app_nil_r.
  - unfold body. by rewrite segments_app, omap_app.
Qed.

Lemma is_absolute_app p q : p ≠ "" → is_absolute (p +:+ q) = is_absolute p.
Proof.
  destruct p as [|c p]; [done|]. intros _. rewrite append_cons. unfold is_absolute, starts_with.
  simpl. by case_decide.
Qed.

Lemma head_app_ne {A} (l k : list A) : l ≠ [] → head (l ++ k) = head l.
Proof. by destruct l. Qed.

Lemma lead_push p q : is_absolute q = false → p ≠ "" → lead (push p q) = lead p.
Proof.
  intros Hq Hp. unfold push. rewrite Hq, decide_False by done. unfold lead.
  destruct (ends_with "/" p) eqn:He.
  - rewrite is_absolute_app by done. destruct (is_absolute p) eqn:Ha; [done|].
    apply ends_with_slash in He as [p' ->].
    rewrite segments_slash, head_app_ne by apply segments_ne.
    assert (segments (p' +:+ "/") = segments p' ++ segments "") as ->
      by (rewrite <-segments_app, append_nil_r; done).
    by rewrite head_app_ne by apply segments_ne.
  - rewrite is_absolute_app by done. destruct (is_absolute p); [done|].
    by rewrite segments_app, head_app_ne by apply segments_ne.
Qed.

Lemma components_push p q :
  is_absolute q = false → p ≠ "" → components (push p q) = components p ++ body q.
Proof. intros Hq Hp. unfold components. rewrite lead_push, body_push by done. by rewrite app_assoc. Qed.

Lemma name_relative s : name s → is_absolute s = false.
Proof.
  intros [Hs Hc]. destruct s as [|c s]; [done|]. unfold is_absolute, starts_with. simpl.
  case_decide as Hd; [|done]. subst c. exfalso.
  assert (segments (String "/" s) = "" :: segments s) as He by done.
  rewrite He in Hs. injection Hs. intros H ?. by apply segments_ne in H.
Qed.

Lemma name_body s : name s → body s = [Normal s].
Proof. intros [Hs Hc]. unfold body. rewrite Hs. simpl. by rewrite Hc. Qed.

Lemma name_nonempty s : name s → s ≠ "".
Proof. intros [_ Hc] ->. done. Qed.

Lemma components_normal p s : Normal s ∈ components p → name s.
Proof.
  unfold components, lead, body. rewrite elem_of_app. intros [H|H].
  - destruct (is_absolute p); [|case_decide]; by repeat (apply elem_of_cons in H as [?|H]; try done);
      apply not_elem_of_nil in H.
  - apply list_elem_of_omap in H as (seg & Hseg & Hc).
    assert (seg = s) as ->; [|split; [by eapply segments_piece|done]].
    unfold segment_component in Hc. repeat case_decide; naive_solver.
Qed.

Lemma push_ne_nil p s : s ≠ "" → push p s ≠ "".
Proof.
  intros Hs. unfold push. destruct (is_absolute s); [done|]. case_decide; [done|].
  destruct (ends_with "/" p); by destruct p.
Qed.

(** The path of a resource has only names. *)
Lemma push_resource_body rp c :
  (∀ s, c = Normal s → name s) →
  ∃ ns, body (push_resource rp c) = body rp ++ (Normal <$> ns) ∧
    (is_absolute rp = false → is_absolute (push_resource rp c) = false).
Proof.
  intros Hc.
  assert (∀ s, name s → body (push rp s) = body rp ++ [Normal s] ∧
    (is_absolute rp = false → is_absolute (push rp s) = false)) as Hpush.
  { intros s Hs. pose proof (name_relative s Hs) as Hrel. split.
    - by rewrite (body_push rp s Hrel), (name_body s Hs).
    - intros Hrp. unfold push. rewrite Hrel. case_decide; [done|].
      destruct (ends_with "/" rp); by rewrite is_absolute_app. }
  destruct c as [| | |s]; simpl.
  - exists ["_root_"]. apply Hpush. done.
  - exists []. by rewrite app_nil_r.
  - exists ["_up_"]. apply Hpush. done.
  - exists [s]. apply Hpush. by apply Hc.
Qed.

Lemma fold_resource_body cs rp :
  (∀ s, Normal s ∈ cs → name s) → is_absolute rp = false →
  ∃ ns, body (foldl push_resource rp cs) = body rp ++ (Normal <$> ns) ∧
    is_absolute (foldl push_resource rp cs) = false.
Proof.
  revert rp. induction cs as [|c cs IH]; intros rp Hcs Hrp; simpl.
  - exists []. by rewrite app_nil_r.
  - destruct (push_resource_body rp c) as (n1 & H1 & Ha); [intros s ->; apply Hcs; left|].
    destruct (IH (push_resource rp c)) as (n2 & H2 & Ha2); [intros s Hs; apply Hcs; by right|auto|].
    exists (n1 ++ n2). split; [|done]. rewrite H2, H1, fmap_app. by rewrite app_assoc.
Qed.

Lemma component_str_body c :
  c ≠ ParentDir → (∀ s, c = Normal s → name s) → c ≠ RootDir →
  is_absolute (component_str c) = false ∧ Forall is_normal (body (component_str c)).
Proof.
  intros Hp Hn Hr. destruct c as [| | |s]; try done; simpl.
  split; [by apply name_relative, Hn|]. rewrite name_body by by apply Hn.
  repeat constructor. by eexists.
Qed.

(** The rest of a parsed path adds names only. *)
Lemma parse_rest_body cs p :
  (∀ s, Normal s ∈ cs → name s) → RootDir ∉ cs →
  let r := foldl (λ p c, if decide (c = ParentDir) then p else push p (component_str c)) p cs in
  ∃ l, body r = body p ++ l ∧ Forall is_normal l ∧ (p ≠ "" → lead r = lead p).
Proof.
  revert p. induction cs as [|c cs IH]; intros p Hn Hr; simpl.
  - exists []. by rewrite app_nil_r.
  - apply not_elem_of_cons in Hr as [Hc Hr].
    assert (∀ s, Normal s ∈ cs → name s) as Hn' by (intros s Hs; apply Hn; by right).
    case_decide as Hp; [by apply IH|].
    destruct (component_str_body c) as [Habs Hb]; [done|intros s ->; apply Hn; left|congruence|].
    destruct (IH (push p (component_str c)) Hn' Hr) as (l & Hl & Hf & Hlead).
    exists (body (component_str c) ++ l). split_and!.
    + rewrite Hl, body_push by done. by rewrite app_assoc.
    + by apply Forall_app.
    + intros Hpe. rewrite Hlead; [by apply lead_push|].
      unfold push. rewrite Habs, decide_False by done. destruct (ends_with "/" p); by destruct p.
Qed.

Lemma lead_no_parent p : ParentDir ∉ lead p.
Proof.
  unfold lead. destruct (is_absolute p); [by rewrite list_elem_of_singleton|].
  case_decide; [by rewrite list_elem_of_singleton|apply not_elem_of_nil].
Qed.

Lemma push_nil q : push "" q = q.
Proof. unfold push. by destruct (is_absolute q). Qed.

Lemma components_tail p :
  (RootDir ∉ tail (components p)) ∧ (∀ s, Normal s ∈ tail (components p) → name s).
Proof.
  split.
  - unfold components. assert (∀ p, RootDir ∉ body p) as Hb.
    { intros q H. apply list_elem_of_omap in H as (seg & _ & Hc).
      unfold segment_component in Hc. repeat case_decide; done. }
    unfold lead. destruct (is_absolute p); [apply Hb|]. case_decide; [apply Hb|]. simpl.
    intros Hin. apply (Hb p). destruct (body p); [done|by right].
  - intros s H. apply (components_normal p). destruct (components p); [done|by right].
Qed.

(** The first part of a parsed path has no parent directory unless the path
    starts with one. *)
Lemma parse_first_no_parent dir path p :
  parse_first dir (head (components path)) = Ok p →
  head (components path) ≠ Some ParentDir →
  (∀ d b, dir d = Some b → ParentDir ∉ components b) →
  ParentDir ∉ body p.
Proof.
  intros H Hh Hdir. destruct (components path) as [|c cs] eqn:Hcs; simpl in *.
  - simplify_eq. vm_compute. apply not_elem_of_nil.
  - destruct c as [| | |str]; simplify_eq/=; try done; try (vm_compute; apply not_elem_of_nil).
    destruct (from_variable str) as [d|].
    + unfold resolve_path in H. destruct (dir d) as [b|] eqn:Hd; simplify_eq/=.
      rewrite push_nil. intros Hb. apply (Hdir d b Hd). unfold components. rewrite elem_of_app. auto.
    + simplify_eq. rewrite push_nil, name_body; [by rewrite list_elem_of_singleton|].
      apply (components_normal path). rewrite Hcs. left.
Qed.

(** *** Normalization *)
Lemma fold_push_components cs p :
  p ≠ "" → (∀ c, c ∈ cs → c = ParentDir ∨ ∃ s, c = Normal s ∧ name s) →
  components (foldl (λ p c, push p (component_str c)) p cs) = components p ++ cs.
Proof.
  revert p. induction cs as [|c cs IH]; intros p Hp Hcs; simpl; [by rewrite app_nil_r|].
  assert (is_absolute (component_str c) = false ∧ body (component_str c) = [c] ∧ component_str c ≠ "")
    as (Ha & Hb & Hne).
  { destruct (Hcs c ltac:(left)) as [->|(s & -> & Hs)]; simpl; [done|].
    split_and!; [by apply name_relative|by apply name_body|by apply name_nonempty]. }
  rewrite IH; [|by apply push_ne_nil|intros; apply Hcs; by right].
  rewrite components_push, Hb by done. by rewrite <-app_assoc.
Qed.

Lemma body_elements p c : c ∈ body p → c = ParentDir ∨ ∃ s, c = Normal s ∧ name s.
Proof.
  intros H. assert (c ∈ components p) as Hc by (unfold components; rewrite elem_of_app; auto).
  apply list_elem_of_omap in H as (seg & _ & Hseg). unfold segment_component in Hseg.
  repeat case_decide; simplify_eq; [by left|right]. eexists. split; [done|].
  by apply components_normal in Hc.
Qed.

(** A path collected from components has those components. *)
Lemma components_collect l cs :
  l = [] ∨ l = [RootDir] ∨ l = [CurDir] →
  (∀ c, c ∈ cs → c = ParentDir ∨ ∃ s, c = Normal s ∧ name s) →
  components (collect_path (l ++ cs)) = l ++ cs.
Proof.
  intros [->|[->| ->]] Hb; unfold collect_path; simpl; [|by rewrite push_nil, fold_push_components..].
  destruct cs as [|c cs]; simpl; [done|]. rewrite push_nil.
  assert (components (component_str c) = [c] ∧ component_str c ≠ "") as [Hc Hne].
  { destruct (Hb c ltac:(left)) as [->|(s & -> & Hs)]; [done|]. simpl.
    unfold components. rewrite (name_body s Hs). unfold lead. rewrite (name_relative s Hs).
    split; [|by apply name_nonempty]. destruct Hs as [Hseg Hcomp]. rewrite Hseg. simpl.
    rewrite decide_False; [done|]. intros [= ->]. done. }
  rewrite fold_push_components; [by rewrite Hc|done|intros; apply Hb; by right].
Qed.

(** A normalized path has the components of the path. *)
Lemma components_normalize p : components (normalize p) = components p.
Proof.
  unfold normalize. apply (components_collect (lead p) (body p)); [|apply body_elements].
  unfold lead. destruct (is_absolute p); [auto|]. case_decide; auto.
Qed.

Lemma normalize_idem p : normalize (normalize p) = normalize p.
Proof. unfold normalize at 1. by rewrite components_normalize. Qed.

(** ** Properties *)

(** A resource stays in the resource directory: whatever path is resolved
    against it, absolute or with parent directories, the result consists of the
    components of the directory followed by plain names. *)
Theorem resource_path_contained dir path base r :
  dir Resource = Some base → base ≠ "" →
  resolve dir path Resource = Ok r →
  ∃ ns, components r = components base ++ (Normal <$> ns).
Proof.
  intros Hd Hb. unfold resolve, resolve_path. rewrite Hd. simpl. intros [= <-].
  destruct (fold_resource_body (components path) "") as (ns & Hbody & Habs);
    [intros s; apply components_normal|done|].
  exists ns. rewrite components_push by done. by rewrite Hbody.
Qed.

(** Parsing a path drops its parent directories: when the path does not
    start with one, and the directory a variable stands for has none, neither
    has the result. *)
Theorem parse_no_traversal dir path r :
  parse dir path = Ok r →
  head (components path) ≠ Some ParentDir →
  (∀ d b, dir d = Some b → ParentDir ∉ components b) →
  ParentDir ∉ components r.
Proof.
  unfold parse. intros H Hh Hdir. apply bind_ok in H as (p & Hp & [= <-]).
  destruct (components_tail path) as [Hroot Hnames].
  destruct (parse_rest_body (tail (components path)) p Hnames Hroot) as (l & Hl & Hf & _).
  set (result := foldl _ p _) in *.
  unfold components. rewrite elem_of_app, Hl, elem_of_app. intros [Hx|[Hx|Hx]].
  - by apply lead_no_parent in Hx.
  - by eapply parse_first_no_parent in Hx.
  - rewrite Forall_forall in Hf. by destruct (Hf _ Hx).
Qed.

(** The variable of a base directory identifies it: it reads back as the
    directory, and only its own text does. *)
Theorem base_directory_variable_roundtrip d s :
  from_variable s = Some d ↔ s = variable d.
Proof.
  split; [|intros ->; by destruct d].
  unfold from_variable. intros H.
  repeat match type of H with
  | match ?x with _ => _ end = _ => destruct x; try discriminate H
  end; by simplify_eq.
Qed.

(** A path that [SafePathBuf] accepts cannot leave a directory it is joined
    to: if it is relative, the result consists of the components of the
    directory followed by plain names. *)
Theorem safe_path_contained base path p :
  SafePathBuf_new path = Ok p → is_absolute path = false → base ≠ "" →
  p = path ∧ ∃ ns, components (push base p) = components base ++ (Normal <$> ns).
Proof.
  unfold SafePathBuf_new. destruct (existsb _ _) eqn:He; [done|]. intros [= <-] Habs Hb.
  split; [done|]. rewrite components_push by done.
  assert (Forall is_normal (body path)) as Hf.
  { apply Forall_forall. intros c Hc.
    assert (c ≠ ParentDir) as Hnp.
    { intros ->. apply not_true_iff_false in He. apply He, existsb_exists. exists ParentDir.
      split; [|done]. apply list_elem_of_In. unfold components. rewrite elem_of_app. auto. }
    apply list_elem_of_omap in Hc as (seg & _ & Hc). unfold segment_component in Hc.
    repeat case_decide; simplify_eq; by eexists. }
  clear He. induction Hf as [|c l [s ->] _ [ns IH]]; [by exists []|].
  exists (s :: ns). simpl. f_equal. f_equal. apply (inj (app (components base))), IH.
Qed.

(** A leading parent directory is kept by [parse]. *)
Lemma parse_keeps_leading_parent : parse (λ _, None) "../a/../b" = Ok "../a/b".
Proof. vm_compute. reflexivity. Qed.

Definition ex_dir (d : BaseDirectory) : option string :=
  match d with
  | Resource => Some "/usr/lib/app"
  | Home => Some "/home/user"
  | _ => None
  end.

Lemma resource_path_contained_witness :
  resolve ex_dir "/../etc/passwd" Resource = Ok "/usr/lib/app/_root_/_up_/etc/passwd" ∧
  ∃ ns, components "/usr/lib/app/_root_/_up_/etc/passwd" =
    components "/usr/lib/app" ++ (Normal <$> ns).
Proof.
  split; [vm_compute; reflexivity|].
  apply (resource_path_contained ex_dir "/../etc/passwd" "/usr/lib/app");
    [reflexivity|discriminate|vm_compute; reflexivity].
Defined.

Lemma parse_no_traversal_witness :
  parse ex_dir "$HOME/../a" = Ok "/home/user/a" ∧ ParentDir ∉ components "/home/user/a".
Proof.
  split; [vm_compute; reflexivity|].
  apply (parse_no_traversal ex_dir "$HOME/../a"); [vm_compute; reflexivity|vm_compute; discriminate|].
  intros d b Hd Hin.
  destruct d; simpl in Hd; try discriminate Hd; injection Hd as <-; vm_compute in Hin;
    repeat (apply elem_of_cons in Hin as [Hin|Hin]; [discriminate Hin|]);
    by apply not_elem_of_nil in Hin.
Defined.

Lemma safe_path_contained_witness :
  ∃ ns, components (push "/srv" "a/./b") = components "/srv" ++ (Normal <$> ns).
Proof.
  apply (safe_path_contained "/srv" "a/./b" "a/./b"); [vm_compute; reflexivity|vm_compute; reflexivity|discriminate].
Defined.

End Paths.
