(* ===== verification/FsScope.v ===== *)
(** * The file system scope

    Models [tauri/Source/scope/fs.rs] on Unix: the sets of allowed and forbidden
    glob patterns that decide which files the frontend may reach, their
    construction from a configuration ([FsScope] of [tauri-utils/Source/config.rs])
    and at run time, and the events of a scope. The file system and the
    matching of the [glob] package are parameters. *)
From S2P Require Import Prelude Acl Paths.
Import Paths.

(** The file system, at one moment: [canonicalize] is [None] for a path that
    does not exist. *)
Class FileSystem := {
  canonicalize : string → option string;
  is_symlink : string → bool;
  read_link : string → option string;
  path_exists : string → bool;
}.

(** The options of the [glob] package that the scope sets, and its matching of
    paths. *)
Record MatchOptions := mk_match_options {
  require_literal_separator : bool;
  require_literal_leading_dot : bool;
}.

Class GlobPathLib (GL : GlobLib) := {
  Pattern_escape : string → string;
  matches_path_with : Pattern → string → MatchOptions → bool;
}.

Module FsScope.

(** The configuration of a scope. *)
Inductive FsScopeConfig :=
| AllowedPaths (paths : list string)
| ScopeConfig (allow deny : list string) (leading_dot : option bool).

Definition allowed_paths (c : FsScopeConfig) : list string :=
  match c with AllowedPaths p => p | ScopeConfig allow _ _ => allow end.

Definition forbidden_paths (c : FsScopeConfig) : option (list string) :=
  match c with AllowedPaths _ => None | ScopeConfig _ deny _ => Some deny end.

Inductive Event :=
| PathAllowed (path : string)
| PathForbidden (path : string).

Section FsScope.
Context {GL : GlobLib} {GP : GlobPathLib GL} {FS : FileSystem}.

(** A hash set of patterns, as the list of its members. *)
Abbreviation PatternSet := (list Pattern).

(** A listener of [once] takes the lock of the listeners again when it is
    called. *)
Inductive EventListener := Listener | OnceListener.

Record Scope := mk_scope {
  allowed_patterns : PatternSet;
  forbidden_patterns : PatternSet;
  event_listeners : gmap N EventListener;
  match_options : MatchOptions;
  next_event_id : N;
}.

Inductive Error := GlobPattern.

(** ** Patterns *)

(** The loop of [canonicalize_parent] on the components of a normalized path,
    last one first: the first prefix that exists is canonicalized and the
    components that failed are joined to it. *)
Fixpoint canonicalize_parent_loop (rev_cs : list Component) (failed_components : option string)
    : option string :=
  match canonicalize (collect_path (reverse rev_cs)) with
  | Some path =>
      Some (match failed_components with Some p => push path p | None => path end)
  | None =>
      match rev_cs with
      | [] => None
      | RootDir :: _ => None
      | last :: rev_cs =>
          let last := component_str last in
          canonicalize_parent_loop rev_cs
            (Some (match failed_components with Some f => push last f | None => last end))
      end
  end.

Definition canonicalize_parent (path : string) : option string :=
  canonicalize_parent_loop (reverse (components path)) None.

(** The patterns pushed before an error stay in the set. *)
Definition push_pattern (pattern : string) (f : string → option Pattern) (l : PatternSet)
    : outcome Error () * PatternSet :=
  let path := normalize pattern in
  match f path with
  | None => (Err GlobPattern, l)
  | Some pat =>
      let l := l ++ [pat] in
      match canonicalize_parent path with
      | None => (Ok (), l)
      | Some p =>
          match f p with
          | None => (Err GlobPattern, l)
          | Some pat => (Ok (), l ++ [pat])
          end
      end
  end.

Definition escaped_pattern (p : string) : option Pattern := Pattern_new (Pattern_escape p).

Definition escaped_pattern_with (p append : string) : option Pattern :=
  if ends_with "/" p then Pattern_new (Pattern_escape p +:+ append)
  else Pattern_new (Pattern_escape p +:+ "/" +:+ append).

(** Pushing a directory: itself, then what is in it. *)
Definition push_directory (path : string) (recursive : bool) (l : PatternSet)
    : outcome Error () * PatternSet :=
  match push_pattern path escaped_pattern l with
  | (Ok _, l) => push_pattern path (λ p, escaped_pattern_with p (if recursive then "**" else "*")) l
  | r => r
  end.

(** ** Building a scope *)

(** [parse] is [manager.path().parse]: a path it cannot resolve is skipped. *)
Fixpoint push_configured (parse : string → option string) (paths : list string) (l : PatternSet)
    : outcome Error PatternSet :=
  match paths with
  | [] => Ok l
  | path :: paths =>
      match parse path with
      | None => push_configured parse paths l
      | Some path =>
          match push_pattern path Pattern_new l with
          | (Ok _, l) => push_configured parse paths l
          | (Err e, _) => Err e
          | (Panic msg, _) => Panic msg
          | (Diverge, _) => Diverge
          end
      end
  end.

Definition Scope_new (parse : string → option string) (scope : FsScopeConfig) : outcome Error Scope :=
  allowed ← push_configured parse (allowed_paths scope) [];
  forbidden ← (match forbidden_paths scope with
               | Some paths => push_configured parse paths []
               | None => Ok []
               end);
  let leading_dot := match scope with ScopeConfig _ _ (Some require) => require | _ => true end in
  Ok (mk_scope allowed forbidden ∅ (mk_match_options true leading_dot) 0).

(** ** Events *)
Definition listen_with (l : EventListener) (s : Scope) : N * Scope :=
  (next_event_id s,
   mk_scope (allowed_patterns s) (forbidden_patterns s)
     (<[next_event_id s := l]> (event_listeners s)) (match_options s)
     ((next_event_id s + 1) `mod` 2 ^ 32)%N).

Definition listen (s : Scope) : N * Scope := listen_with Listener s.
Definition once (s : Scope) : N * Scope := listen_with OnceListener s.

Definition unlisten (id : N) (s : Scope) : Scope :=
  mk_scope (allowed_patterns s) (forbidden_patterns s) (delete id (event_listeners s))
    (match_options s) (next_event_id s).

(** The listeners are called with their lock held; locking it again on the same
    thread does not return. *)
Definition emit (e : Event) (s : Scope) : outcome Error () :=
  if existsb (λ p, match p.2 with OnceListener => true | Listener => false end)
       (map_to_list (event_listeners s))
  then Diverge else Ok ().

(** ** Extending a scope *)
Definition set_allowed (l : PatternSet) (s : Scope) : Scope :=
  mk_scope l (forbidden_patterns s) (event_listeners s) (match_options s) (next_event_id s).
Definition set_forbidden (l : PatternSet) (s : Scope) : Scope :=
  mk_scope (allowed_patterns s) l (event_listeners s) (match_options s) (next_event_id s).

(** The patterns are pushed, then the event is emitted unless pushing failed. *)
Definition allow (pushed : outcome Error () * PatternSet) (path : string) (s : Scope)
    : outcome Error () * Scope :=
  let '(r, l) := pushed in
  let s := set_allowed l s in
  (_ ← r; emit (PathAllowed path) s, s).

Definition forbid (pushed : outcome Error () * PatternSet) (path : string) (s : Scope)
    : outcome Error () * Scope :=
  let '(r, l) := pushed in
  let s := set_forbidden l s in
  (_ ← r; emit (PathForbidden path) s, s).

Definition allow_directory (path : string) (recursive : bool) (s : Scope) :=
  allow (push_directory path recursive (allowed_patterns s)) path s.

Definition allow_file (path : string) (s : Scope) :=
  allow (push_pattern path escaped_pattern (allowed_patterns s)) path s.

Definition forbid_directory (path : string) (recursive : bool) (s : Scope) :=
  forbid (push_directory path recursive (forbidden_patterns s)) path s.

Definition forbid_file (path : string) (s : Scope) :=
  forbid (push_pattern path escaped_pattern (forbidden_patterns s)) path s.

(** ** Decisions *)
Definition try_resolve_symlink_and_canonicalize (path : string) : option string :=
  path ← (if is_symlink path then read_link path else Some path);
  if path_exists path then canonicalize path else Some path.

Definition any_matches (patterns : PatternSet) (path : string) (o : MatchOptions) : bool :=
  existsb (λ p, matches_path_with p path o) patterns.

Definition is_allowed (s : Scope) (path : string) : bool :=
  match try_resolve_symlink_and_canonicalize path with
  | Some path =>
      let path := normalize path in
      if any_matches (forbidden_patterns s) path (match_options s) then false
      else any_matches (allowed_patterns s) path (match_options s)
  | None => false
  end.

Definition is_forbidden (s : Scope) (path : string) : bool :=
  match try_resolve_symlink_and_canonicalize path with
  | Some path => any_matches (forbidden_patterns s) (normalize path) (match_options s)
  | None => true
  end.

(** ** Specification

    The operations on a scope, on a file system that stays as it is in between:
    a path has one canonical form throughout. *)
Inductive op :=
| AllowDirectory (path : string) (recursive : bool)
| AllowFile (path : string)
| ForbidDirectory (path : string) (recursive : bool)
| ForbidFile (path : string)
| Listen | Once | Unlisten (id : N).

Definition step (s : Scope) (o : op) : Scope :=
  match o with
  | AllowDirectory p r => (allow_directory p r s).2
  | AllowFile p => (allow_file p s).2
  | ForbidDirectory p r => (forbid_directory p r s).2
  | ForbidFile p => (forbid_file p s).2
  | Listen => (listen s).2
  | Once => (once s).2
  | Unlisten id => unlisten id s
  end.

(** What the scope relies on: an escaped text matches itself and nothing else,
    and canonical paths are normalized and survive normalization of their
    source. *)
Record glob_escape_law : Prop := {
  escape_parses : ∀ s, is_Some (escaped_pattern s);
  escape_exact : ∀ s pat path o, escaped_pattern s = Some pat →
    (matches_path_with pat path o = true ↔ path = s);
}.

Record fs_law : Prop := {
  canonicalize_normal : ∀ p c, canonicalize p = Some c → normalize c = c;
  canonicalize_source : ∀ p, canonicalize (normalize p) = canonicalize p;
  exists_canonical : ∀ p, path_exists p = true → is_Some (canonicalize p);
}.

(** ** Lemmas *)
Lemma push_pattern_extends pattern f l : ∃ l', (push_pattern pattern f l).2 = l ++ l'.
Proof.
  unfold push_pattern. destruct (f (normalize pattern)) as [pat|]; [|exists []; by rewrite app_nil_r].
  destruct (canonicalize_parent (normalize pattern)) as [p|]; [|by eexists].
  destruct (f p); [|by eexists]. eexists. simpl. by rewrite <-app_assoc.
Qed.

Lemma push_directory_extends path recursive l : ∃ l', (push_directory path recursive l).2 = l ++ l'.
Proof.
  unfold push_directory. destruct (push_pattern_extends path escaped_pattern l) as [l1 H1].
  destruct (push_pattern path escaped_pattern l) as [[]]; simpl in *; subst; try by eexists.
  destruct (push_pattern_extends path
    (λ p, escaped_pattern_with p (if recursive then "**" else "*")) (l ++ l1)) as [l2 H2].
  exists (l1 ++ l2). by rewrite H2, app_assoc.
Qed.

Lemma allow_allowed pushed path s :
  allowed_patterns (allow pushed path s).2 = pushed.2 ∧
  forbidden_patterns (allow pushed path s).2 = forbidden_patterns s ∧
  match_options (allow pushed path s).2 = match_options s.
Proof. by destruct pushed. Qed.

Lemma forbid_forbidden pushed path s :
  forbidden_patterns (forbid pushed path s).2 = pushed.2 ∧
  allowed_patterns (forbid pushed path s).2 = allowed_patterns s ∧
  match_options (forbid pushed path s).2 = match_options s.
Proof. by destruct pushed. Qed.

(** No operation removes a pattern. *)
Lemma step_extends s o :
  (∃ l, allowed_patterns (step s o) = allowed_patterns s ++ l) ∧
  (∃ l, forbidden_patterns (step s o) = forbidden_patterns s ++ l) ∧
  match_options (step s o) = match_options s.
Proof.
  assert (∀ l : PatternSet, ∃ l', l = l ++ l') as Hsame by (intros l; exists []; by rewrite app_nil_r).
  destruct o as [p r|p|p r|p| | |id];
    unfold step, allow_directory, allow_file, forbid_directory, forbid_file; try by (split_and!; [apply Hsame|apply Hsame|done]).
  - destruct (allow_allowed (push_directory p r (allowed_patterns s)) p s) as (-> & -> & ->).
    split_and!; [apply push_directory_extends|apply Hsame|done].
  - destruct (allow_allowed (push_pattern p escaped_pattern (allowed_patterns s)) p s) as (-> & -> & ->).
    split_and!; [apply push_pattern_extends|apply Hsame|done].
  - destruct (forbid_forbidden (push_directory p r (forbidden_patterns s)) p s) as (-> & -> & ->).
    split_and!; [apply Hsame|apply push_directory_extends|done].
  - destruct (forbid_forbidden (push_pattern p escaped_pattern (forbidden_patterns s)) p s) as (-> & -> & ->).
    split_and!; [apply Hsame|apply push_pattern_extends|done].
Qed.

Lemma any_matches_app l l' p o : any_matches (l ++ l') p o = any_matches l p o || any_matches l' p o.
Proof. apply existsb_app. Qed.

Lemma steps_forbidden ops s path :
  is_forbidden s path = true → is_forbidden (foldl step s ops) path = true.
Proof.
  revert s. induction ops as [|o ops IH]; intros s H; simpl; [done|]. apply IH.
  destruct (step_extends s o) as (_ & [l Hl] & Ho). unfold is_forbidden in *.
  destruct (try_resolve_symlink_and_canonicalize path); [|done].
  rewrite Hl, Ho, any_matches_app, H. done.
Qed.

Lemma is_allowed_not_forbidden s path : is_allowed s path = true → is_forbidden s path = false.
Proof.
  unfold is_allowed, is_forbidden. destruct (try_resolve_symlink_and_canonicalize path); [|done].
  by destruct (any_matches (forbidden_patterns s) _ _).
Qed.

(** The canonical form of a path that exists is found at the first try. *)
Lemma canonicalize_parent_exists path c :
  canonicalize (normalize path) = Some c → canonicalize_parent path = Some c.
Proof.
  intros H. unfold canonicalize_parent.
  unfold normalize in H.
  destruct (reverse (components path)) eqn:Hr; simpl; rewrite <-Hr, reverse_involutive, H; done.
Qed.

(** Pushing the escaped pattern of a file adds patterns that match it. *)
Lemma push_file_matches path l o :
  glob_escape_law → fs_law → is_symlink path = false →
  ∃ q l', try_resolve_symlink_and_canonicalize path = Some q ∧
    push_pattern path escaped_pattern l = (Ok (), l') ∧ any_matches l' (normalize q) o = true.
Proof.
  intros [Hp He] [Hn Hs Hx] Hsym. unfold try_resolve_symlink_and_canonicalize. rewrite Hsym. simpl.
  unfold push_pattern. destruct (Hp (normalize path)) as [pat Hpat]. rewrite Hpat.
  assert (matches_path_with pat (normalize path) o = true) as Hm by (by eapply He).
  assert (∀ l l', any_matches (l ++ [pat] ++ l') (normalize path) o = true) as Hany.
  { intros l1 l2. rewrite !any_matches_app. simpl. rewrite Hm. simpl. apply orb_true_r. }
  destruct (path_exists path) eqn:Hex.
  - destruct (Hx _ Hex) as [c Hc]. rewrite Hc.
    rewrite (canonicalize_parent_exists (normalize path) c) by (rewrite normalize_idem, Hs; done).
    destruct (Hp c) as [pc Hpc]. rewrite Hpc. do 2 eexists. split_and!; [done..|].
    rewrite (Hn _ _ Hc), any_matches_app. apply orb_true_iff. right. simpl.
    rewrite (proj2 (He c pc c o Hpc) eq_refl). done.
  - destruct (canonicalize_parent (normalize path)) as [c|].
    + destruct (Hp c) as [pc ->]. do 2 eexists. split_and!; [done..|]. rewrite <-app_assoc. apply Hany.
    + do 2 eexists. split_and!; [done..|]. apply (Hany l []).
Qed.

(** ** Properties *)

(** C10. Forbidding wins and is final: a path that is allowed is not forbidden,
    and a path that is forbidden stays forbidden, hence not allowed, after any
    sequence of operations on the scope. *)
Theorem forbidden_is_final s path ops :
  (is_allowed s path = true → is_forbidden s path = false) ∧
  (is_forbidden s path = true →
     is_forbidden (foldl step s ops) path = true ∧ is_allowed (foldl step s ops) path = false).
Proof.
  split; [apply is_allowed_not_forbidden|]. intros H. pose proof (steps_forbidden ops s path H) as Hf.
  split; [done|]. destruct (is_allowed (foldl step s ops) path) eqn:Ha; [|done].
  apply is_allowed_not_forbidden in Ha. congruence.
Qed.

(** Allowing and forbidding a file do what they say, for a path that is not
    a symbolic link: after [forbid_file] the path is not allowed; after
    [allow_file] it is allowed exactly when it is not forbidden. *)
Theorem file_rules_apply path s :
  glob_escape_law → fs_law → is_symlink path = false →
  is_allowed (forbid_file path s).2 path = false ∧
  is_allowed (allow_file path s).2 path = negb (is_forbidden s path).
Proof.
  intros Hg Hfs Hsym. split.
  - destruct (push_file_matches path (forbidden_patterns s) (match_options s) Hg Hfs Hsym)
      as (q & l & Hq & Hp & Hm).
    unfold forbid_file. rewrite Hp. unfold is_allowed. rewrite Hq. simpl. by rewrite Hm.
  - destruct (push_file_matches path (allowed_patterns s) (match_options s) Hg Hfs Hsym)
      as (q & l & Hq & Hp & Hm).
    unfold allow_file. rewrite Hp. unfold is_allowed, is_forbidden. rewrite Hq. simpl. rewrite Hm.
    by destruct (any_matches (forbidden_patterns s) _ _).
Qed.

(** A listener registered with [once] blocks the scope: the next rule that
    is added never returns, because the listener takes a lock that is held
    while it is called. *)
Theorem once_blocks_scope path s l :
  push_pattern path escaped_pattern (allowed_patterns s) = (Ok (), l) →
  (allow_file path (once s).2).1 = Diverge.
Proof.
  intros H. unfold allow_file, allow. simpl. rewrite H. simpl. unfold emit. simpl.
  assert (existsb (λ p : N * EventListener, match p.2 with OnceListener => true | Listener => false end)
    (map_to_list (<[next_event_id s := OnceListener]> (event_listeners s))) = true) as ->; [|done].
  apply existsb_exists. exists (next_event_id s, OnceListener). split; [|done].
  apply list_elem_of_In, elem_of_map_to_list, lookup_insert_eq.
Qed.

End FsScope.

(** ** A small file system *)
Definition exact_glob : GlobLib := {|
  Pattern := string;
  Pattern_new p := Some p;
  Pattern_as_str p := p;
  Pattern_matches p s := bool_decide (p = s);
|}.

#[local] Existing Instance exact_glob.

#[local] Instance exact_glob_path : GlobPathLib exact_glob := {|
  Pattern_escape s := s;
  matches_path_with p s _ := bool_decide (p = s);
|}.

(** A file system with one file. *)
#[local] Instance one_file : FileSystem := {|
  canonicalize p := if decide (normalize p = "/a") then Some "/a" else None;
  is_symlink _ := false;
  read_link _ := None;
  path_exists p := bool_decide (normalize p = "/a");
|}.

Lemma exact_glob_law : glob_escape_law.
Proof.
  split.
  - intros s. eexists. reflexivity.
  - intros s pat path o [= <-]. simpl. rewrite bool_decide_eq_true. split; intros ->; reflexivity.
Qed.

Lemma one_file_law : fs_law.
Proof.
  split; simpl.
  - intros p c. case_decide; [|done]. intros [= <-]. vm_compute. reflexivity.
  - intros p. by rewrite normalize_idem.
  - intros p Hp. apply bool_decide_eq_true in Hp. rewrite decide_True by done. by eexists.
Qed.

Definition ex_scope : Scope := mk_scope [] [] ∅ (mk_match_options true true) 0.

Lemma file_rules_apply_witness :
  is_allowed (forbid_file "//a" ex_scope).2 "//a" = false ∧
  is_allowed (allow_file "//a" ex_scope).2 "//a" = true.
Proof.
  destruct (file_rules_apply "//a" ex_scope exact_glob_law one_file_law eq_refl) as [Hf Ha].
  split; [exact Hf|]. rewrite Ha. vm_compute. reflexivity.
Defined.

Lemma once_blocks_scope_witness : (allow_file "/a" (once ex_scope).2).1 = Diverge.
Proof.
  eapply (once_blocks_scope "/a" ex_scope). vm_compute. reflexivity.
Defined.

End FsScope.
