(* ===== verification/AssetProtocol.v ===== *)
(** * The asset protocol

    Models [tauri/Source/protocol/asset.rs], which serves files of the file
    system scope with range requests, and [tauri-utils/Source/mime_type.rs].
    The files, the content inference of the [infer] package and the header
    parser of [http_range] are parameters. Lengths and offsets are [u64]: in a
    debug build an overflow panics, in a release build it wraps. *)
From Stdlib Require Import Ascii.
From S2P Require Import Prelude Acl Numbers Channel Paths FsScope.
Import Paths FsScope.

(** Packages the protocol calls. A range is its start and its length. *)
Class AssetLib := {
  open_file : string → option string;
  infer_get : string → option string;
  HttpRange_parse : string → Z → option (list (Z * Z));
  asset_percent_decode : string → string;
}.

Module AssetProtocol.

(** ** Mime types *)
Inductive MimeType :=
| Css | Csv | Html | Ico | Js | Json | Jsonld | Mp4 | OctetStream | Rtf | Svg | Txt.

Definition MIMETYPE_PLAIN : string := "text/plain".

Definition MimeType_to_string (m : MimeType) : string :=
  match m with
  | Css => "text/css"
  | Csv => "text/csv"
  | Html => "text/html"
  | Ico => "image/vnd.microsoft.icon"
  | Js => "text/javascript"
  | Json => "application/json"
  | Jsonld => "application/ld+json"
  | Mp4 => "video/mp4"
  | OctetStream => "application/octet-stream"
  | Rtf => "application/rtf"
  | Svg => "image/svg+xml"
  | Txt => MIMETYPE_PLAIN
  end.

Definition parse_from_uri_with_fallback (uri : string) (fallback : MimeType) : MimeType :=
  match last (split_on "." uri) with
  | Some "bin" => OctetStream
  | Some "css" | Some "less" | Some "sass" | Some "styl" => Css
  | Some "csv" => Csv
  | Some "html" => Html
  | Some "ico" => Ico
  | Some "js" => Js
  | Some "json" => Json
  | Some "jsonld" => Jsonld
  | Some "mjs" => Js
  | Some "mp4" => Mp4
  | Some "rtf" => Rtf
  | Some "svg" => Svg
  | Some "txt" => Txt
  | Some _ => fallback
  | None => OctetStream
  end%string.

Definition parse_from_uri (uri : string) : MimeType := parse_from_uri_with_fallback uri Html.

Section AssetProtocol.
Context {AL : AssetLib} {HL : HttpLib}.

Definition parse_with_fallback (content uri : string) (fallback : MimeType) : string :=
  let mime := if ends_with ".svg" uri then None else infer_get content in
  match mime with
  | Some mime =>
      if decide (mime = MIMETYPE_PLAIN)
      then MimeType_to_string (parse_from_uri_with_fallback uri fallback)
      else mime
  | None => MimeType_to_string (parse_from_uri_with_fallback uri fallback)
  end.

Definition MimeType_parse (content uri : string) : string := parse_with_fallback content uri Html.

(** ** Responses *)
Record Request := mk_request {
  is_head : bool;
  uri_path : string;
  range : option string;
}.

(** Headers in the order they are added; a builder appends. *)
Record Response := mk_response {
  status : Z;
  headers : list (string * string);
  content : string;
}.

Inductive Error := IoError.

(** A number in decimal, as [format!] prints a [u64]. *)
Definition print_u64 (z : Z) : string := print_u32 (Z.to_N z).

(** [u64] arithmetic of a debug or a release build. *)
Definition u64 (debug : bool) (z : Z) : outcome Error Z :=
  if (0 <=? z)%Z && (z <? u64_modulus)%Z then Ok z
  else if debug then Panic "attempt to compute with overflow"
  else Ok (z `mod` u64_modulus)%Z.

(** An empty [Vec] of a capacity: more than [isize::MAX] bytes panic. *)
Definition with_capacity (n : Z) : outcome Error string :=
  if (n <? 2 ^ 63)%Z then Ok EmptyString else Panic "capacity overflow".

(** The bytes read by [seek(start)] then [take(n).read_to_end()]. *)
Definition read_at (file : string) (start n : Z) : string :=
  of_bytes (take (Z.to_nat n) (drop (Z.to_nat start) (bytes file))).

Definition file_len (file : string) : Z := Z.of_nat (String.length file).

Definition MAX_LEN : Z := 1000 * 1024.

(** [r.start + r.length - 1]. *)
Definition spec_range (debug : bool) (r : Z * Z) : outcome Error (Z * Z) :=
  e ← u64 debug (r.1 + r.2);
  e ← u64 debug (e - 1);
  Ok (r.1, e).

Definition satisfiable (len : Z) (r : Z * Z) : bool :=
  negb ((len <=? r.1)%Z || (len <=? r.2)%Z || (r.2 <? r.1)%Z).

(** [start + (end - start).min(len - start).min(MAX_LEN - 1)]. *)
Definition adjust_end (len : Z) (r : Z * Z) : Z :=
  (r.1 + Z.min (Z.min (r.2 - r.1) (len - r.1)) (MAX_LEN - 1))%Z.

Definition not_satisfiable (len : Z) : Response :=
  mk_response 416 [("content-range", "bytes */" +:+ print_u64 len)] "".

Definition content_range (start end_ len : Z) : string :=
  "bytes " +:+ print_u64 start +:+ "-" +:+ print_u64 end_ +:+ "/" +:+ print_u64 len.

Definition crlf : string := String "013"%char (String "010"%char "").

(** One part of a multi-part answer. The loop binds the pair as
    [(end, start)]. *)
Definition write_part (debug : bool) (file mime_type boundary_sep : string) (len : Z)
    (buf : string) (r : Z * Z) : outcome Error string :=
  let '(end_, start) := r in
  let buf := buf +:+ boundary_sep in
  let buf := buf +:+ "content-type: " +:+ mime_type +:+ crlf in
  let buf := buf +:+ "content-range: " +:+ content_range start end_ len +:+ crlf in
  let buf := buf +:+ crlf in
  n ← u64 debug (end_ + 1);
  nbytes ← u64 debug (n - start);
  local_buf ← with_capacity nbytes;
  Ok (buf +:+ local_buf +:+ read_at file start nbytes).

(** The answer to a request with a range header. *)
Definition range_response (debug : bool) (boundary file mime_type : string)
    (resp_headers : list (string * string)) (range_header : string) : outcome Error Response :=
  let len := file_len file in
  let resp_headers := resp_headers ++
    [("accept-ranges", "bytes"); ("access-control-expose-headers", "content-range")] in
  match HttpRange_parse range_header len with
  | None => Ok (not_satisfiable len)
  | Some ranges =>
      ranges ← collect (spec_range debug) ranges;
      match ranges with
      | [(start, end_)] =>
          if negb (satisfiable len (start, end_)) then Ok (not_satisfiable len)
          else
            let end_ := adjust_end len (start, end_) in
            let nbytes := (end_ + 1 - start)%Z in
            Ok (mk_response 206
                  (resp_headers ++ [("content-range", content_range start end_ len);
                                    ("content-length", print_u64 nbytes)])
                  (read_at file start nbytes))
      | _ =>
          let ranges :=
            (λ r, (r.1, adjust_end len r)) <$> List.filter (satisfiable len) ranges in
          let boundary_sep := crlf +:+ "--" +:+ boundary +:+ crlf in
          let boundary_closer := crlf +:+ "--" +:+ boundary +:+ crlf in
          buf ← for_each (write_part debug file mime_type boundary_sep len) ranges "";
          Ok (mk_response 200
                (resp_headers ++ [("content-type", "multipart/byteranges; boundary=" +:+ boundary)])
                (buf +:+ boundary_closer))
      end
  end.

Section Serve.
Context {GL : GlobLib} {GP : GlobPathLib GL} {FS : FileSystem}.

Definition get_response (debug : bool) (boundary : string) (scope : Scope) (window_origin : string)
    (request : Request) : outcome Error Response :=
  path ← (match uri_path request with
          | EmptyString => Panic "byte index 1 is out of bounds"
          | String _ rest => Ok (asset_percent_decode rest)
          end);
  let resp_headers := [("access-control-allow-origin", window_origin)] in
  match SafePathBuf_new path with
  | Ok _ =>
      if negb (is_allowed scope path) then Ok (mk_response 403 resp_headers "")
      else
        file ← ok_or (open_file path) IoError;
        let len := file_len file in
        let nbytes := Z.min len 8192 in
        let magic_buf := read_at file 0 nbytes in
        let mime_type := MimeType_parse magic_buf path in
        let read_bytes := if (len <? 8192)%Z then Some magic_buf else None in
        let resp_headers := resp_headers ++ [("content-type", mime_type)] in
        match (r ← range request; HeaderValue_to_str r) with
        | Some range_header =>
            range_response debug boundary file mime_type resp_headers range_header
        | None =>
            let resp_headers := resp_headers ++ [("content-length", print_u64 len)] in
            if is_head request then Ok (mk_response 200 resp_headers "")
            else
              let buf := match read_bytes with Some b => b | None => file end in
              Ok (mk_response 200 resp_headers buf)
        end
  | _ => Ok (mk_response 403 resp_headers "")
  end.

(** An error is answered as text. *)
Definition get (debug : bool) (boundary : string) (scope : Scope) (window_origin : string)
    (error_text : string) (request : Request) : outcome Error Response :=
  match get_response debug boundary scope window_origin request with
  | Err _ =>
      Ok (mk_response 500 [("content-type", "text/plain"); ("access-control-allow-origin", window_origin)]
            error_text)
  | r => r
  end.

(** ** Lemmas *)
Lemma length_read_at file start n :
  (0 ≤ start)%Z → (0 ≤ n)%Z → (start + n ≤ file_len file)%Z →
  String.length (read_at file start n) = Z.to_nat n.
Proof.
  intros Hs Hn Hlen. unfold read_at, file_len in *.
  rewrite <-length_bytes, bytes_of_bytes, length_take, length_drop, length_bytes. lia.
Qed.

Lemma read_at_whole file : read_at file 0 (file_len file) = file.
Proof.
  unfold read_at, file_len. rewrite Nat2Z.id, drop_0, <-length_bytes, firstn_all. apply of_bytes_bytes.
Qed.

Lemma satisfiable_spec len r :
  satisfiable len r = true ↔ (r.1 < len ∧ r.2 < len ∧ r.1 ≤ r.2)%Z.
Proof.
  unfold satisfiable. rewrite negb_true_iff, !orb_false_iff, !Z.leb_gt, Z.ltb_ge. tauto.
Qed.

Lemma adjust_end_bounds len start end_ :
  satisfiable len (start, end_) = true →
  let e := adjust_end len (start, end_) in
  (start ≤ e ≤ end_ ∧ e < len ∧ e + 1 - start ≤ MAX_LEN)%Z ∧
  ((end_ - start < MAX_LEN)%Z → e = end_).
Proof. rewrite satisfiable_spec. unfold adjust_end, MAX_LEN. simpl. lia. Qed.

(** ** Properties *)

(** C27. Files leave only through the scope: a response other than the refusal
    is given only for a path without parent directories that the scope allows. *)
Theorem asset_access_guarded debug boundary scope origin request resp :
  get_response debug boundary scope origin request = Ok resp →
  status resp ≠ 403%Z →
  ∃ c rest, uri_path request = String c rest ∧
    (ParentDir ∉ components (asset_percent_decode rest)) ∧
    is_allowed scope (asset_percent_decode rest) = true ∧
    is_forbidden scope (asset_percent_decode rest) = false.
Proof.
  unfold get_response. intros H Hs. apply bind_ok in H as (path & Hp & H).
  destruct (uri_path request) as [|c rest]; [done|]. injection Hp as <-. exists c, rest.
  unfold SafePathBuf_new in H. destruct (existsb _ _) eqn:He; [injection H as <-; done|].
  destruct (is_allowed scope _) eqn:Ha; [|injection H as <-; done].
  split_and!; [done| |done|by apply is_allowed_not_forbidden].
  intros Hin. apply not_true_iff_false in He. apply He, existsb_exists.
  exists ParentDir. split; [by apply list_elem_of_In|done].
Qed.

(** C36. A single range is answered with exactly its bytes: the status is 206,
    the body is the part of the file from the start to the adjusted end, as
    long as the content length says and at most [MAX_LEN] bytes, and the end is
    the requested one whenever it fits; a range outside of the file is refused
    with 416. *)
Theorem single_range_served debug boundary file mime hs header start n resp :
  HttpRange_parse header (file_len file) = Some [(start, n)] →
  (0 ≤ start)%Z → (0 < n)%Z → (start + n < u64_modulus)%Z →
  range_response debug boundary file mime hs header = Ok resp →
  (start + n ≤ file_len file ∧
   ∃ e, status resp = 206%Z ∧ (start ≤ e < file_len file)%Z ∧ (e + 1 - start ≤ MAX_LEN)%Z ∧
     content resp = read_at file start (e + 1 - start) ∧
     Z.of_nat (String.length (content resp)) = (e + 1 - start)%Z ∧
     ((n ≤ MAX_LEN)%Z → e = start + n - 1)%Z ∧
     ("content-range", content_range start e (file_len file)) ∈ headers resp ∧
     ("content-length", print_u64 (e + 1 - start)) ∈ headers resp)%Z ∨
  (file_len file < start + n ∧ resp = not_satisfiable (file_len file))%Z.
Proof.
  intros Hp Hs Hn Hb H. unfold range_response in H. rewrite Hp in H. simpl in H.
  assert (spec_range debug (start, n) = Ok (start, start + n - 1)%Z) as Hr.
  { unfold spec_range, u64. simpl.
    destruct (Z.leb_spec 0 (start + n)); [|lia]. destruct (Z.ltb_spec (start + n) u64_modulus); [|lia].
    simpl. destruct (Z.leb_spec 0 (start + n - 1)); [|lia].
    destruct (Z.ltb_spec (start + n - 1) u64_modulus); [done|lia]. }
  rewrite Hr in H. simpl in H.
  destruct (satisfiable (file_len file) (start, (start + n - 1)%Z)) eqn:Hsat; simpl in H.
  - destruct (adjust_end_bounds _ _ _ Hsat) as [(He & Hl & Hm) Hfit].
    apply satisfiable_spec in Hsat. simpl in Hsat. injection H as <-. left. split; [lia|].
    set (e := adjust_end (file_len file) (start, (start + n - 1)%Z)) in *.
    exists e. simpl. split_and!; try done; try lia.
    + rewrite length_read_at by lia. lia.
    + set_solver.
    + set_solver.
  - injection H as <-. right. split; [|done]. apply not_true_iff_false in Hsat.
    rewrite satisfiable_spec in Hsat. simpl in Hsat. lia.
Qed.

(** Without a range header the whole file is served: the body of a GET is
    the file, whether or not it was read for its type already, a HEAD has no
    body, and both announce the length of the file. *)
Theorem whole_file_served debug boundary scope origin request c rest file :
  uri_path request = String c rest → range request = None →
  SafePathBuf_new (asset_percent_decode rest) = Ok (asset_percent_decode rest) →
  is_allowed scope (asset_percent_decode rest) = true →
  open_file (asset_percent_decode rest) = Some file →
  ∃ hs, get_response debug boundary scope origin request =
    Ok (mk_response 200 hs (if is_head request then "" else file)) ∧
    ("content-length", print_u64 (file_len file)) ∈ hs ∧
    ("access-control-allow-origin", origin) ∈ hs.
Proof.
  intros Hu Hr Hs Ha Ho. unfold get_response. rewrite Hu. simpl. rewrite Hs, Ha, Ho, Hr. simpl.
  assert ((if (file_len file <? 8192)%Z then Some (read_at file 0 (Z.min (file_len file) 8192)) else None)
    = Some file ∨ (if (file_len file <? 8192)%Z then Some (read_at file 0 (Z.min (file_len file) 8192))
    else None) = None) as [-> | ->].
  { destruct (Z.ltb_spec (file_len file) 8192); [|by right]. left.
    rewrite Z.min_l by lia. by rewrite read_at_whole. }
  all: destruct (is_head request); eexists; split_and!; [done|..];
    set_solver.
Qed.

End Serve.
End AssetProtocol.

(** ** Witnesses *)
#[local] Existing Instances exact_glob exact_glob_path one_file Channel.ascii_http.

(** One file of ten bytes, and a parser that knows two headers. *)
#[local] Instance ex_assets : AssetLib := {|
  open_file p := if decide (p = "/a") then Some "0123456789" else None;
  infer_get _ := None;
  HttpRange_parse h len :=
    if decide (h = "bytes=2-4") then Some [(2, 3)%Z]
    else if decide (h = "bytes=0-1,4-8") then Some [(0, 2)%Z; (4, 5)%Z] else None;
  asset_percent_decode p := p;
|}.

Definition ex_allowed : Scope := (allow_file "/a" ex_scope).2.
Definition ex_get (r : option string) : Request := mk_request false "//a" r.

Definition ex_served : Response :=
  mk_response 200 [("access-control-allow-origin", "tauri://localhost"); ("content-type", "text/html");
                   ("content-length", "10")] "0123456789".

Definition ex_part : Response :=
  mk_response 206 [("accept-ranges", "bytes"); ("access-control-expose-headers", "content-range");
                   ("content-range", "bytes 2-4/10"); ("content-length", "3")] "234".

Lemma asset_access_guarded_witness :
  get_response true "b" ex_allowed "tauri://localhost" (ex_get None) = Ok ex_served ∧
  is_forbidden ex_allowed "/a" = false.
Proof.
  assert (get_response true "b" ex_allowed "tauri://localhost" (ex_get None) = Ok ex_served) as H
    by (vm_compute; reflexivity).
  split; [exact H|].
  destruct (asset_access_guarded true "b" ex_allowed "tauri://localhost" (ex_get None) ex_served H
    ltac:(discriminate)) as (c & rest & Hu & _ & _ & Hf).
  injection Hu as _ <-. exact Hf.
Defined.

Lemma single_range_served_witness :
  range_response true "b" "0123456789" "text/plain" [] "bytes=2-4" = Ok ex_part ∧
  (2 + 3 ≤ file_len "0123456789")%Z.
Proof.
  assert (range_response true "b" "0123456789" "text/plain" [] "bytes=2-4" = Ok ex_part) as H
    by (vm_compute; reflexivity).
  assert (HttpRange_parse "bytes=2-4" (file_len "0123456789") = Some [(2, 3)%Z]) as Hp by reflexivity.
  split; [exact H|].
  destruct (single_range_served true "b" "0123456789" "text/plain" [] "bytes=2-4" 2 3 ex_part
    Hp ltac:(lia) ltac:(lia) ltac:(vm_compute; reflexivity) H)
    as [[Hl _]|[Hl _]]; [exact Hl|].
  vm_compute in Hl. discriminate Hl.
Defined.

Lemma whole_file_served_witness :
  ∃ hs, get_response false "b" ex_allowed "tauri://localhost" (ex_get None) =
    Ok (mk_response 200 hs "0123456789").
Proof.
  destruct (whole_file_served false "b" ex_allowed "tauri://localhost" (ex_get None) "/" "/a"
    "0123456789") as (hs & H & _); try (vm_compute; reflexivity).
  exists hs. exact H.
Defined.

(** A request for two ranges, one of them longer than two bytes, panics: the
    loop over the parts swaps start and end, and the length of the part
    underflows. *)
Theorem multi_range_underflows :
  range_response true "b" "0123456789" "text/plain" [] "bytes=0-1,4-8" =
    Panic "attempt to compute with overflow" ∧
  range_response false "b" "0123456789" "text/plain" [] "bytes=0-1,4-8" =
    Panic "capacity overflow".
Proof. split; vm_compute; reflexivity. Qed.

End AssetProtocol.
