(* ===== verification/Csp.v ===== *)
(** * Content security policies

    Models the policies and response headers of [tauri-utils/Source/config.rs]
    and the functions of [tauri/Source/manager/mod.rs] that put nonces and
    hashes into a served page and its policy: [replace_with_callback],
    [replace_csp_nonce] and [set_csp]. Random numbers are a stream, and the
    order in which a [HashMap] is visited is a parameter. *)
From Stdlib Require Import Ascii DecimalString.
From S2P Require Import Prelude Acl Numbers Paths.
Import Paths.

(** The order in which a [HashMap] is visited: some list of its entries. *)
Class HashOrder := {
  hash_iter {V} : gmap string V → list (string * V);
  hash_iter_perm {V} (m : gmap string V) : hash_iter m ≡ₚ map_to_list m;
}.

Module Csp.

(** ** Text of the standard library *)

(** The characters [char::is_whitespace] accepts, as bytes. *)
Definition whitespace : list string :=
  of_bytes <$> (map ascii_of_nat <$>
    [[9]; [10]; [11]; [12]; [13]; [32]; [194; 133]; [194; 160]; [225; 154; 128];
     [226; 128; 128]; [226; 128; 129]; [226; 128; 130]; [226; 128; 131]; [226; 128; 132];
     [226; 128; 133]; [226; 128; 134]; [226; 128; 135]; [226; 128; 136]; [226; 128; 137];
     [226; 128; 138]; [226; 128; 168]; [226; 128; 169]; [226; 128; 175]; [226; 129; 159];
     [227; 128; 128]]).

(** Strip any of the given prefixes as long as there is one; every round strips
    a byte, so the length of the text is enough fuel. *)
Fixpoint strip_while (fuel : nat) (ps : list string) (s : string) : string :=
  match fuel with
  | O => s
  | S fuel =>
      match omap (λ p, strip_prefix p s) ps with
      | [] => s
      | s' :: _ => strip_while fuel ps s'
      end
  end.

Definition trim_start_with (ps : list string) (s : string) : string :=
  strip_while (String.length s) ps s.

Definition trim_end_with (ps : list string) (s : string) : string :=
  rev_string (trim_start_with (rev_string <$> ps) (rev_string s)).

Definition trim (s : string) : string := trim_end_with whitespace (trim_start_with whitespace s).

(** The offsets of the non-overlapping occurrences of a non-empty pattern, from
    left to right; [skip] bytes belong to the last occurrence. *)
Fixpoint match_indices_from (p : string) (skip off : nat) (s : string) : list nat :=
  match s with
  | EmptyString => []
  | String _ s' =>
      match skip with
      | S k => match_indices_from p k (S off) s'
      | O =>
          if starts_with p s
          then off :: match_indices_from p (String.length p - 1) (S off) s'
          else match_indices_from p O (S off) s'
      end
  end.

Definition match_indices (s p : string) : list nat := match_indices_from p 0 0 s.

(** [original.get_unchecked(a..b)]. *)
Definition slice (s : string) (a b : nat) : string :=
  of_bytes (take (b - a) (drop a (bytes s))).

(** ** Policies *)
Inductive CspDirectiveSources :=
| Inline (s : string)
| List (l : list string).

Definition CspDirectiveSources_default : CspDirectiveSources := List [].

Definition sources_vec (sources : CspDirectiveSources) : list string :=
  match sources with
  | Inline source => split_on " " source
  | List l => l
  end.

Definition contains (self : CspDirectiveSources) (source : string) : bool :=
  match self with
  | Inline s => Acl.str_contains (source +:+ " ") s || Acl.str_contains (" " +:+ source) s
  | List l => bool_decide (source ∈ l)
  end.

Definition push (self : CspDirectiveSources) (source : string) : CspDirectiveSources :=
  match self with
  | Inline s => Inline ((s +:+ " ") +:+ source)
  | List l => List (l ++ [source])
  end.

Definition extend (self : CspDirectiveSources) (sources : list string) : CspDirectiveSources :=
  foldl push self sources.

Abbreviation DirectiveMap' := (gmap string CspDirectiveSources).

Inductive Csp :=
| Policy (s : string)
| DirectiveMap (m : DirectiveMap').

Definition insert_directive (map : DirectiveMap') (directive : string) : DirectiveMap' :=
  match split_on " " (trim directive) with
  | directive :: sources => <[directive := List sources]> map
  | [] => map
  end.

Definition Csp_into_map (csp : Csp) : DirectiveMap' :=
  match csp with
  | Policy policy => foldl insert_directive ∅ (split_on ";" policy)
  | DirectiveMap m => m
  end.

(** The loop of both [Display] implementations: a separator after every item
    but the one that makes [len]. *)
Fixpoint write_items (len i : nat) (items : list string) : string :=
  match items with
  | [] => ""
  | item :: items =>
      item +:+ (if decide (S i = len) then "" else "; ") +:+ write_items len (S i) items
  end.

Definition Csp_to_string `{HashOrder} (csp : Csp) : string :=
  match csp with
  | Policy s => s
  | DirectiveMap m =>
      write_items (size m) 0
        ((λ '(directive, sources), directive +:+ " " +:+ join " " (sources_vec sources)) <$> hash_iter m)
  end.

Inductive DisabledCspModificationKind :=
| Flag (f : bool)
| DisabledList (l : list string).

Definition can_modify (self : DisabledCspModificationKind) (directive : string) : bool :=
  match self with
  | Flag f => negb f
  | DisabledList l => bool_decide (directive ∉ l)
  end.

(** ** Response headers of the configuration *)
Inductive HeaderSource :=
| InlineHeader (s : string)
| ListHeader (l : list string)
| MapHeader (m : gmap string string).

Definition HeaderSource_to_string `{HashOrder} (h : HeaderSource) : string :=
  match h with
  | InlineHeader s => s
  | ListHeader l => join ", " l
  | MapHeader m =>
      write_items (size m) 0 ((λ '(key, value), key +:+ " " +:+ value) <$> hash_iter m)
  end.

Record HeaderConfig := mk_header_config {
  access_control_allow_credentials : option HeaderSource;
  access_control_allow_headers : option HeaderSource;
  access_control_allow_methods : option HeaderSource;
  access_control_expose_headers : option HeaderSource;
  access_control_max_age : option HeaderSource;
  cross_origin_embedder_policy : option HeaderSource;
  cross_origin_opener_policy : option HeaderSource;
  cross_origin_resource_policy : option HeaderSource;
  permissions_policy : option HeaderSource;
  timing_allow_origin : option HeaderSource;
  x_content_type_options : option HeaderSource;
  tauri_custom_header : option HeaderSource;
}.

Definition add_header `{HashOrder} (name : string) (value : option HeaderSource)
    (self : list (string * string)) : list (string * string) :=
  match value with
  | Some value => self ++ [(name, HeaderSource_to_string value)]
  | None => self
  end.

Definition add_configured_headers `{HashOrder} (self : list (string * string))
    (headers : option HeaderConfig) : list (string * string) :=
  match headers with
  | Some headers =>
      let self := add_header "Access-Control-Allow-Credentials" (access_control_allow_credentials headers) self in
      let self := add_header "Access-Control-Allow-Headers" (access_control_allow_headers headers) self in
      let self := add_header "Access-Control-Allow-Methods" (access_control_allow_methods headers) self in
      let self := add_header "Access-Control-Expose-Headers" (access_control_expose_headers headers) self in
      let self := add_header "Access-Control-Max-Age" (access_control_max_age headers) self in
      let self := add_header "Cross-Origin-Embedder-Policy" (cross_origin_embedder_policy headers) self in
      let self := add_header "Cross-Origin-Opener-Policy" (cross_origin_opener_policy headers) self in
      let self := add_header "Cross-Origin-Resource-Policy" (cross_origin_resource_policy headers) self in
      let self := add_header "Permission-Policy" (permissions_policy headers) self in
      let self := add_header "Timing-Allow-Origin" (timing_allow_origin headers) self in
      let self := add_header "X-Content-Type-Options" (x_content_type_options headers) self in
      add_header "Tauri-Custom-Header" (tauri_custom_header headers) self
  | None => self
  end.

(** ** Nonces and hashes *)
Definition SCRIPT_NONCE_TOKEN : string := "__TAURI_SCRIPT_NONCE__".
Definition STYLE_NONCE_TOKEN : string := "__TAURI_STYLE_NONCE__".

Inductive CspHash := Script (hash : string) | Style (hash : string).

Definition CspHash_directive (h : CspHash) : string :=
  match h with Script _ => "script-src" | Style _ => "style-src" end.

Definition CspHash_hash (h : CspHash) : string :=
  match h with Script hash => hash | Style hash => hash end.

Record CspHashStrings := mk_hash_strings { script : list string; style : list string }.

Definition push_hash (acc : CspHashStrings) (hash : CspHash) : CspHashStrings :=
  match hash with
  | Script hash => mk_hash_strings (script acc ++ [hash]) (style acc)
  | Style hash => mk_hash_strings (script acc) (style acc ++ [hash])
  end.

(** The callback of type [FnMut() -> String] threads a state. *)
Definition replace_with_callback {S} (original pattern : string) (replacement : S → string * S)
    (s : S) : string * S :=
  let '(result, last_end, s) :=
    foldl (λ '(result, last_end, s) start,
             let '(r, s) := replacement s in
             (result +:+ slice original last_end start +:+ r, start + String.length pattern, s))
      ("", 0, s) (match_indices original pattern) in
  (result +:+ slice original last_end (String.length original), s).

(** The random numbers to come, and the nonces taken from them so far. *)
Definition take_nonce (st : (nat → N) * list N) : string * ((nat → N) * list N) :=
  let '(random, nonces) := st in
  let nonce := random 0 in
  (print_u32 nonce, (λ i, random (S i), nonces ++ [nonce])).

Definition replace_csp_nonce (asset token : string) (csp : DirectiveMap') (directive : string)
    (hashes : list string) (random : nat → N) : string * DirectiveMap' * (nat → N) :=
  let '(asset, (random, nonces)) := replace_with_callback asset token take_nonce (random, []) in
  let csp :=
    if bool_decide (nonces = []) && bool_decide (hashes = []) then csp
    else
      let nonce_sources := (λ n, "'nonce-" +:+ print_u32 n +:+ "'") <$> nonces in
      entry_or CspDirectiveSources_default (λ sources,
        let self_source := "'self'" in
        let sources := if contains sources self_source then sources else push sources self_source in
        let sources := extend sources nonce_sources in
        extend sources hashes) directive csp in
  (asset, csp, random).

Definition set_csp (asset : string) (csp_hashes : list CspHash)
    (dangerous_disable_asset_csp_modification : DisabledCspModificationKind) (csp : Csp)
    (random : nat → N) : string * DirectiveMap' * (nat → N) :=
  let csp := Csp_into_map csp in
  let hash_strings := foldl push_hash (mk_hash_strings [] []) csp_hashes in
  let '(asset, csp, random) :=
    if can_modify dangerous_disable_asset_csp_modification "script-src"
    then replace_csp_nonce asset SCRIPT_NONCE_TOKEN csp "script-src" (script hash_strings) random
    else (asset, csp, random) in
  if can_modify dangerous_disable_asset_csp_modification "style-src"
  then replace_csp_nonce asset STYLE_NONCE_TOKEN csp "style-src" (style hash_strings) random
  else (asset, csp, random).

(** ** Specification of the replacement *)

(** Pieces with replacements between them. *)
Fixpoint interleave (pieces rs : list string) : string :=
  match pieces, rs with
  | x :: xs, r :: rs => x +:+ r +:+ interleave xs rs
  | x :: _, [] => x
  | [], _ => ""
  end.

(** [asset'] is [asset] with its tokens replaced by the nonces, one each. *)
Definition nonced (token asset : string) (nonces : list N) (asset' : string) : Prop :=
  ∃ pieces, asset = join token pieces ∧ length pieces = S (length nonces) ∧
    (∀ x, x ∈ pieces → Acl.str_contains token x = false) ∧
    asset' = interleave pieces (print_u32 <$> nonces).

Definition nonce_source (n : N) : string := "'nonce-" +:+ print_u32 n +:+ "'".

(** What a directive becomes when nonces and hashes are added to it. *)
Definition gained (modify : bool) (directive : string) (nonces : list N) (hashes : list string)
    (before after : DirectiveMap') : Prop :=
  if modify && negb (bool_decide (nonces = []) && bool_decide (hashes = [])) then
    let old := default CspDirectiveSources_default (before !! directive) in
    ∃ new, after !! directive = Some new ∧
      sources_vec new = sources_vec old ++ (if contains old "'self'" then [] else ["'self'"]) ++
        (nonce_source <$> nonces) ++ hashes
  else after !! directive = before !! directive.

(** [n] calls of the callback. *)
Fixpoint calls {S} (replacement : S → string * S) (n : nat) (s : S) : list string * S :=
  match n with
  | O => ([], s)
  | S n =>
      let '(r, s) := replacement s in
      let '(rs, s) := calls replacement n s in (r :: rs, s)
  end.

(** The pieces of a text between the occurrences of the pattern. *)
Fixpoint pieces_from (p : string) (skip : nat) (s : string) : list string :=
  match s with
  | EmptyString => [""]
  | String c s' =>
      match skip with
      | S k => pieces_from p k s'
      | O =>
          if starts_with p s then "" :: pieces_from p (String.length p - 1) s'
          else match pieces_from p O s' with
               | x :: xs => String c x :: xs
               | [] => [String c ""]
               end
      end
  end.

(** ** Lemmas on pieces *)
Lemma pieces_from_ne p skip s : pieces_from p skip s ≠ [].
Proof.
  revert skip. induction s as [|c s IH]; intros [|k]; simpl; [done|done| |apply IH].
  destruct (starts_with _ _); [done|]. by destruct (pieces_from p 0 s).
Qed.

Lemma join_cons p x xs : xs ≠ [] → join p (x :: xs) = x +:+ p +:+ join p xs.
Proof. by destruct xs. Qed.

Lemma join_head p c x xs : join p (String c x :: xs) = String c (join p (x :: xs)).
Proof. by destruct xs. Qed.

(** The pieces joined by the pattern are the text. *)
Lemma pieces_from_join p skip s :
  p ≠ "" → skip ≤ String.length s →
  bytes (join p (pieces_from p skip s)) = drop skip (bytes s).
Proof.
  intros Hp. revert skip. induction s as [|c s IH]; intros [|k] Hk; cbn [pieces_from].
  - done.
  - simpl in Hk. lia.
  - destruct (starts_with p (String c s)) eqn:Hs.
    + apply starts_with_spec in Hs as [r Hr].
      rewrite join_cons by apply pieces_from_ne. rewrite append_nil_l, bytes_append, IH.
      * destruct p as [|d p]; [done|]. rewrite append_cons in Hr. injection Hr as -> ->.
        simpl. by rewrite Nat.sub_0_r, bytes_append, <-length_bytes, drop_app_length.
      * apply (f_equal String.length) in Hr. rewrite length_append in Hr. simpl in Hr. lia.
    + specialize (IH 0 ltac:(lia)). destruct (pieces_from p 0 s) as [|x xs] eqn:Hx;
        [by apply pieces_from_ne in Hx|].
      rewrite join_head. cbn [String.list_ascii_of_string]. by rewrite IH, !drop_0.
  - simpl in Hk. simpl. apply IH. lia.
Qed.

(** The first piece is a prefix of the text. *)
Lemma pieces_from_head p s x xs : p ≠ "" → pieces_from p 0 s = x :: xs → ∃ r, s = x +:+ r.
Proof.
  intros Hp Hx. pose proof (pieces_from_join p 0 s Hp ltac:(lia)) as Hj.
  rewrite Hx, drop_0 in Hj. apply bytes_inj in Hj. destruct xs as [|y ys].
  - exists "". by rewrite append_nil_r.
  - rewrite join_cons in Hj by done. eauto.
Qed.

Lemma starts_with_app p a b : starts_with p a = true → starts_with p (a +:+ b) = true.
Proof.
  rewrite !starts_with_spec. intros [r ->]. exists (r +:+ b). by rewrite append_assoc.
Qed.

(** No piece contains the pattern. *)
Lemma pieces_from_clean p skip s x :
  p ≠ "" → x ∈ pieces_from p skip s → Acl.str_contains p x = false.
Proof.
  intros Hp. assert (Acl.str_contains p "" = false) as Hnil by by destruct p.
  revert skip x. induction s as [|c s IH]; intros [|k] x; cbn [pieces_from]; eauto.
  1, 2: rewrite list_elem_of_singleton; by intros ->.
  destruct (starts_with p (String c s)) eqn:Hs.
  - rewrite elem_of_cons. intros [->|Hx]; eauto.
  - destruct (pieces_from p 0 s) as [|y ys] eqn:Hy; [by apply pieces_from_ne in Hy|].
    rewrite elem_of_cons. intros [->|Hx]; [|apply (IH 0); rewrite Hy; by right].
    cbn [Acl.str_contains]. rewrite (IH 0) by (rewrite Hy; left). rewrite orb_false_r.
    destruct (pieces_from_head p s y ys Hp Hy) as [r ->].
    apply not_true_iff_false. intros Ht. apply (starts_with_app _ _ r) in Ht.
    rewrite append_cons in Ht. congruence.
Qed.

Lemma slice_empty s a b : b ≤ a → slice s a b = "".
Proof. intros H. unfold slice. by replace (b - a) with 0 by lia. Qed.

Lemma slice_snoc pre c s a :
  a ≤ String.length pre →
  slice (pre +:+ String c s) a (S (String.length pre)) =
  slice (pre +:+ String c s) a (String.length pre) +:+ String c "".
Proof.
  intros Ha. unfold slice. rewrite bytes_append. simpl bytes.
  rewrite drop_app_le by (rewrite length_bytes; lia).
  set (l := drop a (bytes pre)).
  assert (length l = String.length pre - a) as Hl by (unfold l; by rewrite length_drop, length_bytes).
  rewrite !take_app. rewrite !take_ge by lia.
  replace (S (String.length pre) - a - length l) with 1 by lia.
  replace (String.length pre - a - length l) with 0 by lia. simpl.
  rewrite take_0, (take_ge l), app_nil_r by lia. by rewrite of_bytes_append.
Qed.

Lemma interleave_head c x xs rs : interleave (String c x :: xs) rs = String c (interleave (x :: xs) rs).
Proof. by destruct rs. Qed.

Section Callback.
Context {St : Type} (original pattern : string) (replacement : St → string * St).

Abbreviation step := (λ '(result, last_end, s) start,
  let '(r, s) := replacement s in
  (result +:+ slice original last_end start +:+ r, start + String.length pattern, s)).

(** The loop from any position: what is written is the result so far, the part
    since the last match, and the remaining pieces with their replacements. *)
Lemma replace_loop s pre skip res a st :
  pattern ≠ "" → original = pre +:+ s → skip ≤ String.length s →
  (if decide (skip = 0) then a ≤ String.length pre else a = String.length pre + skip) →
  let '(result, last_end, st') :=
    foldl step (res, a, st) (match_indices_from pattern skip (String.length pre) s) in
  let pieces := pieces_from pattern skip s in
  let '(rs, st'') := calls replacement (length pieces - 1) st in
  st' = st'' ∧ length rs = length pieces - 1 ∧
  result +:+ slice original last_end (String.length original) =
    res +:+ slice original a (String.length pre) +:+ interleave pieces rs.
Proof.
  intros Hp. revert pre skip res a st.
  induction s as [|c s IH]; intros pre skip res a st Ho Hk Ha.
  { simpl in Hk. replace skip with 0 in * by lia. simpl. split_and!; [done|done|].
    rewrite Ho at 2. by rewrite !append_nil_r. }
  assert (original = (pre +:+ String c "") +:+ s) as Ho' by by rewrite append_assoc.
  assert (String.length (pre +:+ String c "") = S (String.length pre)) as Hlen
    by (rewrite length_append; simpl; lia).
  destruct skip as [|k]; cbn [match_indices_from pieces_from].
  - simpl in Ha. destruct (starts_with pattern (String c s)) eqn:Hs.
    + apply starts_with_spec in Hs as [r Hr]. apply (f_equal String.length) in Hr.
      rewrite length_append in Hr. cbn [String.length] in Hr.
      assert (String.length pattern ≠ 0) as Hp0 by by destruct pattern.
      cbn [foldl]. destruct (replacement st) as [x st1] eqn:Hx.
      specialize (IH (pre +:+ String c "") (String.length pattern - 1)
        (res +:+ slice original a (String.length pre) +:+ x) (String.length pre + String.length pattern)
        st1 Ho' ltac:(lia)).
      rewrite Hlen in IH. destruct (foldl step _ _) as [[result last_end] st'].
      pose proof (pieces_from_ne pattern (String.length pattern - 1) s) as Hne.
      set (ps := pieces_from pattern _ s) in *. cbv zeta in *.
      replace (length ("" :: ps) - 1) with (length ps) by (simpl; lia).
      destruct (length ps) as [|n] eqn:Hn; [by destruct ps|]. cbn [calls]. rewrite Hx.
      replace (S n - 1) with n in IH by lia.
      destruct (calls replacement n st1) as [rs st''].
      destruct IH as (-> & Hrs & ->); [case_decide; lia|]. simpl. split_and!; [done|lia|].
      rewrite (slice_empty _ (_ + _)) by lia. by rewrite !append_assoc.
    + specialize (IH (pre +:+ String c "") 0 res a st Ho' ltac:(lia)). rewrite Hlen in IH.
      destruct (foldl step _ _) as [[result last_end] st'].
      destruct (pieces_from pattern 0 s) as [|x xs] eqn:Hx; [by apply pieces_from_ne in Hx|].
      cbn [length] in *. destruct (calls replacement _ st) as [rs st''].
      destruct IH as (-> & Hrs & ->); [simpl; lia|]. split_and!; [done|done|].
      rewrite interleave_head, Ho, slice_snoc, append_assoc by done. done.
  - specialize (IH (pre +:+ String c "") k res a st Ho'). rewrite Hlen in IH.
    simpl in Ha, Hk. cbv zeta in *. destruct (foldl step _ _) as [[result last_end] st'].
    destruct (calls replacement _ st) as [rs st''].
    destruct IH as (-> & Hrs & ->); [lia|case_decide; lia|]. split_and!; [done|done|].
    rewrite (slice_empty _ a (S _)), (slice_empty _ a (String.length pre)) by lia. done.
Qed.

Lemma replace_with_callback_spec st :
  pattern ≠ "" →
  ∃ pieces rs, original = join pattern pieces ∧ length pieces = S (length rs) ∧
    (∀ x, x ∈ pieces → Acl.str_contains pattern x = false) ∧
    calls replacement (length rs) st = (rs, (replace_with_callback original pattern replacement st).2) ∧
    (replace_with_callback original pattern replacement st).1 = interleave pieces rs.
Proof.
  intros Hp. pose proof (replace_loop original "" 0 "" 0 st Hp eq_refl ltac:(lia) ltac:(simpl; lia)) as H.
  unfold replace_with_callback, match_indices. cbn [String.length] in H.
  destruct (foldl step _ _) as [[result last_end] st']. simpl.
  pose proof (pieces_from_ne pattern 0 original) as Hne.
  pose proof (pieces_from_join pattern 0 original Hp ltac:(lia)) as Hj.
  pose proof (λ x, pieces_from_clean pattern 0 original x Hp) as Hc.
  set (ps := pieces_from pattern 0 original) in *.
  destruct (calls replacement (length ps - 1) st) as [rs st''] eqn:Hcalls.
  destruct H as (-> & Hrs & Hres). exists ps, rs. split_and!.
  - rewrite drop_0 in Hj. by apply bytes_inj.
  - destruct ps; [done|]. simpl in *. lia.
  - done.
  - by rewrite Hrs.
  - rewrite Hres. done.
Qed.
End Callback.

(** Each call of [take_nonce] takes the next random number. *)
Lemma calls_take_nonce n random ns :
  calls take_nonce n (random, ns) =
  (print_u32 <$> (random <$> seq 0 n), (λ i, random (n + i), ns ++ (random <$> seq 0 n))).
Proof.
  revert random ns. induction n as [|n IH]; intros random ns; simpl; [by rewrite app_nil_r|].
  rewrite IH, <-app_assoc. simpl. by rewrite <-fmap_S_seq, <-!list_fmap_compose.
Qed.

(** ** Lemmas on sources *)
Definition one_source (s : string) : Prop := split_on " " s = [s].

Lemma no_space_one_source s : " "%char ∉ bytes s → one_source s.
Proof.
  intros H. unfold one_source, split_on. rewrite split_bytes_single by done. simpl.
  by rewrite of_bytes_bytes.
Qed.

Lemma print_u32_no_space n : " "%char ∉ bytes (print_u32 n).
Proof.
  unfold print_u32. assert (∀ d, " "%char ∉ bytes (NilEmpty.string_of_uint d)) as H.
  { intros d. induction d; simpl; [apply not_elem_of_nil|..]; rewrite not_elem_of_cons; done. }
  unfold NilZero.string_of_uint. pose proof (to_uint_not_nil n). destruct (N.to_uint n); try apply H. done.
Qed.

Lemma nonce_one_source n : one_source (nonce_source n).
Proof.
  apply no_space_one_source. unfold nonce_source. rewrite !bytes_append, !not_elem_of_app.
  split_and!; [|apply print_u32_no_space|]; by apply (bool_decide_unpack _).
Qed.

Lemma sources_push src x : one_source x → sources_vec (push src x) = sources_vec src ++ [x].
Proof.
  intros Hx. destruct src as [s|l]; [|done]. simpl. unfold one_source, split_on in *.
  rewrite append_assoc, !bytes_append. simpl. rewrite split_bytes_app, fmap_app. by rewrite Hx.
Qed.

Lemma sources_extend src xs :
  Forall one_source xs → sources_vec (extend src xs) = sources_vec src ++ xs.
Proof.
  unfold extend. intros H. revert src. induction H as [|x xs Hx _ IH]; intros src; simpl.
  - by rewrite app_nil_r.
  - by rewrite IH, sources_push, <-app_assoc.
Qed.

Lemma replace_csp_nonce_spec asset token csp d hashes random asset' csp' random' :
  token ≠ "" → Forall one_source hashes →
  replace_csp_nonce asset token csp d hashes random = (asset', csp', random') →
  ∃ n, let nonces := random <$> seq 0 n in
    nonced token asset nonces asset' ∧ random' = (λ i, random (n + i)) ∧
    gained true d nonces hashes csp csp' ∧ (∀ d', d' ≠ d → csp' !! d' = csp !! d').
Proof.
  intros Ht Hh. unfold replace_csp_nonce.
  destruct (replace_with_callback_spec asset token take_nonce (random, []) Ht)
    as (pieces & rs & Hj & Hl & Hc & Hrs & Hres).
  rewrite calls_take_nonce in Hrs. simpl in Hrs.
  destruct (replace_with_callback _ _ _ _) as [a st]. simpl in Hres, Hrs.
  injection Hrs as Hrs <-. intros [= <- <- <-]. exists (length rs). cbv zeta. split_and!; [|done|..].
  - exists pieces. split_and!; [done|by rewrite length_fmap, length_seq|done|]. by rewrite Hrs.
  - unfold gained. simpl. set (ns := random <$> seq 0 (length rs)).
    destruct (bool_decide (ns = []) && bool_decide (hashes = [])); [done|]. simpl.
    eexists. split; [apply lookup_entry_or_eq|].
    rewrite !sources_extend; [|by apply Forall_fmap, Forall_true; intros; apply nonce_one_source|done].
    destruct (contains _ _); rewrite ?sources_push, <-?app_assoc by done; done.
  - intros d' Hd. destruct (_ && _); [done|]. by apply lookup_entry_or_ne.
Qed.

(** The hashes of a directive. *)
Definition hashes_of (directive : string) (hs : list CspHash) : list string :=
  CspHash_hash <$> List.filter (λ h, bool_decide (CspHash_directive h = directive)) hs.

Lemma hash_strings_split hs acc :
  let r := foldl push_hash acc hs in
  script r = script acc ++ hashes_of "script-src" hs ∧ style r = style acc ++ hashes_of "style-src" hs.
Proof.
  revert acc. induction hs as [|[h|h] hs IH]; intros [sc st]; simpl.
  - by rewrite !app_nil_r.
  - destruct (IH (mk_hash_strings (sc ++ [h]) st)) as [-> ->]. simpl.
    by rewrite <-app_assoc.
  - destruct (IH (mk_hash_strings sc (st ++ [h]))) as [-> ->]. simpl.
    by rewrite <-app_assoc.
Qed.

Lemma hashes_of_one_source d hs :
  Forall one_source (CspHash_hash <$> hs) → Forall one_source (hashes_of d hs).
Proof.
  unfold hashes_of. induction hs as [|h hs IH]; simpl; [done|]. intros [? ?]%Forall_cons.
  case_bool_decide; simpl; auto.
Qed.

(** One of the two steps of [set_csp]. *)
Lemma csp_step modify asset token csp d hashes random asset' csp' random' :
  token ≠ "" → Forall one_source hashes →
  (if modify : bool then replace_csp_nonce asset token csp d hashes random else (asset, csp, random)) =
    (asset', csp', random') →
  ∃ n, let nonces := random <$> seq 0 n in
    (if modify then nonced token asset nonces asset' else asset' = asset ∧ n = 0) ∧
    random' = (λ i, random (n + i)) ∧
    gained modify d nonces hashes csp csp' ∧ (∀ d', d' ≠ d → csp' !! d' = csp !! d').
Proof.
  intros Ht Hh. destruct modify.
  - by apply replace_csp_nonce_spec.
  - intros [= <- <- <-]. exists 0. done.
Qed.

Lemma gained_lookup modify d nonces hashes b a b' a' :
  b !! d = b' !! d → a !! d = a' !! d →
  gained modify d nonces hashes b a → gained modify d nonces hashes b' a'.
Proof. unfold gained. intros -> ->. done. Qed.

(** ** Properties *)

(** C11. The policy of a page admits exactly what was put into the page: every
    script token is replaced by a nonce of its own and so is every style token,
    nothing else of the page changes, and unless the configuration forbids to
    modify it the directive keeps its sources and gains the page itself, those
    nonces and the hashes of the directive. All other directives are kept. *)
Theorem set_csp_extends asset hashes disabled csp random asset' csp' random' :
  Forall one_source (CspHash_hash <$> hashes) →
  set_csp asset hashes disabled csp random = (asset', csp', random') →
  ∃ n1 n2 page,
    let modify := can_modify disabled in
    let scripts := random <$> seq 0 n1 in
    let styles := random <$> seq n1 n2 in
    (if modify "script-src" then nonced SCRIPT_NONCE_TOKEN asset scripts page else page = asset ∧ n1 = 0) ∧
    (if modify "style-src" then nonced STYLE_NONCE_TOKEN page styles asset' else asset' = page ∧ n2 = 0) ∧
    gained (modify "script-src") "script-src" scripts (hashes_of "script-src" hashes) (Csp_into_map csp) csp' ∧
    gained (modify "style-src") "style-src" styles (hashes_of "style-src" hashes) (Csp_into_map csp) csp' ∧
    (∀ d, d ≠ "script-src" → d ≠ "style-src" → csp' !! d = Csp_into_map csp !! d).
Proof.
  intros Hh. unfold set_csp.
  destruct (hash_strings_split hashes (mk_hash_strings [] [])) as [-> ->]. simpl script. simpl style.
  rewrite !app_nil_l.
  destruct (if can_modify disabled "script-src" then _ else _) as [[page csp1] random1] eqn:H1.
  apply csp_step in H1 as (n1 & Hp & -> & Hg1 & Ho1); [|done|by apply hashes_of_one_source].
  intros H2. apply csp_step in H2 as (n2 & Hs & -> & Hg2 & Ho2); [|done|by apply hashes_of_one_source].
  assert ((λ i, random (n1 + i)) <$> seq 0 n2 = random <$> seq n1 n2) as Hr.
  { change (λ i, random (n1 + i)) with (random ∘ Nat.add n1).
    by rewrite list_fmap_compose, fmap_add_seq, Nat.add_0_r. }
  rewrite Hr in *. exists n1, n2, page. split_and!; [done|done|..].
  - eapply gained_lookup; [done| |exact Hg1]. by rewrite Ho2.
  - eapply gained_lookup; [|done|exact Hg2]. by rewrite Ho1.
  - intros d Hd1 Hd2. by rewrite Ho2, Ho1.
Qed.

(** ** Witnesses *)
Definition ex_page : string := "<script nonce=__TAURI_SCRIPT_NONCE__></script>".
Definition ex_policy : Csp := Policy "default-src 'self'; script-src a.com".
Definition ex_result := set_csp ex_page [Script "'sha256-x'"] (Flag false) ex_policy (λ i, N.of_nat (7 + i)).

Lemma set_csp_extends_witness :
  ex_result.1.1 = "<script nonce=7></script>" ∧
  (∃ src, ex_result.1.2 !! "script-src" = Some src ∧
     sources_vec src = ["a.com"; "'self'"; "'nonce-7'"; "'sha256-x'"]) ∧
  ex_result.1.2 !! "default-src" = Some (List ["'self'"]).
Proof.
  destruct (set_csp_extends ex_page [Script "'sha256-x'"] (Flag false) ex_policy (λ i, N.of_nat (7 + i))
    ex_result.1.1 ex_result.1.2 ex_result.2) as (n1 & n2 & page & _ & _ & _ & _ & Hd).
  - constructor; [reflexivity|constructor].
  - unfold ex_result. by destruct (set_csp _ _ _ _ _) as [[? ?] ?].
  - split; [vm_compute; reflexivity|]. split.
    + eexists. split; vm_compute; reflexivity.
    + rewrite Hd by discriminate. vm_compute. reflexivity.
Defined.

Example trim_example : trim (" a b" +:+ of_bytes [ascii_of_nat 226; ascii_of_nat 128; ascii_of_nat 131]) = "a b".
Proof. vm_compute. reflexivity. Qed.

Example match_example : match_indices "xaaaxa" "aa" = [1].
Proof. vm_compute. reflexivity. Qed.

End Csp.
