(* ===== verification/AppAssets.v ===== *)
(** * Assets of the application

    Models the embedded assets of [tauri-utils/Source/assets.rs], the lookup of
    an asset with its policy in [AppManager::get_asset] of
    [tauri/Source/manager/mod.rs], and the two protocols that serve them:
    [tauri/Source/protocol/tauri.rs] (without the proxy of the mobile
    development server) and [tauri/Source/protocol/isolation.rs]. Asset keys
    are those of Unix. Decompression, percent decoding, the template of the
    isolation frame and the validity of header values are parameters. *)
From Stdlib Require Import Ascii.
From S2P Require Import Prelude Acl Numbers Channel Paths FsScope AssetProtocol Csp.
Import Csp.

(** Packages the lookup and the protocols call; the template of the isolation
    frame may fail to render. *)
Class ServeLib := {
  BrotliDecompress : string → option string;
  percent_decode_lossy : string → string;
  header_value_valid : string → bool;
  render_isolation : string → string → string → option string;
}.

(** What an asset provider promises to the manager. *)
Class Assets (A : Type) := {
  assets_get : A → string → option string;
  assets_csp_hashes : A → string → list Csp.CspHash;
}.

Module AppAssets.

(** ** Text of the standard library *)

(** The length of the character a byte starts, and the bounds of the second
    byte; [None] for a byte that starts no character. *)
Definition utf8_lead (b : nat) : option (nat * (nat * nat)) :=
  if b <? 128 then Some (1, (0, 0))
  else if (194 <=? b) && (b <=? 223) then Some (2, (128, 191))
  else if b =? 224 then Some (3, (160, 191))
  else if b =? 237 then Some (3, (128, 159))
  else if (225 <=? b) && (b <=? 239) then Some (3, (128, 191))
  else if b =? 240 then Some (4, (144, 191))
  else if (241 <=? b) && (b <=? 243) then Some (4, (128, 191))
  else if b =? 244 then Some (4, (128, 143))
  else None.

Definition in_range (r : nat * nat) (c : ascii) : bool :=
  (r.1 <=? nat_of_ascii c) && (nat_of_ascii c <=? r.2).

(** How many of the next bytes continue a character, at most [n]. *)
Fixpoint continues (r : nat * nat) (n : nat) (l : list ascii) : nat :=
  match n, l with
  | S n, c :: l => if in_range r c then S (continues (128, 191) n l) else 0
  | _, _ => 0
  end.

Definition REPLACEMENT : list ascii := ascii_of_nat <$> [239; 191; 189].

(** [String::from_utf8_lossy]: valid characters are kept, each longest start of
    a character that does not go on becomes U+FFFD. Every round takes a byte. *)
Fixpoint lossy (fuel : nat) (l : list ascii) : list ascii :=
  match fuel, l with
  | S fuel, c :: l' =>
      match utf8_lead (nat_of_ascii c) with
      | Some (len, r) =>
          let k := continues r (len - 1) l' in
          if k =? len - 1 then c :: take k l' ++ lossy fuel (drop k l')
          else REPLACEMENT ++ lossy fuel (drop k l')
      | None => REPLACEMENT ++ lossy fuel l'
      end
  | _, _ => []
  end.

Definition from_utf8_lossy (s : string) : string := of_bytes (lossy (String.length s) (bytes s)).

(** [s.chars().skip(1).collect()] of a valid text. *)
Definition skip_char (s : string) : string :=
  match s with
  | EmptyString => ""
  | String c _ =>
      match utf8_lead (nat_of_ascii c) with
      | Some (len, _) => of_bytes (drop len (bytes s))
      | None => of_bytes (drop 1 (bytes s))
      end
  end.

(** [String::pop] of a text that ends with a one-byte character. *)
Definition pop (s : string) : string := of_bytes (take (String.length s - 1) (bytes s)).

(** [s.split(&['?', '#'][..]).next().unwrap()]. *)
Fixpoint until_query (s : string) : string :=
  match s with
  | EmptyString => ""
  | String c s =>
      if bool_decide (c = "?"%char) || bool_decide (c = "#"%char) then ""
      else String c (until_query s)
  end.

(** ** Embedded assets *)
Definition AssetKey_from (path : string) : string :=
  if Paths.is_absolute path then path else Paths.push "/" path.

Record EmbeddedAssets := mk_embedded {
  assets : gmap string string;
  global_hashes : list CspHash;
  html_hashes : gmap string (list CspHash);
}.

(** Without the [compression] feature the stored bytes are the asset. *)
Definition EmbeddedAssets_get `{ServeLib} (compression : bool) (self : EmbeddedAssets) (key : string)
    : option string :=
  asdf ← assets self !! key;
  if compression then BrotliDecompress asdf else Some asdf.

Definition EmbeddedAssets_csp_hashes (self : EmbeddedAssets) (html_path : string) : list CspHash :=
  global_hashes self ++ default [] (html_hashes self !! html_path).

Instance embedded_assets `{ServeLib} (compression : bool) : Assets EmbeddedAssets := {|
  assets_get := EmbeddedAssets_get compression;
  assets_csp_hashes := EmbeddedAssets_csp_hashes;
|}.

Section AppAssets.
Context {HO : HashOrder} {SL : ServeLib} {AL : AssetLib} {A : Type} {AS : Assets A}.

(** ** The manager *)
(** The fields that are read when an asset is served. *)
Record SecurityConfig := mk_security {
  csp : option Csp;
  dev_csp : option Csp;
  dangerous_disable_asset_csp_modification : DisabledCspModificationKind;
  headers : option HeaderConfig;
}.

(** Of the isolation pattern the schema is read; its assets and keys belong to
    the frame, whose protocol gets them as arguments. *)
Inductive Pattern := Brownfield | Isolation (schema : string).

Record AppManager := mk_app_manager {
  is_dev : bool;
  http_schemes : bool; (* Windows and Android *)
  security : SecurityConfig;
  pattern : Pattern;
  app_assets : A;
}.

Record Asset := mk_asset {
  asset_bytes : string;
  mime_type : string;
  csp_header : option string;
}.

Inductive Error :=
| AssetNotFound (path : string)
| InvalidHeader.

Definition ISOLATION_IFRAME_SRC_DOMAIN : string := "localhost".

Definition format_real_schema (http_schemes : bool) (schema : string) (https : bool) : string :=
  if http_schemes then
    let scheme := if https then "https" else "http" in
    scheme +:+ "://" +:+ schema +:+ "." +:+ ISOLATION_IFRAME_SRC_DOMAIN
  else schema +:+ "://" +:+ ISOLATION_IFRAME_SRC_DOMAIN.

Definition manager_csp (self : AppManager) : option Csp :=
  if negb (is_dev self) then csp (security self)
  else match dev_csp (security self) with
       | Some c => Some c
       | None => csp (security self)
       end.

Definition request_path (path : string) : string :=
  let path := if ends_with "/" path then pop path else path in
  let path := percent_decode_lossy path in
  if decide (path = "") then "index.html" else skip_char path.

(** The asset and the key of the last lookup. *)
Definition find_asset (self : AppManager) (path : string) : option string * string :=
  let try_next (fallback : string) (found : option string * string) :=
    match found.1 with
    | Some _ => found
    | None => (assets_get (app_assets self) fallback, fallback)
    end in
  let found := (assets_get (app_assets self) (AssetKey_from path), AssetKey_from path) in
  let found := try_next (AssetKey_from (path +:+ ".html")) found in
  let found := try_next (AssetKey_from (path +:+ "/index.html")) found in
  try_next (AssetKey_from "index.html") found.

(** The bytes sent for an asset and the policy sent with it. *)
Definition apply_csp (self : AppManager) (asset_path asset : string) (use_https_schema : bool)
    (random : nat → N) : string * option string * (nat → N) :=
  let asset := from_utf8_lossy asset in
  match manager_csp self with
  | Some c =>
      let '(asset, csp_map, random) :=
        set_csp asset (assets_csp_hashes (app_assets self) asset_path)
          (dangerous_disable_asset_csp_modification (security self)) c random in
      let csp_map :=
        match pattern self with
        | Isolation schema =>
            entry_or CspDirectiveSources_default (λ default_src,
              push default_src (format_real_schema (http_schemes self) schema use_https_schema))
              "default-src" csp_map
        | Brownfield => csp_map
        end in
      (asset, Some (Csp_to_string (DirectiveMap csp_map)), random)
  | None => (asset, None, random)
  end.

Definition get_asset (self : AppManager) (path : string) (use_https_schema : bool) (random : nat → N)
    : outcome Error (Asset * (nat → N)) :=
  let path := request_path path in
  let '(asset_response, asset_path) := find_asset self path in
  let is_html := ends_with ".html" asset_path in
  match asset_response with
  | Some asset =>
      let '(final_data, csp_header, random) :=
        if is_html then apply_csp self asset_path asset use_https_schema random
        else (asset, None, random) in
      let mime_type := AssetProtocol.MimeType_parse final_data path in
      Ok (mk_asset final_data mime_type csp_header, random)
  | None => Err (AssetNotFound path)
  end.

(** ** The protocol of the application *)
Record Request := mk_request {
  uri : string;
  uri_path : string;
  https : bool;
}.

Record Response := mk_response {
  status : Z;
  response_headers : list (string * string);
  body : string;
}.

(** [builder.body(..)?] fails when one of the header values was refused. *)
Definition build (status : Z) (hs : list (string * string)) (body : string) : outcome Error Response :=
  if forallb (λ h, header_value_valid h.2) hs then Ok (mk_response status hs body) else Err InvalidHeader.

Definition get_response (self : AppManager) (window_origin : string)
    (web_resource_request_handler : option (Request → Response → Response)) (request : Request)
    (random : nat → N) : outcome Error Response :=
  let path := until_query (uri request) in
  let path := default "" (strip_prefix "tauri://localhost" path) in
  let builder := add_configured_headers [] (headers (security self)) ++
    [("Access-Control-Allow-Origin", window_origin)] in
  '(asset, _) ← get_asset self path (https request) random;
  let builder := builder ++ [("content-type", mime_type asset)] in
  let builder := builder ++
    match csp_header asset with Some c => [("Content-Security-Policy", c)] | None => [] end in
  response ← build 200 builder (asset_bytes asset);
  Ok (match web_resource_request_handler with
      | Some handler => handler request response
      | None => response
      end).

Definition get (self : AppManager) (window_origin : string)
    (web_resource_request_handler : option (Request → Response → Response)) (error_text : Error → string)
    (request : Request) (random : nat → N) : outcome Error Response :=
  match get_response self window_origin web_resource_request_handler request random with
  | Err e =>
      Ok (mk_response 500 [("content-type", "text/plain"); ("Access-Control-Allow-Origin", window_origin)]
            (error_text e))
  | r => r
  end.

(** ** The protocol of the isolation frame *)
Definition request_to_path (request : Request) : string :=
  let path := trim_end_with ["/"] (trim_start_with ["/"] (uri_path request)) in
  let path := percent_decode_lossy path in
  if decide (path = "") then "index.html" else skip_char path.

Definition isolation_get {B : Type} `{Assets B} (self : AppManager) (frame_assets : B) (schema aes_gcm_key : string)
    (window_origin : string) (use_https_scheme : bool) (request : Request) (random : nat → N) : Response :=
  let frame_src :=
    if http_schemes self then
      let https := if use_https_scheme then "https" else "http" in
      https +:+ "://" +:+ schema +:+ ".localhost"
    else schema +:+ ":" in
  let not_found := build 404 [("content-type", "text/plain")] "" in
  let response :=
    if decide (request_to_path request = "index.html") then
      match assets_get frame_assets (AssetKey_from "index.html") with
      | Some asset =>
          let asset := from_utf8_lossy asset in
          let '(asset, csp_map, _) :=
            set_csp asset (assets_csp_hashes frame_assets (AssetKey_from "index.html"))
              (dangerous_disable_asset_csp_modification (security self))
              (Policy ("default-src 'none'; frame-src " +:+ frame_src)) random in
          let csp := Csp_to_string (DirectiveMap csp_map) in
          match render_isolation aes_gcm_key window_origin asset with
          | Some asset =>
              build 200 (add_configured_headers [] (headers (security self)) ++
                [("content-type", "text/html"); ("Content-Security-Policy", csp)]) asset
          | None => build 500 [("content-type", "text/plain")] ""
          end
      | None => not_found
      end
    else not_found in
  match response with
  | Ok r => r
  | _ => mk_response 500 [] "failed to get response"
  end.

(** ** Lemmas *)
Definition candidates (path : string) : list string :=
  AssetKey_from <$> [path; path +:+ ".html"; path +:+ "/index.html"; "index.html"].

(** The candidates are tried in order. *)
Lemma find_asset_first self path :
  match find_asset self path with
  | (Some asset, key) =>
      ∃ pre post, candidates path = pre ++ key :: post ∧
        (∀ k, k ∈ pre → assets_get (app_assets self) k = None) ∧
        assets_get (app_assets self) key = Some asset
  | (None, _) => ∀ k, k ∈ candidates path → assets_get (app_assets self) k = None
  end.
Proof.
  unfold find_asset, candidates. cbn [fmap list_fmap].
  set (k1 := AssetKey_from path). set (k2 := AssetKey_from (path +:+ ".html")).
  set (k3 := AssetKey_from (path +:+ "/index.html")). set (k4 := AssetKey_from "index.html").
  destruct (assets_get (app_assets self) k1) as [a|] eqn:H1; simpl; rewrite ?H1; simpl.
  { exists [], [k2; k3; k4]. split_and!; [done|intros k Hk; by apply elem_of_nil in Hk|done]. }
  destruct (assets_get (app_assets self) k2) as [a|] eqn:H2; simpl; rewrite ?H2; simpl.
  { exists [k1], [k3; k4]. split_and!; [done| |done]. by intros k ->%list_elem_of_singleton. }
  destruct (assets_get (app_assets self) k3) as [a|] eqn:H3; simpl; rewrite ?H3; simpl.
  { exists [k1; k2], [k4]. split_and!; [done| |done]. intros k. rewrite !elem_of_cons, elem_of_nil.
    by intros [->|[->|[]]]. }
  destruct (assets_get (app_assets self) k4) as [a|] eqn:H4; simpl.
  { exists [k1; k2; k3], []. split_and!; [done| |done]. intros k. rewrite !elem_of_cons, elem_of_nil.
    by intros [->|[->|[->|[]]]]. }
  intros k. rewrite !elem_of_cons, elem_of_nil. by intros [->|[->|[->|[->|[]]]]].
Qed.

Definition is_csp (h : string * string) : bool := bool_decide (h.1 = "Content-Security-Policy").

Lemma add_header_no_csp name value hs :
  name ≠ "Content-Security-Policy" → List.filter is_csp hs = [] →
  List.filter is_csp (add_header name value hs) = [].
Proof.
  intros Hn Hf. unfold add_header. destruct value; [|done].
  rewrite List.filter_app, Hf. simpl. unfold is_csp. by rewrite bool_decide_eq_false_2.
Qed.

(** The configuration adds no policy of its own. *)
Lemma configured_no_csp hc : List.filter is_csp (add_configured_headers [] hc) = [].
Proof. destruct hc; [|done]. repeat (apply add_header_no_csp; [done|]). done. Qed.

(** ** Properties *)

(** An asset is looked up under the requested path, the path with [.html],
    its [index.html] and the [index.html] of the application, and the first that
    exists is served: a page with the policy applied, any other file as it is
    and without a policy. Only when none exists the answer is an error. *)
Theorem get_asset_serves_first self path https random :
  let keys := candidates (request_path path) in
  (∃ pre key post asset a random',
     keys = pre ++ key :: post ∧ (∀ k, k ∈ pre → assets_get (app_assets self) k = None) ∧
     assets_get (app_assets self) key = Some asset ∧
     get_asset self path https random = Ok (a, random') ∧
     (asset_bytes a, csp_header a, random') =
       if ends_with ".html" key then apply_csp self key asset https random else (asset, None, random)) ∨
  ((∀ k, k ∈ keys → assets_get (app_assets self) k = None) ∧
   get_asset self path https random = Err (AssetNotFound (request_path path))).
Proof.
  cbv zeta. unfold get_asset. pose proof (find_asset_first self (request_path path)) as Hf.
  destruct (find_asset _ _) as [[asset|] key]; [left|by right].
  destruct Hf as (pre & post & Hk & Hpre & Ha). exists pre, key, post, asset.
  destruct (if ends_with ".html" key then _ else _) as [[bytes csp] random'] eqn:He.
  eexists _, random'. split_and!; done.
Qed.

(** C28. A page leaves with exactly one policy where one is configured, the one
    made for it: the body is the page with its nonces, and the policy is the one
    that admits those nonces, with the frame of the isolation pattern added to
    the default sources where that pattern is used. Without a configured policy
    its text leaves as it is, with no policy. A handler of the application gets this
    response, and what it makes of it is the answer. *)
Theorem page_served_with_its_policy self origin handler request random resp asset key :
  get_response self origin handler request random = Ok resp →
  find_asset self (request_path (default "" (strip_prefix "tauri://localhost" (until_query (uri request)))))
    = (Some asset, key) →
  ends_with ".html" key = true →
  ∃ r, resp = match handler with Some h => h request r | None => r end ∧ status r = 200%Z ∧
    match manager_csp self with
    | None => body r = from_utf8_lossy asset ∧ List.filter is_csp (response_headers r) = []
    | Some c =>
        ∃ m random' m',
          set_csp (from_utf8_lossy asset) (assets_csp_hashes (app_assets self) key)
            (dangerous_disable_asset_csp_modification (security self)) c random = (body r, m, random') ∧
          List.filter is_csp (response_headers r) =
            [("Content-Security-Policy", Csp_to_string (DirectiveMap m'))] ∧
          (∀ d, d ≠ "default-src" → m' !! d = m !! d) ∧
          match pattern self with
          | Brownfield => m' = m
          | Isolation schema =>
              m' !! "default-src" = Some (push (default CspDirectiveSources_default (m !! "default-src"))
                (format_real_schema (http_schemes self) schema (https request)))
          end
    end.
Proof.
  intros Hr Hf Hh. unfold get_response, get_asset in Hr. rewrite Hf, Hh in Hr.
  unfold apply_csp in Hr. destruct (manager_csp self) as [c|].
  2:{ simpl in Hr. apply bind_ok in Hr as (r & Hb & [= <-]). exists r. split; [done|]. unfold build in Hb.
      destruct (forallb _ _); [|done]. injection Hb as <-. simpl. split_and!; [done..|].
      by rewrite !List.filter_app, configured_no_csp. }
  destruct (set_csp _ _ _ _ _) as [[page m] random']. simpl in Hr.
  apply bind_ok in Hr as (r & Hb & [= <-]). exists r. split; [done|]. unfold build in Hb.
  destruct (forallb _ _); [|done]. injection Hb as <-. simpl. split; [done|].
  exists m, random'. eexists. split_and!; [done|..].
  - rewrite !List.filter_app, configured_no_csp. done.
  - intros d Hd. destruct (pattern self); [done|]. by apply lookup_entry_or_ne.
  - destruct (pattern self); [done|]. by rewrite lookup_entry_or_eq.
Qed.

End AppAssets.

(** ** Witnesses *)
#[local] Instance ex_order : HashOrder := {|
  hash_iter V m := map_to_list m;
  hash_iter_perm V m := reflexivity _;
|}.

#[local] Instance ex_serve : ServeLib := {|
  BrotliDecompress s := Some s;
  percent_decode_lossy s := s;
  header_value_valid _ := true;
  render_isolation _ _ s := Some s;
|}.

#[local] Instance ex_no_infer : AssetLib := {|
  open_file _ := None;
  infer_get _ := None;
  HttpRange_parse _ _ := None;
  asset_percent_decode s := s;
|}.

#[local] Existing Instance embedded_assets.
#[local] Instance ex_embedded_assets : Assets EmbeddedAssets := embedded_assets true.

Definition ex_embedded : EmbeddedAssets :=
  mk_embedded {["/index.html" := "<p>"; "/about.html" := ex_page]} [Script "'sha256-x'"] ∅.

Definition ex_app : AppManager :=
  mk_app_manager false false
    (mk_security (Some (Policy "script-src a.com")) None (Flag false) None) Brownfield ex_embedded.

Definition ex_about : Request := mk_request "tauri://localhost/about?x" "/about" false.

Definition ex_response : Response :=
  mk_response 200 [("Access-Control-Allow-Origin", "o"); ("content-type", "text/html");
    ("Content-Security-Policy", "script-src a.com 'self' 'nonce-7' 'sha256-x'")]
    "<script nonce=7></script>".

Lemma page_served_with_its_policy_witness :
  get_response ex_app "o" None ex_about (λ i, N.of_nat (7 + i)) = Ok ex_response ∧
  List.length (List.filter is_csp (response_headers ex_response)) = 1.
Proof.
  assert (get_response ex_app "o" None ex_about (λ i, N.of_nat (7 + i)) = Ok ex_response) as H
    by (vm_compute; reflexivity).
  assert (find_asset ex_app (request_path "/about") = (Some ex_page, "/about.html")) as Hf
    by (vm_compute; reflexivity).
  split; [exact H|].
  destruct (page_served_with_its_policy ex_app "o" None ex_about (λ i, N.of_nat (7 + i)) ex_response
    ex_page "/about.html" H Hf eq_refl) as (r & -> & _ & m & random' & m' & _ & Hl & _).
  rewrite Hl. reflexivity.
Defined.

(** The frame of the isolation pattern is served for the root path only: the
    path of a request for [/index.html] has lost its slash already, and its
    first letter is skipped as well. *)
Theorem isolation_index_by_name_not_found random :
  status (isolation_get ex_app ex_embedded "isolation" "k" "o" false
            (mk_request "isolation://localhost" "/" false) random) = 200%Z ∧
  status (isolation_get ex_app ex_embedded "isolation" "k" "o" false
            (mk_request "isolation://localhost/index.html" "/index.html" false) random) = 404%Z.
Proof. split; vm_compute; reflexivity. Qed.

End AppAssets.
