(* ===== verification/Values.v ===== *)
(** * Values of scopes

    Models the conversions of [tauri-utils/Source/acl/value.rs] between the
    values of the access control list and those of [serde_json] and [toml].
    Both packages are outside of the repository: their public value types are
    written out, their numbers and dates are parameters. *)
From Stdlib Require Import SpecFloat.
From S2P Require Import Prelude Acl.
Import Acl.

(** Numbers of [serde_json] and dates of [toml]. *)
Class SerdeLib := {
  json_number : Type;
  as_f64 : json_number → option spec_float;
  as_u64 : json_number → option Z;
  as_i64 : json_number → option Z;
  from_f64 : spec_float → option json_number;
  from_i64 : Z → json_number;
  toml_datetime : Type;
  datetime_to_string : toml_datetime → string;
}.

Module Values.
Section Values.
Context {SL : SerdeLib}.

(** [serde_json::Value] and [toml::Value]; objects and tables list their
    entries in key order. *)
Inductive json :=
| JNull
| JBool (b : bool)
| JNumber (n : json_number)
| JString (s : string)
| JArray (l : list json)
| JObject (m : list (string * json)).

Inductive toml :=
| TString (s : string)
| TInteger (i : Z)
| TFloat (f : spec_float)
| TBoolean (b : bool)
| TDatetime (d : toml_datetime)
| TArray (l : list toml)
| TTable (t : list (string * toml)).

(** [n as i64] of a [u64]. *)
Definition as_i64_cast (n : Z) : Z := if (n <? 2 ^ 63)%Z then n else (n - 2 ^ 64)%Z.

Fixpoint Value_to_json (value : Value) : outcome Empty_set json :=
  match value with
  | Null => Ok JNull
  | Bool b => Ok (JBool b)
  | Number_ (Float f) =>
      n ← expect (from_f64 f) "called `Option::unwrap()` on a `None` value"; Ok (JNumber n)
  | Number_ (Int i) => Ok (JNumber (from_i64 i))
  | String_ s => Ok (JString s)
  | List list =>
      l ← (fix go l := match l with
                       | [] => Ok []
                       | v :: l => j ← Value_to_json v; js ← go l; Ok (j :: js)
                       end) list;
      Ok (JArray l)
  | Map map =>
      m ← (fix go m := match m with
                       | [] => Ok []
                       | (key, value) :: m => j ← Value_to_json value; js ← go m; Ok ((key, j) :: js)
                       end) map;
      Ok (JObject m)
  end.

Definition number_from_json (n : json_number) : Number :=
  match as_f64 n with
  | Some f => Float f
  | None =>
      match as_u64 n with
      | Some n => Int (as_i64_cast n)
      | None =>
          match as_i64 n with
          | Some n => Int n
          | None => Int 0
          end
      end
  end.

Fixpoint Value_from_json (value : json) : Value :=
  match value with
  | JNull => Null
  | JBool b => Bool b
  | JNumber n => Number_ (number_from_json n)
  | JString s => String_ s
  | JArray list => List (map Value_from_json list)
  | JObject m => Map (map (λ '(key, value), (key, Value_from_json value)) m)
  end.

Fixpoint Value_from_toml (value : toml) : Value :=
  match value with
  | TString s => String_ s
  | TInteger i => Number_ (Int i)
  | TFloat f => Number_ (Float f)
  | TBoolean b => Bool b
  | TDatetime d => String_ (datetime_to_string d)
  | TArray a => List (map Value_from_toml a)
  | TTable t => Map (map (λ '(k, v), (k, Value_from_toml v)) t)
  end.

(** ** Induction on values *)
Lemma Value_nested_ind (P : Value → Prop) :
  P Null → (∀ b, P (Bool b)) → (∀ n, P (Number_ n)) → (∀ s, P (String_ s)) →
  (∀ l, Forall P l → P (List l)) →
  (∀ m, Forall (λ p, P p.2) m → P (Map m)) →
  ∀ v, P v.
Proof.
  intros Hn Hb Hnum Hs Hl Hm. fix IH 1. intros [|b|n|s|l|m].
  - exact Hn.
  - exact (Hb b).
  - exact (Hnum n).
  - exact (Hs s).
  - apply Hl. induction l as [|v l IHl]; constructor; [apply IH|exact IHl].
  - apply Hm. induction m as [|[k v] m IHm]; constructor; [apply IH|exact IHm].
Qed.

(** ** Specification *)

(** The integers of a value as floats. *)
Fixpoint floatify (f64_of : Z → spec_float) (v : Value) : Value :=
  match v with
  | Number_ (Int i) => Number_ (Float (f64_of i))
  | List l => List (map (floatify f64_of) l)
  | Map m => Map (map (λ '(k, v), (k, floatify f64_of v)) m)
  | v => v
  end.

(** All floats of a value are numbers JSON has. *)
Fixpoint representable (v : Value) : bool :=
  match v with
  | Number_ (Float f) => match from_f64 f with Some _ => true | None => false end
  | List l => forallb representable l
  | Map m => forallb (λ '(_, v), representable v) m
  | _ => true
  end.

(** What the packages document: a float survives, and every integer of 64 bits
    has a nearest float. *)
Class SerdeLaws (f64_of : Z → spec_float) : Prop := {
  as_f64_from_f64 f n : from_f64 f = Some n → as_f64 n = Some f;
  as_f64_from_i64 i : as_f64 (from_i64 i) = Some (f64_of i);
}.

(** The conversion to JSON succeeds or panics, and says when. *)
Lemma Value_to_json_total v :
  if representable v then ∃ j, Value_to_json v = Ok j
  else Value_to_json v = Panic "called `Option::unwrap()` on a `None` value".
Proof.
  induction v as [|b|[i|f]|s|l IH|m IH] using Value_nested_ind; simpl; eauto.
  - destruct (from_f64 f); simpl; eauto.
  - match goal with |- context [?go l ≫= _] => set (go' := go) end.
    assert (if forallb representable l then ∃ js, go' l = Ok js
      else go' l = Panic "called `Option::unwrap()` on a `None` value") as H.
    { induction IH as [|v l Hv _ IHl]; simpl; [eauto|]. destruct (representable v); simpl.
      - destruct Hv as [j ->]. simpl. destruct (forallb representable l); [|by rewrite IHl].
        destruct IHl as [js ->]. simpl. eauto.
      - by rewrite Hv. }
    destruct (forallb representable l); [destruct H as [js ->]; simpl; eauto|by rewrite H].
  - match goal with |- context [?go m ≫= _] => set (go' := go) end.
    assert (if forallb (λ '(_, v), representable v) m then ∃ js, go' m = Ok js
      else go' m = Panic "called `Option::unwrap()` on a `None` value") as H.
    { induction IH as [|[k v] m Hv _ IHl]; simpl; [eauto|]. simpl in Hv.
      destruct (representable v); simpl.
      - destruct Hv as [j ->]. simpl. destruct (forallb _ m); [|by rewrite IHl].
        destruct IHl as [js ->]. simpl. eauto.
      - by rewrite Hv. }
    destruct (forallb _ m); [destruct H as [js ->]; simpl; eauto|by rewrite H].
Qed.

(** A value survives the way through JSON up to its integers, which come
    back as floats: converting to JSON succeeds exactly when every float is
    representable, and reading the result back gives the value with each
    integer turned into the nearest float. *)
Theorem value_json_roundtrip f64_of v :
  SerdeLaws f64_of →
  if representable v
  then ∃ j, Value_to_json v = Ok j ∧ Value_from_json j = floatify f64_of v
  else Value_to_json v = Panic "called `Option::unwrap()` on a `None` value".
Proof.
  intros HL. pose proof (Value_to_json_total v) as Ht. destruct (representable v); [|done].
  destruct Ht as [j Hj]. exists j. split; [done|].
  revert j Hj. induction v as [|b|[i|f]|s|l IH|m IH] using Value_nested_ind; simpl; intros j Hj.
  - by simplify_eq.
  - by simplify_eq.
  - simplify_eq. simpl. unfold number_from_json. by rewrite (as_f64_from_i64 (f64_of := f64_of)).
  - destruct (from_f64 f) as [n|] eqn:Hf; simpl in Hj; simplify_eq. simpl. unfold number_from_json.
    by rewrite (as_f64_from_f64 (f64_of := f64_of) f).
  - by simplify_eq.
  - apply bind_ok in Hj as (js & Hjs & [= <-]). simpl. f_equal.
    revert js Hjs. induction IH as [|v l Hv _ IHl]; intros js Hjs; simplify_eq/=; [done|].
    apply bind_ok in Hjs as (j & Hj & Hr). apply bind_ok in Hr as (js' & Hjs & [= <-]).
    simpl. f_equal; auto.
  - apply bind_ok in Hj as (js & Hjs & [= <-]). simpl. f_equal.
    revert js Hjs. induction IH as [|[k v] m Hv _ IHm]; intros js Hjs; simplify_eq/=; [done|].
    apply bind_ok in Hjs as (j & Hj & Hr). apply bind_ok in Hr as (js' & Hjs & [= <-]).
    simpl. f_equal; [f_equal; auto|auto].
Qed.

End Values.

(** ** A concrete package

    A number is an integer or a finite float; an integer has the float nearest
    to it. *)
Definition f64_of (i : Z) : spec_float := binary_normalize 53 1024 i 0 false.

Definition finite (f : spec_float) : bool :=
  match f with S754_nan | S754_infinity _ => false | _ => true end.

#[local] Instance ex_serde : SerdeLib := {|
  json_number := Z + spec_float;
  as_f64 n := match n with inl i => Some (f64_of i) | inr f => Some f end;
  as_u64 n := match n with inl i => if (0 <=? i)%Z then Some i else None | inr _ => None end;
  as_i64 n := match n with inl i => Some i | inr _ => None end;
  from_f64 f := if finite f then Some (inr f) else None;
  from_i64 i := inl i;
  toml_datetime := string;
  datetime_to_string d := d;
|}.

#[local] Instance ex_serde_laws : SerdeLaws f64_of.
Proof.
  split; [|done]. intros f n. cbn. destruct (finite f); intros H; [|discriminate H].
  injection H as <-. reflexivity.
Qed.

Lemma value_json_roundtrip_witness :
  ∃ j, Value_to_json (List [Number_ (Int 5); String_ "a"]) = Ok j ∧
    Value_from_json j = List [Number_ (Float (f64_of 5)); String_ "a"].
Proof. exact (value_json_roundtrip f64_of (List [Number_ (Int 5); String_ "a"]) ex_serde_laws). Defined.

(** Integers lose their low bits: a scope that allows the number 2^53 + 1 reads
    back as one that allows 2^53. *)
Theorem large_integers_collapse :
  Value_from_json (JNumber (inl (2 ^ 53 + 1)%Z)) = Value_from_json (JNumber (inl (2 ^ 53)%Z)).
Proof. vm_compute. reflexivity. Qed.

(** TOML has floats JSON has not: such a value panics when it is converted. *)
Theorem toml_nan_panics :
  Value_to_json (Value_from_toml (TFloat S754_nan)) =
  Panic "called `Option::unwrap()` on a `None` value".
Proof. vm_compute. reflexivity. Qed.

End Values.
