(* ===== verification/Plugins.v ===== *)
(** * Plugins

    Models [tauri/Source/plugin.rs]: the [Plugin] trait as a type class, the
    [PluginStore] over any implementation of it, the builder and the
    [TauriPlugin] it makes as the implementation the library provides. A hook
    may change the plugin and the application it is called with; both are
    threaded. *)
From S2P Require Import Prelude Acl Values Resolved Authority Channel Ipc.

(** What the hooks of a plugin get: handles and messages of the application,
    and the answer of a message handler. *)
Class HookTypes := {
  h_window : Type;
  h_webview : Type;
  h_url : Type;
  h_payload : Type;
  h_event : Type;
  h_invoke : Type;
  h_answer : Type;
  h_config : Type;
  h_config_default : h_config;
  (** the answer "handled", after the resolver was rejected with a text *)
  h_rejected : string → h_answer;
}.

(** The trait. [App] is the application the hooks run in. *)
Class Plugin {HT : HookTypes} (App P : Type) := {
  name : P → string;
  initialize : App → h_config → P → outcome string () * P * App;
  initialization_script : P → option string;
  window_created : h_window → P → App → P * App;
  webview_created : h_webview → P → App → P * App;
  on_navigation : h_webview → h_url → P → App → bool * P * App;
  on_page_load : h_webview → h_payload → P → App → P * App;
  on_event : h_event → P → App → P * App;
  extend_api : h_invoke → P → App → h_answer * P * App;
}.

(** A plugin keeps its name, whatever its hooks do. *)
Class PluginLaws {HT : HookTypes} (App P : Type) {PL : Plugin App P} : Prop := {
  initialize_name app c p : name (initialize app c p).1.2 = name p;
  window_created_name w p app : name (window_created w p app).1 = name p;
  webview_created_name w p app : name (webview_created w p app).1 = name p;
  on_navigation_name w u p app : name (on_navigation w u p app).1.2 = name p;
  on_page_load_name w l p app : name (on_page_load w l p app).1 = name p;
  on_event_name e p app : name (on_event e p app).1 = name p;
  extend_api_name i p app : name (extend_api i p app).1.2 = name p;
}.

Module Plugins.

Inductive Error := PluginInitialization (plugin error : string).

Section Store.
Context {HT : HookTypes} {App P : Type} {PL : Plugin App P}.

(** ** The store: plugins in the order of their registration *)
Record PluginStore := mk_store { store : list P }.

Definition PluginStore_default : PluginStore := mk_store [].

Definition retain (keep : P → bool) (s : PluginStore) : PluginStore :=
  mk_store (List.filter keep (store s)).

Definition register (plugin : P) (self : PluginStore) : bool * PluginStore :=
  let len := length (store self) in
  let self := retain (λ p, bool_decide (name p ≠ name plugin)) self in
  let result := bool_decide (len ≠ length (store self)) in
  (result, mk_store (store self ++ [plugin])).

Definition unregister (plugin : string) (self : PluginStore) : bool * PluginStore :=
  let len := length (store self) in
  let self := retain (λ p, bool_decide (name p ≠ plugin)) self in
  (bool_decide (len ≠ length (store self)), self).

Definition initialize_plugin (plugin : P) (app : App) (config : gmap string h_config)
    : outcome Error () * P * App :=
  let '(r, plugin', app) := initialize app (default h_config_default (config !! name plugin)) plugin in
  (map_err (PluginInitialization (name plugin')) r, plugin', app).

(** [iter_mut().try_for_each(..)]: the first error ends the loop. *)
Fixpoint initialize_list (l : list P) (app : App) (config : gmap string h_config)
    : outcome Error () * list P * App :=
  match l with
  | [] => (Ok (), [], app)
  | p :: l =>
      let '(r, p, app) := initialize_plugin p app config in
      match r with
      | Ok _ => let '(r, l, app) := initialize_list l app config in (r, p :: l, app)
      | r => (r, p :: l, app)
      end
  end.

Definition initialize_all (self : PluginStore) (app : App) (config : gmap string h_config)
    : outcome Error () * PluginStore * App :=
  let '(r, l, app) := initialize_list (store self) app config in (r, mk_store l, app).

Definition initialization_scripts (self : PluginStore) : list string :=
  (λ script, "(function () { " +:+ script +:+ " })();") <$> omap initialization_script (store self).

(** [iter_mut().for_each(..)]. *)
Fixpoint for_each_plugin (hook : P → App → P * App) (l : list P) (app : App) : list P * App :=
  match l with
  | [] => ([], app)
  | p :: l =>
      let '(p, app) := hook p app in
      let '(l, app) := for_each_plugin hook l app in (p :: l, app)
  end.

Definition run_hook (hook : P → App → P * App) (self : PluginStore) (app : App) : PluginStore * App :=
  let '(l, app) := for_each_plugin hook (store self) app in (mk_store l, app).

Definition store_window_created (w : h_window) := run_hook (window_created w).
Definition store_webview_created (w : h_webview) := run_hook (webview_created w).
Definition store_on_page_load (w : h_webview) (payload : h_payload) := run_hook (on_page_load w payload).
Definition store_on_event (event : h_event) := run_hook (on_event event).

Fixpoint navigate (w : h_webview) (u : h_url) (l : list P) (app : App) : bool * list P * App :=
  match l with
  | [] => (true, [], app)
  | p :: l =>
      let '(allowed, p, app) := on_navigation w u p app in
      if negb allowed then (false, p :: l, app)
      else let '(r, l, app) := navigate w u l app in (r, p :: l, app)
  end.

Definition store_on_navigation (w : h_webview) (u : h_url) (self : PluginStore) (app : App)
    : bool * PluginStore * App :=
  let '(r, l, app) := navigate w u (store self) app in (r, mk_store l, app).

Fixpoint dispatch (plugin : string) (invoke : h_invoke) (l : list P) (app : App)
    : h_answer * list P * App :=
  match l with
  | [] => (h_rejected ("plugin " +:+ plugin +:+ " not found"), [], app)
  | p :: l =>
      if decide (name p = plugin) then
        let '(a, p, app) := extend_api invoke p app in (a, p :: l, app)
      else let '(a, l, app) := dispatch plugin invoke l app in (a, p :: l, app)
  end.

Definition store_extend_api (plugin : string) (invoke : h_invoke) (self : PluginStore) (app : App)
    : h_answer * PluginStore * App :=
  let '(a, l, app) := dispatch plugin invoke (store self) app in (a, mk_store l, app).

Abbreviation names s := (name <$> store s).

(** ** Lemmas *)
Context {LW : PluginLaws App P}.

Lemma names_retain n s :
  names (retain (λ p, bool_decide (name p ≠ n)) s) = List.filter (λ m, bool_decide (m ≠ n)) (names s).
Proof.
  destruct s as [l]. simpl. induction l as [|p l IH]; simpl; [done|].
  case_bool_decide; simpl; [f_equal|]; apply IH.
Qed.

Lemma filter_length_iff {A} (f : A → bool) l :
  length (List.filter f l) = length l ↔ List.filter f l = l.
Proof.
  split; [|by intros ->]. induction l as [|a l IH]; simpl; [done|].
  pose proof (List.filter_length_le f l). destruct (f a); simpl; intros Hle; [f_equal; auto|lia].
Qed.

Lemma filter_ne_id n (l : list string) :
  List.filter (λ m, bool_decide (m ≠ n)) l = l ↔ n ∉ l.
Proof.
  induction l as [|m l IH]; simpl; [split; [intros _; apply not_elem_of_nil|done]|].
  rewrite not_elem_of_cons. case_bool_decide as Hm.
  - split; [intros [= Hl]; split; [congruence|by apply IH]|intros [_ Hl]; f_equal; by apply IH].
  - split; [|naive_solver]. intros Hl. exfalso.
    apply (f_equal length) in Hl. pose proof (List.filter_length_le (λ m, bool_decide (m ≠ n)) l).
    simpl in Hl. lia.
Qed.

(** The answer of [register] and [unregister]: was there one? *)
Lemma retain_shrinks n s :
  bool_decide (length (store s) ≠ length (store (retain (λ p, bool_decide (name p ≠ n)) s))) =
  bool_decide (n ∈ names s).
Proof.
  apply bool_decide_ext. rewrite <-(length_fmap name (store (retain _ s))), names_retain.
  rewrite <-(length_fmap name (store s)). split.
  - intros H. destruct (decide (n ∈ names s)) as [|Hn]; [done|]. destruct H.
    symmetry. apply filter_length_iff. by apply filter_ne_id.
  - intros Hn H. symmetry in H. apply filter_length_iff in H. by apply filter_ne_id in H.
Qed.

Lemma elem_of_filter_ne n m (l : list string) :
  m ∈ List.filter (λ m, bool_decide (m ≠ n)) l ↔ m ∈ l ∧ m ≠ n.
Proof.
  rewrite !list_elem_of_In, List.filter_In, bool_decide_eq_true. done.
Qed.

Lemma NoDup_filter_ne n (l : list string) :
  NoDup l → NoDup (List.filter (λ m, bool_decide (m ≠ n)) l).
Proof. intros. by apply NoDup_ListNoDup, List.NoDup_filter, NoDup_ListNoDup. Qed.

Lemma names_run_hook hook s app :
  (∀ p app, name (hook p app).1 = name p) → names (run_hook hook s app).1 = names s.
Proof.
  intros Hh. destruct s as [l]. unfold run_hook. simpl. revert app.
  induction l as [|p l IH]; intros app; simpl; [done|].
  specialize (Hh p app). destruct (hook p app) as [p' app']. simpl in *. specialize (IH app').
  destruct (for_each_plugin hook l app') as [l' app'']. simpl in *. f_equal; [exact Hh|exact IH].
Qed.

Lemma names_navigate w u l app : name <$> (navigate w u l app).1.2 = name <$> l.
Proof.
  revert app. induction l as [|p l IH]; intros app; simpl; [done|].
  pose proof (on_navigation_name w u p app) as Hn.
  destruct (on_navigation w u p app) as [[b p'] app']. simpl in *. destruct b; simpl; [|by rewrite Hn].
  specialize (IH app'). destruct (navigate w u l app') as [[r l'] app'']. simpl in *. f_equal; [exact Hn|exact IH].
Qed.

Lemma names_initialize l app config : name <$> (initialize_list l app config).1.2 = name <$> l.
Proof.
  revert app. induction l as [|p l IH]; intros app; simpl; [done|]. unfold initialize_plugin.
  pose proof (initialize_name app (default h_config_default (config !! name p)) p) as Hn.
  destruct (initialize app _ p) as [[r p'] app']. simpl in *.
  destruct r; simpl; try by rewrite Hn.
  specialize (IH app'). destruct (initialize_list l app' config) as [[r l'] app'']. simpl in *.
  f_equal; [exact Hn|exact IH].
Qed.

Lemma names_dispatch n i l app : name <$> (dispatch n i l app).1.2 = name <$> l.
Proof.
  revert app. induction l as [|p l IH]; intros app; simpl; [done|]. case_decide.
  - pose proof (extend_api_name i p app) as Hn. destruct (extend_api i p app) as [[a p'] app'].
    simpl in *. by rewrite Hn.
  - specialize (IH app). destruct (dispatch n i l app) as [[a l'] app']. simpl in *. f_equal. exact IH.
Qed.

(** ** The reachable stores *)
Inductive step : PluginStore * App → PluginStore * App → Prop :=
| step_register p s app : step (s, app) ((register p s).2, app)
| step_unregister n s app : step (s, app) ((unregister n s).2, app)
| step_initialize config s app :
    step (s, app) ((initialize_all s app config).1.2, (initialize_all s app config).2)
| step_hook hook s app :
    (∀ p app, name (hook p app).1 = name p) → step (s, app) (run_hook hook s app)
| step_navigation w u s app :
    step (s, app) ((store_on_navigation w u s app).1.2, (store_on_navigation w u s app).2)
| step_extend_api n i s app :
    step (s, app) ((store_extend_api n i s app).1.2, (store_extend_api n i s app).2).

Lemma step_names_NoDup x y : step x y → NoDup (names x.1) → NoDup (names y.1).
Proof.
  destruct 1; simpl; intros Hnd.
  - rewrite fmap_app. simpl. pose proof (names_retain (name p) s) as Hr. simpl in Hr. rewrite Hr.
    apply NoDup_app. split_and!; [by apply NoDup_filter_ne| |apply NoDup_singleton].
    intros m Hm. apply elem_of_filter_ne in Hm as [_ Hm]. by rewrite list_elem_of_singleton.
  - pose proof (names_retain n s) as Hr. simpl in Hr. rewrite Hr. by apply NoDup_filter_ne.
  - unfold initialize_all. pose proof (names_initialize (store s) app config) as Hn.
    destruct (initialize_list _ _ _) as [[r l] app']. simpl in *. by rewrite Hn.
  - by rewrite names_run_hook.
  - unfold store_on_navigation. pose proof (names_navigate w u (store s) app) as Hn.
    destruct (navigate _ _ _ _) as [[r l] app']. simpl in *. by rewrite Hn.
  - unfold store_extend_api. pose proof (names_dispatch n i (store s) app) as Hn.
    destruct (dispatch _ _ _ _) as [[r l] app']. simpl in *. by rewrite Hn.
Qed.

Lemma reachable_names_NoDup app0 x :
  rtc step (PluginStore_default, app0) x → NoDup (names x.1).
Proof.
  intros Hx. remember (PluginStore_default, app0) as x0 eqn:H0.
  assert (NoDup (names x0.1)) as Hnd by (subst; constructor). clear H0.
  induction Hx as [x|x y z Hxy _ IH]; [done|]. apply IH. by eapply step_names_NoDup.
Qed.

Lemma dispatch_unknown n i l app :
  n ∉ (name <$> l) → dispatch n i l app = (h_rejected ("plugin " +:+ n +:+ " not found"), l, app).
Proof.
  induction l as [|p l IH]; simpl; [done|]. rewrite not_elem_of_cons. intros [Hp Hl].
  rewrite decide_False by congruence. by rewrite (IH Hl).
Qed.

Lemma dispatch_known n i l1 p l2 app :
  n ∉ (name <$> l1) → name p = n →
  dispatch n i (l1 ++ p :: l2) app =
  ((extend_api i p app).1.1, l1 ++ (extend_api i p app).1.2 :: l2, (extend_api i p app).2).
Proof.
  intros Hl Hp. induction l1 as [|q l1 IH]; simpl.
  - rewrite decide_True by done. by destruct (extend_api i p app) as [[a p'] app'].
  - simpl in Hl. apply not_elem_of_cons in Hl as [Hq Hl].
    rewrite decide_False by congruence. by rewrite (IH Hl).
Qed.

(** ** Properties *)

(** C29. Plugins are known by their names: whatever is registered, removed or
    run, no two plugins of the store share a name, so a command for a plugin
    reaches that plugin and no other, and a command for an unknown plugin is
    rejected and changes nothing. *)
Theorem store_dispatches_by_name app0 s app n i :
  rtc step (PluginStore_default, app0) (s, app) →
  NoDup (names s) ∧
  ((∃ l1 p l2, store s = l1 ++ p :: l2 ∧ name p = n ∧ (n ∉ (name <$> l1 ++ l2)) ∧
      store_extend_api n i s app =
        ((extend_api i p app).1.1, mk_store (l1 ++ (extend_api i p app).1.2 :: l2),
         (extend_api i p app).2)) ∨
   ((n ∉ names s) ∧
    store_extend_api n i s app = (h_rejected ("plugin " +:+ n +:+ " not found"), s, app))).
Proof.
  intros Hr. apply reachable_names_NoDup in Hr. simpl in Hr. split; [done|].
  unfold store_extend_api. destruct s as [l]. simpl in *.
  destruct (decide (n ∈ name <$> l)) as [Hn|Hn].
  - left. apply list_elem_of_fmap in Hn as (p & -> & Hp).
    apply list_elem_of_split in Hp as (l1 & l2 & ->).
    rewrite fmap_app in Hr. simpl in Hr.
    assert ((name p ∉ (name <$> l1)) ∧ (name p ∉ (name <$> l2))) as [H1 H2].
    { apply NoDup_app in Hr as (_ & Hd & Hc). apply NoDup_cons in Hc as [Hc _].
      split; [|done]. intros Hin. apply (Hd _ Hin). left. }
    exists l1, p, l2. split_and!; [done|done| |].
    + rewrite fmap_app, elem_of_app. tauto.
    + by rewrite dispatch_known.
  - right. split; [done|]. by rewrite dispatch_unknown.
Qed.

(** Registering replaces: [register] answers whether a plugin of the name
    was there, the new plugin comes last and the others keep their order; what
    was registered under a free name is removed again by [unregister], which
    leaves the store as it was. *)
Theorem register_unregister_roundtrip p s :
  (register p s).1 = bool_decide (name p ∈ names s) ∧
  (∃ l, store (register p s).2 = l ++ [p] ∧ (name p ∉ (name <$> l)) ∧
     ∀ q, q ∈ l ↔ q ∈ store s ∧ name q ≠ name p) ∧
  (unregister (name p) (register p s).2).1 = true ∧
  (unregister (name p) (register p s).2).2 = (unregister (name p) s).2 ∧
  ((name p ∉ names s) → (unregister (name p) (register p s).2).2 = s).
Proof.
  set (keep := λ q, bool_decide (name q ≠ name p)).
  assert (List.filter keep (store (register p s).2) = List.filter keep (store s)) as Hf.
  { unfold register. simpl. rewrite List.filter_app. simpl. unfold keep at 2.
    rewrite bool_decide_eq_false_2 by (intros Hne; by apply Hne). rewrite app_nil_r.
    fold keep. apply List.forallb_filter_id, List.forallb_forall. by intros q [_ Hq]%List.filter_In. }
  split_and!.
  - apply retain_shrinks.
  - exists (store (retain keep s)). split_and!; [done| |].
    + pose proof (names_retain (name p) s) as Hr. fold keep in Hr. rewrite Hr, elem_of_filter_ne. by intros [_ ?].
    + intros q. simpl. rewrite !list_elem_of_In, List.filter_In. unfold keep.
      by rewrite bool_decide_eq_true.
  - unfold unregister. cbv zeta. cbn [fst]. rewrite retain_shrinks. apply bool_decide_eq_true.
    unfold register. simpl. rewrite fmap_app. apply elem_of_app. right. simpl. left.
  - unfold unregister, retain. cbv zeta. cbn [snd]. fold keep. by rewrite Hf.
  - intros Hn. unfold unregister, retain. cbv zeta. cbn [snd]. fold keep. rewrite Hf. destruct s as [l]. simpl in *. f_equal.
    apply filter_length_iff. rewrite <-(length_fmap name l), <-(length_fmap name).
    pose proof (names_retain (name p) (mk_store l)) as Hr. simpl in Hr. fold keep in Hr. rewrite Hr.
    f_equal. by apply filter_ne_id.
Qed.

(** A navigation goes ahead only if every plugin agrees: the plugins are
    asked in their order, the first refusal is final, and the plugins after it
    are not asked. *)
Lemma navigation_spec w u s app r s' app' :
  store_on_navigation w u s app = (r, s', app') →
  if r then
    run_hook (λ p app, ((on_navigation w u p app).1.2, (on_navigation w u p app).2)) s app = (s', app') ∧
    (∀ l1 p l2 l1' app1, store s = l1 ++ p :: l2 → navigate w u l1 app = (true, l1', app1) →
       (on_navigation w u p app1).1.1 = true)
  else
    ∃ l1 p l2 l1' app1 p', store s = l1 ++ p :: l2 ∧ navigate w u l1 app = (true, l1', app1) ∧
      on_navigation w u p app1 = (false, p', app') ∧ store s' = l1' ++ p' :: l2.
Proof.
  unfold store_on_navigation, run_hook. destruct s as [l]. simpl.
  destruct (navigate w u l app) as [[r0 l0] app0] eqn:Hnav. intros [= <- <- <-]. simpl.
  revert app l0 app0 Hnav. induction l as [|p l IH]; intros app l0 app0 Hnav; simpl in *.
  { simplify_eq. split; [done|]. intros l1 ? ? ? ? Hl. by destruct l1. }
  destruct (on_navigation w u p app) as [[b p'] app1] eqn:Hp. simpl.
  destruct b; simpl in Hnav.
  - destruct (navigate w u l app1) as [[r1 l1'] app2] eqn:Hrest. injection Hnav as <- <- <-.
    specialize (IH app1 l1' app2 Hrest). destruct r1.
    + destruct IH as [Hrun Hall]. split.
      * destruct (for_each_plugin _ l app1) as [l2 app3]. by simplify_eq.
      * intros [|q l1] p2 l2 l1'' app3 Hl Hn; simplify_eq/=; [by rewrite Hp|].
        rewrite Hp in Hn. simpl in Hn. destruct (navigate w u l1 app1) as [[r2 l3] app4] eqn:Hn1.
        simplify_eq. by eapply Hall.
    + destruct IH as (l1 & q & l2 & l3 & app3 & q' & Hl & Hn & Hq & Hl').
      exists (p :: l1), q, l2, (p' :: l3), app3, q'. simplify_eq/=. rewrite Hp. simpl. by rewrite Hn.
  - injection Hnav as <- <- <-. exists [], p, l, [], app, p'. done.
Qed.

(** Initialization stops at the first error and says whose it is: the
    plugins before it are initialized in their order, the plugins after it are
    untouched; without an error every plugin is initialized. *)
Theorem initialize_all_stops_at_error s app config r s' app' :
  initialize_all s app config = (r, s', app') →
  r ≠ Ok () →
  ∃ l1 p l2 l1' app1 p' e, store s = l1 ++ p :: l2 ∧
    initialize_list l1 app config = (Ok (), l1', app1) ∧
    initialize app1 (default h_config_default (config !! name p)) p = (e, p', app') ∧ e ≠ Ok () ∧
    r = map_err (PluginInitialization (name p)) e ∧ store s' = l1' ++ p' :: l2.
Proof.
  unfold initialize_all. destruct s as [l]. simpl.
  destruct (initialize_list l app config) as [[r0 l0] app0] eqn:Hi. intros [= <- <- <-] Hr. simpl.
  revert app l0 app0 Hi. induction l as [|p l IH]; intros app l0 app0 Hi; simpl in Hi.
  { injection Hi as <- <- <-. done. }
  unfold initialize_plugin in Hi.
  pose proof (initialize_name app (default h_config_default (config !! name p)) p) as Hn.
  destruct (initialize app _ p) as [[e p'] app1] eqn:Hp. simpl in Hn. destruct e as [[]| | |]; simpl in Hi.
  - destruct (initialize_list l app1 config) as [[r1 l1'] app2] eqn:Hrest. injection Hi as <- <- <-.
    destruct (IH app1 l1' app2 Hrest)
      as (l1 & q & l2 & l3 & app3 & q' & e & Hl & Hn1 & Hq & He & Hre & Hl').
    exists (p :: l1), q, l2, (p' :: l3), app3, q', e. simplify_eq/=. unfold initialize_plugin.
    rewrite Hp. simpl. by rewrite Hn1.
  - injection Hi as <- <- <-. exists [], p, l, [], app, p', (Err e). rewrite Hn. done.
  - injection Hi as <- <- <-. exists [], p, l, [], app, p', (Panic msg). done.
  - injection Hi as <- <- <-. exists [], p, l, [], app, p', Diverge. done.
Qed.

End Store.

(** ** The plugin of the builder *)
Section TauriPlugin.
Context {HT : HookTypes} {User Protocol C : Type} (from_value : h_config → string + C).

(** The protocols all webviews get, and the rest of the application; what the
    closures of a plugin capture is part of the latter. *)
Record App := mk_app {
  uri_scheme_protocols : gmap string Protocol;
  user : User;
}.

Inductive BuilderError := ReservedName (n : string).

Definition RESERVED_PLUGIN_NAMES : list string := ["core"; "tauri"].

(** The name and the hooks; a hook that is used up is [None]. *)
Record TauriPlugin := mk_plugin {
  plugin_name : string;
  plugin_app : bool;
  invoke_handler : h_invoke → App → h_answer * App;
  setup : option (C → App → outcome string () * App);
  js_init_script : option string;
  plugin_on_navigation : h_webview → h_url → App → bool * App;
  plugin_on_page_load : h_webview → h_payload → App → App;
  on_window_ready : h_window → App → App;
  on_webview_ready : h_webview → App → App;
  plugin_on_event : h_event → App → App;
  on_drop : option (App → App);
  plugin_protocols : gmap string Protocol;
}.

(** [Builder::new]: the default hooks do nothing and agree; the message handler
    knows no command. *)
Definition Builder_new (not_handled : h_answer) (n : string) : TauriPlugin :=
  mk_plugin n false (λ _ app, (not_handled, app)) None None (λ _ _ app, (true, app))
    (λ _ _ app, app) (λ _ app, app) (λ _ app, app) (λ _ app, app) None ∅.

Definition register_asynchronous_uri_scheme_protocol (uri_scheme : string) (protocol : Protocol)
    (self : TauriPlugin) : TauriPlugin :=
  mk_plugin (plugin_name self) (plugin_app self) (invoke_handler self) (setup self)
    (js_init_script self) (plugin_on_navigation self) (plugin_on_page_load self)
    (on_window_ready self) (on_webview_ready self) (plugin_on_event self) (on_drop self)
    (<[uri_scheme := protocol]> (plugin_protocols self)).

Definition try_build (self : TauriPlugin) : outcome BuilderError TauriPlugin :=
  match List.find (λ r, bool_decide (r = plugin_name self)) RESERVED_PLUGIN_NAMES with
  | Some reserved => Err (ReservedName reserved)
  | None => Ok self
  end.

Definition build (self : TauriPlugin) : outcome Empty_set TauriPlugin :=
  match try_build self with
  | Ok p => Ok p
  | _ => Panic "valid plugin"
  end.

(** [WebviewManager::register_uri_scheme_protocol]. *)
Definition register_uri_scheme_protocol (uri_scheme : string) (protocol : Protocol) (app : App) : App :=
  mk_app (<[uri_scheme := protocol]> (uri_scheme_protocols app)) (user app).

(** The setup hook is taken before the configuration is read. *)
Definition taken (self : TauriPlugin) : TauriPlugin :=
  mk_plugin (plugin_name self) true (invoke_handler self) None (js_init_script self)
    (plugin_on_navigation self) (plugin_on_page_load self) (on_window_ready self)
    (on_webview_ready self) (plugin_on_event self) (on_drop self) (plugin_protocols self).

Definition register_protocols (self : TauriPlugin) (app : App) : App :=
  foldl (λ app '(uri_scheme, protocol), register_uri_scheme_protocol uri_scheme protocol app)
    app (map_to_list (plugin_protocols self)).

Definition TauriPlugin_initialize (app : App) (config : h_config) (self : TauriPlugin)
    : outcome string () * TauriPlugin * App :=
  match setup self with
  | Some s =>
      match from_value config with
      | inl err =>
          (Err ("Error deserializing 'plugins." +:+ plugin_name self +:+
                "' within your Tauri configuration: " +:+ err), taken self, app)
      | inr config =>
          let '(r, app) := s config app in
          match r with
          | Ok _ => (Ok (), taken self, register_protocols self app)
          | r => (r, taken self, app)
          end
      end
  | None => (Ok (), taken self, register_protocols self app)
  end.

(** [Drop]: the hook runs for a plugin that was initialized. *)
Definition TauriPlugin_drop (self : TauriPlugin) (app : App) : App :=
  match on_drop self with
  | Some on_drop => if plugin_app self then on_drop app else app
  | None => app
  end.

Definition keep_plugin {R} (self : TauriPlugin) (r : R * App) : R * TauriPlugin * App :=
  (r.1, self, r.2).

#[export] Instance TauriPlugin_plugin : Plugin App TauriPlugin := {|
  name := plugin_name;
  initialize := TauriPlugin_initialize;
  initialization_script := js_init_script;
  window_created w p app := (p, on_window_ready p w app);
  webview_created w p app := (p, on_webview_ready p w app);
  on_navigation w u p app := keep_plugin p (plugin_on_navigation p w u app);
  on_page_load w l p app := (p, plugin_on_page_load p w l app);
  on_event e p app := (p, plugin_on_event p e app);
  extend_api i p app := keep_plugin p (invoke_handler p i app);
|}.

#[export] Instance TauriPlugin_laws : PluginLaws App TauriPlugin.
Proof.
  split; try done. intros app c p. simpl. unfold TauriPlugin_initialize.
  destruct (setup p) as [s|]; [|done]. destruct (from_value c) as [e|c']; [done|].
  destruct (s c' app) as [r app']. by destruct r.
Qed.

Lemma register_protocols_spec p app k :
  uri_scheme_protocols (register_protocols p app) !! k =
  match plugin_protocols p !! k with Some v => Some v | None => uri_scheme_protocols app !! k end.
Proof.
  unfold register_protocols.
  assert (∀ l app, NoDup l.*1 →
    uri_scheme_protocols (foldl (λ app '(uri_scheme, protocol),
      register_uri_scheme_protocol uri_scheme protocol app) app l) !! k =
    match (list_to_map l : gmap string Protocol) !! k with
    | Some v => Some v | None => uri_scheme_protocols app !! k end) as H.
  { clear. intros l. induction l as [|[k' v] l IH]; intros app Hnd; simpl; [done|].
    apply NoDup_cons in Hnd as [Hk Hnd]. rewrite IH by done. simpl.
    destruct (decide (k' = k)) as [->|Hne].
    - rewrite not_elem_of_list_to_map_1 by done. by rewrite !lookup_insert_eq.
    - rewrite !lookup_insert_ne by done. done. }
  rewrite H by apply NoDup_fst_map_to_list. by rewrite list_to_map_to_list.
Qed.

(** The setup hook runs at most once: whatever comes of the first
    initialization, the plugin has no setup hook afterwards, and initializing
    it again only registers its protocols; its drop hook runs from then on. *)
Theorem setup_runs_once app config p r p' app' :
  TauriPlugin_initialize app config p = (r, p', app') →
  setup p' = None ∧ plugin_name p' = plugin_name p ∧
  (∀ app2 config2, TauriPlugin_initialize app2 config2 p' = (Ok (), p', register_protocols p app2)) ∧
  (∀ app2, TauriPlugin_drop p' app2 = default id (on_drop p) app2) ∧
  (r = Ok () → ∀ k v, plugin_protocols p !! k = Some v → uri_scheme_protocols app' !! k = Some v).
Proof.
  unfold TauriPlugin_initialize. intros Hi.
  assert (p' = taken p ∧ (r = Ok () → ∃ app1, app' = register_protocols p app1)) as [-> Hr].
  { destruct (setup p) as [s|]; [|simplify_eq; eauto].
    destruct (from_value config) as [e|c]; [by simplify_eq|].
    destruct (s c app) as [r1 app1]. destruct r1; simplify_eq; (split; [done|]); [eauto|done..]. }
  split_and!; [done|done|done| |].
  - intros app2. unfold TauriPlugin_drop. simpl. by destruct (on_drop p).
  - intros Hok k v Hk. destruct (Hr Hok) as [app1 ->]. by rewrite register_protocols_spec, Hk.
Qed.

(** The names of the core are reserved, and only they are. *)
Lemma try_build_ok p : try_build p = Ok p ↔ plugin_name p ∉ RESERVED_PLUGIN_NAMES.
Proof.
  unfold try_build, RESERVED_PLUGIN_NAMES. simpl. rewrite !not_elem_of_cons.
  case_bool_decide as Hc; [split; [done|intros [Hn _]; by destruct Hn]|].
  case_bool_decide as Ht; [split; [done|intros (_ & Hn & _); by destruct Hn]|].
  split; [intros _; split_and!; [congruence|congruence|apply not_elem_of_nil]|done].
Qed.

End TauriPlugin.

(** ** The store behind [Webview::on_message] *)
Section Messages.
Context {GL : GlobLib} {UL : UrlPatternLib} {UR : UrlLib UL} {WL : WebLib} {HL : HttpLib} {Obj : Type}.
Context (Win Web U Pay Ev Conf : Type) (conf_default : Conf).

(** Hooks that get the messages of [Ipc]; a rejected message counts as handled. *)
Definition ipc_hooks : HookTypes := {|
  h_window := Win;
  h_webview := Web;
  h_url := U;
  h_payload := Pay;
  h_event := Ev;
  h_invoke := Ipc.Invoke;
  h_answer := Ipc.Handled;
  h_config := Conf;
  h_config_default := conf_default;
  h_rejected msg := Ipc.mk_handled true (Some (Ipc.ResponseErr (json_string msg)));
|}.
#[local] Existing Instance ipc_hooks.

Context {A P : Type} {PL : Plugin A P}.

(** [AppManager::extend_api]. *)
Definition manager_extend_api (s : PluginStore) (app : A) (plugin : string) (invoke : Ipc.Invoke)
    : Ipc.Handled :=
  (store_extend_api plugin invoke s app).1.1.

(** A command for a plugin that is not registered is answered exactly once,
    with the rejection that names the plugin, and no plugin sees it. *)
Theorem unknown_plugin_rejected_once fuel (m : Ipc.Manager GL UL Obj) s app ih w request n i acts :
  (n ∉ (name <$> store s)) →
  Ipc.on_message fuel m (manager_extend_api s app) ih w request = Ok acts →
  Ipc.CallPlugin n i ∈ acts →
  acts = [Ipc.CallPlugin n i;
          Ipc.Respond (Ipc.ResponseErr (json_string ("plugin " +:+ n +:+ " not found")))] ∧
  (store_extend_api n i s app).1.2 = s ∧ (store_extend_api n i s app).2 = app.
Proof.
  intros Hn Hm Hin.
  assert (store_extend_api n i s app =
    (h_rejected ("plugin " +:+ n +:+ " not found"), s, app)) as Hd.
  { unfold store_extend_api. destruct s as [l]. simpl in *. by rewrite dispatch_unknown. }
  split; [|by rewrite Hd].
  unfold Ipc.on_message in Hm. apply bind_ok in Hm as (is_local & _ & Hm).
  case_decide; [injection Hm as <-; by apply elem_of_nil in Hin|]. cbv zeta in Hm.
  match type of Hm with (if ?b then _ else _) = _ => destruct b end.
  - assert (∃ e, acts = [Ipc.Respond e]) as [e ->].
    { destruct (Ipc.debug_assertions m); [|injection Hm as <-; eauto].
      destruct (default _ _) as [key c]. apply bind_ok in Hm as (msg & _ & Hm).
      injection Hm as <-. eauto. }
    by apply list_elem_of_singleton in Hin.
  - destruct (Ipc.plugin_command (Ipc.cmd request)) as [[p c]|].
    + destruct (decide (p = n)) as [->|Hp].
      * assert (∀ j, Ipc.after_call (Ipc.CallPlugin n j) (manager_extend_api s app n j) c =
          Ok [Ipc.CallPlugin n j;
              Ipc.Respond (Ipc.ResponseErr (json_string ("plugin " +:+ n +:+ " not found")))]) as Ha.
        { intros j. unfold manager_extend_api, store_extend_api. destruct s as [l]. simpl in *.
          by rewrite dispatch_unknown. }
        rewrite Ha in Hm. injection Hm as <-. rewrite !elem_of_cons, elem_of_nil in Hin.
        destruct Hin as [[= ->]|[Hin|[]]]; done.
      * exfalso. pose proof (Ipc.after_call_calls _ _ _ _ _ _ Hm Hin eq_refl) as Hc. congruence.
    + exfalso. pose proof (Ipc.after_call_calls _ _ _ _ _ _ Hm Hin eq_refl) as Hc. congruence.
Qed.

End Messages.

(** ** Witnesses

    Two plugins that write their names into a log; one of them refuses to
    navigate, and fails to set up. *)
#[local] Instance ex_hooks : HookTypes := {|
  h_window := unit;
  h_webview := unit;
  h_url := string;
  h_payload := unit;
  h_event := unit;
  h_invoke := string;
  h_answer := option string;
  h_config := string;
  h_config_default := "";
  h_rejected msg := Some msg;
|}.

Abbreviation ex_App := (@App (list string) unit).
Abbreviation ex_TauriPlugin := (@TauriPlugin ex_hooks (list string) unit string).

Definition ex_conf : @h_config ex_hooks := "x".

Definition ex_from_value (c : @h_config ex_hooks) : string + string :=
  if decide ((c : string) = "bad") then inl "invalid" else inr c.

#[local] Instance ex_plugin_instance : Plugin ex_App ex_TauriPlugin := TauriPlugin_plugin ex_from_value.
#[local] Instance ex_plugin_laws : PluginLaws ex_App ex_TauriPlugin := TauriPlugin_laws ex_from_value.

Definition ex_log (s : string) (app : ex_App) : ex_App := mk_app (uri_scheme_protocols app) (user app ++ [s]).

Definition ex_plug (n : string) (agree : bool) : ex_TauriPlugin :=
  mk_plugin n false (λ i app, (Some i, ex_log n app))
    (Some (λ _ app, ((if agree then Ok () else Err "no") : outcome string (), ex_log n app))) None
    (λ _ _ app, (agree, ex_log n app)) (λ _ _ app, app) (λ _ app, app) (λ _ app, app) (λ _ app, app)
    None {[ n := () ]}.

Definition ex_web : @h_webview ex_hooks := ().
Definition ex_url : @h_url ex_hooks := "u".
Definition ex_cmd : @h_invoke ex_hooks := "cmd".
Definition ex_app0 : ex_App := mk_app ∅ [].
Definition ex_store : PluginStore :=
  (register (ex_plug "c" true) (register (ex_plug "b" false)
    (register (ex_plug "a" true) PluginStore_default).2).2).2.

Lemma ex_store_reachable : rtc step (PluginStore_default, ex_app0) (ex_store, ex_app0).
Proof.
  eapply rtc_l; [apply (step_register (ex_plug "a" true))|].
  eapply rtc_l; [apply (step_register (ex_plug "b" false))|].
  eapply rtc_l; [apply (step_register (ex_plug "c" true))|]. apply rtc_refl.
Qed.

Lemma store_dispatches_by_name_witness :
  NoDup (name <$> store ex_store) ∧ (store_extend_api "b" ex_cmd ex_store ex_app0).1.1 = Some "cmd".
Proof.
  split; [|reflexivity].
  exact (proj1 (store_dispatches_by_name ex_app0 ex_store ex_app0 "b" ex_cmd ex_store_reachable)).
Defined.

Lemma initialize_all_stops_at_error_witness :
  (initialize_all ex_store ex_app0 ∅).1.1 = Err (PluginInitialization "b" "no") ∧
  ∃ l1 p l2, store ex_store = l1 ++ p :: l2.
Proof.
  split; [vm_compute; reflexivity|].
  destruct (initialize_all_stops_at_error ex_store ex_app0 ∅ (Err (PluginInitialization "b" "no"))
    (initialize_all ex_store ex_app0 ∅).1.2 (initialize_all ex_store ex_app0 ∅).2)
    as (l1 & p & l2 & _ & _ & _ & _ & Hl & _); [vm_compute; reflexivity|discriminate|].
  exists l1, p, l2. exact Hl.
Defined.

Lemma setup_runs_once_witness :
  setup (TauriPlugin_initialize ex_from_value ex_app0 ex_conf (ex_plug "a" true)).1.2 = None.
Proof.
  destruct (setup_runs_once ex_from_value ex_app0 ex_conf (ex_plug "a" true) (Ok ())
    (TauriPlugin_initialize ex_from_value ex_app0 ex_conf (ex_plug "a" true)).1.2
    (TauriPlugin_initialize ex_from_value ex_app0 ex_conf (ex_plug "a" true)).2 eq_refl) as [H _].
  exact H.
Defined.

#[local] Existing Instances Acl.literal_glob Acl.literal_url Channel.ascii_http Ipc.literal_url_lib Ipc.text_web.

Definition ex_ipc_hooks : HookTypes := ipc_hooks unit unit unit unit unit unit ().

(** An application without plugins. *)
#[local] Instance ex_ipc_plugin : @Plugin ex_ipc_hooks (@App (list string) unit)
    (@TauriPlugin ex_ipc_hooks (list string) unit unit) :=
  @TauriPlugin_plugin ex_ipc_hooks (list string) unit unit (λ _, inr ()).

Definition ex_empty : @PluginStore (@TauriPlugin ex_ipc_hooks (list string) unit unit) :=
  @PluginStore_default _.

Definition ex_extend_api : string → Ipc.Invoke → Ipc.Handled :=
  manager_extend_api unit unit unit unit unit unit () ex_empty (mk_app ∅ []).

Lemma unknown_plugin_rejected_once_witness :
  ∃ acts, Ipc.on_message 3 Ipc.ex_manager ex_extend_api Ipc.ex_app Ipc.ex_webview
      (Ipc.ex_request "plugin:fs|read" "key") = Ok acts ∧
    acts = [Ipc.CallPlugin "fs" Ipc.ex_invoke;
            Ipc.Respond (Ipc.ResponseErr (json_string "plugin fs not found"))].
Proof.
  assert (Ipc.on_message 3 Ipc.ex_manager ex_extend_api Ipc.ex_app Ipc.ex_webview
      (Ipc.ex_request "plugin:fs|read" "key") =
    Ok [Ipc.CallPlugin "fs" Ipc.ex_invoke;
        Ipc.Respond (Ipc.ResponseErr (json_string "plugin fs not found"))]) as H
    by (vm_compute; reflexivity).
  eexists. split; [exact H|].
  exact (proj1 (unknown_plugin_rejected_once unit unit unit unit unit unit () 3 Ipc.ex_manager
    ex_empty (mk_app ∅ []) Ipc.ex_app Ipc.ex_webview (Ipc.ex_request "plugin:fs|read" "key") "fs"
    Ipc.ex_invoke _ ltac:(apply not_elem_of_nil) H ltac:(left))).
Defined.

End Plugins.
