(* ===== verification/BundleResources.v ===== *)
(** * Resources of the bundle

    Models [tauri-utils/Source/resources.rs]: which files the patterns of the
    configuration stand for and where the bundle puts them. The iterator is a
    state machine whose methods call each other; the model follows them call
    by call with fuel, and the properties show how much is enough. The file
    system, the matches of a glob and the walk of a directory are parameters:
    finite lists of paths and errors. *)
From Stdlib Require Import Ascii.
From S2P Require Import Prelude Acl Paths.
Import Paths.

(** The file system and the packages [glob] and [walkdir]. *)
Class ResourceFs := {
  res_exists : string → bool;
  res_is_dir : string → bool;
  glob_glob : string → string + list (string + string);
  walk_dir : string → list (string + string);
}.

Module BundleResources.

(** ** Paths *)
Definition push_relpath (dest : string) (c : Component) : string :=
  match c with
  | RootDir => push dest "_root_"
  | CurDir => dest
  | ParentDir => push dest "_up_"
  | Normal s => push dest s
  end.

Definition resource_relpath (path : string) : string := foldl push_relpath "" (components path).

Definition push_normal (dest : string) (c : Component) : string :=
  match c with
  | RootDir => push dest "/"
  | CurDir => dest
  | ParentDir => push dest ".."
  | Normal s => push dest s
  end.

Definition normalize (path : string) : string := foldl push_normal "" (components path).

(** [Path::file_name]. *)
Definition file_name (path : string) : option string :=
  match last (components path) with Some (Normal s) => Some s | _ => None end.

(** [Path::strip_prefix]: by components. *)
Fixpoint strip_components (base cs : list Component) : option (list Component) :=
  match base, cs with
  | [], _ => Some cs
  | b :: base, c :: cs => if decide (b = c) then strip_components base cs else None
  | _ :: _, [] => None
  end.

Definition path_strip_prefix (path base : string) : option string :=
  collect_path <$> strip_components (components base) (components path).

Definition external_binaries (external_binaries : list string) (target_triple : string) : list string :=
  (λ curr_path, curr_path +:+ "-" +:+ target_triple +:+
     (if Acl.str_contains "windows" target_triple then ".exe" else "")) <$> external_binaries.

(** ** The iterator *)
Record Resource := mk_resource {
  path : string;
  target : string;
}.

Inductive Error :=
| ResourcePathNotFound (p : string)
| NotAllowedToWalkDir (p : string)
| GlobPathNotFound (pattern : string)
| GlobError (text : string)
| WalkdirError (text : string)
| PatternError (text : string).

(** The patterns still to come: from a list, or from a map with destinations. *)
Inductive PatternIter :=
| Slice (patterns : list string)
| MapIter (patterns : list (string * string)).

Record ResourcePathsIter := mk_iter {
  pattern_iter : PatternIter;
  allow_walk : bool;
  current_path : option string;
  current_pattern : option string;
  current_dest : option string;
  walk_iter : option (list (string + string));
  glob_iter : option (list (string + string));
}.

Definition ResourcePaths_new (patterns : list string) (allow_walk : bool) : ResourcePathsIter :=
  mk_iter (Slice patterns) allow_walk None None None None None.

Definition from_map (patterns : list (string * string)) (allow_walk : bool) : ResourcePathsIter :=
  mk_iter (MapIter patterns) allow_walk None None None None None.

Definition set_path (p : option string) (it : ResourcePathsIter) : ResourcePathsIter :=
  mk_iter (pattern_iter it) (allow_walk it) p (current_pattern it) (current_dest it) (walk_iter it)
    (glob_iter it).
Definition set_walk (w : option (list (string + string))) (it : ResourcePathsIter) : ResourcePathsIter :=
  mk_iter (pattern_iter it) (allow_walk it) (current_path it) (current_pattern it) (current_dest it) w
    (glob_iter it).
Definition set_glob (g : option (list (string + string))) (it : ResourcePathsIter) : ResourcePathsIter :=
  mk_iter (pattern_iter it) (allow_walk it) (current_path it) (current_pattern it) (current_dest it)
    (walk_iter it) g.

(** An item of the iterator. *)
Abbreviation Item := (Error + Resource)%type.
(** What a call of [next] gives: an item or the end, and the state after it. *)
Abbreviation Next := (outcome Empty_set (option Item * ResourcePathsIter)).

Section Iterator.
Context {FS : ResourceFs}.

(** The target of a file. *)
Definition resource_target (it : ResourcePathsIter) (path : string) : outcome Empty_set string :=
  match current_dest it with
  | Some dest =>
      if decide (is_Some (walk_iter it)) then
        pattern ← expect (current_pattern it) "called `Option::unwrap()` on a `None` value";
        Ok (push dest (default path (path_strip_prefix path pattern)))
      else if decide (components dest = []) then
        expect (file_name path) "called `Option::unwrap()` on a `None` value"
      else if decide (is_Some (glob_iter it)) then
        n ← expect (file_name path) "called `Option::unwrap()` on a `None` value";
        Ok (push dest n)
      else Ok dest
  | None => Ok (resource_relpath path)
  end.

Definition resource_from_path (it : ResourcePathsIter) (path : string) : outcome Empty_set Item :=
  if negb (res_exists path) then Ok (inl (ResourcePathNotFound path))
  else t ← resource_target it path; Ok (inr (mk_resource path t)).

(** The next pattern, with the pattern and destination it sets. *)
Definition take_pattern (it : ResourcePathsIter) : option (string * ResourcePathsIter) :=
  match pattern_iter it with
  | Slice [] => None
  | Slice (p :: ps) =>
      Some (p, mk_iter (Slice ps) (allow_walk it) None None None (walk_iter it) (glob_iter it))
  | MapIter [] => None
  | MapIter ((p, dest) :: ps) =>
      Some (p, mk_iter (MapIter ps) (allow_walk it) None (Some p) (Some (resource_relpath dest))
                 (walk_iter it) (glob_iter it))
  end.

Definition reset_pattern (it : ResourcePathsIter) : ResourcePathsIter :=
  mk_iter (pattern_iter it) (allow_walk it) None None None (walk_iter it) (glob_iter it).

(** The methods, each call one unit of fuel. *)
Fixpoint next (fuel : nat) (it : ResourcePathsIter) : Next :=
  match fuel with
  | O => Diverge
  | S fuel =>
      match current_path it with
      | Some _ => next_current_path fuel it
      | None =>
          '(found, it) ← (match walk_iter it with
                          | Some _ =>
                              '(r, it) ← next_walk_iter fuel it;
                              match r with
                              | Some r => Ok (Some r, it)
                              | None => Ok (None, set_walk None it)
                              end
                          | None => Ok (None, it)
                          end);
          match found with
          | Some r => Ok (Some r, it)
          | None =>
              '(found, it) ← (match glob_iter it with
                              | Some _ =>
                                  '(r, it) ← next_glob_iter fuel it;
                                  match r with
                                  | Some r => Ok (Some r, it)
                                  | None => Ok (None, set_glob None it)
                                  end
                              | None => Ok (None, it)
                              end);
              match found with
              | Some r => Ok (Some r, it)
              | None => next_pattern fuel it
              end
          end
      end
  end
with next_glob_iter (fuel : nat) (it : ResourcePathsIter) : Next :=
  match fuel with
  | O => Diverge
  | S fuel =>
      match glob_iter it with
      | None => Panic "called `Option::unwrap()` on a `None` value"
      | Some [] => Ok (None, it)
      | Some (inl err :: rest) => Ok (Some (inl (GlobError err)), set_glob (Some rest) it)
      | Some (inr entry :: rest) =>
          next_current_path fuel (set_path (Some (normalize entry)) (set_glob (Some rest) it))
      end
  end
with next_walk_iter (fuel : nat) (it : ResourcePathsIter) : Next :=
  match fuel with
  | O => Diverge
  | S fuel =>
      match walk_iter it with
      | None => Panic "called `Option::unwrap()` on a `None` value"
      | Some [] => Ok (None, it)
      | Some (inl err :: rest) => Ok (Some (inl (WalkdirError err)), set_walk (Some rest) it)
      | Some (inr entry :: rest) =>
          next_current_path fuel (set_path (Some (normalize entry)) (set_walk (Some rest) it))
      end
  end
with next_current_path (fuel : nat) (it : ResourcePathsIter) : Next :=
  match fuel with
  | O => Diverge
  | S fuel =>
      match current_path it with
      | None => Panic "called `Option::unwrap()` on a `None` value"
      | Some path =>
          let it := set_path None it in
          if res_is_dir path then
            if decide (is_Some (glob_iter it)) then next fuel it
            else if negb (allow_walk it) then Ok (Some (inl (NotAllowedToWalkDir path)), it)
            else
              let it := match walk_iter it with
                        | None => set_walk (Some (walk_dir path)) it
                        | Some _ => it
                        end in
              '(r, it) ← next_walk_iter fuel it;
              match r with
              | Some resource => Ok (Some resource, it)
              | None => next fuel (set_walk None it)
              end
          else
            r ← resource_from_path it path;
            Ok (Some r, it)
      end
  end
with next_pattern (fuel : nat) (it : ResourcePathsIter) : Next :=
  match fuel with
  | O => Diverge
  | S fuel =>
      match take_pattern it with
      | None => Ok (None, reset_pattern it)
      | Some (pattern, it) =>
          if Acl.str_contains "*" pattern then
            match glob_glob pattern with
            | inl error => Ok (Some (inl (PatternError error)), it)
            | inr glob =>
                '(r, it) ← next_glob_iter fuel (set_glob (Some glob) it);
                match r with
                | Some r => Ok (Some r, it)
                | None => Ok (Some (inl (GlobPathNotFound pattern)), set_glob None it)
                end
            end
          else next_current_path fuel (set_path (Some (normalize pattern)) it)
      end
  end.

(** All items, as a [for] loop over the iterator sees them; each turn takes the
    same fuel. *)
Fixpoint items (turns fuel : nat) (it : ResourcePathsIter) : outcome Empty_set (list Item) :=
  match turns with
  | O => Diverge
  | S turns =>
      '(r, it) ← next fuel it;
      match r with
      | None => Ok []
      | Some r => rs ← items turns fuel it; Ok (r :: rs)
      end
  end.

(** ** Specification: what the patterns stand for *)

(** The pattern and the destination of the current entry. *)
Abbreviation Ctx := (option string * option string)%type.

Definition ctx_of (it : ResourcePathsIter) : Ctx := (current_pattern it, current_dest it).

Inductive Mode := Plain | Globbing | Walking.

Definition probe (c : Ctx) (m : Mode) : ResourcePathsIter :=
  mk_iter (Slice []) true None c.1 c.2
    (match m with Walking => Some [] | _ => None end) (match m with Globbing => Some [] | _ => None end).

(** The item of a file. *)
Definition file_item (c : Ctx) (m : Mode) (p : string) : Item :=
  match resource_from_path (probe c m) p with Ok i => i | _ => inl (ResourcePathNotFound p) end.

(** The items of the entries of a walk or a glob: directories are passed over. *)
Definition entry_items (c : Ctx) (m : Mode) (err : string → Error) (e : string + string) : list Item :=
  match e with
  | inl t => [inl (err t)]
  | inr p => if res_is_dir (normalize p) then [] else [file_item c m (normalize p)]
  end.

Definition walk_items (c : Ctx) (es : list (string + string)) : list Item :=
  es ≫= entry_items c Walking WalkdirError.
Definition glob_items (c : Ctx) (es : list (string + string)) : list Item :=
  es ≫= entry_items c Globbing GlobError.

(** The patterns with what they set. *)
Definition patterns (ps : PatternIter) : list (string * Ctx) :=
  match ps with
  | Slice l => (λ p, (p, (None, None))) <$> l
  | MapIter l => (λ '(p, d), (p, (Some p, Some (resource_relpath d)))) <$> l
  end.

(** The items of a path that is not a glob. *)
Definition path_items (allow_walk : bool) (c : Ctx) (q : string) : list Item :=
  if res_is_dir q
  then if allow_walk then walk_items c (walk_dir q) else [inl (NotAllowedToWalkDir q)]
  else [file_item c Plain q].

(** The items of all patterns. A glob that matches nothing is an error; one that
    matches only directories is an error when no other item follows. *)
Fixpoint all_items (allow_walk : bool) (ps : list (string * Ctx)) : list Item :=
  match ps with
  | [] => []
  | (p, c) :: ps =>
      let rest := all_items allow_walk ps in
      if Acl.str_contains "*" p then
        match glob_glob p with
        | inl e => inl (PatternError e) :: rest
        | inr [] => inl (GlobPathNotFound p) :: rest
        | inr es =>
            match glob_items c es ++ rest with
            | [] => [inl (GlobPathNotFound p)]
            | l => l
            end
        end
      else path_items allow_walk c (normalize p) ++ rest
  end.

(** What is left of an iterator between two calls. *)
Definition remaining (it : ResourcePathsIter) : list Item :=
  default [] (walk_items (ctx_of it) <$> walk_iter it) ++
  default [] (glob_items (ctx_of it) <$> glob_iter it) ++
  all_items (allow_walk it) (patterns (pattern_iter it)).

(** ** Fuel *)

(** The entries a pattern may open. *)
Definition pattern_weight (p : string) : nat :=
  if Acl.str_contains "*" p
  then match glob_glob p with inl _ => 0 | inr es => length es end
  else length (walk_dir (normalize p)).

Definition weight (it : ResourcePathsIter) : nat :=
  length (default [] (walk_iter it)) + length (default [] (glob_iter it)) +
  sum_list ((λ pc, S (pattern_weight pc.1)) <$> patterns (pattern_iter it)).

(** ** Invariant between two calls *)
Definition ctx_ok (c : Ctx) : Prop := is_Some c.2 → is_Some c.1.

Record wf (it : ResourcePathsIter) : Prop := {
  wf_ctx : ctx_ok (ctx_of it);
  wf_one : walk_iter it = None ∨ glob_iter it = None;
  wf_walk : is_Some (walk_iter it) → allow_walk it = true;
}.

End Iterator.

(** An existing path that is not a directory ends in a name: the root and the
    dots are directories. *)
Class ResourceFsLaws {FS : ResourceFs} : Prop :=
  file_has_name p : res_exists p = true → res_is_dir p = false → is_Some (file_name p).

Section Proofs.
Context {FS : ResourceFs} {FL : ResourceFsLaws}.

Definition mode_of (it : ResourcePathsIter) : Mode :=
  match walk_iter it with
  | Some _ => Walking
  | None => match glob_iter it with Some _ => Globbing | None => Plain end
  end.

Lemma resource_from_path_item it p :
  ctx_ok (ctx_of it) → walk_iter it = None ∨ glob_iter it = None → res_is_dir p = false →
  resource_from_path it p = Ok (file_item (ctx_of it) (mode_of it) p).
Proof.
  intros Hc Hone Hd. unfold file_item.
  assert (resource_from_path it p = resource_from_path (probe (ctx_of it) (mode_of it)) p) as <-.
  { unfold resource_from_path, resource_target, probe, mode_of, ctx_of. simpl.
    destruct (negb (res_exists p)); [done|]. destruct (current_dest it); [|done].
    by destruct (walk_iter it), (glob_iter it). }
  assert (∃ i, resource_from_path it p = Ok i) as [i ->]; [|done].
  unfold resource_from_path. destruct (res_exists p) eqn:He; simpl; [|eauto].
  destruct (file_has_name p He Hd) as [n Hn]. unfold resource_target. rewrite Hn. simpl.
  destruct (current_dest it) as [d|] eqn:Hdest; simpl; [|eauto].
  destruct Hc as [pat Hpat]; [simpl; eauto|]. simpl in Hpat. rewrite Hpat. simpl.
  repeat case_decide; simpl; eauto.
Qed.

(** The result of a call that has [l] left to give. *)
Definition gives (bound : nat) (l : list Item) (r : Next) : Prop :=
  ∃ it, r = Ok (head l, it) ∧ current_path it = None ∧ wf it ∧ remaining it = tail l ∧ weight it ≤ bound ∧
    (l = [] → mode_of it = Plain).

(** What the directory or the file [p] itself gives in the state of [it]. *)
Definition here (it : ResourcePathsIter) (p : string) : list Item :=
  if res_is_dir p then
    match mode_of it with
    | Plain => path_items (allow_walk it) (ctx_of it) p
    | _ => []
    end
  else [file_item (ctx_of it) (mode_of it) p].

Definition opens (it : ResourcePathsIter) (p : string) : nat :=
  match mode_of it with Plain => length (walk_dir p) | _ => 0 end.

(** The five methods, with enough fuel. *)
Record methods_ok (fuel : nat) : Prop := {
  next_ok it : 3 * weight it + 2 ≤ fuel → current_path it = None → wf it →
    gives (weight it) (remaining it) (next fuel it);
  glob_ok it es : 3 * weight it + 1 ≤ fuel → current_path it = None → wf it →
    glob_iter it = Some es → es ≠ [] →
    gives (weight it) (remaining it) (next_glob_iter fuel it);
  walk_ok it es : 3 * weight it + 1 ≤ fuel → current_path it = None → wf it →
    walk_iter it = Some es → es ≠ [] →
    gives (weight it) (remaining it) (next_walk_iter fuel it);
  current_ok it p : 3 * (weight it + opens it p) + 3 ≤ fuel → current_path it = Some p → wf it →
    gives (weight it + opens it p) (here it p ++ remaining it) (next_current_path fuel it);
  pattern_ok it : 3 * weight it + 1 ≤ fuel → current_path it = None → wf it →
    mode_of it = Plain → gives (weight it) (remaining it) (next_pattern fuel it);
}.

Lemma mode_plain it : mode_of it = Plain ↔ walk_iter it = None ∧ glob_iter it = None.
Proof. unfold mode_of. destruct (walk_iter it), (glob_iter it); naive_solver. Qed.

Lemma drop_walk it :
  wf it → walk_iter it = Some [] →
  wf (set_walk None it) ∧ remaining (set_walk None it) = remaining it ∧
  weight (set_walk None it) ≤ weight it.
Proof.
  intros [Hc Ho Hw] He. unfold remaining, weight. rewrite He. simpl.
  split_and!; [|done|lia]. constructor; simpl; [done|by left|by intros []].
Qed.

Lemma drop_glob it :
  wf it → glob_iter it = Some [] →
  wf (set_glob None it) ∧ remaining (set_glob None it) = remaining it ∧
  weight (set_glob None it) ≤ weight it.
Proof.
  intros [Hc Ho Hw] He. unfold remaining, weight. rewrite He. simpl.
  split_and!; [|done|lia]. constructor; simpl; [done|by right|done].
Qed.

(** Dropping a source that is not there changes nothing. *)
Lemma set_walk_none it : walk_iter it = None → set_walk None it = it.
Proof. destruct it. simpl. by intros ->. Qed.
Lemma set_glob_none it : glob_iter it = None → set_glob None it = it.
Proof. destruct it. simpl. by intros ->. Qed.

Lemma gives_mono b b' l r : b ≤ b' → gives b l r → gives b' l r.
Proof. intros Hb (it & ? & ? & ? & ? & ? & ?). exists it. split_and!; [done..|lia|done]. Qed.

(** A result that ends leaves nothing. *)
Lemma gives_inv b l r :
  gives b l r →
  (∃ i it, r = Ok (Some i, it) ∧ gives b l r) ∨
  (∃ it, r = Ok (None, it) ∧ l = [] ∧ current_path it = None ∧ wf it ∧ remaining it = [] ∧ weight it ≤ b ∧
     mode_of it = Plain).
Proof.
  intros (it & -> & Hp & Hw & Hr & Hb & Hm). destruct l as [|i l]; simpl in *.
  - right. exists it. auto 10.
  - left. exists i, it. split; [done|]. exists it. done.
Qed.

Section Step.
Context (fuel : nat) (IH : methods_ok fuel).

Lemma walk_step it es :
  3 * weight it + 1 ≤ S fuel → current_path it = None → wf it →
  walk_iter it = Some es → es ≠ [] →
  gives (weight it) (remaining it) (next_walk_iter (S fuel) it).
Proof.
  intros Hf Hp Hwf He Hne. simpl. rewrite He. destruct es as [|[t|e] es]; [done| |].
  - exists (set_walk (Some es) it). destruct Hwf as [Hc Ho Hw]. unfold remaining, weight in *. rewrite He. simpl.
    split_and!; [done..| |done|lia|done]. constructor; simpl; [done| |eauto].
    destruct Ho; [congruence|by right].
  - set (it' := set_path _ _).
    assert (weight it = S (weight it')) as Hwt by (unfold weight; rewrite He; simpl; lia).
    assert (opens it' (normalize e) = 0) as Ho0 by done.
    assert (here it' (normalize e) ++ remaining it' = remaining it) as Hh.
    { unfold here, remaining. rewrite He. simpl. destruct (res_is_dir (normalize e)); done. }
    rewrite <- Hh. eapply gives_mono; [|apply (current_ok _ IH it' (normalize e)); [lia|done|]]; [lia|].
    destruct Hwf as [Hc Ho Hw]. constructor; simpl; [done| |eauto].
    destruct Ho; [congruence|by right].
Qed.

Lemma glob_step it es :
  3 * weight it + 1 ≤ S fuel → current_path it = None → wf it →
  glob_iter it = Some es → es ≠ [] →
  gives (weight it) (remaining it) (next_glob_iter (S fuel) it).
Proof.
  intros Hf Hp Hwf He Hne. simpl. rewrite He.
  assert (walk_iter it = None) as Hwn by (destruct Hwf as [_ [] _]; congruence).
  destruct es as [|[t|e] es]; [done| |].
  - exists (set_glob (Some es) it). destruct Hwf as [Hc Ho Hw]. unfold remaining, weight in *. rewrite He, Hwn. simpl.
    rewrite Hwn. split_and!; [done..| |done|simpl; lia|done]. constructor; simpl; [done|by left|done].
  - set (it' := set_path _ _).
    assert (weight it = S (weight it')) as Hwt by (unfold weight; rewrite He; simpl; lia).
    assert (mode_of it' = Globbing) as Hm by (unfold mode_of; simpl; by rewrite Hwn).
    assert (opens it' (normalize e) = 0) as Ho0 by (unfold opens; by rewrite Hm).
    assert (here it' (normalize e) ++ remaining it' = remaining it) as Hh.
    { unfold here, remaining. rewrite He, Hm. simpl. rewrite Hwn. simpl.
      destruct (res_is_dir (normalize e)); done. }
    rewrite <- Hh. eapply gives_mono; [|apply (current_ok _ IH it' (normalize e)); [lia|done|]]; [lia|].
    destruct Hwf as [Hc Ho Hw]. constructor; simpl; [done|by left|done].
Qed.

(** A source that ends leaves the state without it and with the same items. *)
Lemma walk_or_end it es :
  3 * weight it + 1 ≤ fuel → current_path it = None → wf it → walk_iter it = Some es →
  (∃ i it', next_walk_iter fuel it = Ok (Some i, it') ∧
     gives (weight it) (remaining it) (next_walk_iter fuel it)) ∨
  (∃ it', next_walk_iter fuel it = Ok (None, it') ∧ current_path it' = None ∧ wf (set_walk None it') ∧
     remaining (set_walk None it') = remaining it ∧ weight (set_walk None it') ≤ weight it).
Proof.
  intros Hf Hp Hwf He. destruct (decide (es = [])) as [->|Hne].
  - right. exists it. destruct fuel as [|f]; [lia|]. destruct (drop_walk it) as (? & ? & ?); [done..|].
    simpl. rewrite He. done.
  - destruct (gives_inv _ _ _ (walk_ok _ IH it es Hf Hp Hwf He Hne))
      as [?|(it' & Hn & Hl & Hp' & Hw' & Hr & Hb & [Hm _]%mode_plain)]; [by left|right].
    exists it'. rewrite (set_walk_none it' Hm), Hr, Hl. done.
Qed.

Lemma glob_or_end it es :
  3 * weight it + 1 ≤ fuel → current_path it = None → wf it → glob_iter it = Some es →
  (∃ i it', next_glob_iter fuel it = Ok (Some i, it') ∧
     gives (weight it) (remaining it) (next_glob_iter fuel it)) ∨
  (∃ it', next_glob_iter fuel it = Ok (None, it') ∧ current_path it' = None ∧ wf (set_glob None it') ∧
     remaining (set_glob None it') = remaining it ∧ weight (set_glob None it') ≤ weight it ∧
     mode_of (set_glob None it') = Plain ∧ (es ≠ [] → remaining it = [])).
Proof.
  intros Hf Hp Hwf He.
  assert (walk_iter it = None) as Hwn by (destruct Hwf as [_ [] _]; congruence).
  destruct (decide (es = [])) as [->|Hne].
  - right. exists it. destruct fuel as [|f]; [lia|]. destruct (drop_glob it) as (? & ? & ?); [done..|].
    simpl. rewrite He. split_and!; [done..| |done]. by apply mode_plain.
  - destruct (gives_inv _ _ _ (glob_ok _ IH it es Hf Hp Hwf He Hne))
      as [?|(it' & Hn & Hl & Hp' & Hw' & Hr & Hb & Hm)]; [by left|right].
    exists it'. rewrite (set_glob_none it') by (by apply mode_plain in Hm as [_ ?]). rewrite Hr, Hl. done.
Qed.

(** The last part of [next], once the walk is over. *)
Lemma glob_then_pattern it :
  3 * weight it + 1 ≤ fuel → current_path it = None → wf it → walk_iter it = None →
  gives (weight it) (remaining it)
    ('(found, it) ← (match glob_iter it with
                     | Some _ =>
                         '(r, it) ← next_glob_iter fuel it;
                         match r with
                         | Some r => Ok (Some r, it)
                         | None => Ok (None, set_glob None it)
                         end
                     | None => Ok (None, it)
                     end);
     match found with
     | Some r => Ok (Some r, it)
     | None => next_pattern fuel it
     end).
Proof.
  intros Hf Hp Hwf Hw. destruct (glob_iter it) as [es|] eqn:He.
  - destruct (glob_or_end it es Hf Hp Hwf He) as [(i & it' & Hn & Hg)|(it' & Hn & Hp' & Hw' & Hr & Hb & Hm & _)].
    + rewrite Hn in Hg |- *. exact Hg.
    + rewrite Hn, <- Hr. simpl. eapply gives_mono, (pattern_ok _ IH); [done|lia|done..].
  - simpl. apply (pattern_ok _ IH); [done..|]. by apply mode_plain.
Qed.

Lemma next_step it :
  3 * weight it + 2 ≤ S fuel → current_path it = None → wf it →
  gives (weight it) (remaining it) (next (S fuel) it).
Proof.
  intros Hf Hp Hwf. cbn [next]. rewrite Hp. destruct (walk_iter it) as [es|] eqn:He.
  - destruct (walk_or_end it es) as [(i & it' & Hn & Hg)|(it' & Hn & Hp' & Hw' & Hr & Hb)]; [lia|done..| |].
    + rewrite Hn in Hg |- *. exact Hg.
    + rewrite Hn, <- Hr. eapply gives_mono, (glob_then_pattern (set_walk None it')); [done|lia|done..].
  - apply glob_then_pattern; [lia|done..].
Qed.

(** After the walk of a directory. *)
Lemma walk_then_next it es :
  3 * weight it + 2 ≤ fuel → current_path it = None → wf it → walk_iter it = Some es →
  gives (weight it) (remaining it)
    ('(r, it) ← next_walk_iter fuel it;
     match r with Some resource => Ok (Some resource, it) | None => next fuel (set_walk None it) end).
Proof.
  intros Hf Hp Hwf He.
  destruct (walk_or_end it es) as [(i & it' & Hn & Hg)|(it' & Hn & Hp' & Hw' & Hr & Hb)]; [lia|done..| |].
  - rewrite Hn in Hg |- *. exact Hg.
  - rewrite Hn, <- Hr. eapply gives_mono, (next_ok _ IH); [done|lia|done..].
Qed.

Lemma current_step it p :
  3 * (weight it + opens it p) + 3 ≤ S fuel → current_path it = Some p → wf it →
  gives (weight it + opens it p) (here it p ++ remaining it) (next_current_path (S fuel) it).
Proof.
  intros Hf Hp Hwf. cbn [next_current_path]. rewrite Hp. cbv zeta. set (it0 := set_path None it).
  assert (remaining it0 = remaining it ∧ weight it0 = weight it ∧ mode_of it0 = mode_of it ∧ ctx_of it0 = ctx_of it)
    as (Hr & Hw & Hm & Hx) by done.
  assert (wf it0) as Hwf0 by (destruct Hwf; by constructor).
  unfold here. destruct (res_is_dir p) eqn:Hd.
  2:{ rewrite resource_from_path_item; [|by destruct Hwf0..|done]. simpl. exists it0.
      rewrite Hm, Hx, Hr, Hw. split_and!; [done..|lia|done]. }
  change (glob_iter it0) with (glob_iter it). change (walk_iter it0) with (walk_iter it).
  change (allow_walk it0) with (allow_walk it).
  case_decide as Hg.
  { assert (mode_of it = Globbing) as Hmg.
    { destruct Hwf as [_ [?|?] _]; unfold mode_of; [|by destruct Hg; congruence].
      destruct Hg as [? ->]. by rewrite H. }
    unfold opens in *. rewrite Hmg in *. simpl. rewrite <- Hr.
    eapply gives_mono, (next_ok _ IH); [lia|lia|done..]. }
  destruct (walk_iter it) as [es|] eqn:He.
  { rewrite (wf_walk _ Hwf) by eauto. unfold opens in *. assert (mode_of it = Walking) as Hmw by (unfold mode_of; by rewrite He).
    rewrite Hmw in *. simpl. rewrite <- Hr. eapply gives_mono, walk_then_next; [lia|lia|done|done|exact He]. }
  assert (mode_of it = Plain) as Hmp by (apply mode_plain; split; [done|]; destruct (glob_iter it); naive_solver).
  unfold opens in *. rewrite Hmp in *. unfold path_items. rewrite Hd.
  destruct (allow_walk it) eqn:Ha; simpl.
  - set (it1 := set_walk _ it0).
    assert (walk_items (ctx_of it) (walk_dir p) ++ remaining it = remaining it1) as ->.
    { unfold remaining at 1. rewrite He. done. }
    assert (weight it1 = weight it + length (walk_dir p)) as <-.
    { unfold weight. rewrite He. simpl. lia. }
    eapply walk_then_next; [|done| |done].
    + unfold weight in *. rewrite He in Hf. simpl in *. lia.
    + destruct Hwf. constructor; simpl; [done|right; by apply mode_plain in Hmp as [_ ?]|done].
  - exists it0. simpl. rewrite Hr, Hw. split_and!; [done..|lia|done].
Qed.

(** Taking a pattern sets its context. *)
Lemma take_pattern_spec it :
  match take_pattern it with
  | None => patterns (pattern_iter it) = []
  | Some (p, it') =>
      patterns (pattern_iter it) = (p, ctx_of it') :: patterns (pattern_iter it') ∧
      ctx_ok (ctx_of it') ∧ allow_walk it' = allow_walk it ∧ current_path it' = None ∧
      walk_iter it' = walk_iter it ∧ glob_iter it' = glob_iter it
  end.
Proof.
  unfold take_pattern, ctx_ok. destruct (pattern_iter it) as [[|p l]|[|[p d] l]]; simpl; [done| |done|].
  - split_and!; [done| |done..]. by intros [].
  - split_and!; [done| |done..]. eauto.
Qed.

Lemma plain_remaining it :
  mode_of it = Plain → remaining it = all_items (allow_walk it) (patterns (pattern_iter it)).
Proof. intros [Hw Hg]%mode_plain. unfold remaining. by rewrite Hw, Hg. Qed.

Lemma plain_weight it :
  mode_of it = Plain →
  weight it = sum_list ((λ pc, S (pattern_weight pc.1)) <$> patterns (pattern_iter it)).
Proof. intros [Hw Hg]%mode_plain. unfold weight. by rewrite Hw, Hg. Qed.

(** A pattern that is a glob. *)
Lemma glob_pattern_step it p :
  Acl.str_contains "*" p = true → 3 * (weight it + S (pattern_weight p)) + 1 ≤ S fuel →
  current_path it = None → wf it → mode_of it = Plain →
  gives (weight it + S (pattern_weight p))
    (all_items (allow_walk it) ((p, ctx_of it) :: patterns (pattern_iter it)))
    (match glob_glob p with
     | inl error => Ok (Some (inl (PatternError error)), it)
     | inr glob =>
         '(r, it) ← next_glob_iter fuel (set_glob (Some glob) it);
         match r with
         | Some r => Ok (Some r, it)
         | None => Ok (Some (inl (GlobPathNotFound p)), set_glob None it)
         end
     end).
Proof.
  intros Hs Hf Hp Hwf Hm. pose proof (plain_remaining it Hm) as Hr.
  pose proof (proj1 (mode_plain it) Hm) as [Hwn Hgn]. cbn [all_items]. rewrite Hs, <- Hr. unfold pattern_weight in *. rewrite Hs in *.
  destruct (glob_glob p) as [e|es] eqn:Hgl.
  { exists it. split_and!; [done..|lia|done]. }
  set (it1 := set_glob (Some es) it).
  assert (remaining it1 = glob_items (ctx_of it) es ++ remaining it) as Hr1.
  { rewrite Hr. unfold remaining. simpl. by rewrite Hwn. }
  assert (weight it1 = weight it + length es) as Hw1.
  { unfold weight. simpl. rewrite Hwn, Hgn. simpl. lia. }
  destruct (glob_or_end it1 es) as [(i & it' & Hn & Hg)|(it' & Hn & Hp' & Hw' & Hr' & Hb & Hm' & Hes)];
    [lia|done| |done|..].
  { destruct Hwf. constructor; simpl; [done|by left|done]. }
  - rewrite Hn in Hg |- *. simpl. rewrite Hr1 in Hg. eapply (gives_mono _ (weight it + S (length es))) in Hg; [|lia].
    destruct es as [|e es]; [destruct fuel; simpl in Hn; naive_solver lia|].
    destruct (glob_items _ (e :: es) ++ remaining it); [by destruct Hg as (? & ? & ?)|done].
  - rewrite Hn. simpl. exists (set_glob None it'). destruct es as [|e es].
    + simpl. rewrite Hr', Hr1. split_and!; [done..|simpl in *; lia|done].
    + rewrite Hr', Hr1. rewrite Hr1 in Hes. rewrite Hes by done. simpl. split_and!; [done..|simpl in *; lia|done].
Qed.

Lemma pattern_step it :
  3 * weight it + 1 ≤ S fuel → current_path it = None → wf it → mode_of it = Plain →
  gives (weight it) (remaining it) (next_pattern (S fuel) it).
Proof.
  intros Hf Hp Hwf Hm. cbn [next_pattern]. rewrite (plain_remaining _ Hm), (plain_weight _ Hm) in *.
  pose proof (take_pattern_spec it) as Ht. pose proof (proj1 (mode_plain it) Hm) as [Hwn Hgn].
  destruct (take_pattern it) as [[p it']|].
  2:{ rewrite Ht. exists (reset_pattern it). split_and!; [done|done| | |simpl|by intros _; apply mode_plain].
      - destruct Hwf. constructor; [by intros []|done..].
      - rewrite plain_remaining by (by apply mode_plain). simpl. by rewrite Ht.
      - rewrite plain_weight by (by apply mode_plain). simpl. by rewrite Ht. }
  destruct Ht as (Heq & Hc & Ha & Hp' & Hw' & Hg'). rewrite Heq, fmap_cons in *. cbn [sum_list fst id] in *.
  assert (mode_of it' = Plain) as Hm' by (apply mode_plain; split; congruence).
  assert (wf it') as Hwf' by (destruct Hwf; constructor; rewrite ?Hw', ?Hg', ?Ha; done).
  rewrite <- (plain_weight _ Hm') in *. rewrite <- Ha.
  destruct (Acl.str_contains "*" p) eqn:Hs.
  - eapply gives_mono, glob_pattern_step; [lia|done|lia|done..].
  - cbn [all_items]. rewrite Hs, <- (plain_remaining _ Hm').
    set (it1 := set_path _ it').
    assert (opens it1 (normalize p) = pattern_weight p) as Ho.
    { unfold opens, pattern_weight. rewrite Hs. change (mode_of it1) with (mode_of it'). by rewrite Hm'. }
    assert (path_items (allow_walk it') (ctx_of it') (normalize p) = here it1 (normalize p)) as ->.
    { unfold here. change (mode_of it1) with (mode_of it'). rewrite Hm'. unfold path_items.
      by destruct (res_is_dir (normalize p)). }
    eapply gives_mono, (current_ok _ IH it1 (normalize p)); [| |done|]; [rewrite Ho; change (weight it1) with (weight it'); lia..|].
    destruct Hwf'; by constructor.
Qed.

End Step.

Lemma methods_hold fuel : methods_ok fuel.
Proof.
  induction fuel as [|fuel IH]; [constructor; intros; lia|]. constructor.
  - by apply next_step.
  - by apply glob_step.
  - by apply walk_step.
  - by apply current_step.
  - by apply pattern_step.
Qed.

(** Enough turns and fuel give every item, from any state between two calls. *)
Lemma items_remaining fuel turns it :
  3 * weight it + 2 ≤ fuel → length (remaining it) < turns → current_path it = None → wf it →
  items turns fuel it = Ok (remaining it).
Proof.
  revert it. induction turns as [|turns IH]; intros it Hf Ht Hp Hwf; [lia|].
  destruct (next_ok _ (methods_hold fuel) it Hf Hp Hwf) as (it' & Hn & Hp' & Hwf' & Hr & Hw & _).
  cbn [items]. rewrite Hn. simpl. destruct (remaining it) as [|i l]; simpl in *; [done|].
  rewrite IH; [by rewrite Hr|lia|rewrite Hr; lia|done..].
Qed.

(** ** Normal paths *)
Lemma body_no_dot p : CurDir ∉ body p.
Proof. intros H. by destruct (body_elements p _ H) as [|(? & ? & _)]. Qed.

(** Without the leading dot, [normalize] keeps the components. *)
Lemma normalize_components p : components (normalize p) = filter (λ c, c ≠ CurDir) (components p).
Proof.
  assert (∀ cs d, foldl push_normal d cs =
    foldl (λ q c, push q (component_str c)) d (filter (λ c, c ≠ CurDir) cs)) as Hf.
  { induction cs as [|c cs IH]; intros d; [done|]. rewrite filter_cons. cbn [foldl].
    rewrite IH. destruct c; case_decide; done. }
  unfold normalize. rewrite Hf. change (foldl _ "" ?l) with (collect_path l).
  assert (filter (λ c, c ≠ CurDir) (body p) = body p) as Hb.
  { pose proof (body_no_dot p) as Hn. induction (body p) as [|c cs IH]; [done|].
    apply not_elem_of_cons in Hn as [Hc Hn]. rewrite filter_cons, decide_True by done. by rewrite IH. }
  unfold components at 2 3. rewrite !filter_app, !Hb.
  apply components_collect; [|apply body_elements].
  unfold lead. destruct (is_absolute p); [by auto|]. case_decide; auto.
Qed.

(** The place of a file does not depend on a leading dot. *)
Lemma relpath_normalize p : resource_relpath (normalize p) = resource_relpath p.
Proof.
  unfold resource_relpath. rewrite normalize_components. generalize "".
  induction (components p) as [|c cs IH]; intros d; [done|]. rewrite filter_cons.
  case_decide as Hc; [apply IH|]. destruct c; simpl; [done| |done..]. apply IH.
Qed.

(** A file of a list is stored at its own relative place. *)
Lemma file_item_list m p r : file_item (None, None) m p = inr r → target r = resource_relpath (path r).
Proof.
  unfold file_item, resource_from_path, resource_target. simpl.
  destruct (negb (res_exists p)); simpl; [done|]. by intros [= <-].
Qed.

Lemma entries_list m err es r :
  inr r ∈ es ≫= entry_items (None, None) m err → target r = resource_relpath (path r).
Proof.
  intros (e & Hr & _)%list_elem_of_bind. unfold entry_items in Hr. destruct e as [t|p].
  - by apply list_elem_of_singleton in Hr.
  - destruct (res_is_dir _); [by apply not_elem_of_nil in Hr|].
    apply list_elem_of_singleton in Hr. by eapply file_item_list.
Qed.

Lemma path_items_list aw q r :
  inr r ∈ path_items aw (None, None) q → target r = resource_relpath (path r).
Proof.
  unfold path_items. destruct (res_is_dir q), aw; [apply entries_list|..];
    rewrite list_elem_of_singleton; [done|intros Hr; by eapply file_item_list..].
Qed.

Lemma all_items_list aw l r :
  inr r ∈ all_items aw (patterns (Slice l)) → target r = resource_relpath (path r).
Proof.
  induction l as [|p l IH]; [by intros ?%not_elem_of_nil|]. simpl patterns. cbn [fmap list_fmap all_items].
  destruct (Acl.str_contains "*" p).
  - destruct (glob_glob p) as [e|[|e es]].
    + rewrite elem_of_cons. intros [|]; [done|auto].
    + rewrite elem_of_cons. intros [|]; [done|auto].
    + destruct (glob_items _ _ ++ _) eqn:Hl; [by intros ?%list_elem_of_singleton|]. rewrite <- Hl, elem_of_app.
      intros [H|H]; [by eapply entries_list|auto].
  - rewrite elem_of_app. intros [H|H]; [by eapply path_items_list|auto].
Qed.

(** ** Properties *)

(** C14. Iterating over the resources ends, never panics and gives exactly the
    items of the specification, in order, for lists and for maps of patterns:
    with fuel three times the entries to visit, and one turn more than there
    are items. *)
Theorem resources_enumerated ps aw turns fuel :
  let it := mk_iter ps aw None None None None None in
  3 * weight it + 2 ≤ fuel → length (all_items aw (patterns ps)) < turns →
  items turns fuel it = Ok (all_items aw (patterns ps)) ∧
  (∀ l, ps = Slice l → it = ResourcePaths_new l aw) ∧ (∀ l, ps = MapIter l → it = from_map l aw).
Proof.
  intros it Hf Ht. assert (remaining it = all_items aw (patterns ps)) as Hr by done.
  split_and!; [|by intros l ->..]. rewrite <- Hr in *. apply items_remaining; [done..|].
  constructor; [by intros []|by left|by intros []].
Qed.

(** A resource listed in the configuration is stored where the application
    looks for it: resolving its path, or the pattern that names it, against the
    resource directory gives the directory joined with the target. *)
Theorem bundled_where_resolved l aw turns fuel rs r dir base p :
  items turns fuel (ResourcePaths_new l aw) = Ok rs →
  3 * weight (ResourcePaths_new l aw) + 2 ≤ fuel → length (all_items aw (patterns (Slice l))) < turns →
  inr r ∈ rs → dir Paths.Resource = Some base → normalize p = path r ∨ p = path r →
  resolve dir p Paths.Resource = Ok (push base (target r)).
Proof.
  intros Hi Hf Ht Hr Hd Hp. rewrite items_remaining in Hi; [|done..| ].
  2:{ constructor; [by intros []|by left|by intros []]. }
  injection Hi as <-. assert (target r = resource_relpath p) as ->.
  { rewrite (all_items_list aw l r) by done. destruct Hp as [<-| ->]; [apply relpath_normalize|done]. }
  unfold resolve, resolve_path. by rewrite Hd.
Qed.

End Proofs.

(** ** Examples *)
#[local] Instance ex_fs : ResourceFs := {|
  res_exists p := bool_decide (p ∈ ["assets"; "assets/lang"; "assets/lang/en.json"; "assets/a.png"; "Cargo.toml"]);
  res_is_dir p := bool_decide (p ∈ ["assets"; "assets/lang"]);
  glob_glob p :=
    match p with
    | "*.toml" => inr [inr "Cargo.toml"]
    | "asset*" => inr [inr "assets"]
    | _ => inr []
    end%string;
  walk_dir p :=
    match p with
    | "assets" => [inr "assets"; inr "assets/lang"; inr "assets/lang/en.json"; inr "assets/a.png"]
    | _ => []
    end%string;
|}.

#[local] Instance ex_fs_laws : ResourceFsLaws.
Proof.
  intros p He Hd. simpl in *. apply bool_decide_eq_true in He.
  repeat (apply elem_of_cons in He as [->|He]; [by eexists|]). by apply not_elem_of_nil in He.
Qed.

Definition ex_patterns : list string := ["./assets"; "*.toml"; "none*"].

Lemma resources_enumerated_witness :
  items 5 26 (ResourcePaths_new ex_patterns true) =
  Ok [inr (mk_resource "assets/lang/en.json" "assets/lang/en.json");
      inr (mk_resource "assets/a.png" "assets/a.png");
      inr (mk_resource "Cargo.toml" "Cargo.toml");
      inl (GlobPathNotFound "none*")].
Proof.
  assert (all_items true (patterns (Slice ex_patterns)) =
    [inr (mk_resource "assets/lang/en.json" "assets/lang/en.json");
     inr (mk_resource "assets/a.png" "assets/a.png");
     inr (mk_resource "Cargo.toml" "Cargo.toml");
     inl (GlobPathNotFound "none*")]) as He by (vm_compute; reflexivity).
  rewrite <- He. apply (resources_enumerated (Slice ex_patterns) true 5 26).
  - vm_compute. lia.
  - rewrite He. simpl. lia.
Defined.

Lemma bundled_where_resolved_witness :
  resolve ex_dir "./assets/a.png" Paths.Resource = Ok "/usr/lib/app/assets/a.png".
Proof.
  assert (items 5 26 (ResourcePaths_new ex_patterns true) = Ok (all_items true (patterns (Slice ex_patterns))))
    as Hi by (vm_compute; reflexivity).
  apply (bundled_where_resolved ex_patterns true 5 26 _ (mk_resource "assets/a.png" "assets/a.png")
    ex_dir "/usr/lib/app" "./assets/a.png" Hi).
  - vm_compute. lia.
  - vm_compute. lia.
  - assert (all_items true (patterns (Slice ex_patterns)) !! 1 = Some (inr (mk_resource "assets/a.png" "assets/a.png")))
      as Hl by (vm_compute; reflexivity).
    exact (list_elem_of_lookup_2 _ _ _ Hl).
  - reflexivity.
  - left. vm_compute. reflexivity.
Defined.

(** A glob that matches only directories is reported when it is the last
    pattern, and passed over in silence when a later pattern gives an item. *)
Theorem directory_glob_report_depends_on_order :
  items 5 40 (ResourcePaths_new ["Cargo.toml"; "asset*"] true) =
    Ok [inr (mk_resource "Cargo.toml" "Cargo.toml"); inl (GlobPathNotFound "asset*")] ∧
  items 5 40 (ResourcePaths_new ["asset*"; "Cargo.toml"] true) =
    Ok [inr (mk_resource "Cargo.toml" "Cargo.toml")].
Proof. split; vm_compute; reflexivity. Qed.

(** The directory of a map pattern is stripped from the targets of its
    files, but not when the pattern is written with a leading dot. *)
Theorem map_directory_dot_kept :
  items 5 40 (from_map [("assets", "res")] true) =
    Ok [inr (mk_resource "assets/lang/en.json" "res/lang/en.json"); inr (mk_resource "assets/a.png" "res/a.png")] ∧
  items 5 40 (from_map [("./assets", "res")] true) =
    Ok [inr (mk_resource "assets/lang/en.json" "res/assets/lang/en.json");
        inr (mk_resource "assets/a.png" "res/assets/a.png")].
Proof. split; vm_compute; reflexivity. Qed.

End BundleResources.
