(* ===== verification/Runtime.v ===== *)
(** * The runtime: windows and webviews of the main thread

    Models the message handling of [tauri-runtime-wry/Source/lib.rs] on Linux:
    the stores of windows, webviews and web contexts, the messages that change
    them, and the dispatchers that send the messages. The window toolkit [tao]
    and the webview library [wry] are parameters: every call into them is
    recorded, and what they answer may depend on the calls made so far. *)
From S2P Require Import Prelude.

(** Types of [tao], [wry] and the application that the runtime only passes on. *)
Class RuntimeTypes := {
  tao_id : Type;
  tao_id_eq_dec :: EqDecision tao_id;
  tao_id_countable :: Countable tao_id;
  f32 : Type;
  scale : Type;
  position : Type;
  size : Type;
  arg : Type;
  value : Type;
  user_event : Type;
  window_handler : Type;
  webview_handler : Type;
  (** the other attributes of a webview: its url, its scripts and handlers *)
  attributes : Type;
}.

Module Messages.

Abbreviation WindowId := N.
Abbreviation WebviewId := N.
(** A sender: which channel an answer goes to. *)
Abbreviation Sender := N.

(** ** Messages *)
Section Messages.
Context {RTy : RuntimeTypes}.

Inductive Theme := Light | Dark.

Inductive DragDropEvent :=
| Enter (paths : list string) (at_ : position)
| Over (at_ : position)
| Drop (paths : list string) (at_ : position)
| Leave.

Inductive WindowGetter :=
| ScaleFactor | InnerPosition | OuterPosition | InnerSize | OuterSize | IsFullscreen | IsMinimized
| IsMaximized | IsFocused | IsDecorated | IsResizable | IsMaximizable | IsMinimizable | IsClosable
| IsVisible | Title | CurrentMonitor | PrimaryMonitor | MonitorFromPoint (at_ : arg)
| AvailableMonitors | GtkWindow | GtkBox | RawWindowHandle | GetTheme | IsEnabled.

Inductive WindowSetter :=
| Center
| RequestUserAttention (request_type : option arg)
| SetEnabled (enabled : bool)
| SetResizable (resizable : bool)
| SetMaximizable (maximizable : bool)
| SetMinimizable (minimizable : bool)
| SetClosable (closable : bool)
| SetTitle (title : string)
| Maximize
| Unmaximize
| Minimize
| Unminimize
| Show
| Hide
| SetDecorations (decorations : bool)
| SetShadow (enable : bool)
| SetAlwaysOnBottom (always_on_bottom : bool)
| SetAlwaysOnTop (always_on_top : bool)
| SetVisibleOnAllWorkspaces (visible_on_all_workspaces : bool)
| SetContentProtected (protected : bool)
| SetSize (s : size)
| SetMinSize (s : option size)
| SetMaxSize (s : option size)
| SetSizeConstraints (constraints : arg)
| SetPosition (p : position)
| SetFullscreen (fullscreen : bool)
| SetFocus
| SetIcon (icon : arg)
| SetSkipTaskbar (skip : bool)
| SetCursorGrab (grab : bool)
| SetCursorVisible (visible : bool)
| SetCursorIcon (icon : arg)
| SetCursorPosition (p : position)
| SetIgnoreCursorEvents (ignore : bool)
| SetBadgeCount (count : option Z) (desktop_filename : option string)
| SetBadgeLabel (label : option string)
| SetOverlayIcon (icon : option arg)
| SetProgressBar (state : arg)
| SetTitleBarStyle (style : arg)
| SetTheme (theme : option Theme)
| SetBackgroundColor (color : option arg)
| DragWindow
| ResizeDragWindow (direction : arg)
| RequestRedraw.

Inductive WebviewGetter := Url | Bounds | WvPosition | WvSize | IsDevToolsOpen.

Inductive WebviewSetter :=
| EvaluateScript (script : string)
| Navigate (url : string)
| Print
| WvShow
| WvHide
| WvSetPosition (p : position)
| WvSetSize (s : size)
| SetBounds (p : position) (s : size)
| WvSetFocus
| SetAutoResize (auto_resize : bool)
| SetZoom (factor : arg)
| WvSetBackgroundColor (color : option arg)
| ClearAllBrowsingData
| OpenDevTools
| CloseDevTools.

(** The methods of a [tao] window that the setters call on Linux. *)
Inductive TaoCall :=
| tao_center
| tao_request_user_attention (request_type : option arg)
| tao_set_resizable (b : bool)
| tao_set_maximizable (b : bool)
| tao_set_minimizable (b : bool)
| tao_set_closable (b : bool)
| tao_set_title (title : string)
| tao_set_maximized (b : bool)
| tao_set_minimized (b : bool)
| tao_set_enabled (b : bool)
| tao_set_visible (b : bool)
| tao_set_decorations (b : bool)
| tao_set_always_on_bottom (b : bool)
| tao_set_always_on_top (b : bool)
| tao_set_visible_on_all_workspaces (b : bool)
| tao_set_content_protection (b : bool)
| tao_set_inner_size (s : size)
| tao_set_min_inner_size (s : option size)
| tao_set_max_inner_size (s : option size)
| tao_set_inner_size_constraints (constraints : arg)
| tao_set_outer_position (p : position)
| tao_set_fullscreen (borderless : bool)
| tao_set_focus
| tao_set_window_icon (icon : arg)
| tao_set_skip_taskbar (b : bool)
| tao_set_cursor_grab (b : bool)
| tao_set_cursor_visible (b : bool)
| tao_set_cursor_icon (icon : arg)
| tao_set_cursor_position (p : position)
| tao_set_ignore_cursor_events (b : bool)
| tao_set_badge_count (count : option Z) (desktop_filename : option string)
| tao_set_progress_bar (state : arg)
| tao_set_theme (theme : option Theme)
| tao_set_background_color (color : option arg)
| tao_drag_window
| tao_drag_resize_window (direction : arg)
| tao_request_redraw.

Definition window_setter (m : WindowSetter) : option TaoCall :=
  match m with
  | Center => Some tao_center
  | RequestUserAttention t => Some (tao_request_user_attention t)
  | SetResizable b => Some (tao_set_resizable b)
  | SetMaximizable b => Some (tao_set_maximizable b)
  | SetMinimizable b => Some (tao_set_minimizable b)
  | SetClosable b => Some (tao_set_closable b)
  | SetTitle t => Some (tao_set_title t)
  | Maximize => Some (tao_set_maximized true)
  | Unmaximize => Some (tao_set_maximized false)
  | Minimize => Some (tao_set_minimized true)
  | Unminimize => Some (tao_set_minimized false)
  | SetEnabled b => Some (tao_set_enabled b)
  | Show => Some (tao_set_visible true)
  | Hide => Some (tao_set_visible false)
  | SetDecorations b => Some (tao_set_decorations b)
  | SetShadow _ => None
  | SetAlwaysOnBottom b => Some (tao_set_always_on_bottom b)
  | SetAlwaysOnTop b => Some (tao_set_always_on_top b)
  | SetVisibleOnAllWorkspaces b => Some (tao_set_visible_on_all_workspaces b)
  | SetContentProtected b => Some (tao_set_content_protection b)
  | SetSize s => Some (tao_set_inner_size s)
  | SetMinSize s => Some (tao_set_min_inner_size s)
  | SetMaxSize s => Some (tao_set_max_inner_size s)
  | SetSizeConstraints c => Some (tao_set_inner_size_constraints c)
  | SetPosition p => Some (tao_set_outer_position p)
  | SetFullscreen b => Some (tao_set_fullscreen b)
  | SetFocus => Some tao_set_focus
  | SetIcon i => Some (tao_set_window_icon i)
  | SetSkipTaskbar b => Some (tao_set_skip_taskbar b)
  | SetCursorGrab b => Some (tao_set_cursor_grab b)
  | SetCursorVisible b => Some (tao_set_cursor_visible b)
  | SetCursorIcon i => Some (tao_set_cursor_icon i)
  | SetCursorPosition p => Some (tao_set_cursor_position p)
  | SetIgnoreCursorEvents b => Some (tao_set_ignore_cursor_events b)
  | DragWindow => Some tao_drag_window
  | ResizeDragWindow d => Some (tao_drag_resize_window d)
  | RequestRedraw => Some tao_request_redraw
  | SetBadgeCount c f => Some (tao_set_badge_count c f)
  | SetBadgeLabel _ => None
  | SetOverlayIcon _ => None
  | SetProgressBar s => Some (tao_set_progress_bar s)
  | SetTitleBarStyle _ => None
  | SetTheme t =>
      Some (tao_set_theme (match t with Some Light => Some Light | Some Dark => Some Dark | None => None end))
  | SetBackgroundColor c => Some (tao_set_background_color c)
  end.

(** The methods of a [wry] webview. *)
Inductive WryCall :=
| wry_evaluate_script (script : string)
| wry_load_url (url : string)
| wry_set_visible (b : bool)
| wry_print
| wry_set_bounds (p : position) (s : size)
| wry_zoom (factor : arg)
| wry_set_background_color (color : option arg)
| wry_clear_all_browsing_data
| wry_focus
| wry_open_devtools
| wry_close_devtools.

(** What the runtime asked of the native libraries. *)
Inductive NativeCall :=
| WindowCall (w : tao_id) (c : TaoCall)
| WebviewCall (v : WebviewId) (c : WryCall)
| BuildWindow (w : tao_id) (label : string)
| DropWindow (w : tao_id)
| BuildWebview (v : WebviewId) (label : string) (protocols : list string) (a : attributes)
| ReparentWebview (v : WebviewId) (w : tao_id)
| DropWebview (v : WebviewId)
| DropContext (key : option string).

End Messages.

Abbreviation history := (list NativeCall).

End Messages.
Import Messages.

(** What [tao] and [wry] answer. *)
Class Native {RTy : RuntimeTypes} := {
  f32_mul : f32 → f32 → f32;
  f32_div : f32 → f32 → f32;
  f32_zero : f32;
  f32_one : f32;
  logical_position : scale → position → f32 * f32;
  logical_size : scale → size → f32 * f32;
  position_of : f32 * f32 → position;
  size_of : f32 * f32 → size;
  window_scale_factor : history → tao_id → scale;
  window_inner_size : history → tao_id → size;
  window_answer : history → tao_id → WindowGetter → value;
  webview_bounds : history → WebviewId → option (position * size);
  webview_answer : history → WebviewId → WebviewGetter → value;
  cursor_position : history → value;
  build_window : history → option tao_id;
  build_webview : history → string → bool;
  reparent_webview : history → WebviewId → tao_id → bool;
  (** [TAURI_WEBVIEW_AUTOMATION] is set *)
  automation_enabled : bool;
  (** the feature [unstable] of the build: several webviews in a window *)
  unstable : bool;
  (** the iteration order of the hash maps of handlers *)
  handler_order {H} : gmap N H → list (N * H);
}.

Module Runtime.

(** ** State *)
Section State.
Context {RTy : RuntimeTypes}.

Inductive Error :=
| CreateWebviewError | CreateWindowError | FailedToSendMessage | FailedToReceiveMessage
| InvalidProxyUrl | WindowNotFound.

Record WebviewBounds := mk_bounds {
  x_rate : f32;
  y_rate : f32;
  width_rate : f32;
  height_rate : f32;
}.

Inductive WebviewKind := WindowContent | WindowChild.

(** A webview. [kind], [window_id_cell] and [drag_drop_handler_enabled] are what
    the closures given to [wry] capture: the window id they use is in a shared
    cell. *)
Record WebviewWrapper := mk_webview {
  wv_label : string;
  wv_id : WebviewId;
  webview_event_listeners : gmap N webview_handler;
  context_key : option string;
  bounds : option WebviewBounds;
  kind : WebviewKind;
  window_id_cell : N;
  drag_drop_handler_enabled : bool;
}.

Record WindowWrapper := mk_window {
  label : string;
  inner : option tao_id;
  has_children : bool;
  webviews : list WebviewWrapper;
  window_event_listeners : gmap N window_handler;
}.

Record WebContext := mk_context {
  referenced_by_webviews : gset string;
  registered_custom_protocols : gset string;
}.

(** The parts of a proxy url, and the configurations of [wry]. *)
Record ProxyUrl := mk_proxy_url {
  url_scheme : string;
  url_host : option string;
  url_port : option string;
}.
Inductive ProxyConfig := Http (host port : string) | Socks5 (host port : string).

Record PendingWebview := mk_pending_webview {
  pw_label : string;
  data_directory : option string;
  proxy_url : option ProxyUrl;
  uri_scheme_protocols : list string;
  pw_bounds : option (position * size);
  auto_resize : bool;
  pw_drag_drop : bool;
  pw_attributes : attributes;
}.

(** The dispatcher of a webview: the cell of its window id, and its id. *)
Record WebviewDispatcher := mk_dispatcher {
  d_cell : N;
  d_webview : WebviewId;
}.

(** What code of the application does with the handles of the runtime. *)
Inductive Cmd :=
| RunOnMainThread (body : list Cmd)
| CreateWindow_ (label : string) (after_window_creation : list Cmd) (webview : option PendingWebview)
| CreateWebview_ (window_id : WindowId) (pending : PendingWebview)
| CreateTaoWindow (label : string)
| OnWindowEvent (window_id : WindowId) (f : window_handler)
| OnWebviewEvent (d : WebviewDispatcher) (f : webview_handler)
| GetWindow (window_id : WindowId) (g : WindowGetter)
| GetWebview (d : WebviewDispatcher) (g : WebviewGetter)
| SetWindow (window_id : WindowId) (s : WindowSetter)
| SetWebview (d : WebviewDispatcher) (s : WebviewSetter)
| CloseWindow (window_id : WindowId)
| DestroyWindow (window_id : WindowId)
| CloseWebview (d : WebviewDispatcher)
| Reparent_ (d : WebviewDispatcher) (window_id : WindowId)
| WithWebview_ (d : WebviewDispatcher) (body : list Cmd)
| RequestExit_ (code : Z)
| SendEvent (u : user_event)
| CursorPosition_.

Inductive WindowMessage :=
| AddEventListener (id : N) (listener : window_handler)
| Get (g : WindowGetter) (tx : Sender)
| Set_ (s : WindowSetter)
| Close
| Destroy.

Inductive SynthesizedWindowEvent := SFocused (focused : bool) | SDragDrop (event : DragDropEvent).

Inductive WebviewEvent := WvDragDrop (event : DragDropEvent).

Inductive WebviewMessage :=
| WvAddEventListener (id : N) (listener : webview_handler)
| WvGet (g : WebviewGetter) (tx : Sender)
| WvSet (s : WebviewSetter)
| WvEvent (event : WebviewEvent)
| SynthesizedEvent (event : SynthesizedWindowEvent)
| WvClose
| Reparent (window_id : WindowId) (tx : Sender)
| WithWebview (body : list Cmd).

Inductive Message :=
| Task (body : list Cmd)
| RequestExit (code : Z)
| Window (id : WindowId) (m : WindowMessage)
| Webview (window_id : WindowId) (webview_id : WebviewId) (m : WebviewMessage)
| CursorPosition (tx : Sender)
| CreateWebview (window_id : WindowId) (cell : N) (webview_id : WebviewId) (pending : PendingWebview)
| CreateWindow (window_id : WindowId) (webview_id : WebviewId) (label : string)
    (after_window_creation : list Cmd) (webview : option PendingWebview)
| CreateRawWindow (window_id : WindowId) (label : string) (sender : Sender)
| UserEvent (u : user_event).

(** What is sent over a channel. *)
Inductive Reply := RValue (v : value) | ROk | RErr (e : Error).

(** The context of the runtime. [proxy] holds the messages sent to the loop,
    [cells] the shared window ids of the dispatchers, [replies] what was sent
    over the channels, [native] the calls into [tao] and [wry]. *)
Record Context := mk_rt {
  windows : gmap WindowId WindowWrapper;
  window_id_map : gmap tao_id WindowId;
  web_context : gmap (option string) WebContext;
  next_window_id : N;
  next_webview_id : N;
  next_window_event_id : N;
  next_webview_event_id : N;
  proxy : list Message;
  cells : list WindowId;
  replies : gmap Sender Reply;
  next_tx : Sender;
  native : list NativeCall;
}.

Definition init : Context := mk_rt ∅ ∅ ∅ 0 0 0 0 [] [] ∅ 0 [].

Definition set_windows (f : gmap WindowId WindowWrapper → gmap WindowId WindowWrapper) (c : Context) : Context :=
  mk_rt (f (windows c)) (window_id_map c) (web_context c) (next_window_id c) (next_webview_id c)
    (next_window_event_id c) (next_webview_event_id c) (proxy c) (cells c) (replies c) (next_tx c) (native c).
Definition set_id_map (f : gmap tao_id WindowId → gmap tao_id WindowId) (c : Context) : Context :=
  mk_rt (windows c) (f (window_id_map c)) (web_context c) (next_window_id c) (next_webview_id c)
    (next_window_event_id c) (next_webview_event_id c) (proxy c) (cells c) (replies c) (next_tx c) (native c).
Definition set_web_context (m : gmap (option string) WebContext) (c : Context) : Context :=
  mk_rt (windows c) (window_id_map c) m (next_window_id c) (next_webview_id c)
    (next_window_event_id c) (next_webview_event_id c) (proxy c) (cells c) (replies c) (next_tx c) (native c).
Definition set_ids (w v we ve : N) (c : Context) : Context :=
  mk_rt (windows c) (window_id_map c) (web_context c) w v we ve (proxy c) (cells c) (replies c)
    (next_tx c) (native c).
Definition set_proxy (q : list Message) (c : Context) : Context :=
  mk_rt (windows c) (window_id_map c) (web_context c) (next_window_id c) (next_webview_id c)
    (next_window_event_id c) (next_webview_event_id c) q (cells c) (replies c) (next_tx c) (native c).
Definition set_cells (l : list WindowId) (c : Context) : Context :=
  mk_rt (windows c) (window_id_map c) (web_context c) (next_window_id c) (next_webview_id c)
    (next_window_event_id c) (next_webview_event_id c) (proxy c) l (replies c) (next_tx c) (native c).
Definition set_replies (r : gmap Sender Reply) (n : Sender) (c : Context) : Context :=
  mk_rt (windows c) (window_id_map c) (web_context c) (next_window_id c) (next_webview_id c)
    (next_window_event_id c) (next_webview_event_id c) (proxy c) (cells c) r n (native c).
Definition call (n : NativeCall) (c : Context) : Context :=
  mk_rt (windows c) (window_id_map c) (web_context c) (next_window_id c) (next_webview_id c)
    (next_window_event_id c) (next_webview_event_id c) (proxy c) (cells c) (replies c) (next_tx c)
    (native c ++ [n]).

(** The counters are [AtomicU32]. *)
Definition next (n : N) : N := Z.to_N (wrapping_u32 (Z.of_N n + 1)).

Definition take_window_id (c : Context) : WindowId * Context :=
  (next_window_id c, set_ids (next (next_window_id c)) (next_webview_id c) (next_window_event_id c)
                       (next_webview_event_id c) c).
Definition take_webview_id (c : Context) : WebviewId * Context :=
  (next_webview_id c, set_ids (next_window_id c) (next (next_webview_id c)) (next_window_event_id c)
                        (next_webview_event_id c) c).
Definition take_window_event_id (c : Context) : N * Context :=
  (next_window_event_id c, set_ids (next_window_id c) (next_webview_id c) (next (next_window_event_id c))
                             (next_webview_event_id c) c).
Definition take_webview_event_id (c : Context) : N * Context :=
  (next_webview_event_id c, set_ids (next_window_id c) (next_webview_id c) (next_window_event_id c)
                              (next (next_webview_event_id c)) c).

(** [channel()]: a new channel is empty; and [tx.send(..)]. *)
Definition channel (c : Context) : Sender * Context :=
  (next_tx c, set_replies (delete (next_tx c) (replies c)) (next_tx c + 1)%N c).
Definition send (tx : Sender) (r : Reply) (c : Context) : Context :=
  set_replies (<[tx := r]> (replies c)) (next_tx c) c.

(** [proxy.send_event(message)]. *)
Definition send_event (m : Message) (c : Context) : Context := set_proxy (proxy c ++ [m]) c.

(** [Arc::new(Mutex::new(window_id))]. *)
Definition new_cell (id : WindowId) (c : Context) : N * Context :=
  (N.of_nat (length (cells c)), set_cells (cells c ++ [id]) c).
Definition cell (i : N) (c : Context) : WindowId := default 0%N (cells c !! N.to_nat i).

End State.

(** What a call returns to code on the main thread: a result and the context,
    or a panic. *)
Abbreviation Res A := (outcome Empty_set (outcome Error A * Context)).

(** ** Webviews and windows *)
Section Handlers.
Context {RTy : RuntimeTypes} {NA : Native}.

Definition parse_proxy_url (url : ProxyUrl) : outcome Error ProxyConfig :=
  let host := default "" (url_host url) in
  let port := default "" (url_port url) in
  if decide (url_scheme url = "http") then Ok (Http host port)
  else if decide (url_scheme url = "socks5") then Ok (Socks5 host port)
  else Err InvalidProxyUrl.

(** [Drop] of the last reference to a webview: the context first, then its
    fields. *)
Definition drop_webview (w : WebviewWrapper) (c : Context) : Context :=
  let c := match web_context c !! context_key w with
           | Some wc =>
               let refs := referenced_by_webviews wc ∖ {[wv_label w]} in
               if decide (refs = ∅)
               then call (DropContext (context_key w))
                      (set_web_context (delete (context_key w) (web_context c)) c)
               else set_web_context (<[context_key w := mk_context refs (registered_custom_protocols wc)]>
                                       (web_context c)) c
           | None => c
           end in
  call (DropWebview (wv_id w)) c.

(** Dropping a window with its webviews. *)
Definition drop_window (w : WindowWrapper) (c : Context) : Context :=
  let c := match inner w with Some t => call (DropWindow t) c | None => c end in
  foldl (λ c v, drop_webview v c) c (webviews w).

(** The entry of the web context of a new webview. *)
Definition enter_context (pending : PendingWebview) (c : Context) : Context :=
  let key := data_directory pending in
  let wc := match web_context c !! key with
            | Some wc => mk_context ({[pw_label pending]} ∪ referenced_by_webviews wc)
                           (registered_custom_protocols wc)
            | None => mk_context {[pw_label pending]} ∅
            end in
  set_web_context (<[key := wc]> (web_context c)) c.

(** The schemes to register: those the context does not have. *)
Fixpoint register_protocols (schemes : list string) (registered : gset string) : list string * gset string :=
  match schemes with
  | [] => ([], registered)
  | scheme :: schemes =>
      if decide (scheme ∈ registered) then register_protocols schemes registered
      else let '(new, registered) := register_protocols schemes ({[scheme]} ∪ registered) in
           (scheme :: new, registered)
  end.

Definition rates (t : tao_id) (p : position) (s : size) (c : Context) : WebviewBounds :=
  let scale_factor := window_scale_factor (native c) t in
  let '(x, y) := logical_position scale_factor p in
  let '(w, h) := logical_size scale_factor s in
  let '(ww, wh) := logical_size scale_factor (window_inner_size (native c) t) in
  mk_bounds (f32_div x ww) (f32_div y wh) (f32_div w ww) (f32_div h wh).

Definition create_webview (kind : WebviewKind) (window : tao_id) (window_id : N) (id : WebviewId)
    (pending : PendingWebview) (c : Context) : outcome Error WebviewWrapper * Context :=
  let key := data_directory pending in
  let c := enter_context pending c in
  let webview_bounds := match pw_bounds pending with
                        | Some (p, s) => if auto_resize pending then Some (rates window p s c) else None
                        | None =>
                            if unstable then Some (mk_bounds f32_zero f32_zero f32_one f32_one) else None
                        end in
  match proxy_url pending ≫= (λ url, match parse_proxy_url url with Err e => Some e | _ => None end) with
  | Some e => (Err e, c)
  | None =>
      let wc := default (mk_context ∅ ∅) (web_context c !! key) in
      let '(schemes, registered) :=
        register_protocols (uri_scheme_protocols pending) (registered_custom_protocols wc) in
      let c := set_web_context (<[key := mk_context (referenced_by_webviews wc) registered]> (web_context c)) c in
      if build_webview (native c) (pw_label pending) then
        (Ok (mk_webview (pw_label pending) id ∅ (if automation_enabled then None else key) webview_bounds
               kind window_id (pw_drag_drop pending)),
         call (BuildWebview id (pw_label pending) schemes (pw_attributes pending)) c)
      else (Err CreateWebviewError, c)
  end.

(** [run] is the [after_window_creation] handler. *)
Definition create_window (run : Context → outcome Empty_set Context) (window_id : WindowId)
    (webview_id : WebviewId) (label : string) (webview : option PendingWebview) (c : Context)
    : Res WindowWrapper :=
  window ← expect (build_window (native c)) "called `Result::unwrap()` on an `Err` value";
  let c := call (BuildWindow window label) c in
  let c := set_id_map (<[window := window_id]>) c in
  c ← run c;
  match webview with
  | Some pending =>
      let '(cell, c) := new_cell window_id c in
      match create_webview (if unstable then WindowChild else WindowContent) window cell webview_id pending c with
      | (Ok w, c) => Ok (Ok (mk_window label (Some window) false [w] ∅), c)
      | (Err e, c) => Ok (Err e, call (DropWindow window) c)
      | (_, c) => Ok (Err CreateWebviewError, c)
      end
  | None => Ok (Ok (mk_window label (Some window) false [] ∅), c)
  end.

(** [windows.insert(id, window)]: a window that was there is dropped. *)
Definition insert_window (id : WindowId) (window : WindowWrapper) (c : Context) : Context :=
  let old := windows c !! id in
  let c := set_windows (<[id := window]>) c in
  match old with Some w => drop_window w c | None => c end.

(** The parts of the context that belong to one window or webview. *)
Definition set_webviews (ws : list WebviewWrapper) (w : WindowWrapper) : WindowWrapper :=
  mk_window (label w) (inner w) (has_children w) ws (window_event_listeners w).
Definition add_webview (v : WebviewWrapper) (w : WindowWrapper) : WindowWrapper :=
  mk_window (label w) (inner w) true (webviews w ++ [v]) (window_event_listeners w).
Definition add_window_listener (id : N) (h : window_handler) (w : WindowWrapper) : WindowWrapper :=
  mk_window (label w) (inner w) (has_children w) (webviews w) (<[id := h]> (window_event_listeners w)).
Definition add_webview_listener (id : N) (h : webview_handler) (v : WebviewWrapper) : WebviewWrapper :=
  mk_webview (wv_label v) (wv_id v) (<[id := h]> (webview_event_listeners v)) (context_key v) (bounds v)
    (kind v) (window_id_cell v) (drag_drop_handler_enabled v).
Definition set_bounds (b : option WebviewBounds) (v : WebviewWrapper) : WebviewWrapper :=
  mk_webview (wv_label v) (wv_id v) (webview_event_listeners v) (context_key v) b (kind v)
    (window_id_cell v) (drag_drop_handler_enabled v).

(** [webviews.iter().find(|w| w.id == id)], and its position removed. *)
Fixpoint find_webview (id : WebviewId) (l : list WebviewWrapper) : option WebviewWrapper :=
  match l with
  | [] => None
  | v :: l => if decide (wv_id v = id) then Some v else find_webview id l
  end.
Fixpoint remove_webview (id : WebviewId) (l : list WebviewWrapper) : list WebviewWrapper :=
  match l with
  | [] => []
  | v :: l => if decide (wv_id v = id) then l else v :: remove_webview id l
  end.
Fixpoint update_webview (id : WebviewId) (f : WebviewWrapper → WebviewWrapper) (l : list WebviewWrapper)
    : list WebviewWrapper :=
  match l with
  | [] => []
  | v :: l => if decide (wv_id v = id) then f v :: l else v :: update_webview id f l
  end.

Definition on_webview (w : WindowId) (v : WebviewId) (f : WebviewWrapper → WebviewWrapper) : Context → Context :=
  set_windows (alter (λ win, set_webviews (update_webview v f (webviews win)) win) w).

(** ** Messages to a window *)
Definition handle_window (id : WindowId) (m : WindowMessage) (c : Context) : outcome Empty_set Context :=
  match windows c !! id ≫= inner with
  | Some window =>
      match m with
      | AddEventListener eid listener => Ok (set_windows (alter (add_window_listener eid listener) id) c)
      | Get g tx => Ok (send tx (RValue (window_answer (native c) window g)) c)
      | Set_ s =>
          Ok (match window_setter s with Some t => call (WindowCall window t) c | None => c end)
      | Close => Panic "cannot handle `WindowMessage::Close` on the main thread"
      | Destroy => Panic "cannot handle `WindowMessage::Destroy` on the main thread"
      end
  | None => Ok c
  end.

(** ** Messages to a webview *)
Definition webview_setter (window : tao_id) (w : WindowId) (webview : WebviewWrapper) (s : WebviewSetter)
    (c : Context) : Context :=
  let v := wv_id webview in
  let store f c := match bounds webview with
                   | Some b => on_webview w v (set_bounds (Some (f b))) c
                   | None => c
                   end in
  match s with
  | EvaluateScript script => call (WebviewCall v (wry_evaluate_script script)) c
  | Navigate url => call (WebviewCall v (wry_load_url url)) c
  | WvShow => call (WebviewCall v (wry_set_visible true)) c
  | WvHide => call (WebviewCall v (wry_set_visible false)) c
  | Print => call (WebviewCall v wry_print) c
  | SetBounds p s => call (WebviewCall v (wry_set_bounds p s)) (store (λ _, rates window p s c) c)
  | WvSetSize s =>
      match webview_bounds (native c) v with
      | Some (p, _) =>
          let r := rates window p s c in
          call (WebviewCall v (wry_set_bounds p s))
            (store (λ b, mk_bounds (x_rate b) (y_rate b) (width_rate r) (height_rate r)) c)
      | None => c
      end
  | WvSetPosition p =>
      match webview_bounds (native c) v with
      | Some (_, s) =>
          let r := rates window p s c in
          call (WebviewCall v (wry_set_bounds p s))
            (store (λ b, mk_bounds (x_rate r) (y_rate r) (width_rate b) (height_rate b)) c)
      | None => c
      end
  | SetZoom factor => call (WebviewCall v (wry_zoom factor)) c
  | WvSetBackgroundColor color => call (WebviewCall v (wry_set_background_color color)) c
  | ClearAllBrowsingData => call (WebviewCall v wry_clear_all_browsing_data) c
  | WvSetFocus => call (WebviewCall v wry_focus) c
  | SetAutoResize auto_resize =>
      match webview_bounds (native c) v with
      | Some (p, s) =>
          on_webview w v (set_bounds (if auto_resize : bool then Some (rates window p s c) else None)) c
      | None => c
      end
  | OpenDevTools => call (WebviewCall v wry_open_devtools) c
  | CloseDevTools => call (WebviewCall v wry_close_devtools) c
  end.

(** The webview leaves its window before the new window is looked up. *)
Definition handle_reparent (w : WindowId) (v : WebviewId) (new_parent : WindowId) (tx : Sender) (c : Context)
    : Context :=
  match windows c !! w ≫= (λ win, find_webview v (webviews win)) with
  | Some webview =>
      let c := set_windows (alter (λ win, set_webviews (remove_webview v (webviews win)) win) w) c in
      match windows c !! new_parent ≫= inner with
      | Some window =>
          if reparent_webview (native c) v window then
            let c := call (ReparentWebview v window) c in
            send tx ROk (set_windows (alter (λ win, set_webviews (webviews win ++ [webview]) win) new_parent) c)
          else drop_webview webview (send tx (RErr FailedToSendMessage) c)
      | None => drop_webview webview c
      end
  | None => send tx (RErr FailedToSendMessage) c
  end.

(** [run] is the closure of the message. *)
Definition handle_webview (run : Context → outcome Empty_set Context) (w : WindowId) (v : WebviewId)
    (m : WebviewMessage) (c : Context) : outcome Empty_set Context :=
  match m with
  | Reparent new_parent tx => Ok (handle_reparent w v new_parent tx c)
  | _ =>
      match windows c !! w with
      | Some win =>
          match inner win, find_webview v (webviews win) with
          | Some window, Some webview =>
              match m with
              | WvEvent _ | SynthesizedEvent _ | Reparent _ _ => Ok c
              | WvAddEventListener id listener => Ok (on_webview w v (add_webview_listener id listener) c)
              | WvSet s => Ok (webview_setter window w webview s c)
              | WvGet g tx => Ok (send tx (RValue (webview_answer (native c) v g)) c)
              | WvClose =>
                  Ok (drop_webview webview
                        (set_windows (alter (λ win, set_webviews (remove_webview v (webviews win)) win) w) c))
              | WithWebview _ => run c
              end
          | _, _ => Ok c
          end
      | None => Ok c
      end
  end.

(** ** All messages, on the main thread *)
Definition handle_with (run : Context → outcome Empty_set Context) (m : Message) (c : Context)
    : outcome Empty_set Context :=
  match m with
  | Task _ => run c
  | RequestExit _ => Panic "cannot handle RequestExit on the main thread"
  | Window id m => handle_window id m c
  | Webview w v m => handle_webview run w v m c
  | CreateWebview w cell v pending =>
      match windows c !! w ≫= inner with
      | Some window =>
          match create_webview WindowChild window cell v pending c with
          | (Ok webview, c) => Ok (set_windows (alter (add_webview webview) w) c)
          | (_, c) => Ok c
          end
      | None => Ok c
      end
  | CreateWindow w v label _ webview =>
      '(r, c) ← create_window run w v label webview c;
      match r with
      | Ok window => Ok (insert_window w window c)
      | _ => Ok c
      end
  | CreateRawWindow w label sender =>
      match build_window (native c) with
      | Some window =>
          let c := call (BuildWindow window label) c in
          let c := set_id_map (<[window := w]>) c in
          let c := insert_window w (mk_window label (Some window) false [] ∅) c in
          Ok (send sender ROk c)
      | None => Ok (send sender (RErr CreateWindowError) c)
      end
  | UserEvent _ => Ok c
  | CursorPosition sender => Ok (send sender (RValue (cursor_position (native c))) c)
  end.

(** ** Dispatchers *)

(** The message of a call, after taking the ids and channels it needs. *)
Definition message (cmd : Cmd) (c : Context) : Message * Context :=
  match cmd with
  | RunOnMainThread body => (Task body, c)
  | CreateWindow_ label after webview =>
      let '(w, c) := take_window_id c in
      let '(v, c) := match webview with
                     | Some _ => let '(v, c) := take_webview_id c in (Some v, c)
                     | None => (None, c)
                     end in
      (CreateWindow w (default 0%N v) label after webview, c)
  | CreateWebview_ w pending =>
      let '(v, c) := take_webview_id c in
      let '(i, c) := new_cell w c in
      (CreateWebview w i v pending, c)
  | CreateTaoWindow label =>
      let '(w, c) := take_window_id c in
      let '(tx, c) := channel c in
      (CreateRawWindow w label tx, c)
  | OnWindowEvent w f => let '(id, c) := take_window_event_id c in (Window w (AddEventListener id f), c)
  | OnWebviewEvent d f =>
      let '(id, c) := take_webview_event_id c in
      (Webview (cell (d_cell d) c) (d_webview d) (WvAddEventListener id f), c)
  | GetWindow w g => let '(tx, c) := channel c in (Window w (Get g tx), c)
  | GetWebview d g =>
      let '(tx, c) := channel c in (Webview (cell (d_cell d) c) (d_webview d) (WvGet g tx), c)
  | SetWindow w s => (Window w (Set_ s), c)
  | SetWebview d s => (Webview (cell (d_cell d) c) (d_webview d) (WvSet s), c)
  | CloseWindow w => (Window w Close, c)
  | DestroyWindow w => (Window w Destroy, c)
  | CloseWebview d => (Webview (cell (d_cell d) c) (d_webview d) WvClose, c)
  | Reparent_ d w =>
      let '(tx, c) := channel c in (Webview (cell (d_cell d) c) (d_webview d) (Reparent w tx), c)
  | WithWebview_ d body => (Webview (cell (d_cell d) c) (d_webview d) (WithWebview body), c)
  | RequestExit_ code => (RequestExit code, c)
  | SendEvent u => (UserEvent u, c)
  | CursorPosition_ => let '(tx, c) := channel c in (CursorPosition tx, c)
  end.

(** The calls that go through the loop on every thread. *)
Definition posted (cmd : Cmd) : bool :=
  match cmd with
  | OnWindowEvent _ _ | OnWebviewEvent _ _ | CloseWindow _ | DestroyWindow _ | RequestExit_ _ | SendEvent _ => true
  | _ => false
  end.

(** What a call does once its message was handled; [w] and [tx] are the window
    id and the channel that it took. *)
Definition finish (cmd : Cmd) (w : WindowId) (tx : Sender) (c : Context) : outcome Empty_set Context :=
  match cmd with
  | CreateWindow_ _ _ (Some _) => Ok (new_cell w c).2
  | CreateTaoWindow _ =>
      _ ← expect (replies c !! tx) "called `Result::unwrap()` on an `Err` value: RecvError"; Ok c
  | Reparent_ d new_parent =>
      r ← expect (replies c !! tx) "called `Result::unwrap()` on an `Err` value: RecvError";
      match r with
      | ROk => Ok (set_cells (<[N.to_nat (d_cell d) := new_parent]> (cells c)) c)
      | _ => Ok c
      end
  | _ => Ok c
  end.

Section Run.
Context (run_cmd : Cmd → Context → outcome Empty_set Context).

Fixpoint run_all (l : list Cmd) (c : Context) : outcome Empty_set Context :=
  match l with
  | [] => Ok c
  | cmd :: l => c ← run_cmd cmd c; run_all l c
  end.

End Run.

(** A call on the main thread: [send_user_message] handles the message at once. *)
Fixpoint run_cmd (cmd : Cmd) (c : Context) {struct cmd} : outcome Empty_set Context :=
  let '(m, c1) := message cmd c in
  if posted cmd then Ok (send_event m c1)
  else
    c2 ← handle_with
           (match cmd with
            | RunOnMainThread body => run_all run_cmd body
            | CreateWindow_ _ after _ => run_all run_cmd after
            | WithWebview_ _ body => run_all run_cmd body
            | _ => Ok
            end) m c1;
    finish cmd (next_window_id c) (next_tx c) c2.

Definition run_cmds : list Cmd → Context → outcome Empty_set Context := run_all run_cmd.

(** The closure a message carries. *)
Definition body_of (m : Message) : list Cmd :=
  match m with
  | Task body => body
  | CreateWindow _ _ _ after _ => after
  | Webview _ _ (WithWebview body) => body
  | _ => []
  end.

Definition handle_user_message (m : Message) (c : Context) : outcome Empty_set Context :=
  handle_with (run_cmds (body_of m)) m c.

(** A call on another thread: its message is sent to the loop. *)
Definition post_cmd (cmd : Cmd) (c : Context) : Context :=
  let '(m, c) := message cmd c in send_event m c.

(** What the caller of a getter receives. *)
Definition recv (tx : Sender) (c : Context) : outcome Error value :=
  match replies c !! tx with
  | Some (RValue v) => Ok v
  | Some (RErr e) => Err e
  | _ => Err FailedToReceiveMessage
  end.

Definition window_getter (w : WindowId) (g : WindowGetter) (c : Context) : Res value :=
  c' ← run_cmd (GetWindow w g) c; Ok (recv (next_tx c) c', c').

Definition webview_getter (d : WebviewDispatcher) (g : WebviewGetter) (c : Context) : Res value :=
  c' ← run_cmd (GetWebview d g) c; Ok (recv (next_tx c) c', c').

(** The closures of a webview: a message of the page, and a drag and drop event,
    which goes to the window when the webview is its content. *)
Definition ipc_dispatcher (v : WebviewWrapper) : WebviewDispatcher := mk_dispatcher (window_id_cell v) (wv_id v).

Definition on_drag_drop (v : WebviewWrapper) (event : DragDropEvent) (c : Context) : Context :=
  if drag_drop_handler_enabled v then
    send_event (Webview (cell (window_id_cell v) c) (wv_id v)
                  (match kind v with
                   | WindowContent => SynthesizedEvent (SDragDrop event)
                   | WindowChild => WvEvent (WvDragDrop event)
                   end)) c
  else c.

End Handlers.

(** ** Web contexts follow the webviews *)

(** The webviews of all windows. *)
Definition live {RTy : RuntimeTypes} (ws : gmap WindowId WindowWrapper) : list WebviewWrapper :=
  (map_to_list ws).*2 ≫= webviews.

(** The stored contexts are those of the webviews [l], whose labels differ. *)
Record contexts_of {RTy : RuntimeTypes} (wcs : gmap (option string) WebContext) (l : list WebviewWrapper) : Prop := {
  ctx_used key wc : wcs !! key = Some wc → referenced_by_webviews wc ≠ ∅;
  ctx_refs key lb :
    (∃ wc, wcs !! key = Some wc ∧ lb ∈ referenced_by_webviews wc) ↔
    ∃ v, v ∈ l ∧ context_key v = key ∧ wv_label v = lb;
  ctx_labels : NoDup (wv_label <$> l);
}.

Definition contexts_ok {RTy : RuntimeTypes} (c : Context) : Prop := contexts_of (web_context c) (live (windows c)).

Section Contexts.
Context {RTy : RuntimeTypes} {NA : Native}.

#[global] Instance contexts_of_proper wcs : Proper ((≡ₚ) ==> iff) (contexts_of wcs).
Proof.
  assert (∀ l k, l ≡ₚ k → contexts_of wcs l → contexts_of wcs k) as H.
  { intros l k Hp [Hu Hr Hn]. constructor; [done| |by rewrite <- Hp].
    intros key lb. rewrite Hr. by setoid_rewrite Hp. }
  intros l k Hp. split; apply H; [done|by symmetry].
Qed.

(** Taking a window out of the store. *)
Lemma live_lookup (ws : gmap WindowId WindowWrapper) w win :
  ws !! w = Some win → live ws ≡ₚ webviews win ++ live (delete w ws).
Proof. intros H. unfold live. rewrite <- (map_to_list_delete ws w win H). done. Qed.

Lemma live_insert (ws : gmap WindowId WindowWrapper) w win :
  live (<[w := win]> ws) ≡ₚ webviews win ++ live (delete w ws).
Proof.
  unfold live. rewrite <- insert_delete_eq, map_to_list_insert by apply lookup_delete_eq. done.
Qed.

Lemma live_alter (ws : gmap WindowId WindowWrapper) w win f :
  ws !! w = Some win → live (alter f w ws) ≡ₚ webviews (f win) ++ live (delete w ws).
Proof.
  intros H. rewrite <- (live_insert ws w (f win)). f_equiv. apply map_eq. intros i.
  destruct (decide (w = i)) as [<-|Hne]; [by rewrite lookup_alter_eq, lookup_insert_eq, H|].
  by rewrite lookup_alter_ne, lookup_insert_ne.
Qed.

Lemma find_remove v l webview :
  find_webview v l = Some webview → l ≡ₚ webview :: remove_webview v l ∧ wv_id webview = v.
Proof.
  induction l as [|x l IH]; simpl; [done|]. case_decide as Hd; [intros [= <-]; done|].
  intros [Hp Hv]%IH. split; [|done]. rewrite Hp at 1. apply perm_swap.
Qed.

(** Dropping a webview drops its reference, and a context without references. *)
Lemma contexts_drop c v l :
  contexts_of (web_context c) (v :: l) → contexts_of (web_context (drop_webview v c)) l.
Proof.
  intros [Hu Hr Hn]. apply NoDup_cons in Hn as [Hv Hn].
  destruct (proj2 (Hr (context_key v) (wv_label v))) as (wc & Hwc & Hlb); [exists v; split_and!; [left|done..]|].
  unfold drop_webview. rewrite Hwc. simpl. set (refs := referenced_by_webviews wc ∖ _).
  assert (∀ lb, lb ∈ refs ↔ ∃ x, x ∈ l ∧ context_key x = context_key v ∧ wv_label x = lb) as Hrefs.
  { intros lb. unfold refs. rewrite elem_of_difference, elem_of_singleton. split.
    - intros [Hin Hne]. destruct (proj1 (Hr (context_key v) lb)) as (x & Hx & Hk & Hl); [eauto|].
      apply elem_of_cons in Hx as [->|Hx]; [done|]. eauto.
    - intros (x & Hx & Hk & <-). destruct (proj2 (Hr (context_key v) (wv_label x))) as (wc' & Hwc' & Hin).
      { exists x. split_and!; [by right|done..]. }
      rewrite Hwc in Hwc'. simplify_eq. split; [done|]. intros Heq. apply Hv. rewrite <- Heq.
      by apply list_elem_of_fmap_2. }
  assert (∀ key lb, key ≠ context_key v →
    (∃ wc, web_context c !! key = Some wc ∧ lb ∈ referenced_by_webviews wc) ↔
    ∃ x, x ∈ l ∧ context_key x = key ∧ wv_label x = lb) as Hother.
  { intros key lb Hne. rewrite Hr. setoid_rewrite elem_of_cons. naive_solver. }
  case_decide as He; simpl; constructor; try done.
  - intros key wc' [_ H]%lookup_delete_Some. eauto.
  - intros key lb. destruct (decide (key = context_key v)) as [->|Hne].
    + rewrite <- Hrefs, He. rewrite lookup_delete_eq. set_solver.
    + rewrite lookup_delete_ne by done. by apply Hother.
  - intros key wc'. rewrite lookup_insert_Some. intros [[<- <-]|[_ H]]; [done|eauto].
  - intros key lb. destruct (decide (key = context_key v)) as [->|Hne].
    + rewrite <- Hrefs, lookup_insert_eq. naive_solver.
    + rewrite lookup_insert_ne by done. by apply Hother.
Qed.

Lemma contexts_drop_all c vs l :
  contexts_of (web_context c) (vs ++ l) →
  contexts_of (web_context (foldl (λ c v, drop_webview v c) c vs)) l.
Proof. revert c. induction vs as [|v vs IH]; intros c H; simpl; [done|]. by apply IH, contexts_drop. Qed.

Lemma drop_webview_windows v c : windows (drop_webview v c) = windows c.
Proof. unfold drop_webview. destruct (web_context c !! context_key v); [case_decide|]; done. Qed.

Lemma drop_webview_replies v c : replies (drop_webview v c) = replies c.
Proof. unfold drop_webview. destruct (web_context c !! context_key v); [case_decide|]; done. Qed.

Lemma drop_all_windows vs c : windows (foldl (λ c v, drop_webview v c) c vs) = windows c.
Proof. revert c. induction vs as [|v vs IH]; intros c; simpl; [done|]. by rewrite IH, drop_webview_windows. Qed.

(** Only the labels and the keys of the webviews count. *)
Definition tag (v : WebviewWrapper) : string * option string := (wv_label v, context_key v).

Lemma contexts_tag wcs l k : tag <$> l = tag <$> k → contexts_of wcs l → contexts_of wcs k.
Proof.
  intros Ht [Hu Hr Hn].
  assert (∀ key lb, (∃ v, v ∈ l ∧ context_key v = key ∧ wv_label v = lb) ↔ (lb, key) ∈ tag <$> l) as Hl.
  { intros. rewrite list_elem_of_fmap. unfold tag. naive_solver. }
  assert (∀ key lb, (∃ v, v ∈ k ∧ context_key v = key ∧ wv_label v = lb) ↔ (lb, key) ∈ tag <$> k) as Hk.
  { intros. rewrite list_elem_of_fmap. unfold tag. naive_solver. }
  assert (∀ l : list WebviewWrapper, wv_label <$> l = fst <$> (tag <$> l)) as Hf.
  { intros x. by rewrite <- list_fmap_compose. }
  constructor; [done| |by rewrite Hf, <- Ht, <- Hf]. intros. by rewrite Hr, Hl, Hk, Ht.
Qed.

Lemma update_webview_tag v f l :
  (∀ x, tag (f x) = tag x) → tag <$> update_webview v f l = tag <$> l.
Proof.
  intros Hf. induction l as [|x l IH]; simpl; [done|]. case_decide; csimpl; [by rewrite Hf|]. by rewrite IH.
Qed.

(** Changing a window in place. *)
Lemma contexts_alter f w c :
  (∀ win, tag <$> webviews (f win) = tag <$> webviews win) →
  contexts_ok c → contexts_ok (set_windows (alter f w) c).
Proof.
  intros Hf Hc. unfold contexts_ok in *. simpl. destruct (windows c !! w) as [win|] eqn:Hw.
  - rewrite (live_alter _ _ _ _ Hw). rewrite (live_lookup _ _ _ Hw) in Hc.
    eapply contexts_tag, Hc. by rewrite !fmap_app, Hf.
  - assert (alter f w (windows c) = windows c) as ->; [|done]. apply map_eq. intros i.
    destruct (decide (w = i)) as [<-|]; [by rewrite lookup_alter_eq, Hw|by rewrite lookup_alter_ne].
Qed.

(** Changing nothing of the windows and contexts. *)
Lemma contexts_frame c c' :
  windows c' = windows c → web_context c' = web_context c → contexts_ok c → contexts_ok c'.
Proof. unfold contexts_ok. by intros -> ->. Qed.

Lemma create_webview_windows k t i id p c : windows (create_webview k t i id p c).2 = windows c.
Proof.
  unfold create_webview. destruct (proxy_url p ≫= _); [done|].
  destruct (register_protocols _ _) as [schemes registered]. by destruct (build_webview _ _).
Qed.

(** A new webview enters its context. *)
Lemma contexts_create k t i id p c c' v l :
  automation_enabled = false → pw_label p ∉ wv_label <$> l → contexts_of (web_context c) l →
  create_webview k t i id p c = (Ok v, c') → contexts_of (web_context c') (v :: l).
Proof.
  intros Ha Hl [Hu Hr Hn] H. unfold create_webview in H. destruct (proxy_url p ≫= _); [done|].
  destruct (register_protocols _ _) as [schemes registered]. rewrite Ha in H.
  destruct (build_webview _ _); simplify_eq. simpl. rewrite lookup_insert_eq. simpl.
  set (old := from_option referenced_by_webviews ∅ (web_context c !! data_directory p)).
  assert (∀ lb, lb ∈ old ↔ ∃ x, x ∈ l ∧ context_key x = data_directory p ∧ wv_label x = lb) as Hold.
  { intros lb. rewrite <- Hr. unfold old. destruct (web_context c !! _); simpl; [naive_solver|]. set_solver. }
  match goal with |- contexts_of (<[_ := mk_context ?R _]> _) _ =>
    assert (R = {[pw_label p]} ∪ old) as -> by
      (unfold old; destruct (web_context c !! data_directory p); simpl; set_solver) end.
  rewrite insert_insert_eq. constructor.
  - intros key wc. rewrite lookup_insert_Some. intros [[<- <-]|[_ H]]; [|by eauto]. simpl. set_solver.
  - intros key lb. setoid_rewrite elem_of_cons. destruct (decide (key = data_directory p)) as [->|Hne].
    + rewrite lookup_insert_eq. split.
      * intros (wc & [= <-] & Hin). simpl in Hin. rewrite elem_of_union, elem_of_singleton, Hold in Hin.
        destruct Hin as [->|(x & ? & ? & ?)]; [|by eauto]. eexists. split_and!; [by left|done..].
      * intros (x & [->|Hx] & Hk & <-); eexists; (split; [done|]); simpl; [set_solver|].
        rewrite elem_of_union, Hold. eauto.
    + rewrite lookup_insert_ne by done. rewrite Hr. split; [naive_solver|]. intros (x & [->|Hx] & Hk & <-); [done|eauto].
  - simpl. by apply NoDup_cons.
Qed.

(** Storing a window with its webviews. *)
Lemma contexts_insert w win c :
  contexts_of (web_context c) (webviews win ++ live (windows c)) → contexts_ok (insert_window w win c).
Proof.
  intros Hc. unfold contexts_ok, insert_window. destruct (windows c !! w) as [old|] eqn:Hw.
  - unfold drop_window. rewrite drop_all_windows. apply contexts_drop_all.
    rewrite (live_lookup _ _ _ Hw) in Hc.
    destruct (inner old); simpl; rewrite live_insert, Permutation_app_swap_app; exact Hc.
  - simpl. by rewrite live_insert, delete_id.
Qed.

(** A webview leaves its window. *)
Lemma contexts_remove w v win webview c :
  windows c !! w = Some win → find_webview v (webviews win) = Some webview → contexts_ok c →
  contexts_of (web_context c)
    (webview :: live (alter (λ win, set_webviews (remove_webview v (webviews win)) win) w (windows c))).
Proof.
  intros Hw [Hp _]%find_remove Hc. unfold contexts_ok in Hc.
  rewrite (live_alter _ _ _ _ Hw). rewrite (live_lookup _ _ _ Hw), Hp in Hc. exact Hc.
Qed.

Lemma contexts_reparent w v new tx c : contexts_ok c → contexts_ok (handle_reparent w v new tx c).
Proof.
  intros Hc. unfold handle_reparent. destruct (windows c !! w) as [win|] eqn:Hw; simpl; [|done].
  destruct (find_webview v (webviews win)) as [webview|] eqn:Hf; [|done].
  pose proof (contexts_remove w v win webview c Hw Hf Hc) as Hr.
  set (ws := alter _ w (windows c)) in *. unfold set_windows at 1 2. simpl. fold ws.
  destruct (ws !! new) as [parent|] eqn:Hn; simpl; [|by unfold contexts_ok; rewrite drop_webview_windows; apply contexts_drop].
  destruct (inner parent); [|by unfold contexts_ok; rewrite drop_webview_windows; apply contexts_drop].
  case_match; [|by unfold contexts_ok; rewrite drop_webview_windows; apply contexts_drop].
  unfold contexts_ok. simpl. fold ws. rewrite (live_alter _ _ _ _ Hn).
  rewrite (live_lookup _ _ _ Hn) in Hr. simpl. rewrite <- app_assoc. simpl.
  rewrite <- (Permutation_middle (webviews parent)). exact Hr.
Qed.

Lemma webview_setter_contexts t w x st c : contexts_ok c → contexts_ok (webview_setter t w x st c).
Proof.
  intros Hc.
  assert (∀ f, contexts_ok (on_webview w (wv_id x) (set_bounds f) c)) as Hb.
  { intros f. apply contexts_alter; [|done]. intros win. by apply update_webview_tag. }
  destruct st; simpl; try done; repeat case_match; try done; apply Hb.
Qed.

Lemma handle_webview_contexts run w v m c c' :
  (∀ c c', contexts_ok c → run c = Ok c' → contexts_ok c') →
  contexts_ok c → handle_webview run w v m c = Ok c' → contexts_ok c'.
Proof.
  intros Hrun Hc H. unfold handle_webview in H.
  destruct m as [id h|g tx|st|e|e| |new tx|body];
    try (injection H as <-; by apply contexts_reparent);
    (destruct (windows c !! w) as [win|] eqn:Hw; [|by injection H as <-]);
    (destruct (inner win); [|by injection H as <-]);
    (destruct (find_webview v (webviews win)) as [x|] eqn:Hf; [|by injection H as <-]);
    try (by injection H as <-).
  - injection H as <-. apply contexts_alter; [|done]. intros win'. by apply update_webview_tag.
  - injection H as <-. by apply webview_setter_contexts.
  - injection H as <-. unfold contexts_ok. rewrite drop_webview_windows. apply contexts_drop.
    exact (contexts_remove w v win x c Hw Hf Hc).
  - by eapply Hrun.
Qed.

(** The proxy of a new webview is one [wry] knows, and its label is not in use. *)
Definition proxy_ok (p : PendingWebview) : Prop :=
  match proxy_url p with Some u => is_Some (ok (parse_proxy_url u)) | None => True end.

Definition pending_ok (p : PendingWebview) (c : Context) : Prop :=
  (pw_label p ∉ (wv_label <$> live (windows c))) ∧ proxy_ok p.

Definition creates (run : Context → outcome Empty_set Context) (m : Message) (c : Context) : Prop :=
  match m with
  | CreateWebview _ _ _ p => pending_ok p c
  | CreateWindow w _ lb _ (Some p) =>
      ∀ t c', run (set_id_map (<[t := w]>) (call (BuildWindow t lb) c)) = Ok c' → pending_ok p c'
  | _ => True
  end.

Lemma create_webview_ok k t i id p c :
  (∀ h lb, build_webview h lb = true) → proxy_ok p → ∃ v, (create_webview k t i id p c).1 = Ok v.
Proof.
  intros Hbuild Hp. unfold create_webview, proxy_ok in *.
  assert (proxy_url p ≫= (λ url, match parse_proxy_url url with Err e => Some e | _ => None end) = None) as ->.
  { destruct (proxy_url p) as [u|]; simpl; [|done]. by destruct (parse_proxy_url u), Hp. }
  destruct (register_protocols _ _). rewrite Hbuild. simpl. eauto.
Qed.

Context (Hauto : automation_enabled = false) (Hbuild : ∀ h lb, build_webview h lb = true).

Lemma create_window_contexts run w v lb after wv c c' :
  (∀ c c', contexts_ok c → run c = Ok c' → contexts_ok c') → contexts_ok c →
  creates run (CreateWindow w v lb after wv) c →
  handle_with run (CreateWindow w v lb after wv) c = Ok c' → contexts_ok c'.
Proof.
  intros Hrun Hc Hcr H. simpl in H. apply bind_ok in H as ([r c2] & H & Hr). unfold create_window in H.
  destruct (build_window (native c)) as [t|]; [|done]. simpl in H. apply bind_ok in H as (c1 & H1 & H).
  assert (contexts_ok c1) as Hc1.
  { eapply Hrun, H1. eapply contexts_frame, Hc; done. }
  destruct wv as [p|]; simpl in Hcr.
  - pose proof (Hcr t c1 H1) as Hp.
    set (k := if unstable then WindowChild else WindowContent) in *.
    destruct (create_webview_ok k t (N.of_nat (length (cells c1))) v p (set_cells (cells c1 ++ [w]) c1))
      as [x Hx]; [exact Hbuild|by destruct Hp|].
    destruct (create_webview k t _ v p _) as [r' c3] eqn:Hcw. simpl in Hx. subst r'. simplify_eq.
    apply contexts_insert. simpl.
    assert (windows c2 = windows c1) as Hws by (pose proof (create_webview_windows k t (N.of_nat (length (cells c1))) v p (set_cells (cells c1 ++ [w]) c1)) as Hws; by rewrite Hcw in Hws).
    rewrite Hws. eapply contexts_create; [done| | |exact Hcw]; [by destruct Hp|exact Hc1].
  - simplify_eq. apply contexts_insert. done.
Qed.

(** C25. Web contexts follow the webviews: whatever message is handled, the
    contexts in the store are exactly those that the webviews of the windows
    use, each with the labels of these webviews; provided that the tasks of the
    application keep it so, that labels are not used twice, that webviews can be
    created ([failed_webview_keeps_context] shows one that cannot) and that the
    runtime is not automated ([automation_leaks_context]). *)
Theorem contexts_follow_webviews run m c c' :
  (∀ c c', contexts_ok c → run c = Ok c' → contexts_ok c') → creates run m c →
  contexts_ok c → handle_with run m c = Ok c' → contexts_ok c'.
Proof.
  intros Hrun Hcr Hc H.
  destruct m as [body|code|id wm|w v wm|tx|w i v p|w v lb after wv|w lb tx|u]; simpl in H; try by simplify_eq.
  - by eapply Hrun.
  - unfold handle_window in H. destruct (windows c !! id ≫= inner); [|by simplify_eq].
    destruct wm as [eid h|g tx|st| |]; simplify_eq; try done.
    + by apply contexts_alter.
    + by destruct (window_setter st).
  - by eapply handle_webview_contexts.
  - destruct (windows c !! w ≫= inner) as [t|] eqn:Hw; [|by simplify_eq].
    destruct (create_webview_ok WindowChild t i v p c Hbuild) as [x Hx]; [by destruct Hcr|].
    pose proof (create_webview_windows WindowChild t i v p c) as Hws.
    destruct (create_webview WindowChild t i v p c) as [r c1] eqn:Hcw. simpl in Hx, Hws. subst r.
    injection H as <-. apply bind_Some in Hw as (win & Hw & _). unfold contexts_ok. simpl. rewrite Hws.
    rewrite (live_alter _ _ _ _ Hw). simpl. rewrite <- app_assoc. simpl.
    rewrite <- (Permutation_middle (webviews win)), <- (live_lookup _ _ _ Hw).
    eapply contexts_create; [done| |exact Hc|exact Hcw]. by destruct Hcr.
  - by eapply create_window_contexts.
  - destruct (build_window (native c)); simplify_eq; [|done].
    eapply (contexts_frame (insert_window w (mk_window lb (Some t) false [] ∅) _)); [done..|].
    apply contexts_insert. exact Hc.
Qed.

End Contexts.

(** ** Calls that keep the windows *)
Section Tame.
Context {RTy : RuntimeTypes} {NA : Native}.

(** Calls that open no window and do not reparent a webview. *)
Fixpoint tame (cmd : Cmd) : bool :=
  match cmd with
  | CreateWindow_ _ _ _ | CreateTaoWindow _ | Reparent_ _ _ => false
  | RunOnMainThread body | WithWebview_ _ body => forallb tame body
  | _ => true
  end.

(** The same windows, under the same labels, and no window id taken. *)
Definition same_windows (c c' : Context) : Prop :=
  label <$> windows c' = label <$> windows c ∧ window_id_map c' = window_id_map c ∧
  next_window_id c' = next_window_id c.

Lemma same_trans c c1 c' : same_windows c c1 → same_windows c1 c' → same_windows c c'.
Proof. unfold same_windows. intros (-> & -> & ->) (-> & -> & ->). done. Qed.

Lemma same_dom c c' : same_windows c c' → dom (windows c') = dom (windows c).
Proof. intros (H & _). by rewrite <- (dom_fmap_L label), H, dom_fmap_L. Qed.

Lemma same_lookup c c' id :
  same_windows c c' → label <$> windows c' !! id = label <$> windows c !! id.
Proof. intros (H & _). by rewrite <- !lookup_fmap, H. Qed.

Lemma same_alter f w c : (∀ win, label (f win) = label win) → same_windows c (set_windows (alter f w) c).
Proof.
  intros Hf. split; [|done]. simpl. apply map_eq. intros i. rewrite !lookup_fmap.
  destruct (decide (w = i)) as [<-|Hne]; [rewrite lookup_alter_eq|by rewrite lookup_alter_ne].
  destruct (windows c !! w); simpl; [by rewrite Hf|done].
Qed.

Lemma drop_webview_id_map v c : window_id_map (drop_webview v c) = window_id_map c.
Proof. unfold drop_webview. destruct (web_context c !! context_key v); [case_decide|]; done. Qed.

Lemma drop_webview_next v c : next_window_id (drop_webview v c) = next_window_id c.
Proof. unfold drop_webview. destruct (web_context c !! context_key v); [case_decide|]; done. Qed.

Lemma same_drop v c : same_windows c (drop_webview v c).
Proof. split; [by rewrite drop_webview_windows|]. by rewrite drop_webview_id_map, drop_webview_next. Qed.

Lemma same_create_webview k t i id p c : same_windows c (create_webview k t i id p c).2.
Proof.
  unfold same_windows. rewrite create_webview_windows. unfold create_webview.
  destruct (proxy_url p ≫= _); [done|]. destruct (register_protocols _ _). by destruct (build_webview _ _).
Qed.

Lemma webview_setter_same t w x st c : same_windows c (webview_setter t w x st c).
Proof.
  assert (∀ f, same_windows c (on_webview w (wv_id x) f c)) as Hb by (intros; by apply same_alter).
  destruct st; simpl; try done; repeat case_match; try done; apply Hb.
Qed.

(** Every message of a tame call is handled, and keeps the windows. *)
Lemma handle_tame run cmd c :
  tame cmd = true → posted cmd = false → (∀ c, ∃ c', run c = Ok c' ∧ same_windows c c') →
  ∃ c', handle_with run (message cmd c).1 (message cmd c).2 = Ok c' ∧ same_windows c c'.
Proof.
  intros Ht Hp Hrun.
  assert (∀ w v m c0, (∀ new tx, m ≠ Reparent new tx) → same_windows c c0 →
    ∃ c', handle_webview run w v m c0 = Ok c' ∧ same_windows c c') as Hwv.
  { intros w v m c0 Hm Hc0. unfold handle_webview.
    destruct m as [id h|g tx|st|e|e| |new tx|body]; try (by destruct (Hm new tx));
      (destruct (windows c0 !! w) as [win|]; [|by eauto]);
      (destruct (inner win); [|by eauto]); (destruct (find_webview v (webviews win)); [|by eauto]);
      try (by eauto); try (eexists; split; [done|]; eapply same_trans; [exact Hc0|]; try done).
    - by apply same_alter.
    - apply webview_setter_same.
    - eapply same_trans; [|apply same_drop]. by apply same_alter.
    - destruct (Hrun c0) as (c' & -> & Hc'). eexists. split; [done|]. by eapply same_trans. }
  destruct cmd; simpl in Ht, Hp; try done; cbn -[create_webview handle_window handle_webview];
    try (by apply Hrun); try (apply Hwv; done); try (by eauto).
  - case_match; [|by eexists].
    match goal with |- context [create_webview ?k ?t ?i ?v ?p ?x] =>
      pose proof (same_create_webview k t i v p x) as Hs; destruct (create_webview k t i v p x) as [r c'] end.
    simpl in Hs. assert (same_windows c c') as Hs' by (eapply same_trans, Hs; done).
    destruct r; eexists; (split; [done|]); [|done..]. eapply same_trans; [exact Hs'|by apply same_alter].
  - unfold handle_window. simpl. destruct (windows c !! window_id ≫= inner); simpl; eexists; done.
  - unfold handle_window. simpl. destruct (windows c !! window_id ≫= inner); simpl; [|by eexists].
    destruct (window_setter s); eexists; done.
  - eexists; done.
Qed.

Lemma run_all_tame (run : Cmd → Context → outcome Empty_set Context) l c :
  Forall (λ cmd, ∀ c, ∃ c', run cmd c = Ok c' ∧ same_windows c c') l →
  ∃ c', run_all run l c = Ok c' ∧ same_windows c c'.
Proof.
  intros Hl. revert c. induction Hl as [|cmd l Hc _ IH]; intros c; simpl; [eauto; by exists c|].
  destruct (Hc c) as (c1 & -> & H1). simpl. destruct (IH c1) as (c2 & -> & H2).
  exists c2. split; [done|]. by eapply same_trans.
Qed.

(** Induction over calls with the closures they carry. *)
Lemma Cmd_nested_ind (P : Cmd → Prop) :
  (∀ cmd, Forall P (match cmd with
                    | RunOnMainThread body | CreateWindow_ _ body _ | WithWebview_ _ body => body
                    | _ => []
                    end) → P cmd) →
  ∀ cmd, P cmd.
Proof.
  intros H. fix IH 1. intros cmd. apply H.
  destruct cmd; simpl; try apply Forall_nil_2;
    match goal with |- Forall P ?l => induction l as [|x l' IHl]; constructor; [apply IH|exact IHl] end.
Qed.

Lemma run_cmd_tame cmd c : tame cmd = true → ∃ c', run_cmd cmd c = Ok c' ∧ same_windows c c'.
Proof.
  revert c. induction cmd as [cmd IH] using Cmd_nested_ind. intros c Ht.
  assert (∀ l, Forall (λ cmd, ∀ c, tame cmd = true → ∃ c', run_cmd cmd c = Ok c' ∧ same_windows c c') l →
    forallb tame l = true → ∀ c, ∃ c', run_all run_cmd l c = Ok c' ∧ same_windows c c') as Hl.
  { intros l Hl Htl c0. apply run_all_tame. rewrite forallb_forall in Htl. rewrite Forall_forall in Hl |- *.
    intros x Hx c1. apply Hl; [done|]. by apply Htl, list_elem_of_In. }
  destruct (posted cmd) eqn:Hp.
  { destruct cmd; simpl in Hp |- *; try done; eexists; done. }
  pose proof (handle_tame (match cmd with
            | RunOnMainThread body => run_all run_cmd body
            | CreateWindow_ _ after _ => run_all run_cmd after
            | WithWebview_ _ body => run_all run_cmd body
            | _ => Ok
            end) cmd c Ht Hp) as Hh.
  destruct Hh as (c' & Hh & Hs).
  { destruct cmd; simpl in Ht; try done; try (intros c0; by exists c0); by apply Hl. }
  exists c'. split; [|done].
  destruct cmd; simpl in Hp, Ht; try done; cbn [run_cmd posted finish]; 
    match goal with |- context [message ?k c] => destruct (message k c) as [m c1] end; simpl in Hh;
    by rewrite Hh.
Qed.

(** A window that is created gets the next id; the others keep their labels. *)
Lemma create_window_labels lb handler wv c c' :
  (∀ h lb, build_webview h lb = true) → match wv with Some p => proxy_ok p | None => True end →
  forallb tame handler = true → windows c !! next_window_id c = None →
  run_cmd (CreateWindow_ lb handler wv) c = Ok c' →
  label <$> windows c' = <[next_window_id c := lb]> (label <$> windows c) ∧
  next_window_id c' = next (next_window_id c).
Proof.
  intros Hbuild Hp Ht Hfree H. cbn -[create_window insert_window] in H.
  set (w := next_window_id c) in *.
  assert (∃ v c1, run_cmd (CreateWindow_ lb handler wv) c =
    (c2 ← handle_with (run_all run_cmd handler) (CreateWindow w v lb handler wv) c1;
     finish (CreateWindow_ lb handler wv) w (next_tx c) c2) ∧
    windows c1 = windows c ∧ next_window_id c1 = next w) as (v & c1 & Hr & Hw1 & Hn1).
  { destruct wv; eexists _, _; (split; [reflexivity|done]). }
  change (run_cmd (CreateWindow_ lb handler wv) c = Ok c') in H. rewrite Hr in H. clear Hr.
  apply bind_ok in H as (c5 & H & Hfin). simpl in H. apply bind_ok in H as ([r c4] & H & Hins).
  unfold create_window in H. destruct (build_window (native c1)) as [t|]; [|done]. simpl in H.
  apply bind_ok in H as (c3 & H3 & H).
  assert (same_windows (set_id_map (<[t := w]>) (call (BuildWindow t lb) c1)) c3) as Hs3.
  { destruct (run_all_tame run_cmd handler (set_id_map (<[t := w]>) (call (BuildWindow t lb) c1))) as (x & Hx & Hs).
    - rewrite forallb_forall in Ht. apply Forall_forall. intros cmd Hcmd c0. apply run_cmd_tame.
      by apply Ht, list_elem_of_In.
    - rewrite Hx in H3. by simplify_eq. }
  assert (∃ win, r = Ok win ∧ label win = lb ∧ same_windows c3 c4) as (win & -> & Hlb & Hs4).
  { destruct wv as [p|]; [|simplify_eq; by eexists].
    set (k := if unstable then WindowChild else WindowContent) in *.
    destruct (create_webview_ok k t (N.of_nat (length (cells c3))) v p (set_cells (cells c3 ++ [w]) c3) Hbuild Hp)
      as [x Hx].
    pose proof (same_create_webview k t (N.of_nat (length (cells c3))) v p (set_cells (cells c3 ++ [w]) c3)) as Hs.
    destruct (create_webview k t _ v p _) as [r' c6]. simpl in Hx, Hs. subst r'. simplify_eq.
    eexists. split; [done|]. split; [done|]. eapply same_trans; [|exact Hs]. done. }
  destruct (same_trans _ _ _ Hs3 Hs4) as (Hl4 & _ & Hn4). simpl in Hl4, Hn4. rewrite Hw1 in Hl4. rewrite Hn1 in Hn4.
  assert (windows c4 !! w = None) as Hfree4.
  { apply (fmap_None label). by rewrite <- lookup_fmap, Hl4, lookup_fmap, Hfree. }
  injection Hins as <-. unfold insert_window in Hfin. rewrite Hfree4 in Hfin.
  assert (windows c' = <[w := win]> (windows c4) ∧ next_window_id c' = next_window_id c4) as [-> ->].
  { destruct wv; simpl in Hfin; by simplify_eq. }
  by rewrite fmap_insert, Hl4, Hlb.
Qed.

End Tame.

(** ** Dispatchers *)
Section Dispatchers.
Context {RTy : RuntimeTypes} {NA : Native}.

(** Getters and setters of a window act on its native window, and only
    while it is open: a getter returns the answer of the window, or the error
    that nothing was received; a setter makes its one call, or none. *)
Theorem window_calls_need_the_window w g st c :
  (∃ c', window_getter w g c =
     Ok (match windows c !! w ≫= inner with
         | Some t => Ok (window_answer (native c) t g)
         | None => Err FailedToReceiveMessage
         end, c') ∧ windows c' = windows c ∧ native c' = native c) ∧
  run_cmd (SetWindow w st) c =
    Ok (match windows c !! w ≫= inner, window_setter st with
        | Some t, Some k => call (WindowCall t k) c
        | _, _ => c
        end).
Proof.
  split.
  - unfold window_getter. cbn -[handle_window]. unfold handle_window. simpl.
    destruct (windows c !! w ≫= inner); simpl; unfold recv; simpl;
      [rewrite lookup_insert_eq|rewrite lookup_delete_eq]; eauto.
  - cbn -[window_setter handle_window]. unfold handle_window.
    destruct (windows c !! w ≫= inner); simpl; [|done]. by destruct (window_setter st).
Qed.

(** Reparenting moves a webview: it leaves its window and becomes the last
    webview of the new one, its dispatcher follows it, and every other window
    is as before. *)
Theorem reparent_moves d new c win webview parent t :
  let w := cell (d_cell d) c in
  windows c !! w = Some win → find_webview (d_webview d) (webviews win) = Some webview → w ≠ new →
  windows c !! new = Some parent → inner parent = Some t → N.to_nat (d_cell d) < length (cells c) →
  reparent_webview (native c) (d_webview d) t = true →
  ∃ c', run_cmd (Reparent_ d new) c = Ok c' ∧ cell (d_cell d) c' = new ∧
    windows c' !! w = Some (set_webviews (remove_webview (d_webview d) (webviews win)) win) ∧
    windows c' !! new = Some (set_webviews (webviews parent ++ [webview]) parent) ∧
    (∀ x, x ≠ w → x ≠ new → windows c' !! x = windows c !! x).
Proof.
  intros w Hw Hf Hne Hn Ht Hcell Hr. cbn -[handle_reparent]. unfold cell. simpl.
  change (default 0%N (cells c !! N.to_nat (d_cell d))) with w.
  unfold handle_reparent. simpl. rewrite Hw. simpl. rewrite Hf.
  rewrite lookup_alter_ne, Hn by done. simpl. rewrite Ht, Hr. simpl. rewrite lookup_insert_eq. simpl.
  eexists. split; [done|]. simpl. unfold cell. simpl. rewrite list_lookup_insert_eq by done.
  split_and!; [done|..].
  - by rewrite lookup_alter_ne, lookup_alter_eq, Hw.
  - by rewrite lookup_alter_eq, lookup_alter_ne, Hn.
  - intros x Hx Hx'. by rewrite !lookup_alter_ne.
Qed.

(** Reparenting to a window that is closed or unknown panics, and the
    webview is gone from its window by then. *)
Theorem reparent_to_closed_window_panics d new c win webview :
  windows c !! cell (d_cell d) c = Some win → find_webview (d_webview d) (webviews win) = Some webview →
  windows c !! new ≫= inner = None →
  run_cmd (Reparent_ d new) c = Panic "called `Result::unwrap()` on an `Err` value: RecvError".
Proof.
  intros Hw Hf Hn. cbn -[handle_reparent drop_webview cell]. unfold handle_reparent. cbn -[drop_webview cell].
  change (cell (d_cell d) (set_replies _ _ c)) with (cell (d_cell d) c).
  rewrite Hw. cbn -[drop_webview cell]. rewrite Hf.
  assert (alter (λ win, set_webviews (remove_webview (d_webview d) (webviews win)) win) (cell (d_cell d) c)
    (windows c) !! new ≫= inner = None) as ->.
  { destruct (decide (cell (d_cell d) c = new)) as [Heq|Hne]; [|by rewrite lookup_alter_ne].
    rewrite <- Heq, Hw in Hn. by rewrite Heq, lookup_alter_eq, <- Heq, Hw. }
  rewrite drop_webview_replies. simpl. by rewrite lookup_delete_eq.
Qed.

End Dispatchers.

(** ** Examples *)
#[local] Instance ex_types : RuntimeTypes := {|
  tao_id := N; f32 := Z; scale := (); position := Z * Z; size := Z * Z; arg := (); value := string;
  user_event := string; window_handler := string; webview_handler := string; attributes := ();
|}.

(** [builds n]: creating the [n]th webview works; window [n] is the [n]th made. *)
Definition ex_native (builds : N → bool) (auto : bool) : Native := {|
  f32_mul := Z.mul; f32_div := Z.div; f32_zero := 0%Z; f32_one := 1%Z; unstable := false;
  logical_position _ p := p; logical_size _ s := s; position_of p := p; size_of s := s;
  window_scale_factor _ _ := (); window_inner_size _ _ := (800, 600)%Z;
  window_answer _ w g := "answer"; webview_bounds _ _ := Some ((0, 0), (800, 600))%Z;
  webview_answer _ _ _ := "answer"; cursor_position _ := "cursor";
  build_window h := Some (N.of_nat (length (List.filter (λ n, match n with BuildWindow _ _ => true | _ => false end) h)));
  build_webview h lb :=
    builds (N.of_nat (length (List.filter (λ n, match n with BuildWebview _ _ _ _ => true | _ => false end) h)));
  reparent_webview _ _ _ := true;
  automation_enabled := auto;
  handler_order H m := map_to_list m;
|}.

Definition ex_pending (lb : string) : PendingWebview :=
  mk_pending_webview lb (Some "data") None ["tauri"; "ipc"] None false true ().

(** The stored contexts, to compare them. *)
Definition ex_contexts (r : outcome Empty_set Context) : option (list (option string * list string * list string)) :=
  match r with
  | Ok c => Some ((λ '(k, wc), (k, elements (referenced_by_webviews wc), elements (registered_custom_protocols wc)))
                    <$> map_to_list (web_context c))
  | _ => None
  end.

Definition ex_good : Native := ex_native (λ _, true) false.

(** The context after creating two windows with a webview, and the dispatcher
    of the first. *)
Definition ex_window (na : Native) (lb : string) (c : Context) : outcome Empty_set Context :=
  @run_cmd ex_types na (CreateWindow_ lb [] (Some (ex_pending lb))) c.
Definition ex_two : Context := default init (ok (c ← ex_window ex_good "main" init; ex_window ex_good "other" c)).
Definition ex_dispatcher : WebviewDispatcher := mk_dispatcher 1 0.

Lemma contexts_follow_webviews_witness :
  let m := CreateWindow 0 0 "main" [] (Some (ex_pending "main")) in
  ∃ c, @handle_user_message ex_types ex_good m init = Ok c ∧ contexts_ok c ∧
    ex_contexts (Ok c) = Some [(Some "data", ["main"], ["ipc"; "tauri"])].
Proof.
  intros m. eexists. split; [vm_compute; reflexivity|]. split; [|vm_compute; reflexivity].
  apply (@contexts_follow_webviews ex_types ex_good eq_refl (λ _ _, eq_refl) Ok m init).
  - intros c c' Hc [= <-]. exact Hc.
  - intros t c [= <-]. split; [apply not_elem_of_nil|exact I].
  - constructor; [intros key wc Hk; discriminate Hk| |constructor].
    intros key lb. split; [intros (wc & Hk & _); discriminate Hk|].
    intros (v & Hv & _). by apply not_elem_of_nil in Hv.
  - vm_compute. reflexivity.
Defined.

Definition ex_webview (lb : string) (id cell : N) : WebviewWrapper :=
  mk_webview lb id ∅ (Some "data") None WindowContent cell true.
Definition ex_win (lb : string) (id : N) (t : @tao_id ex_types) : WindowWrapper :=
  mk_window lb (Some t) false [ex_webview lb id (id * 2)] ∅.

Lemma reparent_moves_witness :
  ∃ c', @run_cmd ex_types ex_good (Reparent_ ex_dispatcher 1) ex_two = Ok c' ∧ cell 1 c' = 1%N ∧
    windows c' !! 0%N = Some (set_webviews [] (ex_win "main" 0 0%N)) ∧
    windows c' !! 1%N = Some (set_webviews [ex_webview "other" 1 2; ex_webview "main" 0 0] (ex_win "other" 1 1%N)).
Proof.
  destruct (@reparent_moves ex_types ex_good ex_dispatcher 1 ex_two (ex_win "main" 0 0%N) (ex_webview "main" 0 0)
    (ex_win "other" 1 1%N) 1%N) as (c' & Hc & Hcell & H0 & H1 & _);
    [vm_compute; reflexivity|vm_compute; reflexivity|vm_compute; discriminate|vm_compute; reflexivity
    |vm_compute; reflexivity|vm_compute; lia|vm_compute; reflexivity|].
  exists c'. split; [exact Hc|]. split; [exact Hcell|]. split; [exact H0|exact H1].
Defined.

Lemma reparent_to_closed_window_panics_witness :
  @run_cmd ex_types ex_good (Reparent_ ex_dispatcher 7) ex_two =
    Panic "called `Result::unwrap()` on an `Err` value: RecvError".
Proof.
  apply (@reparent_to_closed_window_panics ex_types ex_good ex_dispatcher 7 ex_two
    (ex_win "main" 0 0%N) (ex_webview "main" 0 0)); vm_compute; reflexivity.
Defined.

(** The page of a window's own webview keeps the old window after the
    webview moved: the dispatcher that the ipc handler makes has a cell of its
    own. *)
Theorem ipc_dispatcher_stale_after_reparent :
  match @run_cmd ex_types ex_good (Reparent_ ex_dispatcher 1) ex_two with
  | Ok c =>
      cell (d_cell ex_dispatcher) c = 1%N ∧
      (λ v, (wv_label v, cell (d_cell (ipc_dispatcher v)) c)) <$> default [] (webviews <$> windows c !! 1%N) =
        [("other", 1%N); ("main", 0%N)]
  | _ => False
  end.
Proof. vm_compute. split; reflexivity. Qed.

(** A webview that could not be created stays referenced in its context,
    and the schemes it would have registered count as registered: a later
    webview of the context gets none of them. *)
Theorem failed_webview_keeps_context :
  let na := ex_native (λ n, bool_decide (n ≠ 0%N)) false in
  let na' := ex_native (λ _, true) false in
  ex_contexts (ex_window na "main" init) = Some [(Some "data", ["main"], ["ipc"; "tauri"])] ∧
  match (c ← ex_window na "main" init; ex_window na' "other" c) with
  | Ok c => List.filter (λ n, match n with BuildWebview _ _ _ _ => true | _ => false end) (native c) =
      [BuildWebview 1 "other" [] (() : @attributes ex_types)]
  | _ => False
  end.
Proof. vm_compute. split; reflexivity. Qed.

(** With automation enabled a webview with a data directory never releases
    its context. *)
Theorem automation_leaks_context :
  let na := ex_native (λ _, true) true in
  ex_contexts (c ← ex_window na "main" init; @run_cmd ex_types na (CloseWebview ex_dispatcher) c) =
    Some [(Some "data", ["main"], ["ipc"; "tauri"])].
Proof. vm_compute. reflexivity. Qed.

(** The context of the last webview is dropped before the webview. *)
Theorem context_dropped_before_webview :
  match (c ← ex_window ex_good "main" init; @run_cmd ex_types ex_good (CloseWebview ex_dispatcher) c) with
  | Ok c => native c = [BuildWindow (0%N : @tao_id ex_types) "main"; BuildWebview 0 "main" ["tauri"; "ipc"] ();
                        DropContext (Some "data"); DropWebview 0]
  | _ => False
  end.
Proof. vm_compute. reflexivity. Qed.

End Runtime.
