(* ===== verification/EventLoop.v ===== *)
(** * The event loop

    Models the loop of [tauri-runtime-wry/Source/lib.rs]: what each event of
    [tao] does to the windows and to the loop, the events the application is
    told, and how it can prevent a window from closing or the loop from ending.
    The code of the application is a parameter: for every event it may change
    its own state, make calls into the runtime, and send messages over the
    channel of the event. *)
From S2P Require Import Prelude Runtime.
Import Messages Runtime.

Module Events.
Section Types.
Context {RTy : RuntimeTypes}.

Inductive WindowEvent :=
| Resized (s : size)
| Moved (p : position)
| CloseRequested
| Destroyed
| Focused (focused : bool)
| ScaleFactorChanged (scale_factor : scale) (new_inner_size : size)
| DragDrop (event : DragDropEvent)
| ThemeChanged (theme : Theme).

(** The events of the application. *)
Inductive RunEvent :=
| Exit
| ExitRequested (code : option Z)
| OfWindow (label : string) (event : WindowEvent)
| OfWebview (label : string) (event : WebviewEvent)
| Ready
| Resumed
| MainEventsCleared
| OfUser (u : user_event).

(** The events of [tao]. *)
Inductive TaoWindowEvent :=
| TResized (s : size)
| TMoved (p : position)
| TCloseRequested
| TDestroyed
| TScaleFactorChanged (scale_factor : scale) (new_inner_size : size)
| TFocused (focused : bool)
| TThemeChanged (theme : option Theme)
| TOther.

Inductive Event :=
| NewEventsInit
| NewEventsPoll
| TaoMainEventsCleared
| LoopDestroyed
| TaoUserEvent (m : Message)
| TaoWindowEvent_ (window : tao_id) (event : TaoWindowEvent)
| TaoOtherEvent.

Inductive ControlFlow := Wait | Poll | ExitLoop.

#[global] Instance ControlFlow_eq_dec : EqDecision ControlFlow.
Proof. solve_decision. Defined.

End Types.
End Events.
Import Events.

(** The code of the application: what it does for an event with its own state
    and with the runtime, and what it sends over the channel of the event. *)
Class AppCode {RTy : RuntimeTypes} := {
  app : Type;
  callback : RunEvent → Context → app → outcome Empty_set (app * Context * list bool);
  on_window_handler : window_handler → WindowEvent → Context → app → outcome Empty_set (app * Context * list bool);
  on_webview_handler : webview_handler → WebviewEvent → Context → app → outcome Empty_set (app * Context * list bool);
}.

Module EventLoop.

Section Loop.
Context {RTy : RuntimeTypes} {NA : Native} {AC : AppCode}.

(** What the application was told: the event, what it sent back, and how many
    windows there were. *)
Record Told := mk_told {
  told : RunEvent;
  signals : list bool;
  open_windows : nat;
}.

Record World := mk_world {
  context : Context;
  application : app;
  control_flow : ControlFlow;
  log : list Told;
}.

Definition set_context (c : Context) (w : World) : World :=
  mk_world c (application w) (control_flow w) (log w).
Definition set_control_flow (f : ControlFlow) (w : World) : World :=
  mk_world (context w) (application w) f (log w).

(** A call of the callback, with the messages it sent. *)
Definition run_callback (e : RunEvent) (w : World) : outcome Empty_set (list bool * World) :=
  '(a, c, sent) ← callback e (context w) (application w);
  Ok (sent, mk_world c a (control_flow w) (log w ++ [mk_told e sent (base.size (windows (context w)))])).

(** [for handler in listeners.values()]. The source holds the lock of the
    listeners meanwhile; that a handler which adds a listener to the same window
    blocks there is not modelled. *)
Fixpoint run_window_handlers (hs : list (N * window_handler)) (e : WindowEvent) (w : World)
    : outcome Empty_set (list bool * World) :=
  match hs with
  | [] => Ok ([], w)
  | (_, h) :: hs =>
      '(a, c, sent) ← on_window_handler h e (context w) (application w);
      '(rest, w) ← run_window_handlers hs e (mk_world c a (control_flow w) (log w));
      Ok (sent ++ rest, w)
  end.

Fixpoint run_webview_handlers (hs : list (N * webview_handler)) (e : WebviewEvent) (w : World)
    : outcome Empty_set (list bool * World) :=
  match hs with
  | [] => Ok ([], w)
  | (_, h) :: hs =>
      '(a, c, sent) ← on_webview_handler h e (context w) (application w);
      '(rest, w) ← run_webview_handlers hs e (mk_world c a (control_flow w) (log w));
      Ok (sent ++ rest, w)
  end.

(** ** Events of windows *)
Definition map_theme (theme : option Theme) : Theme :=
  match theme with Some Light => Light | Some Dark => Dark | None => Light end.

Definition from_tao (event : TaoWindowEvent) : option WindowEvent :=
  match event with
  | TResized s => Some (Resized s)
  | TMoved p => Some (Moved p)
  | TDestroyed => Some Destroyed
  | TScaleFactorChanged f s => Some (ScaleFactorChanged f s)
  | TFocused b => Some (Focused b)
  | TThemeChanged t => Some (ThemeChanged (map_theme t))
  | _ => None
  end.

Definition parse (window : WindowWrapper) (event : TaoWindowEvent) (c : Context) : option WindowEvent :=
  match event with
  | TResized _ =>
      match inner window with
      | Some t => Some (Resized (window_inner_size (native c) t))
      | None => None
      end
  | e => from_tao e
  end.

Definition from_synthesized (event : SynthesizedWindowEvent) : WindowEvent :=
  match event with SFocused b => Focused b | SDragDrop e => DragDrop e end.

(** The callback, then the listeners of the window. *)
Definition notify (window : WindowWrapper) (e : WindowEvent) (w : World) : outcome Empty_set World :=
  '(_, w) ← run_callback (OfWindow (label window) e) w;
  '(_, w) ← run_window_handlers (handler_order (window_event_listeners window)) e w;
  Ok w.

Definition on_window_close (id : WindowId) (c : Context) : Context :=
  match windows c !! id with
  | Some window =>
      let c := match inner window with Some t => call (DropWindow t) c | None => c end in
      set_windows (<[id := mk_window (label window) None (has_children window) (webviews window)
                             (window_event_listeners window)]>) c
  | None => c
  end.

Definition on_close_requested (id : WindowId) (w : World) : outcome Empty_set World :=
  match windows (context w) !! id with
  | Some window =>
      '(sent, w) ← run_window_handlers (handler_order (window_event_listeners window)) CloseRequested w;
      '(sent', w) ← run_callback (OfWindow (label window) CloseRequested) w;
      match head (sent ++ sent') with
      | Some true => Ok w
      | _ => Ok (set_context (on_window_close id (context w)) w)
      end
  | None => Ok w
  end.

(** The request to exit: any message prevents it. *)
Definition request_exit (code : option Z) (w : World) : outcome Empty_set World :=
  '(sent, w) ← run_callback (ExitRequested code) w;
  match head sent with
  | Some _ => Ok w
  | None => Ok (set_control_flow ExitLoop w)
  end.

Definition on_destroyed (id : WindowId) (w : World) : outcome Empty_set World :=
  match windows (context w) !! id with
  | Some window =>
      let w := set_context (drop_window window (set_windows (delete id) (context w))) w in
      if decide (windows (context w) = ∅) then request_exit None w else Ok w
  | None => Ok w
  end.

(** The webviews that resize with their window. *)
Definition on_resized (id : WindowId) (s : size) (c : Context) : Context :=
  match windows c !! id with
  | Some window =>
      match inner window with
      | Some t =>
          let '(width, height) := logical_size (window_scale_factor (native c) t) s in
          foldl (λ c v,
            match bounds v with
            | Some b =>
                call (WebviewCall (wv_id v)
                        (wry_set_bounds (position_of (f32_mul width (x_rate b), f32_mul height (y_rate b)))
                           (size_of (f32_mul width (width_rate b), f32_mul height (height_rate b))))) c
            | None => c
            end) c (webviews window)
      | None => c
      end
  | None => c
  end.

Definition on_window_event (t : tao_id) (event : TaoWindowEvent) (w : World) : outcome Empty_set World :=
  match window_id_map (context w) !! t with
  | Some id =>
      w ← match windows (context w) !! id with
          | Some window =>
              match parse window event (context w) with
              | Some e => notify window e w
              | None => Ok w
              end
          | None => Ok w
          end;
      match event with
      | TCloseRequested => on_close_requested id w
      | TDestroyed => on_destroyed id w
      | TResized s => Ok (set_context (on_resized id s (context w)) w)
      | _ => Ok w
      end
  | None => Ok w
  end.

(** ** Events of the application *)
Definition on_user_event (m : Message) (w : World) : outcome Empty_set World :=
  match m with
  | Webview window_id webview_id (WvEvent event) =>
      match windows (context w) !! window_id ≫= (λ window, find_webview webview_id (webviews window)) with
      | Some webview =>
          '(_, w) ← run_callback (OfWebview (wv_label webview) event) w;
          '(_, w) ← run_webview_handlers (handler_order (webview_event_listeners webview)) event w;
          Ok w
      | None => Ok w
      end
  | Webview window_id _ (SynthesizedEvent event) =>
      match windows (context w) !! window_id with
      | Some window => notify window (from_synthesized event) w
      | None => Ok w
      end
  | RequestExit code => request_exit (Some code) w
  | Window id Close => on_close_requested id w
  | Window id Destroy => Ok (set_context (on_window_close id (context w)) w)
  | UserEvent u => '(_, w) ← run_callback (OfUser u) w; Ok w
  | m => c ← handle_user_message m (context w); Ok (set_context c w)
  end.

Definition handle_event_loop (e : Event) (w : World) : outcome Empty_set World :=
  let w := if decide (control_flow w = ExitLoop) then w else set_control_flow Wait w in
  match e with
  | NewEventsInit => '(_, w) ← run_callback Ready w; Ok w
  | NewEventsPoll => '(_, w) ← run_callback Resumed w; Ok w
  | TaoMainEventsCleared => '(_, w) ← run_callback MainEventsCleared w; Ok w
  | LoopDestroyed => '(_, w) ← run_callback Exit w; Ok w
  | TaoUserEvent m => on_user_event m w
  | TaoWindowEvent_ t event => on_window_event t event w
  | TaoOtherEvent => Ok w
  end.

(** The runtime plugins see an event first; one of them may keep it. *)
Fixpoint run_plugins (plugins : list (Event → World → outcome Empty_set (World * bool))) (e : Event) (w : World)
    : outcome Empty_set World :=
  match plugins with
  | [] => handle_event_loop e w
  | p :: plugins =>
      '(w, prevent_default) ← p e w;
      if prevent_default : bool then Ok w else run_plugins plugins e w
  end.

(** An iteration that returns: the loop waits, and ends once the events are
    handled. *)
Definition run_iteration (plugins : list (Event → World → outcome Empty_set (World * bool))) (e : Event) (w : World)
    : outcome Empty_set World :=
  let w := set_control_flow (match e with TaoMainEventsCleared => ExitLoop | _ => Wait end) w in
  run_plugins plugins e w.

(** ** Runs

    [tao] calls the loop with its events and with the messages of the proxy, in
    order, until the control flow is to exit; then it destroys the loop. Other
    threads and the callbacks of webviews act in between. *)
Inductive Phase := Running | Finished.

Definition native_event (e : Event) : Prop :=
  match e with TaoUserEvent _ | LoopDestroyed => False | _ => True end.

Section Steps.
Context (plugins : list (Event → World → outcome Empty_set (World * bool))).

Inductive step : Phase * World → Phase * World → Prop :=
| step_native e w w' :
    control_flow w ≠ ExitLoop → native_event e → run_plugins plugins e w = Ok w' →
    step (Running, w) (Running, w')
| step_message m q w w' :
    control_flow w ≠ ExitLoop → proxy (context w) = m :: q →
    run_plugins plugins (TaoUserEvent m) (set_context (set_proxy q (context w)) w) = Ok w' →
    step (Running, w) (Running, w')
| step_thread cmd w : step (Running, w) (Running, set_context (post_cmd cmd (context w)) w)
| step_code cmds c a w :
    run_cmds cmds (context w) = Ok c →
    step (Running, w) (Running, mk_world c a (control_flow w) (log w))
| step_end w w' :
    control_flow w = ExitLoop → run_plugins plugins LoopDestroyed w = Ok w' →
    step (Running, w) (Finished, w').

End Steps.

(** ** What a handler may tell and decide *)

(** An exit that was requested and not prevented. *)
Definition granted (t : Told) : Prop := (∃ code, told t = ExitRequested code) ∧ signals t = [].

(** From [w] to [w'] the application was told [l]: no end of the loop, a request
    to exit without a code only when no window was left, and the loop is to exit
    because of a request that was granted. *)
Definition advance (w w' : World) : Prop :=
  ∃ l, log w' = log w ++ l ∧ (∀ t, t ∈ l → told t ≠ Exit) ∧
    (∀ t, t ∈ l → told t = ExitRequested None → open_windows t = 0) ∧
    (control_flow w' = ExitLoop ↔ control_flow w = ExitLoop ∨ ∃ t, t ∈ l ∧ granted t).

Lemma advance_same w w' :
  log w' = log w → (control_flow w' = ExitLoop ↔ control_flow w = ExitLoop) → advance w w'.
Proof.
  intros Hl Hc. exists []. rewrite app_nil_r. split_and!; [done|..]; try by intros ? ?%not_elem_of_nil.
  rewrite Hc. split; [auto|]. intros [?|(? & ?%not_elem_of_nil & _)]; done.
Qed.

Lemma advance_trans w w1 w' : advance w w1 → advance w1 w' → advance w w'.
Proof.
  intros (l & Hl & He & Hn & Hc) (l' & Hl' & He' & Hn' & Hc'). exists (l ++ l').
  setoid_rewrite elem_of_app. split_and!.
  - by rewrite Hl', Hl, app_assoc.
  - naive_solver.
  - naive_solver.
  - rewrite Hc', Hc. naive_solver.
Qed.

Lemma callback_told e w sent w' :
  run_callback e w = Ok (sent, w') →
  control_flow w' = control_flow w ∧ log w' = log w ++ [mk_told e sent (base.size (windows (context w)))].
Proof.
  unfold run_callback. intros ([[a c] s] & _ & H)%bind_ok. by simplify_eq.
Qed.

Definition ordinary (e : RunEvent) : Prop := match e with Exit | ExitRequested _ => False | _ => True end.

Lemma advance_callback e w sent w' : ordinary e → run_callback e w = Ok (sent, w') → advance w w'.
Proof.
  intros Ho [Hc Hl]%callback_told. eexists. split; [exact Hl|]. setoid_rewrite list_elem_of_singleton.
  split_and!; [by intros ? -> ; destruct e|by intros ? -> ; destruct e|].
  rewrite Hc. split; [auto|]. intros [?|(? & -> & [[? Hx] _])]; [done|]. simpl in Hx. by subst.
Qed.

Lemma window_handlers_told hs e w sent w' :
  run_window_handlers hs e w = Ok (sent, w') → control_flow w' = control_flow w ∧ log w' = log w.
Proof.
  revert w sent. induction hs as [|[i h] hs IH]; intros w sent H; simpl in H; [by simplify_eq|].
  apply bind_ok in H as ([[a c] s] & _ & H).
  apply bind_ok in H as ([rest w1] & H1 & H2). simplify_eq. by apply IH in H1.
Qed.

Lemma webview_handlers_told hs e w sent w' :
  run_webview_handlers hs e w = Ok (sent, w') → control_flow w' = control_flow w ∧ log w' = log w.
Proof.
  revert w sent. induction hs as [|[i h] hs IH]; intros w sent H; simpl in H; [by simplify_eq|].
  apply bind_ok in H as ([[a c] s] & _ & H).
  apply bind_ok in H as ([rest w1] & H1 & H2). simplify_eq. by apply IH in H1.
Qed.

Lemma advance_handlers hs e w sent w' : run_window_handlers hs e w = Ok (sent, w') → advance w w'.
Proof. intros [Hc Hl]%window_handlers_told. apply advance_same; [done|by rewrite Hc]. Qed.

Lemma advance_webview_handlers hs e w sent w' : run_webview_handlers hs e w = Ok (sent, w') → advance w w'.
Proof. intros [Hc Hl]%webview_handlers_told. apply advance_same; [done|by rewrite Hc]. Qed.

Lemma advance_context c w : advance w (set_context c w).
Proof. by apply advance_same. Qed.

Lemma advance_refl w : advance w w.
Proof. by apply advance_same. Qed.

Lemma advance_request code w w' :
  (code = None → windows (context w) = ∅) → request_exit code w = Ok w' → advance w w'.
Proof.
  intros Hw H. unfold request_exit in H. apply bind_ok in H as ([sent w1] & H1 & H).
  apply callback_told in H1 as [Hc Hl].
  exists [mk_told (ExitRequested code) sent (base.size (windows (context w)))].
  setoid_rewrite list_elem_of_singleton.
  assert (log w' = log w1 ∧ control_flow w' = if decide (sent = []) then ExitLoop else control_flow w) as [Hl' Hc'].
  { destruct sent as [|b sent]; simpl in H; simplify_eq; by rewrite ?Hc. }
  split_and!; [by rewrite Hl', Hl|by intros ? ->|..].
  - intros ? -> [= ->]. simpl. by rewrite Hw, map_size_empty.
  - rewrite Hc'. unfold granted. case_decide as Hs; naive_solver.
Qed.

#[local] Hint Resolve advance_refl advance_context : core.

Lemma advance_notify win e w w' : notify win e w = Ok w' → advance w w'.
Proof.
  unfold notify. intros H. apply bind_ok in H as ([s w1] & H1 & H). apply bind_ok in H as ([s' w2] & H2 & H).
  simplify_eq. eapply advance_trans; [by eapply advance_callback, H1|]. by eapply advance_handlers.
Qed.

Lemma advance_close id w w' : on_close_requested id w = Ok w' → advance w w'.
Proof.
  unfold on_close_requested. destruct (windows (context w) !! id) as [win|]; [|intros [= <-]; done].
  intros H. apply bind_ok in H as ([s w1] & H1 & H). apply bind_ok in H as ([s' w2] & H2 & H).
  assert (advance w w2) as Ha.
  { eapply advance_trans; [by eapply advance_handlers|]. by eapply advance_callback, H2. }
  destruct (head (s ++ s')) as [[]|]; simplify_eq; [done|..]; (eapply advance_trans; [exact Ha|done]).
Qed.

Lemma advance_destroyed id w w' : on_destroyed id w = Ok w' → advance w w'.
Proof.
  unfold on_destroyed. destruct (windows (context w) !! id) as [win|]; [|intros [= <-]; done].
  cbv zeta. case_decide as He; [|intros [= <-]; done]. intros H.
  eapply advance_trans; [|eapply advance_request, H; done]. done.
Qed.

Lemma advance_window_event t e w w' : on_window_event t e w = Ok w' → advance w w'.
Proof.
  unfold on_window_event. destruct (window_id_map (context w) !! t) as [id|]; [|intros [= <-]; done].
  intros H. apply bind_ok in H as (w1 & H1 & H).
  assert (advance w w1) as Ha.
  { destruct (windows (context w) !! id) as [win|]; [|by simplify_eq].
    destruct (parse win e (context w)); [by eapply advance_notify|by simplify_eq]. }
  eapply advance_trans; [exact Ha|].
  destruct e; simplify_eq; try done; [by eapply advance_close|by eapply advance_destroyed].
Qed.

Lemma advance_user_event m w w' : on_user_event m w = Ok w' → advance w w'.
Proof.
  assert (∀ c : outcome Empty_set Context, (c ← c; Ok (set_context c w)) = Ok w' → advance w w') as Hd.
  { intros c (c' & _ & [= <-])%bind_ok. done. }
  destruct m as [body|code|id wm|i v wm|tx|i j v p|i v lb after wv|i lb tx|u]; cbn [on_user_event]; try apply Hd.
  - by apply advance_request.
  - destruct wm; try apply Hd; [apply advance_close|by intros [= <-]].
  - destruct wm; try apply Hd.
    + destruct (windows (context w) !! i ≫= _) as [x|]; [|intros [= <-]; done].
      intros H. apply bind_ok in H as ([s w1] & H1 & H). apply bind_ok in H as ([s' w2] & H2 & H). simplify_eq.
      eapply advance_trans; [by eapply advance_callback, H1|]. by eapply advance_webview_handlers.
    + destruct (windows (context w) !! i); [|intros [= <-]; done]. apply advance_notify.
  - intros H. apply bind_ok in H as ([s w1] & H1 & H). simplify_eq. by eapply advance_callback, H1.
Qed.

Lemma advance_loop e w w' : e ≠ LoopDestroyed → handle_event_loop e w = Ok w' → advance w w'.
Proof.
  intros He H. unfold handle_event_loop in H. set (w0 := if decide _ then w else _) in H.
  assert (advance w w0) as Ha.
  { unfold w0. case_decide as Hd; [done|]. by apply advance_same. }
  eapply advance_trans; [exact Ha|].
  destruct e; try done; try (apply bind_ok in H as ([s w1] & H1 & H); simplify_eq; by eapply advance_callback, H1).
  - by eapply advance_user_event.
  - by eapply advance_window_event.
  - by simplify_eq.
Qed.

(** A plugin that leaves the control flow to the runtime and tells the
    application nothing itself. It may keep every event but the end of the loop
    from the runtime. *)
Definition transparent (p : Event → World → outcome Empty_set (World * bool)) : Prop :=
  ∀ e w w' b, p e w = Ok (w', b) →
    control_flow w' = control_flow w ∧ log w' = log w ∧ (e = LoopDestroyed → b = false).

Lemma plugins_pass ps e w w' :
  Forall transparent ps → run_plugins ps e w = Ok w' →
  ∃ w1, control_flow w1 = control_flow w ∧ log w1 = log w ∧
    (handle_event_loop e w1 = Ok w' ∨ (w1 = w' ∧ e ≠ LoopDestroyed)).
Proof.
  intros Hps. revert w. induction Hps as [|p ps Hp _ IH]; intros w H; simpl in H; [eauto|].
  apply bind_ok in H as ([w1 b] & H1 & H). apply Hp in H1 as (Hc & Hl & Hb). destruct b.
  - injection H as ->. exists w'. split_and!; [done..|]. right. split; [done|]. intros E. by apply Hb in E.
  - apply IH in H as (w2 & Hc2 & Hl2 & H). exists w2. by rewrite Hc2, Hl2.
Qed.

Lemma plugins_advance ps e w w' :
  Forall transparent ps → e ≠ LoopDestroyed → run_plugins ps e w = Ok w' → advance w w'.
Proof.
  intros Hps He H. apply plugins_pass in H as (w1 & Hc & Hl & H); [|done].
  assert (advance w w1) by (apply advance_same; [done|by rewrite Hc]).
  destruct H as [H|[-> _]]; [|done]. eapply advance_trans; [done|by eapply advance_loop].
Qed.

Lemma loop_end ps w w' :
  Forall transparent ps → control_flow w = ExitLoop → run_plugins ps LoopDestroyed w = Ok w' →
  control_flow w' = ExitLoop ∧ ∃ t, log w' = log w ++ [t] ∧ told t = Exit.
Proof.
  intros Hps Hx H. apply plugins_pass in H as (w1 & Hc & Hl & [H|[_ H]]); [|done..].
  unfold handle_event_loop in H. rewrite decide_True in H by congruence.
  apply bind_ok in H as ([s w2] & H1 & H). simplify_eq. apply callback_told in H1 as [Hc' Hl'].
  rewrite Hl', Hl. split; [congruence|]. eauto.
Qed.

(** The decisions of the loop, as an invariant of its runs. *)
Definition decided (s : Phase * World) : Prop :=
  (control_flow s.2 = ExitLoop ↔ ∃ t, t ∈ log s.2 ∧ granted t) ∧
  (∀ t, t ∈ log s.2 → told t = ExitRequested None → open_windows t = 0) ∧
  match s.1 with
  | Running => ∀ t, t ∈ log s.2 → told t ≠ Exit
  | Finished =>
      control_flow s.2 = ExitLoop ∧
      ∃ l t, log s.2 = l ++ [t] ∧ told t = Exit ∧ ∀ t, t ∈ l → told t ≠ Exit
  end.

Lemma decided_advance w w' : decided (Running, w) → advance w w' → decided (Running, w').
Proof.
  intros (Hc & Hn & Hx) (l & Hl & He & Hn' & Hc'). unfold decided in *. simpl in *. rewrite Hl.
  setoid_rewrite elem_of_app. split_and!; [rewrite Hc', Hc|..]; naive_solver.
Qed.

Lemma decided_step ps s s' : Forall transparent ps → decided s → step ps s s' → decided s'.
Proof.
  intros Hps Hd H. destruct H as [e w w' Hx Hn H|m q w w' Hx Hq H|cmd w|cmds c a w H|w w' Hx H].
  - eapply decided_advance, plugins_advance; [done..| |exact H]. by intros ->.
  - eapply decided_advance; [exact Hd|]. eapply advance_trans; [apply advance_context|].
    eapply plugins_advance; [exact Hps| |exact H]; done.
  - eapply decided_advance; [exact Hd|apply advance_context].
  - eapply decided_advance; [exact Hd|]. by apply advance_same.
  - destruct (loop_end ps w w' Hps Hx H) as (Hx' & t & Hl & Ht).
    destruct Hd as (Hc & Hn & He). unfold decided. simpl in *. rewrite Hl. setoid_rewrite elem_of_app.
    setoid_rewrite list_elem_of_singleton. split_and!; [|naive_solver congruence|done|by eauto 10].
    split; [naive_solver|done].
Qed.

(** ** Applications that let the loop end *)

(** The application never panics, makes calls that keep the windows, and does
    not prevent the exit. *)
Definition calm (r : outcome Empty_set (app * Context * list bool)) (c : Context) : Prop :=
  ∃ a' cmds c' sent, r = Ok (a', c', sent) ∧ Forall (λ cmd, tame cmd = true) cmds ∧ run_cmds cmds c = Ok c'.

Record lets_exit : Prop := {
  le_callback e c a : calm (callback e c a) c;
  le_handler h e c a : calm (on_window_handler h e c a) c;
  le_exit code c a a' c' sent : callback (ExitRequested code) c a = Ok (a', c', sent) → sent = [];
}.

Lemma calm_same r c :
  calm r c → ∃ a' c' sent, r = Ok (a', c', sent) ∧ same_windows c c'.
Proof.
  intros (a' & cmds & c' & sent & -> & Ht & Hr). exists a', c', sent. split; [done|].
  destruct (run_all_tame run_cmd cmds c) as (c1 & H1 & Hs).
  - eapply Forall_impl; [exact Ht|]. intros cmd H c0. by apply run_cmd_tame.
  - unfold run_cmds in Hr. rewrite H1 in Hr. by simplify_eq.
Qed.

Section Ends.
Context (LE : lets_exit).

Lemma callback_tame e w :
  ∃ sent w', run_callback e w = Ok (sent, w') ∧ same_windows (context w) (context w') ∧
    control_flow w' = control_flow w ∧ (∀ code, e = ExitRequested code → sent = []).
Proof.
  unfold run_callback.
  destruct (calm_same _ _ (le_callback LE e (context w) (application w))) as (a & c & sent & Hc & Hs).
  rewrite Hc. simpl. eexists _, _. split_and!; [done..|]. intros code ->. by eapply (le_exit LE).
Qed.

Lemma handlers_tame hs e w :
  ∃ sent w', run_window_handlers hs e w = Ok (sent, w') ∧
    same_windows (context w) (context w') ∧ control_flow w' = control_flow w.
Proof.
  revert w. induction hs as [|[i h] hs IH]; intros w; simpl; [by eexists _, w|].
  destruct (calm_same _ _ (le_handler LE h e (context w) (application w))) as (a & c & sent & Hc & Hs).
  rewrite Hc. simpl.
  destruct (IH (mk_world c a (control_flow w) (log w))) as (s & w' & -> & Hs' & Hcf). simpl.
  eexists _, w'. split; [done|]. split; [|done]. by eapply same_trans.
Qed.

Lemma notify_tame win e w :
  ∃ w', notify win e w = Ok w' ∧ same_windows (context w) (context w') ∧ control_flow w' = control_flow w.
Proof.
  unfold notify. destruct (callback_tame (OfWindow (label win) e) w) as (s0 & w1 & -> & H1 & C1 & _). simpl.
  destruct (handlers_tame (handler_order (window_event_listeners win)) e w1) as (s & w2 & -> & H2 & C2). simpl.
  exists w2. split_and!; [done|by eapply same_trans|congruence].
Qed.

Lemma drop_window_windows win c : windows (drop_window win c) = windows c.
Proof. unfold drop_window. rewrite drop_all_windows. by destruct (inner win). Qed.

Lemma drop_window_id_map win c : window_id_map (drop_window win c) = window_id_map c.
Proof.
  unfold drop_window. set (c0 := match inner win with Some t => _ | None => c end).
  assert (window_id_map c0 = window_id_map c) as <- by (unfold c0; by destruct (inner win)).
  generalize c0. induction (webviews win) as [|v vs IH]; intros x; simpl; [done|].
  by rewrite IH, drop_webview_id_map.
Qed.

Lemma drop_window_next win c : next_window_id (drop_window win c) = next_window_id c.
Proof.
  unfold drop_window. set (c0 := match inner win with Some t => _ | None => c end).
  assert (next_window_id c0 = next_window_id c) as <- by (unfold c0; by destruct (inner win)).
  generalize c0. induction (webviews win) as [|v vs IH]; intros x; simpl; [done|].
  by rewrite IH, drop_webview_next.
Qed.

(** A destroyed window leaves the store, and with the last one the loop ends. *)
Lemma destroyed_tame id w :
  is_Some (windows (context w) !! id) →
  ∃ w', on_destroyed id w = Ok w' ∧ dom (windows (context w')) = dom (windows (context w)) ∖ {[id]} ∧
    window_id_map (context w') = window_id_map (context w) ∧
    (windows (context w') = ∅ → control_flow w' = ExitLoop) ∧
    (control_flow w = ExitLoop → control_flow w' = ExitLoop).
Proof.
  intros [win Hw]. unfold on_destroyed. rewrite Hw. cbv zeta. simpl.
  set (w1 := set_context _ w).
  assert (windows (context w1) = delete id (windows (context w))) as Hws by (simpl; by rewrite drop_window_windows).
  assert (window_id_map (context w1) = window_id_map (context w)) as Hm by (simpl; by rewrite drop_window_id_map).
  rewrite drop_window_windows. simpl. case_decide as He.
  - unfold request_exit. destruct (callback_tame (ExitRequested None) w1) as (sent & w2 & -> & Hs & Hc & Hx).
    pose proof (same_dom _ _ Hs) as Hd. destruct Hs as (_ & Hi & _).
    rewrite (Hx None) by done. simpl. eexists. split; [done|]. simpl.
    rewrite Hd, Hi, Hws, Hm, dom_delete_L. done.
  - exists w1. split; [done|]. rewrite Hws, Hm, dom_delete_L. done.
Qed.

Lemma destroyed_event_tame t id w :
  window_id_map (context w) !! t = Some id → is_Some (windows (context w) !! id) →
  ∃ w', handle_event_loop (TaoWindowEvent_ t TDestroyed) w = Ok w' ∧
    dom (windows (context w')) = dom (windows (context w)) ∖ {[id]} ∧
    window_id_map (context w') = window_id_map (context w) ∧
    (windows (context w') = ∅ → control_flow w' = ExitLoop) ∧
    (control_flow w = ExitLoop → control_flow w' = ExitLoop).
Proof.
  intros Ht Hw. unfold handle_event_loop. set (w0 := if decide _ then w else _).
  assert (context w0 = context w ∧ (control_flow w = ExitLoop → control_flow w0 = ExitLoop)) as [Hc0 Hf0].
  { unfold w0. by case_decide. }
  unfold on_window_event. rewrite Hc0, Ht. destruct Hw as [win Hw]. rewrite Hw. simpl.
  destruct (notify_tame win Destroyed w0) as (w1 & -> & Hs & Hf). simpl.
  pose proof (same_dom _ _ Hs) as Hd. destruct Hs as (_ & Hi & _). rewrite Hc0 in Hd, Hi.
  destruct (destroyed_tame id w1) as (w2 & H2 & Hd2 & Hi2 & He & Hx).
  { apply elem_of_dom. rewrite Hd. by apply elem_of_dom_2 in Hw. }
  exists w2. rewrite Hd2, Hi2, Hd, Hi. split_and!; [done..|]. intros Hx0. apply Hx. rewrite Hf. auto.
Qed.

(** The event of a window that is gone changes nothing. *)
Lemma destroyed_event_stale t w :
  window_id_map (context w) !! t ≫= (λ id, windows (context w) !! id) = None →
  ∃ w', handle_event_loop (TaoWindowEvent_ t TDestroyed) w = Ok w' ∧ context w' = context w ∧
    (control_flow w = ExitLoop → control_flow w' = ExitLoop).
Proof.
  intros Ht. unfold handle_event_loop. set (w0 := if decide _ then w else _).
  assert (context w0 = context w ∧ (control_flow w = ExitLoop → control_flow w0 = ExitLoop)) as [Hc0 Hf0].
  { unfold w0. by case_decide. }
  exists w0. split; [|done]. unfold on_window_event. rewrite Hc0.
  destruct (window_id_map (context w) !! t) as [id|]; [|done]. simpl in Ht. rewrite Ht. simpl.
  unfold on_destroyed. by rewrite Hc0, Ht.
Qed.

End Ends.

(** The events of a run, as the loop gets them when no runtime plugin is
    registered. *)
Fixpoint run_events (es : list Event) (w : World) : outcome Empty_set World :=
  match es with
  | [] => Ok w
  | e :: es => w ← run_plugins [] e w; run_events es w
  end.

Definition destroyed_events (ts : list tao_id) : list Event := (λ t, TaoWindowEvent_ t TDestroyed) <$> ts.

(** Every open window is one of those that are destroyed. *)
Definition covered (ts : list tao_id) (c : Context) : Prop :=
  ∀ id, is_Some (windows c !! id) → ∃ t, t ∈ ts ∧ window_id_map c !! t = Some id.

Lemma destroy_all ts w :
  lets_exit → covered ts (context w) → (windows (context w) = ∅ → control_flow w = ExitLoop) →
  ∃ w', run_events (destroyed_events ts) w = Ok w' ∧ windows (context w') = ∅ ∧ control_flow w' = ExitLoop.
Proof.
  intros LE. revert w. induction ts as [|t ts IH]; intros w Hcov He.
  - exists w. split; [done|]. assert (windows (context w) = ∅) as Hw; [|auto].
    apply map_empty. intros id. destruct (windows (context w) !! id) eqn:Hid; [|done].
    destruct (Hcov id) as (t & Ht & _); [eauto|]. by apply not_elem_of_nil in Ht.
  - cbn [destroyed_events fmap list_fmap run_events run_plugins].
    destruct (window_id_map (context w) !! t ≫= (λ id, windows (context w) !! id)) as [win|] eqn:Hs.
    + apply bind_Some in Hs as (id & Ht & Hid). destruct (destroyed_event_tame LE t id w Ht) as (w1 & -> & Hd & Hi & He1 & _); [eauto|]. simpl.
      apply IH; [|done]. intros i Hi'. apply elem_of_dom in Hi'. rewrite Hd in Hi'.
      apply elem_of_difference in Hi' as [Hi' Hne]. apply elem_of_dom in Hi'. rewrite Hi.
      destruct (Hcov i Hi') as (t' & [->|Ht']%elem_of_cons & Hm); [|eauto].
      rewrite Ht in Hm. simplify_eq. set_solver.
    + destruct (destroyed_event_stale t w Hs) as (w1 & -> & Hc & Hx). simpl.
      apply IH; rewrite Hc; [|auto]. intros i Hi.
      destruct (Hcov i Hi) as (t' & [->|Ht']%elem_of_cons & Hm); [|eauto].
      rewrite Hm in Hs. simpl in Hs. destruct Hi. congruence.
Qed.

(** What a close request decides. *)
Lemma close_request_spec id w w' win :
  windows (context w) !! id = Some win → on_close_requested id w = Ok w' →
  ∃ sent sent' w1 w2,
    run_window_handlers (handler_order (window_event_listeners win)) CloseRequested w = Ok (sent, w1) ∧
    run_callback (OfWindow (label win) CloseRequested) w1 = Ok (sent', w2) ∧
    (head (sent ++ sent') = Some true → w' = w2) ∧
    (head (sent ++ sent') ≠ Some true →
       dom (windows (context w')) = dom (windows (context w2)) ∧
       windows (context w') !! id ≫= inner = None ∧
       (∀ i, i ≠ id → windows (context w') !! i = windows (context w2) !! i) ∧
       (∀ t, windows (context w2) !! id ≫= inner = Some t → native (context w') = native (context w2) ++ [DropWindow t])).
Proof.
  intros Hw H. unfold on_close_requested in H. rewrite Hw in H.
  apply bind_ok in H as ([sent w1] & H1 & H). apply bind_ok in H as ([sent' w2] & H2 & H).
  exists sent, sent', w1, w2. split_and!; [done..| |].
  - intros Hs. rewrite Hs in H. by simplify_eq.
  - intros Hs. assert (w' = set_context (on_window_close id (context w2)) w2) as ->.
    { destruct (head (sent ++ sent')) as [[]|]; by simplify_eq. }
    simpl. unfold on_window_close. destruct (windows (context w2) !! id) as [x|] eqn:Hx; simpl.
    + assert (windows (match inner x with Some t => call (DropWindow t) (context w2) | None => context w2 end) =
        windows (context w2)) as Hws by (by destruct (inner x)).
      rewrite Hws, lookup_insert_eq, dom_insert_lookup_L by eauto. split_and!; [done..| |].
      * intros i Hi. by rewrite lookup_insert_ne.
      * by intros t ->.
    + rewrite Hx. done.
Qed.

End Loop.

(** ** Properties *)
Section Properties.
Context {RTy : RuntimeTypes} {NA : Native} {AC : AppCode}.

(** C8. The loop exits only when asked to: in every run that starts with nothing
    told and no exit decided, under runtime plugins that set no control flow,
    tell the application nothing themselves and do not keep the end of the loop
    back, the control flow is to exit exactly when the application was told of a
    request and sent nothing back, a request without a code comes only when the
    last window is gone, and the application is told the end once, as the last
    event, after such a request. *)
Theorem exit_is_requested plugins w0 ph w :
  Forall transparent plugins → log w0 = [] → control_flow w0 ≠ ExitLoop →
  rtc (step plugins) (Running, w0) (ph, w) → decided (ph, w).
Proof.
  intros Hps Hl Hx H.
  assert (decided (Running, w0)) as Hd.
  { unfold decided. simpl. rewrite Hl. split_and!; [|by intros ? ?%not_elem_of_nil..].
    split; [done|]. by intros (? & ?%not_elem_of_nil & _). }
  remember (Running, w0) as s0 eqn:E. clear E. remember (ph, w) as s eqn:E. clear E.
  induction H as [|s0 s1 s Hs _ IH]; [done|]. apply IH. by eapply decided_step.
Qed.

(** C16. Closing the last window ends the loop: if the application opens no
    further windows and does not prevent the exit, and no runtime plugin is
    registered, then once [tao] reported
    every window destroyed, in any order, no window is left and the loop is to
    exit. *)
Theorem loop_ends_with_windows ts w :
  lets_exit → windows (context w) ≠ ∅ → covered ts (context w) →
  ∃ w', run_events (destroyed_events ts) w = Ok w' ∧ windows (context w') = ∅ ∧ control_flow w' = ExitLoop.
Proof. intros LE Hne Hcov. by apply destroy_all. Qed.

(** A window closes unless this is prevented: when the first message sent
    by the listeners of the window, or else by the application, is [true], the
    request changes no window beyond what they did themselves; otherwise the
    native window is dropped, and only the [Destroyed] event that follows
    removes the window. *)
Theorem close_request_decides id w w' win :
  windows (context w) !! id = Some win → on_close_requested id w = Ok w' →
  ∃ sent sent' w1 w2,
    run_window_handlers (handler_order (window_event_listeners win)) CloseRequested w = Ok (sent, w1) ∧
    run_callback (OfWindow (label win) CloseRequested) w1 = Ok (sent', w2) ∧
    (head (sent ++ sent') = Some true → w' = w2) ∧
    (head (sent ++ sent') ≠ Some true →
       dom (windows (context w')) = dom (windows (context w2)) ∧
       windows (context w') !! id ≫= inner = None ∧
       (∀ i, i ≠ id → windows (context w') !! i = windows (context w2) !! i) ∧
       (∀ t, windows (context w2) !! id ≫= inner = Some t → native (context w') = native (context w2) ++ [DropWindow t])).
Proof. apply close_request_spec. Qed.

End Properties.

(** ** Examples *)
#[local] Existing Instance Runtime.ex_types.
#[local] Existing Instance Runtime.ex_good.

(** An application that counts its events and keeps the window "other" open. *)
#[local] Instance ex_app : AppCode := {|
  app := nat;
  callback e c n :=
    Ok (S n, c, match e with OfWindow l CloseRequested => if decide (l = "other") then [true] else [] | _ => [] end);
  on_window_handler _ _ c n := Ok (n, c, []);
  on_webview_handler _ _ c n := Ok (n, c, []);
|}.

Definition ex_world (c : Context) : World := mk_world c 0 Wait [].
Definition ex_main : World := ex_world (default init (ok (Runtime.ex_window ex_good "main" init))).
Definition ex_windows : World := ex_world Runtime.ex_two.

Definition ex_after (r : outcome Empty_set World) : World := match r with Ok w => w | _ => ex_main end.
Definition ex_destroyed : World := ex_after (run_plugins [] (TaoWindowEvent_ (0%N : @tao_id ex_types) TDestroyed) ex_main).
Definition ex_finished : World := ex_after (run_plugins [] LoopDestroyed ex_destroyed).

Lemma exit_is_requested_witness :
  decided (Finished, ex_finished) ∧
  (told <$> log ex_finished) = [OfWindow "main" Destroyed; ExitRequested None; Exit].
Proof.
  split; [|vm_compute; reflexivity].
  apply (exit_is_requested [] ex_main Finished ex_finished); [constructor|reflexivity|discriminate|].
  apply (rtc_l _ _ (Running, ex_destroyed)).
  - apply (step_native [] (TaoWindowEvent_ (0%N : @tao_id ex_types) TDestroyed));
      [discriminate|exact I|vm_compute; reflexivity].
  - apply rtc_once. apply step_end; vm_compute; reflexivity.
Defined.

Lemma ex_lets_exit : lets_exit.
Proof.
  constructor; simpl.
  - intros e c n. eexists _, [], _, _. split; [done|]. split; [constructor|done].
  - intros h e c n. eexists _, [], _, _. split; [done|]. split; [constructor|done].
  - intros code c a a' c' sent H. by simplify_eq.
Qed.

Definition ex_ids : list (@tao_id ex_types) := [1%N; 0%N].

Lemma loop_ends_with_windows_witness :
  ∃ w, run_events (destroyed_events ex_ids) ex_windows = Ok w ∧ windows (context w) = ∅ ∧ control_flow w = ExitLoop.
Proof.
  apply (loop_ends_with_windows ex_ids ex_windows ex_lets_exit).
  - intros H. apply (f_equal (λ m : gmap N WindowWrapper, m !! 0%N)) in H. vm_compute in H. discriminate H.
  - intros id [win Hid]. destruct (decide (id = 0%N)) as [->|H0]; [exists 0%N|].
    { split; [right; left|vm_compute; reflexivity]. }
    destruct (decide (id = 1%N)) as [->|H1]; [exists 1%N|].
    { split; [left|vm_compute; reflexivity]. }
    exfalso. assert (windows (context ex_windows) = {[0%N := Runtime.ex_win "main" 0 0%N; 1%N := Runtime.ex_win "other" 1 1%N]})
      as Hw by (vm_compute; reflexivity).
    rewrite Hw, lookup_insert_ne, lookup_singleton_ne in Hid by done. discriminate Hid.
Defined.

Lemma close_request_decides_witness :
  let w := ex_after (on_close_requested 0 ex_windows) in
  on_close_requested 0 ex_windows = Ok w ∧ windows (context w) !! 0%N ≫= inner = None.
Proof.
  intros w. assert (on_close_requested 0 ex_windows = Ok w) as H by (vm_compute; reflexivity).
  split; [exact H|].
  destruct (close_request_decides 0 ex_windows w (Runtime.ex_win "main" 0 0%N)) as (s & s' & w1 & w2 & H1 & H2 & _ & Hf);
    [vm_compute; reflexivity|exact H|].
  assert (run_window_handlers (handler_order (window_event_listeners (Runtime.ex_win "main" 0 0%N))) CloseRequested
    ex_windows = Ok ([], ex_windows)) as E1 by (vm_compute; reflexivity).
  rewrite E1 in H1. injection H1 as <- <-.
  assert (fst <$> run_callback (OfWindow "main" CloseRequested) ex_windows = Ok []) as E2 by (vm_compute; reflexivity).
  change (label (Runtime.ex_win "main" 0 0%N)) with "main" in H2. rewrite H2 in E2. injection E2 as ->.
  apply Hf. discriminate.
Defined.

End EventLoop.
