(* ===== verification/Windows.v ===== *)
(** * Windows and webviews of the application

    Models the maps of windows and webviews that the application keeps over the
    runtime: [tauri/Source/manager/window.rs], [manager/webview.rs] and
    [manager/mod.rs], the builders of [window/mod.rs] and [webview/mod.rs], the
    labels of [tauri-runtime/Source/window.rs], and the callback of
    [tauri/Source/app.rs] that connects them to the event loop. The properties
    relate the maps of the application to the store of the runtime. *)
From S2P Require Import Prelude Listeners Runtime EventLoop.
Import Messages Runtime Events EventLoop.

(** Why a webview is refused besides its label: a data url, a directory that
    cannot be made, or a script that cannot be rendered. *)
Inductive Refusal := InvalidWebviewUrl (text : string) | Io | RenderError.

(** The closures the manager gives to the runtime for a label, and the code of
    the plugins that it runs on the main thread. *)
Class ManagerHooks {RTy : RuntimeTypes} := {
  window_listener : string → window_handler;
  webview_listener : string → webview_handler;
  window_created : string → list Cmd;
  webview_created : string → list Cmd;
  (** the directory of the application in [BaseDirectory::LocalData] *)
  local_data_dir : option string;
  (** the label a listener was made for *)
  listener_label : window_handler → option string;
  webview_listener_label : webview_handler → option string;
  path_is_file : string → bool;
  (** the feature [protocol-asset], and the scheme of the isolation pattern *)
  asset_protocol : bool;
  isolation_schema : option string;
  (** the preparation of the other attributes, which may refuse the webview; it
      gets the label of the webview and of the window, and the data directory *)
  prepare_attributes : string → string → option string → attributes → outcome Refusal attributes;
}.

Module Windows.

Section Manager.
Context {RTy : RuntimeTypes} {NA : Native} {U : UnicodeTables} {MH : ManagerHooks}.

(** ** Labels *)
Definition is_label_valid (label : string) : bool :=
  forallb (λ c, Listeners.is_alphanumeric c || (c =? 45)%N || (c =? 47)%N || (c =? 58)%N || (c =? 95)%N)
    (Listeners.chars (String.length label) (bytes label)).

(** ** State *)
Record Window := mk_win {
  w_label : string;
  w_id : WindowId;
}.

(** The window of a webview is shared by its clones. *)
Record Webview := mk_web {
  v_label : string;
  v_window : Window;
  v_dispatcher : WebviewDispatcher;
}.

Record Manager := mk_manager {
  m_windows : gmap string Window;
  m_webviews : gmap string Webview;
  (** the schemes that the application registered *)
  m_protocols : list string;
  (** the events emitted to all, with the label they carry *)
  m_emitted : list (string * string);
}.

Inductive Error :=
| InvalidWindowLabel
| WindowLabelAlreadyExists (label : string)
| WebviewLabelAlreadyExists (label : string)
| CannotReparentWebviewWindow
| Refused (r : Refusal)
| RuntimeError (e : Runtime.Error).

Definition set_wins (f : gmap string Window → gmap string Window) (m : Manager) : Manager :=
  mk_manager (f (m_windows m)) (m_webviews m) (m_protocols m) (m_emitted m).
Definition set_webs (f : gmap string Webview → gmap string Webview) (m : Manager) : Manager :=
  mk_manager (m_windows m) (f (m_webviews m)) (m_protocols m) (m_emitted m).
Definition emit (event label : string) (m : Manager) : Manager :=
  mk_manager (m_windows m) (m_webviews m) (m_protocols m) (m_emitted m ++ [(event, label)]).

(** A call returns a result, with the manager and the runtime after it. *)
Abbreviation MRes A := (outcome Empty_set (outcome Error A * Manager * Context)).

(** ** Windows *)
Definition PendingWindow_new (label : string) : outcome Error string :=
  if negb (is_label_valid label) then Err InvalidWindowLabel else Ok label.

Definition prepare_window (label : string) (m : Manager) : outcome Error string :=
  if decide (is_Some (m_windows m !! label)) then Err (WindowLabelAlreadyExists label) else Ok label.

Definition attach_window (label : string) (id : WindowId) (m : Manager) (c : Context)
    : outcome Empty_set (Window * Manager * Context) :=
  let window := mk_win label id in
  c ← run_cmd (OnWindowEvent id (window_listener label)) c;
  let m := set_wins (<[label := window]>) m in
  c ← run_cmd (RunOnMainThread (window_created label)) c;
  Ok (window, m, c).

(** The webviews of a window, in the order of the map. *)
Definition window_webviews (label : string) (m : Manager) : list Webview :=
  filter (λ v, w_label (v_window v) = label) (map_to_list (m_webviews m)).*2.

Definition is_webview_window (window : Window) (m : Manager) : bool :=
  forallb (λ v, bool_decide (v_label v = w_label window)) (window_webviews (w_label window) m).

(** ** Webviews *)
Definition add_unless (scheme : string) (registered : list string) : list string :=
  if decide (scheme ∈ registered) then registered else registered ++ [scheme].

(** The schemes of a webview. Those of the application come first, then the
    schemes of tauri that it did not register. *)
Definition scheme_protocols (registered : list string) : list string :=
  let registered := add_unless "ipc" (add_unless "tauri" registered) in
  let registered := if asset_protocol then add_unless "asset" registered else registered in
  match isolation_schema with Some schema => add_unless schema registered | None => registered end.

Definition prepare_webview (pending : PendingWebview) (window_label : string) (m : Manager)
    : outcome Error PendingWebview :=
  if decide (is_Some (m_webviews m !! pw_label pending)) then Err (WebviewLabelAlreadyExists (pw_label pending))
  else
    let dir := match data_directory pending with Some d => Some d | None => local_data_dir end in
    a ← map_err Refused (prepare_attributes (pw_label pending) window_label dir (pw_attributes pending));
    Ok (mk_pending_webview (pw_label pending) dir (proxy_url pending) (scheme_protocols (m_protocols m))
          (pw_bounds pending) (auto_resize pending) (pw_drag_drop pending) a).

Definition into_pending_webview (pending : PendingWebview) (window_label : string) (m : Manager)
    : outcome Error PendingWebview :=
  if negb (is_label_valid (pw_label pending)) then Err InvalidWindowLabel
  else prepare_webview pending window_label m.

Definition attach_webview (window : Window) (label : string) (d : WebviewDispatcher) (m : Manager) (c : Context)
    : outcome Empty_set (Webview * Manager * Context) :=
  let webview := mk_web label window d in
  c ← run_cmd (OnWebviewEvent d (webview_listener label)) c;
  let m := set_webs (<[label := webview]>) m in
  c ← run_cmd (RunOnMainThread (webview_created label)) c;
  Ok (webview, emit "tauri://webview-created" label m, c).

(** ** Builders *)

(** The cell and the id of a webview that was just created. *)
Definition last_dispatcher (v : WebviewId) (c : Context) : WebviewDispatcher :=
  mk_dispatcher (N.of_nat (length (cells c) - 1)) v.

Definition build_internal (label : string) (handler : list Cmd) (webview : option PendingWebview) (m : Manager)
    (c : Context) : MRes Window :=
  match (label ← PendingWindow_new label; prepare_window label m) with
  | Ok label =>
      let w := next_window_id c in
      let v := next_webview_id c in
      c ← run_cmd (CreateWindow_ label handler webview) c;
      let d := last_dispatcher v c in
      '(window, m, c) ← attach_window label w m c;
      '(m, c) ← match webview with
                | Some p => '(_, m, c) ← attach_webview window (pw_label p) d m c; Ok (m, c)
                | None => Ok (m, c)
                end;
      Ok (Ok window, emit "tauri://window-created" label m, c)
  | Err e => Ok (Err e, m, c)
  | _ => Ok (Err InvalidWindowLabel, m, c)
  end.

(** [WebviewWindowBuilder::build]. *)
Definition with_webview (label : string) (handler : list Cmd) (webview : PendingWebview) (m : Manager) (c : Context)
    : MRes (Window * Webview) :=
  match into_pending_webview webview label m with
  | Ok pending =>
      '(r, m, c) ← build_internal label handler (Some pending) m c;
      match r with
      | Ok window =>
          v ← expect (head (window_webviews (w_label window) m)) "called `Option::unwrap()` on a `None` value";
          Ok (Ok (window, v), m, c)
      | Err e => Ok (Err e, m, c)
      | _ => Ok (Err InvalidWindowLabel, m, c)
      end
  | Err e => Ok (Err e, m, c)
  | _ => Ok (Err InvalidWindowLabel, m, c)
  end.

(** [Window::add_child]. *)
Definition add_child (window : Window) (webview : PendingWebview) (m : Manager) (c : Context) : MRes Webview :=
  match into_pending_webview webview (w_label window) m with
  | Ok pending =>
      let v := next_webview_id c in
      let d := mk_dispatcher (N.of_nat (length (cells c))) v in
      c ← run_cmd (CreateWebview_ (w_id window) pending) c;
      '(v, m, c) ← attach_webview window (pw_label pending) d m c;
      Ok (Ok v, m, c)
  | Err e => Ok (Err e, m, c)
  | _ => Ok (Err InvalidWindowLabel, m, c)
  end.

(** ** Closing and moving *)
Definition on_webview_close (label : string) (m : Manager) : Manager := set_webs (delete label) m.

Definition on_window_close (label : string) (m : Manager) : Manager :=
  match m_windows m !! label with
  | Some _ =>
      let m := set_wins (delete label) m in
      foldl (λ m v, on_webview_close (v_label v) m) m (window_webviews label m)
  | None => m
  end.

Definition webview_close (v : Webview) (m : Manager) (c : Context) : outcome Empty_set (Manager * Context) :=
  c ← run_cmd (CloseWebview (v_dispatcher v)) c;
  Ok (on_webview_close (v_label v) m, c).

(** The dispatcher's answer to a move. *)
Definition dispatch_reparent (d : WebviewDispatcher) (w : WindowId) (c : Context)
    : outcome Empty_set (outcome Runtime.Error () * Context) :=
  c' ← run_cmd (Reparent_ d w) c;
  Ok (match replies c' !! next_tx c with
      | Some ROk => Ok ()
      | Some (RErr e) => Err e
      | _ => Err FailedToReceiveMessage
      end, c').

Definition set_window (window : Window) (v : Webview) : Webview := mk_web (v_label v) window (v_dispatcher v).

Definition reparent (v : Webview) (window : Window) (m : Manager) (c : Context) : MRes () :=
  if negb unstable && (is_webview_window (v_window v) m || is_webview_window window m)
  then Ok (Err CannotReparentWebviewWindow, m, c)
  else
    let m := set_webs (alter (set_window window) (v_label v)) m in
    '(r, c) ← dispatch_reparent (v_dispatcher v) (w_id window) c;
    Ok (map_err RuntimeError r, m, c).

(** ** Events of windows *)

(** Whom an event of a window or webview is emitted to. *)
Inductive Reach := ToWindow (label : string) | ToWebview (label : string) | ToLabel (label : string).

Definition reach_filter (to : Reach) (t : Listeners.EventTarget) : bool :=
  match to, t with
  | ToWindow l, (Listeners.Window l' | Listeners.WebviewWindow l') => bool_decide (l' = l)
  | ToWebview l, (Listeners.Webview l' | Listeners.WebviewWindow l') => bool_decide (l' = l)
  | ToLabel l, (Listeners.Window l' | Listeners.Webview l' | Listeners.WebviewWindow l' | Listeners.AnyLabel l') =>
      bool_decide (l' = l)
  | _, _ => false
  end.

Inductive Effect :=
| Emit (event : string) (to : Reach)
| AllowFile (path : string)
| AllowDirectory (path : string) (recursive : bool).

Definition drop_effects (recursive : bool) (paths : list string) : list Effect :=
  (λ path, if path_is_file path then AllowFile path else AllowDirectory path recursive) <$> paths.

Definition drag_name (e : DragDropEvent) : string :=
  match e with
  | Enter _ _ => "tauri://drag-enter"
  | Over _ => "tauri://drag-over"
  | Drop _ _ => "tauri://drag-drop"
  | Leave => "tauri://drag-leave"
  end.

Definition drag_paths (e : DragDropEvent) : list string := match e with Drop paths _ => paths | _ => [] end.

(** [Window::has_js_listener]. *)
Definition has_js_listener (label event : string) (js : Listeners.Listeners ()) : bool :=
  Listeners.has_js_listener event (reach_filter (ToWindow label)) js.

(** The listener of the manager: what it does, and whether it prevents closing. *)
Definition on_window_event (label : string) (e : WindowEvent) (m : Manager) (js : Listeners.Listeners ())
    : list Effect * list bool :=
  let emit_to_window event := [Emit event (ToWindow label)] in
  match e with
  | Resized _ => (emit_to_window "tauri://resize", [])
  | Moved _ => (emit_to_window "tauri://move", [])
  | CloseRequested =>
      (emit_to_window "tauri://close-requested",
       if has_js_listener label "tauri://close-requested" js then [true] else [])
  | Destroyed => (emit_to_window "tauri://destroyed", [])
  | Focused focused => (emit_to_window (if focused : bool then "tauri://focus" else "tauri://blur"), [])
  | ScaleFactorChanged _ _ => (emit_to_window "tauri://scale-change", [])
  | DragDrop event =>
      (drop_effects true (drag_paths event) ++
         (if forallb (λ v, bool_decide (v_label v = label)) (window_webviews label m)
          then [Emit (drag_name event) (ToLabel label)]
          else emit_to_window (drag_name event)), [])
  | ThemeChanged _ => (emit_to_window "tauri://theme-changed", [])
  end.

Definition on_webview_event (label : string) (e : WebviewEvent) : list Effect :=
  match e with
  | WvDragDrop event => drop_effects false (drag_paths event) ++ [Emit (drag_name event) (ToWebview label)]
  end.

End Manager.

(** ** The application *)

(** The code of the user: what the plugins and the callback of [App::run] do for
    an event, and the global window listeners. *)
Class UserCode {RTy : RuntimeTypes} := {
  user : Type;
  plugins_on_event : RunEvent → Manager → Context → user → outcome Empty_set (user * Manager * Context * list bool);
  user_callback : RunEvent → Manager → Context → user → outcome Empty_set (user * Manager * Context * list bool);
  user_listener : window_handler → WindowEvent → Manager → Context → user →
    outcome Empty_set (user * Manager * Context * list bool);
  user_webview_listener : webview_handler → WebviewEvent → Manager → Context → user →
    outcome Empty_set (user * Manager * Context * list bool);
  user_setup : Manager → Context → user → outcome Empty_set (outcome string () * user * Manager * Context);
}.

Section Application.
Context {RTy : RuntimeTypes} {NA : Native} {U : UnicodeTables} {MH : ManagerHooks} {UC : UserCode}.

Record AppState := mk_app {
  manager : Manager;
  js_listeners : Listeners.Listeners ();
  effects : list Effect;
  user_state : user;
  ran_setup : bool;
  (** the windows of the configuration that are to be created, with their webview *)
  window_configs : list (string * PendingWebview);
  (** the resource tables were cleared *)
  cleaned : bool;
}.

Definition set_manager (m : Manager) (u : user) (a : AppState) : AppState :=
  mk_app m (js_listeners a) (effects a) u (ran_setup a) (window_configs a) (cleaned a).

(** [cleanup_before_exit] clears the tables of resources. *)
Definition cleanup_before_exit (a : AppState) : AppState :=
  mk_app (manager a) (js_listeners a) (effects a) (user_state a) (ran_setup a) (window_configs a) true.

(** The windows of the configuration are created in order; the first error ends
    the setup. *)
Fixpoint setup_windows (l : list (string * PendingWebview)) (m : Manager) (c : Context)
    : outcome Empty_set (outcome Error () * Manager * Context) :=
  match l with
  | [] => Ok (Ok (), m, c)
  | (label, webview) :: l =>
      '(r, m, c) ← with_webview label [] webview m c;
      match r with
      | Ok _ => setup_windows l m c
      | Err e => Ok (Err e, m, c)
      | _ => Ok (Err InvalidWindowLabel, m, c)
      end
  end.

Definition setup (c : Context) (a : AppState) : outcome Empty_set (AppState * Context) :=
  let a := mk_app (manager a) (js_listeners a) (effects a) (user_state a) true (window_configs a) (cleaned a) in
  '(r, m, c) ← setup_windows (window_configs a) (manager a) c;
  match r with
  | Ok _ =>
      '(r, u, m, c) ← user_setup m c (user_state a);
      match r with
      | Ok _ => Ok (set_manager m u a, c)
      | _ => Panic "Failed to setup app"
      end
  | _ => Panic "Failed to setup app"
  end.

(** A closed window leaves the manager before the plugins see the event. *)
Definition on_event_loop_event (e : RunEvent) (c : Context) (a : AppState)
    : outcome Empty_set (AppState * Context * list bool) :=
  let m := match e with
           | OfWindow label Destroyed => on_window_close label (manager a)
           | _ => manager a
           end in
  '(u, m, c, sent) ← plugins_on_event e m c (user_state a);
  Ok (set_manager m u a, c, sent).

(** The callback of [App::run]. *)
Definition run_callback_of_app (e : RunEvent) (c : Context) (a : AppState)
    : outcome Empty_set (AppState * Context * list bool) :=
  '(a, c) ← match e with Ready => setup c a | _ => Ok (a, c) end;
  '(a, c, sent) ← on_event_loop_event e c a;
  '(u, m, c, sent') ← user_callback e (manager a) c (user_state a);
  let a := set_manager m u a in
  Ok (match e with Exit => cleanup_before_exit a | _ => a end, c, sent ++ sent').

(** The listener of the manager runs before the listeners of the user. *)
Definition app_window_handler (h : window_handler) (e : WindowEvent) (c : Context) (a : AppState)
    : outcome Empty_set (AppState * Context * list bool) :=
  let '(effs, sent) := match listener_label h with
                       | Some l => on_window_event l e (manager a) (js_listeners a)
                       | None => ([], [])
                       end in
  let a := mk_app (manager a) (js_listeners a) (effects a ++ effs) (user_state a) (ran_setup a) (window_configs a)
             (cleaned a) in
  '(u, m, c, sent') ← user_listener h e (manager a) c (user_state a);
  Ok (set_manager m u a, c, sent ++ sent').

Definition app_webview_handler (h : webview_handler) (e : WebviewEvent) (c : Context) (a : AppState)
    : outcome Empty_set (AppState * Context * list bool) :=
  let effs := match webview_listener_label h with Some l => on_webview_event l e | None => [] end in
  let a := mk_app (manager a) (js_listeners a) (effects a ++ effs) (user_state a) (ran_setup a) (window_configs a)
             (cleaned a) in
  '(u, m, c, sent) ← user_webview_listener h e (manager a) c (user_state a);
  Ok (set_manager m u a, c, sent).

#[global] Instance tauri_app : AppCode := {|
  app := AppState;
  callback := run_callback_of_app;
  on_window_handler := app_window_handler;
  on_webview_handler := app_webview_handler;
|}.

End Application.

(** ** The manager and the runtime agree *)

(** The windows of the manager are those of the runtime, under the same labels;
    every webview is in a window of the manager. *)
Record linked (m : Manager) {RTy : RuntimeTypes} (c : Context) : Prop := {
  l_window l w : m_windows m !! l = Some w → w_label w = l ∧ label <$> windows c !! w_id w = Some l;
  l_store id l : label <$> windows c !! id = Some l → m_windows m !! l = Some (mk_win l id);
  l_webview l v : m_webviews m !! l = Some v → v_label v = l ∧ m_windows m !! w_label (v_window v) = Some (v_window v);
  l_ids id : is_Some (windows c !! id) → (id < next_window_id c)%N;
}.

Section Links.
Context {RTy : RuntimeTypes} {NA : Native} {U : UnicodeTables} {MH : ManagerHooks}.

Lemma linked_same m c c' : linked m c → same_windows c c' → linked m c'.
Proof.
  intros [Hw Hs Hv Hi] Hc. constructor.
  - intros l w H. rewrite (same_lookup _ _ _ Hc). by apply Hw.
  - intros id l. rewrite (same_lookup _ _ _ Hc). apply Hs.
  - apply Hv.
  - intros id H. apply elem_of_dom in H. rewrite (same_dom _ _ Hc) in H. destruct Hc as (_ & _ & ->).
    apply Hi. by apply elem_of_dom.
Qed.

(** The map of a new webview, and of a new window. *)
Lemma linked_add_webview m c l window d :
  linked m c → m_windows m !! w_label window = Some window →
  linked (set_webs (<[l := mk_web l window d]>) m) c.
Proof.
  intros [Hw Hs Hv Hi] Hwin. constructor; [done..| |done]. intros l' v. simpl.
  rewrite lookup_insert_Some. intros [[<- <-]|[_ H]]; [done|by apply Hv].
Qed.

Lemma linked_add_window m c c' lb :
  linked m c → m_windows m !! lb = None → (next_window_id c + 1 < 2 ^ 32)%N →
  label <$> windows c' = <[next_window_id c := lb]> (label <$> windows c) →
  next_window_id c' = next (next_window_id c) →
  linked (set_wins (<[lb := mk_win lb (next_window_id c)]>) m) c'.
Proof.
  intros [Hw Hs Hv Hi] Hlb Hn Hl Hn'. set (id0 := next_window_id c) in *.
  assert (next id0 = id0 + 1)%N as Hnext.
  { unfold next, wrapping_u32. rewrite Z.mod_small by lia. lia. }
  assert (∀ id, label <$> windows c' !! id = if decide (id = id0) then Some lb else label <$> windows c !! id) as Hlk.
  { intros id. rewrite <- lookup_fmap, Hl. case_decide as Hd; [subst; by rewrite lookup_insert_eq|].
    by rewrite lookup_insert_ne, lookup_fmap. }
  assert (windows c !! id0 = None) as Hfree.
  { apply eq_None_not_Some. intros Hx. apply Hi in Hx. lia. }
  constructor; simpl.
  - intros l w. rewrite lookup_insert_Some. intros [[<- <-]|[Hne H]].
    + simpl. split; [done|]. by rewrite Hlk, decide_True.
    + apply Hw in H as [? H]. split; [done|]. rewrite Hlk. case_decide as Hd; [|done].
      rewrite Hd, Hfree in H. done.
  - intros id l. rewrite Hlk. case_decide as Hd; [intros [= <-]; subst; by rewrite lookup_insert_eq|].
    intros H. apply Hs in H. rewrite lookup_insert_ne; [done|]. intros <-. congruence.
  - intros l v H. apply Hv in H as [? H]. split; [done|]. rewrite lookup_insert_ne; [done|]. intros Heq.
    rewrite <- Heq in H. congruence.
  - intros id Hid. rewrite Hn', Hnext. assert (is_Some (label <$> windows c' !! id)) as Hx by (by apply fmap_is_Some).
    rewrite Hlk in Hx. case_decide as Hd; [lia|]. apply fmap_is_Some in Hx. apply Hi in Hx. lia.
Qed.

(** Closing a window removes it with its webviews. *)
Lemma on_window_close_spec lb m w :
  m_windows m !! lb = Some w → (∀ l v, m_webviews m !! l = Some v → v_label v = l) →
  m_windows (on_window_close lb m) = delete lb (m_windows m) ∧
  ∀ l v, m_webviews (on_window_close lb m) !! l = Some v ↔
    m_webviews m !! l = Some v ∧ w_label (v_window v) ≠ lb.
Proof.
  intros Hlb Hlabels. unfold on_window_close. rewrite Hlb. cbv zeta.
  set (m0 := set_wins (delete lb) m).
  assert (∀ vs mm, m_windows (foldl (λ m v, on_webview_close (v_label v) m) mm vs) = m_windows mm ∧
    ∀ l v, m_webviews (foldl (λ m v, on_webview_close (v_label v) m) mm vs) !! l = Some v ↔
      m_webviews mm !! l = Some v ∧ (l ∉ (v_label <$> vs))) as Hf.
  { induction vs as [|x vs IH]; intros mm; simpl; [split; [done|]; set_solver|].
    destruct (IH (on_webview_close (v_label x) mm)) as [H1 H2]. rewrite H1. split; [done|].
    intros l v. rewrite H2. simpl. rewrite lookup_delete_Some, not_elem_of_cons. naive_solver. }
  destruct (Hf (window_webviews lb m0) m0) as [H1 H2]. rewrite H1. split; [done|].
  intros l v. rewrite H2. simpl. split.
  - intros [Hv Hn]. split; [done|]. intros Heq. apply Hn, list_elem_of_fmap. exists v.
    split; [symmetry; by eapply Hlabels|]. unfold window_webviews. apply list_elem_of_filter. split; [done|].
    apply list_elem_of_fmap. exists (l, v). split; [done|]. by apply elem_of_map_to_list.
  - intros [Hv Hne]. split; [done|]. intros (x & Hx & Hin)%list_elem_of_fmap.
    unfold window_webviews in Hin. apply list_elem_of_filter in Hin as [Hw Hin].
    apply list_elem_of_fmap in Hin as ([l' x'] & Heq & Hin). simpl in Heq. subst x'.
    apply elem_of_map_to_list in Hin. simpl in Hin. pose proof (Hlabels _ _ Hin). congruence.
Qed.

Lemma linked_close m c c' id lb :
  linked m c → label <$> windows c !! id = Some lb →
  label <$> windows c' = delete id (label <$> windows c) → next_window_id c' = next_window_id c →
  linked (on_window_close lb m) c'.
Proof.
  intros [Hw Hs Hv Hi] Hid Hl Hn.
  pose proof (Hs id lb Hid) as Hlb.
  destruct (on_window_close_spec lb m _ Hlb) as [Hwins Hwebs]; [intros l v H; by apply Hv in H as []|].
  assert (∀ i, label <$> windows c' !! i = if decide (i = id) then None else label <$> windows c !! i) as Hlk.
  { intros i. rewrite <- lookup_fmap, Hl. case_decide as Hd; [subst; by rewrite lookup_delete_eq|].
    by rewrite lookup_delete_ne, lookup_fmap. }
  constructor; rewrite ?Hwins.
  - intros l w. rewrite lookup_delete_Some. intros [Hne H]. pose proof (Hw l w H) as [? Hx]. split; [done|].
    rewrite Hlk. case_decide as Hd; [|done]. rewrite Hd, Hid in Hx. by simplify_eq.
  - intros i l. rewrite Hlk. case_decide as Hd; [done|]. intros H. rewrite lookup_delete_Some. split; [|by apply Hs].
    intros <-. apply Hs in H. rewrite Hlb in H. by simplify_eq.
  - intros l v [H Hne]%Hwebs. apply Hv in H as [? H]. split; [done|]. by rewrite lookup_delete_ne.
  - intros i Hx. rewrite Hn. apply Hi. apply (fmap_is_Some label). apply (fmap_is_Some label) in Hx.
    rewrite Hlk in Hx. case_decide; [by destruct Hx|done].
Qed.

(** The hooks of the plugins keep the windows. *)
Definition hooks_tame : Prop :=
  ∀ l, forallb tame (window_created l) = true ∧ forallb tame (webview_created l) = true.

Lemma run_tame_ok cmd c c' : tame cmd = true → run_cmd cmd c = Ok c' → same_windows c c'.
Proof. intros Ht H. destruct (run_cmd_tame cmd c Ht) as (x & Hx & Hs). rewrite Hx in H. by simplify_eq. Qed.

Lemma attach_window_spec lb id m c window m' c' :
  hooks_tame → attach_window lb id m c = Ok (window, m', c') →
  window = mk_win lb id ∧ m' = set_wins (<[lb := mk_win lb id]>) m ∧ same_windows c c'.
Proof.
  intros Hh H. unfold attach_window in H. apply bind_ok in H as (c1 & H1 & H).
  apply bind_ok in H as (c2 & H2 & H). simplify_eq. split; [done|]. split; [done|].
  eapply same_trans; [by eapply run_tame_ok, H1|]. eapply run_tame_ok, H2. simpl. by apply Hh.
Qed.

Lemma attach_webview_spec window lb d m c v m' c' :
  hooks_tame → attach_webview window lb d m c = Ok (v, m', c') →
  v = mk_web lb window d ∧ m' = emit "tauri://webview-created" lb (set_webs (<[lb := mk_web lb window d]>) m) ∧
  same_windows c c'.
Proof.
  intros Hh H. unfold attach_webview in H. apply bind_ok in H as (c1 & H1 & H).
  apply bind_ok in H as (c2 & H2 & H). simplify_eq. split; [done|]. split; [done|].
  eapply same_trans; [by eapply run_tame_ok, H1|]. eapply run_tame_ok, H2. simpl. by apply Hh.
Qed.

Lemma linked_emit m c e l : linked m c → linked (emit e l m) c.
Proof. intros [? ? ? ?]. by constructor. Qed.


End Links.

(** ** The application in the event loop *)
Section InLoop.
Context {RTy : RuntimeTypes} {NA : Native} {U : UnicodeTables} {MH : ManagerHooks} {UC : UserCode}.

(** User code that leaves the windows alone. *)
Record passive : Prop := {
  ps_plugins e m c u u' m' c' s : plugins_on_event e m c u = Ok (u', m', c', s) → m' = m ∧ same_windows c c';
  ps_callback e m c u u' m' c' s : user_callback e m c u = Ok (u', m', c', s) → m' = m ∧ same_windows c c';
  ps_listener h e m c u u' m' c' s : user_listener h e m c u = Ok (u', m', c', s) → m' = m ∧ same_windows c c';
}.

Section Passive.
Context (PS : passive).

Lemma callback_passive e w sent w' :
  e ≠ Ready → run_callback e w = Ok (sent, w') →
  manager (application w') =
    (match e with OfWindow l Destroyed => on_window_close l | _ => id end) (manager (application w)) ∧
  same_windows (context w) (context w').
Proof.
  intros He H. unfold run_callback in H. apply bind_ok in H as ([[a c] s] & H & Hw). simplify_eq. simpl in H.
  unfold run_callback_of_app in H.
  apply bind_ok in H as ([a0 c0] & H0 & H).
  assert (a0 = application w ∧ c0 = context w) as [-> ->] by (destruct e; by simplify_eq).
  apply bind_ok in H as ([[a1 c1] s1] & H1 & H). unfold on_event_loop_event in H1.
  apply bind_ok in H1 as ([[[u1 m1] c1'] s1'] & H1 & H1'). simplify_eq.
  apply (ps_plugins PS) in H1 as [-> Hs1].
  apply bind_ok in H as ([[[u2 m2] c2] s2] & H2 & H). simplify_eq. apply (ps_callback PS) in H2 as [-> Hs2].
  simpl. split; [|by eapply same_trans]. destruct e; try done. by destruct event.
Qed.

Lemma handlers_passive hs e w sent w' :
  run_window_handlers hs e w = Ok (sent, w') →
  manager (application w') = manager (application w) ∧ same_windows (context w) (context w').
Proof.
  revert w sent. induction hs as [|[i h] hs IH]; intros w sent H; simpl in H; [by simplify_eq|].
  apply bind_ok in H as ([[a c] s] & H1 & H). apply bind_ok in H as ([rest w1] & H2 & H). simplify_eq.
  apply IH in H2 as [Hm Hs]. simpl in Hm, Hs. unfold app_window_handler in H1.
  destruct (match listener_label h with Some l => _ | None => _ end) as [effs sent'].
  apply bind_ok in H1 as ([[[u m] c1] s1] & H1 & H). simplify_eq. apply (ps_listener PS) in H1 as [-> Hs1].
  simpl in Hm. split; [done|]. by eapply same_trans.
Qed.

Lemma notify_passive win e w w' :
  notify win e w = Ok w' →
  manager (application w') =
    (match e with Destroyed => on_window_close (label win) | _ => id end) (manager (application w)) ∧
  same_windows (context w) (context w').
Proof.
  unfold notify. intros H. apply bind_ok in H as ([s1 w1] & H1 & H). apply bind_ok in H as ([s2 w2] & H2 & H).
  simplify_eq. apply callback_passive in H1 as [Hm1 Hs1]; [|done]. apply handlers_passive in H2 as [Hm2 Hs2].
  split; [|by eapply same_trans]. by rewrite Hm2, Hm1.
Qed.

Lemma on_destroyed_passive id w w' win :
  windows (context w) !! id = Some win → on_destroyed id w = Ok w' →
  manager (application w') = manager (application w) ∧
  label <$> windows (context w') = delete id (label <$> windows (context w)) ∧
  next_window_id (context w') = next_window_id (context w).
Proof.
  intros Hw H. unfold on_destroyed in H. rewrite Hw in H. cbv zeta in H.
  set (w1 := set_context _ w) in H.
  assert (windows (context w1) = delete id (windows (context w)) ∧
    next_window_id (context w1) = next_window_id (context w)) as [Hws Hn].
  { simpl. by rewrite drop_window_windows, drop_window_next. }
  case_decide; [|simplify_eq; by rewrite Hws, fmap_delete, Hn].
  unfold request_exit in H. apply bind_ok in H as ([sent w2] & H2 & H).
  apply callback_passive in H2 as [Hm (Hl & _ & Hx)]; [|done].
  assert (application w' = application w2 ∧ context w' = context w2) as [-> ->].
  { by destruct (head sent); simplify_eq. }
  rewrite Hm, Hl, Hx, Hws, fmap_delete, Hn. done.
Qed.

End Passive.

(** C9. A window that was destroyed leaves the runtime and the manager together,
    with the webviews it had, and the two stay in step, when they were in step
    before and the code that runs at the event (the plugins, the callback of the
    application and its listeners) changes neither the manager nor the windows. *)
Theorem destroyed_window_leaves_both t id win w w' :
  passive → linked (manager (application w)) (context w) →
  window_id_map (context w) !! t = Some id → windows (context w) !! id = Some win →
  handle_event_loop (TaoWindowEvent_ t TDestroyed) w = Ok w' →
  linked (manager (application w')) (context w') ∧
  windows (context w') !! id = None ∧ m_windows (manager (application w')) !! label win = None ∧
  (∀ l v, m_webviews (manager (application w')) !! l = Some v → w_label (v_window v) ≠ label win).
Proof.
  intros PS Hl Ht Hw H. unfold handle_event_loop in H. set (w0 := if decide _ then w else _) in H.
  assert (context w0 = context w ∧ application w0 = application w) as [Hc0 Ha0] by (unfold w0; by case_decide).
  unfold EventLoop.on_window_event in H. rewrite Hc0, Ht, Hw in H. simpl in H. apply bind_ok in H as (w1 & H1 & H2).
  apply notify_passive in H1 as [Hm1 Hs1]; [|done]. rewrite Ha0 in Hm1. rewrite Hc0 in Hs1.
  destruct (windows (context w1) !! id) as [win1|] eqn:Hw1.
  2:{ pose proof (same_lookup _ _ id Hs1) as Hx. by rewrite Hw, Hw1 in Hx. }
  destruct (on_destroyed_passive PS id w1 w' win1 Hw1 H2) as (Hm2 & Hl2 & Hn2).
  destruct Hs1 as (Hl1 & _ & Hn1). rewrite Hl1 in Hl2. rewrite Hn1 in Hn2.
  assert (linked (on_window_close (label win) (manager (application w))) (context w')) as Hlk.
  { eapply linked_close; [exact Hl| |exact Hl2|exact Hn2]. by rewrite Hw. }
  pose proof (l_store _ _ Hl id (label win)) as Hst. rewrite Hw in Hst. specialize (Hst eq_refl).
  destruct (on_window_close_spec (label win) (manager (application w)) _ Hst) as [Hwins Hwebs].
  { intros l v Hv. by apply (l_webview _ _ Hl) in Hv as []. }
  rewrite Hm2, Hm1, Hwins, lookup_delete_eq. split_and!; [done| |done|].
  - apply (fmap_None label). by rewrite <- lookup_fmap, Hl2, lookup_delete_eq.
  - by intros l v []%Hwebs.
Qed.

(** User code sends nothing but [true]: [prevent_close] sends it. *)
Record prevents_only : Prop := {
  po_plugins e m c u u' m' c' s : plugins_on_event e m c u = Ok (u', m', c', s) → Forall (λ b, b = true) s;
  po_callback e m c u u' m' c' s : user_callback e m c u = Ok (u', m', c', s) → Forall (λ b, b = true) s;
  po_listener h e m c u u' m' c' s : user_listener h e m c u = Ok (u', m', c', s) → Forall (λ b, b = true) s;
}.

Lemma handlers_send hs w sent w' :
  prevents_only → run_window_handlers hs CloseRequested w = Ok (sent, w') →
  Forall (λ b, b = true) sent ∧
  (∀ i h l, (i, h) ∈ hs → listener_label h = Some l →
     has_js_listener l "tauri://close-requested" (js_listeners (application w)) = true → sent ≠ []).
Proof.
  intros PO. revert w sent. induction hs as [|[i h] hs IH]; intros w sent H; simpl in H.
  { simplify_eq. split; [constructor|]. by intros ? ? ? ?%not_elem_of_nil. }
  apply bind_ok in H as ([[a c] s] & H1 & H). apply bind_ok in H as ([rest w1] & H2 & H). simplify_eq.
  unfold app_window_handler in H1.
  destruct (match listener_label h with Some l => _ | None => _ end) as [effs s0] eqn:Hs0.
  apply bind_ok in H1 as ([[[u m] c1] s1] & H1 & Hx). simplify_eq. apply (po_listener PO) in H1.
  apply IH in H2 as [Hf Hne]. simpl in Hne.
  assert (Forall (λ b, b = true) s0) as Hf0.
  { destruct (listener_label h); simpl in Hs0; simplify_eq; [|constructor].
    destruct (has_js_listener _ _ _); repeat constructor. }
  split; [by repeat apply Forall_app_2|].
  intros j h' l [Heq|Hin]%elem_of_cons Hl Hjs; simplify_eq.
  - rewrite Hl in Hs0. simpl in Hs0. rewrite Hjs in Hs0. by simplify_eq.
  - intros [_ He]%app_eq_nil. by eapply Hne.
Qed.

(** A page that listens to close requests keeps its window: when the window
    has the listener of the manager and its page listens, the request ends
    after the listeners and the callback ran, and the loop does not close the
    window. *)
Theorem page_listener_keeps_window id win w w' i h l :
  prevents_only → windows (context w) !! id = Some win →
  (i, h) ∈ handler_order (window_event_listeners win) → listener_label h = Some l →
  has_js_listener l "tauri://close-requested" (js_listeners (application w)) = true →
  on_close_requested id w = Ok w' →
  ∃ sent sent' w1,
    run_window_handlers (handler_order (window_event_listeners win)) CloseRequested w = Ok (sent, w1) ∧
    run_callback (OfWindow (label win) CloseRequested) w1 = Ok (sent', w').
Proof.
  intros PO Hw Hin Hl Hjs H.
  destruct (close_request_spec id w w' win Hw H) as (sent & sent' & w1 & w2 & H1 & H2 & Hkeep & _).
  exists sent, sent', w1. split; [done|]. rewrite Hkeep; [done|].
  destruct (handlers_send _ _ _ _ PO H1) as [Hf Hne]. specialize (Hne i h l Hin Hl Hjs).
  destruct sent as [|b sent]; [done|]. by inversion Hf; subst.
Qed.

End InLoop.

(** ** What events of windows do *)
Section Effects.
Context {RTy : RuntimeTypes} {MH : ManagerHooks}.

Lemma drop_effects_spec recursive paths eff :
  eff ∈ drop_effects recursive paths →
  ∃ p, p ∈ paths ∧ (eff = AllowFile p ∨ eff = AllowDirectory p recursive).
Proof.
  unfold drop_effects. intros (p & -> & Hp)%list_elem_of_fmap. exists p. split; [done|].
  destruct (path_is_file p); auto.
Qed.

Lemma reach_own to l t :
  to = ToWindow l ∨ to = ToWebview l ∨ to = ToLabel l → reach_filter to t = true →
  Listeners.target_label t = Some l.
Proof. intros [->|[->| ->]]; destruct t; simpl; try done; intros ->%bool_decide_eq_true; done. Qed.

(** The events of a window or webview reach only listeners on targets with
    its label, and access to a path is given only when that path was dropped on
    it. *)
Theorem window_effects_contained l e we m js eff :
  eff ∈ (on_window_event l e m js).1 ++ on_webview_event l we →
  match eff with
  | Emit _ to => ∀ t, reach_filter to t = true → Listeners.target_label t = Some l
  | AllowFile p | AllowDirectory p _ =>
      (∃ paths at_, p ∈ paths ∧ (e = DragDrop (Drop paths at_) ∨ we = WvDragDrop (Drop paths at_)))
  end.
Proof.
  assert (∀ (d : DragDropEvent) (P : Prop) r, eff ∈ drop_effects r (drag_paths d) →
    (∀ paths at_, d = Drop paths at_ → P) →
    match eff with
    | Emit _ _ => False
    | AllowFile p | AllowDirectory p _ => P ∧ ∃ paths at_, d = Drop paths at_ ∧ p ∈ paths
    end) as Hdrop.
  { intros d P r (p & Hp & Heff)%drop_effects_spec HP.
    destruct d; simpl in Hp; try by apply not_elem_of_nil in Hp.
    destruct Heff as [->| ->]; (split; [by eapply HP|]); by eexists _, _. }
  rewrite elem_of_app. intros [H|H].
  - destruct e; simpl in H;
      try (apply list_elem_of_singleton in H as ->; intros t; apply reach_own; auto).
    apply elem_of_app in H as [H|H].
    + apply (Hdrop _ True) in H; [|done]. destruct eff; [done|..]; destruct H as (_ & paths & at_ & -> & Hp); eauto 10.
    + destruct (forallb _ _); apply list_elem_of_singleton in H as ->; intros t; apply reach_own; auto.
  - destruct we as [d]. simpl in H. apply elem_of_app in H as [H|H].
    + apply (Hdrop _ True) in H; [|done]. destruct eff; [done|..]; destruct H as (_ & paths & at_ & -> & Hp); eauto 10.
    + apply list_elem_of_singleton in H as ->. intros t. apply reach_own. auto.
Qed.

(** A directory dropped on the content of a window is allowed with all it
    contains, the same directory dropped on a child webview only at its first
    level. *)
Theorem dropped_directory_differs l m js p at_ :
  path_is_file p = false →
  AllowDirectory p true ∈ (on_window_event l (DragDrop (Drop [p] at_)) m js).1 ∧
  AllowDirectory p false ∈ on_webview_event l (WvDragDrop (Drop [p] at_)).
Proof.
  intros Hp. unfold on_window_event, on_webview_event, drop_effects. simpl. rewrite Hp. split; left.
Qed.

End Effects.

(** A webview whose move fails is recorded in the new window all the same. *)
Theorem failed_reparent_recorded {RTy : RuntimeTypes} {NA : Native} v window m c e m' c' :
  m_webviews m !! v_label v = Some v → reparent v window m c = Ok (Err (RuntimeError e), m', c') →
  m_webviews m' !! v_label v = Some (set_window window v).
Proof.
  intros Hv H. unfold reparent in H. destruct (negb unstable && _); [done|].
  apply bind_ok in H as ([r c1] & H1 & H). simplify_eq. simpl. by rewrite lookup_alter_eq, Hv.
Qed.

(** ** Examples *)
#[local] Existing Instance Runtime.ex_types.
#[local] Existing Instance Runtime.ex_good.
#[local] Instance ex_unicode : UnicodeTables := {| unicode_alphanumeric _ := false |}.
#[local] Instance ex_hooks : ManagerHooks := {|
  window_listener l := l : @window_handler Runtime.ex_types;
  webview_listener l := l : @webview_handler Runtime.ex_types;
  window_created _ := [];
  webview_created _ := [];
  local_data_dir := Some "data";
  listener_label h := Some h;
  webview_listener_label h := Some h;
  path_is_file p := bool_decide (p = "file");
  asset_protocol := true;
  isolation_schema := None;
  prepare_attributes _ _ _ a := Ok a;
|}.
#[local] Instance ex_user : UserCode := {|
  user := nat;
  plugins_on_event _ m c n := Ok (S n, m, c, []);
  user_callback _ m c n := Ok (S n, m, c, []);
  user_listener _ _ m c n := Ok (n, m, c, []);
  user_webview_listener _ _ m c n := Ok (n, m, c, []);
  user_setup m c n := Ok (Ok (), n, m, c);
|}.

Definition ex_manager : Manager := mk_manager ∅ ∅ ["custom"] [].
Definition ex_state (na : Native) (r : outcome Empty_set (outcome Error Window * Manager * Context)) : Manager * Context :=
  match r with Ok (_, m, c) => (m, c) | _ => (ex_manager, init) end.
Definition ex_built : Manager * Context :=
  ex_state ex_good (build_internal "main" [] (Some (Runtime.ex_pending "main")) ex_manager init).

Lemma ex_linked : linked ex_manager (@init Runtime.ex_types).
Proof.
  constructor.
  - intros l w H. discriminate H.
  - intros id l H. discriminate H.
  - intros l v H. discriminate H.
  - intros id [x H]. discriminate H.
Qed.

Lemma ex_hooks_tame : hooks_tame.
Proof. done. Qed.


(** The application with its window, whose page listens to close requests when
    [js] says so, after the messages of the proxy were handled. *)
Definition ex_js (b : bool) : Listeners.Listeners () :=
  if b then Listeners.listen_js "tauri://close-requested" "main" (Listeners.Window "main") 1
              (Listeners.Listeners_default ())
  else Listeners.Listeners_default ().
Definition ex_app (b : bool) : World :=
  let '(m, c) := ex_built in
  let w := mk_world c (mk_app m (ex_js b) [] 0 true [] false) Wait [] in
  match run_events (TaoUserEvent <$> proxy c) w with Ok w => w | _ => w end.

Lemma ex_app_linked b : linked (manager (application (ex_app b))) (context (ex_app b)).
Proof.
  assert (m_windows (manager (application (ex_app b))) = {["main" := mk_win "main" 0]} ∧
    m_webviews (manager (application (ex_app b))) =
      {["main" := mk_web "main" (mk_win "main" 0) (mk_dispatcher 1 0)]} ∧
    label <$> windows (context (ex_app b)) = {[0%N := "main"]} ∧
    next_window_id (context (ex_app b)) = 1%N) as (Hw & Hv & Hl & Hn).
  { destruct b; split_and!; vm_compute; reflexivity. }
  constructor; rewrite ?Hw, ?Hv, ?Hn.
  - intros l w [<- <-]%lookup_singleton_Some. split; [done|]. by rewrite <- lookup_fmap, Hl.
  - intros id l. rewrite <- lookup_fmap, Hl. intros [<- <-]%lookup_singleton_Some. apply lookup_singleton_eq.
  - intros l v [<- <-]%lookup_singleton_Some. split; [done|]. apply lookup_singleton_eq.
  - intros id Hx. apply (fmap_is_Some label) in Hx. rewrite <- lookup_fmap, Hl in Hx. destruct Hx as [x Hx].
    apply lookup_singleton_Some in Hx as [<- _]. done.
Qed.

Lemma ex_passive : passive.
Proof. constructor; simpl; intros; by simplify_eq. Qed.

Definition ex_gone : World :=
  match handle_event_loop (TaoWindowEvent_ (0%N : @tao_id Runtime.ex_types) TDestroyed) (ex_app false) with
  | Ok w => w
  | _ => ex_app false
  end.

Definition ex_tao : @tao_id Runtime.ex_types := 0%N.

Lemma destroyed_window_leaves_both_witness :
  linked (manager (application ex_gone)) (context ex_gone) ∧ windows (context ex_gone) !! 0%N = None ∧
  m_windows (manager (application ex_gone)) !! "main" = None.
Proof.
  assert (label <$> windows (context (ex_app false)) !! 0%N = Some "main") as Hl by (vm_compute; reflexivity).
  assert (window_id_map (context (ex_app false)) !! ex_tao = Some 0%N) as Ht by (vm_compute; reflexivity).
  assert (handle_event_loop (TaoWindowEvent_ ex_tao TDestroyed) (ex_app false) = Ok ex_gone) as Hh.
  { assert (match handle_event_loop (TaoWindowEvent_ ex_tao TDestroyed) (ex_app false) with Ok _ => true | _ => false end
      = true) as Hb by (vm_compute; reflexivity).
    unfold ex_gone. change (0%N : @tao_id Runtime.ex_types) with ex_tao.
    destruct (handle_event_loop (TaoWindowEvent_ ex_tao TDestroyed) (ex_app false)); [reflexivity|discriminate Hb..]. }
  apply fmap_Some in Hl as (win & Hw & Hl). rewrite Hl.
  pose proof (destroyed_window_leaves_both ex_tao 0%N win (ex_app false) ex_gone ex_passive (ex_app_linked false)
    Ht Hw Hh) as (H1 & H2 & H3 & _).
  split; [exact H1|]. split; [exact H2|exact H3].
Defined.

Lemma ex_prevents_only : prevents_only.
Proof. constructor; simpl; intros; simplify_eq; constructor. Qed.

Definition ex_listener : @window_handler Runtime.ex_types := "main".

Lemma page_listener_keeps_window_witness :
  ∃ w sent sent' w1,
    run_window_handlers [(0%N, ex_listener)] CloseRequested (ex_app true) = Ok (sent, w1) ∧
    run_callback (OfWindow "main" CloseRequested) w1 = Ok (sent', w).
Proof.
  assert (label <$> windows (context (ex_app true)) !! 0%N = Some "main") as Hl by (vm_compute; reflexivity).
  assert ((λ win, handler_order (window_event_listeners win)) <$> windows (context (ex_app true)) !! 0%N =
    Some [(0%N, ex_listener)]) as Ho by (vm_compute; reflexivity).
  assert (has_js_listener "main" "tauri://close-requested" (js_listeners (application (ex_app true))) = true) as Hjs
    by (vm_compute; reflexivity).
  assert (match on_close_requested 0 (ex_app true) with Ok _ => true | _ => false end = true) as Hb
    by (vm_compute; reflexivity).
  destruct (on_close_requested 0 (ex_app true)) as [w| | |] eqn:Hc; [|discriminate Hb..].
  apply fmap_Some in Hl as (win & Hw & Hl). rewrite Hw in Ho.
  assert (handler_order (window_event_listeners win) = [(0%N, ex_listener)]) as Ho'.
  { apply (inj Some). exact Ho. }
  assert ((0%N, ex_listener) ∈ handler_order (window_event_listeners win)) as Hin by (rewrite Ho'; left).
  pose proof (page_listener_keeps_window 0%N win (ex_app true) w 0%N ex_listener "main" ex_prevents_only Hw Hin
    eq_refl Hjs Hc) as H.
  rewrite Ho', <- Hl in H. exists w. exact H.
Defined.

Lemma window_effects_contained_witness :
  ∃ paths at_, "dir" ∈ paths ∧
    (DragDrop (Drop ["file"; "dir"] (0, 0)%Z) = DragDrop (Drop paths at_) ∨
     WvDragDrop (@Leave Runtime.ex_types) = WvDragDrop (Drop paths at_)).
Proof.
  apply (window_effects_contained "main" (DragDrop (Drop ["file"; "dir"] ((0, 0)%Z : @position Runtime.ex_types)))
    (WvDragDrop Leave) ex_manager (ex_js false) (AllowDirectory "dir" true)).
  vm_compute. right. left.
Defined.

Lemma dropped_directory_differs_witness :
  AllowDirectory "dir" false ∈ on_webview_event "main" (WvDragDrop (Drop ["dir"] ((0, 0)%Z : @position Runtime.ex_types))).
Proof.
  apply (dropped_directory_differs "main" ex_manager (ex_js false) "dir" ((0, 0)%Z : @position Runtime.ex_types)).
  reflexivity.
Defined.

(** A window whose webview could not be created is returned and stays in the
    manager, though the runtime has no such window: its label stays taken. *)
Theorem failed_window_stays_in_manager :
  let na := Runtime.ex_native (λ _, false) false in
  let build := @build_internal Runtime.ex_types na ex_unicode ex_hooks "main" [] (Some (Runtime.ex_pending "main")) in
  match build ex_manager init with
  | Ok (Ok w, m, c) =>
      m_windows m !! "main" = Some w ∧ windows c !! w_id w = None ∧
      match build m c with Ok (r, _, _) => r = Err (WindowLabelAlreadyExists "main") | _ => False end
  | _ => False
  end.
Proof. vm_compute. split; [|split]; reflexivity. Qed.

(** Two threads that build windows with the same label may both pass the
    check: the second window replaces the first in the manager. *)
Theorem label_check_races :
  prepare_window "main" ex_manager = Ok "main" ∧
  match ('(_, m, c) ← attach_window "main" 0 ex_manager (@init Runtime.ex_types); attach_window "main" 1 m c) with
  | Ok (_, m, _) => m_windows m = {["main" := mk_win "main" 1]}
  | _ => False
  end.
Proof. vm_compute. split; reflexivity. Qed.

(** A window without webviews counts as a webview window. *)
Lemma empty_window_is_webview_window l id : is_webview_window (mk_win l id) ex_manager = true.
Proof. reflexivity. Qed.

End Windows.
