(* ===== verification/WebviewSetup.v ===== *)
(** * Preparing a webview

    Models what the application gives to a webview before the runtime creates
    it: [WebviewManager::prepare_webview] and [prepare_pending_webview] of
    [tauri/Source/manager/webview.rs] (the url, the initialization scripts, the
    protocols and the data directory), and the closures made there and in
    [WebviewBuilder::into_pending_webview] of [tauri/Source/webview/mod.rs] for
    navigations, page loads and downloads. The build is one without the feature
    [webview-data-url]. The templates of the scripts, the [url] package and the
    file system are parameters. *)
From S2P Require Import Prelude Acl Numbers Authority Listeners Channel Ipc Plugins AppAssets Runtime Windows.
Import Runtime AppAssets.

(** More of the [url] package. *)
Class UrlOps {UL : UrlPatternLib} (UR : UrlLib UL) := {
  Url_join : Url → string → option Url;
  Url_set_scheme : Url → string → option Url;
  Url_set_host : Url → option string → option Url;
  Url_to_string : Url → string;
  Url_host : Url → option string;
  Url_port : Url → option string;
}.

(** A url that was parsed or built is printed as text that parses to it. *)
Class UrlLaws {UL : UrlPatternLib} {UR : UrlLib UL} (UO : UrlOps UR) : Prop := {
  Url_parse_to_string u : Url_parse (Url_to_string u) = Some u;
}.

(** The templates of the scripts, which may fail to render, and the directories
    of the file system. *)
Class SetupEnv := {
  render_pattern : Pattern → option string;
  render_ipc : string → option string;
  (** the pattern and ipc scripts, [withGlobalTauri], the https scheme *)
  render_init : string → string → bool → bool → option string;
  render_isolation_frame : string → option string;
  render_zoom_hotkey : option string;
  dir_exists : string → bool;
  create_dir_all : string → bool;
}.

Module WebviewSetup.

#[global] Instance Pattern_eq_dec : EqDecision Pattern.
Proof. solve_decision. Defined.

Section Setup.
Context {GL : GlobLib} {UL : UrlPatternLib} {UR : UrlLib UL} {UO : UrlOps UR} {WL : WebLib}.
Context {SE : SetupEnv} {Obj UserProtocol RequestHandler : Type}.
Context {HT : HookTypes} {App P : Type} {PL : Plugin App P}.

(** ** The configuration of the application *)
Record Config := mk_config {
  ipc_manager : Ipc.Manager GL UL Obj;
  (** a development build for a mobile platform *)
  PROXY_DEV_SERVER : bool;
  app_pattern : Pattern;
  with_global_tauri : bool;
  invoke_initialization_script : string;
  plugin_global_api_scripts : option (list string);
  user_protocols : gmap string UserProtocol;
  protocol_asset : bool;
}.

Inductive WebviewUrl := AppUrl (path : string) | External (url : Url) | CustomProtocol (url : Url).

(** What answers the requests of a scheme. *)
Inductive Handler :=
| UserHandler (p : UserProtocol)
| TauriHandler (window_origin : string) (request_handler : option RequestHandler)
| IpcHandler
| AssetHandler (window_origin : string)
| IsolationHandler (schema window_origin : string) (use_https_scheme : bool).

(** The attributes of a pending webview; [url], [handlers] and [ipc] are what the
    preparation fills in. *)
Record Attributes := mk_attributes {
  webview_url : WebviewUrl;
  use_https_scheme : bool;
  initialization_scripts : list string;
  zoom_hotkeys_enabled : bool;
  request_handler : option RequestHandler;
  url : string;
  handlers : gmap string Handler;
  ipc : bool;
}.

(** ** The url *)
Definition no_error {E A} (r : outcome Empty_set A) : outcome E A := map_err (λ e : Empty_set, match e with end) r.

Definition resolve_url (cfg : Config) (https : bool) (u : WebviewUrl) : outcome Refusal Url :=
  match u with
  | AppUrl path =>
      base ← (if PROXY_DEV_SERVER cfg
              then expect (Url_parse "tauri://localhost") "called `Result::unwrap()` on an `Err` value"
              else no_error (Ipc.get_url (ipc_manager cfg) https));
      if decide (path = "index.html") then Ok base
      else expect (Url_join base path) "called `Result::unwrap()` on an `Err` value"
  | External url =>
      config_url ← no_error (Ipc.get_url (ipc_manager cfg) https);
      let is_local := bool_decide (is_Some (Url_make_relative config_url url)) in
      if is_local && PROXY_DEV_SERVER cfg then
        url ← expect (Url_set_scheme url "tauri") "called `Result::unwrap()` on an `Err` value";
        expect (Url_set_host url (Some "localhost")) "called `Result::unwrap()` on an `Err` value"
      else Ok url
  | CustomProtocol url => Ok url
  end.

Definition window_origin (windows_like https : bool) (window_url : Url) : string :=
  if decide (Url_scheme window_url = "data") then "null"
  else if windows_like && negb (bool_decide (Url_scheme window_url = "http"))
            && negb (bool_decide (Url_scheme window_url = "https")) then
    (if https then "https" else "http") +:+ "://" +:+ Url_scheme window_url +:+ ".localhost"
  else match Url_host window_url with
       | Some host =>
           Url_scheme window_url +:+ "://" +:+ host +:+
           default "" ((λ p, ":" +:+ p) <$> Url_port window_url)
       | None => "null"
       end.

(** ** The scripts *)
Definition newline : string := String (Ascii.ascii_of_nat 10) EmptyString.

Definition is_tauri_script : string :=
  newline +:+ "        Object.defineProperty(window, 'isTauri', {" +:+
  newline +:+ "          value: true," +:+
  newline +:+ "        });" +:+
  newline +:+
  newline +:+ "        if (!window.__TAURI_INTERNALS__) {" +:+
  newline +:+ "          Object.defineProperty(window, '__TAURI_INTERNALS__', {" +:+
  newline +:+ "            value: {" +:+
  newline +:+ "              plugins: {}" +:+
  newline +:+ "            }" +:+
  newline +:+ "          })" +:+
  newline +:+ "        }" +:+
  newline +:+ "      ".

Definition metadata_script (window_label label : string) : string :=
  newline +:+ "          Object.defineProperty(window.__TAURI_INTERNALS__, 'metadata', {" +:+
  newline +:+ "            value: {" +:+
  newline +:+ "              currentWindow: { label: " +:+ json_to_string (json_string window_label) +:+ " }," +:+
  newline +:+ "              currentWebview: { label: " +:+ json_to_string (json_string label) +:+ " }" +:+
  newline +:+ "            }" +:+
  newline +:+ "          })" +:+
  newline +:+ "        ".

Definition isolation_src (cfg : Config) (https : bool) : option string :=
  match app_pattern cfg with
  | Isolation schema => Some (format_real_schema (Ipc.windows_like (ipc_manager cfg)) schema https)
  | Brownfield => None
  end.

Definition all_scripts (cfg : Config) (plugins : list string) (window_label label : string) (https : bool)
    (scripts : list string) : outcome Refusal (list string) :=
  pattern_init ← ok_or (render_pattern (app_pattern cfg)) RenderError;
  ipc_init ← ok_or (render_ipc (default "" (isolation_src cfg https))) RenderError;
  init ← ok_or (render_init ipc_init pattern_init (with_global_tauri cfg) https) RenderError;
  frame ← match isolation_src cfg https with
          | Some src => s ← ok_or (render_isolation_frame src) RenderError; Ok [s]
          | None => Ok []
          end;
  Ok (scripts ++ [is_tauri_script; invoke_initialization_script cfg; metadata_script window_label label; init]
        ++ plugins ++ frame ++ default [] (plugin_global_api_scripts cfg)).

(** ** The protocols

    Registering a scheme again replaces its handler; [registered] are the
    schemes of the application. *)
Definition register_unless (scheme : string) (h : Handler) (m : gmap string Handler) : gmap string Handler :=
  if decide (is_Some (m !! scheme)) then m else <[scheme := h]> m.

Definition scheme_handlers (cfg : Config) (origin : string) (https : bool) (rh : option RequestHandler)
    : gmap string Handler :=
  let m := UserHandler <$> user_protocols cfg in
  let m := register_unless "tauri" (TauriHandler origin rh) m in
  let m := register_unless "ipc" IpcHandler m in
  let m := if protocol_asset cfg then register_unless "asset" (AssetHandler origin) m else m in
  match app_pattern cfg with
  | Isolation schema => <[schema := IsolationHandler schema origin https]> m
  | Brownfield => m
  end.

(** ** The preparation *)
Definition prepare_pending_webview (cfg : Config) (plugins : list string) (window_label label : string)
    (a : Attributes) : outcome Refusal Attributes :=
  let https := use_https_scheme a in
  scripts ← all_scripts cfg plugins window_label label https (initialization_scripts a);
  window_url ← expect (Url_parse (url a)) "called `Result::unwrap()` on an `Err` value";
  let origin := window_origin (Ipc.windows_like (ipc_manager cfg)) https window_url in
  Ok (mk_attributes (webview_url a) https scripts (zoom_hotkeys_enabled a)
        (if decide (is_Some (user_protocols cfg !! "tauri")) then request_handler a else None) (url a)
        (scheme_handlers cfg origin https (request_handler a)) (ipc a)).

(** On Windows the zoom hotkeys need no script. *)
Definition zoom_script (cfg : Config) (a : Attributes) : outcome Refusal (list string) :=
  if zoom_hotkeys_enabled a && negb (Ipc.windows_like (ipc_manager cfg)) then
    s ← ok_or render_zoom_hotkey RenderError; Ok [s]
  else Ok [].

Definition prepare (cfg : Config) (plugins : list string) (label window_label : string) (dir : option string)
    (a : Attributes) : outcome Refusal Attributes :=
  u ← resolve_url cfg (use_https_scheme a) (webview_url a);
  if decide (Url_scheme u = "data") then
    Err (InvalidWebviewUrl "data URLs are not supported without the `webview-data-url` feature.")
  else
    a ← prepare_pending_webview cfg plugins window_label label
          (mk_attributes (webview_url a) (use_https_scheme a) (initialization_scripts a) (zoom_hotkeys_enabled a)
             (request_handler a) (Url_to_string u) (handlers a) (ipc a));
    if match dir with Some d => negb (dir_exists d) && negb (create_dir_all d) | None => false end then Err Io
    else
      zoom ← zoom_script cfg a;
      Ok (mk_attributes (webview_url a) (use_https_scheme a) (initialization_scripts a ++ zoom)
            (zoom_hotkeys_enabled a) (request_handler a) (url a) (handlers a) true).

(** ** The closures of a webview

    They run when the page acts; each looks the webview up in the manager that
    the application has at that moment. [handle] is the webview as hooks get it. *)
Context (manager_of : App → Windows.Manager) (handle : Windows.Webview → h_webview) (hook_url : Url → h_url).

Definition get_webview (app : App) (label : string) : option h_webview :=
  handle <$> Windows.m_webviews (manager_of app) !! label.

(** The url of the isolation frame. *)
Definition is_isolation_frame (cfg : Config) (u : Url) : bool :=
  match app_pattern cfg with
  | Isolation schema =>
      bool_decide (Url_scheme u = schema) && bool_decide (Url_domain u = Some ISOLATION_IFRAME_SRC_DOMAIN)
  | Brownfield => false
  end.

Definition on_navigation_of (cfg : Config) (handler : option (Url → App → bool * App)) (label : string) (u : Url)
    (s : Plugins.PluginStore) (app : App) : bool * Plugins.PluginStore * App :=
  if is_isolation_frame cfg u then (true, s, app)
  else
    let '(allowed, app) := match handler with Some h => h u app | None => (true, app) end in
    if negb allowed then (false, s, app)
    else match get_webview app label with
         | Some w => Plugins.store_on_navigation w (hook_url u) s app
         | None => (true, s, app)
         end.

(** The handler of the application and the plugins, then the closure of the
    builder, which looks the webview up again. *)
Definition builder_page_load (handler : option (h_webview → h_payload → App → App)) (label : string)
    (payload : h_payload) (app : App) : App :=
  match get_webview app label, handler with
  | Some w, Some h => h w payload app
  | _, _ => app
  end.

Definition on_page_load_of (global handler : option (h_webview → h_payload → App → App)) (label : string)
    (payload : h_payload) (s : Plugins.PluginStore) (app : App) : Plugins.PluginStore * App :=
  let '(s, app) :=
    match get_webview app label with
    | Some w =>
        Plugins.store_on_page_load w payload s (match global with Some h => h w payload app | None => app end)
    | None => (s, app)
    end in
  (s, builder_page_load handler label payload app).

Definition on_download_of {Event} (handler : h_webview → Event → App → bool * App) (label : string) (e : Event)
    (app : App) : bool * App :=
  match get_webview app label with Some w => handler w e app | None => (false, app) end.

(** ** Properties *)

(** Every plugin agrees to a navigation, asked in its turn. *)
Definition all_agree (w : h_webview) (u : h_url) (s : Plugins.PluginStore) (app : App) : Prop :=
  ∀ l1 p l2 l1' app1, Plugins.store s = l1 ++ p :: l2 → Plugins.navigate w u l1 app = (true, l1', app1) →
    (on_navigation w u p app1).1.1 = true.

Lemma store_on_navigation_true w u s app :
  (Plugins.store_on_navigation w u s app).1.1 = true ↔ all_agree w u s app.
Proof.
  destruct (Plugins.store_on_navigation w u s app) as [[r s'] app'] eqn:H.
  apply Plugins.navigation_spec in H. simpl. destruct r.
  - split; [intros _|done]. exact (proj2 H).
  - destruct H as (l1 & p & l2 & l1' & app1 & p' & Hs & Hn & Hp & _). split; [done|].
    intros Ha. specialize (Ha l1 p l2 l1' app1 Hs Hn). by rewrite Hp in Ha.
Qed.

(** The application after the handler of the builder was asked. *)
Definition after_handler (handler : option (Url → App → bool * App)) (u : Url) (app : App) : App :=
  match handler with Some h => (h u app).2 | None => app end.

(** A navigation goes ahead exactly when it is for the frame of the isolation
    pattern, or the handler of the builder and every plugin agree; a webview
    that is not attached yet asks the handler only. Nobody is asked about the
    frame, and the plugins are not asked about what the handler refuses. *)
Theorem navigation_allowed_iff cfg handler label u s app :
  let r := on_navigation_of cfg handler label u s app in
  let app1 := after_handler handler u app in
  (r.1.1 = true ↔
     is_isolation_frame cfg u = true ∨
     (∀ h, handler = Some h → (h u app).1 = true) ∧
     (∀ w, get_webview app1 label = Some w → all_agree w (hook_url u) s app1)) ∧
  (is_isolation_frame cfg u = true → r = (true, s, app)) ∧
  (∀ h, is_isolation_frame cfg u = false → handler = Some h → (h u app).1 = false →
     r = (false, s, app1)).
Proof.
  unfold on_navigation_of, after_handler. destruct (is_isolation_frame cfg u); simpl; [naive_solver|].
  assert (∀ app1, (match get_webview app1 label with
                   | Some w => Plugins.store_on_navigation w (hook_url u) s app1
                   | None => (true, s, app1)
                   end).1.1 = true ↔
                  ∀ w, get_webview app1 label = Some w → all_agree w (hook_url u) s app1) as Hask.
  { intros app1. destruct (get_webview app1 label); [rewrite store_on_navigation_true|]; naive_solver. }
  destruct handler as [h|]; simpl; [|rewrite Hask; naive_solver].
  assert (∀ b, (∀ h' : Url → App → bool * App, Some h = Some h' → (h' u app).1 = b) ↔ (h u app).1 = b) as Hb
    by naive_solver.
  destruct (h u app) as [[] app1] eqn:Hh; simpl; rewrite Hb; simpl.
  - rewrite Hask. split; [naive_solver|]. split; [done|]. intros h' _ [= <-]. by rewrite Hh.
  - split; [naive_solver|]. split; [done|]. intros h' _ [= <-]. done.
Qed.

(** Who answers a scheme: the isolation pattern, then the protocols of the
    application, then those of tauri. *)
Definition handler_of (cfg : Config) (origin : string) (https : bool) (rh : option RequestHandler) (scheme : string)
    : option Handler :=
  if bool_decide (app_pattern cfg = Isolation scheme) then Some (IsolationHandler scheme origin https)
  else match user_protocols cfg !! scheme with
       | Some p => Some (UserHandler p)
       | None =>
           if decide (scheme = "tauri") then Some (TauriHandler origin rh)
           else if decide (scheme = "ipc") then Some IpcHandler
           else if decide (scheme = "asset") then (if protocol_asset cfg then Some (AssetHandler origin) else None)
           else None
       end.

Lemma register_unless_lookup scheme h m k :
  register_unless scheme h m !! k =
  match m !! k with Some x => Some x | None => if decide (k = scheme) then Some h else None end.
Proof.
  unfold register_unless. case_decide as Hs.
  - destruct (m !! k) eqn:Hk; [done|]. rewrite decide_False; [done|]. intros ->. by destruct Hs as [? Hs]; congruence.
  - apply eq_None_not_Some in Hs. rewrite lookup_insert. case_decide as Hd; [subst; by rewrite Hs, decide_True|].
    rewrite decide_False by congruence. by destruct (m !! k).
Qed.

Lemma scheme_handlers_lookup cfg origin https rh scheme :
  scheme_handlers cfg origin https rh !! scheme = handler_of cfg origin https rh scheme.
Proof.
  unfold scheme_handlers, handler_of.
  set (m := if protocol_asset cfg then _ else _).
  assert (m !! scheme = match user_protocols cfg !! scheme with
       | Some p => Some (UserHandler p)
       | None =>
           if decide (scheme = "tauri") then Some (TauriHandler origin rh)
           else if decide (scheme = "ipc") then Some IpcHandler
           else if decide (scheme = "asset") then (if protocol_asset cfg then Some (AssetHandler origin) else None)
           else None
       end) as Hm.
  { subst m. destruct (protocol_asset cfg); rewrite !register_unless_lookup, lookup_fmap;
      destruct (user_protocols cfg !! scheme); simpl; repeat case_decide; done. }
  destruct (app_pattern cfg) as [|schema]; [by rewrite bool_decide_eq_false_2|].
  rewrite lookup_insert. destruct (decide (schema = scheme)) as [->|Hne].
  - by rewrite bool_decide_eq_true_2.
  - by rewrite bool_decide_eq_false_2 by congruence.
Qed.

Lemma all_scripts_spec cfg plugins window_label label https scripts :
  match all_scripts cfg plugins window_label label https scripts with
  | Ok l => ∃ init frame, l = scripts ++
      [is_tauri_script; invoke_initialization_script cfg; metadata_script window_label label; init] ++
      plugins ++ frame ++ default [] (plugin_global_api_scripts cfg) ∧
      (app_pattern cfg = Brownfield → frame = [])
  | Err e => e = RenderError
  | _ => False
  end.
Proof.
  unfold all_scripts, isolation_src, ok_or. destruct (render_pattern _) as [p|]; simpl; [|done].
  destruct (render_ipc _) as [i|]; simpl; [|done]. destruct (render_init _ _ _ _) as [init|]; simpl; [|done].
  destruct (app_pattern cfg); simpl; [by exists init, []|].
  destruct (render_isolation_frame _) as [f|]; simpl; [|done]. by exists init, [f].
Qed.

Lemma zoom_script_spec cfg a :
  match zoom_script cfg a with Ok _ => True | Err e => e = RenderError | _ => False end.
Proof.
  unfold zoom_script, ok_or. destruct (zoom_hotkeys_enabled a && _); [|done]. by destruct render_zoom_hotkey.
Qed.

Lemma prepare_handlers cfg plugins label window_label dir a a' :
  prepare cfg plugins label window_label dir a = Ok a' →
  ∃ origin, ∀ scheme, handlers a' !! scheme = handler_of cfg origin (use_https_scheme a) (request_handler a) scheme.
Proof.
  unfold prepare, prepare_pending_webview. intros (u & _ & H)%bind_ok. case_decide; [done|].
  apply bind_ok in H as (a1 & H1 & H). apply bind_ok in H1 as (scripts & _ & H1).
  apply bind_ok in H1 as (window_url & _ & [= <-]). cbn -[scheme_handlers zoom_script] in H.
  match type of H with (if ?b then _ else _) = _ => destruct b end; [done|].
  apply bind_ok in H as (zoom & _ & [= <-]). cbn -[scheme_handlers].
  eexists. intros scheme. apply scheme_handlers_lookup.
Qed.

(** A url resolves, or the process ends. *)
Lemma resolve_url_total cfg https u :
  match resolve_url cfg https u with Ok _ | Panic _ => True | Err _ | Diverge => False end.
Proof.
  assert (∀ {A B} (o : option A) msg (f : A → outcome Refusal B),
    (∀ x, match f x with Ok _ | Panic _ => True | Err _ | Diverge => False end) →
    match mbind f (expect o msg) with Ok _ | Panic _ => True | Err _ | Diverge => False end) as Hx.
  { intros A B [x|] msg f Hf; [apply Hf|done]. }
  assert (∀ {B} (f : Url → outcome Refusal B),
    (∀ x, match f x with Ok _ | Panic _ => True | Err _ | Diverge => False end) →
    match mbind f (no_error (Ipc.get_url (ipc_manager cfg) https)) with
    | Ok _ | Panic _ => True | Err _ | Diverge => False end) as Hg.
  { intros B f Hf. unfold Ipc.get_url, Ipc.protocol_url. destruct (Ipc.base_path _); [apply Hf|].
    destruct (Url_parse _); [apply Hf|done]. }
  assert (∀ (o : option Url) msg,
    match (expect o msg : outcome Refusal Url) with Ok _ | Panic _ => True | Err _ | Diverge => False end) as He.
  { by intros []. }
  unfold resolve_url. destruct u as [path|url|url]; [|apply Hg|done].
  - destruct (PROXY_DEV_SERVER cfg); [apply Hx|apply Hg]; intros b; (case_decide; [done|apply He]).
  - intros b. destruct (_ && _); [|done]. apply Hx. intros u. apply He.
Qed.

(** C26. What a prepared webview gets in a build without the feature for data
    urls: it never opens one; it opens the resolved url; the scripts of the
    builder run first, then those of tauri, of the plugins, of the isolation
    frame and of the global interface; each scheme is answered by the handler
    due to it. A refusal has its reason, and once the url is resolved nothing
    panics: the preparation panics exactly when the url does not resolve. *)
Theorem webview_prepared cfg plugins label window_label dir a :
  UrlLaws UO →
  match resolve_url cfg (use_https_scheme a) (webview_url a) with
  | Panic msg => prepare cfg plugins label window_label dir a = Panic msg
  | Err _ | Diverge => False
  | Ok u =>
      match prepare cfg plugins label window_label dir a with
      | Ok a' =>
          Url_scheme u ≠ "data" ∧ url a' = Url_to_string u ∧ ipc a' = true ∧
          (∃ init frame zoom, initialization_scripts a' =
             initialization_scripts a ++
             [is_tauri_script; invoke_initialization_script cfg; metadata_script window_label label; init] ++
             plugins ++ frame ++ default [] (plugin_global_api_scripts cfg) ++ zoom ∧
             (app_pattern cfg = Brownfield → frame = [])) ∧
          (∀ scheme, handlers a' !! scheme =
             handler_of cfg (window_origin (Ipc.windows_like (ipc_manager cfg)) (use_https_scheme a) u)
               (use_https_scheme a) (request_handler a) scheme)
      | Err (InvalidWebviewUrl _) => Url_scheme u = "data"
      | Err Io => ∃ d, dir = Some d ∧ dir_exists d = false ∧ create_dir_all d = false
      | Err RenderError => Url_scheme u ≠ "data"
      | _ => False
      end
  end.
Proof.
  intros HL. pose proof (resolve_url_total cfg (use_https_scheme a) (webview_url a)) as Ht.
  unfold prepare. destruct (resolve_url _ _ _) as [u|e|msg|]; [clear Ht|done..].
  cbn [mbind outcome_bind]. case_decide as Hd; [done|].
  unfold prepare_pending_webview. cbn -[all_scripts scheme_handlers zoom_script].
  pose proof (all_scripts_spec cfg plugins window_label label (use_https_scheme a) (initialization_scripts a)) as Hs.
  destruct (all_scripts _ _ _ _ _ _) as [scripts|e| |]; cbn -[scheme_handlers zoom_script] in *;
    [|by subst e|done|done].
  rewrite Url_parse_to_string. cbn -[scheme_handlers zoom_script].
  destruct Hs as (init & frame & -> & Hf).
  match goal with |- context [if ?b then Err Io else _] => destruct b eqn:Hdir end.
  { destruct dir as [d|]; [|done]. apply andb_true_iff in Hdir as [H1%negb_true_iff H2%negb_true_iff]. by exists d. }
  match goal with |- context [zoom_script cfg ?x] => pose proof (zoom_script_spec cfg x) as Hz; set (z := zoom_script cfg x) in * end.
  destruct z as [zoom|e| |]; cbn -[scheme_handlers] in *; [|by subst e|done|done].
  split_and!; [done..| |].
  - exists init, frame, zoom. split; [|done]. by rewrite <- !app_assoc; simpl; rewrite <- !app_assoc.
  - intros scheme. apply scheme_handlers_lookup.
Qed.

(** An application path that does not join with the url of the application
    ends the process, although it comes from the configuration. *)
Theorem unjoinable_app_path_panics cfg plugins label window_label dir a path base :
  PROXY_DEV_SERVER cfg = false → webview_url a = AppUrl path → path ≠ "index.html" →
  Ipc.get_url (ipc_manager cfg) (use_https_scheme a) = Ok base → Url_join base path = None →
  prepare cfg plugins label window_label dir a = Panic "called `Result::unwrap()` on an `Err` value".
Proof.
  intros Hp Ha Hne Hb Hj. unfold prepare, resolve_url. rewrite Hp, Ha, Hb. simpl.
  rewrite decide_False by done. by rewrite Hj.
Qed.

End Setup.

(** ** Within the application

    The preparation as the manager of windows runs it. *)
Section Application.
Context {GL : GlobLib} {UL : UrlPatternLib} {UR : UrlLib UL} {UO : UrlOps UR} {WL : WebLib}.
Context {SE : SetupEnv} {Obj UserProtocol RequestHandler : Type}.
Context {RT : RuntimeTypes} {NA : @Native RT} {U : UnicodeTables}.

#[local] Instance setup_types : RuntimeTypes := {|
  tao_id := @tao_id RT; f32 := @f32 RT; scale := @scale RT; position := @position RT; size := @size RT;
  arg := @arg RT; value := @value RT; user_event := @user_event RT; window_handler := @window_handler RT;
  webview_handler := @webview_handler RT;
  attributes := @Attributes UL UserProtocol RequestHandler;
|}.

(** The scripts of the plugins are those of the store. *)
Definition setup_hooks (base : ManagerHooks) (cfg : @Config GL UL Obj UserProtocol) (plugins : list string)
    : ManagerHooks := {|
  window_listener := window_listener;
  webview_listener := webview_listener;
  window_created := window_created;
  webview_created := webview_created;
  local_data_dir := local_data_dir;
  listener_label := listener_label;
  webview_listener_label := webview_listener_label;
  path_is_file := path_is_file;
  asset_protocol := protocol_asset cfg;
  isolation_schema := match app_pattern cfg with Isolation schema => Some schema | Brownfield => None end;
  prepare_attributes := prepare cfg plugins;
|}.

Lemma elem_of_add_unless scheme x l : x ∈ Windows.add_unless scheme l ↔ x = scheme ∨ x ∈ l.
Proof. unfold Windows.add_unless. case_decide; set_solver. Qed.

(** A webview is opened only under a valid and unused label, and the runtime
    registers exactly the schemes that have a handler. *)
Theorem prepared_schemes_have_handlers base cfg plugins pending window_label m pending' :
  (∀ scheme, scheme ∈ Windows.m_protocols m ↔ is_Some (user_protocols cfg !! scheme)) →
  Windows.into_pending_webview (MH := setup_hooks base cfg plugins) pending window_label m = Ok pending' →
  Windows.is_label_valid (pw_label pending') = true ∧ Windows.m_webviews m !! pw_label pending' = None ∧
  ∀ scheme, scheme ∈ Runtime.uri_scheme_protocols pending' ↔ is_Some (handlers (pw_attributes pending') !! scheme).
Proof.
  intros Hm. unfold Windows.into_pending_webview, Windows.prepare_webview.
  destruct (Windows.is_label_valid (pw_label pending)) eqn:Hlab; simpl; [|done].
  case_decide as Hf; [done|]. intros H. apply bind_ok in H as (a' & Ha & [= <-]).
  unfold map_err in Ha. simpl in Ha. 
  destruct (prepare _ _ _ _ _ _) as [a| | |] eqn:Hp; try done. injection Ha as ->.
  cbn [pw_label uri_scheme_protocols pw_attributes].
  split_and!; [done|by apply eq_None_not_Some|].
  apply prepare_handlers in Hp as [origin Hh]. intros scheme. rewrite Hh.
  unfold Windows.scheme_protocols, handler_of. cbn [asset_protocol isolation_schema setup_hooks].
  transitivity (app_pattern cfg = Isolation scheme ∨ scheme = "asset" ∧ protocol_asset cfg = true ∨
    scheme = "ipc" ∨ scheme = "tauri" ∨ is_Some (user_protocols cfg !! scheme)).
  - rewrite <- Hm. destruct (protocol_asset cfg), (app_pattern cfg); rewrite ?elem_of_add_unless; naive_solver.
  - case_bool_decide as Hi; [naive_solver|]. destruct (user_protocols cfg !! scheme); [naive_solver|].
    destruct (protocol_asset cfg); repeat case_decide; naive_solver.
Qed.

End Application.

(** ** Witnesses

    An application with the isolation pattern and one protocol of its own. *)
#[local] Existing Instances Acl.literal_glob Acl.literal_url Ipc.text_web Runtime.ex_types.

#[local] Instance ex_url_lib : UrlLib Acl.literal_url := {|
  Url_parse s := Some s;
  Url_scheme u := match split_once "://" u with Some (a, _) => a | None => "" end;
  Url_domain u := snd <$> split_once "://" u;
  Url_make_relative a b := if decide (a = b) then Some "" else None;
|}.

#[local] Instance ex_url_ops : UrlOps ex_url_lib := {|
  Url_join a b := Some (a +:+ "/" +:+ b);
  Url_set_scheme u _ := Some u;
  Url_set_host u _ := Some u;
  Url_to_string u := u;
  Url_host u := snd <$> split_once "://" u;
  Url_port _ := None;
|}.

#[local] Instance ex_env : SetupEnv := {|
  render_pattern _ := Some "pattern"; render_ipc s := Some s; render_init a b _ _ := Some (a +:+ b);
  render_isolation_frame s := Some s; render_zoom_hotkey := Some "zoom";
  dir_exists _ := false; create_dir_all d := bool_decide (d = "data");
|}.

Definition ex_config : Config :=
  mk_config Ipc.ex_manager false (Isolation "isolation") true "invoke" None {["custom" := ()]} true.

Lemma ex_url_laws : UrlLaws ex_url_ops.
Proof. by constructor. Qed.

Definition ex_attributes : @Attributes Acl.literal_url () () :=
  mk_attributes (AppUrl "page.html") false ["user"] true None "" ∅ false.

Lemma webview_prepared_witness :
  ∃ a', prepare ex_config ["plugin"] "main" "main" (Some "data") ex_attributes = Ok a' ∧
    url a' = "tauri://localhost/page.html" ∧
    handlers a' !! "isolation" = Some (IsolationHandler "isolation" "tauri://localhost/page.html" false).
Proof.
  pose proof (webview_prepared ex_config ["plugin"] "main" "main" (Some "data") ex_attributes ex_url_laws) as H.
  replace (resolve_url ex_config _ _) with (@Ok Refusal _ "tauri://localhost/page.html") in H by (vm_compute; reflexivity).
  destruct (prepare ex_config ["plugin"] "main" "main" (Some "data") ex_attributes) as [a'| | |] eqn:Hp;
    [|vm_compute in Hp; discriminate Hp..].
  exists a'. destruct H as (_ & Hu & _ & _ & Hh). split; [reflexivity|]. split; [exact Hu|].
  rewrite Hh. vm_compute. reflexivity.
Defined.

#[local] Instance ex_unicode : UnicodeTables := {| unicode_alphanumeric _ := false |}.

#[local] Instance ex_setup_types : RuntimeTypes :=
  @setup_types Acl.literal_url () () Runtime.ex_types.

Definition ex_base : ManagerHooks := {|
  window_listener l := l : @window_handler ex_setup_types;
  webview_listener l := l : @webview_handler ex_setup_types;
  window_created _ := [];
  webview_created _ := [];
  local_data_dir := Some "data";
  listener_label h := Some h;
  webview_listener_label h := Some h;
  path_is_file _ := true;
  asset_protocol := false;
  isolation_schema := None;
  prepare_attributes _ _ _ a := Ok a;
|}.

Definition ex_pending : PendingWebview :=
  mk_pending_webview "main" None None [] None false true ex_attributes.

Lemma prepared_schemes_have_handlers_witness :
  ∃ pending', Windows.into_pending_webview (MH := setup_hooks ex_base ex_config ["plugin"]) ex_pending "main"
      Windows.ex_manager = Ok pending' ∧
    Runtime.uri_scheme_protocols pending' = ["custom"; "tauri"; "ipc"; "asset"; "isolation"] ∧
    is_Some (handlers (pw_attributes pending') !! "isolation").
Proof.
  destruct (Windows.into_pending_webview (MH := setup_hooks ex_base ex_config ["plugin"]) ex_pending "main"
    Windows.ex_manager) as [pending'| | |] eqn:Hp; [|vm_compute in Hp; discriminate Hp..].
  exists pending'. split; [reflexivity|].
  assert (∀ scheme, scheme ∈ ["custom"] ↔ is_Some (user_protocols ex_config !! scheme)) as Hm.
  { intros scheme. cbn [user_protocols ex_config]. rewrite list_elem_of_singleton. split.
    - intros ->. exists (). reflexivity.
    - intros [x Hx]. apply lookup_singleton_Some in Hx as [Hx _]. done. }
  destruct (prepared_schemes_have_handlers ex_base ex_config ["plugin"] ex_pending "main" Windows.ex_manager
    pending' Hm Hp) as (_ & _ & Hs).
  assert (Runtime.uri_scheme_protocols pending' = ["custom"; "tauri"; "ipc"; "asset"; "isolation"]) as He.
  { vm_compute in Hp. injection Hp as <-. reflexivity. }
  split; [exact He|]. apply Hs. rewrite He. set_solver.
Defined.

End WebviewSetup.
