(* ===== verification/ConfigFiles.v ===== *)
(** * Configuration files

    Models the search, parsing and merging of configuration files in
    [tauri-utils/Source/config/parse.rs], the configuration that the command
    line keeps in [tauri-cli/Source/helpers/config.rs], and the one that is
    compiled into the application, [get_config] of
    [tauri-codegen/Source/lib.rs]. A path is the list of its components, which is
    how Rust compares paths. The parsers, [json_patch::merge], the schema and the
    typed [Config] are parameters; the properties relate the two readers of the
    configuration. *)
From Stdlib Require Import Ascii.
From S2P Require Import Prelude Acl Paths Values.
Import Acl Paths Values.

(** [serde_json], [json5], [toml], [json_patch] and [jsonschema]; a text or a
    value that does not parse gives the error. *)
Class ConfigLib {SL : SerdeLib} := {
  json_from_str : string → string + json;
  json5_from_str : string → string + json;
  toml_from_str : string → string + json;
  json_to_string : json → string;
  (** [json_patch::merge] *)
  merge : json → json → json;
  schema_valid : json → bool;
  to_uppercase : string → string;
  (** the features of the build *)
  config_json5 : bool;
  config_toml : bool;
  (** [Config]; reading it depends on the working directory *)
  Config : Type;
  config_from_value : list Component → json → string + Config;
  config_to_value : Config → json;
  identifier : Config → string;
  config_plugins : Config → list (string * json);
}.

(** Files: [std::fs::read_to_string] gives the text or an error. *)
Class ConfigFs := {
  exists_ : list Component → bool;
  read_file : list Component → string + string;
  (** [std::env::set_current_dir] *)
  set_current_dir : list Component → bool;
}.

Module ConfigFiles.
Section Parse.
Context {SL : SerdeLib} {CL : ConfigLib} {FS : ConfigFs}.

Abbreviation PathBuf := (list Component).

(** ** Paths *)
Definition join_name (path : PathBuf) (n : string) : PathBuf := path ++ [Normal n].

Definition path_file_name (path : PathBuf) : option string :=
  match last path with Some (Normal s) => Some s | _ => None end.

Definition parent (path : PathBuf) : option PathBuf :=
  match last path with Some RootDir | None => None | Some _ => Some (take (length path - 1) path) end.

Definition with_file_name (path : PathBuf) (n : string) : PathBuf :=
  match path_file_name path with
  | Some _ => join_name (take (length path - 1) path) n
  | None => join_name path n
  end.

(** The text after the last dot, unless it starts the name. *)
Definition extension (path : PathBuf) : option string :=
  n ← path_file_name path;
  match rev (split_on "." n) with
  | ext :: _ :: _ as pieces => if decide (n = "." +:+ ext) then None else Some ext
  | _ => None
  end.

(** ** Formats *)
Inductive ConfigFormat := Json | Json5 | Toml.

Definition EXTENSIONS_SUPPORTED : list string := ["json"; "json5"; "toml"].

Definition ENABLED_FORMATS : list ConfigFormat :=
  [Json] ++ (if config_json5 then [Json5] else []) ++ (if config_toml then [Toml] else []).

Definition into_file_name (f : ConfigFormat) : string :=
  match f with Json => "tauri.conf.json" | Json5 => "tauri.conf.json5" | Toml => "Tauri.toml" end.

Definition into_platform_file_name (f : ConfigFormat) (target : Target) : string :=
  match f with
  | Json =>
      match target with
      | MacOS => "tauri.macos.conf.json"
      | Windows => "tauri.windows.conf.json"
      | Linux => "tauri.linux.conf.json"
      | Android => "tauri.android.conf.json"
      | Ios => "tauri.ios.conf.json"
      end
  | Json5 =>
      match target with
      | MacOS => "tauri.macos.conf.json5"
      | Windows => "tauri.windows.conf.json5"
      | Linux => "tauri.linux.conf.json5"
      | Android => "tauri.android.conf.json5"
      | Ios => "tauri.ios.conf.json5"
      end
  | Toml =>
      match target with
      | MacOS => "Tauri.macos.toml"
      | Windows => "Tauri.windows.toml"
      | Linux => "Tauri.linux.toml"
      | Android => "Tauri.android.toml"
      | Ios => "Tauri.ios.toml"
      end
  end.

Inductive ConfigError :=
| FormatJson (path : PathBuf) (error : string)
| FormatJson5 (path : PathBuf) (error : string)
| FormatToml (path : PathBuf) (error : string)
| UnsupportedFormat (extension : string)
| DisabledFormat (extension feature : string)
| Io (path : PathBuf) (error : string).

Definition folder_has_configuration_file (target : Target) (folder : PathBuf) : bool :=
  exists_ (join_name folder (into_file_name Json))
  || exists_ (join_name folder (into_file_name Json5))
  || exists_ (join_name folder (into_file_name Toml))
  || exists_ (join_name folder (into_platform_file_name Json target))
  || exists_ (join_name folder (into_platform_file_name Json5 target))
  || exists_ (join_name folder (into_platform_file_name Toml target)).

Definition is_configuration_file (target : Target) (path : PathBuf) : bool :=
  match path_file_name path with
  | Some n =>
      bool_decide (n = into_file_name Json) || bool_decide (n = into_file_name Json5)
      || bool_decide (n = into_file_name Toml)
      || bool_decide (n = into_platform_file_name Json target)
      || bool_decide (n = into_platform_file_name Json5 target)
      || bool_decide (n = into_platform_file_name Toml target)
  | None => false
  end.

(** ** Parsing *)
Definition of_sum {E A} (f : string → E) (r : string + A) : outcome E A :=
  match r with inl e => Err (f e) | inr a => Ok a end.

Definition do_parse_json (raw : string) (path : PathBuf) : outcome ConfigError json :=
  of_sum (FormatJson path) (json_from_str raw).
Definition do_parse_json5 (raw : string) (path : PathBuf) : outcome ConfigError json :=
  of_sum (FormatJson5 path) (json5_from_str raw).
Definition do_parse_toml (raw : string) (path : PathBuf) : outcome ConfigError json :=
  of_sum (FormatToml path) (toml_from_str raw).
Definition read_to_string (path : PathBuf) : outcome ConfigError string := of_sum (Io path) (read_file path).

Definition lookup_platform_config (target : Target) (file_name : string) : bool :=
  existsb (λ f, bool_decide (file_name = into_platform_file_name f target)) ENABLED_FORMATS.

Definition alternative (target : Target) (platform : bool) (f : ConfigFormat) : string :=
  if platform then into_platform_file_name f target else into_file_name f.

Definition do_parse (target : Target) (path : PathBuf) : outcome ConfigError (json * PathBuf) :=
  let platform := lookup_platform_config target (default "" (path_file_name path)) in
  let json5 := with_file_name path (alternative target platform Json5) in
  let toml := with_file_name path (alternative target platform Toml) in
  let path_ext := default "" (extension path) in
  if exists_ path then
    raw ← read_to_string path;
    let json := do_parse_json raw path in
    let json := if config_json5 then match do_parse_json5 raw path with Ok j => Ok j | _ => json end else json in
    (λ j, (j, path)) <$> json
  else if exists_ json5 then
    if config_json5 then
      raw ← read_to_string json5; (λ c, (c, json5)) <$> do_parse_json5 raw json5
    else Err (DisabledFormat ".json5" "config-json5")
  else if exists_ toml then
    if config_toml then
      raw ← read_to_string toml; (λ c, (c, toml)) <$> do_parse_toml raw toml
    else Err (DisabledFormat ".toml" "config-toml")
  else if negb (existsb (λ e, bool_decide (e = path_ext)) EXTENSIONS_SUPPORTED) then Err (UnsupportedFormat path_ext)
  else Err (Io path "entity not found").

Definition parse_value (target : Target) (path : PathBuf) : outcome ConfigError (json * PathBuf) :=
  do_parse target path.

Definition does_supported_file_name_exist (target : Target) (path : PathBuf) : outcome ConfigError bool :=
  source_file_name ← expect (path_file_name path) "called `Option::unwrap()` on a `None` value";
  let platform := lookup_platform_config target source_file_name in
  Ok (existsb (λ f, exists_ (with_file_name path (alternative target platform f))) ENABLED_FORMATS).

Definition read_platform (target : Target) (root_dir : PathBuf) : outcome ConfigError (option (json * PathBuf)) :=
  let platform_config_path := join_name root_dir (into_platform_file_name Json target) in
  e ← does_supported_file_name_exist target platform_config_path;
  if e : bool then Some <$> parse_value target platform_config_path else Ok None.

Definition read_from (target : Target) (root_dir : PathBuf) : outcome ConfigError (json * option PathBuf) :=
  '(config, _) ← parse_value target (join_name root_dir "tauri.conf.json");
  p ← read_platform target root_dir;
  match p with
  | Some (platform_config, path) => Ok (merge config platform_config, Some path)
  | None => Ok (config, None)
  end.

(** ** The command line *)
Definition MERGE_CONFIG_EXTENSION_NAME : string := "--config".

Record ConfigMetadata := mk_metadata {
  metadata_target : Target;
  inner : Config;
  extensions : gmap string json;
}.

(** The process of the command line: the configuration it keeps, the variables
    it set, and its working directory. *)
Record Cli := mk_cli {
  config_handle : option ConfigMetadata;
  TAURI_CONFIG : option string;
  plugin_vars : gmap string string;
  current_dir : PathBuf;
}.

Inductive CliError :=
| ReadError (e : ConfigError)
| ValueError (text : string)
| DirectoryError
| NotLoaded
(** [exit(1)] after the errors of the schema were logged *)
| ExitOne.

Definition as_object (v : json) : option (list (string * json)) :=
  match v with JObject m => Some m | _ => None end.
Definition as_str (v : json) : option string := match v with JString s => Some s | _ => None end.
Fixpoint get (k : string) (m : list (string * json)) : option json :=
  match m with
  | [] => None
  | (k', v) :: m => if decide (k' = k) then Some v else get k m
  end.

Definition configured_identifier (v : json) : option string :=
  config ← as_object v; tauri ← get "tauri" config;
  tauri_config ← as_object tauri; bundle ← get "bundle" tauri_config;
  bundle_config ← as_object bundle; id ← get "identifier" bundle_config; as_str id.

Definition find_bundle_identifier_overwriter (c : ConfigMetadata) : option string :=
  fst <$> List.find (λ '(_, v), bool_decide (configured_identifier v = Some (identifier (inner c))))
            (map_to_list (extensions c)).

Definition set_tauri_config (v : json) (st : Cli) : Cli :=
  mk_cli (config_handle st) (Some (json_to_string v)) (plugin_vars st) (current_dir st).
Definition enter (d : PathBuf) (st : Cli) : Cli := mk_cli (config_handle st) (TAURI_CONFIG st) (plugin_vars st) d.

(** The characters [-] of a name become [_]. *)
Definition replace_hyphens (s : string) : string :=
  of_bytes ((λ c, if decide (c = "-"%char) then "_"%char else c) <$> bytes s).

Definition set_plugin_vars (c : Config) (st : Cli) : Cli :=
  mk_cli (config_handle st) (TAURI_CONFIG st)
    (foldl (λ m p, <["TAURI_" +:+ replace_hyphens (to_uppercase p.1) +:+ "_PLUGIN_CONFIG" := json_to_string p.2]> m)
       (plugin_vars st) (config_plugins c))
    (current_dir st).

(** The configuration of the files, with the layers it consists of. *)
Definition read_layers (tauri_dir : PathBuf) (target : Target)
    : outcome ConfigError (json * PathBuf * gmap string json) :=
  '(config, config_path) ← parse_value target (join_name tauri_dir "tauri.conf.json");
  p ← read_platform target tauri_dir;
  match p with
  | Some (platform_config, path) =>
      n ← expect (path_file_name path) "called `Option::unwrap()` on a `None` value";
      Ok (merge config platform_config, config_path, {[n := platform_config]})
  | None => Ok (config, config_path, ∅)
  end.

(** The typed configuration is read in the directory of the file; an error
    leaves the process there. *)
Definition read_typed (config : json) (config_path : PathBuf) (st : Cli) : outcome CliError Config * Cli :=
  match parent config_path with
  | None => (Panic "called `Option::unwrap()` on a `None` value", st)
  | Some d =>
      if negb (set_current_dir d) then (Err DirectoryError, st)
      else match config_from_value d config with
           | inl e => (Err (ValueError e), enter d st)
           | inr c =>
               if negb (set_current_dir (current_dir st)) then (Err DirectoryError, enter d st)
               else (Ok c, st)
           end
  end.

Definition is_json_file (path : PathBuf) : bool :=
  bool_decide (extension path = Some "json") || bool_decide (extension path = Some "json5").

Definition get_internal (tauri_dir : PathBuf) (merge_config : option json) (reload : bool) (target : Target) (st : Cli)
    : outcome CliError () * Cli :=
  if negb reload && bool_decide (is_Some (config_handle st)) then (Ok (), st)
  else
    match read_layers tauri_dir target with
    | Ok (config, config_path, exts) =>
        let '(config, exts, st) :=
          match merge_config with
          | Some v => (merge config v, <[MERGE_CONFIG_EXTENSION_NAME := v]> exts, set_tauri_config v st)
          | None => (config, exts, st)
          end in
        if is_json_file config_path && negb (schema_valid config) && negb reload then (Err ExitOne, st)
        else
          match read_typed config config_path st with
          | (Ok c, st) =>
              let st := set_plugin_vars c st in
              (Ok (), mk_cli (Some (mk_metadata target c exts)) (TAURI_CONFIG st) (plugin_vars st) (current_dir st))
          | (Err e, st) => (Err e, st)
          | (Panic msg, st) => (Panic msg, st)
          | (Diverge, st) => (Diverge, st)
          end
    | Err e => (Err (ReadError e), st)
    | Panic msg => (Panic msg, st)
    | Diverge => (Diverge, st)
    end.

Definition get_config_handle (tauri_dir : PathBuf) (target : Target) (merge_config : option json) :=
  get_internal tauri_dir merge_config false target.

Definition reload (tauri_dir : PathBuf) (merge_config : option json) (st : Cli) : outcome CliError () * Cli :=
  match config_handle st with
  | Some c => get_internal tauri_dir merge_config true (metadata_target c) st
  | None => (Err NotLoaded, st)
  end.

Definition merge_with (merge_config : json) (st : Cli) : outcome CliError () * Cli :=
  match config_handle st with
  | Some c =>
      let st := set_tauri_config merge_config st in
      match config_from_value (current_dir st) (merge (config_to_value (inner c)) merge_config) with
      | inl e => (Err (ValueError e), st)
      | inr config =>
          (Ok (), mk_cli (Some (mk_metadata (metadata_target c) config (extensions c))) (TAURI_CONFIG st)
                    (plugin_vars st) (current_dir st))
      end
  | None => (Err NotLoaded, st)
  end.

(** ** The compiled configuration *)
Inductive CodegenConfigError :=
| CurrentDir
| Parent (path : PathBuf)
| FormatInline (text : string)
| Json_ (text : string)
| ConfigError_ (e : ConfigError).

Definition is_relative (path : PathBuf) : bool := negb (bool_decide (head path = Some RootDir)).

(** [env] is the variable [TAURI_CONFIG] of the process that compiles. *)
Definition codegen_get_config (target : Target) (env : option string) (cwd path : PathBuf)
    : outcome CodegenConfigError (Config * PathBuf) :=
  let path := if is_relative path then cwd ++ path else path in
  dir ← ok_or (parent path) (Parent path);
  '(config, _) ← map_err ConfigError_ (read_from target dir);
  config ← match env with
           | Some text => m ← of_sum FormatInline (json_from_str text); Ok (merge config m)
           | None => Ok config
           end;
  if negb (set_current_dir dir) then Err CurrentDir
  else
    c ← of_sum Json_ (config_from_value dir config);
    if negb (set_current_dir cwd) then Err CurrentDir else Ok (c, dir).

(** ** Lemmas on paths *)
Lemma last_join_name d n : last (join_name d n) = Some (Normal n).
Proof. apply last_snoc. Qed.

Lemma file_name_join_name d n : path_file_name (join_name d n) = Some n.
Proof. unfold path_file_name. by rewrite last_join_name. Qed.

Lemma take_join_name d n : take (length (join_name d n) - 1) (join_name d n) = d.
Proof. unfold join_name. rewrite length_app. simpl. apply take_app_length'. lia. Qed.

Lemma parent_join_name d n : parent (join_name d n) = Some d.
Proof. unfold parent. by rewrite last_join_name, take_join_name. Qed.

Lemma with_file_name_join_name d n n' : with_file_name (join_name d n) n' = join_name d n'.
Proof. unfold with_file_name. by rewrite file_name_join_name, take_join_name. Qed.

(** The names of a platform are no base names, whatever formats are enabled. *)
Lemma base_not_platform target f : lookup_platform_config target (into_file_name f) = false.
Proof.
  unfold lookup_platform_config, ENABLED_FORMATS. destruct config_json5, config_toml, f, target; reflexivity.
Qed.

Lemma platform_is_platform target : lookup_platform_config target (into_platform_file_name Json target) = true.
Proof. unfold lookup_platform_config, ENABLED_FORMATS. simpl. by rewrite bool_decide_eq_true_2. Qed.

(** ** The search order as a specification *)

(** Parsing the file of a format, when the format is enabled. *)
Definition parse_format (f : ConfigFormat) (path : PathBuf) : outcome ConfigError json :=
  match f with
  | Json =>
      raw ← read_to_string path;
      match config_json5, do_parse_json5 raw path with
      | true, Ok j => Ok j
      | _, _ => do_parse_json raw path
      end
  | Json5 =>
      if config_json5 then raw ← read_to_string path; do_parse_json5 raw path
      else Err (DisabledFormat ".json5" "config-json5")
  | Toml =>
      if config_toml then raw ← read_to_string path; do_parse_toml raw path
      else Err (DisabledFormat ".toml" "config-toml")
  end.

(** The first of the three files that exists, enabled or not. *)
Definition first_file (name : ConfigFormat → string) (d : PathBuf) : option ConfigFormat :=
  List.find (λ f, exists_ (join_name d (name f))) [Json; Json5; Toml].

Definition parse_first (name : ConfigFormat → string) (d : PathBuf) : outcome ConfigError (json * PathBuf) :=
  match first_file name d with
  | Some f => (λ j, (j, join_name d (name f))) <$> parse_format f (join_name d (name f))
  | None => Err (Io (join_name d (name Json)) "entity not found")
  end.

Definition enabled_file (name : ConfigFormat → string) (d : PathBuf) : bool :=
  existsb (λ f, exists_ (join_name d (name f))) ENABLED_FORMATS.

Lemma do_parse_first target platform d :
  do_parse target (join_name d (alternative target platform Json)) = parse_first (alternative target platform) d.
Proof.
  assert (lookup_platform_config target (alternative target platform Json) = platform) as Hp.
  { destruct platform; [apply platform_is_platform|apply (base_not_platform target Json)]. }
  assert (existsb (λ e, bool_decide (e = default "" (extension (join_name d (alternative target platform Json)))))
            EXTENSIONS_SUPPORTED = true) as He.
  { unfold extension. rewrite file_name_join_name. by destruct platform, target. }
  unfold do_parse. rewrite file_name_join_name.
  change (default "" (Some (alternative target platform Json))) with (alternative target platform Json).
  rewrite Hp, He, !with_file_name_join_name.
  unfold parse_first, first_file, List.find.
  destruct (exists_ _); [|destruct (exists_ _); [|destruct (exists_ _); [|done]]]; unfold parse_format.
  - destruct (read_to_string _); simpl; [|done..]. destruct config_json5; [|by destruct (do_parse_json _ _)].
    destruct (do_parse_json5 _ _); [done|by destruct (do_parse_json _ _)..].
  - destruct config_json5; [|done]. by destruct (read_to_string _).
  - destruct config_toml; [|done]. by destruct (read_to_string _).
Qed.

Lemma do_parse_base target d :
  do_parse target (join_name d "tauri.conf.json") = parse_first into_file_name d.
Proof. exact (do_parse_first target false d). Qed.

Lemma do_parse_platform target d :
  do_parse target (join_name d (into_platform_file_name Json target)) =
  parse_first (λ f, into_platform_file_name f target) d.
Proof. exact (do_parse_first target true d). Qed.

Lemma supported_enabled target d :
  does_supported_file_name_exist target (join_name d (into_platform_file_name Json target)) =
  Ok (enabled_file (λ f, into_platform_file_name f target) d).
Proof.
  unfold does_supported_file_name_exist. rewrite file_name_join_name. cbn [expect mbind outcome_bind].
  rewrite platform_is_platform. f_equal. unfold enabled_file.
  induction ENABLED_FORMATS as [|f l IH]; [done|]. cbn [existsb]. by rewrite with_file_name_join_name, IH.
Qed.

(** ** Properties *)

(** The files of a directory are read in the documented order: of the base files
    and of the files of the platform the first that exists is taken, JSON before
    JSON5 before TOML, and the platform is merged over the base. A base file in
    a format that is not enabled is an error; the platform is looked at only
    when a file of an enabled format is there. *)
Theorem read_from_hierarchy target d :
  read_from target d =
    '(base, _) ← parse_first into_file_name d;
    if enabled_file (λ f, into_platform_file_name f target) d then
      '(platform, path) ← parse_first (λ f, into_platform_file_name f target) d;
      Ok (merge base platform, Some path)
    else Ok (base, None).
Proof.
  unfold read_from, parse_value. rewrite do_parse_base.
  destruct (parse_first into_file_name d) as [[base p]| | |]; [|done..]. cbn [mbind outcome_bind].
  unfold read_platform. rewrite supported_enabled. cbn [mbind outcome_bind].
  destruct (enabled_file _ d); [|done]. unfold parse_value. rewrite do_parse_platform.
  by destruct (parse_first _ d) as [[v p']| | |].
Qed.

Lemma parse_first_path name d v p : parse_first name d = Ok (v, p) → ∃ n, p = join_name d n.
Proof.
  unfold parse_first. destruct (first_file name d) as [f|]; [|done].
  destruct (parse_format f _); simpl; [|done..]. intros [= _ <-]. eauto.
Qed.

Lemma read_layers_from tauri_dir target config config_path exts :
  read_layers tauri_dir target = Ok (config, config_path, exts) →
  (∃ p, read_from target tauri_dir = Ok (config, p)) ∧ parent config_path = Some tauri_dir.
Proof.
  unfold read_layers, read_from. intros ([base bp] & Hb & H)%bind_ok. rewrite Hb. cbn [mbind outcome_bind].
  assert (parent bp = Some tauri_dir) as Hp.
  { unfold parse_value in Hb. rewrite do_parse_base in Hb.
    apply parse_first_path in Hb as [n ->]. apply parent_join_name. }
  apply bind_ok in H as (p & Hr & H). rewrite Hr. cbn [mbind outcome_bind].
  destruct p as [[v path]|]; [apply bind_ok in H as (n & _ & H)|]; simplify_eq; eauto.
Qed.

(** C31. The application is compiled with the configuration that the command line
    computed: when the command line read its configuration, what it keeps is
    what the code generation reads from the same directory under the variable
    that the command line set. *)
Theorem compiled_config_agrees tauri_dir merge_config again target st st' :
  (∀ v, merge_config = Some v → json_from_str (json_to_string v) = inr v) →
  head tauri_dir = Some RootDir →
  (again = false → config_handle st = None) → (merge_config = None → TAURI_CONFIG st = None) →
  get_internal tauri_dir merge_config again target st = (Ok (), st') →
  ∃ c exts, config_handle st' = Some (mk_metadata target c exts) ∧
    codegen_get_config target (TAURI_CONFIG st') (current_dir st') (join_name tauri_dir "tauri.conf.json") =
      Ok (c, tauri_dir) ∧
    current_dir st' = current_dir st.
Proof.
  intros HL Habs Hload Henv. unfold get_internal.
  replace (negb again && bool_decide (is_Some (config_handle st))) with false.
  2: { destruct again; [done|]. by rewrite Hload. }
  destruct (read_layers tauri_dir target) as [[[config path] exts]| | |] eqn:Hr; [|done..].
  apply read_layers_from in Hr as [[p Hread] Hparent].
  set (layered := match merge_config with Some v => _ | None => _ end).
  assert (∃ config' exts' st1, layered = (config', exts', st1) ∧ current_dir st1 = current_dir st ∧
    match TAURI_CONFIG st1 with
    | Some text => m ← of_sum FormatInline (json_from_str text); Ok (merge config m)
    | None => Ok config
    end = Ok config') as (config' & exts' & st1 & -> & Hdir & Hmerge).
  { subst layered. destruct merge_config as [v|]; do 3 eexists; (split; [reflexivity|]).
    - simpl. by rewrite HL.
    - by rewrite Henv. }
  match goal with |- context [if ?b then (Err ExitOne, _) else _] => destruct b end; [done|].
  unfold read_typed. rewrite Hparent. destruct (set_current_dir tauri_dir) eqn:Hin; [|done]. cbn [negb].
  destruct (config_from_value tauri_dir config') as [|c] eqn:Hc; [done|].
  destruct (set_current_dir (current_dir st1)) eqn:Hback; [|done]. cbn [negb]. intros [= <-].
  exists c, exts'. simpl. split; [done|]. split; [|done].
  assert (is_relative (join_name tauri_dir "tauri.conf.json") = false) as Hrel.
  { unfold is_relative, join_name. destruct tauri_dir; [done|]. simpl in *. by rewrite Habs. }
  unfold codegen_get_config. rewrite Hrel, parent_join_name. cbn [ok_or mbind outcome_bind].
  rewrite Hread. cbn [map_err mbind outcome_bind].
  rewrite Hmerge. cbn [mbind outcome_bind]. rewrite Hin. cbn [negb]. rewrite Hc. cbn [of_sum mbind outcome_bind].
  by rewrite Hback.
Qed.

(** A file of the platform in a format that is not enabled is not seen, while
    a base file in that format is an error. *)
Theorem disabled_platform_file_ignored target d v :
  config_toml = false →
  (∀ f, f ≠ Toml → exists_ (join_name d (into_platform_file_name f target)) = false) →
  parse_format Json (join_name d "tauri.conf.json") = Ok v →
  exists_ (join_name d "tauri.conf.json") = true →
  read_from target d = Ok (v, None) ∧
  ((∀ f, f ≠ Toml → exists_ (join_name d (into_file_name f)) = false) →
   exists_ (join_name d "Tauri.toml") = true →
   parse_first into_file_name d = Err (DisabledFormat ".toml" "config-toml")).
Proof.
  intros Ht Hp Hv He. split.
  - unfold read_from, read_platform, parse_value. rewrite supported_enabled, do_parse_base.
    unfold parse_first, first_file, List.find. cbn [into_file_name]. rewrite He. cbn [into_file_name].
    rewrite Hv. cbn -[enabled_file].
    replace (enabled_file _ d) with false; [done|]. symmetry. unfold enabled_file, ENABLED_FORMATS. rewrite Ht.
    pose proof (Hp Json) as H1. pose proof (Hp Json5) as H2.
    destruct config_json5; cbn [app existsb]; rewrite ?H1, ?H2 by done; done.
  - intros Hb Hx. unfold parse_first, first_file, List.find. rewrite (Hb Json), (Hb Json5) by done.
    cbn [into_file_name]. rewrite Hx. simpl. by rewrite Ht.
Qed.

(** A configuration that does not deserialize leaves the process in the
    directory of its file. *)
Theorem failed_reload_moves_process tauri_dir target c exts st e config path exts' :
  config_handle st = Some (mk_metadata target c exts) → set_current_dir tauri_dir = true →
  read_layers tauri_dir target = Ok (config, path, exts') → config_from_value tauri_dir config = inl e →
  reload tauri_dir None st = (Err (ValueError e), enter tauri_dir st).
Proof.
  intros Hh Hd Hr Hc. unfold reload. rewrite Hh. unfold get_internal. cbn [negb andb metadata_target]. rewrite Hr.
  rewrite andb_false_r. apply read_layers_from in Hr as [_ Hp]. unfold read_typed. by rewrite Hp, Hd, Hc.
Qed.

(** An identifier is looked for below the keys [tauri] and [bundle], where
    configurations no longer have it: one that sets it at the top is not
    found. *)
Theorem identifier_overwriter_not_found c :
  (∀ n v m, extensions c !! n = Some v → as_object v = Some m → get "tauri" m = None) →
  find_bundle_identifier_overwriter c = None.
Proof.
  intros H. unfold find_bundle_identifier_overwriter.
  destruct (List.find _ _) as [[n v]|] eqn:Hf; [|done]. apply find_some in Hf as [Hin Hb].
  apply bool_decide_eq_true in Hb. apply list_elem_of_In, elem_of_map_to_list in Hin.
  unfold configured_identifier in Hb. destruct (as_object v) as [m|] eqn:Hm; [|done]. cbn in Hb.
  by rewrite (H n v m Hin Hm) in Hb.
Qed.

End Parse.

(** ** Witnesses

    A directory with a base file and a TOML file for Linux, and a configuration
    from the command line. *)
#[local] Instance ex_numbers : SerdeLib := {|
  json_number := (); as_f64 _ := None; as_u64 _ := None; as_i64 _ := None; from_f64 _ := None; from_i64 _ := ();
  toml_datetime := (); datetime_to_string _ := "";
|}.

#[local] Instance ex_lib : ConfigLib := {|
  json_from_str s := inr (JString s);
  json5_from_str s := inl "no";
  toml_from_str s := inr (JString s);
  json_to_string v := match v with JString s => s | _ => "" end;
  merge a b := match a, b with JString x, JString y => JString (x +:+ "+" +:+ y) | _, _ => b end;
  schema_valid _ := true;
  to_uppercase s := s;
  config_json5 := true;
  config_toml := true;
  Config := json;
  config_from_value _ v := inr v;
  config_to_value v := v;
  identifier _ := "id";
  config_plugins _ := [("my-plugin", JString "conf")];
|}.

Definition ex_root : list Component := [RootDir; Normal "app"].

#[local] Instance ex_fs : ConfigFs := {|
  exists_ p := bool_decide (p ∈ [join_name ex_root "tauri.conf.json"; join_name ex_root "Tauri.linux.toml"]);
  read_file p := inr (default "" (path_file_name p));
  set_current_dir _ := true;
|}.

Definition ex_cli : Cli := mk_cli None None ∅ [RootDir].

Lemma compiled_config_agrees_witness :
  ∃ c, codegen_get_config Linux (Some "cli") [RootDir] (join_name ex_root "tauri.conf.json") = Ok (c, ex_root) ∧
    c = JString "tauri.conf.json+Tauri.linux.toml+cli".
Proof.
  destruct (compiled_config_agrees ex_root (Some (JString "cli")) false Linux ex_cli
    (get_internal ex_root (Some (JString "cli")) false Linux ex_cli).2) as (c & exts & Hh & Hc & _).
  - intros v [= <-]. reflexivity.
  - reflexivity.
  - reflexivity.
  - intros H. discriminate H.
  - reflexivity.
  - exists c. split; [exact Hc|]. assert (inner <$> config_handle
      (get_internal ex_root (Some (JString "cli")) false Linux ex_cli).2 =
      Some (JString "tauri.conf.json+Tauri.linux.toml+cli")) as He by reflexivity.
    rewrite Hh in He. by injection He as ->.
Defined.

End ConfigFiles.
