(* ===== verification/BuildSupport.v ===== *)
(** * Build support

    Models the helpers of build scripts: [read_line] of
    [tauri-utils/Source/io.rs] (Module [Io]), and the permission and capability
    files of [tauri-utils/Source/acl/build.rs] with [CapabilityFile::load] of
    [acl/capability.rs] (Module [AclBuild]). Globs, the file system and the
    parsers are parameters. Paths are lists of components, as in [ConfigFiles].
    Names of crates, of variables and of commands are ASCII and hold no slash. *)
From Stdlib Require Import Ascii.
From S2P Require Import Prelude Identifier Acl Paths Values BundleResources ConfigFiles.

Module Io.

(** What [fill_buf] answers: bytes that are available, an interruption, or
    another error. The end of the list is the end of the input. *)
Inductive Fill := Available (bytes : list ascii) | Interrupted | Failed.

Definition newline : ascii := "010"%char.
Definition carriage_return : ascii := "013"%char.

(** [memchr]. *)
Fixpoint memchr (c : ascii) (l : list ascii) : option nat :=
  match l with
  | [] => None
  | x :: l => if decide (x = c) then Some 0 else S <$> memchr c l
  end.

(** [consume]: an empty rest is followed by the next chunk, not by the end. *)
Definition consume (n : nat) (available : list ascii) (r : list Fill) : list Fill :=
  if decide (drop n available = []) then r else Available (drop n available) :: r.

(** [Ok] of the number of bytes read, or an error; with the buffer and the rest
    of the input. *)
Fixpoint read_line (r : list Fill) (buf : list ascii) (read : nat) : outcome () nat * list ascii * list Fill :=
  match r with
  | [] => (Ok read, buf, [])
  | Interrupted :: r => read_line r buf read
  | Failed :: r => (Err (), buf, r)
  | Available available :: r =>
      let stop i := (Ok (read + (i + 1)), buf ++ take (i + 1) available, consume (i + 1) available r) in
      match memchr newline available with
      | Some i => stop i
      | None =>
          match memchr carriage_return available with
          | Some i => stop i
          | None =>
              if decide (available = []) then (Ok read, buf, r)
              else read_line r (buf ++ available) (read + length available)
          end
      end
  end.

(** ** Properties *)

(** The bytes of the input up to the first error. *)
Fixpoint input (r : list Fill) : list ascii :=
  match r with
  | Available l :: r => l ++ input r
  | Interrupted :: r => input r
  | Failed :: _ | [] => []
  end.

Lemma memchr_spec c l i : memchr c l = Some i → l !! i = Some c ∧ (c ∉ take i l).
Proof.
  revert i. induction l as [|x l IH]; intros i; simpl; [done|]. case_decide as Hx.
  - intros [= <-]. subst. split; [done|]. by apply not_elem_of_nil.
  - destruct (memchr c l) as [j|]; [|done]. intros [= <-]. destruct (IH j eq_refl) as [H1 H2]. split; [done|].
    simpl. rewrite not_elem_of_cons. auto.
Qed.

Lemma memchr_None c l : memchr c l = None → c ∉ l.
Proof.
  induction l as [|x l IH]; simpl; [by intros _ ?%not_elem_of_nil|]. case_decide; [done|].
  destruct (memchr c l); [done|]. rewrite not_elem_of_cons. auto.
Qed.

Lemma input_consume n available r : take n available ++ input (consume n available r) = available ++ input r.
Proof.
  rewrite <- (take_drop n available) at 3. unfold consume. case_decide as Hd; simpl; [by rewrite Hd, app_nil_r|].
  by rewrite app_assoc.
Qed.

(** No byte is lost and none is invented: what [read_line] appends to the buffer
    is as long as it says and is the next part of the input. The part holds no
    newline before its end, and it ends with a newline, with a carriage return,
    or where no more bytes are available. *)
Theorem read_line_lossless r buf read n buf' r' :
  (∀ l, Available l ∈ r → l ≠ []) →
  read_line r buf read = (Ok n, buf', r') →
  ∃ line, buf' = buf ++ line ∧ n = read + length line ∧ input r = line ++ input r' ∧
    (∀ l1 l2, line = l1 ++ newline :: l2 → l2 = []) ∧
    (last line = Some newline ∨ last line = Some carriage_return ∨ r' = []).
Proof.
  revert buf read. induction r as [|[available| |] r IH]; intros buf read Hne H; simpl in H.
  - injection H as <- <- <-. exists []. rewrite app_nil_r. split_and!; [done|simpl; lia|done| |auto]. by intros [].
  - assert (available ≠ []) as Ha by (apply Hne; left).
    assert (∀ i c, memchr c available = Some i →
      last (take (i + 1) available) = Some c ∧ length (take (i + 1) available) = i + 1 ∧
      available = take (i + 1) available ++ drop (i + 1) available ∧
      take (i + 1) available = take i available ++ [c]) as Hcut.
    { intros i c Hc. apply memchr_spec in Hc as [Hi _]. rewrite Nat.add_1_r.
      rewrite (take_S_r _ _ _ Hi), last_snoc, length_app, length_take. apply lookup_lt_Some in Hi as Hlt.
      split_and!; simpl; [done|lia| |done]. by rewrite <- (take_S_r _ _ _ Hi), take_drop. }
    destruct (memchr newline available) as [i|] eqn:Hn; [|destruct (memchr carriage_return available) as [i|] eqn:Hc].
    + injection H as <- <- <-. destruct (Hcut i newline Hn) as (Hl & Hlen & Hsplit & Hend).
      exists (take (i + 1) available). rewrite Hlen. split_and!; [done|lia| | |auto].
      * by rewrite input_consume.
      * intros l1 l2 Heq. destruct (last l2) as [z|] eqn:Hz; [|by apply last_None in Hz].
        exfalso. apply last_Some in Hz as [l2' ->]. apply memchr_spec in Hn as [_ Hn]. apply Hn.
        rewrite Hend in Heq. rewrite app_comm_cons, app_assoc in Heq. apply app_inj_2 in Heq as [-> _]; [|done].
        apply elem_of_app. right. left.
    + injection H as <- <- <-. destruct (Hcut i carriage_return Hc) as (Hl & Hlen & Hsplit & Hend).
      exists (take (i + 1) available). rewrite Hlen. split_and!; [done|lia| | |auto].
      * by rewrite input_consume.
      * intros l1 l2 Heq. apply memchr_None in Hn. exfalso. apply Hn. rewrite Hsplit, Heq. set_solver.
    + rewrite decide_False in H by done.
      apply IH in H as (line & -> & -> & Hi & Hnl & Hend); [|intros l Hl; apply Hne; by right].
      exists (available ++ line). rewrite length_app, app_assoc. simpl. rewrite Hi, app_assoc.
      split_and!; [done|lia|done| |].
      * intros l1 l2 Heq. apply memchr_None in Hn.
        apply app_eq_inv in Heq as [(k & -> & Hk)|(k & Hl1 & Hk)]; [|by eapply Hnl].
        destruct k as [|x k]; simplify_eq/=; [by eapply (Hnl [])|]. exfalso. apply Hn. set_solver.
      * destruct Hend as [Hl|[Hl| ->]]; [left|right; left|auto]; by rewrite last_app, Hl.
  - by apply IH in H; [|intros l Hl; apply Hne; right].
  - done.
Qed.

Definition ex_bytes (s : string) : list ascii := bytes s.
Definition ex_cr : string := String carriage_return EmptyString.
Definition ex_nl : string := String newline EmptyString.

(** Where a line ends depends on how the input arrives: a carriage return ends a
    line only if no newline came with it. *)
Theorem read_line_depends_on_chunks :
  let line r := (read_line r [] 0).1.2 in
  line [Available (ex_bytes ("a" +:+ ex_cr +:+ "b" +:+ ex_nl))] = ex_bytes ("a" +:+ ex_cr +:+ "b" +:+ ex_nl) ∧
  line [Available (ex_bytes ("a" +:+ ex_cr)); Available (ex_bytes ("b" +:+ ex_nl))] = ex_bytes ("a" +:+ ex_cr).
Proof. split; reflexivity. Qed.

Lemma read_line_lossless_witness :
  ∃ line, [Ascii.zero] ++ line = [Ascii.zero] ++ ex_bytes ("ab" +:+ ex_nl) ∧ last line = Some newline.
Proof.
  destruct (read_line_lossless [Available (ex_bytes "a"); Interrupted; Available (ex_bytes ("b" +:+ ex_nl +:+ "c"))]
    [Ascii.zero] 0 3 ([Ascii.zero] ++ ex_bytes ("ab" +:+ ex_nl)) [Available (ex_bytes "c")])
    as (line & Hb & _ & _ & _ & Hl).
  - intros l Hin. rewrite !elem_of_cons in Hin. destruct Hin as [[= ->]|[|[[= ->]|Hin]]]; try done.
    by apply not_elem_of_nil in Hin.
  - reflexivity.
  - exists line. split; [symmetry; exact Hb|]. injection Hb as Hb. rewrite <- Hb. reflexivity.
Defined.

End Io.

(** [glob], [std::fs], [toml], [serde_json] and [json5]. *)
Class BuildLib := {
  (** the entries of a pattern that can be read, or an invalid pattern *)
  glob_paths : string → option (list (list Paths.Component));
  canonicalize_path : list Paths.Component → option (list Paths.Component);
  fs_read : list Paths.Component → option string;
  (** whether the text can be written *)
  fs_write : list Paths.Component → string → bool;
  permission_from_toml : string → option Acl.PermissionFile;
  permission_from_json : string → option Acl.PermissionFile;
  capability_from_toml : string → option Acl.CapabilityFile;
  capability_from_json : string → option Acl.CapabilityFile;
  capability_from_json5 : string → option Acl.CapabilityFile;
  paths_to_json : list (list Paths.Component) → string;
  paths_from_json : string → option (list (list Paths.Component));
  (** [serde_json::to_vec] of a schema, and its parser; the value it gives is its text *)
  schema : Type;
  schema_to_json : schema → string;
  value_from_json : string → option string;
  feature_json5 : bool;
  path_exists : list Paths.Component → bool;
  create_dir_all : list Paths.Component → bool;
  current_directory : list Paths.Component;
}.

Module AclBuild.
Import Acl Paths ConfigFiles.
Section Build.
Context {BL : BuildLib}.

Abbreviation PathBuf := (list Component).

Inductive Error :=
| ReadFile (path : PathBuf)
| WriteFile (path : PathBuf)
| Glob
| TomlError
| JsonError
| Json5Error
| UnknownPermissionFormat (extension : string)
| UnknownCapabilityFormat (extension : string)
| CapabilityAlreadyExists (identifier : string).

(** ** Strings *)
Definition strip_suffix (p s : string) : option string := rev_string <$> strip_prefix (rev_string p) (rev_string s).

(** [str::replace] of a character by a character. *)
Definition replace_char (from to : ascii) (s : string) : string :=
  of_bytes ((λ c, if decide (c = from) then to else c) <$> bytes s).

(** [str::to_lowercase] of ASCII text. *)
Definition lower_char (c : ascii) : ascii :=
  if (65 <=? N_of_ascii c)%N && (N_of_ascii c <=? 90)%N then ascii_of_N (N_of_ascii c + 32) else c.
Definition to_lowercase (s : string) : string := of_bytes (lower_char <$> bytes s).

(** ** Permission files *)
Definition PERMISSION_FILES_PATH_KEY : string := "PERMISSION_FILES_PATH".
Definition GLOBAL_SCOPE_SCHEMA_PATH_KEY : string := "GLOBAL_SCOPE_SCHEMA_PATH".
Definition PERMISSION_FILE_EXTENSIONS : list string := ["json"; "toml"].
Definition PERMISSION_SCHEMAS_FOLDER_NAME : string := "schemas".
Definition PERMISSION_SCHEMA_FILE_NAME : string := "schema.json".
Definition PERMISSION_DOCS_FILE_NAME : string := "reference.md".
Definition CORE_PLUGIN_PERMISSIONS_TOKEN : string := "__CORE_PLUGIN__".
Definition CAPABILITIES_SCHEMA_FOLDER_NAME : string := "schemas".
Definition CAPABILITY_FILE_EXTENSIONS : list string :=
  ["json"] ++ (if feature_json5 then ["json5"] else []) ++ ["toml"].

Definition unwrap_none : string := "called `Option::unwrap()` on a `None` value".

Definition parse_permission (path : PathBuf) : outcome Error PermissionFile :=
  ext ← expect (extension path) unwrap_none;
  permission_file ← ok_or (fs_read path) (ReadFile path);
  if decide (ext = "toml") then ok_or (permission_from_toml permission_file) TomlError
  else if decide (ext = "json") then ok_or (permission_from_json permission_file) JsonError
  else Err (UnknownPermissionFormat ext).

Definition parse_permissions (paths : list PathBuf) : outcome Error (list PermissionFile) :=
  collect parse_permission paths.

(** The last filter of the chains: the folder of the file is not [schemas]. *)
Definition outside_of (folder : string) (p : PathBuf) : outcome Error bool :=
  d ← expect (parent p) unwrap_none;
  n ← expect (path_file_name d) unwrap_none;
  Ok (negb (bool_decide (n = folder))).

Fixpoint filter_outside (folder : string) (l : list PathBuf) : outcome Error (list PathBuf) :=
  match l with
  | [] => Ok []
  | p :: l => b ← outside_of folder p; l ← filter_outside folder l; Ok (if b : bool then p :: l else l)
  end.

Definition has_extension (extensions : list string) (p : PathBuf) : bool :=
  match extension p with Some e => bool_decide (e ∈ extensions) | None => false end.

(** What a build script leaves behind: the file with the list of paths, and the
    variable it prints. *)
Record Metadata := mk_metadata {
  list_file : PathBuf;
  list_text : string;
  cargo_key : string;
}.

Definition metadata_key (pkg_name key : string) : string :=
  match strip_prefix "tauri:" pkg_name with
  | Some plugin_name => plugin_name +:+ CORE_PLUGIN_PERMISSIONS_TOKEN +:+ "_" +:+ key
  | None => key
  end.

Definition define_permissions (pattern pkg_name : string) (out_dir : PathBuf) (filter_fn : PathBuf → bool)
    : outcome Error (Metadata * list PermissionFile) :=
  paths ← ok_or (glob_paths pattern) Glob;
  permission_files ← filter_outside PERMISSION_SCHEMAS_FOLDER_NAME
    (List.filter filter_fn
       (List.filter (has_extension PERMISSION_FILE_EXTENSIONS) (omap canonicalize_path paths)));
  let permission_files_path :=
    join_name out_dir (replace_char ":" "-" pkg_name +:+ "-permission-files") in
  let permission_files_json := paths_to_json permission_files in
  if negb (fs_write permission_files_path permission_files_json) then Err (WriteFile permission_files_path)
  else
    l ← parse_permissions permission_files;
    Ok (mk_metadata permission_files_path permission_files_json (metadata_key pkg_name PERMISSION_FILES_PATH_KEY), l).

(** The plugin that a variable of cargo is about. *)
Definition plugin_crate_name (key_name key : string) : option string :=
  v ← strip_prefix "DEP_" key;
  v ← strip_suffix ("_" +:+ key_name) v;
  let v := default v (strip_suffix CORE_PLUGIN_PERMISSIONS_TOKEN v ≫= strip_prefix "TAURI_") in
  let n := replace_char "_" "-" (to_lowercase v) in
  Some (default n (strip_prefix "tauri-plugin-" n)).

Definition read_variable (m : gmap string (list PermissionFile)) (var : string * PathBuf)
    : outcome Error (gmap string (list PermissionFile)) :=
  match plugin_crate_name PERMISSION_FILES_PATH_KEY var.1 with
  | Some n =>
      permissions_str ← ok_or (fs_read var.2) (ReadFile var.2);
      paths ← ok_or (paths_from_json permissions_str) JsonError;
      l ← parse_permissions paths;
      Ok (<[n := l]> m)
  | None => Ok m
  end.

Definition read_permissions (vars : list (string * PathBuf)) : outcome Error (gmap string (list PermissionFile)) :=
  for_each read_variable vars ∅.

(** ** Schemas of global scopes *)
Definition define_global_scope_schema (s : schema) (pkg_name : string) (out_dir : PathBuf) : outcome Error Metadata :=
  let path := join_name out_dir "global-scope.json" in
  if negb (fs_write path (schema_to_json s)) then Err (WriteFile path)
  else Ok (mk_metadata path (schema_to_json s) (metadata_key pkg_name GLOBAL_SCOPE_SCHEMA_PATH_KEY)).

Definition read_schema_variable (m : gmap string string) (var : string * PathBuf) : outcome Error (gmap string string) :=
  match plugin_crate_name GLOBAL_SCOPE_SCHEMA_PATH_KEY var.1 with
  | Some n =>
      text ← ok_or (fs_read var.2) (ReadFile var.2);
      v ← ok_or (value_from_json text) JsonError;
      Ok (<[n := v]> m)
  | None => Ok m
  end.

Definition read_global_scope_schemas (vars : list (string * PathBuf)) : outcome Error (gmap string string) :=
  for_each read_schema_variable vars ∅.

(** ** Capability files *)
Definition CapabilityFile_load (path : PathBuf) : outcome Error CapabilityFile :=
  capability_file ← ok_or (fs_read path) (ReadFile path);
  ext ← expect (extension path) unwrap_none;
  if decide (ext = "toml") then ok_or (capability_from_toml capability_file) TomlError
  else if decide (ext = "json") then ok_or (capability_from_json capability_file) JsonError
  else if decide (ext = "json5") then
    if feature_json5 then ok_or (capability_from_json5 capability_file) Json5Error
    else Err (UnknownCapabilityFormat ext)
  else Err (UnknownCapabilityFormat ext).

Definition capabilities_of (f : CapabilityFile) : list Capability :=
  match f with
  | CapabilityFile_Capability c => [c]
  | CapabilityFile_List l | CapabilityFile_NamedList l => l
  end.

Definition add_capability (m : gmap string Capability) (c : Capability) : outcome Error (gmap string Capability) :=
  if decide (is_Some (m !! capability_identifier c)) then Err (CapabilityAlreadyExists (capability_identifier c))
  else Ok (<[capability_identifier c := c]> m).

Definition add_capability_file (m : gmap string Capability) (path : PathBuf)
    : outcome Error (gmap string Capability) :=
  f ← CapabilityFile_load path;
  for_each add_capability (capabilities_of f) m.

(** The filters run as the loop asks for the next path. *)
Definition visit_capability_path (m : gmap string Capability) (path : PathBuf)
    : outcome Error (gmap string Capability) :=
  if negb (has_extension CAPABILITY_FILE_EXTENSIONS path) then Ok m
  else
    b ← outside_of CAPABILITIES_SCHEMA_FOLDER_NAME path;
    if b : bool then add_capability_file m path else Ok m.

Definition parse_capabilities (pattern : string) : outcome Error (gmap string Capability) :=
  paths ← ok_or (glob_paths pattern) Glob;
  for_each visit_capability_path paths ∅.

(** ** Generated permissions *)
Definition nl : string := String "010"%char EmptyString.
Definition dq : string := String "034"%char EmptyString.

Definition slugify (command : string) : string := replace_char "_" "-" command.

(** The schema is as many folders up as the path has components below the
    working directory, less one. *)
Definition schema_entry (schema_ref : bool) (path : PathBuf) : string :=
  if schema_ref then
    let components_len := length (default path (BundleResources.strip_components current_directory path)) in
    nl +:+ dq +:+ "$schema" +:+ dq +:+ " = " +:+ dq +:+
    join "/" (replicate (components_len - 1) ".." ++ [PERMISSION_SCHEMAS_FOLDER_NAME; PERMISSION_SCHEMA_FILE_NAME]) +:+
    dq +:+ nl
  else "".

Definition command_toml (license_header schema_entry command : string) : string :=
  license_header +:+ "# Automatically generated - DO NOT EDIT!" +:+ nl +:+
  schema_entry +:+ nl +:+
  "[[permission]]" +:+ nl +:+
  "identifier = " +:+ dq +:+ "allow-" +:+ slugify command +:+ dq +:+ nl +:+
  "description = " +:+ dq +:+ "Enables the " +:+ command +:+ " command without any pre-configured scope." +:+ dq +:+ nl +:+
  "commands.allow = [" +:+ dq +:+ command +:+ dq +:+ "]" +:+ nl +:+
  nl +:+
  "[[permission]]" +:+ nl +:+
  "identifier = " +:+ dq +:+ "deny-" +:+ slugify command +:+ dq +:+ nl +:+
  "description = " +:+ dq +:+ "Denies the " +:+ command +:+ " command without any pre-configured scope." +:+ dq +:+ nl +:+
  "commands.deny = [" +:+ dq +:+ command +:+ dq +:+ "]" +:+ nl.

(** The writes that happen, or nothing if the file cannot be written. *)
Definition write_if_changed (path : PathBuf) (content : string) : option (list (PathBuf * string)) :=
  if decide (fs_read path = Some content) then Some []
  else if fs_write path content then Some [(path, content)] else None.

Record AutogeneratedPermissions := mk_autogenerated {
  allowed : list string;
  denied : list string;
}.

Definition command_file (path : PathBuf) (command : string) : PathBuf := join_name path (command +:+ ".toml").

Definition autogenerate_command (path : PathBuf) (license_header entry : string)
    (a : AutogeneratedPermissions * list (PathBuf * string)) (command : string)
    : outcome Empty_set (AutogeneratedPermissions * list (PathBuf * string)) :=
  w ← expect (write_if_changed (command_file path command) (command_toml license_header entry command))
        "unable to autogenerate";
  Ok (mk_autogenerated (allowed a.1 ++ ["allow-" +:+ slugify command]) (denied a.1 ++ ["deny-" +:+ slugify command]),
      a.2 ++ w).

Definition autogenerate_command_permissions (path : PathBuf) (commands : list string) (license_header : string)
    (schema_ref : bool) : outcome Empty_set (AutogeneratedPermissions * list (PathBuf * string)) :=
  if negb (path_exists path) && negb (create_dir_all path) then Panic "unable to create autogenerated commands dir"
  else
    for_each (autogenerate_command path license_header (schema_entry schema_ref path)) commands
      (mk_autogenerated [] [], []).

(** ** The reference page of a plugin *)
Definition PERMISSION_TABLE_HEADER : string :=
  "## Permission Table" +:+ nl +:+ nl +:+ "<table>" +:+ nl +:+ "<tr>" +:+ nl +:+ "<th>Identifier</th>" +:+ nl +:+
  "<th>Description</th>" +:+ nl +:+ "</tr>" +:+ nl.

Definition docs_from (id : string) (description : option string) (plugin_identifier : string) : string :=
  nl +:+ "<tr>" +:+ nl +:+ "<td>" +:+ nl +:+ nl +:+ "`" +:+ plugin_identifier +:+ ":" +:+ id +:+ "`" +:+ nl +:+ nl +:+
  "</td>" +:+ nl +:+
  match description with Some d => "<td>" +:+ nl +:+ nl +:+ d +:+ nl +:+ nl +:+ "</td>" | None => "" end +:+
  nl +:+ "</tr>".

(** The default section, whether there is one, and the table. *)
Definition docs_of_file (plugin_identifier : string) (s : string * bool * string) (f : PermissionFile)
    : string * bool * string :=
  let '(default_permission, contains_default, permission_table) := s in
  let permission_table := foldl (λ t (x : PermissionSet),
    t +:+ docs_from (set_identifier x) (Some (set_description x)) plugin_identifier +:+ nl)
    permission_table (file_set f) in
  let '(default_permission, contains_default) :=
    match file_default f with
    | Some d =>
        (foldl (λ t p, t +:+ "- `" +:+ p +:+ "`" +:+ nl)
           (default_permission +:+ default "" (default_description d) +:+ nl +:+ nl) (default_permissions d), true)
    | None => (default_permission, contains_default)
    end in
  let permission_table := foldl (λ t (x : Permission),
    t +:+ docs_from (permission_identifier x) (permission_description x) plugin_identifier +:+ nl)
    permission_table (file_permission f) in
  (default_permission, contains_default, permission_table).

Definition docs_text (permissions : list PermissionFile) (plugin_identifier : string) : string :=
  let '(default_permission, contains_default, permission_table) :=
    foldl (docs_of_file plugin_identifier) ("## Default Permission" +:+ nl +:+ nl, false, "") permissions in
  let default_permission := if contains_default : bool then default_permission else "" in
  default_permission +:+ nl +:+ PERMISSION_TABLE_HEADER +:+ nl +:+ permission_table +:+ "</table>" +:+ nl.

Definition generate_docs (permissions : list PermissionFile) (out_dir : PathBuf) (plugin_identifier : string)
    : outcome Error (list (PathBuf * string)) :=
  let reference_path := join_name out_dir PERMISSION_DOCS_FILE_NAME in
  ok_or (write_if_changed reference_path (docs_text permissions plugin_identifier)) (WriteFile reference_path).

(** ** Lemmas *)
Lemma strip_prefix_app p s : strip_prefix p (p +:+ s) = Some s.
Proof. by apply strip_prefix_spec. Qed.

Lemma rev_string_app a b : rev_string (a +:+ b) = rev_string b +:+ rev_string a.
Proof. unfold rev_string. by rewrite bytes_append, reverse_app, of_bytes_append. Qed.

Lemma rev_string_involutive s : rev_string (rev_string s) = s.
Proof. unfold rev_string. by rewrite bytes_of_bytes, reverse_involutive, of_bytes_bytes. Qed.

Lemma strip_suffix_app p s : strip_suffix p (s +:+ p) = Some s.
Proof. unfold strip_suffix. rewrite rev_string_app, strip_prefix_app. simpl. by rewrite rev_string_involutive. Qed.

Lemma map_bytes_app (f : ascii → ascii) a b :
  of_bytes (f <$> bytes (a +:+ b)) = of_bytes (f <$> bytes a) +:+ of_bytes (f <$> bytes b).
Proof. by rewrite bytes_append, fmap_app, of_bytes_append. Qed.

(** ** Names of plugins *)

(** How cargo passes a metadata key of a package on: the name and the key in
    upper case, with underscores for hyphens. *)
Definition env_char (c : ascii) : ascii :=
  if decide (c = "-"%char) then "_"%char
  else if (97 <=? N_of_ascii c)%N && (N_of_ascii c <=? 122)%N then ascii_of_N (N_of_ascii c - 32) else c.
Definition envify (s : string) : string := of_bytes (env_char <$> bytes s).
Definition cargo_variable (links key : string) : string := "DEP_" +:+ envify links +:+ "_" +:+ envify key.

(** The characters of plugin names. *)
Definition plain (c : ascii) : bool :=
  ((97 <=? N_of_ascii c)%N && (N_of_ascii c <=? 122)%N) || ((48 <=? N_of_ascii c)%N && (N_of_ascii c <=? 58)%N)
  || bool_decide (c = "-"%char).

Lemma env_char_back c :
  plain c = true → (if decide (lower_char (env_char c) = "_"%char) then "-"%char else lower_char (env_char c)) = c.
Proof. by destruct c as [[] [] [] [] [] [] [] []]; vm_compute. Qed.

Lemma name_back n :
  forallb plain (bytes n) = true → replace_char "_" "-" (to_lowercase (envify n)) = n.
Proof.
  intros H. unfold replace_char, to_lowercase, envify. rewrite !bytes_of_bytes, <- !list_fmap_compose.
  rewrite <- (of_bytes_bytes n) at 2. f_equal. induction (bytes n) as [|c l IH]; [done|]. simpl in H.
  apply andb_true_iff in H as [Hc Hl]. rewrite fmap_cons, (IH Hl). f_equal. by apply env_char_back.
Qed.

(** The build script of an application finds the permissions of a plugin under
    the name of the plugin: the variable that cargo makes of the key that the
    build script of the plugin printed leads back to that name, for crates
    called [tauri-plugin-..] and for the plugins inside of tauri. *)
Theorem plugin_name_roundtrip n :
  forallb plain (bytes n) = true →
  let key pkg := metadata_key pkg PERMISSION_FILES_PATH_KEY in
  (strip_suffix CORE_PLUGIN_PERMISSIONS_TOKEN (envify ("tauri-plugin-" +:+ n)) = None →
   plugin_crate_name PERMISSION_FILES_PATH_KEY
     (cargo_variable ("tauri-plugin-" +:+ n) (key ("tauri-plugin-" +:+ n))) = Some n) ∧
  (strip_prefix "tauri-plugin-" n = None →
   plugin_crate_name PERMISSION_FILES_PATH_KEY (cargo_variable "Tauri" (key ("tauri:" +:+ n))) = Some n).
Proof.
  intros Hn key. split.
  - intros Hs. unfold key, metadata_key.
    change (strip_prefix "tauri:" ("tauri-plugin-" +:+ n)) with (@None string). cbv iota beta.
    unfold cargo_variable, plugin_crate_name. rewrite strip_prefix_app. cbn [mbind option_bind].
    change ("_" +:+ envify PERMISSION_FILES_PATH_KEY) with ("_" +:+ PERMISSION_FILES_PATH_KEY).
    rewrite strip_suffix_app. cbn [mbind option_bind]. rewrite Hs. cbn [mbind option_bind default from_option].
    rewrite name_back by (by rewrite bytes_append, forallb_app, Hn). by rewrite strip_prefix_app.
  - intros Hp. unfold key, metadata_key. rewrite strip_prefix_app.
    assert (envify (n +:+ CORE_PLUGIN_PERMISSIONS_TOKEN +:+ "_" +:+ PERMISSION_FILES_PATH_KEY) =
      envify n +:+ CORE_PLUGIN_PERMISSIONS_TOKEN +:+ "_" +:+ PERMISSION_FILES_PATH_KEY) as He.
    { unfold envify. by rewrite map_bytes_app. }
    unfold cargo_variable, plugin_crate_name. rewrite strip_prefix_app, He. cbn [mbind option_bind].
    replace (envify "Tauri" +:+ "_" +:+ envify n +:+ CORE_PLUGIN_PERMISSIONS_TOKEN +:+ "_" +:+ PERMISSION_FILES_PATH_KEY)
      with (("TAURI_" +:+ envify n +:+ CORE_PLUGIN_PERMISSIONS_TOKEN) +:+ "_" +:+ PERMISSION_FILES_PATH_KEY)
      by (apply bytes_inj; rewrite !bytes_append, <- !app_assoc; reflexivity).
    rewrite strip_suffix_app. cbn [mbind option_bind].
    replace ("TAURI_" +:+ envify n +:+ CORE_PLUGIN_PERMISSIONS_TOKEN)
      with (("TAURI_" +:+ envify n) +:+ CORE_PLUGIN_PERMISSIONS_TOKEN)
      by (apply bytes_inj; rewrite !bytes_append, <- !app_assoc; reflexivity).
    rewrite strip_suffix_app. cbn [mbind option_bind]. rewrite strip_prefix_app. cbn [default from_option id].
    rewrite name_back by done. by rewrite Hp.
Qed.

(** ** Capabilities of a folder *)

(** The capabilities of the files that are visited, in order. *)
Definition capabilities_at (path : PathBuf) : outcome Error (list Capability) :=
  if negb (has_extension CAPABILITY_FILE_EXTENSIONS path) then Ok []
  else
    b ← outside_of CAPABILITIES_SCHEMA_FOLDER_NAME path;
    if b : bool then capabilities_of <$> CapabilityFile_load path else Ok [].

Definition all_capabilities (paths : list PathBuf) : outcome Error (list Capability) :=
  css ← collect capabilities_at paths; Ok (List.concat css).

Lemma visit_capabilities path cs m :
  capabilities_at path = Ok cs → visit_capability_path m path = for_each add_capability cs m.
Proof.
  unfold capabilities_at, visit_capability_path, add_capability_file.
  destruct (has_extension _ _); simpl; [|by intros [= <-]].
  destruct (outside_of _ path) as [[]| | |]; simpl; try done; [|by intros [= <-]].
  destruct (CapabilityFile_load path); simpl; try done. by intros [= <-].
Qed.

Lemma visit_all paths cs m :
  all_capabilities paths = Ok cs → for_each visit_capability_path paths m = for_each add_capability cs m.
Proof.
  unfold all_capabilities. destruct (collect capabilities_at paths) as [css| | |] eqn:Hc; simpl; try done.
  intros [= <-]. apply collect_ok in Hc. revert m. induction Hc as [|p c paths css Hp _ IH]; intros m; simpl; [done|].
  rewrite (visit_capabilities p c m Hp), for_each_app. by destruct (for_each add_capability c m); simpl.
Qed.

Abbreviation ids cs := (capability_identifier <$> cs).

Lemma add_capability_fresh m c :
  m !! capability_identifier c = None → add_capability m c = Ok (<[capability_identifier c := c]> m).
Proof. intros Hm. unfold add_capability. rewrite decide_False; [done|]. rewrite Hm. by intros [? ?]. Qed.

Lemma add_capability_twice m c c' :
  m !! capability_identifier c = Some c' →
  add_capability m c = Err (CapabilityAlreadyExists (capability_identifier c)).
Proof. intros Hm. unfold add_capability. rewrite decide_True; [done|eauto]. Qed.

Lemma add_capabilities cs m :
  (∀ c, c ∈ cs → m !! capability_identifier c = None) → NoDup (ids cs) →
  ∃ m', for_each add_capability cs m = Ok m' ∧
    ∀ k c, m' !! k = Some c ↔ m !! k = Some c ∨ (c ∈ cs ∧ capability_identifier c = k).
Proof.
  revert m. induction cs as [|c cs IH]; intros m Hf Hn; [exists m; set_solver|]. cbn [for_each].
  rewrite fmap_cons in Hn. apply NoDup_cons in Hn as [Hc Hn].
  assert (m !! capability_identifier c = None) as Hm by (apply Hf; left).
  rewrite (add_capability_fresh m c Hm). cbn [mbind outcome_bind].
  destruct (IH (<[capability_identifier c := c]> m)) as (m' & Hm' & Hl); [|done|].
  - intros c' Hc'. rewrite lookup_insert_ne; [apply Hf; by right|]. intros Heq. apply Hc.
    apply list_elem_of_fmap. eauto.
  - exists m'. split; [done|]. intros k c'. rewrite Hl, lookup_insert_Some, elem_of_cons.
    destruct (decide (k = capability_identifier c)) as [->|Hk]; [rewrite Hm|]; naive_solver.
Qed.

(** Capabilities are unique by their identifier: the files of a folder give
    exactly the capabilities written in them when no two share an identifier,
    and otherwise the error names the first that is there twice. *)
Theorem capabilities_unique pattern paths cs :
  glob_paths pattern = Some paths → all_capabilities paths = Ok cs →
  (NoDup (ids cs) → ∃ m, parse_capabilities pattern = Ok m ∧
     ∀ k c, m !! k = Some c ↔ c ∈ cs ∧ capability_identifier c = k) ∧
  (∀ l1 c l2, cs = l1 ++ c :: l2 → NoDup (ids l1) → capability_identifier c ∈ ids l1 →
     parse_capabilities pattern = Err (CapabilityAlreadyExists (capability_identifier c))).
Proof.
  intros Hg Hc. unfold parse_capabilities. rewrite Hg. cbn [ok_or mbind outcome_bind].
  rewrite (visit_all paths cs ∅ Hc). split.
  - intros Hn. destruct (add_capabilities cs ∅) as (m & Hm & Hl); [done|done|]. exists m. split; [done|].
    intros k c. rewrite Hl, lookup_empty. naive_solver.
  - intros l1 c l2 -> Hn Hin. destruct (add_capabilities l1 ∅) as (m & Hm & Hl); [done|done|].
    rewrite for_each_app, Hm. cbn [for_each mbind outcome_bind].
    apply list_elem_of_fmap in Hin as (c' & Heq & Hc').
    rewrite (add_capability_twice m c c'); [done|]. apply Hl. auto.
Qed.

(** ** Files of generated permissions *)

(** What a path holds after the writes. *)
Fixpoint file_after (ws : list (PathBuf * string)) (p : PathBuf) : option string :=
  match ws with
  | [] => fs_read p
  | (q, text) :: ws => if decide (p = q ∧ p ∉ ws.*1) then Some text else file_after ws p
  end.

Lemma file_after_unwritten ws p : p ∉ ws.*1 → file_after ws p = fs_read p.
Proof.
  induction ws as [|[q text] ws IH]; [done|]. rewrite fmap_cons, not_elem_of_cons. intros [Hq Hp]. simpl.
  rewrite decide_False by naive_solver. auto.
Qed.

Lemma file_after_written ws1 q text ws2 : q ∉ ws2.*1 → file_after (ws1 ++ (q, text) :: ws2) q = Some text.
Proof.
  intros Hq. induction ws1 as [|[q' text'] ws1 IH]; simpl; [by rewrite decide_True|].
  rewrite decide_False; [done|]. rewrite fmap_app, fmap_cons. set_solver.
Qed.

Lemma command_file_inj path c c' : command_file path c = command_file path c' → c = c'.
Proof.
  unfold command_file, join_name. intros [= H]%app_inv_head. apply (f_equal bytes) in H. rewrite !bytes_append in H.
  apply app_inv_tail in H. by apply bytes_inj.
Qed.

Lemma autogenerate_command_writes path license entry a ws c :
  (∀ p text, fs_write p text = true) →
  autogenerate_command path license entry (a, ws) c =
  Ok (mk_autogenerated (allowed a ++ ["allow-" +:+ slugify c]) (denied a ++ ["deny-" +:+ slugify c]),
      ws ++ (if decide (fs_read (command_file path c) = Some (command_toml license entry c)) then []
             else [(command_file path c, command_toml license entry c)])).
Proof. intros Hw. unfold autogenerate_command, write_if_changed. rewrite Hw. by case_decide. Qed.

Lemma autogenerate_commands path license entry commands a ws :
  (∀ p text, fs_write p text = true) → NoDup commands →
  (∀ c, c ∈ commands → command_file path c ∉ ws.*1) →
  ∃ ws', for_each (autogenerate_command path license entry) commands (a, ws) =
      Ok (mk_autogenerated (allowed a ++ ((λ c, "allow-" +:+ slugify c) <$> commands))
            (denied a ++ ((λ c, "deny-" +:+ slugify c) <$> commands)), ws ++ ws') ∧
    (∀ p, p ∈ ws'.*1 → ∃ c, c ∈ commands ∧ p = command_file path c ∧
       fs_read p ≠ Some (command_toml license entry c)) ∧
    (∀ c, c ∈ commands → file_after (ws ++ ws') (command_file path c) = Some (command_toml license entry c)).
Proof.
  intros Hw. revert a ws. induction commands as [|c commands IH]; intros a ws Hn Hf.
  { exists []. rewrite !app_nil_r. destruct a. split_and!; set_solver. }
  apply NoDup_cons in Hn as [Hc Hn]. cbn [for_each]. rewrite (autogenerate_command_writes path license entry a ws c Hw).
  set (text := command_toml license entry c). set (p := command_file path c).
  set (w := if decide (fs_read p = Some text) then [] else [(p, text)]). cbn [mbind outcome_bind].
  destruct (IH (mk_autogenerated (allowed a ++ ["allow-" +:+ slugify c]) (denied a ++ ["deny-" +:+ slugify c]))
    (ws ++ w)) as (ws' & Hrun & Hws & Hafter); [done| |].
  { intros c' Hc'. rewrite fmap_app, not_elem_of_app. split; [apply Hf; by right|].
    subst w. case_decide; simpl; [set_solver|]. rewrite list_elem_of_singleton. intros ?%command_file_inj. by subst. }
  exists (w ++ ws'). rewrite Hrun. cbn [allowed denied]. rewrite !fmap_cons, <- !app_assoc. split; [done|].
  assert (p ∉ ws'.*1) as Hp by (intros (c' & Hc' & Heq%command_file_inj & _)%Hws; by subst).
  split; [|intros c' [->|Hc']%elem_of_cons; [|by rewrite app_assoc; apply Hafter]].
  - intros q. rewrite fmap_app, elem_of_app. intros [Hq|(c' & Hc' & Hq)%Hws]; [|exists c'; set_solver].
    exists c. subst w. case_decide; simpl in Hq; [set_solver|]. apply list_elem_of_singleton in Hq as ->.
    split_and!; [by left|done|done].
  - subst w. case_decide as Hr; simpl; [|by apply file_after_written].
    rewrite file_after_unwritten; [done|]. rewrite fmap_app, not_elem_of_app. split; [apply Hf; by left|done].
Qed.

(** The files of the generated permissions: after the build every command has
    its file with the text made for it, only files of the commands are written,
    and only those that held something else; the identifiers are listed in the
    order of the commands. A second build finds the texts in place and writes
    nothing. *)
Theorem autogenerated_files path commands license schema_ref :
  path_exists path || create_dir_all path = true →
  (∀ p text, fs_write p text = true) → NoDup commands →
  let text := command_toml license (schema_entry schema_ref path) in
  ∃ ws, autogenerate_command_permissions path commands license schema_ref =
      Ok (mk_autogenerated ((λ c, "allow-" +:+ slugify c) <$> commands) ((λ c, "deny-" +:+ slugify c) <$> commands), ws) ∧
    (∀ c, c ∈ commands → file_after ws (command_file path c) = Some (text c)) ∧
    (∀ p, p ∈ ws.*1 → ∃ c, c ∈ commands ∧ p = command_file path c ∧ fs_read p ≠ Some (text c)) ∧
    ((∀ c, c ∈ commands → fs_read (command_file path c) = Some (text c)) → ws = []).
Proof.
  intros Hd Hw Hn text. unfold autogenerate_command_permissions. rewrite <- negb_orb, Hd. cbn [negb].
  destruct (autogenerate_commands path license (schema_entry schema_ref path) commands (mk_autogenerated [] []) [])
    as (ws & Hrun & Hws & Hafter); [done|done|set_solver|].
  exists ws. split_and!; [done|done|done|]. intros Hin. destruct ws as [|[p t] ws]; [done|]. exfalso.
  destruct (Hws p) as (c & Hc & -> & Hne); [left|]. by apply Hne, Hin.
Qed.

(** ** Identifiers of generated permissions *)

(** The characters of names of Rust functions in ASCII. *)
Definition snake (c : ascii) : bool := Identifier.is_ascii_alphanumeric c || bool_decide (c = "_"%char).

(** No underscore at the ends and no two in a row. *)
Definition neat (c : string) : Prop :=
  (∃ a, head (bytes c) = Some a ∧ a ≠ "_"%char) ∧
  (∃ z, last (bytes c) = Some z ∧ z ≠ "_"%char) ∧
  Sorted (λ a b, ¬ (a = "_"%char ∧ b = "_"%char)) (bytes c).

Definition slug_char (c : ascii) : ascii := if decide (c = "_"%char) then "-"%char else c.

Lemma bytes_slugify c : bytes (slugify c) = slug_char <$> bytes c.
Proof. unfold slugify, replace_char. by rewrite bytes_of_bytes. Qed.

Lemma slug_char_alnum c : snake c = true → Identifier.alnum (slug_char c) ↔ c ≠ "_"%char.
Proof.
  unfold snake, slug_char, Identifier.alnum. intros H. case_decide as Hc; [subst; by vm_compute|].
  rewrite bool_decide_eq_false_2, orb_false_r in H by done. done.
Qed.

Lemma slug_char_adjacent a b :
  snake a = true → snake b = true →
  Identifier.adjacent (slug_char a) (slug_char b) ↔ ¬ (a = "_"%char ∧ b = "_"%char).
Proof.
  intros Ha Hb. pose proof (slug_char_alnum a Ha) as Ha'. pose proof (slug_char_alnum b Hb) as Hb'.
  unfold Identifier.adjacent. split.
  - intros [[H _]|[[_ H]|[H _]]] [-> ->]; [by apply Ha' in H|by apply Hb' in H|done].
  - intros H. destruct (decide (a = "_"%char)) as [->|Hna].
    + right; left. split; [done|]. apply Hb'. naive_solver.
    + left. split; [by apply Ha'|]. destruct (decide (b = "_"%char)) as [->|Hnb]; [by right; left|].
      left. by apply Hb'.
Qed.

Lemma sorted_slug l :
  forallb snake l = true →
  Sorted Identifier.adjacent (slug_char <$> l) ↔ Sorted (λ a b, ¬ (a = "_"%char ∧ b = "_"%char)) l.
Proof.
  induction l as [|a l IH]; [done|]. cbn [forallb]. rewrite andb_true_iff, fmap_cons. intros [Ha Hl].
  specialize (IH Hl). destruct l as [|b l]; [by split; repeat constructor|]. rewrite fmap_cons in *. cbn [forallb] in Hl.
  apply andb_true_iff in Hl as [Hb _]. pose proof (slug_char_adjacent a b Ha Hb) as Hab.
  split; intros [Hs Hd]%Sorted_inv; apply HdRel_inv in Hd;
    (constructor; [by apply IH|constructor; by apply Hab]).
Qed.

Lemma sorted_middle {A} (R : relation A) l1 a b l2 :
  Sorted R (l1 ++ a :: b :: l2) ↔ Sorted R (l1 ++ [a]) ∧ R a b ∧ Sorted R (b :: l2).
Proof.
  induction l1 as [|x l1 IH]; simpl.
  - split; [intros [Hs Hd%HdRel_inv]%Sorted_inv; auto|]. intros (_ & ? & ?). by constructor; [|constructor].
  - assert (HdRel R x (l1 ++ a :: b :: l2) ↔ HdRel R x (l1 ++ [a])) as Hd.
    { destruct l1; simpl; split; intros H%HdRel_inv; by constructor. }
    split.
    + intros [Hs H]%Sorted_inv. apply IH in Hs as (? & ? & ?). split_and!; [|done|done]. constructor; tauto.
    + intros ([Hs H]%Sorted_inv & ? & ?). constructor; [|tauto]. apply IH. auto.
Qed.

Lemma prefix_before_separator q p r :
  Identifier.IDENTIFIER_SEPARATOR ∉ bytes q → starts_with q p = false →
  starts_with q (p +:+ String Identifier.IDENTIFIER_SEPARATOR r) = false.
Proof.
  intros Hq Hp. apply not_true_iff_false. intros [r' Heq]%starts_with_spec. apply not_true_iff_false in Hp.
  apply (f_equal bytes) in Heq. rewrite !bytes_append in Heq.
  apply app_eq_inv in Heq as [(k & Heq & _)|(k & Heq & Hk)].
  - apply Hp. apply starts_with_spec. exists (of_bytes k). apply bytes_inj. by rewrite bytes_append, bytes_of_bytes.
  - destruct k as [|x k].
    + apply Hp. apply starts_with_spec. exists EmptyString. apply bytes_inj. rewrite bytes_append. simpl.
      by rewrite app_nil_r in *.
    + change (bytes (String Identifier.IDENTIFIER_SEPARATOR r)) with (Identifier.IDENTIFIER_SEPARATOR :: bytes r) in Hk.
      injection Hk as <- _. apply Hq. rewrite Heq. set_solver.
Qed.

Lemma slug_no_separator l :
  forallb snake l = true → Identifier.separators (slug_char <$> l) = 0.
Proof.
  induction l as [|c l IH]; [done|]. cbn [forallb]. rewrite andb_true_iff, fmap_cons. intros [Hc Hl].
  rewrite Identifier.separators_cons, (IH Hl). rewrite decide_False; [done|]. intros Heq.
  unfold slug_char in Heq. case_decide; [done|]. subst. done.
Qed.

(** What follows the name of the plugin. *)
Lemma sorted_allow x l :
  Sorted Identifier.adjacent (bytes ":allow-" ++ x :: l) ↔
  Identifier.alnum x ∧ Sorted Identifier.adjacent (x :: l).
Proof.
  change (bytes ":allow-" ++ x :: l) with (bytes ":allow" ++ "-"%char :: x :: l). rewrite sorted_middle.
  assert (Sorted Identifier.adjacent (bytes ":allow" ++ ["-"%char])) as Hs.
  { repeat constructor; first [left; split; [done|auto; fail] | right; right; split; [done|by left]
      | left; split; [done|by right; left]]. }
  assert (Identifier.adjacent "-" x ↔ Identifier.alnum x) as Hx; [|tauto].
  unfold Identifier.adjacent. split; [intros [[H _]|[[_ H]|[H _]]]; by try vm_compute in H|]. intros H. by right; left.
Qed.

(** The permission of a command can be named in a capability, under the name of
    a plugin, exactly when the command has no underscore at an end and no two in
    a row, and the whole is not too long. *)
Theorem generated_permission_named p c :
  Identifier.well_formed p → Identifier.separators (bytes p) = 0 → forallb snake (bytes c) = true →
  (∃ id, Identifier.try_from (p +:+ ":allow-" +:+ slugify c) = Ok id) ↔
  neat c ∧ String.length p + 7 + String.length c ≤ Identifier.MAX_LEN_IDENTIFIER.
Proof.
  intros (Hp & _ & (a & Ha & Haa) & (z & Hz & Haz) & Hsp & _) H0 Hs.
  assert (bytes (p +:+ ":allow-" +:+ slugify c) = bytes p ++ bytes ":allow-" ++ (slug_char <$> bytes c)) as Hbytes
    by (by rewrite !bytes_append, bytes_slugify).
  transitivity (Identifier.well_formed (p +:+ ":allow-" +:+ slugify c)).
  { setoid_rewrite Identifier.try_from_ok. split; [by intros [id [? _]]|eauto]. }
  unfold Identifier.well_formed, neat. rewrite <- length_bytes, Hbytes.
  assert (starts_with Identifier.PLUGIN_PREFIX (p +:+ ":allow-" +:+ slugify c) = false) as Hprefix.
  { apply prefix_before_separator; [|done]. vm_compute. set_solver. }
  rewrite Hprefix, !length_app, length_fmap, !length_bytes.
  change (String.length ":allow-") with 7. rewrite Nat.add_assoc.
  assert (head (bytes p ++ bytes ":allow-" ++ (slug_char <$> bytes c)) = Some a) as ->
    by (by destruct (bytes p); simplify_eq/=).
  assert (Identifier.separators (bytes p ++ bytes ":allow-" ++ (slug_char <$> bytes c)) ≤ 1) as Hsep.
  { pose proof (slug_no_separator _ Hs). unfold Identifier.separators in *.
    rewrite !filter_app, !length_app. rewrite H0, H. simpl. lia. }
  assert (Sorted Identifier.adjacent (bytes p ++ bytes ":allow-" ++ (slug_char <$> bytes c)) ↔
    Sorted Identifier.adjacent (bytes ":allow-" ++ (slug_char <$> bytes c))) as ->.
  { apply last_Some in Hz as [l Hl]. rewrite Hl, <- app_assoc in *. cbn [app]. 
    change (bytes ":allow-" ++ (slug_char <$> bytes c)) with (":"%char :: bytes "allow-" ++ (slug_char <$> bytes c)).
    rewrite sorted_middle. split; [tauto|]. intros ?. split_and!; [done| |done]. left. auto. }
  destruct (bytes c) as [|x l] eqn:Hc.
  { split; [|naive_solver]. intros (_ & _ & _ & (y & Hy & Hyy) & _). rewrite last_app in Hy. simpl in Hy.
    by injection Hy as <-. }
  rewrite fmap_cons, sorted_allow, <- fmap_cons, sorted_slug, !last_app by done.
  pose proof (proj1 (andb_true_iff _ _) Hs) as [Hx _]. rewrite (slug_char_alnum x Hx).
  destruct (last (x :: l)) as [y|] eqn:Hy; [|by apply last_None in Hy].
  assert (snake y = true) as Hsy.
  { apply last_Some in Hy as [l' Hy]. rewrite Hy, forallb_app in Hs. cbn [forallb] in Hs. rewrite andb_true_r in Hs. by apply andb_true_iff in Hs as [_ ?]. }
  rewrite fmap_last, Hy. pose proof (slug_char_alnum y Hsy). simpl. naive_solver.
Qed.

End Build.

(** ** Witnesses *)

(** Two files of capabilities: a list in one folder, and one capability whose
    text is its identifier. *)
Definition ex_capability (id : string) : Capability := mk_capability id "" None true [] [] [] None.
Definition ex_folder : list Component := [RootDir; Normal "capabilities"].

#[local] Instance ex_build : BuildLib := {|
  glob_paths pattern :=
    if decide (pattern = "all") then Some [join_name ex_folder "a.json"; join_name ex_folder "readme.md"; join_name ex_folder "b.toml"]
    else if decide (pattern = "twice") then Some [join_name ex_folder "a.json"; join_name ex_folder "a.json"]
    else None;
  canonicalize_path := Some;
  fs_read p := if decide (p = join_name ex_folder "a.json") then Some "main" else
    if decide (p = join_name ex_folder "b.toml") then Some "other" else None;
  fs_write _ _ := true;
  permission_from_toml _ := None;
  permission_from_json _ := None;
  capability_from_toml text := Some (CapabilityFile_List [ex_capability text; ex_capability "third"]);
  capability_from_json text := Some (CapabilityFile_Capability (ex_capability text));
  capability_from_json5 _ := None;
  paths_to_json _ := "";
  paths_from_json _ := None;
  schema := ();
  schema_to_json _ := "{}";
  value_from_json := Some;
  feature_json5 := false;
  path_exists _ := true;
  create_dir_all _ := true;
  current_directory := [RootDir];
|}.

Lemma capabilities_unique_witness :
  (∃ m, parse_capabilities "all" = Ok m ∧ m !! "third" = Some (ex_capability "third") ∧ m !! "main" = Some (ex_capability "main")) ∧
  parse_capabilities "twice" = Err (CapabilityAlreadyExists "main").
Proof.
  split.
  - destruct (capabilities_unique "all" [join_name ex_folder "a.json"; join_name ex_folder "readme.md"; join_name ex_folder "b.toml"]
      [ex_capability "main"; ex_capability "other"; ex_capability "third"]) as [H _]; [reflexivity|reflexivity|].
    destruct H as (m & Hm & Hl).
    { simpl. repeat (apply NoDup_cons; split; [rewrite ?elem_of_cons, ?elem_of_nil; naive_solver|]). apply NoDup_nil_2. }
    exists m. split_and!; [exact Hm| |]; apply Hl; (split; [|reflexivity]); rewrite !elem_of_cons; auto.
  - destruct (capabilities_unique "twice" [join_name ex_folder "a.json"; join_name ex_folder "a.json"]
      [ex_capability "main"; ex_capability "main"]) as [_ H]; [reflexivity|reflexivity|].
    apply (H [ex_capability "main"] (ex_capability "main") []); [reflexivity| |]; simpl.
    + apply NoDup_singleton.
    + apply list_elem_of_singleton. reflexivity.
Defined.

Lemma autogenerated_files_witness :
  ∃ ws, file_after ws (command_file ex_folder "read_dir") = Some (command_toml "" (schema_entry true ex_folder) "read_dir").
Proof.
  destruct (autogenerated_files ex_folder ["read_dir"; "write"] "" true) as (ws & _ & H & _); [reflexivity|reflexivity| |].
  - apply NoDup_cons; split; [rewrite list_elem_of_singleton; discriminate|apply NoDup_singleton].
  - exists ws. apply H. left.
Defined.

Lemma plugin_name_roundtrip_witness :
  plugin_crate_name PERMISSION_FILES_PATH_KEY
    (cargo_variable "tauri-plugin-fs" (metadata_key "tauri-plugin-fs" PERMISSION_FILES_PATH_KEY)) = Some "fs" ∧
  plugin_crate_name PERMISSION_FILES_PATH_KEY
    (cargo_variable "Tauri" (metadata_key "tauri:core:window" PERMISSION_FILES_PATH_KEY)) = Some "core:window".
Proof.
  split.
  - apply (plugin_name_roundtrip "fs"); reflexivity.
  - apply (plugin_name_roundtrip "core:window"); reflexivity.
Defined.

Lemma generated_permission_named_witness :
  (∃ id, Identifier.try_from "fs:allow-read-dir" = Ok id) ∧ neat "read_dir".
Proof.
  assert (neat "read_dir") as Hn.
  { split_and!; [exists "r"%char; split; [reflexivity|discriminate]|exists "r"%char; split; [reflexivity|discriminate]|].
    repeat constructor; intros [? ?]; discriminate. }
  split; [|exact Hn]. apply (generated_permission_named "fs" "read_dir"); [|reflexivity|reflexivity|].
  - split_and!; [reflexivity|vm_compute; lia|exists "f"%char; split; reflexivity|exists "s"%char; split; reflexivity| |
      right; vm_compute; lia].
    repeat constructor; reflexivity.
  - split; [exact Hn|vm_compute; lia].
Defined.

(** The permission generated for a command with two underscores in a row is not
    an identifier: no capability can name it. *)
Theorem generated_permission_unnamable :
  Identifier.try_from ("fs:allow-" +:+ slugify "read__dir") = Err Identifier.InvalidFormat ∧
  Identifier.try_from ("fs:allow-" +:+ slugify "_read") = Err Identifier.InvalidFormat ∧
  Identifier.try_from ("fs:allow-" +:+ slugify "read_") = Err Identifier.TrailingHyphen.
Proof. vm_compute. done. Qed.

End AclBuild.
