(* ===== verification/TauriBuild.v ===== *)
(** * The access control list at build time

    Models [tauri-build/Source/acl.rs], which collects the permission manifests
    of plugins and application, reads and validates the capabilities and leaves
    both in [OUT_DIR]; [generate_capability_schema] of [acl/schema.rs] and the
    script list of [tauri-utils/Source/plugin.rs] that it calls; and the part of
    [tauri-codegen/Source/context.rs] that reads the files back and resolves
    them. Files are a function from paths to texts that the functions pass on;
    the lines printed for cargo are kept as well. *)
From Stdlib Require Import Ascii.
From S2P Require Import Prelude Identifier Acl Resolved Paths Values BundleResources ConfigFiles BuildSupport.

Abbreviation Files := (list Paths.Component → option string).

(** [glob], [std::fs], [serde_json] and the parsers, over the files there are;
    [schemars] makes the text of the schema of capabilities. *)
Class BuildEnv := {
  env_glob : Files → string → option (list (list Paths.Component));
  env_canonicalize : Files → list Paths.Component → option (list Paths.Component);
  env_exists : Files → list Paths.Component → bool;
  env_writable : list Paths.Component → bool;
  env_create_dir_all : list Paths.Component → bool;
  env_current_dir : list Paths.Component;
  env_vars : list (string * list Paths.Component);
  env_target : string;
  pattern_escape : string → string;
  to_string_lossy : list Paths.Component → string;
  toml_permission : string → option Acl.PermissionFile;
  json_permission : string → option Acl.PermissionFile;
  toml_capability : string → option Acl.CapabilityFile;
  json_capability : string → option Acl.CapabilityFile;
  json5_capability : string → option Acl.CapabilityFile;
  env_json5 : bool;
  json_of_paths : list (list Paths.Component) → string;
  paths_of_json : string → option (list (list Paths.Component));
  json_of_manifests : gmap string Acl.Manifest → string;
  manifests_of_json : string → option (gmap string Acl.Manifest);
  json_of_capabilities : gmap string Acl.Capability → string;
  capabilities_of_json : string → option (gmap string Acl.Capability);
  schema_of_capabilities : gmap string Acl.Manifest → string;
  valid_json : string → option string;
}.

(** The library of [BuildSupport] over the files of a moment. *)
Definition lib_at {BE : BuildEnv} (w : Files) : BuildLib := {|
  glob_paths := env_glob w;
  canonicalize_path := env_canonicalize w;
  fs_read := w;
  fs_write p _ := env_writable p;
  permission_from_toml := toml_permission;
  permission_from_json := json_permission;
  capability_from_toml := toml_capability;
  capability_from_json := json_capability;
  capability_from_json5 := json5_capability;
  paths_to_json := json_of_paths;
  paths_from_json := paths_of_json;
  schema := string;
  schema_to_json s := s;
  value_from_json := valid_json;
  feature_json5 := env_json5;
  path_exists := env_exists w;
  create_dir_all := env_create_dir_all;
  current_directory := env_current_dir;
|}.

Module TauriBuild.
Import Identifier Acl Paths ConfigFiles AclBuild.

Abbreviation PathBuf := (list Component).

(** ** Attributes of the build script *)
Inductive DefaultPermissionRule :=
| AllowAllCommands
| Allow (permissions : list string).

Record InlinedPlugin := mk_inlined_plugin {
  inlined_commands : list string;
  inlined_permissions_path_pattern : option string;
  inlined_default : option DefaultPermissionRule;
}.

Definition InlinedPlugin_new : InlinedPlugin := mk_inlined_plugin [] None None.
Definition InlinedPlugin_commands (commands : list string) (p : InlinedPlugin) : InlinedPlugin :=
  mk_inlined_plugin commands (inlined_permissions_path_pattern p) (inlined_default p).
Definition InlinedPlugin_permissions_path_pattern (pattern : string) (p : InlinedPlugin) : InlinedPlugin :=
  mk_inlined_plugin (inlined_commands p) (Some pattern) (inlined_default p).
Definition InlinedPlugin_default_permission (default : DefaultPermissionRule) (p : InlinedPlugin) : InlinedPlugin :=
  mk_inlined_plugin (inlined_commands p) (inlined_permissions_path_pattern p) (Some default).

Record AppManifest := mk_app_manifest {
  app_commands : list string;
  app_permissions_path_pattern : option string;
}.

Definition AppManifest_new : AppManifest := mk_app_manifest [] None.
Definition AppManifest_commands (commands : list string) (m : AppManifest) : AppManifest :=
  mk_app_manifest commands (app_permissions_path_pattern m).
Definition AppManifest_permissions_path_pattern (pattern : string) (m : AppManifest) : AppManifest :=
  mk_app_manifest (app_commands m) (Some pattern).

(** The attributes that are about the access control list. The plugins are a hash
    map, given in the order of its iteration. *)
Record Attributes := mk_attributes {
  capabilities_path_pattern : option string;
  inlined_plugins : list (string * InlinedPlugin);
  app_manifest : AppManifest;
}.

Inductive BuildError :=
| AclError (e : AclBuild.Error)
| IoError
| PermissionNotFound (permission : string) (available : list string).

Section Build.
Context {BE : BuildEnv}.

(** ** Files and printed lines *)
Record Build := mk_build {
  files : Files;
  printed : list string;
}.

Definition write_file (p : PathBuf) (text : string) (w : Files) : Files :=
  λ q, if decide (q = p) then Some text else w q.

Definition apply_writes (ws : list (PathBuf * string)) (w : Files) : Files :=
  foldl (λ w x, write_file x.1 x.2 w) w ws.

Definition written (ws : list (PathBuf * string)) (b : Build) : Build :=
  mk_build (apply_writes ws (files b)) (printed b).

Definition print_line (line : string) (b : Build) : Build := mk_build (files b) (printed b ++ [line]).

Definition lift_error {E A} (f : E → BuildError) (o : outcome E A) : outcome BuildError A :=
  match o with Ok a => Ok a | Err e => Err (f e) | Panic msg => Panic msg | Diverge => Diverge end.

Definition no_error (e : Empty_set) : BuildError := match e with end.

(** [PathBuf::join] on the text of a pattern. *)
Definition join_pattern (base part : string) : string :=
  if bool_decide (base = "") || ends_with "/" base then base +:+ part else base +:+ "/" +:+ part.

(** [create_dir_all(path)?] *)
Definition ensure_dir (path : PathBuf) : outcome BuildError () :=
  if env_create_dir_all path then Ok () else Err IoError.

(** [write_if_changed(path, text)?] *)
Definition write_changed (path : PathBuf) (text : string) (b : Build) : outcome BuildError Build :=
  ws ← ok_or (write_if_changed (BL := lib_at (files b)) path text) IoError;
  Ok (written ws b).

(** [fs::write(path, text)?] and [fs::copy(from, to)?] *)
Definition fs_write_in (path : PathBuf) (text : string) (b : Build) : outcome BuildError Build :=
  if env_writable path then Ok (written [(path, text)] b) else Err IoError.

Definition fs_copy (from to : PathBuf) (b : Build) : outcome BuildError Build :=
  text ← ok_or (files b from) IoError;
  fs_write_in to text b.

Definition define_permissions_in (pattern pkg_name : string) (out_dir : PathBuf) (filter_fn : PathBuf → bool)
    (b : Build) : outcome BuildError (list PermissionFile * Build) :=
  '(meta, l) ← lift_error AclError (define_permissions (BL := lib_at (files b)) pattern pkg_name out_dir filter_fn);
  Ok (l, print_line ("cargo:" +:+ cargo_key meta +:+ "=" +:+ to_string_lossy (list_file meta))
           (written [(list_file meta, list_text meta)] b)).

Definition autogenerate_in (path : PathBuf) (commands : list string) (b : Build)
    : outcome BuildError (AutogeneratedPermissions * Build) :=
  '(a, ws) ← lift_error no_error (autogenerate_command_permissions (BL := lib_at (files b)) path commands "" false);
  Ok (a, written ws b).

(** ** Manifests of plugins *)
Definition plugin_manifests (permission_map : gmap string (list PermissionFile)) (global_scope_map : gmap string string)
    : gmap string Manifest :=
  map_imap (λ plugin_name permission_files,
    Some (Manifest_new permission_files (global_scope_map !! plugin_name))) permission_map.

Definition read_plugins_manifests (b : Build) : outcome BuildError (gmap string Manifest) :=
  permission_map ← lift_error AclError (read_permissions (BL := lib_at (files b)) env_vars);
  global_scope_map ← lift_error AclError (read_global_scope_schemas (BL := lib_at (files b)) env_vars);
  Ok (plugin_manifests permission_map global_scope_map).

Definition everything (_ : PathBuf) : bool := true.

Definition default_toml (default_permissions : list string) : string :=
  "# Automatically generated - DO NOT EDIT!" +:+ nl +:+ "[default]" +:+ nl +:+
  "permissions = [" +:+ join "," ((λ p, dq +:+ p +:+ dq) <$> default_permissions) +:+ "]" +:+ nl.

(** The files generated for the commands of a plugin, when it has any. *)
Definition inline_commands (name : string) (plugin : InlinedPlugin) (plugin_out_dir : PathBuf) (b : Build)
    : outcome BuildError (list PermissionFile * Build) :=
  if decide (inlined_commands plugin = []) then Ok ([], b)
  else
    '(autogenerated, b) ← autogenerate_in plugin_out_dir (inlined_commands plugin) b;
    let default_permissions :=
      (λ d, match d with AllowAllCommands => allowed autogenerated | Allow permissions => permissions end)
        <$> inlined_default plugin in
    b ← (match default_permissions with
         | Some l =>
             ws ← expect (write_if_changed (BL := lib_at (files b)) (join_name plugin_out_dir "default.toml")
                            (default_toml l)) "unable to autogenerate";
             Ok (written ws b)
         | None => Ok b
         end);
    define_permissions_in (join_pattern (pattern_escape (to_string_lossy plugin_out_dir)) "*") name
      plugin_out_dir everything b.

(** The files of the plugin in the project. *)
Definition inline_files (name : string) (plugin : InlinedPlugin) (plugin_out_dir : PathBuf) (b : Build)
    : outcome BuildError (list PermissionFile * Build) :=
  match inlined_permissions_path_pattern plugin with
  | Some pattern => define_permissions_in pattern name plugin_out_dir everything b
  | None =>
      let default_permissions_path := [Normal "permissions"; Normal name] in
      let b :=
        if env_exists (files b) default_permissions_path
        then print_line ("cargo:rerun-if-changed=" +:+ to_string_lossy default_permissions_path) b else b in
      define_permissions_in
        (join_pattern (join_pattern (pattern_escape (to_string_lossy default_permissions_path)) "**") "*")
        name plugin_out_dir everything b
  end.

Definition inline_plugin (out_dir : PathBuf) (s : gmap string Manifest * Build) (entry : string * InlinedPlugin)
    : outcome BuildError (gmap string Manifest * Build) :=
  let '(acl_manifests, b) := s in
  let '(name, plugin) := entry in
  let plugin_out_dir := join_name (join_name out_dir "plugins") name in
  _ ← ensure_dir plugin_out_dir;
  '(generated, b) ← inline_commands name plugin plugin_out_dir b;
  '(found, b) ← inline_files name plugin plugin_out_dir b;
  Ok (<[name := Manifest_new (generated ++ found) None]> acl_manifests, b).

Definition inline_plugins (out_dir : PathBuf) (plugins : list (string * InlinedPlugin)) (b : Build)
    : outcome BuildError (gmap string Manifest * Build) :=
  for_each (inline_plugin out_dir) plugins (∅, b).

(** ** The manifest of the application *)

(** [Path::starts_with] *)
Definition path_starts_with (p base : PathBuf) : bool :=
  match BundleResources.strip_components base p with Some _ => true | None => false end.

Definition app_commands_files (manifest : AppManifest) (app_out_dir : PathBuf) (b : Build)
    : outcome BuildError (list PermissionFile * Build) :=
  if decide (app_commands manifest = []) then Ok ([], b)
  else
    let autogenerated_path := [CurDir; Normal "permissions"; Normal "autogenerated"] in
    '(_, b) ← autogenerate_in autogenerated_path (app_commands manifest) b;
    define_permissions_in (join_pattern (to_string_lossy autogenerated_path) "*") "__app__" app_out_dir everything b.

(** Files below the folder of an inlined plugin are not the application's. *)
Definition outside_inlined (names : list string) (p : PathBuf) : bool :=
  let permissions_root := join_name env_current_dir "permissions" in
  negb (existsb (path_starts_with p) ((join_name permissions_root) <$> names)).

Definition app_files (manifest : AppManifest) (names : list string) (app_out_dir : PathBuf) (b : Build)
    : outcome BuildError (list PermissionFile * Build) :=
  match app_permissions_path_pattern manifest with
  | Some pattern => define_permissions_in pattern "__app__" app_out_dir everything b
  | None =>
      let default_permissions_path := [Normal "permissions"] in
      let b :=
        if env_exists (files b) default_permissions_path
        then print_line ("cargo:rerun-if-changed=" +:+ to_string_lossy default_permissions_path) b else b in
      define_permissions_in (join_pattern (join_pattern (to_string_lossy default_permissions_path) "**") "*")
        "__app__" app_out_dir (outside_inlined names) b
  end.

Definition app_manifest_permissions (out_dir : PathBuf) (manifest : AppManifest) (names : list string) (b : Build)
    : outcome BuildError (Manifest * Build) :=
  let app_out_dir := join_name out_dir "app-manifest" in
  _ ← ensure_dir app_out_dir;
  '(generated, b) ← app_commands_files manifest app_out_dir b;
  '(found, b) ← app_files manifest names app_out_dir b;
  Ok (Manifest_new (generated ++ found) None, b).

(** ** Validation *)
Definition permission_exists (acl_manifests : gmap string Manifest) (permission_id : Identifier) : bool :=
  match acl_manifests !! default APP_ACL_KEY (get_prefix permission_id) with
  | Some manifest =>
      let permission_name := get_base permission_id in
      bool_decide (permission_name = "default")
      || bool_decide (is_Some (permissions manifest !! permission_name))
      || bool_decide (is_Some (permission_sets manifest !! permission_name))
  | None => false
  end.

Definition manifest_permissions (entry : string * Manifest) : list string :=
  let '(key, manifest) := entry in
  let prefix := if decide (key = APP_ACL_KEY) then "" else key +:+ ":" in
  (match default_permission manifest with Some _ => [prefix +:+ "default"] | None => [] end)
  ++ (String.append prefix <$> btree_keys (permissions manifest))
  ++ (String.append prefix <$> btree_keys (permission_sets manifest)).

Definition available_permissions (acl_manifests : gmap string Manifest) : list string :=
  btree_to_list acl_manifests ≫= manifest_permissions.

Definition validate_entry (acl_manifests : gmap string Manifest) (_ : ()) (permission_entry : PermissionEntry)
    : outcome BuildError () :=
  let permission_id := PermissionEntry_identifier permission_entry in
  if permission_exists acl_manifests permission_id then Ok ()
  else Err (PermissionNotFound (Identifier.get permission_id) (available_permissions acl_manifests)).

Definition validate_capability (acl_manifests : gmap string Manifest) (_ : ()) (capability : Capability)
    : outcome BuildError () :=
  if negb (Capability_is_active capability (from_triple env_target)) then Ok ()
  else for_each (validate_entry acl_manifests) (capability_permissions capability) ().

Definition validate_capabilities (acl_manifests : gmap string Manifest) (capabilities : gmap string Capability)
    : outcome BuildError () :=
  for_each (validate_capability acl_manifests) (btree_values capabilities) ().

(** ** Files left for the code generation *)
Definition CAPABILITIES_SCHEMA_FILE_NAME : string := "schema.json".
Definition CAPABILITIES_SCHEMA_FOLDER_PATH : PathBuf := [Normal "gen"; Normal "schemas"].
Definition ACL_MANIFESTS_FILE_NAME : string := "acl-manifests.json".
Definition CAPABILITIES_FILE_NAME : string := "capabilities.json".
Definition GLOBAL_API_SCRIPT_PATH_KEY : string := "GLOBAL_API_SCRIPT_PATH".
Definition GLOBAL_API_SCRIPT_FILE_LIST_PATH : string := "__global-api-script.js".

Definition save_in_schemas (name text : string) (b : Build) : outcome BuildError (PathBuf * Build) :=
  let path := join_name CAPABILITIES_SCHEMA_FOLDER_PATH name in
  _ ← ensure_dir CAPABILITIES_SCHEMA_FOLDER_PATH;
  b ← write_changed path text b;
  Ok (path, b).

Definition save_capabilities (capabilities : gmap string Capability) : Build → outcome BuildError (PathBuf * Build) :=
  save_in_schemas CAPABILITIES_FILE_NAME (json_of_capabilities capabilities).

Definition save_acl_manifests (acl_manifests : gmap string Manifest) : Build → outcome BuildError (PathBuf * Build) :=
  save_in_schemas ACL_MANIFESTS_FILE_NAME (json_of_manifests acl_manifests).

Definition is_desktop (target : Target) : bool :=
  match target with Android | Ios => false | _ => true end.

Definition generate_capability_schema (acl : gmap string Manifest) (target : Target) (b : Build)
    : outcome BuildError Build :=
  let schema_str := schema_of_capabilities acl in
  let out_dir := CAPABILITIES_SCHEMA_FOLDER_PATH in
  _ ← ensure_dir out_dir;
  let schema_path := join_name out_dir (Target_to_string target +:+ "-" +:+ CAPABILITIES_SCHEMA_FILE_NAME) in
  if decide (schema_str = default "" (files b schema_path)) then Ok b
  else
    b ← fs_write_in schema_path schema_str b;
    fs_copy schema_path
      (join_name out_dir ((if is_desktop target then "desktop" else "mobile") +:+ "-" +:+ CAPABILITIES_SCHEMA_FILE_NAME)) b.

Definition save_global_api_scripts_paths (out_dir : PathBuf) (b : Build) : outcome BuildError Build :=
  let scripts :=
    (List.filter (λ var, starts_with "DEP_" var.1 && ends_with GLOBAL_API_SCRIPT_PATH_KEY var.1) env_vars).*2 in
  let path := join_name out_dir GLOBAL_API_SCRIPT_FILE_LIST_PATH in
  if env_writable path then Ok (written [(path, json_of_paths scripts)] b)
  else Panic "failed to write global API script".

Definition read_global_api_scripts (out_dir : PathBuf) (w : Files) : outcome BuildError (option (list string)) :=
  let path := join_name out_dir GLOBAL_API_SCRIPT_FILE_LIST_PATH in
  if negb (env_exists w path) then Ok None
  else
    text ← expect (w path) "failed to read plugin global API script paths";
    paths ← expect (paths_of_json text) "failed to parse plugin global API script paths";
    l ← collect (λ p, expect (w p) "failed to read plugin global API script") paths;
    Ok (Some l).

(** ** The build script *)
Definition is_empty_manifest (m : Manifest) : bool :=
  negb (bool_decide (is_Some (default_permission m))) && bool_decide (permission_sets m = ∅)
  && bool_decide (permissions m = ∅).

(** The manifests: those of plugin crates, of the application if there is
    something in it, and of inlined plugins, the later over the earlier. *)
Definition collect_manifests (out_dir : PathBuf) (attributes : Attributes) (b : Build)
    : outcome BuildError (gmap string Manifest * Build) :=
  acl_manifests ← read_plugins_manifests b;
  '(app, b) ← app_manifest_permissions out_dir (app_manifest attributes) (inlined_plugins attributes).*1 b;
  let acl_manifests := if is_empty_manifest app then acl_manifests else <[APP_ACL_KEY := app]> acl_manifests in
  '(inlined, b) ← inline_plugins out_dir (inlined_plugins attributes) b;
  Ok (inlined ∪ acl_manifests, b).

Definition build (out_dir : PathBuf) (target : Target) (attributes : Attributes) (b : Build)
    : outcome BuildError Build :=
  '(acl_manifests, b) ← collect_manifests out_dir attributes b;
  '(acl_manifests_path, b) ← save_acl_manifests acl_manifests b;
  b ← fs_copy acl_manifests_path (join_name out_dir ACL_MANIFESTS_FILE_NAME) b;
  b ← generate_capability_schema acl_manifests target b;
  '(capabilities, b) ← (match capabilities_path_pattern attributes with
     | Some pattern => c ← lift_error AclError (parse_capabilities (BL := lib_at (files b)) pattern); Ok (c, b)
     | None =>
         let b := print_line "cargo:rerun-if-changed=capabilities" b in
         c ← lift_error AclError (parse_capabilities (BL := lib_at (files b)) "./capabilities/**/*"); Ok (c, b)
     end);
  _ ← validate_capabilities acl_manifests capabilities;
  '(capabilities_path, b) ← save_capabilities capabilities b;
  b ← fs_copy capabilities_path (join_name out_dir CAPABILITIES_FILE_NAME) b;
  save_global_api_scripts_paths out_dir b.

(** ** Code generation *)
Inductive CapabilityEntry := Inlined (c : Capability) | Reference (id : string).

Definition read_or_default {A} (path : PathBuf) (parse : string → option A) (d : A) (w : Files)
    (failed : string) : outcome BuildError A :=
  if env_exists w path then
    text ← expect (w path) ("failed to read " +:+ failed);
    expect (parse text) ("failed to parse " +:+ failed)
  else Ok d.

(** What is selected, and the capabilities of files not selected so far. *)
Definition select_capability (s : gmap string Capability * gmap string Capability) (entry : CapabilityEntry)
    : outcome BuildError (gmap string Capability * gmap string Capability) :=
  let '(capabilities, capabilities_from_files) := s in
  match entry with
  | Inlined c => Ok (<[capability_identifier c := c]> capabilities, capabilities_from_files)
  | Reference id =>
      match capabilities_from_files !! id with
      | Some c => Ok (<[id := c]> capabilities, delete id capabilities_from_files)
      | None => Panic ("capability with identifier " +:+ id +:+ " not found")
      end
  end.

Definition select_capabilities (entries : list CapabilityEntry) (capabilities_from_files : gmap string Capability)
    : outcome BuildError (gmap string Capability) :=
  if decide (entries = []) then Ok capabilities_from_files
  else fst <$> for_each select_capability entries (∅, capabilities_from_files).

Definition add_additional (w : Files) (capabilities : gmap string Capability) (path : PathBuf)
    : outcome BuildError (gmap string Capability) :=
  match CapabilityFile_load (BL := lib_at w) path with
  | Ok f => Ok (foldl (λ m c, <[capability_identifier c := c]> m) capabilities (capabilities_of f))
  | Panic msg => Panic msg
  | _ => Panic "failed to read capability"
  end.

(** The manifests and the capabilities that are resolved. *)
Definition codegen_inputs (out_dir : PathBuf) (entries : list CapabilityEntry) (additional : option (list PathBuf))
    (w : Files) : outcome BuildError (gmap string Manifest * gmap string Capability) :=
  acl ← read_or_default (join_name out_dir ACL_MANIFESTS_FILE_NAME) manifests_of_json ∅ w "plugin manifest map";
  from_files ← read_or_default (join_name out_dir CAPABILITIES_FILE_NAME) capabilities_of_json ∅ w "capabilities";
  capabilities ← select_capabilities entries from_files;
  capabilities ← for_each (add_additional w) (default [] additional) capabilities;
  Ok (acl, capabilities).

Definition codegen_acl {GL : GlobLib} {UL : UrlPatternLib} (fuel : nat) (out_dir : PathBuf) (target : Target)
    (entries : list CapabilityEntry) (additional : option (list PathBuf)) (w : Files)
    : outcome BuildError (gmap string Manifest * Resolved.Resolved GL UL) :=
  '(acl, capabilities) ← codegen_inputs out_dir entries additional w;
  match Resolved.resolve fuel acl capabilities target with
  | Ok resolved => Ok (acl, resolved)
  | Err _ => Panic "failed to resolve ACL"
  | Panic msg => Panic msg
  | Diverge => Diverge
  end.

(** ** Validation and resolution *)

(** A step that succeeds or spends its fuel keeps a loop so. *)
Definition settles {E A} (o : outcome E A) : Prop := (∃ a, o = Ok a) ∨ o = Diverge.

Lemma for_each_settles {E S A} (f : S → A → outcome E S) l s :
  (∀ s a, a ∈ l → settles (f s a)) → settles (for_each f l s).
Proof.
  revert s. induction l as [|a l IH]; intros s H; simpl; [left; eauto|].
  destruct (H s a ltac:(left)) as [[s' ->]| ->]; [|by right]. apply IH. intros s'' a' Ha. apply H. by right.
Qed.

Lemma for_each_unit {E A} (f : () → A → outcome E ()) l :
  for_each f l () = Ok () ↔ ∀ a, a ∈ l → f () a = Ok ().
Proof.
  induction l as [|a l IH]; simpl; [set_solver|]. split.
  - intros [[] [Ha Hl]]%bind_ok x [->|Hx]%elem_of_cons; [done|]. by apply IH.
  - intros H. rewrite (H a) by left. apply IH. intros x Hx. apply H. by right.
Qed.

(** What validation asks of a capability. *)
Lemma validate_ok acl caps :
  validate_capabilities acl caps = Ok () ↔
  ∀ c e, c ∈ Resolved.active_capabilities caps (from_triple env_target) → e ∈ capability_permissions c →
    permission_exists acl (PermissionEntry_identifier e) = true.
Proof.
  unfold validate_capabilities. rewrite for_each_unit. setoid_rewrite Resolved.elem_of_active.
  setoid_rewrite elem_of_btree_values. unfold validate_capability. split.
  - intros H c e [Hk Ha] He. specialize (H c Hk). rewrite Ha in H. simpl in H.
    rewrite for_each_unit in H. specialize (H e He). unfold validate_entry in H. by destruct (permission_exists _ _).
  - intros H c Hk. destruct (Capability_is_active c _) eqn:Ha; simpl; [|done]. apply for_each_unit. intros e He.
    unfold validate_entry. by rewrite (H c e).
Qed.

(** The members of a set are permissions or sets that exist. *)
Definition members_exist (acl : gmap string Manifest) (n : Identifier * Manifest * PermissionSet) : Prop :=
  ∀ perm, perm ∈ set_permissions n.2 → ∃ id m pid key name,
    try_from perm = Ok id ∧
    Resolved.set_member acl n.1.1 (default APP_ACL_KEY (get_prefix n.1.1)) n.1.2 perm id = (m, pid, key, name) ∧
    (name = "default" ∨ is_Some (permissions m !! name) ∨ is_Some (permission_sets m !! name)).

Definition sets_closed (acl : gmap string Manifest) (n : Identifier * Manifest * PermissionSet) : Prop :=
  ∀ x, rtc (Resolved.refers acl) n x → members_exist acl x.

Lemma expand_settles acl fuel n : sets_closed acl n → settles (Resolved.expand fuel acl n).
Proof.
  revert n. induction fuel as [|fuel IH]; intros [[pid m] set] Hc; [by right|].
  unfold Resolved.expand. simpl. apply for_each_settles. intros acc perm Hperm.
  destruct (Hc _ (rtc_refl _ _) perm Hperm) as (id & m' & pid' & key' & name & Hid & Hmem & Hname).
  simpl in Hmem. rewrite Hid, Hmem.
  assert (∀ set', Resolved.refers acl (pid, m, set) (pid', m', set') →
    settles (ps ← Resolved.get_permission_set_permissions fuel pid' acl m' set'; Ok (acc ++ ps))) as Hrec.
  { intros set' Hr. destruct (IH (pid', m', set')) as [[l Hl]|Hl].
    - intros x Hx. apply Hc. by eapply rtc_l.
    - left. unfold Resolved.expand in Hl. simpl in Hl. rewrite Hl. simpl. eauto.
    - right. unfold Resolved.expand in Hl. simpl in Hl. by rewrite Hl. }
  case_decide as Hd; [subst name|].
  - destruct (default_permission m') as [set'|] eqn:Hs; [|left; eauto]. apply Hrec. by eapply Resolved.refers_default.
  - destruct (permissions m' !! name) as [p|] eqn:Hp; [left; eauto|].
    destruct (permission_sets m' !! name) as [set'|] eqn:Hs.
    + apply Hrec. by eapply Resolved.refers_set.
    + exfalso. naive_solver.
Qed.

Lemma get_permissions_settles acl fuel pid :
  permission_exists acl pid = true →
  (∀ n, Resolved.entry_node acl pid = Some n → sets_closed acl n) →
  settles (Resolved.get_permissions fuel pid acl).
Proof.
  intros He Hc. rewrite (Resolved.get_permissions_node fuel 0).
  destruct (Resolved.entry_node acl pid) as [n|] eqn:Hn; [by apply expand_settles, Hc|]. left.
  unfold permission_exists in He. unfold Resolved.entry_node in Hn. unfold Resolved.get_permissions.
  destruct (acl !! _) as [m|]; [|done]. simpl in *. case_decide as Hd.
  - destruct (default_permission m); [done|eauto].
  - rewrite bool_decide_eq_false_2 in He by done. simpl in He.
    destruct (permission_sets m !! _); [done|]. rewrite orb_comm in He.
    rewrite bool_decide_eq_false_2 in He by (by intros [? ?]). simpl in He. apply bool_decide_eq_true in He as [p ->]. eauto.
Qed.

Lemma get_permissions_exists acl fuel pid l :
  Resolved.get_permissions fuel pid acl = Ok l → permission_exists acl pid = true.
Proof.
  unfold Resolved.get_permissions, permission_exists. destruct (acl !! _) as [m|]; [|done]. simpl. case_decide as Hd.
  - intros _. by rewrite bool_decide_eq_true_2.
  - destruct (permission_sets m !! _); [intros _; rewrite (bool_decide_eq_true_2 (is_Some (Some _))) by eauto; by rewrite orb_true_r|].
    destruct (permissions m !! _); [intros _; rewrite (bool_decide_eq_true_2 (is_Some (Some _))) by eauto|done].
    by rewrite orb_true_r.
Qed.

Section Resolution.
Context {GL : GlobLib} {UL : UrlPatternLib}.

(** The patterns and remote URLs of a capability parse. *)
Definition patterns_parse (c : Capability) : Prop :=
  (∃ l, Resolved.contexts c = Ok l) ∧ (∃ l, Resolved.parse_glob_patterns (capability_windows c) = Ok l) ∧
  (∃ l, Resolved.parse_glob_patterns (capability_webviews c) = Ok l).

Lemma resolve_commands_settles m key names c sid pn :
  patterns_parse c → settles (Resolved.resolve_commands m key names c sid pn).
Proof.
  intros ([cs Hc] & [ws Hw] & [vs Hv]). apply for_each_settles. intros m' name _. unfold Resolved.resolve_command.
  rewrite Hc. simpl. apply for_each_settles. intros m'' ctx _. rewrite Hw. simpl. rewrite Hv. left. eauto.
Qed.

Lemma on_permission_settles c st rp : patterns_parse c → settles (Resolved.on_permission c st rp).
Proof.
  intros Hp. unfold Resolved.on_permission. destruct (Resolved.is_global rp); [left; eauto|].
  destruct (if Scopes_is_empty _ then _ else _) as [[n cs] sid].
  destruct (resolve_commands_settles (Resolved.st_allowed st) (Resolved.rp_key rp)
    (commands_allow (Resolved.rp_commands rp)) c sid (Resolved.rp_permission_name rp) Hp) as [[a ->]| ->]; [|by right].
  simpl.
  destruct (resolve_commands_settles (Resolved.st_denied st) (Resolved.rp_key rp)
    (commands_deny (Resolved.rp_commands rp)) c sid (Resolved.rp_permission_name rp) Hp) as [[d ->]| ->]; [|by right].
  left. eauto.
Qed.

(** Resolution has nothing to complain about. *)
Lemma resolve_settles fuel acl caps target :
  (∀ c e, c ∈ Resolved.active_capabilities caps target → e ∈ capability_permissions c →
     permission_exists acl (PermissionEntry_identifier e) = true) →
  (∀ c e n, c ∈ Resolved.active_capabilities caps target → e ∈ capability_permissions c →
     Resolved.entry_node acl (PermissionEntry_identifier e) = Some n → sets_closed acl n) →
  (∀ c, c ∈ Resolved.active_capabilities caps target → patterns_parse c) →
  settles (Resolved.resolve fuel acl caps target).
Proof.
  intros He Hc Hp. unfold Resolved.resolve. fold (Resolved.active_capabilities caps target).
  assert (settles (for_each (Resolved.resolve_capability fuel acl target) (Resolved.active_capabilities caps target)
    Resolved.initial_state)) as [[st ->]| ->]; [|left; simpl; eauto|by right].
  apply for_each_settles. intros st c Hcap. apply for_each_settles. intros st' e Hin. cbv beta zeta.
  destruct (get_permissions_settles acl fuel (PermissionEntry_identifier e)) as [[l ->]| ->]; [by eapply He| |simpl|by right].
  { intros n Hn. by eapply Hc. }
  apply for_each_settles. intros. apply on_permission_settles. by apply Hp.
Qed.

(** C12. Validation at build time is the check that resolution relies on. Whatever
    resolves has passed it; and what passes it resolves, with one result for all
    sufficient fuel, when the permission sets name existing permissions without
    a circle and the patterns of the capabilities parse. *)
Theorem validation_matches_resolution acl caps
    (rank : Identifier * Manifest * PermissionSet → nat) bound :
  let target := from_triple env_target in
  (∀ fuel r, Resolved.resolve fuel acl caps target = Ok r → validate_capabilities acl caps = Ok ()) ∧
  (validate_capabilities acl caps = Ok () →
   (∀ c e n, c ∈ Resolved.active_capabilities caps target → e ∈ capability_permissions c →
      Resolved.entry_node acl (PermissionEntry_identifier e) = Some n →
      rank n ≤ bound ∧ Resolved.well_founded_from acl rank n ∧ sets_closed acl n) →
   (∀ c, c ∈ Resolved.active_capabilities caps target → patterns_parse c) →
   ∃ r, ∀ fuel, bound < fuel → Resolved.resolve fuel acl caps target = Ok r).
Proof.
  intros target. split.
  - intros fuel r H. apply validate_ok. intros c e Hc He.
    apply Resolved.resolve_state in H as (l & _ & Hl & _). unfold Resolved.contributions in Hl.
    apply bind_ok in Hl as (css & Hcss & _). apply collect_ok in Hcss.
    apply list_elem_of_lookup in Hc as [i Hi]. apply (Forall2_lookup_l _ _ _ _ _ Hcss) in Hi as (cs & _ & Hcs).
    apply bind_ok in Hcs as (pss & Hpss & _). apply collect_ok in Hpss.
    apply list_elem_of_lookup in He as [j Hj]. apply (Forall2_lookup_l _ _ _ _ _ Hpss) in Hj as (ps & _ & Hps).
    apply bind_ok in Hps as (tps & Htps & _). by eapply get_permissions_exists.
  - intros Hv Hn Hp. destruct (Resolved.resolve_one_result acl caps target rank bound) as (r & Hr & Hone).
    { intros c e n Hc He Hen. destruct (Hn c e n Hc He Hen) as (? & ? & _). auto. }
    destruct (resolve_settles (S bound) acl caps target) as [[a Ha]|Hd].
    + by apply validate_ok.
    + intros c e n Hc He Hen. by destruct (Hn c e n Hc He Hen) as (_ & _ & ?).
    + done.
    + exists a. intros fuel Hf. rewrite (Hone fuel Hf), <- Ha. symmetry. apply Hone. lia.
    + rewrite (Hone (S bound)) in Hd by lia. done.
Qed.

End Resolution.

(** ** From the build script to the code generation *)

(** Only files with one of these names may have changed. *)
Definition keeps (names : list string) (b b' : Build) : Prop :=
  ∀ d n, n ∉ names → files b' (join_name d n) = files b (join_name d n).

Lemma keeps_trans names b1 b2 b3 : keeps names b1 b2 → keeps names b2 b3 → keeps names b1 b3.
Proof. intros H1 H2 d n Hn. by rewrite H2, H1. Qed.

Lemma keeps_weaken names names' b b' : names ⊆ names' → keeps names b b' → keeps names' b b'.
Proof. intros Hs H d n Hn. apply H. set_solver. Qed.

Lemma keeps_written d name text b : keeps [name] b (written [(join_name d name, text)] b).
Proof.
  intros d' n Hn. simpl. unfold write_file. rewrite decide_False; [done|].
  intros [_ [= ->]]%app_inj_tail. set_solver.
Qed.

Lemma files_written p text b : files (written [(p, text)] b) p = Some text.
Proof. simpl. unfold write_file. by rewrite decide_True. Qed.

Lemma fs_write_in_spec d name text b b' :
  fs_write_in (join_name d name) text b = Ok b' →
  files b' (join_name d name) = Some text ∧ keeps [name] b b'.
Proof.
  unfold fs_write_in. destruct (env_writable _); [|done]. intros [= <-]. split; [apply files_written|apply keeps_written].
Qed.

Lemma fs_copy_spec from d name b b' :
  fs_copy from (join_name d name) b = Ok b' →
  files b' (join_name d name) = files b from ∧ keeps [name] b b'.
Proof.
  unfold fs_copy. intros (text & Hf%ok_or_ok & H)%bind_ok. rewrite Hf. by apply fs_write_in_spec.
Qed.

Lemma save_in_schemas_spec name text b path b' :
  save_in_schemas name text b = Ok (path, b') →
  path = join_name CAPABILITIES_SCHEMA_FOLDER_PATH name ∧ files b' path = Some text ∧ keeps [name] b b'.
Proof.
  unfold save_in_schemas, write_changed. intros ([] & _ & H)%bind_ok. apply bind_ok in H as (b1 & H & [= <- <-]).
  apply bind_ok in H as (ws & Hws%ok_or_ok & [= <-]). unfold write_if_changed in Hws. split; [done|].
  case_decide as Hr; [|cbn [fs_write lib_at] in Hws; destruct (env_writable _); [|done]]; injection Hws as <-.
  - split; [exact Hr|]. by intros d n _.
  - split; [apply files_written|apply keeps_written].
Qed.

(** The names of the schemas of capabilities. *)
Definition schema_names : list string :=
  ((λ t, t +:+ "-" +:+ CAPABILITIES_SCHEMA_FILE_NAME) <$>
    (Target_to_string <$> [MacOS; Windows; Linux; Android; Ios])) ++
  ((λ t, t +:+ "-" +:+ CAPABILITIES_SCHEMA_FILE_NAME) <$> ["desktop"; "mobile"]).

Lemma generate_schema_keeps acl target b b' :
  generate_capability_schema acl target b = Ok b' → keeps schema_names b b'.
Proof.
  unfold generate_capability_schema. intros ([] & _ & H)%bind_ok. case_decide; [by injection H as <-|].
  apply bind_ok in H as (b1 & [_ H1]%fs_write_in_spec & [_ H2]%fs_copy_spec).
  eapply keeps_trans; (eapply keeps_weaken; [|eassumption]); intros x ->%list_elem_of_singleton;
    unfold schema_names; destruct target; simpl; set_solver.
Qed.

Lemma save_scripts_keeps out_dir b b' :
  save_global_api_scripts_paths out_dir b = Ok b' → keeps [GLOBAL_API_SCRIPT_FILE_LIST_PATH] b b'.
Proof. unfold save_global_api_scripts_paths. destruct (env_writable _); [|done]. intros [= <-]. apply keeps_written. Qed.

(** The pattern under which the capabilities of the project are searched. *)
Definition capabilities_pattern (attributes : Attributes) : string :=
  default "./capabilities/**/*" (capabilities_path_pattern attributes).

(** C13. The code generation gets what the build script collected: after a
    successful build the files in [OUT_DIR] hold the collected manifests and the
    capabilities of the project, which have been validated, whatever else the
    build wrote in between; read back without a selection in the configuration
    they are what is resolved, when their JSON reads back. Before it looks for capabilities the build writes
    only files with names of its own. *)
Theorem build_hands_over out_dir target attributes b b' :
  (∀ w p, is_Some (w p) → env_exists w p = true) →
  build out_dir target attributes b = Ok b' →
  ∃ manifests capabilities b0 b1,
    collect_manifests out_dir attributes b = Ok (manifests, b0) ∧
    keeps (ACL_MANIFESTS_FILE_NAME :: schema_names) b0 b1 ∧
    parse_capabilities (BL := lib_at (files b1)) (capabilities_pattern attributes) = Ok capabilities ∧
    validate_capabilities manifests capabilities = Ok () ∧
    (manifests_of_json (json_of_manifests manifests) = Some manifests →
     capabilities_of_json (json_of_capabilities capabilities) = Some capabilities →
     codegen_inputs out_dir [] None (files b') = Ok (manifests, capabilities)).
Proof.
  intros Hex H. unfold build in H.
  apply bind_ok in H as ([manifests b0] & Hcol & H). apply bind_ok in H as ([path b1] & Hsave & H).
  apply bind_ok in H as (b2 & Hcopy & H). apply bind_ok in H as (b3 & Hschema & H).
  apply bind_ok in H as ([capabilities b4] & Hcaps & H). apply bind_ok in H as ([] & Hval & H).
  apply bind_ok in H as ([path' b5] & Hsave' & H). apply bind_ok in H as (b6 & Hcopy' & Hscripts).
  assert (files b4 = files b3 ∧ parse_capabilities (BL := lib_at (files b3)) (capabilities_pattern attributes) =
    Ok capabilities) as [Hf4 Hparse].
  { unfold capabilities_pattern. destruct (capabilities_path_pattern attributes); simpl in *;
      apply bind_ok in Hcaps as (c & Hcaps & [= -> <-]); (split; [done|]);
      by destruct (parse_capabilities _); simplify_eq/=. }
  exists manifests, capabilities, b0, b3.
  apply save_in_schemas_spec in Hsave as (-> & Hs1 & Hk1). apply fs_copy_spec in Hcopy as [Hs2 Hk2].
  apply generate_schema_keeps in Hschema. split_and!; [done| |done|done|intros Hm Hc].
  { apply (keeps_trans _ b0 b1 b3); [|apply (keeps_trans _ b1 b2 b3)]; (eapply keeps_weaken; [|eassumption]); set_solver. }
  apply save_in_schemas_spec in Hsave' as (-> & Hs5 & Hk5).
  apply fs_copy_spec in Hcopy' as [Hs6 Hk6]. apply save_scripts_keeps in Hscripts.
  assert (files b' (join_name out_dir ACL_MANIFESTS_FILE_NAME) = Some (json_of_manifests manifests)) as Ha.
  { rewrite Hscripts, Hk6, Hk5, Hf4, Hschema, Hs2 by (vm_compute; set_solver). done. }
  assert (files b' (join_name out_dir CAPABILITIES_FILE_NAME) = Some (json_of_capabilities capabilities)) as Hb.
  { rewrite Hscripts, Hs6 by (vm_compute; set_solver). done. }
  unfold codegen_inputs, read_or_default. rewrite !Hex by (rewrite ?Ha, ?Hb; eauto).
  rewrite Ha, Hb. cbn [expect mbind outcome_bind]. rewrite Hm, Hc. done.
Qed.

(** ** Selection in the configuration *)

Lemma select_reference id c acc rest :
  rest !! id = Some c → select_capability (acc, rest) (Reference id) = Ok (<[id := c]> acc, delete id rest).
Proof. intros H. simpl. by rewrite H. Qed.

(** References in the configuration restrict the capabilities of the project to
    those that are named, when each is named once. *)
Theorem selected_references ids capabilities_from_files :
  ids ≠ [] → NoDup ids →
  ((∀ id, id ∈ ids → is_Some (capabilities_from_files !! id)) →
   ∃ m, select_capabilities (Reference <$> ids) capabilities_from_files = Ok m ∧
     ∀ k, m !! k = if decide (k ∈ ids) then capabilities_from_files !! k else None) ∧
  (∀ l1 id l2, ids = l1 ++ id :: l2 → (∀ x, x ∈ l1 → is_Some (capabilities_from_files !! x)) →
     capabilities_from_files !! id = None →
     select_capabilities (Reference <$> ids) capabilities_from_files =
     Panic ("capability with identifier " +:+ id +:+ " not found")).
Proof.
  intros Hne Hnd. unfold select_capabilities. rewrite decide_False by (by destruct ids).
  assert (∀ l acc rest, NoDup l → (∀ x, x ∈ l → is_Some (rest !! x)) →
    ∃ m rest', for_each select_capability (Reference <$> l) (acc, rest) = Ok (m, rest') ∧
      (∀ k, m !! k = if decide (k ∈ l) then rest !! k else acc !! k) ∧
      (∀ k, k ∉ l → rest' !! k = rest !! k)) as Hloop.
  { induction l as [|x l IH]; intros acc rest Hl Hin; [exists acc, rest; naive_solver|].
    apply NoDup_cons in Hl as [Hx Hl]. destruct (Hin x) as [c Hc]; [left|].
    rewrite fmap_cons. cbn [for_each]. rewrite (select_reference x c acc rest Hc). cbn [mbind outcome_bind].
    destruct (IH (<[x := c]> acc) (delete x rest)) as (m & rest' & -> & Hm & Hrest); [done| |].
    { intros y Hy. rewrite lookup_delete_ne by set_solver. apply Hin. by right. }
    exists m, rest'. split_and!; [done| |].
    - intros k. rewrite Hm. destruct (decide (k = x)) as [->|Hk].
      + rewrite decide_False, decide_True by set_solver. by rewrite lookup_insert_eq.
      + rewrite lookup_delete_ne, lookup_insert_ne by done. repeat case_decide; set_solver.
    - intros k Hk. rewrite Hrest, lookup_delete_ne by set_solver. done. }
  split.
  - intros Hin. destruct (Hloop ids ∅ capabilities_from_files Hnd Hin) as (m & rest & -> & Hm & _).
    exists m. split; [done|]. intros k. rewrite Hm. by rewrite lookup_empty.
  - intros l1 id l2 -> Hin Hnone. apply NoDup_app in Hnd as (Hnd & Hd & _).
    destruct (Hloop l1 ∅ capabilities_from_files Hnd Hin) as (m & rest & Hrun & _ & Hrest).
    rewrite fmap_app, fmap_cons, for_each_app, Hrun. simpl. rewrite Hrest, Hnone; [done|].
    intros Hl1. apply (Hd id Hl1). left.
Qed.

(** A capability that the configuration names twice is not found. *)
Theorem capability_referenced_twice_panics id c capabilities_from_files :
  select_capabilities [Reference id; Reference id] (<[id := c]> capabilities_from_files) =
  Panic ("capability with identifier " +:+ id +:+ " not found").
Proof.
  unfold select_capabilities. rewrite decide_False by done. simpl. rewrite lookup_insert_eq. simpl.
  by rewrite lookup_delete_eq.
Qed.

(** The default permission of an inlined plugin without commands is dropped. *)
Theorem inlined_default_needs_commands out_dir s name pattern rule :
  inline_plugin out_dir s (name, mk_inlined_plugin [] pattern (Some rule)) =
  inline_plugin out_dir s (name, mk_inlined_plugin [] pattern None).
Proof. by destruct s. Qed.

End Build.

(** ** Witnesses *)

(** A project with an inlined plugin [demo] of one command, and one capability
    that names its default permission. *)
Definition ex_out : PathBuf := [RootDir; Normal "out"].
Definition ex_ping : Permission :=
  mk_permission None "allow-ping" None (mk_commands ["ping"] []) Scopes_default None.
Definition ex_ping_file : PermissionFile := mk_permission_file None [] [ex_ping].
Definition ex_default_file : PermissionFile :=
  mk_permission_file (Some (mk_default_permission None None ["allow-ping"])) [] [].
Definition ex_main : Capability :=
  mk_capability "main" "" None true ["main"] [] [PermissionRef (mk_identifier "demo:default" (Some 4))] None.
Definition ex_capability_path : PathBuf := [Normal "capabilities"; Normal "main.json"].
Definition ex_plugin_dir : PathBuf := [RootDir; Normal "out"; Normal "plugins"; Normal "demo"].
Definition ex_demo : gmap string Manifest := {[ "demo" := Manifest_new [ex_default_file; ex_ping_file] None ]}.

#[local] Instance ex_env : BuildEnv := {|
  env_glob _ pattern :=
    if decide (pattern = "./capabilities/**/*") then Some [ex_capability_path]
    else if decide (pattern = "demo/*") then
      Some [join_name ex_plugin_dir "default.toml"; join_name ex_plugin_dir "ping.toml"]
    else Some [];
  env_canonicalize _ := Some;
  env_exists w p := match w p with Some _ => true | None => false end;
  env_writable _ := true;
  env_create_dir_all _ := true;
  env_current_dir := [RootDir];
  env_vars := [];
  env_target := "x86_64-unknown-linux-gnu";
  pattern_escape s := s;
  to_string_lossy p := default "" (path_file_name p);
  toml_permission text :=
    if decide (text = command_toml "" "" "ping") then Some ex_ping_file
    else if decide (text = default_toml ["allow-ping"]) then Some ex_default_file else None;
  json_permission _ := None;
  toml_capability _ := None;
  json_capability _ := Some (CapabilityFile_Capability ex_main);
  json5_capability _ := None;
  env_json5 := false;
  json_of_paths _ := "[]";
  paths_of_json _ := Some [];
  json_of_manifests m := join "," (btree_keys m);
  manifests_of_json text := if decide (text = "demo") then Some ex_demo else None;
  json_of_capabilities m := join "," (btree_keys m);
  capabilities_of_json text := if decide (text = "main") then Some {[ "main" := ex_main ]} else None;
  schema_of_capabilities _ := "{}";
  valid_json := Some;
|}.

Definition ex_attributes : Attributes :=
  mk_attributes None [("demo", InlinedPlugin_default_permission AllowAllCommands
                                 (InlinedPlugin_commands ["ping"] InlinedPlugin_new))] AppManifest_new.
Definition ex_start : Build :=
  mk_build (λ p, if decide (p = ex_capability_path) then Some "main" else None) [].

Lemma build_hands_over_witness :
  ∃ b', build ex_out Linux ex_attributes ex_start = Ok b' ∧
    codegen_inputs ex_out [] None (files b') = Ok (ex_demo, {[ "main" := ex_main ]}).
Proof.
  destruct (build ex_out Linux ex_attributes ex_start) as [b'| | |] eqn:Hb.
  2-4: (assert (match build ex_out Linux ex_attributes ex_start with Ok _ => true | _ => false end = true) as H
    by (vm_compute; reflexivity); rewrite Hb in H; discriminate).
  exists b'. split; [reflexivity|].
  destruct (build_hands_over ex_out Linux ex_attributes ex_start b') as (m & c & b0 & b1 & Hm & Hk & Hc & _ & H).
  - intros w p [t Ht]. simpl. rewrite Ht. reflexivity.
  - exact Hb.
  - assert (fst <$> collect_manifests ex_out ex_attributes ex_start = Ok ex_demo) as Hm' by (vm_compute; reflexivity).
    rewrite Hm in Hm'. injection Hm' as ->.
    assert ((λ x : gmap string Manifest * Build, files x.2 ex_capability_path) <$>
      collect_manifests ex_out ex_attributes ex_start = Ok (Some "main")) as Hf by (vm_compute; reflexivity).
    rewrite Hm in Hf. injection Hf as Hf. simpl in Hf.
    specialize (Hk [Normal "capabilities"] "main.json"). unfold join_name in Hk. simpl in Hk.
    change [Normal "capabilities"; Normal "main.json"] with ex_capability_path in Hk.
    rewrite Hf in Hk.
    assert (parse_capabilities (BL := lib_at (files b1)) (capabilities_pattern ex_attributes) =
      Ok {[ "main" := ex_main ]}) as Hc'.
    { assert (files b1 ex_capability_path = Some "main") as Hfile
        by (apply Hk; refine (bool_decide_unpack _ _); vm_compute; exact I).
      assert (CapabilityFile_load (BL := lib_at (files b1)) ex_capability_path = Ok (CapabilityFile_Capability ex_main))
        as Hload.
      { unfold CapabilityFile_load. change (@fs_read (lib_at (files b1))) with (files b1). rewrite Hfile. reflexivity. }
      transitivity (add_capability_file (BL := lib_at (files b1)) ∅ ex_capability_path ≫= Ok); [reflexivity|].
      unfold add_capability_file. rewrite Hload. reflexivity. }
    rewrite Hc in Hc'. injection Hc' as ->. apply H; vm_compute; reflexivity.
Defined.

Lemma ex_sets_closed : sets_closed Resolved.ex_acl (Resolved.ex_id, Resolved.ex_manifest, Resolved.ex_all).
Proof.
  assert (∀ l, (∀ perm, perm ∈ set_permissions l → perm ∈ ["default"; "scope-base"; "allow-read"; "deny-write"]) →
    members_exist Resolved.ex_acl (Resolved.ex_id, Resolved.ex_manifest, l)) as Hall.
  { intros l Hl perm Hp. apply Hl in Hp. rewrite !elem_of_cons, elem_of_nil in Hp.
    destruct Hp as [->|[->|[->|[->|[]]]]]; do 5 eexists; (split; [vm_compute; reflexivity|]);
      (split; [vm_compute; reflexivity|]); vm_compute; eauto. }
  intros x Hx. apply rtc_inv in Hx as [<-|(z & Hz & Hx)].
  - apply Hall. intros perm. simpl. set_solver.
  - apply Resolved.ex_refers_all in Hz as ->. apply rtc_inv in Hx as [<-|(z & Hz & _)].
    + apply Hall. intros perm. simpl. set_solver.
    + by apply Resolved.ex_refers_default in Hz.
Qed.

#[local] Existing Instances literal_glob literal_url.

Lemma validation_matches_resolution_witness :
  validate_capabilities Resolved.ex_acl Resolved.ex_capabilities = Ok () ∧
  ∃ r, ∀ fuel, 1 < fuel → Resolved.resolve fuel Resolved.ex_acl Resolved.ex_capabilities Linux = Ok r.
Proof.
  assert (validate_capabilities Resolved.ex_acl Resolved.ex_capabilities = Ok ()) as Hv by (vm_compute; reflexivity).
  split; [exact Hv|].
  destruct (validation_matches_resolution Resolved.ex_acl Resolved.ex_capabilities Resolved.ex_rank 1) as [_ H].
  assert (Resolved.active_capabilities Resolved.ex_capabilities Linux = [Resolved.ex_capability]) as Hcaps
    by (vm_compute; reflexivity).
  apply H; [exact Hv| |]; change (from_triple env_target) with Linux; rewrite Hcaps.
  - intros c e n Hc He Hn. apply list_elem_of_singleton in Hc as ->. apply list_elem_of_singleton in He as ->.
    assert (n = (Resolved.ex_id, Resolved.ex_manifest, Resolved.ex_all)) as -> by (vm_compute in Hn; injection Hn as <-; reflexivity).
    split_and!; [vm_compute; lia|exact Resolved.ex_well_founded|exact ex_sets_closed].
  - intros c Hc. apply list_elem_of_singleton in Hc as ->. split_and!; eexists; vm_compute; reflexivity.
Defined.

Lemma selected_references_witness :
  ∃ m, select_capabilities [Reference "main"] {[ "main" := ex_main; "other" := ex_main ]} = Ok m ∧
    m !! "main" = Some ex_main ∧ m !! "other" = None.
Proof.
  destruct (selected_references ["main"] {[ "main" := ex_main; "other" := ex_main ]}) as [H _]; [discriminate|apply NoDup_singleton|].
  destruct H as (m & Hm & Hl).
  - intros id ->%list_elem_of_singleton. exists ex_main. reflexivity.
  - exists m. split; [exact Hm|]. rewrite !Hl. split; reflexivity.
Defined.

End TauriBuild.
