(* ===== verification/Html.v ===== *)
(** * HTML documents

    Models [tauri-utils/Source/html.rs]: the serialization of a document, the
    nonce tokens and scripts that are injected into it. A document is the tree of
    [kuchiki]; its nodes are shared and changed in place, which here is the update
    of the tree. What a selector matches and the text of an element's tags are
    parameters: a [HtmlSerializer] is given the calls made on it. *)
From S2P Require Import Prelude Csp Paths.
Import Csp.

Record QualName := mk_qual_name {
  qual_prefix : option string;
  qual_ns : string;
  qual_local : string;
}.

(** [ExpandedName] and [Attribute]; the attributes of an element are an index
    map, in the order of insertion. *)
Record ExpandedName := mk_expanded { expanded_ns : string; expanded_local : string }.
Record Attribute := mk_attribute { attribute_prefix : option string; attribute_value : string }.
Abbreviation Attributes := (list (ExpandedName * Attribute)).

#[global] Instance ExpandedName_eq_dec : EqDecision ExpandedName.
Proof. solve_decision. Defined.

Inductive Node :=
| Element (name : QualName) (attributes : Attributes) (template_contents : option Node) (children : list Node)
| DocumentFragment (children : list Node)
| Document (children : list Node)
| Doctype (name : string)
| Text (s : string)
| Comment (s : string)
| ProcessingInstruction (target data : string).

(** The selectors of [kuchiki]: [None] is a selector that does not parse. The
    selectors used match an element by its name and attributes. *)
Class SelectorLib := {
  selector : string → option (QualName → Attributes → bool);
}.

(** The default template of the isolation script. *)
Class TemplateLib := { isolation_codegen_script : option string }.

(** Calls of [html5ever::serialize::Serializer]. *)
Inductive Event :=
| start_elem (name : QualName) (attributes : list (QualName * string))
| end_elem (name : QualName)
| write_doctype (name : string)
| write_text (s : string)
| write_comment (s : string)
| write_processing_instruction (target data : string).

(** What is written for these calls. *)
Class HtmlSerializer := { html_of_events : list Event → string }.

Module Html.

(** ** Attributes *)
Definition local (name : string) : ExpandedName := mk_expanded "" name.

Fixpoint attr_get (name : ExpandedName) (attrs : Attributes) : option string :=
  match attrs with
  | [] => None
  | (k, a) :: attrs => if decide (k = name) then Some (attribute_value a) else attr_get name attrs
  end.

(** [attributes.insert(name, value)] *)
Fixpoint attr_insert (name : ExpandedName) (value : string) (attrs : Attributes) : Attributes :=
  match attrs with
  | [] => [(name, mk_attribute None value)]
  | (k, a) :: attrs =>
      if decide (k = name) then (k, mk_attribute None value) :: attrs else (k, a) :: attr_insert name value attrs
  end.

Definition attr_remove (name : ExpandedName) (attrs : Attributes) : Attributes :=
  List.filter (λ x, negb (bool_decide (x.1 = name))) attrs.

(** ** Serialization *)
Inductive TraversalScope := IncludeNode | ChildrenOnly.

#[global] Instance TraversalScope_eq_dec : EqDecision TraversalScope.
Proof. solve_decision. Defined.

Definition event_attributes (attrs : Attributes) : list (QualName * string) :=
  (λ x, (mk_qual_name (attribute_prefix x.2) (expanded_ns x.1) (expanded_local x.1), attribute_value x.2)) <$> attrs.

Fixpoint serialize_node_ref_internal (scope : TraversalScope) (node : Node) : list Event :=
  let all := fix all (l : list Node) : list Event :=
    match l with [] => [] | c :: l => serialize_node_ref_internal IncludeNode c ++ all l end in
  match node with
  | Element name attrs template children =>
      (if decide (scope = IncludeNode) then [start_elem name (event_attributes attrs)] else []) ++
      (match template with
       | Some (Element _ _ _ l | DocumentFragment l | Document l) => all l
       | Some _ => []
       | None => all children
       end) ++
      (if decide (scope = IncludeNode) then [end_elem name] else [])
  | DocumentFragment children | Document children => all children
  | Doctype n => if decide (scope = IncludeNode) then [write_doctype n] else []
  | Text s => if decide (scope = IncludeNode) then [write_text s] else []
  | Comment s => if decide (scope = IncludeNode) then [write_comment s] else []
  | ProcessingInstruction t d => if decide (scope = IncludeNode) then [write_processing_instruction t d] else []
  end.

Definition serialize_node `{HtmlSerializer} (node : Node) : string :=
  html_of_events (serialize_node_ref_internal IncludeNode node).

(** ** Selection *)
Section Select.
Context {SL : SelectorLib}.

(** The update of the elements that a selector finds, in the order of the
    document. The contents of templates are not searched. *)
Fixpoint update_elements (found : QualName → Attributes → bool) (f : Attributes → Attributes) (node : Node) : Node :=
  match node with
  | Element name attrs template children =>
      Element name (if found name attrs then f attrs else attrs) template (update_elements found f <$> children)
  | DocumentFragment children => DocumentFragment (update_elements found f <$> children)
  | Document children => Document (update_elements found f <$> children)
  | _ => node
  end.

Definition nonce : ExpandedName := local "nonce".

Definition add_nonce (token : string) (attrs : Attributes) : Attributes :=
  match attr_get nonce attrs with
  | Some _ => attrs
  | None => attr_insert nonce token attrs
  end.

Definition inject_nonce (document : Node) (sel token : string) : Node :=
  match selector sel with
  | Some found => update_elements found (add_nonce token) document
  | None => document
  end.

Definition inject_nonce_token (document : Node) (disabled : DisabledCspModificationKind) : Node :=
  let document :=
    if can_modify disabled "script-src" then inject_nonce document "script[src^='http']" SCRIPT_NONCE_TOKEN
    else document in
  if can_modify disabled "style-src" then inject_nonce document "style" STYLE_NONCE_TOKEN else document.

(** [select_first]: the first element in the order of the document, changed. *)
Fixpoint update_first (found : QualName → Attributes → bool) (f : Node → Node) (node : Node) : option Node :=
  let first := fix first (l : list Node) : option (list Node) :=
    match l with
    | [] => None
    | c :: l =>
        match update_first found f c with
        | Some c => Some (c :: l)
        | None => (cons c) <$> first l
        end
    end in
  match node with
  | Element name attrs template children =>
      if found name attrs then Some (f node) else Element name attrs template <$> first children
  | DocumentFragment children => DocumentFragment <$> first children
  | Document children => Document <$> first children
  | _ => None
  end.

Definition append_child (child parent : Node) : Node :=
  match parent with
  | Element name attrs template children => Element name attrs template (children ++ [child])
  | DocumentFragment children => DocumentFragment (children ++ [child])
  | Document children => Document (children ++ [child])
  | _ => parent
  end.

Definition prepend_child (child parent : Node) : Node :=
  match parent with
  | Element name attrs template children => Element name attrs template (child :: children)
  | DocumentFragment children => DocumentFragment (child :: children)
  | Document children => Document (child :: children)
  | _ => parent
  end.

Definition html_ns : string := "http://www.w3.org/1999/xhtml".
Definition html_name (name : string) : QualName := mk_qual_name None html_ns name.

Definition with_head (f : Node → Node) (document : Node) : Node :=
  match selector "head" ≫= λ found, update_first found f document with
  | Some document => document
  | None => prepend_child (f (Element (html_name "head") [] None [])) document
  end.

Definition create_csp_meta_tag (csp : string) : Node :=
  Element (html_name "meta")
    [(local "http-equiv", mk_attribute None "Content-Security-Policy"); (local "content", mk_attribute None csp)]
    None [].

Definition inject_csp (document : Node) (csp : string) : Node :=
  with_head (append_child (create_csp_meta_tag csp)) document.

(** ** Isolation *)
Definition isolation_script (text : string) : Node :=
  Element (html_name "script") [(nonce, mk_attribute None SCRIPT_NONCE_TOKEN)] None [Text text].

Definition inject_codegen_isolation_script `{TemplateLib} (document : Node) : outcome Empty_set Node :=
  match isolation_codegen_script with
  | Some text => Ok (with_head (prepend_child (isolation_script text)) document)
  | None => Panic "unable to render codegen isolation script template"
  end.

(** A path with a root is read from the folder as well. *)
Definition isolation_path (src : string) : list Paths.Component :=
  match Paths.components src with
  | Paths.RootDir :: cs => cs
  | cs => cs
  end.

(** What becomes of an element with a [src]: its attributes, and the text that is
    appended to it. *)
Definition inline_script (read : list Paths.Component → option string) (attrs : Attributes)
    : outcome Empty_set (Attributes * list Node) :=
  src ← expect (attr_get (local "src") attrs) "script with src attribute has no src value";
  file ← expect (read (isolation_path src)) "unable to find isolation file";
  Ok (attr_remove (local "src") attrs, [Text file]).

Fixpoint inline_scripts (found : QualName → Attributes → bool) (read : list Paths.Component → option string)
    (node : Node) : outcome Empty_set Node :=
  let all := fix all (l : list Node) : outcome Empty_set (list Node) :=
    match l with
    | [] => Ok []
    | c :: l => c ← inline_scripts found read c; l ← all l; Ok (c :: l)
    end in
  match node with
  | Element name attrs template children =>
      if found name attrs then
        '(attrs, appended) ← inline_script read attrs;
        children ← all children;
        Ok (Element name attrs template (children ++ appended))
      else
        children ← all children;
        Ok (Element name attrs template children)
  | DocumentFragment children => children ← all children; Ok (DocumentFragment children)
  | Document children => children ← all children; Ok (Document children)
  | _ => Ok node
  end.

(** [read] reads below the folder of the isolation application. *)
Definition inline_isolation (document : Node) (read : list Paths.Component → option string)
    : outcome Empty_set Node :=
  found ← expect (selector "script[src]") "unable to parse document for scripts";
  inline_scripts found read document.

(** ** Properties *)

Definition is_leaf (n : Node) : bool :=
  match n with Element _ _ _ _ | DocumentFragment _ | Document _ => false | _ => true end.

Lemma Node_ind' (P : Node → Prop)
    (HE : ∀ name attrs template children, Forall P children → P (Element name attrs template children))
    (HF : ∀ children, Forall P children → P (DocumentFragment children))
    (HD : ∀ children, Forall P children → P (Document children))
    (HL : ∀ n, is_leaf n = true → P n) :
  ∀ n, P n.
Proof.
  fix IH 1. intros [name attrs template children|children|children|s|s|s|t d].
  1: apply HE. 2: apply HF. 3: apply HD.
  1-3: (induction children as [|c l IHl]; constructor; [apply IH|exact IHl]).
  - exact (HL (Doctype s) eq_refl).
  - exact (HL (Text s) eq_refl).
  - exact (HL (Comment s) eq_refl).
  - exact (HL (ProcessingInstruction t d) eq_refl).
Qed.

(** The elements of a document in order, without the contents of templates. *)
Fixpoint elements (node : Node) : list (QualName * Attributes) :=
  match node with
  | Element name attrs _ children => (name, attrs) :: List.concat (elements <$> children)
  | DocumentFragment children | Document children => List.concat (elements <$> children)
  | _ => []
  end.

Lemma attr_get_insert name value attrs : attr_get name (attr_insert name value attrs) = Some value.
Proof.
  induction attrs as [|[k a] attrs IH]; simpl; [by rewrite decide_True|].
  destruct (decide (k = name)); simpl; [by rewrite decide_True|by rewrite decide_False].
Qed.

Lemma attr_remove_insert name value attrs : attr_remove name (attr_insert name value attrs) = attr_remove name attrs.
Proof.
  unfold attr_remove. induction attrs as [|[k a] attrs IH]; simpl; [by rewrite bool_decide_eq_true_2|].
  destruct (decide (k = name)) as [->|Hk]; simpl; [by rewrite !bool_decide_eq_true_2|].
  rewrite bool_decide_eq_false_2 by done. simpl. by rewrite IH.
Qed.

Lemma add_nonce_get token attrs :
  attr_get nonce (add_nonce token attrs) = Some (default token (attr_get nonce attrs)).
Proof. unfold add_nonce. destruct (attr_get nonce attrs) eqn:H; [done|]. apply attr_get_insert. Qed.

Lemma add_nonce_remove token attrs : attr_remove nonce (add_nonce token attrs) = attr_remove nonce attrs.
Proof. unfold add_nonce. destruct (attr_get nonce attrs); [done|apply attr_remove_insert]. Qed.

(** A document without the nonces of its elements. *)
Definition without_nonces : Node → Node := update_elements (λ _ _, true) (attr_remove nonce).

Lemma map_ext_Forall {A B} (f g : A → B) l : Forall (λ x, f x = g x) l → f <$> l = g <$> l.
Proof. induction 1 as [|x l Hx _ IH]; [done|]. by rewrite !fmap_cons, Hx, IH. Qed.

Lemma update_elements_spec found f node :
  elements (update_elements found f node) =
  (λ e : QualName * Attributes, (e.1, if found e.1 e.2 then f e.2 else e.2)) <$> elements node.
Proof.
  assert (∀ l, Forall (λ node, elements (update_elements found f node) =
      (λ e : QualName * Attributes, (e.1, if found e.1 e.2 then f e.2 else e.2)) <$> elements node) l →
    List.concat (elements <$> (update_elements found f <$> l)) =
    (λ e : QualName * Attributes, (e.1, if found e.1 e.2 then f e.2 else e.2)) <$> List.concat (elements <$> l)) as Hl.
  { induction 1 as [|c l Hc _ IH]; [done|]. rewrite !fmap_cons. simpl. by rewrite Hc, IH, fmap_app. }
  induction node as [name attrs template children IH|children IH|children IH|node Hn] using Node_ind'; simpl;
    [by rewrite Hl|by apply Hl|by apply Hl|by destruct node].
Qed.

Lemma without_nonces_update found token node :
  without_nonces (update_elements found (add_nonce token) node) = without_nonces node.
Proof.
  assert (∀ l, Forall (λ node, without_nonces (update_elements found (add_nonce token) node) = without_nonces node) l →
    update_elements (λ _ _, true) (attr_remove nonce) <$> (update_elements found (add_nonce token) <$> l) =
    update_elements (λ _ _, true) (attr_remove nonce) <$> l) as Hl.
  { intros l H. rewrite <- list_fmap_compose. by apply map_ext_Forall. }
  unfold without_nonces in *.
  induction node as [name attrs template children IH|children IH|children IH|node Hn] using Node_ind'; simpl;
    [|by rewrite Hl|by rewrite Hl|by destruct node].
  rewrite Hl by done. f_equal. destruct (found name attrs); [apply add_nonce_remove|done].
Qed.

(** The tokens reach exactly the elements the selector finds: each of them has a
    nonce afterwards, the one it had or else the token; the other elements keep
    their attributes, and but for nonces the document is as before. *)
Theorem nonce_injection document sel found token :
  selector sel = Some found →
  let document' := inject_nonce document sel token in
  elements document' =
    (λ e : QualName * Attributes, (e.1, if found e.1 e.2 then add_nonce token e.2 else e.2)) <$> elements document ∧
  (∀ attrs, attr_get nonce (add_nonce token attrs) = Some (default token (attr_get nonce attrs))) ∧
  without_nonces document' = without_nonces document.
Proof.
  intros Hs document'. unfold document', inject_nonce. rewrite Hs.
  split_and!; [apply update_elements_spec|apply add_nonce_get|apply without_nonces_update].
Qed.

(** *** Serialization *)

(** The tree that calls of a serializer describe: the open elements with what
    came before them, and the nodes so far. *)
Definition event_attribute (x : QualName * string) : ExpandedName * Attribute :=
  (mk_expanded (qual_ns x.1) (qual_local x.1), mk_attribute (qual_prefix x.1) x.2).

Fixpoint rebuild (stack : list (QualName * Attributes * list Node)) (acc : list Node) (events : list Event)
    : option (list Node) :=
  match events with
  | [] => match stack with [] => Some acc | _ => None end
  | start_elem n attrs :: events => rebuild ((n, event_attribute <$> attrs, acc) :: stack) [] events
  | end_elem _ :: events =>
      match stack with
      | (n, attrs, before) :: stack => rebuild stack (before ++ [Element n attrs None acc]) events
      | [] => None
      end
  | write_doctype n :: events => rebuild stack (acc ++ [Doctype n]) events
  | write_text s :: events => rebuild stack (acc ++ [Text s]) events
  | write_comment s :: events => rebuild stack (acc ++ [Comment s]) events
  | write_processing_instruction t d :: events => rebuild stack (acc ++ [ProcessingInstruction t d]) events
  end.

(** Elements without template contents, and leaves. *)
Fixpoint plain (node : Node) : bool :=
  match node with
  | Element _ _ None children => forallb plain children
  | Element _ _ (Some _) _ | DocumentFragment _ | Document _ => false
  | _ => true
  end.

Lemma event_attributes_back attrs : event_attribute <$> event_attributes attrs = attrs.
Proof.
  unfold event_attributes. rewrite <- list_fmap_compose. induction attrs as [|[[ns l] [p v]] attrs IH]; [done|].
  rewrite fmap_cons, IH. done.
Qed.

Fixpoint serialize_all (l : list Node) : list Event :=
  match l with [] => [] | c :: l => serialize_node_ref_internal IncludeNode c ++ serialize_all l end.

Lemma rebuild_node node : plain node = true → ∀ events stack acc,
  rebuild stack acc (serialize_node_ref_internal IncludeNode node ++ events) = rebuild stack (acc ++ [node]) events.
Proof.
  induction node as [name attrs template children IH| | |node Hn] using Node_ind'; try done;
    [|destruct node; try done; intros; reflexivity].
  destruct template; [done|]. intros Hp events stack acc. cbn [plain] in Hp.
  change (serialize_node_ref_internal IncludeNode (Element name attrs None children))
    with ([start_elem name (event_attributes attrs)] ++ serialize_all children ++ [end_elem name]).
  rewrite <- !app_assoc. cbn [app rebuild]. rewrite event_attributes_back.
  assert (∀ l acc', Forall (λ node, plain node = true → ∀ events stack acc,
      rebuild stack acc (serialize_node_ref_internal IncludeNode node ++ events) =
      rebuild stack (acc ++ [node]) events) l → forallb plain l = true → ∀ events stack,
    rebuild stack acc' (serialize_all l ++ events) = rebuild stack (acc' ++ l) events) as Hl.
  { induction l as [|c l IHl]; intros acc' HF Hf evs st; [by rewrite app_nil_r|]. apply Forall_cons in HF as [Hc HF].
    cbn [forallb] in Hf. apply andb_true_iff in Hf as [Hc' Hf]. cbn [serialize_all]. rewrite <- app_assoc.
    rewrite (Hc Hc'), IHl by done. by rewrite <- app_assoc. }
  rewrite Hl by done. reflexivity.
Qed.

(** Serialization says all there is in a document: the calls made for a document
    without templates describe its nodes again, each element is closed, and
    nothing is left open. *)
Theorem serialization_complete children :
  forallb plain children = true →
  rebuild [] [] (serialize_node_ref_internal IncludeNode (Document children)) = Some children.
Proof.
  intros Hp. change (serialize_node_ref_internal IncludeNode (Document children)) with (serialize_all children).
  assert (∀ acc, rebuild [] acc (serialize_all children) = Some (acc ++ children)) as H; [|apply H].
  induction children as [|c l IH]; intros acc; [by rewrite app_nil_r|]. cbn [forallb] in Hp.
  apply andb_true_iff in Hp as [Hc Hl]. cbn [serialize_all]. rewrite rebuild_node, IH by done. by rewrite <- app_assoc.
Qed.

End Select.
End Html.
