(* ===== verification/EmbedAssets.v ===== *)
(** * Embedding of assets

    Models [tauri-codegen/Source/embedded_assets.rs], the maps over assets of
    [tauri-codegen/Source/context.rs] and [checksum] with its cache of
    [tauri-codegen/Source/lib.rs]: the files of a directory are put into the
    application, compressed, with the hashes of scripts and styles for the
    policies of its pages. Files are a function from paths to texts, kept also
    when a step fails. The digests, the compression, the walk over a directory
    and the HTML parser are parameters. *)
From Stdlib Require Import Ascii.
From S2P Require Import Prelude Acl Numbers Channel Paths FsScope AssetProtocol Csp AppAssets Values BundleResources.
From S2P Require Import ConfigFiles BuildSupport TauriBuild Html.
Import Csp.

(** An entry of a walk over a directory. *)
Inductive WalkItem := WalkFile (path : list Paths.Component) | WalkFolder | WalkFailed.

Class EmbedLib := {
  walk_dir : list Paths.Component → list WalkItem;
  path_is_dir : list Paths.Component → bool;
  sha256_base64 : string → string;
  blake3 : string → list nat;
  kuchiki_parse : string → Node;
  kuchiki_to_string : Node → string;
  (** creating and writing a file: [None] if it cannot be created, otherwise
      whether all was written and what the file holds then *)
  store : bool → list Paths.Component → string → option (bool * string);
  (** the canonical [OUT_DIR] *)
  codegen_out_dir : option (list Paths.Component);
  codegen_create_dir : list Paths.Component → bool;
}.

Module EmbedAssets.
Import Paths ConfigFiles.

Abbreviation PathBuf := (list Component).

Definition TARGET_PATH : string := "tauri-codegen-assets".

Inductive EmbeddedAssetsError :=
| AssetRead (path : PathBuf)
| AssetWrite (path : PathBuf)
| PrefixInvalid (prefix path : PathBuf)
| Walkdir (path : PathBuf)
| OutDir.

Record CspHashes := mk_csp_hashes {
  scripts : list string;
  inline_scripts : gmap string (list string);
  styles : list string;
}.

Definition CspHashes_default : CspHashes := mk_csp_hashes [] ∅ [].

(** The fields of the options that are read here. *)
Record AssetOptions := mk_asset_options {
  options_csp : bool;
  options_disabled : DisabledCspModificationKind;
}.

Definition AssetOptions_new : AssetOptions := mk_asset_options false (Flag false).
Definition with_csp (o : AssetOptions) : AssetOptions := mk_asset_options true (options_disabled o).
Definition with_disabled (d : DisabledCspModificationKind) (o : AssetOptions) : AssetOptions :=
  mk_asset_options (options_csp o) d.

(** The assets: a key, the original file and the stored one. *)
Record EmbeddedAssets := mk_embedded_assets {
  embedded : gmap string (PathBuf * PathBuf);
  csp_hashes : CspHashes;
}.

Definition EmbeddedAssets_default : EmbeddedAssets := mk_embedded_assets ∅ CspHashes_default.

Section Embed.
Context {EL : EmbedLib} {SL : SelectorLib} {TL : TemplateLib} {HS : HtmlSerializer}.

(** ** Hashes *)
Definition csp_hash (text : string) : string := "'sha256-" +:+ sha256_base64 text +:+ "'".

Definition is_script (path : PathBuf) : bool :=
  match extension path with
  | Some ext => bool_decide (ext = "js") || bool_decide (ext = "mjs")
  | None => false
  end.

Definition add_if_applicable (w : Files) (path : PathBuf) (disabled : DisabledCspModificationKind) (h : CspHashes)
    : outcome EmbeddedAssetsError CspHashes :=
  if is_script path && can_modify disabled "script-src" then
    text ← ok_or (w path) (AssetRead path);
    Ok (mk_csp_hashes (scripts h ++ [csp_hash text]) (inline_scripts h) (styles h))
  else Ok h.

(** ** The files to embed *)
Definition add_raw (w : Files) (disabled : DisabledCspModificationKind) (prefix : PathBuf)
    (s : list (PathBuf * PathBuf) * CspHashes) (item : WalkItem)
    : outcome EmbeddedAssetsError (list (PathBuf * PathBuf) * CspHashes) :=
  match item with
  | WalkFolder => Ok s
  | WalkFile path => h ← add_if_applicable w path disabled s.2; Ok (s.1 ++ [(prefix, path)], h)
  | WalkFailed => Err (Walkdir prefix)
  end.

Definition add_input (w : Files) (disabled : DisabledCspModificationKind)
    (s : list (PathBuf * PathBuf) * CspHashes) (path : PathBuf)
    : outcome EmbeddedAssetsError (list (PathBuf * PathBuf) * CspHashes) :=
  prefix ← (if path_is_dir path then Ok path else expect (parent path) "embedded file asset has no parent");
  for_each (add_raw w disabled prefix) (walk_dir path) s.

Definition RawEmbeddedAssets_new (w : Files) (input : list PathBuf) (options : AssetOptions)
    : outcome EmbeddedAssetsError (list (PathBuf * PathBuf) * CspHashes) :=
  for_each (add_input w (options_disabled options)) input ([], CspHashes_default).

(** ** Checksums *)
Definition hex_digit (n : nat) : ascii := ascii_of_nat (if n <? 10 then 48 + n else 87 + n).
Definition hex_byte (b : nat) : list ascii := [hex_digit (b / 16); hex_digit (b mod 16)].
Definition checksum (content : string) : string := of_bytes (blake3 content ≫= hex_byte).

(** ** Compression *)
Definition AssetMap := string → PathBuf → string → CspHashes → outcome EmbeddedAssetsError (string * CspHashes).

Definition asset_key (prefix path : PathBuf) : option string :=
  (λ rel, AppAssets.AssetKey_from (collect_path rel)) <$> BundleResources.strip_components prefix path.

Definition asset_out_dir : outcome EmbeddedAssetsError PathBuf :=
  out_dir ← ok_or codegen_out_dir OutDir;
  let out_dir := join_name out_dir TARGET_PATH in
  if codegen_create_dir out_dir then Ok out_dir else Err OutDir.

Definition stored_name (content : string) (path : PathBuf) : string :=
  match extension path with
  | Some ext => checksum content +:+ "." +:+ ext
  | None => checksum content
  end.

(** The content of a file and where it is stored, before anything is written. *)
Definition prepare_file (w : Files) (map : AssetMap) (prefix path : PathBuf) (h : CspHashes)
    : outcome EmbeddedAssetsError (string * string * PathBuf * CspHashes) :=
  input ← ok_or (w path) (AssetRead path);
  key ← ok_or (asset_key prefix path) (PrefixInvalid prefix path);
  '(input, h) ← map key path input h;
  out_dir ← asset_out_dir;
  Ok (key, input, join_name out_dir (stored_name input path), h).

(** The file is written only when it does not exist. *)
Definition compress_file (compression : bool) (map : AssetMap) (prefix path : PathBuf) (h : CspHashes) (w : Files)
    : outcome EmbeddedAssetsError (string * (PathBuf * PathBuf) * CspHashes) * Files :=
  match prepare_file w map prefix path h with
  | Ok (key, input, out_path, h) =>
      let done := Ok (key, (path, out_path), h) in
      match w out_path with
      | Some _ => (done, w)
      | None =>
          match store compression out_path input with
          | None => (Err (AssetWrite out_path), w)
          | Some (ok, text) =>
              ((if ok : bool then done else Err (AssetWrite path)), TauriBuild.write_file out_path text w)
          end
      end
  | Err e => (Err e, w)
  | Panic msg => (Panic msg, w)
  | Diverge => (Diverge, w)
  end.

Fixpoint compress_all (compression : bool) (map : AssetMap) (paths : list (PathBuf * PathBuf)) (s : EmbeddedAssets)
    (w : Files) : outcome EmbeddedAssetsError EmbeddedAssets * Files :=
  match paths with
  | [] => (Ok s, w)
  | (prefix, path) :: paths =>
      match compress_file compression map prefix path (csp_hashes s) w with
      | (Ok (key, asset, h), w) =>
          compress_all compression map paths (mk_embedded_assets (<[key := asset]> (embedded s)) h) w
      | (Err e, w) => (Err e, w)
      | (Panic msg, w) => (Panic msg, w)
      | (Diverge, w) => (Diverge, w)
      end
  end.

Definition EmbeddedAssets_new (compression : bool) (input : list PathBuf) (options : AssetOptions) (map : AssetMap)
    (w : Files) : outcome EmbeddedAssetsError EmbeddedAssets * Files :=
  match RawEmbeddedAssets_new w input options with
  | Ok (paths, h) => compress_all compression map paths (mk_embedded_assets ∅ h) w
  | Err e => (Err e, w)
  | Panic msg => (Panic msg, w)
  | Diverge => (Diverge, w)
  end.

(** ** Code generation *)

(** The assets of the application; a stored file that is missing does not
    compile, here it is left out. *)
Definition to_tokens (self : EmbeddedAssets) (w : Files) : AppAssets.EmbeddedAssets :=
  AppAssets.mk_embedded
    (omap (λ x : PathBuf * PathBuf, w x.2) (embedded self))
    ((Script <$> scripts (csp_hashes self)) ++ (Style <$> styles (csp_hashes self)))
    ((λ l : list string, Script <$> l) <$> inline_scripts (csp_hashes self)).

(** ** Maps over the assets *)

(** [text_contents]: the text below a node. *)
Fixpoint text_contents (node : Node) : string :=
  match node with
  | Element _ _ _ children | DocumentFragment children | Html.Document children =>
      foldr String.append "" (text_contents <$> children)
  | Text s => s
  | _ => ""
  end.

(** The elements that a selector finds, in the order of the document. *)
Fixpoint select_nodes (found : QualName → Html.Attributes → bool) (node : Node) : list Node :=
  match node with
  | Element name attrs _ children =>
      (if found name attrs then [node] else []) ++ List.concat (select_nodes found <$> children)
  | DocumentFragment children | Html.Document children => List.concat (select_nodes found <$> children)
  | _ => []
  end.

Definition script_hashes (document : Node) : option (list string) :=
  (λ found, (λ el, csp_hash (text_contents el)) <$> select_nodes found document) <$> selector "script:not(empty)".

Definition inject_script_hashes (document : Node) (key : string) (h : CspHashes) : CspHashes :=
  match script_hashes document with
  | Some l => mk_csp_hashes (scripts h) (entry_or [] (λ old, old ++ l) key (inline_scripts h)) (styles h)
  | None => h
  end.

Definition is_html (path : PathBuf) : bool := bool_decide (extension path = Some "html").

Definition core_document (options : AssetOptions) (input : string) : Node :=
  Html.inject_nonce_token (kuchiki_parse (AppAssets.from_utf8_lossy input)) (options_disabled options).

Definition map_core_assets (options : AssetOptions) : AssetMap := λ key path input h,
  if is_html path && options_csp options then
    let document := core_document options input in
    let h := if can_modify (options_disabled options) "script-src" then inject_script_hashes document key h else h in
    Ok (Html.serialize_node document, h)
  else Ok (input, h).

Definition IFRAME_STYLE : string := "#__tauri_isolation__ { display: none !important }".

(** The steps on a document that cannot fail but by a panic. *)
Definition panics {A} (o : outcome Empty_set A) : outcome EmbeddedAssetsError A :=
  match o with Ok a => Ok a | Err e => match e with end | Panic msg => Panic msg | Diverge => Diverge end.

(** [read] reads below the folder of the isolation application. *)
Definition map_isolation (read : PathBuf → option string) : AssetMap := λ key path input h,
  if is_html path then
    let document := kuchiki_parse (AppAssets.from_utf8_lossy input) in
    document ← panics (Html.inject_codegen_isolation_script document);
    document ← panics (Html.inline_isolation document read);
    let document := Html.inject_nonce_token document (Flag false) in
    let h := inject_script_hashes document key h in
    let h := mk_csp_hashes (scripts h) (inline_scripts h) (styles h ++ [csp_hash IFRAME_STYLE]) in
    Ok (kuchiki_to_string document, h)
  else Ok (input, h).

(** ** Cached icons *)
Definition ensure_out_dir : outcome EmbeddedAssetsError PathBuf :=
  out_dir ← ok_or codegen_out_dir OutDir;
  if codegen_create_dir out_dir then Ok out_dir else Err OutDir.

(** [write_if_changed] into [OUT_DIR], under the checksum of the content. *)
Definition Cached_try_from (content : string) (w : Files) : outcome EmbeddedAssetsError string * Files :=
  match ensure_out_dir with
  | Ok out_dir =>
      let path := join_name out_dir (checksum content) in
      if decide (w path = Some content) then (Ok (checksum content), w)
      else
        match store false path content with
        | Some (true, text) => (Ok (checksum content), TauriBuild.write_file path text w)
        | Some (false, text) => (Err (AssetWrite path), TauriBuild.write_file path text w)
        | None => (Err (AssetWrite path), w)
        end
  | Err e => (Err e, w)
  | Panic msg => (Panic msg, w)
  | Diverge => (Diverge, w)
  end.

(** ** Lemmas *)

Lemma hex_digit_inj a b : a < 16 → b < 16 → hex_digit a = hex_digit b → a = b.
Proof. do 16 (destruct a as [|a]; [do 16 (destruct b as [|b]; [done|]); lia|]). lia. Qed.

Lemma hex_byte_inj a b : a < 256 → b < 256 → hex_byte a = hex_byte b → a = b.
Proof.
  intros Ha Hb H.
  assert (hex_digit (a / 16) = hex_digit (b / 16) ∧ hex_digit (a mod 16) = hex_digit (b mod 16)) as [H1 H2]
    by (unfold hex_byte in H; split; congruence).
  apply hex_digit_inj in H1; [|apply Nat.Div0.div_lt_upper_bound; lia..].
  apply hex_digit_inj in H2; [|apply Nat.mod_upper_bound; lia..].
  rewrite (Nat.div_mod_eq a 16), (Nat.div_mod_eq b 16). lia.
Qed.

Lemma hex_bytes_inj l1 l2 :
  Forall (λ b, b < 256) l1 → Forall (λ b, b < 256) l2 → l1 ≫= hex_byte = l2 ≫= hex_byte → l1 = l2.
Proof.
  intros H1. revert l2. induction H1 as [|a l1 Ha _ IH]; intros [|b l2] H2 H; [done|done|done|].
  apply Forall_cons in H2 as [Hb H2].
  change (hex_byte a ++ (l1 ≫= hex_byte) = hex_byte b ++ (l2 ≫= hex_byte)) in H.
  apply app_inj_1 in H as [Hh H]; [|done]. f_equal; [by apply hex_byte_inj|by apply IH].
Qed.

(** A digest has 32 bytes. *)
Definition digests : Prop := ∀ s, length (blake3 s) = 32 ∧ Forall (λ b, b < 256) (blake3 s).

Lemma length_checksum s : digests → length (bytes (checksum s)) = 64.
Proof.
  intros H. unfold checksum. rewrite bytes_of_bytes. destruct (H s) as [Hl _].
  assert (∀ l : list nat, length (l ≫= hex_byte) = 2 * length l) as ->; [|lia].
  induction l as [|b l IH]; [done|]. cbn. cbn in IH. lia.
Qed.

Lemma stored_name_inj a path b path' :
  digests → stored_name a path = stored_name b path' → blake3 a = blake3 b.
Proof.
  intros Hd H.
  assert (∀ s p, take 64 (bytes (stored_name s p)) = bytes (checksum s)) as Htake.
  { intros s p. unfold stored_name. destruct (extension p); [rewrite bytes_append|];
      [apply take_app_length'|apply take_ge]; rewrite length_checksum; done. }
  apply (f_equal (λ s, take 64 (bytes s))) in H. rewrite !Htake in H. unfold checksum in H.
  rewrite !bytes_of_bytes in H. destruct (Hd a) as [_ ?], (Hd b) as [_ ?]. by apply hex_bytes_inj.
Qed.

Lemma strip_components_app base p : BundleResources.strip_components base (base ++ p) = Some p.
Proof. induction base as [|b base IH]; simpl; [by destruct p|]. by rewrite decide_True. Qed.

(** Names below a directory. *)
Definition plain_names (p : PathBuf) : Prop := ∀ c, c ∈ p → ∃ s, c = Normal s ∧ name s.

(** The key of a file is its path below the directory, from the root. *)
Lemma asset_key_components prefix p k :
  plain_names p → asset_key prefix (prefix ++ p) = Some k → components k = RootDir :: p.
Proof.
  intros Hp. unfold asset_key. rewrite strip_components_app. intros [= <-].
  assert (components (collect_path p) = p) as Hcol.
  { apply (components_collect [] p); [by left|]. intros c Hin. right. by apply Hp. }
  assert (is_absolute (collect_path p) = false ∧ body (collect_path p) = p) as [Ha Hb].
  { unfold components in Hcol. pose proof Hcol as Hcol'. unfold lead in Hcol'.
    destruct (is_absolute (collect_path p)) eqn:Ha; [|case_decide].
    - destruct (Hp RootDir) as (? & ? & _); [rewrite <- Hcol'; left|done].
    - destruct (Hp CurDir) as (? & ? & _); [rewrite <- Hcol'; left|done].
    - done. }
  unfold AppAssets.AssetKey_from. rewrite Ha, components_push, Hb by done. done.
Qed.

(** ** What is embedded *)
Section Served.
Context {SV : ServeLib}.
Variable compression : bool.
Variable options : AssetOptions.
Variable out : PathBuf.

(** The contents among which the digests do not collide. *)
Variable seen : string → Prop.

Definition decode (text : string) : option string := if compression then BrotliDecompress text else Some text.

(** What is read back from a file that was written completely. *)
Definition stores_decode : Prop := ∀ p s t, store compression p s = Some (true, t) → decode t = Some s.
Definition no_collision : Prop := ∀ a b, seen a → seen b → blake3 a = blake3 b → a = b.

(** The stored files hold what their names say. *)
Definition cache_ok (w : Files) : Prop :=
  ∀ s path t, seen s → w (join_name out (stored_name s path)) = Some t → decode t = Some s.

(** The content and the hashes that the core map gives a file. *)
Definition core_content (path : PathBuf) (input : string) : string :=
  if is_html path && options_csp options then Html.serialize_node (core_document options input) else input.

Definition core_hashes (key : string) (path : PathBuf) (input : string) (h : CspHashes) : CspHashes :=
  if is_html path && options_csp options && can_modify (options_disabled options) "script-src"
  then inject_script_hashes (core_document options input) key h else h.

Lemma map_core_assets_eq key path input h :
  map_core_assets options key path input h = Ok (core_content path input, core_hashes key path input h).
Proof.
  unfold map_core_assets, core_content, core_hashes. destruct (is_html path && options_csp options); simpl; [|done].
  by destruct (can_modify _ _).
Qed.

(** Files are added and never changed, and only below [out]. *)
Definition extends (w w' : Files) : Prop :=
  (∀ p t, w p = Some t → w' p = Some t) ∧ (∀ p, (∀ n, p ≠ join_name out n) → w' p = w p).

Lemma extends_refl w : extends w w.
Proof. by split. Qed.

Lemma extends_trans w1 w2 w3 : extends w1 w2 → extends w2 w3 → extends w1 w3.
Proof. intros [H1 H2] [H3 H4]. split; [auto|]. intros p Hp. by rewrite H4, H2. Qed.

Hypothesis Hstore : stores_decode.
Hypothesis Hdigest : digests.
Hypothesis Hcollision : no_collision.
Hypothesis Hout : asset_out_dir = Ok out.

Lemma compress_file_spec prefix path h w key paths h' w' :
  compress_file compression (map_core_assets options) prefix path h w = (Ok (key, paths, h'), w') →
  cache_ok w → (∀ r, w path = Some r → seen (core_content path r)) →
  ∃ r t out_path, w path = Some r ∧ asset_key prefix path = Some key ∧ paths = (path, out_path) ∧
    h' = core_hashes key path r h ∧ w' out_path = Some t ∧ decode t = Some (core_content path r) ∧
    cache_ok w' ∧ extends w w'.
Proof.
  unfold compress_file, prepare_file. destruct (w path) as [r|] eqn:Hr; simpl; [|done].
  destruct (asset_key prefix path) as [k|]; simpl; [|done]. rewrite map_core_assets_eq. simpl. rewrite Hout. simpl.
  set (content := core_content path r). set (op := join_name out (stored_name content path)).
  intros H Hcache Hseen. specialize (Hseen r eq_refl). destruct (w op) as [t|] eqn:Hop.
  - injection H as <- <- <- <-. exists r, t, op. split_and!; try done. by eapply Hcache.
  - destruct (store compression op content) as [[[] t]|] eqn:Hs; [|done|done]. injection H as <- <- <- <-.
    apply Hstore in Hs. exists r, t, op. unfold TauriBuild.write_file. split_and!; try done.
    + by rewrite decide_True.
    + intros s p t' Hs'. case_decide as Hd; [|by apply Hcache]. intros [= <-].
      apply app_inj_tail in Hd as [_ [= Hd]]. apply stored_name_inj in Hd; [|done].
      apply Hcollision in Hd; [|done|done]. by subst s.
    + split; [intros p t' Hp; case_decide; [congruence|done]|]. intros p Hp. rewrite decide_False; [done|]. apply Hp.
Qed.

(** Hashes are only added. *)
Definition hashes_grow (h h' : CspHashes) : Prop :=
  scripts h' = scripts h ∧ styles h' = styles h ∧
  ∀ k l x, inline_scripts h !! k = Some l → x ∈ l → ∃ l', inline_scripts h' !! k = Some l' ∧ x ∈ l'.

Lemma hashes_grow_trans h1 h2 h3 : hashes_grow h1 h2 → hashes_grow h2 h3 → hashes_grow h1 h3.
Proof.
  intros (H1 & H2 & H3) (H4 & H5 & H6). split_and!; [congruence|congruence|].
  intros k l x Hl Hx. destruct (H3 k l x Hl Hx) as (l' & ? & ?). by eapply H6.
Qed.

Lemma core_hashes_grow key path r h : hashes_grow h (core_hashes key path r h).
Proof.
  unfold core_hashes, inject_script_hashes, hashes_grow. case_match; [|split_and!; eauto].
  destruct (script_hashes _) as [l|]; simpl; split_and!; eauto. intros k l' x Hl Hx. unfold entry_or.
  destruct (decide (k = key)) as [->|Hk]; [rewrite lookup_insert_eq, Hl|rewrite lookup_insert_ne by done; eauto].
  simpl. exists (l' ++ l). set_solver.
Qed.

(** The inline scripts of a page are hashed under its key. *)
Definition page_hashed (key : string) (path : PathBuf) (r : string) (h : CspHashes) : Prop :=
  is_html path && options_csp options && can_modify (options_disabled options) "script-src" = true →
  ∀ l x, script_hashes (core_document options r) = Some l → x ∈ l →
    ∃ l', inline_scripts h !! key = Some l' ∧ x ∈ l'.

Lemma core_hashes_page key path r h : page_hashed key path r (core_hashes key path r h).
Proof.
  unfold page_hashed, core_hashes. intros -> l x Hl Hx. unfold inject_script_hashes. rewrite Hl. simpl. unfold entry_or.
  rewrite lookup_insert_eq. eexists. split; [done|]. set_solver.
Qed.

Lemma page_hashed_grow key path r h h' : hashes_grow h h' → page_hashed key path r h → page_hashed key path r h'.
Proof. intros (_ & _ & Hg) Hp Hc l x Hl Hx. destruct (Hp Hc l x Hl Hx) as (l' & ? & ?). by eapply Hg. Qed.

(** An asset is embedded with its content and its hashes. *)
Definition serves (e : EmbeddedAssets) (w w' : Files) (prefix path : PathBuf) : Prop :=
  ∃ key r t out_path, asset_key prefix path = Some key ∧ w path = Some r ∧
    embedded e !! key = Some (path, out_path) ∧ w' out_path = Some t ∧ decode t = Some (core_content path r) ∧
    page_hashed key path r (csp_hashes e).

Abbreviation keys paths := ((λ x : PathBuf * PathBuf, asset_key x.1 x.2) <$> paths).

Lemma compress_all_spec paths s w e w' :
  compress_all compression (map_core_assets options) paths s w = (Ok e, w') →
  cache_ok w → (∀ x, x ∈ paths → ∀ n, x.2 ≠ join_name out n) →
  (∀ x r, x ∈ paths → w x.2 = Some r → seen (core_content x.2 r)) → NoDup (keys paths) →
  extends w w' ∧ hashes_grow (csp_hashes s) (csp_hashes e) ∧
  (∀ k, Some k ∉ keys paths → embedded e !! k = embedded s !! k) ∧
  (∀ x, x ∈ paths → serves e w w' x.1 x.2).
Proof.
  revert s w. induction paths as [|[prefix path] paths IH]; intros s w H Hcache Hsrc Hseen Hnd.
  { injection H as <- <-. split_and!; [apply extends_refl|split_and!; eauto|done|set_solver]. }
  cbn [compress_all] in H.
  destruct (compress_file _ _ _ _ _ _) as [[[[key asset] h']| | |] w1] eqn:Hc; try done.
  rewrite fmap_cons in Hnd. apply NoDup_cons in Hnd as [Hk Hnd].
  apply compress_file_spec in Hc as (r & t & op & Hr & Hkey & -> & -> & Ht & Hdec & Hcache1 & Hext); [|done|].
  2: { intros r Hr. apply (Hseen (prefix, path)); [left|done]. }
  simpl in Hk. rewrite Hkey in Hk.
  apply IH in H as (Hext' & Hg & Hold & Hserve); [|done| | |done]; cbn [csp_hashes embedded] in *.
  2: { intros x Hx. apply Hsrc. by right. }
  2: { intros x r' Hx. destruct Hext as [_ Hext]. rewrite Hext; [apply Hseen; by right|]. apply Hsrc. by right. }
  assert (hashes_grow (csp_hashes s) (core_hashes key path r (csp_hashes s))) as Hg1 by apply core_hashes_grow.
  split_and!; [by eapply extends_trans|by eapply hashes_grow_trans| |].
  - intros k Hnk. rewrite fmap_cons, not_elem_of_cons in Hnk. destruct Hnk as [Hne Hnk].
    rewrite Hold by done. apply lookup_insert_ne. simpl in Hne. congruence.
  - intros x [->|Hx]%elem_of_cons.
    + exists key, r, t, op. simpl. split_and!; try done.
      * rewrite Hold by done. apply lookup_insert_eq.
      * by apply Hext'.
      * eapply page_hashed_grow; [done|]. apply core_hashes_page.
    + destruct (Hserve x Hx) as (k & r' & t' & op' & ? & Hr' & ?). exists k, r', t', op'. split_and!; try tauto.
      destruct Hext as [_ Hext]. rewrite <- Hr'. symmetry. apply Hext. apply Hsrc. by right.
Qed.

End Served.

(** ** The files of a directory *)
Definition walk_files (items : list WalkItem) : list PathBuf :=
  omap (λ i, match i with WalkFile p => Some p | _ => None end) items.

Lemma add_raw_spec w disabled prefix items s paths h :
  for_each (add_raw w disabled prefix) items s = Ok (paths, h) →
  paths = s.1 ++ (pair prefix <$> walk_files items) ∧ (∀ x, x ∈ scripts s.2 → x ∈ scripts h) ∧
  (∀ p, p ∈ walk_files items → is_script p && can_modify disabled "script-src" = true →
     ∃ r, w p = Some r ∧ csp_hash r ∈ scripts h).
Proof.
  revert s. induction items as [|item items IH]; intros [l h0] H.
  { injection H as <- <-. rewrite app_nil_r. split_and!; [done|done|]. intros p ?%not_elem_of_nil. done. }
  cbn [for_each] in H. apply bind_ok in H as ([l1 h1] & Hitem & H). apply IH in H as (-> & Hgrow & Hall).
  destruct item as [p| |]; [|injection Hitem as <- <-; by split_and!|done].
  cbn [add_raw fst snd] in Hitem. apply bind_ok in Hitem as (h2 & Hadd & [= <- <-]).
  cbn [walk_files omap list_omap fst snd] in *. unfold add_if_applicable in Hadd.
  assert ((∀ x, x ∈ scripts h0 → x ∈ scripts h2) ∧
    (is_script p && can_modify disabled "script-src" = true → ∃ r, w p = Some r ∧ csp_hash r ∈ scripts h2)) as [Hg Hp].
  { destruct (is_script p && can_modify disabled "script-src"); [|injection Hadd as <-; by split].
    apply bind_ok in Hadd as (r & Hr%ok_or_ok & [= <-]). simpl. split; [set_solver|]. intros _. exists r. set_solver. }
  split_and!; [by rewrite <- app_assoc|auto|]. intros q [->|Hq]%elem_of_cons Hs; [|by apply Hall].
  destruct (Hp Hs) as (r & ? & ?). eauto.
Qed.

(** A directory that can be embedded: its files have plain names below it, are
    not the stored ones, and their contents are told apart by their digests. *)
Record sound_walk (options : AssetOptions) (out : PathBuf) (seen : string → Prop) (dir : PathBuf) (w : Files) : Prop := {
  walk_NoDup : NoDup (walk_files (walk_dir dir));
  walk_below p : p ∈ walk_files (walk_dir dir) → ∃ rel, p = dir ++ rel ∧ plain_names rel;
  walk_apart p n : p ∈ walk_files (walk_dir dir) → p ≠ join_name out n;
  walk_seen p r : p ∈ walk_files (walk_dir dir) → w p = Some r → seen (core_content options p r);
}.

Lemma sound_walk_keys options out seen dir w :
  sound_walk options out seen dir w →
  NoDup ((λ x : PathBuf * PathBuf, asset_key x.1 x.2) <$> (pair dir <$> walk_files (walk_dir dir))).
Proof.
  intros [Hnd Hb _ _]. rewrite <- list_fmap_compose. simpl. induction Hnd as [|p l Hp _ IH]; [by apply NoDup_nil_2|].
  rewrite fmap_cons. apply NoDup_cons. split; [|apply IH; intros q Hq; apply Hb; by right].
  intros (q & Heq & Hq)%list_elem_of_fmap. simpl in Heq.
  destruct (Hb p) as (rp & -> & Hrp); [left|]. destruct (Hb q) as (rq & -> & Hrq); [by right|].
  destruct (asset_key dir (dir ++ rp)) as [k|] eqn:Hk.
  - apply asset_key_components in Hk; [|done]. symmetry in Heq. apply asset_key_components in Heq; [|done].
    assert (rp = rq) by congruence. by subst.
  - unfold asset_key in Hk. by rewrite strip_components_app in Hk.
Qed.

(** C18. Every file of the directory is served by the application under its path, with
    the content the build gave it: when the files stored by earlier builds are
    what their names say ([partial_asset_reused] shows one that is not), no two
    contents have the same digest, what is compressed decodes again and the
    files are what the walk over the directory found. The policy of a page knows
    the hashes of all scripts of the directory and of the inline scripts of that
    page, unless the configuration keeps the build from changing them. *)
Theorem embedded_assets_served {SV : ServeLib} compression options out seen dir w e w' :
  stores_decode compression → digests → no_collision seen → asset_out_dir = Ok out →
  path_is_dir dir = true → cache_ok compression out seen w → sound_walk options out seen dir w →
  EmbeddedAssets_new compression [dir] options (map_core_assets options) w = (Ok e, w') →
  let app := to_tokens e w' in
  ∀ rel, dir ++ rel ∈ walk_files (walk_dir dir) → ∃ key r,
    key = AppAssets.AssetKey_from (collect_path rel) ∧ components key = RootDir :: rel ∧ w (dir ++ rel) = Some r ∧
    AppAssets.EmbeddedAssets_get compression app key = Some (core_content options (dir ++ rel) r) ∧
    (is_script (dir ++ rel) && can_modify (options_disabled options) "script-src" = true →
       ∀ page, Script (csp_hash r) ∈ AppAssets.EmbeddedAssets_csp_hashes app page) ∧
    (is_html (dir ++ rel) && options_csp options && can_modify (options_disabled options) "script-src" = true →
       ∀ l x, script_hashes (core_document options r) = Some l → x ∈ l →
       Script x ∈ AppAssets.EmbeddedAssets_csp_hashes app key).
Proof.
  intros Hst Hdi Hco Hout Hdir Hcache Hwalk Hnew app rel Hin. unfold EmbeddedAssets_new, RawEmbeddedAssets_new in Hnew.
  destruct (for_each _ [dir] _) as [[paths h]| | |] eqn:Hraw; try done.
  cbn [for_each] in Hraw. unfold add_input in Hraw. rewrite Hdir in Hraw. cbn [mbind outcome_bind] in Hraw.
  apply bind_ok in Hraw as ([paths' h'] & Hraw & [= -> ->]). apply add_raw_spec in Hraw as (-> & _ & Hscripts).
  simpl in Hnew. apply (compress_all_spec compression options out seen) in Hnew
    as (_ & (Hsc & _ & _) & _ & Hserve); [|done..| | |by eapply sound_walk_keys].
  2: { intros x (p & -> & Hp)%list_elem_of_fmap n. by eapply walk_apart. }
  2: { intros x r (p & -> & Hp)%list_elem_of_fmap. by eapply walk_seen. }
  destruct (Hserve (dir, dir ++ rel)) as (key & r & t & op & Hkey & Hr & He & Ht & Hdec & Hpage).
  { apply list_elem_of_fmap. eauto. }
  simpl in *. exists key, r. split_and!; [| |done| | |].
  - unfold asset_key in Hkey. rewrite strip_components_app in Hkey. by injection Hkey as <-.
  - destruct (walk_below _ _ _ _ _ Hwalk _ Hin) as (rel' & Heq & Hn). apply app_inv_head in Heq as <-.
    by eapply asset_key_components.
  - unfold AppAssets.EmbeddedAssets_get. cbn [AppAssets.assets app to_tokens]. unfold app. simpl.
    rewrite lookup_omap, He. simpl. rewrite Ht. simpl. exact Hdec.
  - intros Hs page. destruct (Hscripts _ Hin Hs) as (r' & Hr' & Hx). assert (r' = r) as -> by congruence.
    unfold app, AppAssets.EmbeddedAssets_csp_hashes. simpl. rewrite Hsc. set_solver.
  - intros Hc l x Hl Hx. destruct (Hpage Hc l x Hl Hx) as (l' & Hl' & Hx').
    unfold app, AppAssets.EmbeddedAssets_csp_hashes. simpl. rewrite lookup_fmap, Hl'. simpl. set_solver.
Qed.

(** A build that fails while it writes an asset leaves a file behind that later
    builds take for the asset: nothing is written again, and the text stored
    there is embedded. *)
Theorem partial_asset_reused compression map prefix path h w key input out_path h' text :
  prepare_file w map prefix path h = Ok (key, input, out_path, h') → path ≠ out_path →
  w out_path = None → store compression out_path input = Some (false, text) →
  let w1 := TauriBuild.write_file out_path text w in
  compress_file compression map prefix path h w = (Err (AssetWrite path), w1) ∧
  compress_file compression map prefix path h w1 = (Ok (key, (path, out_path), h'), w1) ∧
  w1 out_path = Some text.
Proof.
  intros Hp Hne Hw Hs w1.
  assert (prepare_file w1 map prefix path h = prepare_file w map prefix path h) as Hp1.
  { unfold prepare_file, w1, TauriBuild.write_file. by rewrite decide_False. }
  assert (w1 out_path = Some text) as Ht by (unfold w1, TauriBuild.write_file; by rewrite decide_True).
  unfold compress_file. rewrite Hp1, Hp, Hw, Hs, Ht. done.
Qed.

End Embed.
(** ** Witnesses *)
Definition ex_dist : PathBuf := [RootDir; Normal "dist"].
Definition ex_index : PathBuf := ex_dist ++ [Normal "index.html"].
Definition ex_js : PathBuf := ex_dist ++ [Normal "js"; Normal "app.js"].
Definition ex_page : Node := Html.Document [Element (Html.html_name "script") [] None [Text "go()"]].

#[local] Instance ex_embed : EmbedLib := {|
  walk_dir _ := [WalkFile ex_index; WalkFile ex_js; WalkFolder];
  path_is_dir _ := true;
  sha256_base64 s := s;
  blake3 s := replicate 31 0 ++ [String.length s mod 256];
  kuchiki_parse _ := ex_page;
  kuchiki_to_string _ := "";
  store _ _ s := Some (true, s);
  codegen_out_dir := Some [RootDir; Normal "out"];
  codegen_create_dir _ := true;
|}.

#[local] Instance ex_selector : SelectorLib := {| selector _ := Some (λ n _, bool_decide (qual_local n = "script")) |}.
#[local] Instance ex_serializer : HtmlSerializer := {| html_of_events _ := "<script>go()</script>" |}.
#[local] Instance ex_serve : ServeLib := {|
  BrotliDecompress := Some;
  percent_decode_lossy s := s;
  header_value_valid _ := true;
  render_isolation _ _ _ := None;
|}.

Definition ex_options : AssetOptions := with_csp AssetOptions_new.
Definition ex_files : Files := λ p,
  if decide (p = ex_index) then Some "<script>" else if decide (p = ex_js) then Some "run()" else None.
Definition ex_seen (s : string) : Prop := s = "<script>go()</script>" ∨ s = "run()".
Definition ex_out : PathBuf := [RootDir; Normal "out"; Normal TARGET_PATH].

Lemma ex_sound_walk : sound_walk ex_options ex_out ex_seen ex_dist ex_files.
Proof.
  assert (walk_files (walk_dir ex_dist) = [ex_index; ex_js]) as Hw by reflexivity.
  split; rewrite Hw.
  - apply NoDup_cons. split; [|apply NoDup_singleton]. rewrite list_elem_of_singleton. discriminate.
  - intros p. rewrite !elem_of_cons, elem_of_nil. intros [->|[->|[]]]; eexists; (split; [reflexivity|]); intros c;
      rewrite !elem_of_cons, elem_of_nil; intros; destruct_or?; subst; try done; eexists; (split; [reflexivity|]);
      vm_compute; done.
  - intros p n. rewrite !elem_of_cons, elem_of_nil. intros [->|[->|[]]]; vm_compute; discriminate.
  - intros p r. rewrite !elem_of_cons, elem_of_nil. intros [->|[->|[]]] H; vm_compute in H; injection H as <-.
    + left. reflexivity.
    + right. reflexivity.
Qed.

Lemma embedded_assets_served_witness :
  ∃ e w', EmbeddedAssets_new true [ex_dist] ex_options (map_core_assets ex_options) ex_files = (Ok e, w') ∧
    AppAssets.EmbeddedAssets_get true (to_tokens e w') "/js/app.js" = Some "run()".
Proof.
  destruct (EmbeddedAssets_new true [ex_dist] ex_options (map_core_assets ex_options) ex_files) as [[e| | |] w'] eqn:H.
  2-4: (assert (match (EmbeddedAssets_new true [ex_dist] ex_options (map_core_assets ex_options) ex_files).1
          with Ok _ => true | _ => false end = true) as H1 by (vm_compute; reflexivity); rewrite H in H1; discriminate).
  exists e, w'. split; [reflexivity|].
  destruct (embedded_assets_served true ex_options ex_out ex_seen ex_dist ex_files e w') with (rel := [Normal "js"; Normal "app.js"])
    as (key & r & -> & _ & Hr & Hget & _).
  - intros p s t [= <-]. reflexivity.
  - intros s. split; [reflexivity|]. apply Forall_app. split; [apply Forall_replicate; lia|].
    apply Forall_singleton. apply Nat.mod_upper_bound. lia.
  - intros a b [->| ->] [->| ->] Hb; try reflexivity; vm_compute in Hb; discriminate.
  - reflexivity.
  - reflexivity.
  - intros s p t _ Ht. vm_compute in Ht. discriminate.
  - exact ex_sound_walk.
  - exact H.
  - right. left.
  - vm_compute in Hr. injection Hr as <-.
    exact Hget.
Defined.

End EmbedAssets.
