(* ===== verification/Pbxproj.v ===== *)
(** * Xcode projects

    Models [tauri-cli/Source/helpers/pbxproj.rs], the reader of
    [project.pbxproj] files that keeps their lines and changes build settings in
    place, and [synchronize_project_config] of
    [tauri-cli/Source/mobile/ios/mod.rs], which sets the signing of an iOS
    project with it. White space is ASCII. The loop over the lines of one value
    is a state of its own. *)
From Stdlib Require Import Ascii.
From S2P Require Import Prelude Acl Numbers Paths BuildSupport.

Module Pbxproj.

(** ** Text *)
Definition is_ascii_whitespace (c : ascii) : bool :=
  let n := nat_of_ascii c in (n =? 32) || (n =? 9) || (n =? 10) || (n =? 12) || (n =? 13).

(** [char::is_whitespace] of ASCII. *)
Definition is_whitespace (c : ascii) : bool := is_ascii_whitespace c || (nat_of_ascii c =? 11).

Fixpoint take_while (p : ascii → bool) (l : list ascii) : list ascii :=
  match l with c :: l => if p c then c :: take_while p l else [] | [] => [] end.
Fixpoint drop_while (p : ascii → bool) (l : list ascii) : list ascii :=
  match l with c :: l' => if p c then drop_while p l' else l | [] => [] end.

(** [s.split_at(position)] of the first character that is no white space. *)
Definition split_at_identation (s : string) : option (string * string) :=
  match drop_while is_ascii_whitespace (bytes s) with
  | [] => None
  | token => Some (of_bytes (take_while is_ascii_whitespace (bytes s)), of_bytes token)
  end.

(** [trim_end_matches] of a character. *)
Definition trim_end_char (c : ascii) (s : string) : string :=
  of_bytes (reverse (drop_while (λ x, bool_decide (x = c)) (reverse (bytes s)))).

(** [trim_end_matches] of a text: it is removed as often as it is there. *)
Fixpoint strip_all (fuel : nat) (p s : string) : string :=
  match fuel, strip_prefix p s with S fuel, Some s => strip_all fuel p s | _, _ => s end.
Definition trim_end_str (p s : string) : string :=
  rev_string (strip_all (String.length s) (rev_string p) (rev_string s)).

Definition trim (s : string) : string :=
  of_bytes (reverse (drop_while is_whitespace (reverse (drop_while is_whitespace (bytes s))))).

Definition newline : ascii := "010"%char.
Definition nl : string := String newline EmptyString.
Definition dq : string := String "034"%char EmptyString.

(** ** The project *)
Record BuildSettings := mk_build_settings {
  identation : string;
  line_number : nat;
  key : string;
  value : string;
}.

Record BuildConfigurationRef := mk_build_configuration_ref {
  ref_id : string;
  ref_comments : string;
}.

Record XCConfigurationList := mk_configuration_list {
  list_comment : string;
  build_configurations : list BuildConfigurationRef;
}.

(** An [XCBuildConfiguration] is the list of its settings. *)
Abbreviation XCBuildConfiguration := (list BuildSettings).

Record Pbxproj := mk_pbxproj {
  raw_lines : list string;
  xc_build_configuration : gmap string XCBuildConfiguration;
  xc_configuration_list : gmap string XCConfigurationList;
  additions : gmap nat string;
  changed : bool;
}.

(** ** Reading *)
Inductive State :=
| Idle
| InXCBuildConfiguration
| XCBuildConfigurationObject (id : string)
| XCBuildConfigurationObjectBuildSettings (id : string)
| InXCConfigurationList
| XCConfigurationListObject (id : string)
| XCConfigurationListObjectBuildConfigurations (id : string)
(** the lines of a value in parentheses *)
| MultilineValue (id : string) (setting : BuildSettings).

(** What the lines add: the configurations and the lists. *)
Record Sections := mk_sections {
  configurations : gmap string XCBuildConfiguration;
  lists : gmap string XCConfigurationList;
}.

Definition push_setting (id : string) (s : BuildSettings) (p : Sections) : Sections :=
  mk_sections (alter (λ l, l ++ [s]) id (configurations p)) (lists p).

Definition ends (token line : string) : bool :=
  match split_at_identation line with Some (_, t) => bool_decide (t = token) | None => false end.

(** [key = value;] behind an indentation. *)
Definition read_assignment (token : string) : option (string * string) :=
  split_once " = " (trim_end_char ";" token).

Definition on_build_setting (n : nat) (line id : string) (p : Sections) : Sections * State :=
  match split_at_identation line with
  | Some (ident, token) =>
      if decide (token = "};") then (p, XCBuildConfigurationObject id)
      else
        match read_assignment token with
        | Some (k, v) =>
            if decide (v = "(") then (p, MultilineValue id (mk_build_settings ident n (trim k) v))
            else (push_setting id (mk_build_settings ident n (trim k) (trim v)) p,
                  XCBuildConfigurationObjectBuildSettings id)
        | None => (p, XCBuildConfigurationObjectBuildSettings id)
        end
  | None => (p, XCBuildConfigurationObjectBuildSettings id)
  end.

Definition on_multiline (line id : string) (s : BuildSettings) (p : Sections) : Sections * State :=
  let s := mk_build_settings (identation s) (line_number s) (key s) (value s +:+ line +:+ nl) in
  if ends ");" line then (push_setting id s p, XCBuildConfigurationObjectBuildSettings id)
  else (p, MultilineValue id s).

Definition on_configuration_list (line : string) (p : Sections) : Sections * State :=
  match split_at_identation line with
  | Some (_, token) =>
      match split_once " " token with
      | Some (id, comment) =>
          (mk_sections (configurations p)
             (<[id := mk_configuration_list (trim_end_str " = {" comment) []]> (lists p)),
           XCConfigurationListObject id)
      | None => (p, InXCConfigurationList)
      end
  | None => (p, InXCConfigurationList)
  end.

Definition on_build_configuration_ref (line id : string) (p : Sections) : Sections * State :=
  let stay := XCConfigurationListObjectBuildConfigurations id in
  match split_at_identation line with
  | Some (_, token) =>
      if decide (token = ");") then (p, XCConfigurationListObject id)
      else
        match split_once " " token with
        | Some (ref, comments) =>
            (mk_sections (configurations p)
               (alter (λ l, mk_configuration_list (list_comment l)
                  (build_configurations l ++ [mk_build_configuration_ref ref (trim_end_char "," comments)])) id (lists p)),
             stay)
        | None => (p, stay)
        end
  | None => (p, stay)
  end.

Definition step (s : Sections * State) (numbered : nat * string) : Sections * State :=
  let '(p, state) := s in
  let '(n, line) := numbered in
  match state with
  | Idle =>
      (p, if decide (line = "/* Begin XCBuildConfiguration section */") then InXCBuildConfiguration
          else if decide (line = "/* Begin XCConfigurationList section */") then InXCConfigurationList
          else Idle)
  | InXCBuildConfiguration =>
      if decide (line = "/* End XCBuildConfiguration section */") then (p, Idle)
      else
        match split_at_identation line with
        | Some (_, token) =>
            let id := of_bytes (take_while (λ c, negb (is_whitespace c)) (bytes token)) in
            (mk_sections (<[id := []]> (configurations p)) (lists p), XCBuildConfigurationObject id)
        | None => (p, InXCBuildConfiguration)
        end
  | XCBuildConfigurationObject id =>
      (p, if Acl.str_contains "buildSettings" line then XCBuildConfigurationObjectBuildSettings id
          else if ends "};" line then InXCBuildConfiguration else XCBuildConfigurationObject id)
  | XCBuildConfigurationObjectBuildSettings id => on_build_setting n line id p
  | MultilineValue id s => on_multiline line id s p
  | InXCConfigurationList =>
      if decide (line = "/* End XCConfigurationList section */") then (p, Idle) else on_configuration_list line p
  | XCConfigurationListObject id =>
      (p, if Acl.str_contains "buildConfigurations" line then XCConfigurationListObjectBuildConfigurations id
          else if ends "};" line then InXCConfigurationList else XCConfigurationListObject id)
  | XCConfigurationListObjectBuildConfigurations id => on_build_configuration_ref line id p
  end.

Definition start : Sections * State := (mk_sections ∅ ∅, Idle).

(** The lines end inside of a value: it is kept as far as it goes. *)
Definition finish (s : Sections * State) : Sections :=
  match s.2 with MultilineValue id setting => push_setting id setting s.1 | _ => s.1 end.

Definition number_lines (n : nat) (lines : list string) : list (nat * string) := zip (seq n (length lines)) lines.

Definition read_lines (lines : list string) : Sections :=
  finish (foldl step start (number_lines 0 lines)).

Definition parse_lines (lines : list string) : Pbxproj :=
  let p := read_lines lines in
  mk_pbxproj lines (configurations p) (lists p) ∅ false.

Definition parse (pbxproj : string) : Pbxproj := parse_lines (split_on newline pbxproj).

(** ** Writing *)
Definition has_changes (p : Pbxproj) : bool := negb (bool_decide (additions p = ∅)) || changed p.

(** The lines with those that were added before them. *)
Definition output_lines (p : Pbxproj) : list string :=
  number_lines 0 (raw_lines p) ≫= λ x,
    (match additions p !! x.1 with Some new => [new] | None => [] end) ++ [x.2].

(** Each line but the last is followed by a newline, and so is an added one. *)
Definition serialize (p : Pbxproj) : string :=
  let last_line_number := length (raw_lines p) - 1 in
  foldl (λ proj x,
    let proj := match additions p !! x.1 with Some new => proj +:+ new +:+ nl | None => proj end in
    proj +:+ x.2 +:+ (if decide (x.1 = last_line_number) then "" else nl)) "" (number_lines 0 (raw_lines p)).

(** ** Build settings *)
Definition get_build_setting (c : XCBuildConfiguration) (k : string) : option BuildSettings :=
  List.find (λ s, bool_decide (key s = k)) c.

Definition setting_line (ident k v : string) : string := ident +:+ k +:+ " = " +:+ v +:+ ";".

Definition set_build_settings (build_configuration_id k v : string) (p : Pbxproj) : Pbxproj :=
  match xc_build_configuration p !! build_configuration_id with
  | None => p
  | Some c =>
      match get_build_setting c k with
      | Some s =>
          if decide (value s = v) then p
          else if decide (line_number s < length (raw_lines p)) then
            mk_pbxproj (<[line_number s := setting_line (identation s) k v]> (raw_lines p))
              (xc_build_configuration p) (xc_configuration_list p) (additions p) true
          else p
      | None =>
          match last c with
          | None => p
          | Some l =>
              mk_pbxproj (raw_lines p)
                (<[build_configuration_id := c ++ [mk_build_settings (identation l) (line_number l + 1) k v]]>
                   (xc_build_configuration p))
                (xc_configuration_list p)
                (<[line_number l + 1 := setting_line (identation l) k v]> (additions p)) (changed p)
          end
      end
  end.

(** ** Signing of an iOS project *)
Record ProjectConfig := mk_project_config {
  code_sign_identity : option string;
  team_id : option string;
  provisioning_profile_uuid : option string;
}.

Inductive PlistValue := PlistString (s : string) | PlistDictionary (d : gmap string PlistValue).

Definition quoted (s : string) : string := dq +:+ s +:+ dq.
Definition for_sdk (k : string) : string := quoted (k +:+ "[sdk=iphoneos*]").

(** [trim_matches] of a quote. *)
Definition unquote (s : string) : string :=
  trim_end_char "034" (of_bytes (drop_while (λ x, bool_decide (x = "034"%char)) (bytes s))).

(** The settings of one configuration, in the order they are set. *)
Definition signing_settings (development_team : option string) (identifier : string) (c : ProjectConfig)
    : list (string * string) :=
  let manual_signing :=
    bool_decide (is_Some (code_sign_identity c)) || bool_decide (is_Some (provisioning_profile_uuid c)) in
  (if manual_signing then [("CODE_SIGN_STYLE", "Manual")] else []) ++
  (match development_team with Some team => [("DEVELOPMENT_TEAM", quoted team)] | None => [] end) ++
  [("PRODUCT_BUNDLE_IDENTIFIER", identifier)] ++
  (match code_sign_identity c with
   | Some i => [("CODE_SIGN_IDENTITY", quoted i); (for_sdk "CODE_SIGN_IDENTITY", quoted i)]
   | None => []
   end) ++
  (match team_id c with
   | Some i => [("DEVELOPMENT_TEAM", quoted i); (for_sdk "DEVELOPMENT_TEAM", quoted i)]
   | None => []
   end) ++
  (match provisioning_profile_uuid c with
   | Some i => [("PROVISIONING_PROFILE_SPECIFIER", quoted i); (for_sdk "PROVISIONING_PROFILE_SPECIFIER", quoted i)]
   | None => []
   end).

(** The first list of the iOS target, in the order of ids. *)
Definition ios_list (p : Pbxproj) : option XCConfigurationList :=
  List.find (λ l, Acl.str_contains "_iOS" (list_comment l)) (btree_values (xc_configuration_list p)).

Definition set_signing (development_team : option string) (identifier : string) (c : ProjectConfig) (p : Pbxproj)
    : Pbxproj :=
  match ios_list p with
  | Some l =>
      foldl (λ p r, foldl (λ p x, set_build_settings (ref_id r) x.1 x.2 p) p
        (signing_settings development_team identifier c)) p (build_configurations l)
  | None => p
  end.

Definition build_configuration_of (debug : bool) (p : Pbxproj) : option XCBuildConfiguration :=
  l ← ios_list p;
  r ← List.find (λ r, Acl.str_contains (if debug then "debug" else "release") (ref_comments r)) (build_configurations l);
  xc_build_configuration p !! ref_id r.

Definition first_setting (c : XCBuildConfiguration) (k : string) : option BuildSettings :=
  match get_build_setting c (for_sdk k) with Some s => Some s | None => get_build_setting c k end.

Definition export_options (app_identifier : string) (c : ProjectConfig) (b : XCBuildConfiguration)
    (plist : gmap string PlistValue) : gmap string PlistValue :=
  let manual_signing :=
    bool_decide (is_Some (code_sign_identity c)) || bool_decide (is_Some (provisioning_profile_uuid c)) in
  let plist := <["signingStyle" := PlistString
    (match get_build_setting b "CODE_SIGN_STYLE" with
     | Some style => AclBuild.to_lowercase (value style)
     | None => "automatic"
     end)]> plist in
  let plist :=
    if manual_signing then
      let plist :=
        match first_setting b "CODE_SIGN_IDENTITY" with
        | Some i => <["signingCertificate" := PlistString (unquote (value i))]> plist
        | None => plist
        end in
      let profile_uuid :=
        match provisioning_profile_uuid c with
        | Some u => Some u
        | None => (λ s, unquote (value s)) <$> first_setting b "PROVISIONING_PROFILE_SPECIFIER"
        end in
      match profile_uuid with
      | Some u => <["provisioningProfiles" := PlistDictionary {[ app_identifier := PlistString u ]}]> plist
      | None => plist
      end
    else plist in
  match first_setting b "DEVELOPMENT_TEAM" with
  | Some i => <["teamID" := PlistString (unquote (value i))]> plist
  | None => plist
  end.

Definition synchronize_project_config (development_team : option string) (identifier app_identifier : string)
    (c : ProjectConfig) (debug : bool) (p : Pbxproj) (plist : gmap string PlistValue)
    : Pbxproj * gmap string PlistValue :=
  let p := set_signing development_team identifier c p in
  (p, match build_configuration_of debug p with
      | Some b => export_options app_identifier c b plist
      | None => plist
      end).

(** ** Lemmas on text *)
Lemma join_cons_ne p x xs : xs ≠ [] → join p (x :: xs) = x +:+ p +:+ join p xs.
Proof. by destruct xs. Qed.

Lemma join_split sep s : join (String sep EmptyString) (split_on sep s) = s.
Proof.
  unfold split_on. rewrite <- (of_bytes_bytes s) at 2. induction (bytes s) as [|c l IH]; [done|]. simpl.
  destruct (split_bytes sep l) as [|x xs] eqn:Hs; [destruct l; simpl in Hs; repeat case_match; done|].
  case_decide as Hc; subst.
  - rewrite fmap_cons, join_cons_ne by done. change (of_bytes []) with "". rewrite IH. done.
  - rewrite !fmap_cons in *. destruct xs; simpl in *; [by rewrite IH|]. by rewrite <- IH.
Qed.

Lemma split_joined sep x l :
  sep ∉ x → (∀ y, y ∈ l → sep ∉ y) →
  split_bytes sep (x ++ (l ≫= λ y, sep :: y)) = x :: l.
Proof.
  intros Hx. revert x Hx. induction l as [|y l IH]; intros x Hx Hl; simpl.
  - rewrite app_nil_r. induction x as [|c x IHx]; [done|]. simpl. rewrite decide_False by set_solver.
    rewrite IHx by set_solver. done.
  - induction x as [|c x IHx]; simpl.
    + rewrite decide_True by done. rewrite IH; [done|apply Hl; left|]. intros z Hz. apply Hl. by right.
    + rewrite decide_False by set_solver. rewrite IHx by set_solver. done.
Qed.

Lemma bytes_join sep x l :
  bytes (join (String sep EmptyString) (x :: l)) = bytes x ++ ((bytes <$> l) ≫= λ y, sep :: y).
Proof.
  revert x. induction l as [|y l IH]; intros x; [simpl; by rewrite app_nil_r|].
  rewrite join_cons_ne by done. rewrite !bytes_append, IH. rewrite fmap_cons. done.
Qed.

Lemma split_join sep x l :
  (∀ y, y ∈ x :: l → sep ∉ bytes y) → split_on sep (join (String sep EmptyString) (x :: l)) = x :: l.
Proof.
  intros H. unfold split_on. rewrite bytes_join, split_joined.
  - rewrite fmap_cons, of_bytes_bytes. f_equal. rewrite <- list_fmap_compose. rewrite <- (list_fmap_id l) at 2.
    apply list_fmap_ext. intros _ y _. simpl. apply of_bytes_bytes.
  - apply H. left.
  - intros y (z & -> & Hz)%list_elem_of_fmap. apply H. by right.
Qed.

Lemma split_on_pieces sep s y : y ∈ split_on sep s → sep ∉ bytes y.
Proof.
  unfold split_on. intros (l & -> & Hl)%list_elem_of_fmap. rewrite bytes_of_bytes.
  by eapply Paths.split_bytes_piece.
Qed.

Lemma split_on_ne sep s : split_on sep s ≠ [].
Proof. unfold split_on. destruct (bytes s); simpl; [done|]. repeat case_match; done. Qed.

(** ** Lemmas on numbered lines *)
Lemma number_lines_cons n x l : number_lines n (x :: l) = (n, x) :: number_lines (S n) l.
Proof. done. Qed.

Lemma number_lines_app n l1 l2 :
  number_lines n (l1 ++ l2) = number_lines n l1 ++ number_lines (n + length l1) l2.
Proof.
  revert n. induction l1 as [|x l1 IH]; intros n; [by rewrite Nat.add_0_r|].
  cbn [app length]. rewrite !number_lines_cons, IH. cbn [app]. by rewrite Nat.add_succ_r.
Qed.

Lemma number_lines_bound n l m x : (m, x) ∈ number_lines n l → n ≤ m < n + length l.
Proof.
  revert n. induction l as [|y l IH]; intros n; [by intros ?%not_elem_of_nil|]. rewrite number_lines_cons.
  intros [[= -> ->]|H]%elem_of_cons; simpl; [lia|]. apply IH in H. lia.
Qed.

(** The text is its output lines with newlines between them. *)
Definition serialize_line (adds : gmap nat string) (last : nat) (proj : string) (x : nat * string) : string :=
  let proj := match adds !! x.1 with Some new => proj +:+ new +:+ nl | None => proj end in
  proj +:+ x.2 +:+ (if decide (x.1 = last) then "" else nl).

Definition output_line (adds : gmap nat string) (x : nat * string) : list string :=
  (match adds !! x.1 with Some new => [new] | None => [] end) ++ [x.2].

Lemma serialize_lines adds last l n acc :
  l ≠ [] → last = n + length l - 1 →
  foldl (serialize_line adds last) acc (number_lines n l) = acc +:+ join nl (number_lines n l ≫= output_line adds).
Proof.
  revert n acc. induction l as [|x l IH]; intros n acc Hne Hlast; [done|]. rewrite number_lines_cons. cbn [foldl].
  change (((n, x) :: number_lines (S n) l) ≫= output_line adds)
    with (output_line adds (n, x) ++ (number_lines (S n) l ≫= output_line adds)).
  assert (∀ rest, rest ≠ [] → join nl (output_line adds (n, x) ++ rest) =
    (match adds !! n with Some new => new +:+ nl | None => "" end) +:+ x +:+ nl +:+ join nl rest) as Hjoin.
  { intros rest Hr. unfold output_line. cbn [fst snd]. destruct (adds !! n); cbn [app]; rewrite ?join_cons_ne by (by destruct rest);
      apply bytes_inj; rewrite ?bytes_append, <- ?app_assoc; done. }
  destruct l as [|y l].
  - simpl. unfold serialize_line, output_line. simpl in *. rewrite decide_True by lia.
    apply bytes_inj. destruct (adds !! n); simpl; rewrite ?bytes_append; simpl; rewrite ?app_nil_r, <- ?app_assoc; done.
  - rewrite IH by (simpl in *; (done || lia)). rewrite Hjoin.
    + unfold serialize_line. simpl in *. rewrite decide_False by lia.
      apply bytes_inj. destruct (adds !! n); rewrite ?bytes_append, <- ?app_assoc; done.
    + rewrite number_lines_cons.
      change (output_line adds (S n, y) ++ (number_lines (S (S n)) l ≫= output_line adds) ≠ []).
      unfold output_line. cbn [fst snd]. by destruct (adds !! S n).
Qed.

Lemma serialize_join p : raw_lines p ≠ [] → serialize p = join nl (output_lines p).
Proof.
  intros Hne. unfold serialize, output_lines.
  apply (serialize_lines (additions p) (length (raw_lines p) - 1) (raw_lines p) 0 ""); [done|lia].
Qed.

Lemma output_lines_unchanged p : additions p = ∅ → output_lines p = raw_lines p.
Proof.
  intros Ha. unfold output_lines. rewrite Ha. generalize 0. induction (raw_lines p) as [|x l IH]; intros n; [done|].
  rewrite number_lines_cons. simpl. rewrite lookup_empty. simpl. f_equal. apply IH.
Qed.

(** ** Reading and writing *)

(** A project that is read and written without changes is the same text. *)
Theorem serialize_parse text : serialize (parse text) = text.
Proof.
  rewrite serialize_join by apply split_on_ne. rewrite output_lines_unchanged by done. apply join_split.
Qed.

(** *** A changed line *)
Lemma drop_while_app p l1 c l2 :
  forallb p l1 = true → p c = false →
  drop_while p (l1 ++ c :: l2) = c :: l2 ∧ take_while p (l1 ++ c :: l2) = l1.
Proof.
  intros H1 Hc. induction l1 as [|x l1 IH]; simpl; [by rewrite Hc|]. cbn [forallb] in H1.
  apply andb_true_iff in H1 as [-> H1]. destruct (IH H1) as [-> ->]. done.
Qed.

Lemma take_while_all p l : forallb p (take_while p l) = true.
Proof. induction l as [|c l IH]; [done|]. simpl. destruct (p c) eqn:Hc; simpl; [by rewrite Hc|done]. Qed.

Lemma drop_while_none p l : forallb (λ c, negb (p c)) l = true → drop_while p l = l.
Proof. destruct l as [|c l]; [done|]. simpl. by destruct (p c). Qed.

(** Keys without white space, and values that are read as they are written. *)
Definition clean_key (k : string) : Prop := k ≠ "" ∧ forallb (λ c, negb (is_whitespace c)) (bytes k) = true.
Definition clean_value (v : string) : Prop :=
  trim v = v ∧ v ≠ "(" ∧ (newline ∉ bytes v) ∧ last (bytes v) ≠ Some ";"%char.
Definition blank (ident : string) : Prop := forallb is_ascii_whitespace (bytes ident) = true.

Lemma clean_key_head k : clean_key k → ∃ c l, bytes k = c :: l ∧ is_ascii_whitespace c = false.
Proof.
  intros [Hne H]. destruct k as [|c k]; [done|]. simpl in *. apply andb_true_iff in H as [H _]. unfold is_whitespace in H.
  exists c, (bytes k). split; [done|]. by destruct (is_ascii_whitespace c).
Qed.

Lemma split_setting_line ident k v :
  blank ident → clean_key k → split_at_identation (setting_line ident k v) = Some (ident, k +:+ " = " +:+ v +:+ ";").
Proof.
  intros Hi Hk. destruct (clean_key_head k Hk) as (c & l & Hl & Hc). unfold split_at_identation, setting_line.
  rewrite !bytes_append, Hl. cbn [app].
  destruct (drop_while_app is_ascii_whitespace (bytes ident) c (l ++ bytes " = " ++ bytes v ++ bytes ";") Hi Hc) as [-> ->].
  rewrite of_bytes_bytes. do 2 f_equal. apply bytes_inj. by rewrite bytes_of_bytes, !bytes_append, Hl.
Qed.

Lemma trim_setting_token k v :
  clean_value v → trim_end_char ";" (k +:+ " = " +:+ v +:+ ";") = k +:+ " = " +:+ v.
Proof.
  intros (_ & _ & _ & Hv). unfold trim_end_char. apply bytes_inj. rewrite bytes_of_bytes, !bytes_append.
  change (bytes ";") with [";"%char]. rewrite !app_assoc, reverse_snoc. cbn [drop_while]. rewrite bool_decide_eq_true_2 by done. rewrite <- app_assoc.
  assert (∃ l z, bytes k ++ bytes " = " ++ bytes v = l ++ [z] ∧ z ≠ ";"%char) as (l & z & -> & Hz).
  { destruct (last (bytes v)) as [z|] eqn:Hl.
    - apply last_Some in Hl as [l ->]. exists (bytes k ++ bytes " = " ++ l), z. rewrite <- !app_assoc. split; [done|].
      congruence.
    - apply last_None in Hl as ->. exists (bytes k ++ bytes " ="), " "%char. rewrite <- app_assoc. by split. }
  rewrite reverse_snoc. simpl. rewrite bool_decide_eq_false_2 by done. rewrite reverse_cons, reverse_involutive. done.
Qed.

Lemma split_once_clean k v : " "%char ∉ bytes k → split_once " = " (k +:+ " = " +:+ v) = Some (k, v).
Proof.
  induction k as [|c k IH]; intros Hk; [exact (split_once_prefix " = " v)|]. rewrite append_cons. cbn [split_once].
  assert (strip_prefix " = " (String c (k +:+ " = " +:+ v)) = None) as ->.
  { simpl. rewrite decide_False; [done|]. intros <-. apply Hk. left. }
  rewrite IH; [done|]. intros H. apply Hk. by right.
Qed.

Lemma clean_key_trim k : clean_key k → trim k = k ∧ " "%char ∉ bytes k.
Proof.
  intros [_ H]. split.
  - unfold trim. rewrite (drop_while_none _ (bytes k)) by done. rewrite drop_while_none; [by rewrite reverse_involutive, of_bytes_bytes|].
    apply forallb_forall. intros c Hc. rewrite forallb_forall in H. apply H. apply list_elem_of_In, elem_of_reverse, list_elem_of_In.
    done.
  - intros Hin. rewrite forallb_forall in H. apply list_elem_of_In in Hin. by apply H in Hin.
Qed.

(** The new line is read back as the setting. *)
Lemma on_setting_line n ident k v id p :
  blank ident → clean_key k → clean_value v →
  on_build_setting n (setting_line ident k v) id p =
  (push_setting id (mk_build_settings ident n k v) p, XCBuildConfigurationObjectBuildSettings id).
Proof.
  intros Hi Hk Hv. unfold on_build_setting, read_assignment. rewrite split_setting_line by done.
  rewrite decide_False.
  2: { intros H. apply (f_equal bytes) in H. rewrite !bytes_append in H. destruct (clean_key_head k Hk) as (c & l & Hl & Hc).
    rewrite Hl in H. simpl in H. injection H as _ H. destruct l as [|d l]; simpl in H; [done|]. injection H as -> H.
    destruct l; done. }
  destruct (clean_key_trim k Hk) as [Hkt Hks]. rewrite trim_setting_token, split_once_clean by done.
  destruct Hv as (Ht & Hp & _). rewrite decide_False by done. by rewrite Hkt, Ht.
Qed.

(** *** Where settings come from *)

(** A setting whose value is on its own line. *)
Definition single (s : BuildSettings) : Prop := (newline ∉ bytes (value s)) ∧ value s ≠ "(".

(** The line of a setting, read in the section of its configuration. *)
Definition read_from (line id : string) (s : BuildSettings) : Prop :=
  ∃ token k v, split_at_identation line = Some (identation s, token) ∧ token ≠ "};" ∧
    read_assignment token = Some (k, v) ∧ v ≠ "(" ∧ key s = trim k ∧ value s = trim v.

Section Lines.
Variable lines : list string.

Definition state_at (k : nat) : Sections * State := foldl step start (take k (number_lines 0 lines)).

Lemma lookup_number_lines i : number_lines 0 lines !! i = pair i <$> lines !! i.
Proof.
  unfold number_lines. rewrite lookup_zip_with. destruct (lines !! i) as [x|] eqn:Hx; simpl.
  - apply lookup_lt_Some in Hx. rewrite lookup_seq_lt by done. done.
  - by destruct (seq 0 (length lines) !! i).
Qed.

Lemma state_at_S k line : lines !! k = Some line → state_at (S k) = step (state_at k) (k, line).
Proof.
  intros Hl. unfold state_at. rewrite (take_S_r _ _ (k, line)); [by rewrite foldl_app|].
  by rewrite lookup_number_lines, Hl.
Qed.

Definition origin (k : nat) (id : string) (s : BuildSettings) : Prop :=
  line_number s < k ∧
  (single s → ∃ line, lines !! line_number s = Some line ∧
    (state_at (line_number s)).2 = XCBuildConfigurationObjectBuildSettings id ∧ read_from line id s).

Definition origins (k : nat) (st : Sections * State) : Prop :=
  (∀ id c s, configurations st.1 !! id = Some c → s ∈ c → origin k id s) ∧
  (∀ id s, st.2 = MultilineValue id s → line_number s < k ∧ ¬ single s).

Lemma origin_mono k id s : origin k id s → origin (S k) id s.
Proof. intros [? ?]. split; [lia|done]. Qed.

Lemma push_origins k id s p :
  (∀ id c s, configurations p !! id = Some c → s ∈ c → origin k id s) → origin (S k) id s →
  ∀ id' c s', configurations (push_setting id s p) !! id' = Some c → s' ∈ c → origin (S k) id' s'.
Proof.
  intros Hp Hs id' c s' Hc Hin. simpl in Hc. destruct (decide (id = id')) as [<-|Hne].
  - rewrite lookup_alter_eq in Hc. destruct (configurations p !! id) as [c'|] eqn:Hc'; [|done]. injection Hc as <-.
    apply elem_of_app in Hin as [Hin| ->%list_elem_of_singleton]; [|done]. by eapply origin_mono, Hp.
  - rewrite lookup_alter_ne in Hc by done. by eapply origin_mono, Hp.
Qed.

Lemma on_setting_origins k line id p :
  lines !! k = Some line → (state_at k).2 = XCBuildConfigurationObjectBuildSettings id →
  (∀ id c s, configurations p !! id = Some c → s ∈ c → origin k id s) →
  origins (S k) (on_build_setting k line id p).
Proof.
  intros Hl Hst Hp. unfold on_build_setting.
  assert (∀ st, (∀ id s, st ≠ MultilineValue id s) → origins (S k) (p, st)) as Hstay.
  { intros st Hne. split; [|intros id' s' Heq; by apply Hne in Heq]. intros. by eapply origin_mono, Hp. }
  destruct (split_at_identation line) as [[ident token]|] eqn:Hs; [|by apply Hstay].
  case_decide as Ht; [by apply Hstay|]. destruct (read_assignment token) as [[k0 v0]|] eqn:Hr; [|by apply Hstay].
  case_decide as Hv.
  - subst v0. split; [intros; by eapply origin_mono, Hp|]. intros id' s' [= _ <-]. simpl. split; [lia|].
    by intros [_ ?].
  - split; [|done]. apply push_origins; [done|]. split; [simpl; lia|]. intros _. simpl. exists line.
    split_and!; [done|done|]. exists token, k0, v0. done.
Qed.

Lemma step_origins k line :
  lines !! k = Some line → origins k (state_at k) → origins (S k) (state_at (S k)).
Proof.
  intros Hl [Hc Hm]. rewrite (state_at_S k line Hl). destruct (state_at k) as [p st] eqn:Hst. simpl in Hc, Hm.
  assert (∀ p' st', configurations p' = configurations p → (∀ id s, st' ≠ MultilineValue id s) → origins (S k) (p', st'))
    as Hstay.
  { intros p' st' Heq Hne. split; [|intros id' s' He; by apply Hne in He]. simpl. rewrite Heq.
    intros. by eapply origin_mono, Hc. }
  destruct st as [| |id|id| |id|id|id s]; simpl.
  - apply Hstay; [done|]. intros. by repeat case_decide.
  - case_decide; [by apply Hstay|]. destruct (split_at_identation line) as [[ident token]|]; [|by apply Hstay].
    split; [|done]. simpl. intros id' c' s' Hl' Hin. apply lookup_insert_Some in Hl' as [[_ <-]|[_ Hl']].
    + by apply not_elem_of_nil in Hin.
    + by eapply origin_mono, Hc.
  - apply Hstay; [done|]. intros. by repeat case_match.
  - apply on_setting_origins; [done|by rewrite Hst|done].
  - case_decide; [by apply Hstay|]. unfold on_configuration_list. repeat case_match; by apply Hstay.
  - apply Hstay; [done|]. intros. by repeat case_match.
  - unfold on_build_configuration_ref. repeat case_match; by apply Hstay.
  - destruct (Hm id s eq_refl) as [Hlt Hns]. unfold on_multiline.
    set (s' := mk_build_settings (identation s) (line_number s) (key s) (value s +:+ line +:+ nl)).
    assert (¬ single s') as Hs'.
    { intros [Hn _]. apply Hn. simpl. rewrite !bytes_append. apply elem_of_app. right. apply elem_of_app. right. left. }
    destruct (ends ");" line).
    + split; [|done]. apply push_origins; [done|]. split; [simpl; lia|done].
    + split; [intros; by eapply origin_mono, Hc|]. intros id' s'' [= _ <-]. simpl. split; [lia|done].
Qed.

Lemma state_origins k : k ≤ length lines → origins k (state_at k).
Proof.
  induction k as [|k IH]; intros Hk.
  - split; simpl; [|done]. intros id c s Hc. by rewrite lookup_empty in Hc.
  - destruct (lookup_lt_is_Some_2 lines k) as [line Hl]; [lia|]. apply (step_origins k line Hl), IH. lia.
Qed.

Lemma read_lines_state : read_lines lines = finish (state_at (length lines)).
Proof.
  unfold read_lines, state_at. rewrite take_ge; [done|]. unfold number_lines. rewrite length_zip_with, length_seq. lia.
Qed.

Lemma settings_origin id c s :
  configurations (read_lines lines) !! id = Some c → s ∈ c → origin (S (length lines)) id s.
Proof.
  rewrite read_lines_state. destruct (state_origins (length lines)) as [Hc Hm]; [done|].
  unfold finish. destruct ((state_at (length lines)).2) as [| | | | | | |id' s'] eqn:Hst;
    try (intros; by eapply origin_mono, Hc).
  apply push_origins; [done|]. destruct (Hm id' s' eq_refl). split; [lia|done].
Qed.

End Lines.

(** *** Changing a setting *)
Definition set_value (i : nat) (v : string) (s : BuildSettings) : BuildSettings :=
  if decide (line_number s = i) then mk_build_settings (identation s) i (key s) v else s.

Definition update_line (i : nat) (v : string) (c : XCBuildConfiguration) : XCBuildConfiguration := set_value i v <$> c.

Definition update_sections (i : nat) (v : string) (p : Sections) : Sections :=
  mk_sections (update_line i v <$> configurations p) (lists p).

Lemma update_push i v id s p :
  update_sections i v (push_setting id s p) = push_setting id (set_value i v s) (update_sections i v p).
Proof.
  unfold update_sections, push_setting. simpl. f_equal. apply map_eq. intros k. rewrite lookup_fmap.
  destruct (decide (id = k)) as [<-|Hne].
  - rewrite !lookup_alter_eq, lookup_fmap. destruct (configurations p !! id) as [c|]; simpl; [|done].
    unfold update_line. by rewrite fmap_app.
  - rewrite !lookup_alter_ne, lookup_fmap by done. done.
Qed.

(** A state that waits for no more of line [i]. *)
Definition past (i : nat) (st : State) : Prop := ∀ id s, st = MultilineValue id s → line_number s ≠ i.

Lemma step_update i v p st n line :
  n ≠ i → past i st →
  step (update_sections i v p, st) (n, line) =
    (update_sections i v (step (p, st) (n, line)).1, (step (p, st) (n, line)).2) ∧
  past i (step (p, st) (n, line)).2.
Proof.
  intros Hn Hp. destruct st as [| |id|id| |id|id|id s]; simpl.
  - split; [done|]. intros id s. by repeat case_decide.
  - case_decide; [done|]. destruct (split_at_identation line) as [[ident token]|]; [|done]. split; [|done].
    unfold update_sections. simpl. by rewrite fmap_insert.
  - split; [done|]. intros id' s. by repeat case_match.
  - unfold on_build_setting. destruct (split_at_identation line) as [[ident token]|]; [|done]. case_decide; [done|].
    destruct (read_assignment token) as [[k0 v0]|]; [|done]. case_decide.
    + split; [done|]. by intros id' s' [= _ <-].
    + split; [|done]. simpl. rewrite update_push. unfold set_value. simpl. by rewrite decide_False.
  - case_decide; [done|]. unfold on_configuration_list. repeat case_match; done.
  - split; [done|]. intros id' s. by repeat case_match.
  - unfold on_build_configuration_ref. repeat case_match; done.
  - assert (line_number s ≠ i) as Hs by by eapply Hp. unfold on_multiline. destruct (ends ");" line); simpl.
    + split; [|done]. rewrite update_push. unfold set_value. simpl. by rewrite decide_False.
    + split; [done|]. by intros id' s' [= _ <-].
Qed.

Lemma run_update i v l : (∀ x, x ∈ l → x.1 ≠ i) → ∀ p st, past i st →
  finish (foldl step (update_sections i v p, st) l) = update_sections i v (finish (foldl step (p, st) l)).
Proof.
  induction l as [|[n line] l IH]; intros Hl p st Hp.
  - unfold finish. simpl. destruct st as [| | | | | | |id s]; try done. rewrite update_push. unfold set_value.
    rewrite decide_False; [done|]. by eapply Hp.
  - cbn [foldl]. destruct (step_update i v p st n line) as [-> Hp']; [by apply (Hl (n, line)); left|done|].
    destruct (step (p, st) (n, line)) as [p' st'] eqn:Hst. cbn [fst snd]. apply IH; [|done].
    intros x Hx. apply Hl. by right.
Qed.

Lemma update_fresh i v p :
  (∀ id c s, configurations p !! id = Some c → s ∈ c → line_number s < i) → update_sections i v p = p.
Proof.
  intros H. unfold update_sections. destruct p as [cs ls]. simpl in *. f_equal. apply map_eq. intros id.
  rewrite lookup_fmap. destruct (cs !! id) as [c|] eqn:Hc; simpl; [|done]. f_equal. unfold update_line.
  rewrite <- (list_fmap_id c) at 2. apply Forall_fmap_ext_1, Forall_forall. intros s Hs.
  unfold set_value. rewrite decide_False; [done|]. specialize (H id c s Hc Hs). lia.
Qed.

Lemma number_lines_take lines i :
  i ≤ length lines → take i (number_lines 0 lines) = number_lines 0 (take i lines).
Proof.
  intros Hi. rewrite <- (take_drop i lines) at 1. rewrite number_lines_app, take_app_length'; [done|].
  unfold number_lines. rewrite length_zip_with, length_seq, length_take. lia.
Qed.

Lemma number_lines_split lines i line :
  lines !! i = Some line →
  number_lines 0 lines = take i (number_lines 0 lines) ++ (i, line) :: number_lines (S i) (drop (S i) lines).
Proof.
  intros Hl. apply lookup_lt_Some in Hl as Hlt. rewrite number_lines_take by lia.
  rewrite <- (take_drop_middle lines i line Hl) at 1. rewrite number_lines_app, length_take, Nat.min_l by lia. done.
Qed.

(** Reading the lines with one setting changed. *)
Lemma read_lines_insert lines id s k v line :
  lines !! line_number s = Some line → (state_at lines (line_number s)).2 = XCBuildConfigurationObjectBuildSettings id →
  read_from line id s → key s = k → blank (identation s) → clean_key k → clean_value v →
  read_lines (<[line_number s := setting_line (identation s) k v]> lines) =
  update_sections (line_number s) v (read_lines lines).
Proof.
  set (i := line_number s). intros Hl Hst (token & k0 & v0 & Hsplit & Htok & Hread & Hv0 & Hk0 & Hval) Hk Hb Hck Hcv.
  unfold read_lines. set (new := setting_line (identation s) k v).
  assert (<[i := new]> lines !! i = Some new) as Hnew by (apply list_lookup_insert_eq; by eapply lookup_lt_Some).
  rewrite (number_lines_split _ i new Hnew), (number_lines_split _ i line Hl).
  assert (take i (number_lines 0 (<[i := new]> lines)) = take i (number_lines 0 lines)) as ->.
  { apply lookup_lt_Some in Hl. rewrite !number_lines_take by (rewrite ?length_insert; lia). by rewrite take_insert_ge. }
  rewrite drop_insert_lt by lia. rewrite !foldl_app. cbn [foldl].
  fold (state_at lines i). destruct (state_at lines i) as [p st] eqn:Hpst. simpl in Hst. subst st. cbn [step].
  assert (on_build_setting i line id p =
    (push_setting id (mk_build_settings (identation s) i k (value s)) p, XCBuildConfigurationObjectBuildSettings id)) as ->.
  { unfold on_build_setting. rewrite Hsplit, decide_False, Hread, decide_False by done. by rewrite <- Hk0, <- Hval, Hk. }
  unfold new. rewrite on_setting_line by done. rewrite <- run_update.
  - f_equal. f_equal. f_equal. rewrite update_push. unfold set_value. simpl. rewrite decide_True by done. f_equal.
    symmetry. apply update_fresh. intros id' c' s' Hc' Hs'.
    destruct (state_origins lines i) as [Ho _]; [apply lookup_lt_Some in Hl; lia|]. rewrite Hpst in Ho.
    by destruct (Ho id' c' s' Hc' Hs').
  - intros [n x] Hx%number_lines_bound. simpl. lia.
  - done.
Qed.

Lemma identation_blank line id s :
  read_from line id s → newline ∉ bytes line → blank (identation s) ∧ newline ∉ bytes (identation s).
Proof.
  intros (token & ? & ? & Hsp & _) Hline. unfold split_at_identation in Hsp. destruct (drop_while _ _); [done|].
  injection Hsp as Hi _.
  assert (bytes (identation s) = take_while is_ascii_whitespace (bytes line)) as Hbi by (by rewrite <- Hi, bytes_of_bytes).
  unfold blank. rewrite Hbi. split; [apply take_while_all|]. intros H. apply Hline. clear -H.
  induction (bytes line) as [|x l IH]; simpl in H; [by apply not_elem_of_nil in H|].
  destruct (is_ascii_whitespace x); [|by apply not_elem_of_nil in H]. apply elem_of_cons in H as [->|H]; [left|right; auto].
Qed.

Lemma setting_line_newline ident k v :
  newline ∉ bytes ident → clean_key k → clean_value v → newline ∉ bytes (setting_line ident k v).
Proof.
  intros Hi [_ Hk] (_ & _ & Hv & _). unfold setting_line. rewrite !bytes_append, !not_elem_of_app.
  split_and!; [done| |by vm_compute; set_solver|done|by vm_compute; set_solver].
  intros Hin. rewrite forallb_forall in Hk. apply list_elem_of_In, Hk in Hin. done.
Qed.

(** Setting a build setting that is there changes the one line of the setting,
    and the project that is written is read back with the new value there and
    everything else as it was. *)
Theorem set_build_setting_reparsed text id c s k v :
  xc_build_configuration (parse text) !! id = Some c → get_build_setting c k = Some s → single s → value s ≠ v →
  clean_key k → clean_value v →
  let p := parse (serialize (set_build_settings id k v (parse text))) in
  raw_lines p = <[line_number s := setting_line (identation s) k v]> (raw_lines (parse text)) ∧
  xc_build_configuration p = update_line (line_number s) v <$> xc_build_configuration (parse text) ∧
  xc_configuration_list p = xc_configuration_list (parse text).
Proof.
  intros Hc Hs Hsingle Hne Hck Hcv. set (lines := raw_lines (parse text)).
  apply List.find_some in Hs as Hfound. destruct Hfound as [Hin Hk]. apply list_elem_of_In in Hin.
  apply bool_decide_eq_true in Hk.
  destruct (settings_origin lines id c s Hc Hin) as [_ Ho]. destruct (Ho Hsingle) as (line & Hl & Hst & Hread).
  assert (line_number s < length lines) as Hlt by by eapply lookup_lt_Some.
  unfold set_build_settings. rewrite Hc, Hs, decide_False by done. fold lines. rewrite decide_True by done.
  set (lines' := <[line_number s := setting_line (identation s) k v]> lines).
  rewrite serialize_join; [|simpl; intros H; apply (f_equal length) in H; unfold lines' in H; rewrite length_insert in H; simpl in H; lia].
  rewrite output_lines_unchanged by done. cbn [raw_lines].
  destruct (identation_blank line id s Hread) as [Hb Hnl].
  { apply (split_on_pieces newline text). by eapply list_elem_of_lookup_2. }
  assert (split_on newline (join nl lines') = lines') as Hsplit.
  { destruct lines' as [|x l] eqn:Hx; [apply (f_equal length) in Hx; unfold lines' in Hx; rewrite length_insert in Hx; simpl in Hx; lia|].
    apply split_join. intros y Hy. rewrite <- Hx in Hy. apply list_elem_of_lookup in Hy as [j Hj].
    apply list_lookup_insert_Some in Hj as [(_ & <- & _)|[_ Hj]].
    - by apply setting_line_newline.
    - apply (split_on_pieces newline text). by eapply list_elem_of_lookup_2. }
  unfold parse. rewrite Hsplit. unfold parse_lines. cbn [raw_lines xc_build_configuration xc_configuration_list].
  unfold lines'. rewrite (read_lines_insert lines id s k v line) by done. done.
Qed.

(** *** Adding a setting *)

(** A setting without the number of its line. *)
Definition unnumbered (s : BuildSettings) : string * string * string := (identation s, key s, value s).
Abbreviation view c := (unnumbered <$> c).

Definition state_view (st : State) : State :=
  match st with
  | MultilineValue id s => MultilineValue id (mk_build_settings (identation s) 0 (key s) (value s))
  | _ => st
  end.

Section Addition.
Variables (i : nat) (id : string) (before : XCBuildConfiguration) (x : string * string * string).

(** The original run [p] after line [i], and the run [p'] with a setting more. *)
Definition with_addition (p p' : Sections) : Prop :=
  lists p' = lists p ∧
  (∀ id', id' ≠ id → fmap unnumbered <$> configurations p' !! id' = fmap unnumbered <$> configurations p !! id') ∧
  ∃ c c', configurations p !! id = Some c ∧ configurations p' !! id = Some c' ∧
    ((∃ after, c = before ++ after ∧ view c' = view before ++ x :: view after ∧ Forall (λ s, i < line_number s) after) ∨
     (view c' = view c ∧ Forall (λ s, i < line_number s) c)).

Definition same_state (st st' : State) : Prop :=
  state_view st' = state_view st ∧ ∀ id s, st = MultilineValue id s → i < line_number s.

Lemma push_addition id' s s' p p' :
  with_addition p p' → unnumbered s' = unnumbered s → i < line_number s →
  with_addition (push_setting id' s p) (push_setting id' s' p').
Proof.
  intros (Hl & Ho & c & c' & Hc & Hc' & Hcase) Hs Hi. split_and!; [done| |].
  - intros k Hk. simpl. destruct (decide (id' = k)) as [->|Hne].
    + specialize (Ho k Hk). rewrite !lookup_alter_eq.
      destruct (configurations p' !! k), (configurations p !! k); simpl in *; try done. injection Ho as Ho.
      by rewrite !fmap_app, Ho, !fmap_cons, Hs.
    + rewrite !lookup_alter_ne by done. by apply Ho.
  - simpl. destruct (decide (id' = id)) as [->|Hne].
    + rewrite !lookup_alter_eq, Hc, Hc'. simpl. exists (c ++ [s]), (c' ++ [s']). split_and!; [done|done|].
      destruct Hcase as [(after & -> & Hv & Hf)|[Hv Hf]]; [left|right].
      * exists (after ++ [s]). rewrite <- app_assoc. split_and!; [done| |apply Forall_app; by split; [|apply Forall_singleton]].
        by rewrite fmap_app, Hv, !fmap_app, !fmap_cons, Hs, <- app_assoc.
      * rewrite !fmap_app, Hv, !fmap_cons, Hs. split; [done|]. apply Forall_app. by split; [|apply Forall_singleton].
    + rewrite !lookup_alter_ne by done. exists c, c'. done.
Qed.

Lemma reset_addition id' p p' :
  with_addition p p' →
  with_addition (mk_sections (<[id' := []]> (configurations p)) (lists p))
    (mk_sections (<[id' := []]> (configurations p')) (lists p')).
Proof.
  intros (Hl & Ho & c & c' & Hc & Hc' & Hcase). split_and!; [done| |]; simpl.
  - intros k Hk. destruct (decide (id' = k)) as [->|Hne]; [by rewrite !lookup_insert_eq|].
    rewrite !lookup_insert_ne by done. by apply Ho.
  - destruct (decide (id' = id)) as [->|Hne].
    + rewrite !lookup_insert_eq. exists [], []. split_and!; [done|done|]. right. split; [done|constructor].
    + rewrite !lookup_insert_ne by done. exists c, c'. done.
Qed.

Lemma list_addition f p p' :
  with_addition p p' → with_addition (mk_sections (configurations p) (f (lists p))) (mk_sections (configurations p') (f (lists p'))).
Proof. intros (Hl & H). split; [by simpl; rewrite Hl|done]. Qed.

Lemma step_addition n n' line p p' st st' :
  i < n → with_addition p p' → same_state st st' →
  let r := step (p, st) (n, line) in
  let r' := step (p', st') (n', line) in
  with_addition r.1 r'.1 ∧ same_state r.2 r'.2.
Proof.
  intros Hn Hp [Hst Hm]. assert (∀ st, (∀ id s, st ≠ MultilineValue id s) → same_state st st) as Hsame.
  { intros st0 H0. split; [done|]. intros id0 s0 He. by apply H0 in He. }
  destruct st as [| |id0|id0| |id0|id0|id0 s0]; destruct st' as [| |id1|id1| |id1|id1|id1 s1]; try done;
    simpl in Hst; simplify_eq; cbn [step].
  - split; [done|]. apply Hsame. intros. by repeat case_decide.
  - case_decide; [by split; [|apply Hsame]|].
    destruct (split_at_identation line) as [[ident token]|]; [|by split; [|apply Hsame]].
    split; [by apply reset_addition|by apply Hsame].
  - split; [done|]. apply Hsame. intros. by repeat case_match.
  - unfold on_build_setting. destruct (split_at_identation line) as [[ident token]|]; [|by split; [|apply Hsame]].
    case_decide; [by split; [|apply Hsame]|]. destruct (read_assignment token) as [[k0 v0]|]; [|by split; [|apply Hsame]].
    case_decide; simpl; [split; [done|]; split; [done|by intros ? ? [= _ <-]]|]. split; [by apply push_addition|by apply Hsame].
  - case_decide; [by split; [|apply Hsame]|]. unfold on_configuration_list.
    repeat case_match; (split; [first [done|by apply (list_addition (λ l, <[_ := _]> l))]|by apply Hsame]).
  - split; [done|]. apply Hsame. intros. by repeat case_match.
  - unfold on_build_configuration_ref.
    repeat case_match; (split; [first [done|by apply (list_addition (alter _ _))]|by apply Hsame]).
  - specialize (Hm _ _ eq_refl). destruct s0 as [a0 b0 c0 d0], s1 as [a1 b1 c1 d1]. simpl in *. simplify_eq.
    unfold on_multiline. simpl. destruct (ends ");" line); simpl.
    + split; [by apply push_addition|by apply Hsame].
    + split; [done|]. split; [done|]. by intros ? ? [= _ <-].
Qed.

Lemma run_addition l : ∀ n n' p p' st st',
  i < n → with_addition p p' → same_state st st' →
  with_addition (finish (foldl step (p, st) (number_lines n l))) (finish (foldl step (p', st') (number_lines n' l))).
Proof.
  induction l as [|line l IH]; intros n n' p p' st st' Hn Hp Hst.
  - destruct Hst as [Hst Hm]. unfold finish. simpl. destruct st, st'; simpl in Hst; simplify_eq; try done.
    specialize (Hm _ _ eq_refl). apply push_addition; [done| |done].
    destruct setting, setting0. simpl in *. by simplify_eq.
  - rewrite !number_lines_cons. cbn [foldl].
    destruct (step_addition n n' line p p' st st' Hn Hp Hst) as [Hp' Hst'].
    destruct (step (p, st) (n, line)), (step (p', st') (n', line)). apply IH; [lia|done|done].
Qed.

End Addition.

(** The configuration or list a state is in has been inserted, so that the
    [unwrap]s of the loop find it. *)
Definition present (st : Sections * State) : Prop :=
  match st.2 with
  | XCBuildConfigurationObject id | XCBuildConfigurationObjectBuildSettings id | MultilineValue id _ =>
      is_Some (configurations st.1 !! id)
  | XCConfigurationListObject id | XCConfigurationListObjectBuildConfigurations id => is_Some (lists st.1 !! id)
  | _ => True
  end.

Lemma step_present st x : present st → present (step st x).
Proof.
  destruct st as [p st], x as [n line]. unfold present.
  assert (∀ id s, is_Some (configurations p !! id) → is_Some (configurations (push_setting id s p) !! id)) as Hpush.
  { intros id s [c Hc]. simpl. rewrite lookup_alter_eq, Hc. simpl. eauto. }
  intros H. destruct st as [| |id|id| |id|id|id s]; cbn [step fst snd] in *.
  - by repeat case_decide.
  - case_decide; [done|]. destruct (split_at_identation line) as [[? ?]|]; simpl; [rewrite lookup_insert_eq; eauto|done].
  - destruct (Acl.str_contains "buildSettings" line), (ends "};" line); done.
  - unfold on_build_setting. destruct (split_at_identation line) as [[? token]|]; [|done]. case_decide; [done|].
    destruct (read_assignment token) as [[? ?]|]; [|done]. case_decide; [done|]. by apply Hpush.
  - case_decide; [done|]. unfold on_configuration_list. destruct (split_at_identation line) as [[? token]|]; [|done].
    destruct (split_once " " token) as [[? ?]|]; [|done]. simpl. rewrite lookup_insert_eq. eauto.
  - destruct (Acl.str_contains "buildConfigurations" line), (ends "};" line); done.
  - unfold on_build_configuration_ref. destruct (split_at_identation line) as [[? token]|]; [|done]. case_decide; [done|].
    destruct (split_once " " token) as [[? ?]|]; [|done]. simpl. rewrite lookup_alter_eq. destruct H as [l ->]. simpl. eauto.
  - unfold on_multiline. destruct (ends ");" line); [by apply Hpush|done].
Qed.

Lemma run_present l st : present st → present (foldl step st l).
Proof. revert st. induction l as [|x l IH]; intros st H; [done|]. cbn [foldl]. by apply IH, step_present. Qed.

Lemma output_lines_add p j new :
  additions p = {[ j := new ]} → j < length (raw_lines p) →
  output_lines p = take j (raw_lines p) ++ new :: drop j (raw_lines p).
Proof.
  intros Ha Hj. unfold output_lines. rewrite Ha.
  assert (∀ l n, (∀ m, n ≤ m → m < n + length l → m ≠ j) →
    (number_lines n l ≫= λ x, (match ({[ j := new ]} : gmap nat string) !! x.1 with Some new => [new] | None => [] end) ++ [x.2]) = l)
    as Hno.
  { induction l as [|y l IH]; intros n Hn; [done|]. rewrite number_lines_cons. simpl.
    rewrite lookup_singleton_ne by (apply not_eq_sym, Hn; simpl; lia). simpl. f_equal. apply IH. intros m H1 H2.
    apply Hn; simpl in *; lia. }
  destruct (lookup_lt_is_Some_2 (raw_lines p) j Hj) as [y Hy].
  rewrite (number_lines_split _ j y Hy), number_lines_take by lia.
  rewrite (drop_S (raw_lines p) y j Hy), bind_app. rewrite Hno; [|intros m _; rewrite length_take; lia].
  f_equal. simpl. rewrite lookup_singleton_eq. simpl. f_equal. f_equal.
  apply (Hno (drop (S j) (raw_lines p)) (S j)). intros; lia.
Qed.

Lemma parse_join ls :
  ls ≠ [] → (∀ y, y ∈ ls → newline ∉ bytes y) → parse (join nl ls) = parse_lines ls.
Proof. destruct ls as [|x l]; [done|]. intros _ H. unfold parse. by rewrite split_join. Qed.

(** Reading the lines with a new one behind a setting. *)
Lemma read_lines_add lines id s k v line :
  let i := line_number s in
  lines !! i = Some line → (state_at lines i).2 = XCBuildConfigurationObjectBuildSettings id → read_from line id s →
  blank (identation s) → clean_key k → clean_value v →
  ∃ before, last before = Some s ∧
    with_addition i id before (identation s, k, v) (read_lines lines)
      (read_lines (take (S i) lines ++ setting_line (identation s) k v :: drop (S i) lines)).
Proof.
  intros i Hl Hst (token & k0 & v0 & Hsplit & Htok & Hread & Hv0 & Hk0 & Hval) Hb Hck Hcv.
  apply lookup_lt_Some in Hl as Hlt. assert (present (state_at lines i)) as Hpres by (by apply run_present).
  pose proof (state_at_S lines i line Hl) as HS. destruct (state_at lines i) as [p st] eqn:Hpst. simpl in Hst. subst st.
  destruct Hpres as [c Hc]. cbn [step fst] in *.
  assert (on_build_setting i line id p = (push_setting id s p, XCBuildConfigurationObjectBuildSettings id)) as Hon.
  { unfold on_build_setting. rewrite Hsplit, decide_False, Hread, decide_False by done. rewrite <- Hk0, <- Hval.
    by destruct s. }
  rewrite Hon in HS. exists (c ++ [s]). split; [by rewrite last_snoc|].
  unfold read_lines. rewrite number_lines_app. rewrite <- (take_drop (S i) lines) at 1. rewrite number_lines_app.
  rewrite length_take, Nat.min_l by lia. rewrite number_lines_cons, !foldl_app. cbn [foldl].
  rewrite <- (number_lines_take lines (S i)) by lia. fold (state_at lines (S i)). rewrite HS. cbn [step].
  rewrite on_setting_line by done. simpl (0 + S i). apply run_addition; [lia| |done].
  split_and!; [done| |].
  - intros id' Hid. simpl. by rewrite !lookup_alter_ne.
  - simpl. rewrite !lookup_alter_eq, Hc. simpl. do 2 eexists. split_and!; [done|done|]. left. exists [].
    rewrite app_nil_r. split_and!; [done|by rewrite fmap_app|constructor].
Qed.

(** C33. A setting that is added to a project as it was read, when the
    configuration has none of its key, stands behind the last one, when the
    value of that one is on its line, the key has no space in it and the value
    is on one line with none around it: reading the written project gives the configurations as before, with
    the new setting at the end of the one it was added to.
    [addition_inside_value] and [second_addition_outside] show a value of
    several lines and a second addition. *)
Theorem add_build_setting_reparsed text id c l k v :
  xc_build_configuration (parse text) !! id = Some c → get_build_setting c k = None → last c = Some l → single l →
  line_number l + 1 < length (raw_lines (parse text)) → clean_key k → clean_value v →
  let p := parse (serialize (set_build_settings id k v (parse text))) in
  xc_configuration_list p = xc_configuration_list (parse text) ∧
  ∀ id', fmap (M := list) unnumbered <$> xc_build_configuration p !! id' =
    if decide (id' = id) then Some (view c ++ [(identation l, k, v)])
    else fmap (M := list) unnumbered <$> xc_build_configuration (parse text) !! id'.
Proof.
  intros Hc Hk Hlast Hsingle Hlt Hck Hcv. set (lines := raw_lines (parse text)) in *. set (i := line_number l) in *.
  apply last_Some in Hlast as [c0 Hc0].
  destruct (settings_origin lines id c l Hc) as [_ Ho]; [rewrite Hc0; set_solver|].
  destruct (Ho Hsingle) as (line & Hl & Hst & Hread). fold i in Hl, Hst.
  assert (∀ y, y ∈ lines → newline ∉ bytes y) as Hnl by (intros y; apply split_on_pieces).
  destruct (identation_blank line id l Hread) as [Hb Hinl]; [apply Hnl; by eapply list_elem_of_lookup_2|].
  set (new := setting_line (identation l) k v).
  set (lines' := take (S i) lines ++ new :: drop (S i) lines).
  assert (serialize (set_build_settings id k v (parse text)) = join nl lines') as ->.
  { unfold set_build_settings. rewrite Hc, Hk, Hc0, last_snoc. rewrite serialize_join by (simpl; apply split_on_ne).
    f_equal. rewrite (output_lines_add _ (i + 1) new); [|done|done]. cbn [raw_lines]. by rewrite Nat.add_1_r. }
  rewrite parse_join.
  2: { unfold lines'. intros [_ ?]%app_nil. done. }
  2: { intros y [Hy|[->|Hy]%elem_of_cons]%elem_of_app; [|by apply setting_line_newline|]; apply Hnl;
         rewrite <- (take_drop (S i) lines); apply elem_of_app; auto. }
  destruct (read_lines_add lines id l k v line Hl Hst Hread Hb Hck Hcv) as (before & Hbefore & Hlists & Hothers & c1 & c1' & Hc1 & Hc1' & Hcase).
  assert (c1 = c) as -> by (change (configurations (read_lines lines) !! id = Some c) in Hc; congruence).
  split; [done|]. intros id'. cbn [parse_lines xc_build_configuration]. case_decide as Hid; [subst id'|by apply Hothers].
  change (configurations (read_lines lines') !! id = Some c1') in Hc1'. rewrite Hc1'. simpl. f_equal.
  destruct Hcase as [(after & Hafter & Hv & Hf)|[_ Hf]].
  - rewrite Hv, Hafter. destruct after as [|s after _] using rev_ind; [by rewrite !app_nil_r|]. exfalso.
    rewrite Hc0, app_assoc in Hafter. apply app_inj_tail in Hafter as [_ <-]. apply Forall_app in Hf as [_ Hf].
    apply Forall_cons in Hf as [Hf _]. exact (Nat.lt_irrefl _ Hf).
  - exfalso. rewrite Hc0 in Hf. apply Forall_app in Hf as [_ Hf]. apply Forall_cons in Hf as [Hf _].
    exact (Nat.lt_irrefl _ Hf).
Qed.

(** ** Examples *)
Definition ex_project (settings : list string) : list string :=
  ["/* Begin XCBuildConfiguration section */";
   "  AAA /* release */ = {";
   "    buildSettings = {"] ++ settings ++
  ["    };";
   "  };";
   "/* End XCBuildConfiguration section */";
   "/* Begin XCConfigurationList section */";
   "  LLL /* list for app_iOS */ = {";
   "    buildConfigurations = (";
   "      AAA /* release */,";
   "    );";
   "  };";
   "/* End XCConfigurationList section */"].

Definition ex_text : string := join nl (ex_project ["      NAME = old;"]).

Lemma set_build_setting_reparsed_witness :
  get_build_setting
    (default [] (xc_build_configuration (parse (serialize (set_build_settings "AAA" "NAME" "new" (parse ex_text)))) !! "AAA"))
    "NAME" = Some (mk_build_settings "      " 3 "NAME" "new").
Proof.
  destruct (set_build_setting_reparsed ex_text "AAA" [mk_build_settings "      " 3 "NAME" "old"]
    (mk_build_settings "      " 3 "NAME" "old") "NAME" "new") as (_ & H & _);
    [vm_compute; reflexivity|vm_compute; reflexivity| |discriminate| | |].
  - split; [|discriminate]. refine (bool_decide_unpack _ _). vm_compute. exact I.
  - split; [discriminate|reflexivity].
  - split_and!; [reflexivity|discriminate| |discriminate].
    refine (bool_decide_unpack _ _). vm_compute. exact I.
  - rewrite H. vm_compute. reflexivity.
Defined.

Lemma add_build_setting_reparsed_witness :
  fmap (M := list) unnumbered <$>
    xc_build_configuration (parse (serialize (set_build_settings "AAA" "TEAM" "x" (parse ex_text)))) !! "AAA" =
  Some [("      ", "NAME", "old"); ("      ", "TEAM", "x")].
Proof.
  destruct (add_build_setting_reparsed ex_text "AAA" [mk_build_settings "      " 3 "NAME" "old"]
    (mk_build_settings "      " 3 "NAME" "old") "TEAM" "x") as [_ H];
    [vm_compute; reflexivity|vm_compute; reflexivity|reflexivity| |vm_compute; lia| | |].
  - split; [|discriminate]. refine (bool_decide_unpack _ _). vm_compute. exact I.
  - split; [discriminate|reflexivity].
  - split_and!; [reflexivity|discriminate| |discriminate].
    refine (bool_decide_unpack _ _). vm_compute. exact I.
  - rewrite (H "AAA"). reflexivity.
Defined.

(** The second setting that is added to a configuration is written behind the
    brace that closes its settings. *)
Theorem second_addition_outside :
  take 7 (output_lines (set_build_settings "AAA" "B" "2" (set_build_settings "AAA" "A" "1" (parse ex_text)))) =
  take 3 (ex_project []) ++
  ["      NAME = old;"; "      A = 1;"; "    };"; "      B = 2;"].
Proof. vm_compute. reflexivity. Qed.

(** A setting that was added and is set again replaces that brace. *)
Theorem added_setting_set_again :
  take 6 (output_lines (set_build_settings "AAA" "A" "2" (set_build_settings "AAA" "A" "1" (parse ex_text)))) =
  take 3 (ex_project []) ++ ["      NAME = old;"; "      A = 1;"; "      A = 2;"].
Proof. vm_compute. reflexivity. Qed.

(** A setting cannot be set back: the value that is compared is the one that was
    read. *)
Theorem setting_not_restored :
  let p := set_build_settings "AAA" "NAME" "old" (set_build_settings "AAA" "NAME" "new" (parse ex_text)) in
  get_build_setting (default [] (xc_build_configuration (parse (serialize p)) !! "AAA")) "NAME" =
  Some (mk_build_settings "      " 3 "NAME" "new").
Proof. vm_compute. reflexivity. Qed.

(** A setting that is added behind a value in parentheses is written into it. *)
Theorem addition_inside_value :
  output_lines (set_build_settings "AAA" "A" "1" (parse (join nl (ex_project ["      ARCHS = ("; "        arm64,"; "      );"])))) =
  ex_project ["      ARCHS = ("; "      A = 1;"; "        arm64,"; "      );"].
Proof. vm_compute. reflexivity. Qed.

(** The options of the export name the identity that was in the project before
    it was changed. *)
Theorem export_options_stale :
  let text := join nl (ex_project [setting_line "      " (for_sdk "CODE_SIGN_IDENTITY") "old"]) in
  let c := mk_project_config (Some "new") None None in
  let r := synchronize_project_config None "id" "id" c false (parse text) ∅ in
  raw_lines r.1 !! 3 = Some (setting_line "      " (for_sdk "CODE_SIGN_IDENTITY") (quoted "new")) ∧
  r.2 !! "signingCertificate" = Some (PlistString "old").
Proof. vm_compute. split; reflexivity. Qed.

End Pbxproj.
