(* ===== verification/JsonObject.v ===== *)
(** * Objects of JSON

    The operations of [serde_json::Map] that the command line uses, with the
    feature [preserve_order] of its manifest: entries keep the order in which they
    were inserted, and [remove] moves the last one into the gap. The lemmas say
    what a step leaves unchanged ([same_but]); the tactics compose them and tell
    the names of keys apart by computation. *)
From S2P Require Import Prelude Acl Values ConfigFiles.
Import Acl Values.

Module JsonObject.
Section Object.
Context {SL : SerdeLib}.

(** ** Operations *)
Abbreviation Object := (list (string * json)).

Definition get (k : string) (m : Object) : option json := ConfigFiles.get k m.

(** A new key goes to the end, an existing one keeps its place. *)
Fixpoint insert (k : string) (v : json) (m : Object) : Object :=
  match m with
  | [] => [(k, v)]
  | (k', v') :: m => if decide (k' = k) then (k, v) :: m else (k', v') :: insert k v m
  end.

(** The last entry takes the place of the one that is removed. *)
Fixpoint swap_remove (k : string) (m : Object) : Object :=
  match m with
  | [] => []
  | (k', v') :: m =>
      if decide (k' = k) then match last m with Some x => x :: removelast m | None => [] end
      else (k', v') :: swap_remove k m
  end.

Definition remove (k : string) (m : Object) : option json * Object := (get k m, swap_remove k m).

Definition contains_key (k : string) (m : Object) : bool := bool_decide (is_Some (get k m)).

Definition as_bool (v : json) : option bool := match v with JBool b => Some b | _ => None end.
Definition is_null (v : json) : bool := match v with JNull => true | _ => false end.

(** [get_mut(k).and_then(|v| v.as_object_mut())], changed by [f]. *)
Definition update_object (k : string) (f : Object → Object) (m : Object) : Object :=
  match get k m with Some (JObject o) => insert k (JObject (f o)) m | _ => m end.

(** [entry(k).or_insert_with(..).as_object_mut().map(|o| o.insert(k', v))]. *)
Definition entry_insert (k k' : string) (v : json) (m : Object) : Object :=
  match get k m with
  | None => insert k (JObject (insert k' v [])) m
  | Some (JObject o) => insert k (JObject (insert k' v o)) m
  | Some _ => m
  end.

(** [entry(k).or_insert_with(..).as_object_mut().unwrap()]. *)
Definition entry_object {E} (k : string) (m : Object) : outcome E Object :=
  match get k m with
  | None => Ok []
  | Some (JObject o) => Ok o
  | Some _ => Panic "called `Option::unwrap()` on a `None` value"
  end.

(** [remove(k).map(|v| (v, new)).or_else(|| remove(k').map(|v| (v, new')))]. *)
Definition remove_either (k new k' new' : string) (m : Object) : option (json * string) * Object :=
  match remove k m with
  | (Some v, m) => (Some (v, new), m)
  | (None, m) => match remove k' m with (Some v, m) => (Some (v, new'), m) | (None, m) => (None, m) end
  end.

Definition rename_either (k new k' new' : string) (m : Object) : Object :=
  match remove_either k new k' new' m with
  | (Some (v, key), m) => insert key v m
  | (None, m) => m
  end.

(** ** Lemmas *)
Definition distinct (m : Object) : Prop := NoDup m.*1.

Lemma get_elem k v m : distinct m → get k m = Some v ↔ (k, v) ∈ m.
Proof.
  unfold distinct, get. induction m as [|[k' v'] m IH]; intros Hd; simpl; [set_solver|].
  apply NoDup_cons in Hd as [Hn Hd]. specialize (IH Hd). rewrite elem_of_cons.
  case_decide as Hk; [subst|naive_solver].
  split; [naive_solver|]. intros [[= ->]|Hin]; [done|].
  destruct Hn. apply list_elem_of_fmap. by exists (k, v).
Qed.

Lemma get_in k m : is_Some (get k m) ↔ k ∈ m.*1.
Proof.
  unfold get. induction m as [|[k' v'] m IH]; simpl; [split; [by intros []|set_solver]|].
  rewrite elem_of_cons, <- IH. case_decide; [naive_solver|]. naive_solver.
Qed.

Lemma get_insert k k' v m : get k (insert k' v m) = if decide (k = k') then Some v else get k m.
Proof.
  unfold get. induction m as [|[j w] m IH]; simpl; [repeat case_decide; congruence|].
  destruct (decide (j = k')) as [->|Hj]; simpl; [by repeat case_decide; subst|]. rewrite IH.
  by repeat case_decide; subst.
Qed.

Lemma insert_distinct k v m : distinct m → distinct (insert k v m).
Proof.
  unfold distinct. induction m as [|[j w] m IH]; simpl; intros Hd; [apply NoDup_singleton|].
  apply NoDup_cons in Hd as [Hn Hd]. case_decide; subst; simpl; [by apply NoDup_cons|].
  apply NoDup_cons; split; [|by apply IH]. rewrite <- get_in, get_insert. rewrite <- get_in in Hn.
  by rewrite decide_False.
Qed.

Lemma insert_same k v m : get k m = Some v → insert k v m = m.
Proof.
  unfold get. induction m as [|[j w] m IH]; simpl; intros Hg; [done|].
  case_decide; subst; [by simplify_eq|]. by rewrite IH.
Qed.

Lemma swap_remove_perm k m : distinct m → swap_remove k m ≡ₚ filter (λ x, x.1 ≠ k) m.
Proof.
  unfold distinct. induction m as [|[j w] m IH]; simpl; intros Hd; [done|].
  apply NoDup_cons in Hd as [Hn Hd]. case_decide as Hk; subst.
  - rewrite filter_cons_False by (simpl; naive_solver). transitivity m.
    + induction m as [|x m _] using rev_ind; [done|].
      rewrite last_snoc, removelast_last. by rewrite Permutation_cons_append.
    + assert (filter (λ x, x.1 ≠ k) m = m) as Hf; [|by rewrite Hf].
      clear IH Hd. induction m as [|x m IH]; [done|]. rewrite filter_cons_True, IH by set_solver. done.
  - rewrite filter_cons_True by done. by rewrite IH.
Qed.

Lemma swap_remove_distinct k m : distinct m → distinct (swap_remove k m).
Proof.
  intros Hd. unfold distinct. rewrite swap_remove_perm by done. unfold distinct in Hd. revert Hd.
  induction m as [|x m IH]; [done|]. simpl. intros [Hn Hd]%NoDup_cons. rewrite filter_cons.
  case_decide; [|by apply IH]. simpl. apply NoDup_cons. split; [|by apply IH].
  intros (y & Hy & Hin)%list_elem_of_fmap. apply list_elem_of_filter in Hin as [_ Hin]. apply Hn. rewrite Hy.
  by apply list_elem_of_fmap_2.
Qed.

Lemma get_swap_remove k k' m :
  distinct m → get k (swap_remove k' m) = if decide (k = k') then None else get k m.
Proof.
  intros Hd. apply option_eq. intros v. rewrite get_elem by by apply swap_remove_distinct.
  rewrite swap_remove_perm, list_elem_of_filter by done. simpl.
  case_decide; [subst; split; [naive_solver|done]|]. rewrite get_elem by done. naive_solver.
Qed.

Lemma swap_remove_absent k m : get k m = None → swap_remove k m = m.
Proof.
  unfold get. induction m as [|[j w] m IH]; simpl; [done|]. case_decide; [done|]. intros Hg. by rewrite IH.
Qed.

(** What a step may change: all keys but some are as before. *)
Definition same_but (ks : list string) (m m' : Object) : Prop :=
  distinct m → distinct m' ∧ ∀ k, k ∉ ks → get k m' = get k m.

Lemma same_but_refl ks m : same_but ks m m.
Proof. by split. Qed.

Lemma same_but_trans ks1 ks2 m1 m2 m3 :
  same_but ks1 m1 m2 → same_but ks2 m2 m3 → same_but (ks1 ++ ks2) m1 m3.
Proof.
  intros H1 H2 [Hd H1']%H1. destruct (H2 Hd) as [Hd' H2']. split; [done|]. intros k Hk.
  rewrite H2', H1'; set_solver.
Qed.

Lemma same_but_weaken ks ks' m m' : ks ⊆ ks' → same_but ks m m' → same_but ks' m m'.
Proof. intros Hs H [Hd Hg]%H. split; [done|]. intros k Hk. apply Hg. set_solver. Qed.

Lemma insert_same_but k v m : same_but [k] m (insert k v m).
Proof.
  intros Hd. split; [by apply insert_distinct|]. intros j Hj. rewrite get_insert, decide_False by set_solver. done.
Qed.

Lemma swap_remove_same_but k m : same_but [k] m (swap_remove k m).
Proof.
  intros Hd. split; [by apply swap_remove_distinct|]. intros j Hj.
  rewrite get_swap_remove, decide_False by set_solver. done.
Qed.

Lemma remove_either_same_but k n k' n' m : same_but [k; k'] m (remove_either k n k' n' m).2.
Proof.
  unfold remove_either, remove. destruct (get k m) eqn:Hk; simpl.
  - eapply same_but_weaken; [|apply swap_remove_same_but]. set_solver.
  - rewrite (swap_remove_absent k m Hk). eapply same_but_weaken; [|destruct (get k' m); apply swap_remove_same_but].
    set_solver.
Qed.

Lemma rename_either_same_but k n k' n' m : same_but [k; k'; n; n'] m (rename_either k n k' n' m).
Proof.
  pose proof (remove_either_same_but k n k' n' m) as Hr. unfold rename_either, remove_either, remove in *.
  destruct (get k m) eqn:Hk; simpl in *;
    [|destruct (get k' (swap_remove k m)) eqn:Hk'; simpl in *];
    (eapply same_but_weaken; [|first [eapply same_but_trans; [exact Hr|apply insert_same_but]|exact Hr]]); set_solver.
Qed.

Lemma update_object_same_but k f m : same_but [k] m (update_object k f m).
Proof. unfold update_object. repeat case_match; first [apply same_but_refl|apply insert_same_but]. Qed.

Lemma entry_insert_same_but k k' v m : same_but [k] m (entry_insert k k' v m).
Proof. unfold entry_insert. repeat case_match; first [apply same_but_refl|apply insert_same_but]. Qed.

Lemma sublist (ks ks' : list string) : forallb (λ k, bool_decide (k ∈ ks')) ks = true → ks ⊆ ks'.
Proof.
  intros H k Hk. rewrite forallb_forall in H. eapply bool_decide_eq_true. apply H. by apply list_elem_of_In.
Qed.

Lemma remove_either_first k n k' n' m v :
  get k m = Some v → remove_either k n k' n' m = (Some (v, n), swap_remove k m).
Proof. unfold remove_either, remove. by intros ->. Qed.

Lemma remove_either_none k n k' n' m :
  get k m = None → get k' m = None → remove_either k n k' n' m = (None, m).
Proof.
  unfold remove_either, remove. intros Hk Hk'. by rewrite Hk, (swap_remove_absent k m), Hk', (swap_remove_absent k' m).
Qed.

Definition is_object_at (k : string) (m : Object) : bool :=
  match get k m with None | Some (JObject _) => true | _ => false end.

Lemma is_object_at_ext k m m' : get k m = get k m' → is_object_at k m = is_object_at k m'.
Proof. unfold is_object_at. by intros ->. Qed.

Lemma object_or_not k m : (∃ o, get k m = Some (JObject o)) ∨ (∀ o, get k m ≠ Some (JObject o)).
Proof. destruct (get k m) as [[| | | | |o]|]; naive_solver. Qed.

Lemma remove_either_gone k n k' n' m :
  distinct m → get k m = None ∨ get k' m = None →
  get k (remove_either k n k' n' m).2 = None ∧ get k' (remove_either k n k' n' m).2 = None.
Proof.
  intros Hd Hn. unfold remove_either, remove. destruct (get k m) eqn:Hk; simpl.
  - destruct Hn as [|Hn]; [done|]. rewrite !get_swap_remove by done. split; case_decide; congruence.
  - rewrite (swap_remove_absent k m Hk). assert (get k (swap_remove k' m) = None ∧ get k' (swap_remove k' m) = None) as Hg.
    { rewrite !get_swap_remove by done. split; case_decide; congruence. }
    by destruct (get k' m).
Qed.

Lemma remove_either_name k n k' n' m v j : (remove_either k n k' n' m).1 = Some (v, j) → j ∈ [n; n'].
Proof. unfold remove_either, remove. repeat case_match; simpl; intros; simplify_eq; set_solver. Qed.

Lemma rename_either_gone k n k' n' m :
  distinct m → get k m = None ∨ get k' m = None → k ∉ [n; n'] → k' ∉ [n; n'] →
  get k (rename_either k n k' n' m) = None ∧ get k' (rename_either k n k' n' m) = None.
Proof.
  intros Hd Hn H H'. destruct (remove_either_gone k n k' n' m Hd Hn) as [Hg Hg'].
  pose proof (λ v j, remove_either_name k n k' n' m v j) as Hj. unfold rename_either.
  destruct (remove_either k n k' n' m) as [[[v j]|] m1]; simpl in *; [|done].
  specialize (Hj v j eq_refl). rewrite !get_insert, !decide_False by (intros ->; done). done.
Qed.

End Object.

Abbreviation Object := (list (string * json)).

(** ** Tactics *)
Ltac frame_last :=
  first [ apply insert_same_but | apply swap_remove_same_but | apply remove_either_same_but
        | apply rename_either_same_but | apply update_object_same_but | apply entry_insert_same_but ].
Ltac frame := first [apply (same_but_refl []) | eapply same_but_trans; [|frame_last]; frame].

(** Names of keys are told apart by computation. *)
Ltac keys := first [done | apply sublist; reflexivity | refine (bool_decide_unpack _ _); vm_compute; exact I].

(** Key by key: the entry after an insertion or a removal. *)
Ltac lookup :=
  repeat first
    [ rewrite get_insert | rewrite get_swap_remove by done ];
  repeat (first [rewrite decide_True by done | rewrite decide_False by keys]).

End JsonObject.
