(* ===== verification/MigrateConfig.v ===== *)
(** * Migration of version 1 configurations

    Models [tauri-cli/Source/migrate/migrations/v1/config.rs]: the configuration
    of a project of version 1 is rewritten for version 2, and its allowlist
    becomes the permissions of a capability. The data types and parsers of
    [tauri-utils] version 1 are not part of the repository: the fields that are
    read are written out, their parsers are parameters. *)
From S2P Require Import Prelude Identifier Acl Paths Values ConfigFiles BuildSupport TauriBuild JsonObject.
Import Identifier Acl Values JsonObject.

(** [tauri_utils_v1::config::FsAllowlistScope]; a path is its text. *)
Inductive FsAllowlistScope :=
| AllowedPaths (paths : list string)
| FsScope (allow deny : list string) (require_literal_leading_dot : option bool).

Record FsAllowlistConfig := mk_fs_allowlist {
  fs_scope : FsAllowlistScope;
  fs_all : bool; fs_read_file : bool; fs_write_file : bool; fs_read_dir : bool; fs_copy_file : bool;
  fs_create_dir : bool; fs_remove_dir : bool; fs_remove_file : bool; fs_rename_file : bool; fs_exists : bool;
}.

Record WindowAllowlistConfig := mk_window_allowlist {
  window_all : bool; window_create : bool; window_center : bool; window_request_user_attention : bool;
  window_set_resizable : bool; window_set_maximizable : bool; window_set_minimizable : bool;
  window_set_closable : bool; window_set_title : bool; window_maximize : bool; window_unmaximize : bool;
  window_minimize : bool; window_unminimize : bool; window_show : bool; window_hide : bool; window_close : bool;
  window_set_decorations : bool; window_set_always_on_top : bool; window_set_content_protected : bool;
  window_set_size : bool; window_set_min_size : bool; window_set_max_size : bool; window_set_position : bool;
  window_set_fullscreen : bool; window_set_focus : bool; window_set_icon : bool; window_set_skip_taskbar : bool;
  window_set_cursor_grab : bool; window_set_cursor_visible : bool; window_set_cursor_icon : bool;
  window_set_cursor_position : bool; window_set_ignore_cursor_events : bool; window_start_dragging : bool;
  window_print : bool;
}.

Record DialogAllowlistConfig := mk_dialog_allowlist {
  dialog_all : bool; dialog_open : bool; dialog_save : bool; dialog_message : bool; dialog_ask : bool;
  dialog_confirm : bool;
}.

(** A scope of urls is the list of their texts. *)
Record HttpAllowlistConfig := mk_http_allowlist {
  http_scope : list string; http_all : bool; http_request : bool;
}.

Record ProcessAllowlistConfig := mk_process_allowlist {
  process_all : bool; process_relaunch : bool; process_exit : bool;
}.
Record ClipboardAllowlistConfig := mk_clipboard_allowlist {
  clipboard_all : bool; clipboard_read_text : bool; clipboard_write_text : bool;
}.
Record AppAllowlistConfig := mk_app_allowlist { app_all : bool; app_show : bool; app_hide : bool }.
Record ProtocolAllowlistConfig := mk_protocol_allowlist { protocol_asset_scope : FsAllowlistScope; protocol_asset : bool }.

Section Data.
Context {ShellAllowedCommand CspDirectiveSources : Type}.

(** [ShellAllowlistOpen]: [Some b] is its variant [Flag(b)], [None] another. *)
Record ShellAllowlistConfig := mk_shell_allowlist {
  shell_scope : list ShellAllowedCommand; shell_all : bool; shell_execute : bool; shell_sidecar : bool;
  shell_open : option bool;
}.

Record AllowlistConfig := mk_allowlist {
  all : bool;
  fs : FsAllowlistConfig;
  window : WindowAllowlistConfig;
  shell : ShellAllowlistConfig;
  dialog : DialogAllowlistConfig;
  http : HttpAllowlistConfig;
  notification_all : bool;
  global_shortcut_all : bool;
  os_all : bool;
  process : ProcessAllowlistConfig;
  clipboard : ClipboardAllowlistConfig;
  app : AppAllowlistConfig;
  protocol : ProtocolAllowlistConfig;
}.

(** [Csp] of version 1. *)
Inductive Csp :=
| CspPolicy (policy : string)
| CspDirectiveMap (directives : gmap string CspDirectiveSources).

End Data.
Arguments ShellAllowlistConfig : clear implicits.
Arguments AllowlistConfig : clear implicits.
Arguments Csp : clear implicits.

#[global] Instance FsAllowlistScope_eq_dec : EqDecision FsAllowlistScope.
Proof. solve_decision. Defined.

(** [tauri-utils] version 1, [url], [serde_json] and [toml]. *)
Class V1Lib {SL : SerdeLib} := {
  url_parses : string → bool;
  ShellAllowedCommand : Type;
  shell_command_to_value : ShellAllowedCommand → option json;
  allowlist_from_value : json → option (AllowlistConfig ShellAllowedCommand);
  scope_default : FsAllowlistScope;
  scope_to_value : FsAllowlistScope → option json;
  CspDirectiveSources : Type;
  sources_list : list string → CspDirectiveSources;
  sources_contains : CspDirectiveSources → string → bool;
  sources_push : CspDirectiveSources → string → CspDirectiveSources;
  csp_from_value : json → option (Csp CspDirectiveSources);
  csp_to_value : Csp CspDirectiveSources → option json;
}.

(** Reading and writing of the files of the project. *)
Class V1Files {SL : SerdeLib} := {
  v1_parse_value : list Paths.Component → Files → option (json * list Paths.Component);
  toml_to_string_pretty : json → option string;
  json_to_string_pretty : json → option string;
  capability_to_string_pretty : Capability → option string;
  (** whether all was written, and the files then *)
  v1_write : list Paths.Component → string → Files → bool * Files;
  v1_create_dir_all : list Paths.Component → Files → bool;
}.

Module Migrate.
Section Migrate.
Context {SL : SerdeLib} {V1 : V1Lib}.

Inductive MigrateError := SerdeError | IoError.

Record MigratedConfig := mk_migrated {
  migrated_permissions : list PermissionEntry;
  migrated_plugins : gset string;
}.

Definition MigratedConfig_default : MigratedConfig := mk_migrated [] ∅.

(** ** Parts of the configuration *)
Definition move_package (package config : Object) : Object :=
  let '(name, package) := remove_either "productName" "productName" "product-name" "product-name" package in
  let config :=
    match name with
    | Some (product_name, key) => insert "mainBinaryName" product_name (insert key product_name config)
    | None => config
    end in
  match remove "version" package with
  | (Some version, _) => insert "version" version config
  | (None, _) => config
  end.

Definition move_identifier (config : Object) : Object :=
  match get "tauri" config with
  | Some (JObject tauri) =>
      match get "bundle" tauri with
      | Some (JObject bundle) =>
          let '(identifier, bundle) := remove "identifier" bundle in
          let config := insert "tauri" (JObject (insert "bundle" (JObject bundle) tauri)) config in
          match identifier with Some i => insert "identifier" i config | None => config end
      | _ => config
      end
  | _ => config
  end.

Definition process_package_metadata (config : Object) : Object :=
  let '(package, config) := remove "package" config in
  move_identifier (match package with Some (JObject p) => move_package p config | _ => config end).

Definition rename_dev_path (build : Object) : Object :=
  match remove_either "devPath" "devUrl" "dev-path" "dev-url" build with
  | (Some (dev_path, key), build) =>
      if url_parses (default "" (ConfigFiles.as_str dev_path)) then insert key dev_path build else build
  | (None, build) => build
  end.

Definition process_build (config : Object) : Object :=
  match get "build" config with
  | Some (JObject build) =>
      let build := rename_either "distDir" "frontendDist" "dist-dir" "frontend-dist" build in
      let build := rename_dev_path build in
      let '(global, build) :=
        remove_either "withGlobalTauri" "withGlobalTauri" "with-global-tauri" "with-global-tauri" build in
      let config := insert "build" (JObject build) config in
      match global with
      | Some (with_global_tauri, key) => update_object "tauri" (insert key with_global_tauri) config
      | None => config
      end
  | _ => config
  end.

(** [bundle_config.remove(k)] into an object of the platform. *)
Definition move_into (k platform : string) (bundle : Object) : Object :=
  match remove k bundle with
  | (Some v, bundle) => entry_insert platform k v bundle
  | (None, bundle) => bundle
  end.

(** The license of an object that is part of [m], and [m] without it. *)
Definition take_license (k : string) (license_file : option json) (m : Object) : option json * Object :=
  match get k m with
  | Some (JObject o) =>
      match remove "license" o with
      | (Some license, o) => (Some license, insert k (JObject o) m)
      | (None, o) => (license_file, insert k (JObject o) m)
      end
  | _ => (license_file, m)
  end.

Definition fixed_runtime (windows : Object) : Object :=
  match remove_either "webviewFixedRuntimePath" "webviewInstallMode"
          "webview-fixed-runtime-path" "webview-install-mode" windows with
  | (Some (path, key), windows) =>
      if is_null path then windows
      else insert key (JObject [("type", JString "fixedRuntime"); ("path", path)]) windows
  | (None, windows) => windows
  end.

Definition bundle_windows (license_file : option json) (bundle : Object) : option json * Object :=
  match get "windows" bundle with
  | Some (JObject windows) =>
      let '(license_file, windows) := take_license "wix" license_file windows in
      let '(license_file, windows) := take_license "nsis" license_file windows in
      (license_file, insert "windows" (JObject (fixed_runtime windows)) bundle)
  | _ => (license_file, bundle)
  end.

(** [targets.iter().position(..)] and [targets.remove(index)]. *)
Fixpoint remove_updater (targets : list json) : option (list json) :=
  match targets with
  | [] => None
  | JString "updater" :: targets => Some targets
  | t :: targets => cons t <$> remove_updater targets
  end.

Definition migrate_targets (migrated : MigratedConfig) (bundle : Object) : Object :=
  let create := insert "createUpdaterArtifacts" (JString "v1Compatible") in
  match get "targets" bundle with
  | Some (JArray targets) =>
      match remove_updater targets with
      | Some targets => create (insert "targets" (JArray targets) bundle)
      | None => bundle
      end
  | Some (JString target) =>
      if bool_decide (target = "updater") then create (swap_remove "targets" bundle)
      else if bool_decide (target = "all") && bool_decide ("updater" ∈ migrated_plugins migrated)
      then create bundle else bundle
  | _ => bundle
  end.

Definition migrate_bundle (migrated : MigratedConfig) (bundle : Object) : Object :=
  let bundle := move_into "deb" "linux" bundle in
  let bundle := move_into "appimage" "linux" bundle in
  let bundle := move_into "rpm" "linux" bundle in
  let bundle := move_into "dmg" "macOS" bundle in
  let '(license_file, bundle) := take_license "macOS" None bundle in
  let '(license_file, bundle) := bundle_windows license_file bundle in
  let bundle := match license_file with Some l => insert "licenseFile" l bundle | None => bundle end in
  migrate_targets migrated bundle.

Definition process_bundle (migrated : MigratedConfig) (config : Object) : Object :=
  match get "tauri" config with
  | Some (JObject tauri) =>
      match remove "bundle" tauri with
      | (Some bundle, tauri) =>
          let bundle := match bundle with JObject b => JObject (migrate_bundle migrated b) | _ => bundle end in
          insert "bundle" bundle (insert "tauri" (JObject tauri) config)
      | (None, tauri) => config
      end
  | _ => config
  end.

(** [str::replace]: [skip] bytes belong to a match that was replaced. *)
Fixpoint replace_from (from to : string) (skip : nat) (s : string) : string :=
  match s, skip with
  | EmptyString, _ => EmptyString
  | String _ s', S skip => replace_from from to skip s'
  | String c s', O =>
      if starts_with from s then to +:+ replace_from from to (String.length from - 1) s'
      else String c (replace_from from to 0 s')
  end.
Definition str_replace (from to s : string) : string := replace_from from to 0 s.

Definition ipc_source : string := "ipc: http://ipc.localhost".

Definition migrate_csp (csp : Csp CspDirectiveSources) : Csp CspDirectiveSources :=
  match csp with
  | CspPolicy csp =>
      CspPolicy (if str_contains "connect-src" csp then str_replace "connect-src" ("connect-src " +:+ ipc_source) csp
                 else csp +:+ "; connect-src " +:+ ipc_source)
  | CspDirectiveMap csp =>
      CspDirectiveMap
        (match csp !! "connect-src" with
         | Some connect_src =>
             if sources_contains connect_src ipc_source then csp
             else <["connect-src" := sources_push connect_src ipc_source]> csp
         | None => <["connect-src" := sources_list [ipc_source]]> csp
         end)
  end.

(** [remove(k).or_else(|| remove(k'))], the value dropped. *)
Definition drop_either (k k' : string) (m : Object) : Object := snd (remove_either k k k' k' m).

Definition process_csp (security : Object) : outcome MigrateError Object :=
  match remove "csp" security with
  | (Some csp_value, security) =>
      csp ← (if is_null csp_value then Ok csp_value
             else csp ← ok_or (csp_from_value csp_value) SerdeError;
                  ok_or (csp_to_value (migrate_csp csp)) SerdeError);
      Ok (insert "csp" csp security)
  | (None, security) => Ok security
  end.

Definition process_security (security : Object) : outcome MigrateError Object :=
  security ← process_csp security;
  let security := drop_either "dangerousRemoteDomainIpcAccess" "dangerous-remote-domain-ipc-access" security in
  Ok (drop_either "dangerousUseHttpScheme" "dangerous-use-http-scheme" security).

Definition asset_protocol (allowlist : AllowlistConfig ShellAllowedCommand) : outcome MigrateError json :=
  scope ← ok_or (scope_to_value (protocol_asset_scope (protocol allowlist))) SerdeError;
  let asset_protocol := insert "scope" scope [] in
  Ok (JObject (if protocol_asset (protocol allowlist) then insert "enable" (JBool true) asset_protocol
               else asset_protocol)).

Definition process_allowlist (tauri_config : Object) (allowlist : json)
    : outcome MigrateError (AllowlistConfig ShellAllowedCommand * Object) :=
  allowlist ← ok_or (allowlist_from_value allowlist) SerdeError;
  if bool_decide (protocol_asset_scope (protocol allowlist) = scope_default) then Ok (allowlist, tauri_config)
  else
    security ← entry_object "security" tauri_config;
    asset_protocol ← asset_protocol allowlist;
    Ok (allowlist, insert "security" (JObject (insert "assetProtocol" asset_protocol security)) tauri_config).

(** ** Permissions of an allowlist *)

(** [$associated_permission.to_string().try_into().unwrap()]. *)
Definition permission_id {E} (name : string) : outcome E Identifier :=
  expect (ok (try_from name)) "called `Result::unwrap()` on an `Err` value".

(** The macro [permissions!]: the flag of the object, the one of the field and
    the permission. *)
Definition permission {E} (all : bool) (permissions : list PermissionEntry) (x : bool * bool * string)
    : outcome E (list PermissionEntry) :=
  let '(object_all, field, associated_permission) := x in
  if all || object_all || field
  then id ← permission_id associated_permission; Ok (permissions ++ [PermissionRef id])
  else Ok permissions.

Definition extended {E} (name : string) (allow deny : option (list Value)) : outcome E PermissionEntry :=
  id ← permission_id name; Ok (ExtendedPermission id (mk_scopes allow deny)).

Definition of_object (object_all : bool) (l : list (bool * string)) : list (bool * bool * string) :=
  (λ x, (object_all, x.1, x.2)) <$> l.

Definition fs_fields (a : FsAllowlistConfig) : list (bool * bool * string) :=
  of_object (fs_all a)
   [(fs_read_file a, "fs:allow-read-file");
    (fs_write_file a, "fs:allow-write-file");
    (fs_read_dir a, "fs:allow-read-dir");
    (fs_copy_file a, "fs:allow-copy-file");
    (fs_create_dir a, "fs:allow-mkdir");
    (fs_remove_dir a, "fs:allow-remove");
    (fs_remove_file a, "fs:allow-remove");
    (fs_rename_file a, "fs:allow-rename");
    (fs_exists a, "fs:allow-exists")].

Definition window_fields (a : WindowAllowlistConfig) : list (bool * bool * string) :=
  of_object (window_all a)
   [(window_create a, "core:window:allow-create");
    (window_center a, "core:window:allow-center");
    (window_request_user_attention a, "core:window:allow-request-user-attention");
    (window_set_resizable a, "core:window:allow-set-resizable");
    (window_set_maximizable a, "core:window:allow-set-maximizable");
    (window_set_minimizable a, "core:window:allow-set-minimizable");
    (window_set_closable a, "core:window:allow-set-closable");
    (window_set_title a, "core:window:allow-set-title");
    (window_maximize a, "core:window:allow-maximize");
    (window_unmaximize a, "core:window:allow-unmaximize");
    (window_minimize a, "core:window:allow-minimize");
    (window_unminimize a, "core:window:allow-unminimize");
    (window_show a, "core:window:allow-show");
    (window_hide a, "core:window:allow-hide");
    (window_close a, "core:window:allow-close");
    (window_set_decorations a, "core:window:allow-set-decorations");
    (window_set_always_on_top a, "core:window:allow-set-always-on-top");
    (window_set_content_protected a, "core:window:allow-set-content-protected");
    (window_set_size a, "core:window:allow-set-size");
    (window_set_min_size a, "core:window:allow-set-min-size");
    (window_set_max_size a, "core:window:allow-set-max-size");
    (window_set_position a, "core:window:allow-set-position");
    (window_set_fullscreen a, "core:window:allow-set-fullscreen");
    (window_set_focus a, "core:window:allow-set-focus");
    (window_set_icon a, "core:window:allow-set-icon");
    (window_set_skip_taskbar a, "core:window:allow-set-skip-taskbar");
    (window_set_cursor_grab a, "core:window:allow-set-cursor-grab");
    (window_set_cursor_visible a, "core:window:allow-set-cursor-visible");
    (window_set_cursor_icon a, "core:window:allow-set-cursor-icon");
    (window_set_cursor_position a, "core:window:allow-set-cursor-position");
    (window_set_ignore_cursor_events a, "core:window:allow-set-ignore-cursor-events");
    (window_start_dragging a, "core:window:allow-start-dragging");
    (window_print a, "core:webview:allow-print")].

Definition dialog_fields (a : DialogAllowlistConfig) : list (bool * bool * string) :=
  of_object (dialog_all a)
   [(dialog_open a, "dialog:allow-open");
    (dialog_save a, "dialog:allow-save");
    (dialog_message a, "dialog:allow-message");
    (dialog_ask a, "dialog:allow-ask");
    (dialog_confirm a, "dialog:allow-confirm")].

(** The permissions of the objects that follow [http]; a field [all] is the flag
    of its object. *)
Definition last_fields (a : AllowlistConfig ShellAllowedCommand) : list (bool * bool * string) :=
  of_object (notification_all a) [(notification_all a, "notification:default")] ++
  of_object (global_shortcut_all a)
   [(global_shortcut_all a, "global-shortcut:allow-is-registered");
    (global_shortcut_all a, "global-shortcut:allow-register");
    (global_shortcut_all a, "global-shortcut:allow-register-all");
    (global_shortcut_all a, "global-shortcut:allow-unregister");
    (global_shortcut_all a, "global-shortcut:allow-unregister-all")] ++
  of_object (os_all a)
   [(os_all a, "os:allow-platform");
    (os_all a, "os:allow-version");
    (os_all a, "os:allow-os-type");
    (os_all a, "os:allow-family");
    (os_all a, "os:allow-arch");
    (os_all a, "os:allow-exe-extension");
    (os_all a, "os:allow-locale");
    (os_all a, "os:allow-hostname")] ++
  of_object (process_all (process a))
   [(process_relaunch (process a), "process:allow-restart");
    (process_exit (process a), "process:allow-exit")] ++
  of_object (clipboard_all (clipboard a))
   [(clipboard_read_text (clipboard a), "clipboard-manager:allow-read-text");
    (clipboard_write_text (clipboard a), "clipboard-manager:allow-write-text")] ++
  of_object (app_all (app a))
   [(app_show (app a), "core:app:allow-app-show");
    (app_hide (app a), "core:app:allow-app-hide")].

Definition non_empty (l : list Value) : option (list Value) := match l with [] => None | _ => Some l end.

Definition fs_scope_permission {E} (scope : FsAllowlistScope) (permissions : list PermissionEntry)
    : outcome E (list PermissionEntry) :=
  let '(fs_allowed, fs_denied) :=
    match scope with AllowedPaths paths => (paths, []) | FsScope allow deny _ => (allow, deny) end in
  if bool_decide (fs_allowed = []) && bool_decide (fs_denied = []) then Ok permissions
  else
    e ← extended "fs:scope" (non_empty (String_ <$> fs_allowed)) (non_empty (String_ <$> fs_denied));
    Ok (permissions ++ [e]).

Definition shell_permissions {E} (a : AllowlistConfig ShellAllowedCommand) (permissions : list PermissionEntry)
    : outcome E (list PermissionEntry) :=
  let s := shell a in
  permissions ←
    match shell_scope s with
    | [] =>
        if all a || shell_all s || shell_execute s
        then permission (all a) permissions (shell_all s, shell_execute s, "shell:allow-execute")
        else permission (all a) permissions (shell_all s, shell_sidecar s, "shell:allow-execute")
    | scope =>
        allowed ← collect (λ p, Value_from_json <$> expect (shell_command_to_value p)
                                  "called `Result::unwrap()` on an `Err` value") scope;
        e ← extended "shell:allow-execute" (Some allowed) None;
        Ok (permissions ++ [e])
    end;
  if all a || shell_all s || negb (bool_decide (shell_open s = Some false))
  then id ← permission_id "shell:allow-open"; Ok (permissions ++ [PermissionRef id])
  else Ok permissions.

Definition http_permissions {E} (a : AllowlistConfig ShellAllowedCommand) (permissions : list PermissionEntry)
    : outcome E (list PermissionEntry) :=
  match http_scope (http a) with
  | [] => permission (all a) permissions (http_all (http a), http_request (http a), "http:default")
  | scope =>
      e ← extended "http:default" (Some ((λ p, Map [("url", String_ p)]) <$> scope)) None;
      Ok (permissions ++ [e])
  end.

Definition allowlist_to_permissions {E} (a : AllowlistConfig ShellAllowedCommand)
    : outcome E (list PermissionEntry) :=
  permissions ← for_each (permission (all a)) (fs_fields (fs a)) [];
  permissions ← fs_scope_permission (fs_scope (fs a)) permissions;
  permissions ← for_each (permission (all a)) (window_fields (window a)) permissions;
  permissions ← shell_permissions a permissions;
  permissions ← for_each (permission (all a)) (dialog_fields (dialog a)) permissions;
  permissions ← http_permissions a permissions;
  for_each (permission (all a)) (last_fields a) permissions.

Definition KNOWN_PLUGINS : list string :=
  ["fs"; "shell"; "dialog"; "http"; "notification"; "global-shortcut"; "os"; "process"; "clipboard-manager"].

Definition plugin_of (permission : PermissionEntry) : option string :=
  List.find (λ plugin, starts_with plugin (Identifier.get (PermissionEntry_identifier permission))) KNOWN_PLUGINS.

Definition plugins_from_permissions (permissions : list PermissionEntry) : gset string :=
  foldl (λ plugins p, match plugin_of p with Some x => {[ x ]} ∪ plugins | None => plugins end) ∅ permissions.

(** ** The configuration *)
Definition process_cli (plugins : Object) (cli : json) : Object :=
  match cli with JObject _ => insert "cli" cli plugins | _ => plugins end.

(** The configuration, the plugins and what is migrated. *)
Definition process_updater (tauri_config plugins : Object) (migrated : MigratedConfig)
    : Object * Object * MigratedConfig :=
  match remove "updater" tauri_config with
  | (Some (JObject updater), tauri_config) =>
      let updater := swap_remove "dialog" updater in
      let '(active, updater) := remove "active" updater in
      if default false (active ≫= as_bool) || contains_key "pubkey" updater
      then (tauri_config, insert "updater" (JObject updater) plugins,
            mk_migrated (migrated_permissions migrated) ({[ "updater" ]} ∪ migrated_plugins migrated))
      else (tauri_config, plugins, migrated)
  | (_, tauri_config) => (tauri_config, plugins, migrated)
  end.

Definition dangerous_use_http (tauri_config : Object) : bool :=
  default false
    (security ← get "security" tauri_config;
     w ← ConfigFiles.as_object security;
     v ← match get "dangerousUseHttpScheme" w with Some v => Some v | None => get "dangerous-use-http-scheme" w end;
     as_bool v).

Definition set_scheme (use_https : bool) (window : json) : json :=
  match window with JObject w => JObject (insert "useHttpsScheme" (JBool use_https) w) | _ => window end.

Definition process_windows (tauri_config : Object) : Object :=
  match get "windows" tauri_config with
  | Some (JArray windows) =>
      insert "windows" (JArray (set_scheme (negb (dangerous_use_http tauri_config)) <$> windows)) tauri_config
  | _ => tauri_config
  end.

Definition migrate_allowlist (tauri_config : Object) (migrated : MigratedConfig)
    : outcome MigrateError (Object * MigratedConfig) :=
  match remove "allowlist" tauri_config with
  | (Some allowlist, tauri_config) =>
      '(allowlist, tauri_config) ← process_allowlist tauri_config allowlist;
      permissions ← allowlist_to_permissions allowlist;
      Ok (tauri_config, mk_migrated permissions (plugins_from_permissions permissions))
  | (None, tauri_config) => Ok (tauri_config, migrated)
  end.

Definition migrate_security (tauri_config : Object) : outcome MigrateError Object :=
  match get "security" tauri_config with
  | Some (JObject security) =>
      security ← process_security security; Ok (insert "security" (JObject security) tauri_config)
  | _ => Ok tauri_config
  end.

(** The object [tauri]: it, the plugins and what is migrated. *)
Definition migrate_tauri (tauri_config plugins : Object) (migrated : MigratedConfig)
    : outcome MigrateError (Object * Object * MigratedConfig) :=
  '(tauri_config, migrated) ← migrate_allowlist tauri_config migrated;
  tauri_config ← migrate_security (process_windows tauri_config);
  let tauri_config :=
    match remove "pattern" tauri_config with
    | (Some pattern, tauri_config) => entry_insert "security" "pattern" pattern tauri_config
    | (None, tauri_config) => tauri_config
    end in
  let tauri_config := rename_either "systemTray" "trayIcon" "system-tray" "tray-icon" tauri_config in
  let '(tauri_config, plugins) :=
    match remove "cli" tauri_config with
    | (Some cli, tauri_config) => (tauri_config, process_cli plugins cli)
    | (None, tauri_config) => (tauri_config, plugins)
    end in
  Ok (process_updater tauri_config plugins migrated).

Definition ensure_updater_artifacts (plugins config : Object) : outcome MigrateError Object :=
  if contains_key "updater" plugins then
    bundle ← entry_object "bundle" config;
    let bundle := if contains_key "createUpdaterArtifacts" bundle then bundle
                  else insert "createUpdaterArtifacts" (JString "v1Compatible") bundle in
    Ok (insert "bundle" (JObject bundle) config)
  else Ok config.

Definition migrate_object (config : Object) : outcome MigrateError (Object * MigratedConfig) :=
  let config := process_build (process_package_metadata config) in
  plugins ← entry_object "plugins" config;
  let config := insert "plugins" (JObject plugins) config in
  '(config, plugins, migrated) ←
    match get "tauri" config with
    | Some (JObject tauri_config) =>
        '(tauri_config, plugins, migrated) ← migrate_tauri tauri_config plugins MigratedConfig_default;
        Ok (insert "tauri" (JObject tauri_config) config, plugins, migrated)
    | _ => Ok (config, plugins, MigratedConfig_default)
    end;
  config ← ensure_updater_artifacts plugins (process_bundle migrated config);
  let config := insert "plugins" (JObject plugins) config in
  Ok (match remove "tauri" config with
      | (Some tauri_config, config) => insert "app" tauri_config config
      | (None, config) => config
      end, migrated).

Definition migrate_config (config : json) : outcome MigrateError (json * MigratedConfig) :=
  match config with
  | JObject config => '(config, migrated) ← migrate_object config; Ok (JObject config, migrated)
  | _ => Ok (config, MigratedConfig_default)
  end.

(** ** The files of the project *)
Section Project.
Context {VF : V1Files}.

Definition migrated_capability {E} (migrated : MigratedConfig) : outcome E Capability :=
  core ← permission_id "core:default";
  Ok (mk_capability "migrated" "permissions that were migrated from v1" None true ["main"] []
        (PermissionRef core :: migrated_permissions migrated) None).

(** [fs::write(path, text?)?]: nothing is written if the text cannot be made. *)
Definition write_text (path : list Paths.Component) (text : option string) (w : Files)
    : outcome MigrateError unit * Files :=
  match text with
  | None => (Err SerdeError, w)
  | Some text => let '(done, w) := v1_write path text w in (if done then Ok () else Err IoError, w)
  end.

Definition write_config (config_path : list Paths.Component) (config : json) :=
  write_text config_path
    (if bool_decide (ConfigFiles.extension config_path = Some "toml") then toml_to_string_pretty config
     else json_to_string_pretty config).

Definition write_capability (config_path : list Paths.Component) (migrated : MigratedConfig) (w : Files)
    : outcome MigrateError unit * Files :=
  match c ← migrated_capability migrated;
        dir ← expect (ConfigFiles.parent config_path) "called `Option::unwrap()` on a `None` value";
        Ok (c, ConfigFiles.join_name dir "capabilities") with
  | Ok (c, dir) =>
      if v1_create_dir_all dir w
      then write_text (ConfigFiles.join_name dir "migrated.json") (capability_to_string_pretty c) w
      else (Err IoError, w)
  | Err e => (Err e, w)
  | Panic msg => (Panic msg, w)
  | Diverge => (Diverge, w)
  end.

Definition migrate (tauri_dir : list Paths.Component) (w : Files) : outcome MigrateError MigratedConfig * Files :=
  match v1_parse_value (ConfigFiles.join_name tauri_dir "tauri.conf.json") w with
  | None => (Ok MigratedConfig_default, w)
  | Some (config, config_path) =>
      match migrate_config config with
      | Ok (config, migrated) =>
          match write_config config_path config w with
          | (Ok _, w) => let '(r, w) := write_capability config_path migrated w in ((λ _, migrated) <$> r, w)
          | (Err e, w) => (Err e, w)
          | (Panic msg, w) => (Panic msg, w)
          | (Diverge, w) => (Diverge, w)
          end
      | Err e => (Err e, w)
      | Panic msg => (Panic msg, w)
      | Diverge => (Diverge, w)
      end
  end.

End Project.

End Migrate.
End Migrate.
