(* ===== verification/MigrateProofs.v ===== *)
(** * Properties of the migration

    What [MigrateConfig] promises: every setting of version 1 has its place in
    version 2 ([migrate_config_moves]), a second migration changes nothing
    ([migrate_config_idempotent]), the permissions of an allowlist are identifiers
    of known plugins ([migrated_permissions_named]). A step is described by what it
    leaves unchanged ([same_but] of [JsonObject]) and by the values it moves. *)
From S2P Require Import Prelude Identifier Acl Paths Values ConfigFiles BuildSupport TauriBuild JsonObject MigrateConfig.
Import Identifier Acl Values JsonObject Migrate.

Module MigrateProofs.
Section Proofs.
Context {SL : SerdeLib} {V1 : V1Lib}.

Definition package_keys : list string := ["productName"; "product-name"; "mainBinaryName"; "version"].

Lemma move_package_same_but p c : same_but package_keys c (move_package p c).
Proof.
  unfold move_package, remove_either, remove.
  destruct (get "productName" p); simpl; [|destruct (get "product-name" _); simpl]; destruct (get "version" _); simpl;
    (eapply same_but_weaken; [|frame]); keys.
Qed.

Lemma move_package_moves p c :
  distinct p →
  (∀ v, get "productName" p = Some v →
     get "productName" (move_package p c) = Some v ∧ get "mainBinaryName" (move_package p c) = Some v) ∧
  (∀ v, get "version" p = Some v → get "version" (move_package p c) = Some v).
Proof.
  intros Hp. unfold move_package. split; intros v Hv.
  - rewrite (remove_either_first _ _ _ _ _ _ Hv). unfold remove.
    destruct (get "version" _); lookup; done.
  - destruct (remove_either_same_but "productName" "productName" "product-name" "product-name" p Hp) as [_ Hg].
    destruct (remove_either _ _ _ _ p) as [name p'] eqn:Hr. simpl in Hg. unfold remove.
    rewrite Hg, Hv by keys. by lookup.
Qed.

Lemma move_identifier_same_but c : same_but ["tauri"; "identifier"] c (move_identifier c).
Proof.
  unfold move_identifier, remove. repeat (case_match; try apply same_but_refl); simplify_eq;
    (eapply same_but_weaken; [|frame]); keys.
Qed.

(** The object [tauri] loses the identifier of its bundle. *)
Definition without_identifier (t : Object) : Object :=
  update_object "bundle" (swap_remove "identifier") t.

Lemma move_identifier_tauri c t :
  get "tauri" c = Some (JObject t) → get "tauri" (move_identifier c) = Some (JObject (without_identifier t)).
Proof.
  intros Ht. unfold move_identifier, without_identifier, update_object, remove. rewrite Ht.
  repeat (case_match; try done); simplify_eq; by lookup.
Qed.

Lemma move_identifier_moves c t b i :
  get "tauri" c = Some (JObject t) → get "bundle" t = Some (JObject b) → get "identifier" b = Some i →
  get "identifier" (move_identifier c) = Some i.
Proof. intros Ht Hb Hi. unfold move_identifier, remove. rewrite Ht, Hb, Hi. by lookup. Qed.

Definition metadata_keys : list string := ["package"] ++ package_keys ++ ["tauri"; "identifier"].

Lemma process_package_metadata_same_but c : same_but metadata_keys c (process_package_metadata c).
Proof.
  unfold process_package_metadata, remove. eapply same_but_weaken; [|eapply same_but_trans;
    [apply (swap_remove_same_but "package")|eapply same_but_trans; [|apply move_identifier_same_but]]];
    [|instantiate (1 := package_keys); repeat case_match; first [apply move_package_same_but|apply same_but_refl]].
  keys.
Qed.

Lemma process_package_metadata_tauri c :
  distinct c →
  (∀ t, get "tauri" c = Some (JObject t) →
     get "tauri" (process_package_metadata c) = Some (JObject (without_identifier t)) ∧
     ∀ b i, get "bundle" t = Some (JObject b) → get "identifier" b = Some i →
       get "identifier" (process_package_metadata c) = Some i) ∧
  (get "tauri" c = None → get "tauri" (process_package_metadata c) = None).
Proof.
  intros Hd. unfold process_package_metadata, remove.
  set (c1 := match _ with Some (JObject p) => _ | _ => _ end).
  assert (get "tauri" c1 = get "tauri" c) as Hc1.
  { assert (get "tauri" (swap_remove "package" c) = get "tauri" c) as Hr by by lookup.
    unfold c1. repeat case_match; try done.
    destruct (move_package_same_but m (swap_remove "package" c)) as [_ ->];
      [by apply swap_remove_distinct|done|keys]. }
  split; [intros t|]; rewrite <- Hc1; intros Ht.
  - split; [by apply move_identifier_tauri|]. intros b i Hb Hi. by eapply move_identifier_moves.
  - unfold move_identifier. by rewrite Ht.
Qed.

Lemma process_package_metadata_moves c p :
  distinct c → distinct p → get "package" c = Some (JObject p) →
  let c' := process_package_metadata c in
  (∀ v, get "productName" p = Some v → get "productName" c' = Some v ∧ get "mainBinaryName" c' = Some v) ∧
  (∀ v, get "version" p = Some v → get "version" c' = Some v).
Proof.
  intros Hd Hp Hg c'. destruct (move_package_moves p (swap_remove "package" c) Hp) as [Hn Hv].
  unfold c', process_package_metadata, remove. rewrite Hg.
  assert (distinct (move_package p (swap_remove "package" c))) as Hd'
    by (apply move_package_same_but; by apply swap_remove_distinct).
  destruct (move_identifier_same_but _ Hd') as [_ Hi].
  split; intros v H; rewrite ?Hi by keys; auto.
Qed.

(** The object [build] before [withGlobalTauri] is taken out of it. *)
Definition renamed_build (b : Object) : Object :=
  rename_dev_path (rename_either "distDir" "frontendDist" "dist-dir" "frontend-dist" b).
Definition migrated_build (b : Object) : Object :=
  (remove_either "withGlobalTauri" "withGlobalTauri" "with-global-tauri" "with-global-tauri" (renamed_build b)).2.

Definition path_keys : list string := ["devPath"; "dev-path"; "devUrl"; "dev-url"].
Definition dist_keys : list string := ["distDir"; "dist-dir"; "frontendDist"; "frontend-dist"].
Definition global_keys : list string := ["withGlobalTauri"; "with-global-tauri"].

Lemma rename_dev_path_same_but b : same_but path_keys b (rename_dev_path b).
Proof.
  unfold rename_dev_path, remove_either, remove.
  destruct (get "devPath" b); simpl; [|destruct (get "dev-path" _); simpl]; repeat case_match; simplify_eq;
    (eapply same_but_weaken; [|frame]); keys.
Qed.

Lemma renamed_build_same_but b : same_but (dist_keys ++ path_keys) b (renamed_build b).
Proof. eapply same_but_trans; [apply rename_either_same_but|apply rename_dev_path_same_but]. Qed.

Lemma migrated_build_same_but b : same_but ((dist_keys ++ path_keys) ++ global_keys) b (migrated_build b).
Proof. eapply same_but_trans; [apply renamed_build_same_but|apply remove_either_same_but]. Qed.

Lemma process_build_same_but c : same_but ["build"; "tauri"] c (process_build c).
Proof.
  unfold process_build. destruct (get "build" c) as [[| | | | |b]|]; try apply same_but_refl.
  change (same_but ["build"; "tauri"] c
    (let '(global, build) := remove_either "withGlobalTauri" "withGlobalTauri" "with-global-tauri" "with-global-tauri"
       (renamed_build b) in
     match global with
     | Some (g, key) => update_object "tauri" (insert key g) (insert "build" (JObject build) c)
     | None => insert "build" (JObject build) c
     end)).
  destruct (remove_either _ _ _ _ _) as [[[g key]|] b'];
    (eapply same_but_weaken; [|frame]); keys.
Qed.

Lemma process_build_build c b :
  distinct c → get "build" c = Some (JObject b) → get "build" (process_build c) = Some (JObject (migrated_build b)).
Proof.
  intros Hd Hb. unfold process_build, migrated_build, renamed_build. rewrite Hb.
  destruct (remove_either "withGlobalTauri" _ _ _ _) as [[[g key]|] b'] eqn:Hr; [|by lookup].
  destruct (update_object_same_but "tauri" (insert key g) (insert "build" (JObject b') c)) as [_ ->];
    [by apply insert_distinct|by lookup|keys].
Qed.

Lemma process_build_dist b v : distinct b → get "distDir" b = Some v → get "frontendDist" (migrated_build b) = Some v.
Proof.
  intros Hd Hv. unfold migrated_build, renamed_build, rename_either.
  rewrite (remove_either_first _ _ _ _ _ _ Hv).
  set (b1 := insert _ _ _). assert (distinct b1) as Hd1 by by apply insert_distinct, swap_remove_distinct.
  destruct (rename_dev_path_same_but b1 Hd1) as [Hd2 Hg2].
  destruct (remove_either_same_but "withGlobalTauri" "withGlobalTauri" "with-global-tauri" "with-global-tauri" _ Hd2)
    as [_ Hg3].
  rewrite Hg3, Hg2 by keys. unfold b1. by lookup.
Qed.

Lemma process_build_tauri c t :
  distinct c → get "tauri" c = Some (JObject t) →
  ∃ t', get "tauri" (process_build c) = Some (JObject t') ∧ same_but global_keys t t' ∧
    ∀ b v, get "build" c = Some (JObject b) → distinct b → get "withGlobalTauri" b = Some v →
      get "withGlobalTauri" t' = Some v.
Proof.
  intros Hd Ht. unfold process_build. destruct (get "build" c) as [[| | | | |b]|] eqn:Hb;
    try (exists t; split_and!; [done|apply same_but_refl|done]).
  change (rename_dev_path _) with (renamed_build b).
  destruct (remove_either "withGlobalTauri" _ _ _ _) as [[[g key]|] b'] eqn:Hr.
  - exists (insert key g t). unfold update_object. lookup. rewrite Ht. lookup. split_and!; [done| |].
    + eapply same_but_weaken; [|apply insert_same_but]. unfold remove_either, remove in Hr.
      repeat case_match; simplify_eq; keys.
    + intros b0 v [= <-] Hdb Hv. destruct (renamed_build_same_but b Hdb) as [_ Hg].
      rewrite <- (Hg "withGlobalTauri") in Hv by keys. rewrite (remove_either_first _ _ _ _ _ _ Hv) in Hr.
      simplify_eq. by lookup.
  - exists t. lookup. split_and!; [done|apply same_but_refl|]. intros b0 v [= <-] Hdb Hv.
    destruct (renamed_build_same_but b Hdb) as [_ Hg].
    rewrite <- (Hg "withGlobalTauri") in Hv by keys. by rewrite (remove_either_first _ _ _ _ _ _ Hv) in Hr.
Qed.

Lemma process_build_no_tauri c :
  distinct c → get "tauri" c = None → get "tauri" (process_build c) = None.
Proof.
  intros Hd Ht. unfold process_build, update_object. repeat (case_match; try done); lookup; try done;
    match goal with H : context [get "tauri" (insert _ _ _)] |- _ => rewrite get_insert, decide_False in H by keys end;
    congruence.
Qed.

Lemma migrate_allowlist_frame t m t1 m1 :
  distinct t → migrate_allowlist t m = Ok (t1, m1) →
  same_but ["allowlist"; "security"] t t1 ∧ (is_object_at "security" t → is_object_at "security" t1) ∧
  dangerous_use_http t1 = dangerous_use_http t.
Proof.
  intros Hd. unfold migrate_allowlist, process_allowlist, remove, entry_object.
  assert (get "security" (swap_remove "allowlist" t) = get "security" t) as Hs by by lookup.
  assert (same_but ["allowlist"; "security"] t (swap_remove "allowlist" t)) as Hr
    by (eapply same_but_weaken; [|frame]; keys).
  destruct (get "allowlist" t) as [v|].
  - intros ([a t2] & (a' & _ & Ha)%bind_ok & (l & _ & H)%bind_ok)%bind_ok. simplify_eq.
    case_bool_decide; [simplify_eq|apply bind_ok in Ha as (s & Hs' & (p & _ & Ha)%bind_ok); simplify_eq].
    + split_and!; [done|by rewrite (is_object_at_ext "security" t _ (eq_sym Hs))|]. unfold dangerous_use_http. by rewrite Hs.
    + split_and!; [eapply same_but_weaken; [|frame]; keys|unfold is_object_at; by lookup|].
      unfold dangerous_use_http. lookup. rewrite Hs in Hs'. simpl.
      destruct (get "security" t) as [[| | | | |s']|]; simplify_eq; simpl; lookup; done.
  - intros [= <- <-]. split_and!; [done|by rewrite (is_object_at_ext "security" t _ (eq_sym Hs))|].
    unfold dangerous_use_http. by rewrite Hs.
Qed.

Lemma process_windows_same_but t : same_but ["windows"] t (process_windows t).
Proof. unfold process_windows. repeat case_match; first [apply same_but_refl|apply insert_same_but]. Qed.

Lemma process_windows_schemes t ws :
  get "windows" t = Some (JArray ws) →
  get "windows" (process_windows t) = Some (JArray (set_scheme (negb (dangerous_use_http t)) <$> ws)).
Proof. intros Hw. unfold process_windows. rewrite Hw. by lookup. Qed.

Lemma migrate_security_frame t t1 :
  distinct t → migrate_security t = Ok t1 →
  same_but ["security"] t t1 ∧ (is_object_at "security" t → is_object_at "security" t1).
Proof.
  intros Hd. unfold migrate_security. destruct (get "security" t) as [[| | | | |s]|] eqn:Hs;
    try (intros [= <-]; split; [apply same_but_refl|done]).
  intros (s' & _ & [= <-])%bind_ok. split; [apply insert_same_but|]. unfold is_object_at. by lookup.
Qed.

(** The object [tauri] from the pattern on, and the plugins. *)
Definition move_pattern (t : Object) : Object :=
  match remove "pattern" t with
  | (Some pattern, t) => entry_insert "security" "pattern" pattern t
  | (None, t) => t
  end.

Lemma move_pattern_same_but t : same_but ["pattern"; "security"] t (move_pattern t).
Proof.
  unfold move_pattern, remove. destruct (get "pattern" t); (eapply same_but_weaken; [|frame]); keys.
Qed.

Lemma move_pattern_moves t v :
  distinct t → get "pattern" t = Some v → is_object_at "security" t →
  ∃ s, get "security" (move_pattern t) = Some (JObject s) ∧ get "pattern" s = Some v.
Proof.
  intros Hd Hv Hs. unfold move_pattern, remove, entry_insert, is_object_at in *. rewrite Hv. lookup.
  destruct (get "security" t) as [[| | | | |s]|]; try done; lookup; eexists; (split; [done|]); by lookup.
Qed.

Definition move_cli (t plugins : Object) : Object * Object :=
  match remove "cli" t with
  | (Some cli, t) => (t, process_cli plugins cli)
  | (None, t) => (t, plugins)
  end.

Lemma move_cli_frame t plugins t' plugins' :
  move_cli t plugins = (t', plugins') →
  t' = swap_remove "cli" t ∧ same_but ["cli"] plugins plugins' ∧
  (∀ o, get "cli" t = Some (JObject o) → get "cli" plugins' = Some (JObject o)).
Proof.
  unfold move_cli, remove, process_cli. destruct (get "cli" t) as [v|] eqn:Hc; intros [= <- <-].
  - split_and!; [done|destruct v; first [apply same_but_refl|apply insert_same_but]|].
    intros o [= ->]. by lookup.
  - split_and!; [done|apply same_but_refl|done].
Qed.

(** The updater is migrated when it is active or has a key. *)
Definition updater_migrated (u : Object) : bool :=
  default false (get "active" u ≫= as_bool) || contains_key "pubkey" u.

Lemma process_updater_frame t plugins m t' plugins' m' :
  process_updater t plugins m = (t', plugins', m') →
  t' = swap_remove "updater" t ∧ same_but ["updater"] plugins plugins' ∧
  migrated_permissions m' = migrated_permissions m ∧
  (∀ u, get "updater" t = Some (JObject u) → distinct u → updater_migrated u = true →
     (∃ u', get "updater" plugins' = Some (JObject u') ∧ same_but ["dialog"; "active"] u u') ∧
     "updater" ∈ migrated_plugins m').
Proof.
  unfold process_updater, remove. destruct (get "updater" t) as [v|] eqn:Hu.
  - destruct v as [| | | | |u]; try (intros [= <- <- <-]; split_and!; [done|apply same_but_refl|done|naive_solver]).
    intros H.
    assert (distinct u → updater_migrated u =
      default false (get "active" (swap_remove "dialog" u) ≫= as_bool) ||
      contains_key "pubkey" (swap_remove "active" (swap_remove "dialog" u))) as Hm.
    { intros Hd. unfold updater_migrated, contains_key. assert (distinct (swap_remove "dialog" u)) by by apply swap_remove_distinct.
      by lookup. }
    destruct (_ || _) eqn:Ho in H; simplify_eq.
    + split_and!; [done|apply insert_same_but|done|]. intros u0 [= <-] Hd _. split; [|set_solver]. eexists.
      split; [by lookup|]. eapply same_but_weaken; [|frame]. keys.
    + split_and!; [done|apply same_but_refl|done|]. intros u0 [= <-] Hd. rewrite (Hm Hd), Ho. done.
  - intros [= <- <- <-]. split_and!; [done|apply same_but_refl|done|done].
Qed.

Definition tauri_keys : list string :=
  ["allowlist"; "security"; "windows"; "pattern"; "systemTray"; "system-tray"; "trayIcon"; "tray-icon"; "cli"; "updater"].

Record tauri_migrated (t plugins t' plugins' : Object) (m' : MigratedConfig) : Prop := {
  tm_frame : same_but tauri_keys t t';
  tm_plugins : same_but ["cli"; "updater"] plugins plugins';
  tm_windows ws : get "windows" t = Some (JArray ws) →
    get "windows" t' = Some (JArray (set_scheme (negb (dangerous_use_http t)) <$> ws));
  tm_pattern v : get "pattern" t = Some v → is_object_at "security" t →
    ∃ s, get "security" t' = Some (JObject s) ∧ get "pattern" s = Some v;
  tm_tray v : get "systemTray" t = Some v → get "trayIcon" t' = Some v;
  tm_cli o : distinct plugins → get "cli" t = Some (JObject o) → get "cli" plugins' = Some (JObject o);
  tm_updater u : get "updater" t = Some (JObject u) → distinct u → updater_migrated u = true →
    (∃ u', get "updater" plugins' = Some (JObject u') ∧ same_but ["dialog"; "active"] u u') ∧
    "updater" ∈ migrated_plugins m';
}.

Lemma migrate_tauri_spec t plugins m t' plugins' m' :
  distinct t → migrate_tauri t plugins m = Ok (t', plugins', m') → tauri_migrated t plugins t' plugins' m'.
Proof.
  intros Hd. unfold migrate_tauri.
  intros ([t1 m1] & Ha & (t2 & Hs & H)%bind_ok)%bind_ok.
  destruct (migrate_allowlist_frame _ _ _ _ Hd Ha) as (F1 & O1 & D1). destruct (F1 Hd) as [Hd1 G1].
  pose proof (process_windows_same_but t1) as F2. destruct (F2 Hd1) as [Hd2 G2].
  destruct (migrate_security_frame _ _ Hd2 Hs) as (F3 & O3). destruct (F3 Hd2) as [Hd3 G3].
  change (match remove "pattern" t2 with (Some p, t) => entry_insert "security" "pattern" p t | (None, t) => t end)
    with (move_pattern t2) in H.
  pose proof (move_pattern_same_but t2) as F4. destruct (F4 Hd3) as [Hd4 G4].
  set (t4 := rename_either _ _ _ _ (move_pattern t2)) in H.
  pose proof (rename_either_same_but "systemTray" "trayIcon" "system-tray" "tray-icon" (move_pattern t2)) as F5.
  destruct (F5 Hd4) as [Hd5 G5]. fold t4 in F5, Hd5, G5.
  change (match remove "cli" t4 with (Some c, t) => (t, process_cli plugins c) | (None, t) => (t, plugins) end)
    with (move_cli t4 plugins) in H.
  destruct (move_cli t4 plugins) as [t5 p5] eqn:Hc. destruct (move_cli_frame _ _ _ _ Hc) as (-> & F6 & C6).
  injection H as H. destruct (process_updater_frame _ _ _ _ _ _ H) as (-> & F7 & _ & U7).
  assert (distinct (swap_remove "cli" t4)) as Hd6 by by apply swap_remove_distinct.
  assert (∀ k, k ∉ ["windows"; "security"; "pattern"; "systemTray"; "system-tray"; "trayIcon"; "tray-icon"] →
    get k t4 = get k t1) as K.
  { intros k Hk. rewrite G5, G4, G3, G2 by set_solver +Hk. done. }
  split.
  - eapply same_but_weaken; [|eapply same_but_trans; [exact F1|eapply same_but_trans; [exact F2|
      eapply same_but_trans; [exact F3|eapply same_but_trans; [exact F4|eapply same_but_trans; [exact F5|frame]]]]]].
    keys.
  - eapply same_but_weaken; [|eapply same_but_trans; [exact F6|exact F7]]. keys.
  - intros ws Hw. lookup. rewrite G5, G4, G3 by keys. rewrite <- D1. apply process_windows_schemes.
    by rewrite G1 by keys.
  - intros v Hv Ho. lookup. rewrite G5 by keys. apply move_pattern_moves; [done|rewrite G3, G2, G1 by keys; done|].
    apply O3. rewrite (is_object_at_ext "security" _ t1); [by apply O1|apply G2; keys].
  - intros v Hv. lookup. unfold t4, rename_either. rewrite (remove_either_first _ _ _ _ _ v).
    + by lookup.
    + rewrite G4, G3, G2, G1 by keys. done.
  - intros o Hp Ho. destruct (F6 Hp) as [Hp6 _]. destruct (F7 Hp6) as [_ G7]. rewrite G7 by keys. apply C6.
    rewrite K, G1 by keys. done.
  - intros u Hu. apply U7. lookup. rewrite K, G1 by keys. done.
Qed.

(** ** Bundles *)
Definition inner (k j : string) (m : Object) : option json :=
  match get k m with Some (JObject o) => get j o | _ => None end.

Lemma inner_ext k j m m' : get k m = get k m' → inner k j m = inner k j m'.
Proof. unfold inner. by intros ->. Qed.

Lemma move_into_same_but k platform b : same_but [k; platform] b (move_into k platform b).
Proof. unfold move_into, remove. destruct (get k b); (eapply same_but_weaken; [|frame]); set_solver. Qed.

Lemma move_into_inner k platform b :
  distinct b → k ≠ platform → is_object_at platform b →
  is_object_at platform (move_into k platform b) ∧
  (∀ v, get k b = Some v → inner platform k (move_into k platform b) = Some v) ∧
  (∀ j, j ≠ k → inner platform j (move_into k platform b) = inner platform j b).
Proof.
  intros Hd Hk Ho. unfold move_into, remove, entry_insert, inner, is_object_at in *.
  rewrite get_swap_remove, decide_False by done.
  destruct (get k b) as [v|] eqn:Hv.
  - destruct (get platform b) as [[| | | | |o]|]; try done;
      rewrite get_insert, decide_True by done; (split; [done|]); split; intros j Hj; simplify_eq;
      rewrite get_insert; [by rewrite decide_True|by rewrite decide_False|by rewrite decide_True|by rewrite decide_False].
  - rewrite get_swap_remove, decide_False by done. by destruct (get platform b) as [[| | | | |o]|].
Qed.

Lemma move_into_license k platform b :
  distinct b → k ≠ platform → k ≠ "license" →
  inner platform "license" (move_into k platform b) = inner platform "license" b.
Proof.
  intros Hd Hk Hl. unfold move_into, remove, entry_insert, inner. rewrite get_swap_remove, decide_False by done.
  destruct (get k b) as [v|].
  - destruct (get platform b) as [[| | | | |o]|] eqn:Hp; rewrite ?get_swap_remove, ?(decide_False (P := platform = k)), ?Hp by done;
      try done; rewrite get_insert, decide_True by done; rewrite get_insert, decide_False by done; done.
  - by rewrite get_swap_remove, decide_False.
Qed.

Lemma take_license_spec k l m :
  (take_license k l m).1 = (match inner k "license" m with Some x => Some x | None => l end) ∧
  same_but [k] m (take_license k l m).2.
Proof.
  unfold take_license, inner, remove. destruct (get k m) as [[| | | | |o]|]; try (split; [done|apply same_but_refl]).
  destruct (get "license" o); (split; [done|apply insert_same_but]).
Qed.

Lemma take_license_inner k l m j :
  (∀ o, get k m = Some (JObject o) → distinct o) → j ≠ "license" →
  inner k j (take_license k l m).2 = inner k j m.
Proof.
  intros Hd Hj. unfold take_license, inner, remove. destruct (get k m) as [[| | | | |o]|] eqn:Hk; simpl; rewrite ?Hk; try done.
  assert (distinct o) by by apply Hd.
  destruct (get "license" o); simpl; rewrite get_insert, decide_True by done; by rewrite get_swap_remove, decide_False.
Qed.

Definition first_of (l : list (option json)) : option json :=
  foldr (λ x y, match x with Some _ => x | None => y end) None l.

(** The license files of the two installers for Windows. *)
Definition windows_license (j : string) (b : Object) : option json :=
  match get "windows" b with Some (JObject w) => inner j "license" w | _ => None end.

Lemma bundle_windows_spec l b :
  (∀ w, get "windows" b = Some (JObject w) → distinct w) →
  (bundle_windows l b).1 = first_of [windows_license "nsis" b; windows_license "wix" b; l] ∧
  same_but ["windows"] b (bundle_windows l b).2.
Proof.
  intros Hd. unfold bundle_windows, windows_license.
  destruct (get "windows" b) as [[| | | | |w]|] eqn:Hw; try (split; [by destruct l|apply same_but_refl]).
  destruct (take_license_spec "wix" l w) as [H1 F1]. destruct (take_license "wix" l w) as [l1 w1]. simpl in *.
  destruct (take_license_spec "nsis" l1 w1) as [H2 F2]. destruct (take_license "nsis" l1 w1) as [l2 w2]. simpl in *.
  split; [|apply insert_same_but]. subst. destruct (F1 (Hd _ eq_refl)) as [_ G1].
  rewrite (inner_ext "nsis" "license" w1 w) by (apply G1; keys).
  by destruct (inner "nsis" "license" w), (inner "wix" "license" w), l.
Qed.

Lemma migrate_targets_same_but m b : same_but ["targets"; "createUpdaterArtifacts"] b (migrate_targets m b).
Proof.
  unfold migrate_targets. repeat (case_match; try apply same_but_refl); (eapply same_but_weaken; [|frame]); keys.
Qed.

Definition bundle_keys : list string :=
  ["deb"; "appimage"; "rpm"; "dmg"; "linux"; "macOS"; "windows"; "licenseFile"; "targets"; "createUpdaterArtifacts"].

Record bundle_migrated (b b' : Object) : Prop := {
  bm_frame : same_but bundle_keys b b';
  bm_linux k v : is_object_at "linux" b → k ∈ ["deb"; "appimage"; "rpm"] → get k b = Some v →
    inner "linux" k b' = Some v;
  bm_dmg v : is_object_at "macOS" b → get "dmg" b = Some v → inner "macOS" "dmg" b' = Some v;
  bm_license :
    get "licenseFile" b' =
    first_of [windows_license "nsis" b; windows_license "wix" b; inner "macOS" "license" b; get "licenseFile" b];
}.

(** The objects inside a bundle have distinct keys. *)
Definition bundle_distinct (b : Object) : Prop :=
  distinct b ∧ (∀ o, get "macOS" b = Some (JObject o) → distinct o) ∧
  (∀ w, get "windows" b = Some (JObject w) → distinct w).

Lemma move_dmg_distinct b :
  distinct b → (∀ o, get "macOS" b = Some (JObject o) → distinct o) →
  ∀ o, get "macOS" (move_into "dmg" "macOS" b) = Some (JObject o) → distinct o.
Proof.
  intros Hd Ho o. unfold move_into, remove, entry_insert.
  destruct (get "dmg" b); lookup; [|by apply Ho]. destruct (get "macOS" b) as [[| | | | |m]|] eqn:Hm; lookup; rewrite ?Hm; try done;
    intros [= <-]; [by apply insert_distinct, Ho|apply NoDup_singleton].
Qed.

Lemma migrate_bundle_spec migrated b : bundle_distinct b → bundle_migrated b (migrate_bundle migrated b).
Proof.
  intros (Hd & Hmac & Hwin). unfold migrate_bundle.
  pose proof (move_into_same_but "deb" "linux" b) as F1. set (b1 := move_into "deb" "linux" b) in *.
  destruct (F1 Hd) as [Hd1 G1].
  pose proof (move_into_same_but "appimage" "linux" b1) as F2. set (b2 := move_into "appimage" "linux" b1) in *.
  destruct (F2 Hd1) as [Hd2 G2].
  pose proof (move_into_same_but "rpm" "linux" b2) as F3. set (b3 := move_into "rpm" "linux" b2) in *.
  destruct (F3 Hd2) as [Hd3 G3].
  pose proof (move_into_same_but "dmg" "macOS" b3) as F4. set (b4 := move_into "dmg" "macOS" b3) in *.
  destruct (F4 Hd3) as [Hd4 G4].
  destruct (take_license_spec "macOS" None b4) as [L5 F5].
  pose proof (take_license_inner "macOS" None b4 "dmg") as I5.
  destruct (take_license "macOS" None b4) as [l5 b5]. simpl in L5, F5, I5. destruct (F5 Hd4) as [Hd5 G5].
  assert (∀ k, k ∉ ["deb"; "appimage"; "rpm"; "dmg"; "linux"; "macOS"] → get k b5 = get k b) as K5.
  { intros k Hk. rewrite G5, G4, G3, G2, G1 by set_solver +Hk. done. }
  assert (get "macOS" b3 = get "macOS" b) as M3 by (rewrite G3, G2, G1 by keys; done).
  destruct (bundle_windows_spec l5 b5) as [L6 F6]; [rewrite K5 by keys; done|].
  destruct (bundle_windows l5 b5) as [l6 b6]. simpl in L6, F6. destruct (F6 Hd5) as [Hd6 G6].
  set (b7 := match l6 with Some l => insert "licenseFile" l b6 | None => b6 end).
  assert (same_but ["licenseFile"] b6 b7) as F7 by (unfold b7; destruct l6; first [apply insert_same_but|apply same_but_refl]).
  destruct (F7 Hd6) as [Hd7 G7]. pose proof (migrate_targets_same_but migrated b7) as F8. destruct (F8 Hd7) as [Hd8 G8].
  split.
  - eapply same_but_weaken; [|exact (same_but_trans _ _ _ _ _ F1 (same_but_trans _ _ _ _ _ F2 (same_but_trans _ _ _ _ _ F3
      (same_but_trans _ _ _ _ _ F4 (same_but_trans _ _ _ _ _ F5 (same_but_trans _ _ _ _ _ F6
        (same_but_trans _ _ _ _ _ F7 F8)))))))]. keys.
  - intros k v Ho Hk Hv.
    destruct (move_into_inner "deb" "linux" b) as (O1 & V1' & J1); [done|keys|done|].
    destruct (move_into_inner "appimage" "linux" b1) as (O2 & V2 & J2); [done|keys|done|].
    destruct (move_into_inner "rpm" "linux" b2) as (O3 & V3 & J3); [done|keys|done|].
    rewrite (inner_ext "linux" k _ b3) by (rewrite G8, G7, G6, G5, G4 by keys; done).
    rewrite !elem_of_cons in Hk. destruct Hk as [->|[->|[->|[]%not_elem_of_nil]]].
    + rewrite J3, J2 by keys. by apply V1'.
    + rewrite J3 by keys. apply V2. by rewrite G1 by keys.
    + apply V3. by rewrite G2, G1 by keys.
  - intros v Ho Hv. destruct (move_into_inner "dmg" "macOS" b3) as (O4 & V4 & J4); [done|keys| |].
    { by rewrite (is_object_at_ext "macOS" _ b). }
    rewrite (inner_ext "macOS" "dmg" _ b5) by (rewrite G8, G7, G6 by keys; done).
    rewrite I5; [apply V4; rewrite G3, G2, G1 by keys; done| |keys].
    apply move_dmg_distinct; [done|]. rewrite M3. done.
  - rewrite G8 by keys. assert (l5 = inner "macOS" "license" b) as ->.
    { rewrite L5. unfold b4. rewrite move_into_license by keys. rewrite (inner_ext "macOS" "license" _ b M3).
      by destruct (inner "macOS" "license" b). }
    assert (∀ j, windows_license j b5 = windows_license j b) as W.
    { intros j. unfold windows_license. by rewrite K5 by keys. }
    rewrite !W in L6. unfold b7. rewrite L6.
    assert (get "licenseFile" b6 = get "licenseFile" b) as E by (rewrite G6, K5 by keys; done).
    destruct (windows_license "nsis" b), (windows_license "wix" b), (inner "macOS" "license" b); simpl; lookup;
      rewrite ?E; try done. by destruct (get "licenseFile" b).
Qed.

Lemma process_bundle_spec m c t :
  get "tauri" c = Some (JObject t) →
  get "tauri" (process_bundle m c) = Some (JObject (swap_remove "bundle" t)) ∧
  same_but ["tauri"; "bundle"] c (process_bundle m c) ∧
  (∀ b, get "bundle" t = Some (JObject b) →
     get "bundle" (process_bundle m c) = Some (JObject (migrate_bundle m b))).
Proof.
  intros Ht. unfold process_bundle, remove. rewrite Ht. destruct (get "bundle" t) as [v|] eqn:Hb.
  - split_and!; [by lookup|eapply same_but_weaken; [|frame]; keys|]. intros b [= ->]. by lookup.
  - split_and!; [by rewrite swap_remove_absent|apply same_but_refl|done].
Qed.

Lemma process_bundle_other m c : (∀ t, get "tauri" c ≠ Some (JObject t)) → process_bundle m c = c.
Proof. intros Ht. unfold process_bundle. destruct (get "tauri" c) as [[| | | | |t]|]; naive_solver. Qed.

Lemma ensure_updater_artifacts_spec plugins c c' :
  ensure_updater_artifacts plugins c = Ok c' →
  same_but ["bundle"] c c' ∧
  (∀ b, get "bundle" c = Some (JObject b) → ∃ b', get "bundle" c' = Some (JObject b') ∧
     same_but ["createUpdaterArtifacts"] b b') ∧
  (contains_key "updater" plugins → ∃ b', get "bundle" c' = Some (JObject b') ∧ contains_key "createUpdaterArtifacts" b').
Proof.
  unfold ensure_updater_artifacts. destruct (contains_key "updater" plugins) eqn:Hu.
  - intros (b & Hb & [= <-])%bind_ok. split_and!; [apply insert_same_but| |].
    + intros b0 Hb0. unfold entry_object in Hb. rewrite Hb0 in Hb. simplify_eq. lookup. eexists. split; [done|].
      destruct (contains_key "createUpdaterArtifacts" b); first [apply same_but_refl|apply insert_same_but].
    + intros _. lookup. eexists. split; [done|]. destruct (contains_key "createUpdaterArtifacts" b) eqn:Hc; [by rewrite Hc|].
      unfold contains_key. by lookup.
  - intros [= <-]. split_and!; [apply same_but_refl| |done]. intros b Hb. exists b. split; [done|apply same_but_refl].
Qed.

(** What is left of the object after its parts were migrated. *)
Record object_migrated (c2 c' : Object) (m : MigratedConfig) (plugins plugins' : Object) : Prop := {
  om_frame : same_but ["plugins"; "tauri"; "app"; "bundle"] c2 c';
  om_no_tauri : distinct c2 → get "tauri" c' = None;
  om_plugins : distinct c2 → get "plugins" c' = Some (JObject plugins');
  om_tauri t : distinct c2 → get "tauri" c2 = Some (JObject t) →
    ∃ t', migrate_tauri t plugins MigratedConfig_default = Ok (t', plugins', m) ∧
      get "app" c' = Some (JObject (swap_remove "bundle" t')) ∧
      ∀ b, get "bundle" t' = Some (JObject b) →
        ∃ b', get "bundle" c' = Some (JObject b') ∧ same_but ["createUpdaterArtifacts"] (migrate_bundle m b) b';
  om_updater : distinct c2 → contains_key "updater" plugins' →
    ∃ b', get "bundle" c' = Some (JObject b') ∧ contains_key "createUpdaterArtifacts" b';
}.

(** The last steps: the plugins are put back, [tauri] becomes [app]. *)
Definition close_object (plugins c : Object) : Object :=
  match remove "tauri" (insert "plugins" (JObject plugins) c) with
  | (Some tauri_config, c) => insert "app" tauri_config c
  | (None, c) => c
  end.

Lemma close_object_spec plugins c :
  distinct c →
  same_but ["plugins"; "tauri"; "app"] c (close_object plugins c) ∧
  get "tauri" (close_object plugins c) = None ∧
  get "plugins" (close_object plugins c) = Some (JObject plugins) ∧
  (∀ v, get "tauri" c = Some v → get "app" (close_object plugins c) = Some v).
Proof.
  intros Hd. unfold close_object, remove. lookup.
  assert (distinct (insert "plugins" (JObject plugins) c)) as Hd' by by apply insert_distinct.
  destruct (get "tauri" c) as [v|] eqn:Ht; (split; [eapply same_but_weaken; [|frame]; keys|]); lookup; naive_solver.
Qed.

Lemma migrate_object_spec c c' m :
  migrate_object c = Ok (c', m) →
  let c2 := process_build (process_package_metadata c) in
  ∃ plugins plugins', entry_object (E := MigrateError) "plugins" c2 = Ok plugins ∧ object_migrated c2 c' m plugins plugins'.
Proof.
  intros H c2. unfold migrate_object in H. fold c2 in H.
  apply bind_ok in H as (plugins & Hp & ([[c4 plugins'] m'] & Ht & (c5 & Hu & H)%bind_ok)%bind_ok).
  exists plugins, plugins'. split; [done|].
  change (Ok (close_object plugins' c5, m') = Ok (E := MigrateError) (c', m)) in H.
  simplify_eq. set (c3 := insert "plugins" (JObject plugins) c2) in *.
  destruct (ensure_updater_artifacts_spec _ _ _ Hu) as (F5 & B5 & U5).
  assert (same_but ["tauri"] c3 c4 ∧ same_but ["tauri"; "bundle"] c4 (process_bundle m c4)) as [F3 F4].
  { destruct (get "tauri" c3) as [v|] eqn:E; [|simplify_eq; split; [apply same_but_refl|
      rewrite process_bundle_other by naive_solver; apply same_but_refl]].
    destruct v as [| | | | |t]; try (simplify_eq; split; [apply same_but_refl|
      rewrite process_bundle_other by naive_solver; apply same_but_refl]).
    apply bind_ok in Ht as ([[t' p'] m''] & _ & Ht). simplify_eq. split; [apply insert_same_but|].
    eapply process_bundle_spec. by lookup. }
  assert (distinct c2 → distinct c5) as Hd5.
  { intros Hd. apply F5, F4, F3. by apply insert_distinct. }
  split.
  - eapply same_but_weaken; [|exact (same_but_trans _ _ _ _ _ (insert_same_but "plugins" (JObject plugins) c2)
      (same_but_trans _ _ _ _ _ F3 (same_but_trans _ _ _ _ _ F4 (same_but_trans _ _ _ _ _ F5
        (λ Hd, proj1 (close_object_spec plugins' c5 Hd) Hd))))) ]. keys.
  - intros Hd. by apply close_object_spec, Hd5.
  - intros Hd. by apply close_object_spec, Hd5.
  - intros t Hd E. assert (get "tauri" c3 = Some (JObject t)) as E3 by (unfold c3; by lookup). rewrite E3 in Ht.
    apply bind_ok in Ht as ([[t' p'] m''] & Ht & [= <- <- <-]). exists t'. split; [done|].
    destruct (process_bundle_spec m'' (insert "tauri" (JObject t') c3) t') as (T4 & _ & B4); [by lookup|].
    assert (distinct (process_bundle m'' (insert "tauri" (JObject t') c3))) as Hd4 by (apply F4, F3; by apply insert_distinct).
    destruct (F5 Hd4) as [_ G5]. destruct (close_object_spec p' c5 (Hd5 Hd)) as (Fc & _ & _ & Ac).
    destruct (Fc (Hd5 Hd)) as [_ Gc].
    split; [apply Ac; rewrite G5 by keys; exact T4|]. intros b Hb. rewrite Gc by keys. apply B5. by apply B4.
  - intros Hd Hk. destruct (close_object_spec plugins' c5 (Hd5 Hd)) as (Fc & _). destruct (Fc (Hd5 Hd)) as [_ Gc].
    rewrite Gc by keys. by apply U5.
Qed.

(** ** The migrated configuration *)
Fixpoint at_path (p : list string) (v : json) : option json :=
  match p, v with
  | [], _ => Some v
  | k :: p, JObject m => get k m ≫= at_path p
  | _, _ => None
  end.

(** Every object has each key once. *)
Definition well_formed (v : json) : Prop := ∀ p o, at_path p v = Some (JObject o) → distinct o.

Definition moves : list (list string * list string) :=
  [(["package"; "productName"], ["productName"]);
   (["package"; "productName"], ["mainBinaryName"]);
   (["package"; "version"], ["version"]);
   (["tauri"; "bundle"; "identifier"], ["identifier"]);
   (["build"; "distDir"], ["build"; "frontendDist"]);
   (["tauri"; "pattern"], ["app"; "security"; "pattern"]);
   (["tauri"; "systemTray"], ["app"; "trayIcon"]);
   (["tauri"; "cli"], ["plugins"; "cli"]);
   (["tauri"; "bundle"; "deb"], ["bundle"; "linux"; "deb"]);
   (["tauri"; "bundle"; "appimage"], ["bundle"; "linux"; "appimage"]);
   (["tauri"; "bundle"; "rpm"], ["bundle"; "linux"; "rpm"]);
   (["tauri"; "bundle"; "dmg"], ["bundle"; "macOS"; "dmg"])].

(** Where an object is expected, what is there is one. *)
Definition expected_shapes (c : Object) : Prop :=
  ∀ p v, p ∈ [["tauri"; "security"]; ["tauri"; "bundle"; "linux"]; ["tauri"; "bundle"; "macOS"]; ["tauri"; "cli"]] →
    at_path p (JObject c) = Some v → ∃ o, v = JObject o.

Lemma at_path_cons k p m v :
  at_path (k :: p) (JObject m) = Some v ↔ ∃ x, get k m = Some x ∧ at_path p x = Some v.
Proof. simpl. by rewrite bind_Some. Qed.

Lemma well_formed_get m k o : well_formed (JObject m) → get k m = Some (JObject o) → well_formed (JObject o).
Proof. intros Hw Hg p o' Ho. apply (Hw (k :: p)). apply at_path_cons. eauto. Qed.

Lemma well_formed_distinct m : well_formed (JObject m) → distinct m.
Proof. intros Hw. by apply (Hw []). Qed.

Lemma at_path_object k p m v : at_path (k :: p) m = Some v → ∃ o, m = JObject o.
Proof. destruct m; try done. eauto. Qed.

Lemma is_object_at_shape k m :
  (∀ v, get k m = Some v → ∃ o, v = JObject o) → is_object_at k m.
Proof. unfold is_object_at. destruct (get k m) as [v|]; [|done]. intros H. by destruct (H v eq_refl) as [o ->]. Qed.

Lemma inner_path k j m v : inner k j m = Some v → at_path [k; j] (JObject m) = Some v.
Proof. unfold inner. intros H. apply at_path_cons. repeat case_match; try done. eexists. split; [done|]. simpl. by rewrite H. Qed.

Lemma prepared_object c :
  distinct c →
  let c2 := process_build (process_package_metadata c) in
  distinct c2 ∧ (∀ k, k ∉ metadata_keys ++ ["build"; "tauri"] → get k c2 = get k c) ∧
  (∀ k, k ∈ ["productName"; "mainBinaryName"; "version"; "identifier"] → get k c2 = get k (process_package_metadata c)) ∧
  (∀ b, get "build" c = Some (JObject b) → get "build" c2 = Some (JObject (migrated_build b))) ∧
  (∀ t, get "tauri" c = Some (JObject t) → ∃ t2, get "tauri" c2 = Some (JObject t2) ∧
     same_but ("bundle" :: global_keys) t t2 ∧
     (distinct t → ∀ b, get "bundle" t = Some (JObject b) → get "bundle" t2 = Some (JObject (swap_remove "identifier" b)))).
Proof.
  intros Hd c2. destruct (process_package_metadata_same_but c Hd) as [Hd1 G1].
  destruct (process_build_same_but (process_package_metadata c) Hd1) as [Hd2 G2].
  destruct (process_package_metadata_tauri c Hd) as [T1 _].
  split_and!; [done| | | |].
  - intros k Hk. unfold c2. rewrite G2, G1; set_solver +Hk.
  - intros k Hk. apply G2. rewrite !elem_of_cons in Hk. destruct Hk as [->|[->|[->|[->|[]%not_elem_of_nil]]]]; keys.
  - intros b Hb. apply process_build_build; [done|]. by rewrite G1 by keys.
  - intros t Ht. destruct (T1 t Ht) as [T2 _].
    destruct (process_build_tauri _ _ Hd1 T2) as (t2 & H2 & F2 & _). exists t2. split; [done|]. split.
    + eapply same_but_weaken; [|eapply same_but_trans; [apply (update_object_same_but "bundle")|exact F2]]. keys.
    + intros Hdt b Hb. destruct (update_object_same_but "bundle" (swap_remove "identifier") t Hdt) as [Hdt' _].
      destruct (F2 Hdt') as [_ G]. rewrite G by keys. unfold without_identifier, update_object. rewrite Hb. by lookup.
Qed.

Lemma bundle_distinct_wf b : well_formed (JObject b) → bundle_distinct (swap_remove "identifier" b).
Proof.
  intros Hw. pose proof (well_formed_distinct _ Hw) as Hd.
  split_and!; [by apply swap_remove_distinct| |]; intros o; lookup; intros Ho;
    apply well_formed_distinct; by eapply well_formed_get.
Qed.

Lemma migrated_tauri_part c c' m t :
  well_formed (JObject c) → migrate_object c = Ok (c', m) → get "tauri" c = Some (JObject t) →
  ∃ plugins plugins' t2 t',
    tauri_migrated t2 plugins t' plugins' m ∧ same_but ("bundle" :: global_keys) t t2 ∧
    distinct t2 ∧ distinct t' ∧ distinct plugins ∧
    get "plugins" c' = Some (JObject plugins') ∧ get "app" c' = Some (JObject (swap_remove "bundle" t')) ∧
    ∀ b, get "bundle" t = Some (JObject b) → ∃ b1 b', get "bundle" c' = Some (JObject b') ∧
      bundle_migrated (swap_remove "identifier" b) b1 ∧ distinct b1 ∧ same_but ["createUpdaterArtifacts"] b1 b'.
Proof.
  intros Hw Hm Ht. pose proof (well_formed_distinct _ Hw) as Hd.
  pose proof (well_formed_get _ _ _ Hw Ht) as Hwt. pose proof (well_formed_distinct _ Hwt) as Hdt.
  destruct (prepared_object c Hd) as (Hd2 & K2 & _ & _ & T2). destruct (T2 t Ht) as (t2 & E2 & F2 & B2).
  destruct (F2 Hdt) as [Hdt2 G2].
  destruct (migrate_object_spec c c' m Hm) as (plugins & plugins' & Hp & Ho).
  destruct (om_tauri _ _ _ _ _ Ho t2 Hd2 E2) as (t' & Hmt & Happ & Hb').
  pose proof (migrate_tauri_spec _ _ _ _ _ _ Hdt2 Hmt) as Htm. destruct (tm_frame _ _ _ _ _ Htm Hdt2) as [Hdt' Gt].
  exists plugins, plugins', t2, t'. split_and!; [done|done|done|done| |by apply (om_plugins _ _ _ _ _ Ho)|done|].
  - unfold entry_object in Hp. rewrite K2 in Hp by keys. destruct (get "plugins" c) as [[| | | | |o]|] eqn:E; simplify_eq.
    + exact (well_formed_distinct _ (well_formed_get _ _ _ Hw E)).
    + constructor.
  - intros b Hb. pose proof (well_formed_get _ _ _ Hwt Hb) as Hwb.
    destruct (Hb' (swap_remove "identifier" b)) as (b' & Hc' & Fb); [rewrite Gt by keys; by apply B2|].
    pose proof (migrate_bundle_spec m _ (bundle_distinct_wf b Hwb)) as Hbm.
    exists (migrate_bundle m (swap_remove "identifier" b)), b'. split_and!; [done|done| |done].
    apply (bm_frame _ _ Hbm). by apply bundle_distinct_wf.
Qed.

Lemma migrated_bundle_move c c' m t b k platform v :
  well_formed (JObject c) → expected_shapes c → migrate_object c = Ok (c', m) →
  get "tauri" c = Some (JObject t) → get "bundle" t = Some (JObject b) → get k b = Some v →
  (k, platform) ∈ [("deb", "linux"); ("appimage", "linux"); ("rpm", "linux"); ("dmg", "macOS")] →
  at_path ["bundle"; platform; k] (JObject c') = Some v.
Proof.
  intros Hw Hs Hm Ht Hb Hk Hin.
  destruct (migrated_tauri_part _ _ _ _ Hw Hm Ht) as (_ & _ & _ & _ & _ & _ & _ & _ & _ & _ & _ & H).
  destruct (H b Hb) as (b1 & b' & Hb' & Hbm & Hd1 & Fb). destruct (Fb Hd1) as [_ Gb].
  assert (distinct b) as Hdb by (apply well_formed_distinct; do 2 (eapply well_formed_get; [|done]); done).
  assert (∀ p, p ∈ ["linux"; "macOS"] → is_object_at p (swap_remove "identifier" b)) as Hobj.
  { intros p Hp. apply is_object_at_shape. intros x Hx.
    assert (p ≠ "identifier") by (intros ->; vm_compute in Hp; set_solver +Hp).
    rewrite get_swap_remove, decide_False in Hx by done.
    apply (Hs ["tauri"; "bundle"; p]); [set_solver +Hp|]. simpl. rewrite Ht. simpl. rewrite Hb. simpl. by rewrite Hx. }
  apply at_path_cons. exists (JObject b'). split; [done|]. apply inner_path.
  rewrite (inner_ext platform k b' b1).
  - rewrite !elem_of_cons in Hin. destruct Hin as [[= -> ->]|[[= -> ->]|[[= -> ->]|[[= -> ->]|[]%not_elem_of_nil]]]];
      first [apply (bm_linux _ _ Hbm) | apply (bm_dmg _ _ Hbm)]; try (by apply Hobj; keys); try keys; by lookup.
  - apply Gb. rewrite !elem_of_cons in Hin.
    destruct Hin as [[= -> ->]|[[= -> ->]|[[= -> ->]|[[= -> ->]|[]%not_elem_of_nil]]]]; keys.
Qed.

Lemma migrate_config_object c v m :
  migrate_config (JObject c) = Ok (v, m) → ∃ c', v = JObject c' ∧ migrate_object c = Ok (c', m).
Proof. unfold migrate_config. intros ([c' m'] & H & [= <- <-])%bind_ok. eauto. Qed.

Lemma package_move c c' m old new v :
  well_formed (JObject c) → migrate_object c = Ok (c', m) →
  (old, new) ∈ [("productName", "productName"); ("productName", "mainBinaryName"); ("version", "version")] →
  at_path ["package"; old] (JObject c) = Some v → get new c' = Some v.
Proof.
  intros Hw Hm Hin (x & Hp & Hv)%at_path_cons. destruct (at_path_object _ _ _ _ Hv) as [p ->].
  simpl in Hv. rewrite bind_Some in Hv. destruct Hv as (v' & Hv & [= ->]).
  pose proof (well_formed_distinct _ Hw) as Hd. pose proof (well_formed_distinct _ (well_formed_get _ _ _ Hw Hp)) as Hdp.
  destruct (process_package_metadata_moves c p Hd Hdp Hp) as [Hn Hver].
  destruct (prepared_object c Hd) as (Hd2 & _ & P2 & _). destruct (migrate_object_spec c c' m Hm) as (pl & pl' & _ & Ho).
  destruct (om_frame _ _ _ _ _ Ho Hd2) as [_ G].
  rewrite !elem_of_cons in Hin. destruct Hin as [[= -> ->]|[[= -> ->]|[[= -> ->]|[]%not_elem_of_nil]]];
    rewrite G, P2 by keys; naive_solver.
Qed.

Lemma identifier_move c c' m t b v :
  well_formed (JObject c) → migrate_object c = Ok (c', m) →
  get "tauri" c = Some (JObject t) → get "bundle" t = Some (JObject b) → get "identifier" b = Some v →
  get "identifier" c' = Some v.
Proof.
  intros Hw Hm Ht Hb Hv. pose proof (well_formed_distinct _ Hw) as Hd.
  destruct (process_package_metadata_tauri c Hd) as [T _]. destruct (T t Ht) as [_ Hi].
  destruct (prepared_object c Hd) as (Hd2 & _ & P2 & _). destruct (migrate_object_spec c c' m Hm) as (pl & pl' & _ & Ho).
  destruct (om_frame _ _ _ _ _ Ho Hd2) as [_ G]. rewrite G, P2 by keys. by eapply Hi.
Qed.

Lemma build_move c c' m b :
  well_formed (JObject c) → migrate_object c = Ok (c', m) → get "build" c = Some (JObject b) →
  get "build" c' = Some (JObject (migrated_build b)).
Proof.
  intros Hw Hm Hb. pose proof (well_formed_distinct _ Hw) as Hd.
  destruct (prepared_object c Hd) as (Hd2 & _ & _ & B2 & _). destruct (migrate_object_spec c c' m Hm) as (pl & pl' & _ & Ho).
  destruct (om_frame _ _ _ _ _ Ho Hd2) as [_ G]. rewrite G by keys. by apply B2.
Qed.

Lemma tauri_move c c' m t old new v :
  well_formed (JObject c) → expected_shapes c → migrate_object c = Ok (c', m) → get "tauri" c = Some (JObject t) →
  (old, new) ∈ [("pattern", ["app"; "security"; "pattern"]); ("systemTray", ["app"; "trayIcon"]); ("cli", ["plugins"; "cli"])] →
  get old t = Some v → at_path new (JObject c') = Some v.
Proof.
  intros Hw Hs Hm Ht Hin Hv.
  destruct (migrated_tauri_part _ _ _ _ Hw Hm Ht) as (pl & pl' & t2 & t' & Htm & F2 & Hd2 & Hd' & Hdp & Hp & Happ & _).
  pose proof (well_formed_distinct _ (well_formed_get _ _ _ Hw Ht)) as Hdt. destruct (F2 Hdt) as [_ G2].
  assert (∀ k, k ∈ ["security"; "cli"] → ∀ x, get k t = Some x → ∃ o, x = JObject o) as Hsh.
  { intros k Hk x Hx. apply (Hs ["tauri"; k]); [set_solver +Hk|]. simpl. rewrite Ht. simpl. by rewrite Hx. }
  rewrite !elem_of_cons in Hin. destruct Hin as [[= -> ->]|[[= -> ->]|[[= -> ->]|[]%not_elem_of_nil]]].
  - destruct (tm_pattern _ _ _ _ _ Htm v) as (s & Hse & Hpa); [by rewrite G2 by keys| |].
    { apply is_object_at_shape. rewrite G2 by keys. apply Hsh. keys. }
    simpl. rewrite Happ. simpl. lookup. rewrite Hse. simpl. by rewrite Hpa.
  - simpl. rewrite Happ. simpl. lookup. by rewrite (tm_tray _ _ _ _ _ Htm v) by (rewrite G2 by keys; done).
  - destruct (Hsh "cli" ltac:(keys) v Hv) as [o ->]. simpl. rewrite Hp. simpl.
    by rewrite (tm_cli _ _ _ _ _ Htm o) by (first [done|rewrite G2 by keys; done]).
Qed.

Definition top_keys : list string :=
  metadata_keys ++ ["build"; "tauri"; "plugins"; "app"; "bundle"].

Lemma top_level_kept c c' m k :
  well_formed (JObject c) → migrate_object c = Ok (c', m) → k ∉ top_keys → get k c' = get k c.
Proof.
  intros Hw Hm Hk. pose proof (well_formed_distinct _ Hw) as Hd.
  destruct (prepared_object c Hd) as (Hd2 & K2 & _). destruct (migrate_object_spec c c' m Hm) as (pl & pl' & _ & Ho).
  destruct (om_frame _ _ _ _ _ Ho Hd2) as [_ G]. unfold top_keys in Hk. rewrite G, K2; set_solver +Hk.
Qed.

Lemma no_tauri_left c c' m : well_formed (JObject c) → migrate_object c = Ok (c', m) → get "tauri" c' = None.
Proof.
  intros Hw Hm. pose proof (well_formed_distinct _ Hw) as Hd.
  destruct (prepared_object c Hd) as (Hd2 & _). destruct (migrate_object_spec c c' m Hm) as (pl & pl' & _ & Ho).
  by apply (om_no_tauri _ _ _ _ _ Ho).
Qed.

(** What becomes of the object [tauri] and of its bundle. *)
Definition tauri_kept (t : Object) (v : json) : Prop :=
  (∀ k, k ∉ "bundle" :: global_keys ++ tauri_keys → at_path ["app"; k] v = get k t) ∧
  (∀ ws, get "windows" t = Some (JArray ws) →
     at_path ["app"; "windows"] v = Some (JArray (set_scheme (negb (dangerous_use_http t)) <$> ws))) ∧
  (∀ u k, get "updater" t = Some (JObject u) → updater_migrated u = true → k ∉ ["dialog"; "active"] →
     at_path ["plugins"; "updater"; k] v = get k u) ∧
  (∀ b, get "bundle" t = Some (JObject b) →
     (∀ k, k ∉ "identifier" :: bundle_keys → at_path ["bundle"; k] v = get k b) ∧
     at_path ["bundle"; "licenseFile"] v =
       first_of [windows_license "nsis" b; windows_license "wix" b; inner "macOS" "license" b; get "licenseFile" b]).

Lemma at_path_key k m : at_path [k] (JObject m) = get k m.
Proof. simpl. by destruct (get k m). Qed.

Lemma at_path_two k j m o : get k m = Some (JObject o) → at_path [k; j] (JObject m) = get j o.
Proof. intros H. simpl. rewrite H. simpl. by destruct (get j o). Qed.

Lemma migrated_tauri_kept c c' m t :
  well_formed (JObject c) → migrate_object c = Ok (c', m) → get "tauri" c = Some (JObject t) → tauri_kept t (JObject c').
Proof.
  intros Hw Hm Ht.
  destruct (migrated_tauri_part _ _ _ _ Hw Hm Ht) as (pl & pl' & t2 & t' & Htm & F2 & Hd2 & Hd' & Hdp & Hp & Happ & HB).
  pose proof (well_formed_get _ _ _ Hw Ht) as Hwt. destruct (F2 (well_formed_distinct _ Hwt)) as [_ G2].
  destruct (tm_frame _ _ _ _ _ Htm Hd2) as [_ Gt].
  split_and!.
  - intros k Hk. rewrite (at_path_two _ _ _ _ Happ), get_swap_remove, decide_False by first [done|set_solver +Hk].
    rewrite Gt, G2; set_solver +Hk.
  - intros ws Hws. rewrite (at_path_two _ _ _ _ Happ). lookup.
    rewrite (tm_windows _ _ _ _ _ Htm ws) by (rewrite G2 by keys; done). unfold dangerous_use_http.
    by rewrite G2 by keys.
  - intros u k Hu Hm' Hk. pose proof (well_formed_distinct _ (well_formed_get _ _ _ Hwt Hu)) as Hdu.
    destruct (tm_updater _ _ _ _ _ Htm u) as [(u' & Hu' & Fu) _]; [by rewrite G2 by keys|done|done|].
    destruct (Fu Hdu) as [_ Gu]. simpl. rewrite Hp. simpl. rewrite Hu'. simpl. rewrite Gu by done. by destruct (get k u).
  - intros b Hb. pose proof (well_formed_distinct _ (well_formed_get _ _ _ Hwt Hb)) as Hdb.
    destruct (HB b Hb) as (b1 & b' & Hb' & Hbm & Hd1 & Fb). destruct (Fb Hd1) as [_ Gb].
    assert (distinct (swap_remove "identifier" b)) as Hdi by by apply swap_remove_distinct.
    destruct (bm_frame _ _ Hbm Hdi) as [_ G1]. split.
    + intros k Hk. rewrite (at_path_two _ _ _ _ Hb'), Gb, G1, get_swap_remove, decide_False; first [done|set_solver +Hk].
    + rewrite (at_path_two _ _ _ _ Hb'), Gb, (bm_license _ _ Hbm) by keys.
      unfold windows_license, inner. by lookup.
Qed.

(** A path of two or three keys goes through objects. *)
Lemma at_path_2 k j c x : at_path [k; j] (JObject c) = Some x → ∃ o, get k c = Some (JObject o) ∧ get j o = Some x.
Proof.
  intros (y & Hy & H)%at_path_cons. destruct (at_path_object _ _ _ _ H) as [o ->]. rewrite at_path_key in H. eauto.
Qed.

Lemma at_path_3 k j i c x :
  at_path [k; j; i] (JObject c) = Some x →
  ∃ o o', get k c = Some (JObject o) ∧ get j o = Some (JObject o') ∧ get i o' = Some x.
Proof.
  intros (y & Hy & H)%at_path_cons. destruct (at_path_object _ _ _ _ H) as [o ->].
  apply at_path_2 in H as (o' & Ho' & H). eauto.
Qed.

Lemma moved c c' m :
  well_formed (JObject c) → expected_shapes c → migrate_object c = Ok (c', m) →
  Forall (λ r, ∀ x, at_path r.1 (JObject c) = Some x → at_path r.2 (JObject c') = Some x) moves.
Proof.
  intros Hw Hs Hm. unfold moves. repeat apply Forall_cons_2; try apply Forall_nil_2; simpl fst; simpl snd; intros x Hx.
  1-3: rewrite at_path_key; eapply package_move; [done|done| |done]; keys.
  3-5: apply at_path_2 in Hx as (t & Ht & Hx); eapply tauri_move; [done|done|done|done| |done]; set_solver.
  3-6: apply at_path_3 in Hx as (t & b & Ht & Hb & Hx); eapply migrated_bundle_move; [done|done|done|done|done|done|keys].
  - apply at_path_3 in Hx as (t & b & Ht & Hb & Hx). rewrite at_path_key. by eapply identifier_move.
  - apply at_path_2 in Hx as (b & Hb & Hx).
    rewrite (at_path_two _ _ _ _ (build_move _ _ _ _ Hw Hm Hb)). apply process_build_dist; [|done].
    exact (well_formed_distinct _ (well_formed_get _ _ _ Hw Hb)).
Qed.

(** C17. A migration that succeeds moves every setting of the table to its new
    place with its value, keeps the settings that are not named, and leaves no
    object [tauri]: its windows get their scheme, an updater that is active or
    has a key becomes a plugin, and the license of an installer that is named
    last becomes the license of the bundle. *)
Theorem migrate_config_moves c v m :
  well_formed (JObject c) → expected_shapes c → migrate_config (JObject c) = Ok (v, m) →
  (∀ old new x, (old, new) ∈ moves → at_path old (JObject c) = Some x → at_path new v = Some x) ∧
  (∀ k, k ∉ top_keys → at_path [k] v = get k c) ∧
  at_path ["tauri"] v = None ∧
  (∀ t, get "tauri" c = Some (JObject t) → tauri_kept t v).
Proof.
  intros Hw Hs (c' & -> & Hm)%migrate_config_object. split_and!.
  - intros old new x Hin. pose proof (moved c c' m Hw Hs Hm) as Hall. rewrite Forall_forall in Hall.
    exact (Hall (old, new) Hin x).
  - intros k Hk. rewrite at_path_key. by eapply top_level_kept.
  - rewrite at_path_key. by eapply no_tauri_left.
  - intros t Ht. by eapply migrated_tauri_kept.
Qed.

(** ** Migrating twice *)
Definition old_build_keys : list string :=
  ["distDir"; "dist-dir"; "devPath"; "dev-path"; "withGlobalTauri"; "with-global-tauri"].

Definition spelled_once (b : Object) : Prop :=
  (get "distDir" b = None ∨ get "dist-dir" b = None) ∧ (get "devPath" b = None ∨ get "dev-path" b = None) ∧
  (get "withGlobalTauri" b = None ∨ get "with-global-tauri" b = None).

Lemma rename_dev_path_gone b :
  distinct b → get "devPath" b = None ∨ get "dev-path" b = None →
  get "devPath" (rename_dev_path b) = None ∧ get "dev-path" (rename_dev_path b) = None.
Proof.
  intros Hd Hn. pose proof (remove_either_gone "devPath" "devUrl" "dev-path" "dev-url" b Hd Hn) as Hg.
  pose proof (rename_either_gone "devPath" "devUrl" "dev-path" "dev-url" b Hd Hn ltac:(keys) ltac:(keys)) as Hg'.
  unfold rename_dev_path. unfold rename_either in Hg'. destruct (remove_either _ _ _ _ b) as [[[v j]|] b1]; [|done].
  by destruct (url_parses _).
Qed.

Lemma migrated_build_gone b :
  distinct b → spelled_once b → ∀ k, k ∈ old_build_keys → get k (migrated_build b) = None.
Proof.
  intros Hd (H1 & H2 & H3).
  pose proof (rename_either_gone "distDir" "frontendDist" "dist-dir" "frontend-dist" b Hd H1 ltac:(keys) ltac:(keys)) as [D1 D2].
  destruct (rename_either_same_but "distDir" "frontendDist" "dist-dir" "frontend-dist" b Hd) as [Hd1 G1].
  destruct (rename_dev_path_gone (rename_either "distDir" "frontendDist" "dist-dir" "frontend-dist" b) Hd1) as [P1 P2];
    [by rewrite !G1 by keys|].
  destruct (rename_dev_path_same_but _ Hd1) as [Hd2 G2]. fold (renamed_build b) in P1, P2, Hd2, G2.
  destruct (remove_either_gone "withGlobalTauri" "withGlobalTauri" "with-global-tauri" "with-global-tauri" _ Hd2) as [W1 W2];
    [by rewrite !G2, !G1 by keys|].
  destruct (remove_either_same_but "withGlobalTauri" "withGlobalTauri" "with-global-tauri" "with-global-tauri" _ Hd2) as [_ G3].
  intros k Hk. unfold old_build_keys in Hk. rewrite !elem_of_cons in Hk. unfold migrated_build.
  destruct Hk as [->|[->|[->|[->|[->|[->|[]%not_elem_of_nil]]]]]]; rewrite ?G3, ?G2 by keys; done.
Qed.

Lemma process_build_migrated c b :
  get "build" c = Some (JObject b) → (∀ k, k ∈ old_build_keys → get k b = None) → process_build c = c.
Proof.
  intros Hb Hk. unfold process_build, rename_either, rename_dev_path. rewrite Hb.
  rewrite (remove_either_none "distDir"), (remove_either_none "devPath"), (remove_either_none "withGlobalTauri")
    by (apply Hk; keys).
  by apply insert_same.
Qed.

Lemma process_build_no_object c : (∀ b, get "build" c ≠ Some (JObject b)) → process_build c = c.
Proof. intros H. unfold process_build. destruct (get "build" c) as [[| | | | |b]|]; naive_solver. Qed.

Lemma process_package_metadata_none c :
  get "package" c = None → get "tauri" c = None → process_package_metadata c = c.
Proof.
  intros Hp Ht. unfold process_package_metadata, remove. rewrite Hp, swap_remove_absent by done.
  unfold move_identifier. by rewrite Ht.
Qed.

Lemma no_package_left c c' m :
  well_formed (JObject c) → migrate_object c = Ok (c', m) → get "package" c' = None.
Proof.
  intros Hw Hm. pose proof (well_formed_distinct _ Hw) as Hd.
  destruct (prepared_object c Hd) as (Hd2 & _). destruct (migrate_object_spec c c' m Hm) as (pl & pl' & _ & Ho).
  destruct (om_frame _ _ _ _ _ Ho Hd2) as [_ G]. rewrite G by keys.
  destruct (process_package_metadata_same_but c Hd) as [Hd1 _].
  destruct (process_build_same_but (process_package_metadata c) Hd1) as [_ G2]. rewrite G2 by keys.
  unfold process_package_metadata, remove.
  assert (distinct (swap_remove "package" c)) as Hdr by by apply swap_remove_distinct.
  set (c1 := match _ with Some (JObject p) => _ | _ => _ end).
  assert (distinct c1 ∧ get "package" c1 = get "package" (swap_remove "package" c)) as [Hdc1 Hc1].
  { unfold c1. repeat case_match; try done. destruct (move_package_same_but m0 _ Hdr) as [? ->]; [done|keys]. }
  destruct (move_identifier_same_but c1 Hdc1) as [_ ->]; [|keys]. rewrite Hc1. by lookup.
Qed.

Lemma build_left c c' m b' :
  well_formed (JObject c) → migrate_object c = Ok (c', m) → get "build" c' = Some (JObject b') →
  ∃ b, get "build" c = Some (JObject b) ∧ b' = migrated_build b.
Proof.
  intros Hw Hm Hb'. destruct (object_or_not "build" c) as [[b Hb]|Hn].
  - exists b. split; [done|]. rewrite (build_move _ _ _ _ Hw Hm Hb) in Hb'. congruence.
  - exfalso. pose proof (well_formed_distinct _ Hw) as Hd.
    destruct (prepared_object c Hd) as (Hd2 & _). destruct (migrate_object_spec c c' m Hm) as (pl & pl' & _ & Ho).
    destruct (om_frame _ _ _ _ _ Ho Hd2) as [_ G]. rewrite G in Hb' by keys.
    destruct (process_package_metadata_same_but c Hd) as [Hd1 G1].
    assert (get "build" (process_package_metadata c) = get "build" c) as E by (apply G1; keys).
    rewrite process_build_no_object in Hb'; [|intros b]; rewrite E in *; by eapply Hn.
Qed.

(** Migrating a configuration that was migrated changes nothing and migrates
    nothing, if the settings of the build are not spelled in both ways. *)
Theorem migrate_config_idempotent c v m :
  well_formed (JObject c) → (∀ b, get "build" c = Some (JObject b) → spelled_once b) →
  migrate_config (JObject c) = Ok (v, m) → migrate_config v = Ok (v, MigratedConfig_default).
Proof.
  intros Hw Hs (c' & -> & Hm)%migrate_config_object.
  pose proof (no_tauri_left _ _ _ Hw Hm) as Ht. pose proof (no_package_left _ _ _ Hw Hm) as Hp.
  assert (process_build c' = c') as Hb.
  { destruct (object_or_not "build" c') as [[b' Hb']|Hn]; [|by apply process_build_no_object].
    destruct (build_left _ _ _ _ Hw Hm Hb') as (b & Hb & ->). apply (process_build_migrated _ _ Hb').
    apply migrated_build_gone; [|by apply Hs]. exact (well_formed_distinct _ (well_formed_get _ _ _ Hw Hb)). }
  destruct (prepared_object c (well_formed_distinct _ Hw)) as (Hd2 & _).
  destruct (migrate_object_spec c c' m Hm) as (pl & pl' & _ & Ho).
  pose proof (om_plugins _ _ _ _ _ Ho Hd2) as Hpl.
  assert (ensure_updater_artifacts pl' c' = Ok c') as Hu.
  { unfold ensure_updater_artifacts. destruct (contains_key "updater" pl') eqn:E; [|done].
    destruct (om_updater _ _ _ _ _ Ho Hd2) as (b & Hbu & Hk); [by rewrite E|].
    unfold entry_object. rewrite Hbu. simpl. apply Is_true_true in Hk. rewrite Hk. by rewrite insert_same. }
  unfold migrate_config, migrate_object. rewrite process_package_metadata_none, Hb by done.
  unfold entry_object. rewrite Hpl. simpl. rewrite (insert_same _ _ _ Hpl), Ht. simpl.
  rewrite process_bundle_other by (intros t; by rewrite Ht). rewrite Hu. simpl.
  rewrite (insert_same _ _ _ Hpl). unfold remove. rewrite Ht. by rewrite swap_remove_absent.
Qed.

(** ** Permissions *)
Definition id_of (name : string) : Identifier := default (mk_identifier "" None) (ok (try_from name)).

Definition core_plugin (plugin : string) : bool := starts_with CORE_PLUGIN_IDENTIFIER_PREFIX plugin.

(** A name that can be used: it is an identifier, and the known plugin its text
    starts with is its prefix. *)
Definition good_name (name : string) : bool :=
  match ok (try_from name) with
  | Some id =>
      match get_prefix id with
      | Some plugin =>
          bool_decide (plugin_of (PermissionRef id) = if decide (plugin ∈ KNOWN_PLUGINS) then Some plugin else None) &&
          (bool_decide (plugin ∈ KNOWN_PLUGINS) || core_plugin plugin)
      | None => false
      end
  | None => false
  end.

Lemma permission_id_good {E} name : good_name name = true → permission_id (E := E) name = Ok (id_of name).
Proof. unfold good_name, permission_id, id_of. by destruct (ok (try_from name)). Qed.

(** An entry whose identifier is a good name. *)
Definition named (e : PermissionEntry) : Prop :=
  ∃ name, good_name name = true ∧ PermissionEntry_identifier e = id_of name.

Lemma named_plugin e :
  named e → ∃ plugin, get_prefix (PermissionEntry_identifier e) = Some plugin ∧
    plugin_of e = (if decide (plugin ∈ KNOWN_PLUGINS) then Some plugin else None) ∧
    (plugin ∈ KNOWN_PLUGINS ∨ core_plugin plugin = true).
Proof.
  intros (name & Hg & He). unfold plugin_of. rewrite He. clear He. unfold good_name, plugin_of, id_of in *.
  destruct (ok (try_from name)) as [id|]; [|done]. simpl in *. destruct (get_prefix id) as [plugin|]; [|done].
  apply andb_true_iff in Hg as [H1%bool_decide_eq_true H2]. exists plugin. split_and!; [done|done|].
  apply orb_true_iff in H2 as [H2%bool_decide_eq_true|H2]; auto.
Qed.

(** A step that appends named entries; [quiet] says it appends none. *)
Definition appends {E} (quiet : Prop) (l : list PermissionEntry) (r : outcome E (list PermissionEntry)) : Prop :=
  ∃ l', r = Ok (l ++ l') ∧ Forall named l' ∧ (quiet → l' = []).

Lemma appends_bind {E} q q' l (r : outcome E (list PermissionEntry)) f :
  appends q l r → (∀ l1, appends q' l1 (f l1)) → appends (q ∧ q') l (r ≫= f).
Proof.
  intros (l1 & -> & N1 & Q1) Hf. simpl. destruct (Hf (l ++ l1)) as (l2 & -> & N2 & Q2).
  exists (l1 ++ l2). rewrite app_assoc. split_and!; [done|by apply Forall_app|]. intros [H1 H2]. by rewrite Q1, Q2.
Qed.

Lemma appends_none {E} q l : appends (E := E) q l (Ok l).
Proof. exists []. by rewrite app_nil_r. Qed.

Lemma appends_entry {E} (q : Prop) l e : named e → (q → False) → appends (E := E) q l (Ok (l ++ [e])).
Proof. intros He Hq. exists [e]. split_and!; [done|by repeat constructor|]. intros H. destruct (Hq H). Qed.

Lemma appends_permission {E} all l x :
  good_name x.2 = true → appends (E := E) (all || x.1.1 || x.1.2 = false) l (permission all l x).
Proof.
  destruct x as [[o f] name]. simpl. intros Hg. destruct (all || o || f) eqn:Ho; [|apply appends_none].
  rewrite permission_id_good by done. simpl. apply appends_entry; [by exists name|done].
Qed.

Lemma appends_fields {E} all rows l :
  forallb (λ x, good_name x.2) rows = true →
  appends (E := E) (Forall (λ x, all || x.1.1 || x.1.2 = false) rows) l (for_each (permission all) rows l).
Proof.
  revert l. induction rows as [|x rows IH]; intros l Hg; cbn [for_each]; [apply appends_none|].
  cbn [forallb] in Hg. apply andb_true_iff in Hg as [H1 H2].
  destruct (appends_bind _ _ l _ (for_each (permission all) rows) (appends_permission (E := E) all l x H1) (λ l1, IH l1 H2))
    as (l' & Hr & Hn & Hq).
  exists l'. split_and!; [done|done|]. intros Hf%Forall_cons. by apply Hq.
Qed.

Lemma appends_extended {E} (q : Prop) l name allow deny :
  good_name name = true → (q → False) →
  appends (E := E) q l (e ← extended name allow deny; Ok (l ++ [e])).
Proof.
  intros Hg Hq. unfold extended. rewrite permission_id_good by done. simpl. apply appends_entry; [by exists name|done].
Qed.

(** An allowlist that allows nothing. *)
Definition allows_nothing (a : AllowlistConfig ShellAllowedCommand) : Prop :=
  Forall (λ x, all a || x.1.1 || x.1.2 = false)
    (fs_fields (fs a) ++ window_fields (window a) ++ dialog_fields (dialog a) ++ last_fields a ++
     [(shell_all (shell a), shell_execute (shell a), ""); (shell_all (shell a), shell_sidecar (shell a), "");
      (http_all (http a), http_request (http a), "")]) ∧
  shell_open (shell a) = Some false ∧ shell_scope (shell a) = [] ∧ http_scope (http a) = [] ∧
  (fs_scope (fs a) = AllowedPaths [] ∨ ∃ dot, fs_scope (fs a) = FsScope [] [] dot).

Lemma appends_fs_scope {E} scope l :
  appends (E := E) (scope = AllowedPaths [] ∨ ∃ dot, scope = FsScope [] [] dot) l (fs_scope_permission scope l).
Proof.
  unfold fs_scope_permission.
  destruct scope as [paths|allow deny dot]; (case_bool_decide as Ha; [case_bool_decide as Hd|]; cbn [andb];
    [apply appends_none|..]); (apply appends_extended; [vm_compute; reflexivity|naive_solver]).
Qed.

Lemma appends_shell {E} a l :
  (∀ p, p ∈ shell_scope (shell a) → is_Some (shell_command_to_value p)) →
  appends (E := E)
    ((shell_scope (shell a) = [] ∧ all a || shell_all (shell a) || shell_execute (shell a) = false ∧
      all a || shell_all (shell a) || shell_sidecar (shell a) = false) ∧
     all a || shell_all (shell a) || negb (bool_decide (shell_open (shell a) = Some false)) = false)
    l (shell_permissions a l).
Proof.
  intros Hs. unfold shell_permissions. apply appends_bind.
  - destruct (shell_scope (shell a)) as [|p scope].
    + destruct (all a || shell_all (shell a) || shell_execute (shell a)) eqn:He.
      * destruct (appends_permission (E := E) (all a) l (shell_all (shell a), shell_execute (shell a), "shell:allow-execute"))
          as (l' & Hr & Hn & _); [vm_compute; reflexivity|]. exists l'. split_and!; [done|done|naive_solver].
      * destruct (appends_permission (E := E) (all a) l (shell_all (shell a), shell_sidecar (shell a), "shell:allow-execute"))
          as (l' & Hr & Hn & Hq); [vm_compute; reflexivity|]. exists l'. split_and!; [done|done|naive_solver].
    + assert (∃ vs, collect (E := E) (λ p, Value_from_json <$> expect (shell_command_to_value p)
          "called `Result::unwrap()` on an `Err` value") (p :: scope) = Ok vs) as [vs ->].
      { revert Hs. generalize (p :: scope). intros ps. induction ps as [|x ps IH]; intros Hs; cbn [collect]; [by exists []|].
        destruct (Hs x) as [v Hv]; [left|]. rewrite Hv. simpl. destruct IH as [vs ->]; [set_solver|]. by eexists. }
      apply (appends_extended _ l "shell:allow-execute" (Some vs) None); [vm_compute; reflexivity|naive_solver].
  - intros l1. destruct (_ || negb _) eqn:Ho; [|apply appends_none].
    rewrite permission_id_good by (vm_compute; reflexivity). apply appends_entry; [|done].
    exists "shell:allow-open". split; [vm_compute; reflexivity|done].
Qed.

Lemma appends_http {E} a l :
  appends (E := E) (http_scope (http a) = [] ∧ all a || http_all (http a) || http_request (http a) = false)
    l (http_permissions a l).
Proof.
  unfold http_permissions. destruct (http_scope (http a)) as [|p scope].
  - destruct (appends_permission (E := E) (all a) l (http_all (http a), http_request (http a), "http:default"))
      as (l' & Hr & Hn & Hq); [vm_compute; reflexivity|]. exists l'. split_and!; [done|done|naive_solver].
  - apply appends_extended; [vm_compute; reflexivity|naive_solver].
Qed.

Lemma appends_weaken {E} (q q' : Prop) l (r : outcome E (list PermissionEntry)) :
  (q' → q) → appends q l r → appends q' l r.
Proof. intros Hq (l' & Hr & Hn & H). exists l'. naive_solver. Qed.

Lemma allowlist_appends {E} a :
  (∀ p, p ∈ shell_scope (shell a) → is_Some (shell_command_to_value p)) →
  appends (E := E) (allows_nothing a) [] (allowlist_to_permissions a).
Proof.
  intros Hs. unfold allowlist_to_permissions. eapply appends_weaken; cycle 1.
  - apply appends_bind; [apply appends_fields; vm_compute; reflexivity|intros l1].
    apply appends_bind; [apply appends_fs_scope|intros l2].
    apply appends_bind; [apply appends_fields; vm_compute; reflexivity|intros l3].
    apply appends_bind; [by apply appends_shell|intros l4].
    apply appends_bind; [apply appends_fields; vm_compute; reflexivity|intros l5].
    apply appends_bind; [apply appends_http|intros l6].
    apply appends_fields. vm_compute. reflexivity.
  - intros (Hf & Ho & Hss & Hh & Hsc). rewrite !Forall_app in Hf. destruct Hf as (H1 & H2 & H3 & H4 & H5).
    apply Forall_cons in H5 as [H5 H6]. apply Forall_cons in H6 as [H6 H7]. apply Forall_cons in H7 as [H7 _].
    simpl in H5, H6, H7. rewrite Ho. rewrite bool_decide_true by done. simpl. rewrite orb_false_r.
    apply orb_false_iff in H5 as [H5 H5']. rewrite H5, H5'. by rewrite H5 in H6.
Qed.

Lemma plugins_from_permissions_spec l p : p ∈ plugins_from_permissions l ↔ ∃ e, e ∈ l ∧ plugin_of e = Some p.
Proof.
  induction l as [|e l IH] using rev_ind; [set_solver|].
  transitivity (p ∈ plugins_from_permissions l ∨ plugin_of e = Some p).
  - unfold plugins_from_permissions. rewrite foldl_snoc. destruct (plugin_of e) as [x|]; set_solver.
  - rewrite IH. set_solver.
Qed.

(** The permissions of an allowlist never fail to be identifiers; each
    belongs to a known plugin or to the core ones, the plugins that are migrated
    are the prefixes of those permissions, and an allowlist that allows nothing
    gives no permission. *)
Theorem migrated_permissions_named {E} a :
  (∀ p, p ∈ shell_scope (shell a) → is_Some (shell_command_to_value p)) →
  ∃ l, allowlist_to_permissions (E := E) a = Ok l ∧
    (∀ e, e ∈ l → ∃ plugin, get_prefix (PermissionEntry_identifier e) = Some plugin ∧
       (plugin ∈ KNOWN_PLUGINS ∨ core_plugin plugin = true)) ∧
    (∀ plugin, plugin ∈ plugins_from_permissions l ↔
       plugin ∈ KNOWN_PLUGINS ∧ ∃ e, e ∈ l ∧ get_prefix (PermissionEntry_identifier e) = Some plugin) ∧
    (allows_nothing a → l = []).
Proof.
  intros Hs. destruct (allowlist_appends (E := E) a Hs) as (l & Hl & Hn & Hq). exists l. rewrite Forall_forall in Hn.
  split_and!; [done| | |done].
  - intros e He. destruct (named_plugin e (Hn e He)) as (plugin & Hp & _ & Hk). eauto.
  - intros plugin. rewrite plugins_from_permissions_spec. split.
    + intros (e & He & Hpe). destruct (named_plugin e (Hn e He)) as (plugin' & Hp & Hpl & _). rewrite Hpe in Hpl.
      case_decide; [|done]. simplify_eq. eauto.
    + intros (Hk & e & He & Hp). exists e. split; [done|].
      destruct (named_plugin e (Hn e He)) as (plugin' & Hp' & Hpl & _). rewrite Hp in Hp'. simplify_eq.
      by rewrite decide_True in Hpl.
Qed.

(** ** Checks *)
Fixpoint unique_keys (v : json) : bool :=
  match v with
  | JObject m => bool_decide (NoDup m.*1) && forallb (λ x, unique_keys x.2) m
  | _ => true
  end.

Lemma unique_keys_well_formed v : unique_keys v = true → well_formed v.
Proof.
  intros Hu p o. revert v Hu. induction p as [|k p IH]; intros v Hu H.
  - injection H as ->. simpl in Hu. apply andb_true_iff in Hu as [Hu%bool_decide_eq_true _]. done.
  - destruct v as [| | | | |m]; try done. apply at_path_cons in H as (x & Hx & H). simpl in Hu.
    apply andb_true_iff in Hu as [Hd%bool_decide_eq_true Hall]. apply (IH x); [|done].
    apply get_elem in Hx; [|done]. rewrite forallb_forall in Hall. apply (Hall (k, x)). by apply list_elem_of_In.
Qed.

(** The asset protocol is enabled by its own flag only: the flag for everything
    does not enable it, as it does every permission. *)
Theorem asset_protocol_not_enabled a v :
  all a = true → protocol_asset (protocol a) = false → asset_protocol a = Ok v → at_path ["enable"] v = None.
Proof.
  intros _ Hp. unfold asset_protocol. rewrite Hp. intros (scope & _ & [= <-])%bind_ok. done.
Qed.

(** A migration that cannot create the directory of the capability has already
    replaced the configuration: the next one succeeds, and the permissions of the
    allowlist are lost. *)
Theorem interrupted_migration_loses_permissions {VF : V1Files} dir w1 w2 w3 w4 c v m config_path parent_dir cap :
  let file := ConfigFiles.join_name dir "tauri.conf.json" in
  let capabilities := ConfigFiles.join_name parent_dir "capabilities" in
  v1_parse_value file w1 = Some (c, config_path) → migrate_config c = Ok (v, m) →
  write_config config_path v w1 = (Ok (), w2) → ConfigFiles.parent config_path = Some parent_dir →
  v1_create_dir_all capabilities w2 = false →
  v1_parse_value file w2 = Some (v, config_path) → migrate_config v = Ok (v, MigratedConfig_default) →
  write_config config_path v w2 = (Ok (), w3) → v1_create_dir_all capabilities w3 = true →
  migrated_capability (E := MigrateError) MigratedConfig_default = Ok cap →
  write_text (ConfigFiles.join_name capabilities "migrated.json") (capability_to_string_pretty cap) w3 = (Ok (), w4) →
  migrate dir w1 = (Err IoError, w2) ∧ migrate dir w2 = (Ok MigratedConfig_default, w4) ∧
  capability_permissions cap = [PermissionRef (id_of "core:default")].
Proof.
  intros file capabilities H1 H2 H3 H4 H5 H6 H7 H8 H9 H10 H11.
  assert (permission_id (E := MigrateError) "core:default" = Ok (id_of "core:default")) as Hc by (vm_compute; reflexivity).
  unfold migrate. fold file. rewrite H1, H2, H3. unfold write_capability. rewrite H4. simpl expect.
  split_and!.
  - unfold migrated_capability. rewrite Hc. cbn. fold capabilities. by rewrite H5.
  - rewrite H6, H7, H8, H10, H4. cbn. fold capabilities. by rewrite H9, H11.
  - unfold migrated_capability in H10. rewrite Hc in H10. by injection H10 as <-.
Qed.

End Proofs.

(** ** Examples *)
#[local] Instance ex_serde : SerdeLib := {|
  json_number := Z;
  as_f64 _ := None;
  as_u64 n := if (0 <=? n)%Z then Some n else None;
  as_i64 n := Some n;
  from_f64 _ := None;
  from_i64 n := n;
  toml_datetime := unit;
  datetime_to_string _ := "";
|}.

Definition ex_window (b : bool) : WindowAllowlistConfig :=
  mk_window_allowlist b b b b b b b b b b b b b b b b b b b b b b b b b b b b b b b b b b.

(** An allowlist with one value for all its flags. *)
Definition ex_allowlist (b : bool) (commands urls : list string) : AllowlistConfig string :=
  mk_allowlist b (mk_fs_allowlist (AllowedPaths []) b b b b b b b b b b) (ex_window b)
    (mk_shell_allowlist commands b b b (Some b)) (mk_dialog_allowlist b b b b b b) (mk_http_allowlist urls b b)
    b b b (mk_process_allowlist b b b) (mk_clipboard_allowlist b b b) (mk_app_allowlist b b b)
    (mk_protocol_allowlist (AllowedPaths []) b).

#[local] Instance ex_v1 : V1Lib := {|
  url_parses s := starts_with "http:" s;
  ShellAllowedCommand := string;
  shell_command_to_value s := Some (JString s);
  allowlist_from_value v := match v with JBool b => Some (ex_allowlist b [] []) | _ => None end;
  scope_default := AllowedPaths [];
  scope_to_value _ := Some JNull;
  CspDirectiveSources := list string;
  sources_list l := l;
  sources_contains l s := bool_decide (s ∈ l);
  sources_push l s := l ++ [s];
  csp_from_value v := match v with JString s => Some (CspPolicy s) | _ => None end;
  csp_to_value c := match c with CspPolicy s => Some (JString s) | _ => None end;
|}.

Definition ex_allowed (b : bool) (commands urls : list string) : AllowlistConfig (@ShellAllowedCommand _ ex_v1) :=
  ex_allowlist b commands urls.

Definition ex_config : list (string * json) :=
  [("package", JObject [("productName", JString "App")]);
   ("build", JObject [("distDir", JString "../dist"); ("devPath", JString "http://localhost")]);
   ("tauri", JObject
      [("allowlist", JBool true);
       ("bundle", JObject [("identifier", JString "app.id"); ("deb", JNull); ("targets", JArray [JString "updater"])]);
       ("security", JObject [("csp", JString "default-src 'self'")]);
       ("windows", JArray [JObject []])])].

Lemma ex_config_well_formed : well_formed (JObject ex_config).
Proof. apply unique_keys_well_formed. vm_compute. reflexivity. Qed.

Definition ex_result : outcome MigrateError (option json * option json * list string) :=
  '(v, m) ← migrate_config (JObject ex_config);
  Ok (at_path ["app"; "security"; "csp"] v, at_path ["bundle"; "linux"; "deb"] v, elements (migrated_plugins m)).

Example ex_result_value :
  ex_result = Ok (Some (JString "default-src 'self'; connect-src ipc: http://ipc.localhost"), Some JNull,
    ["os"; "global-shortcut"; "shell"; "clipboard-manager"; "notification"; "fs"; "dialog"; "http"; "process"]).
Proof. vm_compute. reflexivity. Qed.

Lemma ex_config_migrates : ∃ v m, migrate_config (JObject ex_config) = Ok (v, m).
Proof.
  assert (bool_decide (is_Some (ok (migrate_config (JObject ex_config)))) = true) as H by (vm_compute; reflexivity).
  revert H. generalize (migrate_config (JObject ex_config)). intros [[v m]| | |]; try done. eauto.
Qed.

Lemma ex_config_shapes : expected_shapes ex_config.
Proof.
  intros p x Hp Hx.
  assert (forallb (λ p, match at_path p (JObject ex_config) with None | Some (JObject _) => true | _ => false end)
    [["tauri"; "security"]; ["tauri"; "bundle"; "linux"]; ["tauri"; "bundle"; "macOS"]; ["tauri"; "cli"]] = true) as H
    by (vm_compute; reflexivity).
  rewrite forallb_forall in H. specialize (H p). rewrite Hx in H. apply list_elem_of_In in Hp. specialize (H Hp).
  destruct x; first [discriminate|eauto].
Qed.

Lemma migrate_config_moves_witness :
  ∃ v m, migrate_config (JObject ex_config) = Ok (v, m) ∧
    at_path ["mainBinaryName"] v = Some (JString "App") ∧ at_path ["identifier"] v = Some (JString "app.id").
Proof.
  destruct ex_config_migrates as (v & m & H). exists v, m. split; [exact H|].
  destruct (migrate_config_moves ex_config v m ex_config_well_formed ex_config_shapes H) as (Hmoves & _).
  split; [apply (Hmoves ["package"; "productName"])|apply (Hmoves ["tauri"; "bundle"; "identifier"])];
    try reflexivity; unfold moves; repeat first [left; reflexivity|right].
Defined.

Lemma migrate_config_idempotent_witness :
  ∃ v m, migrate_config (JObject ex_config) = Ok (v, m) ∧ migrate_config v = Ok (v, MigratedConfig_default).
Proof.
  destruct ex_config_migrates as (v & m & H). exists v, m. split; [exact H|]. apply (migrate_config_idempotent ex_config v m ex_config_well_formed); [|exact H].
  intros b Hb. vm_compute in Hb. injection Hb as <-. split_and!; [right|right|right]; reflexivity.
Defined.

Lemma migrated_permissions_named_witness :
  ∃ l, allowlist_to_permissions (E := MigrateError) (ex_allowed true ["sh"] []) = Ok l ∧
    ∀ e, e ∈ l → ∃ plugin, get_prefix (PermissionEntry_identifier e) = Some plugin ∧
      (plugin ∈ KNOWN_PLUGINS ∨ core_plugin plugin = true).
Proof.
  destruct (migrated_permissions_named (E := MigrateError) (ex_allowed true ["sh"] [])) as (l & Hl & Hn & _).
  - intros p _. exists (JString p). reflexivity.
  - exists l. split; [exact Hl|exact Hn].
Defined.

(** A scope alone grants the permission to run its commands or to send its
    requests, though the allowlist allows neither. *)
Theorem scope_alone_grants :
  allowlist_to_permissions (E := MigrateError) (ex_allowed false ["sh"] ["http://x"]) =
  Ok [ExtendedPermission (id_of "shell:allow-execute") (mk_scopes (Some [String_ "sh"]) None);
      ExtendedPermission (id_of "http:default") (mk_scopes (Some [Map [("url", String_ "http://x")]]) None)].
Proof. vm_compute. reflexivity. Qed.

Definition migrated_at (p : list string) (config : list (string * json)) : option (option json) :=
  at_path p ∘ fst <$> ok (migrate_config (JObject config)).

(** A license of the last installer that is [null] replaces the one that was
    given. *)
Theorem null_license_wins :
  migrated_at ["bundle"; "licenseFile"]
    [("tauri", JObject [("bundle", JObject
       [("macOS", JObject [("license", JString "LICENSE")]);
        ("windows", JObject [("nsis", JObject [("license", JNull)])])])])] = Some (Some JNull).
Proof. vm_compute. reflexivity. Qed.

(** Without an object [tauri] the setting [withGlobalTauri] is lost. *)
Theorem global_tauri_lost :
  migrated_at [] [("build", JObject [("withGlobalTauri", JBool true)])] =
  Some (Some (JObject [("build", JObject []); ("plugins", JObject [])])).
Proof. vm_compute. reflexivity. Qed.

(** A key that is [null] counts as one: an updater that is not active is kept. *)
Theorem null_key_keeps_updater :
  migrated_at ["plugins"; "updater"]
    [("tauri", JObject [("updater", JObject [("active", JBool false); ("pubkey", JNull)])])] =
  Some (Some (JObject [("pubkey", JNull)])).
Proof. vm_compute. reflexivity. Qed.

End MigrateProofs.
