(* ===== verification/Menus.v ===== *)
(** * Menus and tray icons

    Models the menus of an application and of its windows on Linux and Windows
    ([tauri/Source/manager/menu.rs], [remove_menu_from_stash_by_id] of
    [manager/mod.rs], the methods of [Window] in [window/mod.rs] and those of
    [AppHandle] in [app.rs]), the icons of [manager/tray.rs] and [tray/mod.rs] and
    the dispatch of their events. A menu of the package [muda] is its id and a
    handle. What the main thread is told to do with the menu bars is a log; it is
    told nothing once the event loop has ended. A map is iterated in an order that
    is an argument. *)
From S2P Require Import Prelude.

Module Menus.

Record Menu := mk_menu { id : string; inner : nat }.

#[global] Instance Menu_eq_dec : EqDecision Menu.
Proof. solve_decision. Defined.

Record WindowMenu := mk_window_menu { is_app_wide : bool; menu_of : Menu }.

(** What is run on the main thread for a window. *)
Inductive NativeOp :=
| InitFor (label : string) (menu : Menu)
| RemoveFor (label : string) (menu : Menu)
| HideFor (label : string) (menu : Menu)
| ShowFor (label : string) (menu : Menu)
(** the window is gone *)
| Destroyed (label : string).

Inductive MenuError := FailedToSendMessage.

(** A handler is a number. *)
Abbreviation Handler := nat.

(** [MenuManager], the menus of the windows that are managed, and the loop. *)
Record State := mk_state {
  menus : gmap string Menu;
  menu : option Menu;
  global_event_listeners : list Handler;
  event_listeners : gmap string Handler;
  windows : gmap string (option WindowMenu);
  native : list NativeOp;
  loop_alive : bool;
}.

Definition set_menus (f : gmap string Menu → gmap string Menu) (s : State) : State :=
  mk_state (f (menus s)) (menu s) (global_event_listeners s) (event_listeners s) (windows s) (native s) (loop_alive s).
Definition set_app_menu (m : option Menu) (s : State) : State :=
  mk_state (menus s) m (global_event_listeners s) (event_listeners s) (windows s) (native s) (loop_alive s).
Definition set_windows (f : gmap string (option WindowMenu) → gmap string (option WindowMenu)) (s : State) : State :=
  mk_state (menus s) (menu s) (global_event_listeners s) (event_listeners s) (f (windows s)) (native s) (loop_alive s).
Definition set_global_listeners (f : list Handler → list Handler) (s : State) : State :=
  mk_state (menus s) (menu s) (f (global_event_listeners s)) (event_listeners s) (windows s) (native s) (loop_alive s).
Definition set_listeners (f : gmap string Handler → gmap string Handler) (s : State) : State :=
  mk_state (menus s) (menu s) (global_event_listeners s) (f (event_listeners s)) (windows s) (native s) (loop_alive s).
Definition log (op : NativeOp) (s : State) : State :=
  mk_state (menus s) (menu s) (global_event_listeners s) (event_listeners s) (windows s) (native s ++ [op]) (loop_alive s).

(** ** The manager of menus *)
Definition has_id (i : string) (m : Menu) : bool := bool_decide (i = id m).

Definition is_menu_in_use (i : string) (s : State) : bool := from_option (has_id i) false (menu s).

Definition insert_menu_into_stash (m : Menu) : State → State := set_menus <[id m := m]>.

Definition on_menu_event (h : Handler) : State → State := set_global_listeners (λ l, l ++ [h]).

Definition window_uses (i : string) (w : option WindowMenu) : bool :=
  from_option (λ m, has_id i (menu_of m)) false w.

Definition remove_menu_from_stash_by_id (i : option string) (s : State) : State :=
  match i with
  | Some i =>
      let is_used_by_a_window := existsb (λ x, window_uses i x.2) (map_to_list (windows s)) in
      if is_menu_in_use i s || is_used_by_a_window then s else set_menus (delete i) s
  | None => s
  end.

(** ** Windows

    [run_on_main_thread(f)?]: the first component tells whether it failed. *)
Definition run_on_main_thread (op : NativeOp) (s : State) : outcome MenuError unit * State :=
  if loop_alive s then (Ok (), log op s) else (Err FailedToSendMessage, s).

Definition window_menu (label : string) (s : State) : option WindowMenu := windows s !! label ≫= λ m, m.

Definition has_app_wide_menu (label : string) (s : State) : bool :=
  from_option is_app_wide false (window_menu label s).

(** [*menu_lock() = m] of a window that is managed. *)
Definition put_menu (label : string) (m : option WindowMenu) : State → State := set_windows (alter (λ _, m) label).

Definition window_remove_menu (label : string) (s : State) : outcome MenuError (option Menu) * State :=
  let prev_menu := menu_of <$> window_menu label s in
  let s := put_menu label None s in
  match prev_menu with
  | Some m =>
      match run_on_main_thread (RemoveFor label m) s with
      | (Ok _, s) => (Ok prev_menu, remove_menu_from_stash_by_id (id <$> prev_menu) s)
      | (Err e, s) => (Err e, s)
      | (Panic msg, s) => (Panic msg, s)
      | (Diverge, s) => (Diverge, s)
      end
  | None => (Ok prev_menu, remove_menu_from_stash_by_id (id <$> prev_menu) s)
  end.

Definition window_set_menu (label : string) (m : Menu) (s : State) : outcome MenuError (option Menu) * State :=
  match window_remove_menu label s with
  | (Ok prev_menu, s) =>
      let s := insert_menu_into_stash m s in
      match run_on_main_thread (InitFor label m) s with
      | (Ok _, s) => (Ok prev_menu, put_menu label (Some (mk_window_menu false m)) s)
      | (Err e, s) => (Err e, s)
      | (Panic msg, s) => (Panic msg, s)
      | (Diverge, s) => (Diverge, s)
      end
  | r => r
  end.

Definition window_show (op : string → Menu → NativeOp) (label : string) (s : State) : outcome MenuError unit * State :=
  match window_menu label s with
  | Some m => run_on_main_thread (op label (menu_of m)) s
  | None => (Ok (), s)
  end.
Definition window_hide_menu : string → State → outcome MenuError unit * State := window_show HideFor.
Definition window_show_menu : string → State → outcome MenuError unit * State := window_show ShowFor.

Definition window_on_menu_event (label : string) (h : Handler) : State → State := set_listeners <[label := h]>.

(** [prepare_window_menu_creation_handler]: the handler shows the menu when the
    window is created. *)
Definition prepare_window_menu_creation_handler (m : option WindowMenu) (s : State) : State :=
  match m with Some m => insert_menu_into_stash (menu_of m) s | None => s end.

(** The part of [WindowBuilder::build_internal] on menus; [created] is the
    answer of the runtime. *)
Definition build_window (label : string) (m : option Menu) (handler : option Handler) (created : bool) (s : State)
    : State :=
  let window_menu :=
    match m with Some m => Some (mk_window_menu false m) | None => mk_window_menu true <$> menu s end in
  let s := prepare_window_menu_creation_handler window_menu s in
  if created then
    let s := match window_menu with Some m => log (InitFor label (menu_of m)) s | None => s end in
    let s := set_windows <[label := window_menu]> s in
    match handler with Some h => window_on_menu_event label h s | None => s end
  else s.

(** [AppManager::on_window_close]. *)
Definition on_window_close (label : string) : State → State := set_windows (delete label).

(** ** The application *)

(** A loop over windows whose body may fail. *)
Fixpoint for_windows (f : string → State → outcome MenuError unit * State) (order : list string) (s : State)
    : outcome MenuError unit * State :=
  match order with
  | [] => (Ok (), s)
  | label :: order =>
      match f label s with
      | (Ok _, s) => for_windows f order s
      | r => r
      end
  end.

Definition remove_app_wide (label : string) (s : State) : outcome MenuError unit * State :=
  if has_app_wide_menu label s then
    match window_remove_menu label s with
    | (Ok _, s) => (Ok (), put_menu label None s)
    | (Err e, s) => (Err e, s)
    | (Panic msg, s) => (Panic msg, s)
    | (Diverge, s) => (Diverge, s)
    end
  else (Ok (), s).

Definition remove_menu (order : list string) (s : State) : outcome MenuError (option Menu) * State :=
  match (match menu s with Some _ => for_windows remove_app_wide order s | None => (Ok (), s) end) with
  | (Ok _, s) =>
      let prev_menu := menu s in
      let s := set_app_menu None s in
      (Ok prev_menu, remove_menu_from_stash_by_id (id <$> prev_menu) s)
  | (Err e, s) => (Err e, s)
  | (Panic msg, s) => (Panic msg, s)
  | (Diverge, s) => (Diverge, s)
  end.

Definition assign_app_wide (m : Menu) (label : string) (s : State) : outcome MenuError unit * State :=
  if has_app_wide_menu label s || bool_decide (window_menu label s = None) then
    match window_set_menu label m s with
    | (Ok _, s) => (Ok (), put_menu label (Some (mk_window_menu true m)) s)
    | (Err e, s) => (Err e, s)
    | (Panic msg, s) => (Panic msg, s)
    | (Diverge, s) => (Diverge, s)
    end
  else (Ok (), s).

(** The windows are collected twice: [removing] and [order] are their orders. *)
Definition set_menu (removing order : list string) (m : Menu) (s : State) : outcome MenuError (option Menu) * State :=
  match remove_menu removing s with
  | (Ok prev_menu, s) =>
      let s := set_app_menu (Some m) (insert_menu_into_stash m s) in
      match for_windows (assign_app_wide m) order s with
      | (Ok _, s) => (Ok prev_menu, s)
      | (Err e, s) => (Err e, s)
      | (Panic msg, s) => (Panic msg, s)
      | (Diverge, s) => (Diverge, s)
      end
  | r => r
  end.

Definition if_app_wide (f : string → State → outcome MenuError unit * State) (label : string) (s : State) :=
  if has_app_wide_menu label s then f label s else (Ok (), s).

Definition hide_menu (order : list string) (s : State) : outcome MenuError unit * State :=
  match menu s with Some _ => for_windows (if_app_wide window_hide_menu) order s | None => (Ok (), s) end.
Definition show_menu (order : list string) (s : State) : outcome MenuError unit * State :=
  match menu s with Some _ => for_windows (if_app_wide window_show_menu) order s | None => (Ok (), s) end.

(** [Builder::build] with the menu of the builder. *)
Definition builder_menu (m : Menu) (s : State) : State := set_app_menu (Some m) (insert_menu_into_stash m s).

(** ** Events: the handlers that are called, for the application or a window. *)
Inductive Call := ForApp (h : Handler) | ForWindow (label : string) (h : Handler).

Definition dispatch_menu_event (order : list string) (s : State) : list Call :=
  (ForApp <$> global_event_listeners s) ++
  omap (λ label, h ← event_listeners s !! label; _ ← windows s !! label; Some (ForWindow label h)) order.

(** ** Tray icons *)
Record TrayIcon := mk_tray_icon { tray_id : string; tray_inner : nat }.

Record TrayManager := mk_tray_manager {
  icons : list TrayIcon;
  tray_global_listeners : list Handler;
  tray_listeners : gmap string Handler;
}.

Definition on_tray_icon_event (h : Handler) (t : TrayManager) : TrayManager :=
  mk_tray_manager (icons t) (tray_global_listeners t ++ [h]) (tray_listeners t).

Definition tray_by_id (i : string) (t : TrayManager) : option TrayIcon :=
  List.find (λ x, bool_decide (tray_id x = i)) (icons t).

(** [Vec::swap_remove] of the first icon with the id. *)
Fixpoint swap_remove_icon (i : string) (l : list TrayIcon) : option (TrayIcon * list TrayIcon) :=
  match l with
  | [] => None
  | x :: l =>
      if decide (tray_id x = i) then Some (x, match last l with Some y => y :: removelast l | None => [] end)
      else '(y, l) ← swap_remove_icon i l; Some (y, x :: l)
  end.

Definition remove_tray_by_id (i : string) (t : TrayManager) : option TrayIcon * TrayManager :=
  match swap_remove_icon i (icons t) with
  | Some (x, l) => (Some x, mk_tray_manager l (tray_global_listeners t) (tray_listeners t))
  | None => (None, t)
  end.

(** [TrayIcon::register]; a handler of menu events is one of the application. *)
Definition register (icon : TrayIcon) (on_menu : option Handler) (on_icon : option Handler) (s : State) (t : TrayManager)
    : State * TrayManager :=
  (match on_menu with Some h => on_menu_event h s | None => s end,
   mk_tray_manager (icons t ++ [icon]) (tray_global_listeners t)
     (match on_icon with Some h => <[tray_id icon := h]> (tray_listeners t) | None => tray_listeners t end)).

Definition icon_on_tray_icon_event (icon : TrayIcon) (h : Handler) (t : TrayManager) : TrayManager :=
  mk_tray_manager (icons t) (tray_global_listeners t) (<[tray_id icon := h]> (tray_listeners t)).

(** The handlers that are called for an event of the icon with this id. *)
Definition dispatch_tray_event (i : string) (order : list string) (t : TrayManager)
    : list Handler * list (TrayIcon * Handler) :=
  (tray_global_listeners t,
   omap (λ j, h ← tray_listeners t !! j; if decide (i = j) then icon ← tray_by_id j t; Some (icon, h) else None) order).

(** ** Steps

    The steps of an application: [leaks] are those after which a menu that is no
    longer used may stay in the stash. *)
Inductive step (leaks : bool) (s : State) : State → Prop :=
| step_window_set label m : is_Some (windows s !! label) → step leaks s (window_set_menu label m s).2
| step_window_remove label : is_Some (windows s !! label) → step leaks s (window_remove_menu label s).2
| step_window_show op label : op = HideFor ∨ op = ShowFor → step leaks s (window_show op label s).2
| step_listener label h : step leaks s (window_on_menu_event label h s)
| step_global h : step leaks s (on_menu_event h s)
| step_build label m h : windows s !! label = None → loop_alive s = true → step leaks s (build_window label m h true s)
| step_set removing order m :
    removing ≡ₚ (map_to_list (windows s)).*1 → order ≡ₚ (map_to_list (windows s)).*1 →
    step leaks s (set_menu removing order m s).2
| step_remove order : order ≡ₚ (map_to_list (windows s)).*1 → step leaks s (remove_menu order s).2
| step_close label : leaks = true → step leaks s (on_window_close label (log (Destroyed label) s))
| step_not_built label m h : leaks = true → step leaks s (build_window label m h false s)
| step_loop_ends : leaks = true →
    step leaks s (mk_state (menus s) (menu s) (global_event_listeners s) (event_listeners s) (windows s) (native s) false).

Definition initial (m : option Menu) : State :=
  from_option (λ m, builder_menu m) (λ s, s) m (mk_state ∅ None [] ∅ ∅ [] true).

(** ** Menu bars: what a window shows after a log, unless it is misused. *)
Definition bar_step (label : string) (b : option (option Menu)) (op : NativeOp) : option (option Menu) :=
  match op with
  | InitFor l m =>
      if decide (l = label) then match b with Some None => Some (Some m) | _ => None end else b
  | RemoveFor l m =>
      if decide (l = label) then match b with Some (Some m') => if decide (m' = m) then Some None else None | _ => None end
      else b
  | HideFor l m | ShowFor l m =>
      if decide (l = label) then match b with Some (Some m') => if decide (m' = m) then b else None | _ => None end else b
  | Destroyed l => if decide (l = label) then b ≫= λ _, Some None else b
  end.
Definition bar (label : string) (l : list NativeOp) : option (option Menu) := foldl (bar_step label) (Some None) l.

Lemma bar_snoc label l op : bar label (l ++ [op]) = bar_step label (bar label l) op.
Proof. unfold bar. by rewrite foldl_app. Qed.

(** ** The invariant *)
Definition used (i : string) (s : State) : Prop :=
  (∃ m, menu s = Some m ∧ id m = i) ∨ ∃ label m, window_menu label s = Some m ∧ id (menu_of m) = i.

Record inv (s : State) : Prop := {
  inv_app_wide label m : window_menu label s = Some m → is_app_wide m = true → menu s = Some (menu_of m);
  inv_stash i : used i s → is_Some (menus s !! i);
  inv_ids i m : menus s !! i = Some m → id m = i;
  inv_bars label : loop_alive s = true → bar label (native s) = Some (menu_of <$> window_menu label s);
}.

(** Every menu of the stash is used. *)
Definition exact (s : State) : Prop := loop_alive s = true ∧ ∀ i, is_Some (menus s !! i) → used i s.

Lemma window_menu_put label label' m s :
  window_menu label (put_menu label' m s) =
  if decide (label = label') then (if decide (is_Some (windows s !! label)) then m else None) else window_menu label s.
Proof.
  unfold window_menu, put_menu, set_windows. simpl. case_decide as Hl; subst.
  - rewrite lookup_alter. by destruct (windows s !! label') eqn:E; simpl; case_decide as H; [| destruct H | destruct H |]; eauto.
  - by rewrite lookup_alter_ne by done.
Qed.

Lemma window_managed label m s : window_menu label s = Some m → is_Some (windows s !! label).
Proof. unfold window_menu. destruct (windows s !! label); [eauto|done]. Qed.

Lemma stash_test i s :
  is_menu_in_use i s || existsb (λ x, window_uses i x.2) (map_to_list (windows s)) = true ↔ used i s.
Proof.
  rewrite orb_true_iff, existsb_exists. unfold used, is_menu_in_use, window_menu, has_id, window_uses, has_id.
  split; (intros [H|H]; [left|right]).
  - destruct (menu s) as [m|]; [|done]. simpl in H. apply bool_decide_eq_true in H. eauto.
  - destruct H as ([label w] & Hin & H). apply list_elem_of_In, elem_of_map_to_list in Hin. simpl in H.
    destruct w as [m|]; [|done]. simpl in H. apply bool_decide_eq_true in H. exists label, m. by rewrite Hin.
  - destruct H as (m & -> & <-). simpl. by apply bool_decide_eq_true.
  - destruct H as (label & m & Hm & <-). destruct (windows s !! label) as [w|] eqn:E; [|done]. simpl in Hm. subst w.
    exists (label, Some m). rewrite <- list_elem_of_In, elem_of_map_to_list. split; [done|]. by apply bool_decide_eq_true.
Qed.

(** Taking a menu that is no longer used out of the stash. *)
Lemma stash_remove_spec i s :
  ∃ ms, remove_menu_from_stash_by_id i s = set_menus (λ _, ms) s ∧
    (∀ j, used j s → ms !! j = menus s !! j) ∧ (∀ j m, ms !! j = Some m → menus s !! j = Some m) ∧
    (∀ j, is_Some (ms !! j) → used j s ∨ (i ≠ Some j ∧ is_Some (menus s !! j))).
Proof.
  unfold remove_menu_from_stash_by_id. destruct i as [i|]; [|exists (menus s); split; [by destruct s|naive_solver]].
  destruct (_ || _) eqn:E.
  - exists (menus s). split; [by destruct s|]. split_and!; [done|done|]. intros j Hj.
    destruct (decide (i = j)) as [->|]; [left; by apply stash_test|right; naive_solver].
  - exists (delete i (menus s)). split; [by destruct s|].
    assert (¬ used i s) as Hu by (intros H%stash_test; congruence). split_and!.
    + intros j Hj. rewrite lookup_delete_ne; [done|]. by intros ->.
    + intros j m [_ H]%lookup_delete_Some. done.
    + intros j [m [Hne H]%lookup_delete_Some]. right. split; [congruence|eauto].
Qed.

(** *** Windows *)

(** A step that takes the menu of a window away. *)
Record removed (label : string) (s s' : State) : Prop := {
  rm_menu : menu s' = menu s;
  rm_windows : windows s' = alter (λ _, None) label (windows s);
  rm_alive : loop_alive s' = loop_alive s;
  rm_stash : ∀ j, used j s' → menus s' !! j = menus s !! j;
  rm_ids : ∀ j m, menus s' !! j = Some m → menus s !! j = Some m;
  rm_exact : loop_alive s = true → ∀ j, is_Some (menus s' !! j) →
    used j s' ∨ (id ∘ menu_of <$> window_menu label s ≠ Some j ∧ is_Some (menus s !! j));
  rm_native : loop_alive s = true →
    native s' = native s ++ from_option (λ m, [RemoveFor label (menu_of m)]) [] (window_menu label s);
}.

Lemma window_remove_menu_spec label s :
  removed label s (window_remove_menu label s).2 ∧
  (loop_alive s = true ∨ window_menu label s = None →
   (window_remove_menu label s).1 = Ok (menu_of <$> window_menu label s)) ∧
  (∀ o, (window_remove_menu label s).1 = Ok o → loop_alive s = true ∨ window_menu label s = None).
Proof.
  unfold window_remove_menu, run_on_main_thread. change (loop_alive (put_menu label None s)) with (loop_alive s).
  destruct (window_menu label s) as [m|] eqn:Hm; cbn [fmap option_fmap option_map].
  - destruct (loop_alive s) eqn:Ha; cbn [fst snd]; (split; [|split; [naive_solver|naive_solver]]).
    + destruct (stash_remove_spec (Some (id (menu_of m))) (log (RemoveFor label (menu_of m)) (put_menu label None s)))
        as (ms & -> & H1 & H2 & H3).
      split; [done|done|done|exact H1|exact H2| |by rewrite Hm].
      intros _ j Hj. rewrite Hm. apply H3, Hj.
    + split; [done|done|done|done|done|congruence|congruence].
  - split; [|split; [naive_solver|naive_solver]].
    split; [done|done|done|done|done| |by rewrite Hm, app_nil_r].
    intros _ j Hj. rewrite Hm. right. split; [done|exact Hj].
Qed.

Lemma window_menu_alter label label' w s s' :
  windows s' = alter (λ _, w) label' (windows s) →
  window_menu label s' = if decide (label = label') then windows s !! label ≫= λ _, w else window_menu label s.
Proof.
  intros Hw. unfold window_menu. rewrite Hw. case_decide as Hl; subst.
  - rewrite lookup_alter_eq. by destruct (windows s !! label').
  - by rewrite lookup_alter_ne by done.
Qed.

Lemma removed_window label label' s s' :
  removed label' s s' → window_menu label s' = if decide (label = label') then None else window_menu label s.
Proof.
  intros Hr. rewrite (window_menu_alter _ _ _ _ _ (rm_windows _ _ _ Hr)). case_decide; [|done]. by destruct (windows s !! label).
Qed.

Lemma removed_used label s s' j : removed label s s' → used j s' → used j s.
Proof.
  intros Hr [(m & Hm & Hj)|(l & m & Hm & Hj)]; [left; exists m; by rewrite <- (rm_menu _ _ _ Hr)|right].
  rewrite (removed_window _ _ _ _ Hr) in Hm. case_decide; [done|]. eauto.
Qed.

Lemma removed_inv label s s' : inv s → removed label s s' → inv s'.
Proof.
  intros I R. split.
  - intros l m Hm Hw. rewrite (removed_window _ _ _ _ R) in Hm. case_decide; [done|].
    rewrite (rm_menu _ _ _ R). by eapply inv_app_wide.
  - intros j Hj. rewrite (rm_stash _ _ _ R j Hj). apply (inv_stash _ I). by eapply removed_used.
  - intros j m Hm. by apply (inv_ids _ I), (rm_ids _ _ _ R).
  - intros l Ha. rewrite (rm_alive _ _ _ R) in Ha. rewrite (rm_native _ _ _ R Ha), (removed_window _ _ _ _ R).
    pose proof (inv_bars _ I l Ha) as Hb. destruct (window_menu label s) as [m|] eqn:Hm; simpl.
    + rewrite bar_snoc, Hb. simpl. destruct (decide (label = l)) as [->|Hl].
      * rewrite Hm. simpl. by rewrite !decide_True.
      * by rewrite decide_False.
    + rewrite app_nil_r, Hb. case_decide; subst; [by rewrite Hm|done].
Qed.

Lemma removed_exact label s s' : exact s → removed label s s' → exact s'.
Proof.
  intros [Ha He] R. split; [by rewrite (rm_alive _ _ _ R)|]. intros j Hj.
  destruct (rm_exact _ _ _ R Ha j Hj) as [H|[Hne H]]; [done|].
  destruct (He j H) as [(m & Hm & Hi)|(l & m & Hm & Hi)]; [left; exists m; by rewrite (rm_menu _ _ _ R)|right].
  exists l, m. split; [|done]. rewrite (removed_window _ _ _ _ R), decide_False; [done|]. intros ->.
  rewrite Hm in Hne. simpl in Hne. congruence.
Qed.

(** A step that gives a window without a menu one. *)
Record assigned (label : string) (w : WindowMenu) (s s' : State) : Prop := {
  as_menu : menu s' = menu s;
  as_windows : windows s' = alter (λ _, Some w) label (windows s);
  as_alive : loop_alive s' = loop_alive s;
  as_menus : menus s' = <[id (menu_of w) := menu_of w]> (menus s);
  as_native : native s' = native s ++ [InitFor label (menu_of w)];
}.

Lemma assigned_window label label' w s s' :
  assigned label' w s s' → is_Some (windows s !! label') →
  window_menu label s' = if decide (label = label') then Some w else window_menu label s.
Proof.
  intros A Hw. rewrite (window_menu_alter _ _ _ _ _ (as_windows _ _ _ _ A)). case_decide; [|done]. subst.
  by destruct Hw as [x ->].
Qed.

Lemma assigned_inv label w s s' :
  inv s → assigned label w s s' → is_Some (windows s !! label) → window_menu label s = None →
  (is_app_wide w = true → menu s = Some (menu_of w)) → inv s'.
Proof.
  intros I A Hw Hn Haw. split.
  - intros l m Hm Hl. rewrite (assigned_window _ _ _ _ _ A Hw) in Hm. rewrite (as_menu _ _ _ _ A).
    case_decide; [simplify_eq; auto|]. by eapply inv_app_wide.
  - intros j Hj. rewrite (as_menus _ _ _ _ A), lookup_insert. case_decide as Hi; [eauto|]. apply (inv_stash _ I).
    destruct Hj as [(m & Hm & Hj)|(l & m & Hm & Hj)]; [left; exists m; by rewrite <- (as_menu _ _ _ _ A)|right].
    rewrite (assigned_window _ _ _ _ _ A Hw) in Hm. case_decide; [simplify_eq; done|]. eauto.
  - intros j m. rewrite (as_menus _ _ _ _ A). intros [[<- <-]|[_ Hm]]%lookup_insert_Some; [done|]. by apply (inv_ids _ I).
  - intros l Ha. rewrite (as_alive _ _ _ _ A) in Ha.
    rewrite (as_native _ _ _ _ A), bar_snoc, (inv_bars _ I l Ha), (assigned_window _ _ _ _ _ A Hw). simpl.
    destruct (decide (label = l)) as [->|Hl]; [rewrite Hn; simpl; by rewrite decide_True|by rewrite decide_False].
Qed.

Lemma assigned_exact label w s s' :
  exact s → assigned label w s s' → is_Some (windows s !! label) → window_menu label s = None → exact s'.
Proof.
  intros [Ha He] A Hw Hn. split; [by rewrite (as_alive _ _ _ _ A)|]. intros j.
  rewrite (as_menus _ _ _ _ A), lookup_insert. case_decide as Hi; [intros _|intros Hj].
  - right. exists label, w. by rewrite (assigned_window _ _ _ _ _ A Hw), decide_True.
  - destruct (He j Hj) as [(m & Hm & Hj')|(l & m & Hm & Hj')]; [left; exists m; by rewrite (as_menu _ _ _ _ A)|right].
    exists l, m. rewrite (assigned_window _ _ _ _ _ A Hw), decide_False by congruence. done.
Qed.

Lemma alter_twice (w w' : option WindowMenu) label (ws : gmap string (option WindowMenu)) :
  alter (λ _, w') label (alter (λ _, w) label ws) = alter (λ _, w') label ws.
Proof.
  apply map_eq. intros l. destruct (decide (l = label)) as [->|Hl].
  - rewrite !lookup_alter_eq. by destruct (ws !! label).
  - by rewrite !lookup_alter_ne.
Qed.

Lemma put_removed label s s' : removed label s s' → put_menu label None s' = s'.
Proof.
  intros R. unfold put_menu, set_windows. rewrite (rm_windows _ _ _ R), alter_twice, <- (rm_windows _ _ _ R). by destruct s'.
Qed.

Lemma put_assigned label m s s' b :
  assigned label (mk_window_menu b m) s s' →
  assigned label (mk_window_menu true m) s (put_menu label (Some (mk_window_menu true m)) s').
Proof.
  intros A. split; simpl; [apply (as_menu _ _ _ _ A)| |apply (as_alive _ _ _ _ A)|apply (as_menus _ _ _ _ A)|apply (as_native _ _ _ _ A)].
  by rewrite (as_windows _ _ _ _ A), alter_twice.
Qed.

Lemma insert_stash_inv m s : inv s → inv (insert_menu_into_stash m s).
Proof.
  intros I. split; simpl; [apply (inv_app_wide _ I)| | |apply (inv_bars _ I)].
  - intros j Hj. rewrite lookup_insert. case_decide; [eauto|]. by apply (inv_stash _ I).
  - intros j m'. intros [[<- <-]|[_ Hm]]%lookup_insert_Some; [done|]. by apply (inv_ids _ I).
Qed.

Lemma window_set_menu_alive label m s :
  loop_alive s = true →
  ∃ s1 s2, removed label s s1 ∧ assigned label (mk_window_menu false m) s1 s2 ∧
    window_set_menu label m s = (Ok (menu_of <$> window_menu label s), s2).
Proof.
  intros Ha. destruct (window_remove_menu_spec label s) as (R & Hok & _). unfold window_set_menu.
  destruct (window_remove_menu label s) as [r s1]. simpl in R, Hok. rewrite Hok by auto.
  exists s1. unfold run_on_main_thread. change (loop_alive (insert_menu_into_stash m s1)) with (loop_alive s1).
  rewrite (rm_alive _ _ _ R), Ha. eexists. split; [done|]. split; [|done]. by split; simpl; rewrite ?(rm_alive _ _ _ R).
Qed.

Lemma window_set_menu_dead label m s :
  loop_alive s = false →
  ∃ s1, removed label s s1 ∧ ((window_set_menu label m s).2 = s1 ∨ (window_set_menu label m s).2 = insert_menu_into_stash m s1) ∧
    ∀ o, (window_set_menu label m s).1 ≠ Ok o.
Proof.
  intros Ha. destruct (window_remove_menu_spec label s) as (R & Hok & Hok'). unfold window_set_menu.
  destruct (window_remove_menu label s) as [r s1]. simpl in R, Hok, Hok'. exists s1. split; [done|].
  destruct r as [o|e|msg|]; simpl; [|by auto..].
  unfold run_on_main_thread. change (loop_alive (insert_menu_into_stash m s1)) with (loop_alive s1).
  rewrite (rm_alive _ _ _ R), Ha. simpl. auto.
Qed.

Lemma window_set_menu_inv label m s :
  is_Some (windows s !! label) → inv s →
  inv (window_set_menu label m s).2 ∧ (exact s → exact (window_set_menu label m s).2).
Proof.
  intros Hw I. destruct (loop_alive s) eqn:Ha.
  - destruct (window_set_menu_alive label m s Ha) as (s1 & s2 & R & A & ->). simpl.
    assert (is_Some (windows s1 !! label)) as Hw1 by (rewrite (rm_windows _ _ _ R), lookup_alter_eq; destruct Hw as [x ->]; eauto).
    assert (window_menu label s1 = None) as Hn by by rewrite (removed_window _ _ _ _ R), decide_True.
    split; [by eapply assigned_inv; [eapply removed_inv|..]|]. intros E. by eapply assigned_exact; [eapply removed_exact|..].
  - destruct (window_set_menu_dead label m s Ha) as (s1 & R & [->| ->] & _); (split; [|intros [? _]; congruence]).
    + by eapply removed_inv.
    + by eapply insert_stash_inv, removed_inv.
Qed.

(** *** The application *)
Lemma remove_app_wide_spec label s :
  (has_app_wide_menu label s = false ∧ remove_app_wide label s = (Ok (), s)) ∨
  (has_app_wide_menu label s = true ∧ removed label s (remove_app_wide label s).2 ∧
   (loop_alive s = true → (remove_app_wide label s).1 = Ok ())).
Proof.
  unfold remove_app_wide. destruct (has_app_wide_menu label s) eqn:Hw; [right|by left]. split; [done|].
  destruct (window_remove_menu_spec label s) as (R & Hok & _). destruct (window_remove_menu label s) as [r s1]. simpl in *.
  destruct r as [o|e|msg|]; simpl; [|split; [done|intros Ha; by discriminate Hok; left]..].
  split; [|done]. by rewrite (put_removed _ _ _ R).
Qed.

Lemma for_windows_inv (P : State → Prop) f order s :
  (∀ l s, P s → P (f l s).2) → P s → P (for_windows f order s).2.
Proof.
  intros Hf. revert s. induction order as [|l order IH]; intros s HP; simpl; [done|].
  pose proof (Hf l s HP) as H. destruct (f l s) as [[u|e|msg|] s1]; simpl in *; auto.
Qed.

Lemma dom_alter_windows w label (ws : gmap string (option WindowMenu)) : dom (alter (λ _, w) label ws) = dom ws.
Proof. by rewrite dom_alter_L. Qed.

(** The app-wide menu is taken from the windows that are visited. *)
Record loop_removed (order : list string) (s : State) (r : outcome MenuError unit * State) : Prop := {
  lr_ok : loop_alive s = true → r.1 = Ok ();
  lr_menu : menu r.2 = menu s;
  lr_alive : loop_alive r.2 = loop_alive s;
  lr_dom : dom (windows r.2) = dom (windows s);
  lr_windows : r.1 = Ok () → ∀ l,
    window_menu l r.2 = if bool_decide (l ∈ order) && has_app_wide_menu l s then None else window_menu l s;
  lr_inv : inv s → inv r.2;
  lr_exact : exact s → exact r.2;
}.

Lemma remove_loop order s : loop_removed order s (for_windows remove_app_wide order s).
Proof.
  revert s. induction order as [|label order IH]; intros s; simpl; [by split|].
  destruct (remove_app_wide_spec label s) as [[Hw ->]|(Hw & R & Hok)].
  - destruct (IH s) as [H1 H2 H3 H4 H5 H6 H7]. split; auto. intros Hr l. rewrite H5 by done.
    destruct (decide (l = label)) as [->|Hl]; [by rewrite Hw, !andb_false_r|].
    by rewrite (bool_decide_ext (l ∈ label :: order) (l ∈ order)) by set_solver.
  - destruct (remove_app_wide label s) as [r s1]. simpl in R, Hok.
    assert (∀ l, has_app_wide_menu l s1 = if decide (l = label) then false else has_app_wide_menu l s) as Hs1.
    { intros l. unfold has_app_wide_menu. rewrite (removed_window _ _ _ _ R). by case_decide. }
    destruct r as [[]|e|msg|].
    2-4: split; simpl; [done|apply R|apply R|by rewrite (rm_windows _ _ _ R), dom_alter_windows|done|
           intros I; by eapply removed_inv|intros E; by eapply removed_exact].
    destruct (IH s1) as [H1 H2 H3 H4 H5 H6 H7]. split.
    + intros Ha. apply H1. by rewrite (rm_alive _ _ _ R).
    + by rewrite H2, (rm_menu _ _ _ R).
    + by rewrite H3, (rm_alive _ _ _ R).
    + by rewrite H4, (rm_windows _ _ _ R), dom_alter_windows.
    + intros Hr l. rewrite H5 by done. rewrite Hs1, (removed_window _ _ _ _ R). case_decide as Hl; subst.
      * rewrite andb_false_r, Hw. by rewrite bool_decide_true by set_solver.
      * by rewrite (bool_decide_ext (l ∈ label :: order) (l ∈ order)) by set_solver.
    + intros I. apply H6. by eapply removed_inv.
    + intros E. apply H7. by eapply removed_exact.
Qed.

(** An application without its menu: no window has it as the app-wide one. *)
Lemma set_no_menu_inv s :
  inv s → (∀ l, has_app_wide_menu l s = false) → inv (set_app_menu None s).
Proof.
  intros I Hn. split; simpl; [| |apply (inv_ids _ I)|apply (inv_bars _ I)].
  - intros l m Hm Hw. specialize (Hn l). unfold has_app_wide_menu in Hn. unfold window_menu in *. simpl in Hm.
    rewrite Hm in Hn. simpl in Hn. congruence.
  - intros j [(m & [=] & _)|H]. apply (inv_stash _ I). by right.
Qed.

Lemma stash_remove_inv i s : inv s → inv (remove_menu_from_stash_by_id i s).
Proof.
  intros I. destruct (stash_remove_spec i s) as (ms & -> & H1 & H2 & _). split; simpl.
  - apply (inv_app_wide _ I).
  - intros j Hj. rewrite H1 by done. by apply (inv_stash _ I).
  - intros j m Hm. by apply (inv_ids _ I), H2.
  - apply (inv_bars _ I).
Qed.

Lemma no_app_wide_left order s :
  inv s → order ≡ₚ (map_to_list (windows s)).*1 → (for_windows remove_app_wide order s).1 = Ok () →
  ∀ l, has_app_wide_menu l (for_windows remove_app_wide order s).2 = false.
Proof.
  intros I Ho Hr l. unfold has_app_wide_menu at 1. rewrite (lr_windows _ _ _ (remove_loop order s) Hr).
  destruct (has_app_wide_menu l s) eqn:Hw.
  - rewrite bool_decide_true; [done|]. rewrite Ho. unfold has_app_wide_menu in Hw.
    destruct (window_menu l s) as [m|] eqn:Hm; [|done]. apply window_managed in Hm as [w Hm].
    apply list_elem_of_fmap. exists (l, w). split; [done|]. by apply elem_of_map_to_list.
  - rewrite andb_false_r. exact Hw.
Qed.

Record menu_removed (s : State) (r : outcome MenuError (option Menu) * State) : Prop := {
  mr_ok : loop_alive s = true → r.1 = Ok (menu s);
  mr_value o : r.1 = Ok o → o = menu s ∧ menu r.2 = None;
  mr_windows o : r.1 = Ok o → ∀ l, window_menu l r.2 = if has_app_wide_menu l s then None else window_menu l s;
  mr_alive : loop_alive r.2 = loop_alive s;
  mr_dom : dom (windows r.2) = dom (windows s);
  mr_inv : inv r.2;
  mr_exact : exact s → exact r.2;
}.

Lemma stash_remove_exact s1 :
  exact s1 → exact (remove_menu_from_stash_by_id (id <$> menu s1) (set_app_menu None s1)).
Proof.
  intros [Ha He]. destruct (stash_remove_spec (id <$> menu s1) (set_app_menu None s1)) as (ms & -> & _ & _ & H3).
  split; [done|]. intros j Hj. destruct (H3 j Hj) as [H|[Hne H]]; [exact H|].
  destruct (He j H) as [(m & Hm & Hi)|Hwin]; [|by right]. rewrite Hm in Hne. simpl in Hne. congruence.
Qed.

Lemma remove_menu_spec order s :
  inv s → order ≡ₚ (map_to_list (windows s)).*1 → menu_removed s (remove_menu order s).
Proof.
  intros I Ho. pose proof (remove_loop order s) as L. pose proof (no_app_wide_left order s I Ho) as N.
  unfold remove_menu. destruct (menu s) as [m|] eqn:Hm.
  - destruct (for_windows remove_app_wide order s) as [[[]|e|msg|] s1]; simpl in N.
    2-4: by split; simpl; [intros Ha; discriminate (lr_ok _ _ _ L Ha)|done|done|apply L|apply L|apply (lr_inv _ _ _ L), I|apply L].
    destruct (stash_remove_spec (id <$> menu s1) (set_app_menu None s1)) as (ms & E & _).
    assert (menu s1 = Some m) as Hm1 by exact (eq_trans (lr_menu _ _ _ L) Hm).
    assert (∀ l, window_menu l s1 = if has_app_wide_menu l s then None else window_menu l s) as Hw.
    { intros l. pose proof (lr_windows _ _ _ L eq_refl l) as Hl. simpl in Hl. rewrite Hl. destruct (has_app_wide_menu l s) eqn:Ha.
      - rewrite bool_decide_true; [done|]. rewrite Ho. unfold has_app_wide_menu in Ha.
        destruct (window_menu l s) as [w|] eqn:Hwm; [|done]. apply window_managed in Hwm as [x Hx].
        apply list_elem_of_fmap. exists (l, x). split; [done|]. by apply elem_of_map_to_list.
      - by rewrite andb_false_r. }
    cbn [fst snd]. rewrite E. split; cbn [fst snd].
    + intros _. by rewrite Hm1, Hm.
    + intros o [= <-]. by rewrite Hm1, Hm.
    + intros o _ l. exact (Hw l).
    + apply L.
    + apply L.
    + rewrite <- E. apply stash_remove_inv, set_no_menu_inv; [by apply (lr_inv _ _ _ L)|by apply N].
    + intros Hx. rewrite <- E. apply stash_remove_exact. by apply (lr_exact _ _ _ L).
  - assert (∀ l, has_app_wide_menu l s = false) as Hn.
    { intros l. unfold has_app_wide_menu. destruct (window_menu l s) as [w|] eqn:Hw; [|done]. simpl.
      destruct (is_app_wide w) eqn:Ha; [|done]. by rewrite (inv_app_wide _ I l w Hw Ha) in Hm. }
    rewrite Hm. cbn [fmap option_fmap option_map remove_menu_from_stash_by_id fst snd].
    split; cbn [fst snd]; [by rewrite Hm|intros o [= <-]; by rewrite Hm| |done|done|by apply set_no_menu_inv|].
    + intros o _ l. by rewrite Hn.
    + intros [Ha He]. split; [done|]. intros j Hj. destruct (He j Hj) as [(m & ? & _)|H]; [congruence|by right].
Qed.

(** The new menu is given to the windows without a menu of their own. *)
Record loop_assigned (m : Menu) (order : list string) (s : State) (r : outcome MenuError unit * State) : Prop := {
  la_ok : loop_alive s = true → r.1 = Ok ();
  la_menu : menu r.2 = menu s;
  la_windows : r.1 = Ok () → ∀ l,
    window_menu l r.2 =
      if bool_decide (l ∈ order) && (has_app_wide_menu l s || bool_decide (window_menu l s = None))
      then Some (mk_window_menu true m) else window_menu l s;
  la_inv : inv r.2;
  la_exact : exact s → exact r.2;
}.

Lemma assign_app_wide_spec m label s :
  is_Some (windows s !! label) → inv s → menu s = Some m →
  (has_app_wide_menu label s || bool_decide (window_menu label s = None) = false ∧ assign_app_wide m label s = (Ok (), s)) ∨
  (has_app_wide_menu label s || bool_decide (window_menu label s = None) = true ∧
   loop_alive s = true ∧ (∃ s', assign_app_wide m label s = (Ok (), s') ∧ menu s' = menu s ∧ loop_alive s' = true ∧
     dom (windows s') = dom (windows s) ∧ inv s' ∧ (exact s → exact s') ∧
     ∀ l, window_menu l s' = if decide (l = label) then Some (mk_window_menu true m) else window_menu l s)) ∨
  (loop_alive s = false ∧ (assign_app_wide m label s).1 ≠ Ok () ∧ inv (assign_app_wide m label s).2 ∧
   menu (assign_app_wide m label s).2 = menu s).
Proof.
  intros Hw I Hm. unfold assign_app_wide. destruct (_ || _) eqn:Hc; [right|by left]. destruct (loop_alive s) eqn:Ha; [left|right].
  - split; [done|]. split; [done|]. destruct (window_set_menu_alive label m s Ha) as (s1 & s2 & R & A & ->).
    apply put_assigned in A. set (s3 := put_menu _ _ s2) in *. exists s3. split; [done|].
    assert (is_Some (windows s1 !! label)) as Hw1 by (rewrite (rm_windows _ _ _ R), lookup_alter_eq; destruct Hw as [x ->]; eauto).
    assert (window_menu label s1 = None) as Hn by by rewrite (removed_window _ _ _ _ R), decide_True.
    assert (menu s1 = Some m) as Hm1 by by rewrite (rm_menu _ _ _ R).
    split_and!.
    + by rewrite (as_menu _ _ _ _ A), (rm_menu _ _ _ R).
    + by rewrite (as_alive _ _ _ _ A), (rm_alive _ _ _ R).
    + by rewrite (as_windows _ _ _ _ A), (rm_windows _ _ _ R), !dom_alter_windows.
    + by eapply assigned_inv; [eapply removed_inv|..].
    + intros E. by eapply assigned_exact; [eapply removed_exact|..].
    + intros l. rewrite (assigned_window _ _ _ _ _ A Hw1), (removed_window _ _ _ _ R). by case_decide.
  - split; [done|]. destruct (window_set_menu_dead label m s Ha) as (s1 & R & Hs & Hne).
    destruct (window_set_menu label m s) as [[o|e|msg|] s']; simpl in *; [by destruct (Hne o)|..];
      (split; [done|]); destruct Hs as [->| ->]; split;
      first [by eapply removed_inv|by eapply insert_stash_inv, removed_inv|apply (rm_menu _ _ _ R)].
Qed.

Lemma assign_loop m order s :
  inv s → menu s = Some m → (∀ l, l ∈ order → is_Some (windows s !! l)) →
  loop_assigned m order s (for_windows (assign_app_wide m) order s).
Proof.
  revert s. induction order as [|label order IH]; intros s I Hm Ho; simpl; [by split|].
  destruct (assign_app_wide_spec m label s) as [[Hc ->]|[(Hc & Ha & s' & -> & H1 & H2 & H3 & H4 & H5 & H6)|(Ha & Hne & Hi & Hmn)]];
    [apply Ho; left|done|done|..].
  - destruct (IH s I Hm) as [K1 K2 K3 K4 K5]; [intros l Hl; apply Ho; by right|]. split; auto. intros Hr l. rewrite K3 by done.
    destruct (decide (l = label)) as [->|Hl]; [by rewrite Hc, !andb_false_r|].
    by rewrite (bool_decide_ext (l ∈ label :: order) (l ∈ order)) by set_solver.
  - destruct (IH s' H4) as [K1 K2 K3 K4 K5]; [congruence| |].
    { intros l Hl. apply elem_of_dom. rewrite H3. apply elem_of_dom, Ho. by right. }
    split; [auto|congruence| |done|auto]. intros Hr l. rewrite K3 by done. unfold has_app_wide_menu. rewrite H6.
    destruct (decide (l = label)) as [->|Hl].
    + rewrite (bool_decide_true (label ∈ label :: order)) by set_solver. unfold has_app_wide_menu in Hc. rewrite Hc. simpl.
      by destruct (bool_decide (label ∈ order)).
    + by rewrite (bool_decide_ext (l ∈ label :: order) (l ∈ order)) by set_solver.
  - destruct (assign_app_wide m label s) as [[[]|e|msg|] s']; simpl in *; [done|..];
      (split; simpl; [congruence|done|done|done|intros [? _]; congruence]).
Qed.

Lemma set_some_menu_inv m s :
  inv s → menu s = None → inv (set_app_menu (Some m) (insert_menu_into_stash m s)).
Proof.
  intros I Hm. pose proof (insert_stash_inv m s I) as I'. split; simpl; [| |apply (inv_ids _ I')|apply (inv_bars _ I')].
  - intros l w Hw Ha. by rewrite (inv_app_wide _ I l w Hw Ha) in Hm.
  - intros j [(m' & [= <-] & <-)|H]; [rewrite lookup_insert_eq; eauto|]. apply (inv_stash _ I'). by right.
Qed.

Lemma set_some_menu_exact m s :
  exact s → menu s = None → exact (set_app_menu (Some m) (insert_menu_into_stash m s)).
Proof.
  intros [Ha He] Hm. split; [done|]. simpl. intros j. rewrite lookup_insert. case_decide as Hj.
  - intros _. left. by exists m.
  - intros [(m' & Hm' & _)|H]%He; [congruence|by right].
Qed.

Record menu_set (m : Menu) (s : State) (r : outcome MenuError (option Menu) * State) : Prop := {
  ms_ok : loop_alive s = true → r.1 = Ok (menu s);
  ms_value o : r.1 = Ok o → o = menu s ∧ menu r.2 = Some m;
  ms_windows o : r.1 = Ok o → ∀ l, is_Some (windows s !! l) →
    window_menu l r.2 = if has_app_wide_menu l s || bool_decide (window_menu l s = None)
                        then Some (mk_window_menu true m) else window_menu l s;
  ms_inv : inv r.2;
  ms_exact : exact s → exact r.2;
}.

Lemma set_menu_spec removing order m s :
  inv s → removing ≡ₚ (map_to_list (windows s)).*1 → order ≡ₚ (map_to_list (windows s)).*1 →
  menu_set m s (set_menu removing order m s).
Proof.
  intros I Hr Ho. pose proof (remove_menu_spec removing s I Hr) as R. unfold set_menu.
  destruct (remove_menu removing s) as [[o|e|msg|] s1].
  2-4: by split; simpl; [intros Ha; discriminate (mr_ok _ _ R Ha)|done|done|apply R|apply R].
  destruct (mr_value _ _ R o eq_refl) as [-> Hn]. simpl in Hn.
  assert (∀ l, l ∈ order ↔ is_Some (windows s !! l)) as Hord.
  { intros l. rewrite Ho, list_elem_of_fmap, <- elem_of_dom, elem_of_dom. split.
    - intros ([l' w] & -> & H%elem_of_map_to_list). eauto.
    - intros [w H]. exists (l, w). split; [done|]. by apply elem_of_map_to_list. }
  assert (∀ l, is_Some (windows s1 !! l) ↔ is_Some (windows s !! l)) as Hdom.
  { intros l. rewrite <- !elem_of_dom. pose proof (mr_dom _ _ R) as D. simpl in D. by rewrite D. }
  set (s2 := set_app_menu (Some m) (insert_menu_into_stash m s1)).
  pose proof (assign_loop m order s2 (set_some_menu_inv m s1 (mr_inv _ _ R) Hn) eq_refl) as A.
  assert (∀ l, l ∈ order → is_Some (windows s2 !! l)) as Hin by (intros l Hl; by apply Hdom, Hord).
  specialize (A Hin). pose proof (mr_windows _ _ R _ eq_refl) as W. simpl in W.
  destruct (for_windows (assign_app_wide m) order s2) as [[[]|e|msg|] s3].
  2-4: split; cbn [fst snd]; [intros Ha; discriminate (la_ok _ _ _ _ A (eq_trans (mr_alive _ _ R) Ha))|done|done|apply A|
         intros E; apply (la_exact _ _ _ _ A), set_some_menu_exact; [by apply (mr_exact _ _ R)|done]].
  split; cbn [fst snd]; [done| | |apply A|intros E; apply (la_exact _ _ _ _ A), set_some_menu_exact; [by apply (mr_exact _ _ R)|done]].
  - intros o [= <-]. split; [done|]. exact (la_menu _ _ _ _ A).
  - intros o _ l Hl. rewrite (la_windows _ _ _ _ A eq_refl). rewrite bool_decide_true by by apply Hord.
    unfold has_app_wide_menu. change (window_menu l s2) with (window_menu l s1). rewrite W.
    unfold has_app_wide_menu. destruct (window_menu l s) as [w|]; simpl; [|done].
    destruct (is_app_wide w) eqn:Hx; simpl; [done|]. by rewrite Hx.
Qed.

(** *** Other steps *)
Lemma window_show_inv op label s :
  op = HideFor ∨ op = ShowFor → inv s → inv (window_show op label s).2 ∧ (exact s → exact (window_show op label s).2).
Proof.
  intros Hop I. unfold window_show, run_on_main_thread. destruct (window_menu label s) as [m|] eqn:Hm; [|done].
  destruct (loop_alive s) eqn:Ha; [|done]. simpl. split; [|done].
  split; simpl; [apply (inv_app_wide _ I)|apply (inv_stash _ I)|apply (inv_ids _ I)|].
  intros l _. rewrite bar_snoc, (inv_bars _ I l Ha). change (window_menu l (log (op label (menu_of m)) s)) with (window_menu l s).
  destruct Hop as [-> | ->]; simpl; (case_decide; [subst; rewrite Hm; simpl; by rewrite decide_True|done]).
Qed.

Definition new_window_menu (m : option Menu) (s : State) : option WindowMenu :=
  match m with Some m => Some (mk_window_menu false m) | None => mk_window_menu true <$> menu s end.

Lemma window_menu_insert label w s l :
  window_menu l (set_windows <[label := w]> s) = if decide (l = label) then w else window_menu l s.
Proof.
  unfold window_menu. simpl. rewrite lookup_insert. case_decide as H; case_decide as H'; subst; done.
Qed.

Lemma build_window_inv label m h s :
  windows s !! label = None → loop_alive s = true → inv s →
  inv (build_window label m h true s) ∧ (exact s → exact (build_window label m h true s)).
Proof.
  intros Hn Ha I. unfold build_window. fold (new_window_menu m s). set (w := new_window_menu m s).
  assert (∀ x, w = Some x → is_app_wide x = true → menu s = Some (menu_of x)) as Hwide.
  { unfold w, new_window_menu. destruct m as [m'|]; [by intros x [= <-]|]. destruct (menu s); [|done]. by intros x [= <-]. }
  assert (window_menu label s = None) as Hwn by (unfold window_menu; by rewrite Hn).
  set (s1 := prepare_window_menu_creation_handler w s).
  set (s2 := match w with Some x => log (InitFor label (menu_of x)) s1 | None => s1 end).
  set (s3 := set_windows <[label := w]> s2).
  assert (inv s3 ∧ (exact s → exact s3)) as H3.
  { assert (∀ l, window_menu l s3 = if decide (l = label) then w else window_menu l s) as Hw3.
    { intros l. unfold s3. rewrite window_menu_insert. case_decide; [done|]. unfold s2, s1. by destruct w. }
    assert (menu s3 = menu s ∧ loop_alive s3 = true) as [Hm3 Ha3] by (unfold s3, s2, s1; destruct w; done).
    assert (∀ i, used i s → used i s3) as Hu.
    { intros i [(x & Hx & Hi)|(l & x & Hx & Hi)]; [left; exists x; by rewrite Hm3|right]. exists l, x. rewrite Hw3.
      rewrite decide_False by congruence. done. }
    assert (∀ i, used i s3 → used i s ∨ ∃ x, w = Some x ∧ id (menu_of x) = i) as Hu'.
    { intros i [(x & Hx & Hi)|(l & x & Hx & Hi)]; [left; left; exists x; by rewrite <- Hm3|]. rewrite Hw3 in Hx.
      case_decide; [eauto|left; right; eauto]. }
    assert (menus s3 = match w with Some x => <[id (menu_of x) := menu_of x]> (menus s) | None => menus s end) as Hs3
      by (unfold s3, s2, s1; destruct w; done).
    split; [split|].
    - intros l x Hx Hax. rewrite Hm3. rewrite Hw3 in Hx. case_decide; [auto|]. by eapply inv_app_wide.
    - intros i [Hi|(x & Hx & Hi)]%Hu'; rewrite Hs3.
      + destruct w; [rewrite lookup_insert; case_decide; [eauto|]|]; by apply (inv_stash _ I).
      + rewrite Hx, <- Hi, lookup_insert_eq. eauto.
    - intros i x. rewrite Hs3. destruct w; [|apply (inv_ids _ I)].
      intros [[<- <-]|[_ Hx]]%lookup_insert_Some; [done|]. by apply (inv_ids _ I).
    - intros l _. rewrite Hw3. pose proof (inv_bars _ I l Ha) as Hb.
      assert (native s3 = native s ++ from_option (λ x, [InitFor label (menu_of x)]) [] w) as Hn3
        by (unfold s3, s2, s1; destruct w; simpl; by rewrite ?app_nil_r).
      rewrite Hn3. destruct w as [x|]; simpl.
      + rewrite bar_snoc, Hb. simpl. destruct (decide (label = l)) as [->|Hl].
        * rewrite Hwn. simpl. by rewrite decide_True.
        * by rewrite decide_False.
      + rewrite app_nil_r, Hb. case_decide; [subst; by rewrite Hwn|done].
    - intros [_ He]. split; [done|]. intros i. rewrite Hs3. destruct w as [x|] eqn:Hw; [|intros Hi; by apply Hu, He].
      rewrite lookup_insert. case_decide as Hi; [intros _|intros Hj; by apply Hu, He].
      right. exists label, x. rewrite Hw3, decide_True by done. done. }
  destruct h as [h|]; [|exact H3]. destruct H3 as [[J1 J2 J3 J4] E]. split; [split; [exact J1|exact J2|exact J3|exact J4]|exact E].
Qed.

Lemma close_inv label s : inv s → inv (on_window_close label (log (Destroyed label) s)).
Proof.
  intros I. set (s' := on_window_close _ _).
  assert (∀ l, window_menu l s' = if decide (l = label) then None else window_menu l s) as Hw.
  { intros l. unfold s', window_menu. simpl. case_decide; [subst; by rewrite lookup_delete_eq|by rewrite lookup_delete_ne]. }
  split; simpl.
  - intros l m. rewrite Hw. case_decide; [done|]. apply (inv_app_wide _ I).
  - intros i [H|(l & m & Hm & Hi)]; apply (inv_stash _ I); [by left|right]. rewrite Hw in Hm. case_decide; [done|eauto].
  - apply (inv_ids _ I).
  - intros l Ha. rewrite bar_snoc, (inv_bars _ I l Ha), Hw. simpl. case_decide as H; case_decide as H'; subst; done.
Qed.

Lemma step_inv leaks s s' : inv s → step leaks s s' → inv s' ∧ (leaks = false → exact s → exact s').
Proof.
  intros I Hs. destruct Hs as [label m Hw|label Hw|op label Hop|label h|h|label m h Hn Ha|removing order m Hr Ho|order Ho|
    label ->|label m h ->| ->].
  - destruct (window_set_menu_inv label m s Hw I). auto.
  - destruct (window_remove_menu_spec label s) as [R _]. eauto using removed_inv, removed_exact.
  - destruct (window_show_inv op label s Hop I). auto.
  - destruct I as [J1 J2 J3 J4]. split; [split; [exact J1|exact J2|exact J3|exact J4]|]. intros _ E. exact E.
  - destruct I as [J1 J2 J3 J4]. split; [split; [exact J1|exact J2|exact J3|exact J4]|]. intros _ E. exact E.
  - destruct (build_window_inv label m h s Hn Ha I). auto.
  - destruct (set_menu_spec removing order m s I Hr Ho) as [_ _ _ J E]. auto.
  - destruct (remove_menu_spec order s I Ho) as [_ _ _ _ _ J E]. auto.
  - split; [by apply close_inv|done].
  - split; [|done]. unfold build_window, prepare_window_menu_creation_handler.
    destruct (match m with Some _ => _ | None => _ end); [by apply insert_stash_inv|done].
  - split; [|done]. destruct I as [J1 J2 J3 J4]. split; [exact J1|exact J2|exact J3|done].
Qed.

Lemma initial_inv m : inv (initial m) ∧ exact (initial m).
Proof.
  assert (∀ l, window_menu l (initial m) = None) as Hw by by destruct m.
  assert (∀ i, is_Some (menus (initial m) !! i) ↔ ∃ x, menu (initial m) = Some x ∧ id x = i) as Hs.
  { intros i. destruct m as [m|]; simpl.
    - rewrite lookup_insert. case_decide; [naive_solver|]. rewrite lookup_empty. split; [by intros []|naive_solver].
    - rewrite lookup_empty. split; [by intros []|naive_solver]. }
  split; [split|split; [by destruct m|]].
  - intros l x. by rewrite Hw.
  - intros i [H|(l & x & Hx & _)]; [by apply Hs|by rewrite Hw in Hx].
  - intros i x. destruct m as [m|]; simpl; [|by rewrite lookup_empty]. by intros [<- <-]%lookup_singleton_Some.
  - intros l _. rewrite Hw. by destruct m.
  - intros i Hi. left. by apply Hs.
Qed.

Lemma menus_reachable leaks m s :
  rtc (step leaks) (initial m) s → inv s ∧ (leaks = false → exact s).
Proof.
  pose proof (initial_inv m) as [I E]. assert (leaks = false → exact (initial m)) as E' by done. revert I E'. clear E.
  generalize (initial m). intros s0 I E Hr. induction Hr as [s|s s1 s2 Hs Hr IH]; [by split|].
  destruct (step_inv _ _ _ I Hs) as [I1 E1]. apply IH; auto.
Qed.

(** C19. In every state that is reached, a window with the app-wide menu has the
    menu of the application, the menus of the application and of the windows are
    in the stash, and while the event loop runs every window shows its menu and
    no other. *)
Theorem menus_invariant m s :
  rtc (step true) (initial m) s →
  (∀ label w, window_menu label s = Some w → is_app_wide w = true → menu s = Some (menu_of w)) ∧
  (∀ i, used i s → ∃ x, menus s !! i = Some x ∧ id x = i) ∧
  (loop_alive s = true → ∀ label, bar label (native s) = Some (menu_of <$> window_menu label s)).
Proof.
  intros [I _]%menus_reachable. split_and!; [apply (inv_app_wide _ I)| |intros Ha label; by apply (inv_bars _ I)].
  intros i [x Hx]%(inv_stash _ I). exists x. split; [done|]. by apply (inv_ids _ I).
Qed.

(** As long as no window is closed, the stash holds the menus that are used and
    no others. *)
Theorem stash_exact m s :
  rtc (step false) (initial m) s → ∀ i, is_Some (menus s !! i) ↔ used i s.
Proof. intros [I E]%menus_reachable i. split; [by apply E|apply (inv_stash _ I)]. Qed.

Lemma window_set_menu_loop label m s : loop_alive (window_set_menu label m s).2 = loop_alive s.
Proof.
  destruct (loop_alive s) eqn:Ha.
  - destruct (window_set_menu_alive label m s Ha) as (s1 & s2 & R & A & ->). simpl.
    by rewrite (as_alive _ _ _ _ A), (rm_alive _ _ _ R).
  - destruct (window_set_menu_dead label m s Ha) as (s1 & R & [->| ->] & _); [|simpl]; by rewrite (rm_alive _ _ _ R).
Qed.

Lemma set_menu_loop removing order m s : loop_alive (set_menu removing order m s).2 = loop_alive s.
Proof.
  assert (loop_alive (remove_menu removing s).2 = loop_alive s) as H1.
  { unfold remove_menu. pose proof (lr_alive _ _ _ (remove_loop removing s)) as L.
    destruct (menu s); [destruct (for_windows remove_app_wide removing s) as [[u|e|msg|] s1]; simpl in *; try done|simpl].
    all: match goal with |- context [remove_menu_from_stash_by_id ?i ?x] =>
           destruct (stash_remove_spec i x) as (ms & -> & _) end; done. }
  unfold set_menu. destruct (remove_menu removing s) as [[o|e|msg|] s1]; simpl in H1; [|done..].
  set (s2 := set_app_menu _ _).
  assert (loop_alive (for_windows (assign_app_wide m) order s2).2 = loop_alive s) as H2.
  { apply (for_windows_inv (λ x, loop_alive x = loop_alive s)); [|done]. intros l x Hx. unfold assign_app_wide.
    destruct (_ || _); [|done]. pose proof (window_set_menu_loop l m x) as Hl.
    destruct (window_set_menu l m x) as [[o'|e|msg|] x']; simpl in *; congruence. }
  destruct (for_windows (assign_app_wide m) order s2) as [[u|e|msg|] s3]; exact H2.
Qed.

(** Setting the menu of the application gives it to every window that has no
    menu or the app-wide one and to no other, answers with the previous menu, and
    leaves every window with the menu bar of its menu. *)
Theorem set_menu_assigns leaks m0 m s removing order :
  rtc (step leaks) (initial m0) s → loop_alive s = true →
  removing ≡ₚ (map_to_list (windows s)).*1 → order ≡ₚ (map_to_list (windows s)).*1 →
  ∃ s', set_menu removing order m s = (Ok (menu s), s') ∧ menu s' = Some m ∧
    (∀ l w, windows s !! l = Some w →
       window_menu l s' = match w with
                          | Some x => if is_app_wide x then Some (mk_window_menu true m) else Some x
                          | None => Some (mk_window_menu true m)
                          end) ∧
    (∀ l, bar l (native s') = Some (menu_of <$> window_menu l s')).
Proof.
  intros [I _]%menus_reachable Ha Hr Ho. pose proof (set_menu_spec removing order m s I Hr Ho) as S.
  pose proof (set_menu_loop removing order m s) as L.
  destruct (set_menu removing order m s) as [r s'] eqn:E. exists s'. pose proof (ms_ok _ _ _ S Ha) as Hok. simpl in Hok, L. subst r.
  destruct (ms_value _ _ _ S _ eq_refl) as [_ Hm]. split_and!; [done|done| |].
  - intros l w Hw. pose proof (ms_windows _ _ _ S _ eq_refl l ltac:(eauto)) as H. simpl in H. rewrite H.
    unfold has_app_wide_menu, window_menu. rewrite Hw. simpl. destruct w as [x|]; simpl; [|done]. by destruct (is_app_wide x).
  - intros l. apply (inv_bars _ (ms_inv _ _ _ S)). simpl. congruence.
Qed.

(** ** Examples *)
Definition ex_menu (i : string) : Menu := mk_menu i 0.

(** One window with the menu of the application and one with its own. *)
Definition ex_windows : State :=
  build_window "own" (Some (ex_menu "own")) None true
    (build_window "main" None (Some 7) true (initial (Some (ex_menu "app")))).

Lemma ex_windows_reachable leaks : rtc (step leaks) (initial (Some (ex_menu "app"))) ex_windows.
Proof.
  eapply rtc_l; [apply (step_build leaks _ "main" None (Some 7)); reflexivity|].
  eapply rtc_l; [apply (step_build leaks _ "own" (Some (ex_menu "own")) None); reflexivity|]. apply rtc_refl.
Qed.

Lemma menus_invariant_witness :
  ∃ s, rtc (step true) (initial (Some (ex_menu "app"))) s ∧
    bar "main" (native s) = Some (Some (ex_menu "app")) ∧ bar "own" (native s) = Some (Some (ex_menu "own")).
Proof.
  exists ex_windows. split; [apply ex_windows_reachable|].
  destruct (menus_invariant (Some (ex_menu "app")) ex_windows (ex_windows_reachable true)) as (_ & _ & H).
  split; [rewrite (H eq_refl "main")|rewrite (H eq_refl "own")]; reflexivity.
Defined.

Lemma set_menu_assigns_witness :
  ∃ s', set_menu (map_to_list (windows ex_windows)).*1 (map_to_list (windows ex_windows)).*1 (ex_menu "new") ex_windows =
    (Ok (Some (ex_menu "app")), s') ∧
    window_menu "main" s' = Some (mk_window_menu true (ex_menu "new")) ∧
    window_menu "own" s' = Some (mk_window_menu false (ex_menu "own")).
Proof.
  destruct (set_menu_assigns true (Some (ex_menu "app")) (ex_menu "new") ex_windows
    (map_to_list (windows ex_windows)).*1 (map_to_list (windows ex_windows)).*1
    (ex_windows_reachable true) eq_refl (Permutation_refl _) (Permutation_refl _)) as (s' & E & _ & H & _).
  exists s'. split; [exact E|].
  split; [exact (H "main" (Some (mk_window_menu true (ex_menu "app"))) eq_refl)|
          exact (H "own" (Some (mk_window_menu false (ex_menu "own"))) eq_refl)].
Defined.

(** The menu of a window that was closed stays in the stash of active menus. *)
Theorem closed_window_menu_stays :
  let s := on_window_close "own" (log (Destroyed "own") ex_windows) in
  rtc (step true) (initial (Some (ex_menu "app"))) s ∧ menus s !! "own" = Some (ex_menu "own") ∧ ~ used "own" s.
Proof.
  split; [eapply rtc_r; [apply ex_windows_reachable|by apply step_close]|]. split; [reflexivity|].
  intros [(m & [= <-] & Hi)|(l & m & Hm & Hi)]; [discriminate|].
  unfold window_menu in Hm. simpl in Hm. apply bind_Some in Hm as (w & Hw & ->).
  apply lookup_delete_Some in Hw as [Hl Hw]. apply lookup_insert_Some in Hw as [[E _]|[_ Hw]]; [congruence|].
  apply lookup_insert_Some in Hw as [[_ [= <-]]|[_ Hw]]; [discriminate|done].
Qed.

(** The handler of a window that was closed is called for a later window with
    its label. *)
Theorem closed_window_handler_stays :
  let s := on_window_close "main" (log (Destroyed "main") ex_windows) in
  dispatch_menu_event ["main"] s = [] ∧
  dispatch_menu_event ["main"] (build_window "main" None None true s) = [ForWindow "main" 7].
Proof. split; reflexivity. Qed.

(** Of two icons with one id the first is removed, whichever is closed. *)
Theorem wrong_icon_removed i j t :
  icons t = [mk_tray_icon "id" i; mk_tray_icon "id" j] →
  remove_tray_by_id "id" t =
  (Some (mk_tray_icon "id" i), mk_tray_manager [mk_tray_icon "id" j] (tray_global_listeners t) (tray_listeners t)).
Proof. intros Ht. unfold remove_tray_by_id. by rewrite Ht. Qed.

(** A tray event is only answered for an icon that is registered under its id. *)
Lemma dispatch_tray_registered i order t icon h :
  (icon, h) ∈ (dispatch_tray_event i order t).2 →
  icon ∈ icons t ∧ tray_id icon = i ∧ tray_listeners t !! i = Some h.
Proof.
  unfold dispatch_tray_event. simpl. intros (j & _ & H)%list_elem_of_omap. apply bind_Some in H as (h' & Hh & H).
  case_decide as Hj; [subst|done]. apply bind_Some in H as (icon' & Hi & [= <- <-]). unfold tray_by_id in Hi.
  apply List.find_some in Hi as [Hin Hi%bool_decide_eq_true]. apply list_elem_of_In in Hin. done.
Qed.

End Menus.
