(* ===== verification/AclCli.v ===== *)
(** * Permissions at the command line

    Models [tauri-cli/Source/acl]: [permission add] and [permission rm], which
    edit the capability and permission files of a project, and [permission new]
    and [capability new], which write them; with the table of
    [tauri-cli/Source/helpers/plugins.rs]. A program passes the files on, also when
    it fails. A directory is the tree that was there when the command started.
    Formatting and comments of a TOML document are not part of the model; its
    parsers and writers, the answers to prompts and the directories are
    parameters. *)
From Stdlib Require Import Ascii.
From S2P Require Import Prelude Identifier Acl Numbers Paths Values ConfigFiles BuildSupport TauriBuild JsonObject.
Import Identifier Acl Values JsonObject.

Abbreviation PathBuf := (list Paths.Component).
Abbreviation Table := (list (string * toml)).

(** An entry of a directory: what [file_type] answers, and the entries of a
    directory that can be read. *)
Inductive Entry :=
| EFile (name : string)
| EDir (name : string) (entries : option (list Entry))
| EOther (name : string)
| EUnknown (name : string).

Class AclCliLib {SL : SerdeLib} := {
  document_from_str : string → option Table;
  document_to_string : Table → string;
  value_from_slice : string → option json;
  value_to_string_pretty : json → option string;
  permission_file_from_toml : string → option PermissionFile;
  permission_file_from_json : string → option PermissionFile;
  permission_file_to_toml : PermissionFile → option string;
  permission_file_to_json : PermissionFile → option string;
  capability_to_toml : Capability → option string;
  capability_to_json : Capability → option string;
  (** whether all was written or done, and the files then *)
  acl_write : PathBuf → string → Files → bool * Files;
  acl_remove : PathBuf → Files → bool * Files;
  acl_create_dir_all : PathBuf → Files → bool;
  acl_exists : PathBuf → Files → bool;
  (** [Path::to_str] of a simplified path *)
  path_text : PathBuf → string;
  (** the elements of a hash set, in some order *)
  set_order : gset string → list string;
  acl_canonicalize : PathBuf → option PathBuf;
  acl_tauri_dir : option PathBuf;
  acl_current_dir : option PathBuf;
  (** the answers to the prompts; [None] is an error *)
  multiselect : list string → option (list nat);
  input : string → option (option string);
  confirm : string → option bool;
}.

Module AclCli.
Section AclCli.
Context {SL : SerdeLib} {AL : AclCliLib}.

(** ** Programs *)
Inductive AclError := IoError | SerdeError | NotFound | NothingSelected | AlreadyExists.

Definition prog (A : Type) : Type := Files → outcome AclError A * Files.

Definition ret {A} (a : A) : prog A := λ w, (Ok a, w).
Definition fail {A} (e : AclError) : prog A := λ w, (Err e, w).
Definition panic {A} (msg : string) : prog A := λ w, (Panic msg, w).
Definition bind {A B} (p : prog A) (f : A → prog B) : prog B := λ w,
  match p w with
  | (Ok a, w) => f a w
  | (Err e, w) => (Err e, w)
  | (Panic msg, w) => (Panic msg, w)
  | (Diverge, w) => (Diverge, w)
  end.
Definition get_or {A} (o : option A) (e : AclError) : prog A := match o with Some a => ret a | None => fail e end.
Definition read (p : PathBuf) : prog string := λ w, get_or (w p) IoError w.
Definition write (p : PathBuf) (text : string) : prog unit := λ w,
  let '(done, w) := acl_write p text w in ((if done then Ok () else Err IoError), w).
Definition remove_file (p : PathBuf) : prog unit := λ w,
  let '(done, w) := acl_remove p w in ((if done then Ok () else Err IoError), w).
Fixpoint each {A} (f : A → prog unit) (l : list A) : prog unit :=
  match l with [] => ret () | x :: l => bind (f x) (λ _, each f l) end.

(** ** Known plugins *)
Record PluginMetadata := mk_plugin_metadata {
  desktop_only : bool;
  mobile_only : bool;
  rust_only : bool;
  builder : bool;
}.

Definition desktop_only_plugins : list string :=
  ["authenticator"; "autostart"; "cli"; "global-shortcut"; "positioner"; "single-instance"; "updater"; "window-state"].
Definition mobile_only_plugins : list string := ["barcode-scanner"; "biometric"; "nfc"; "haptics"].
Definition builder_plugins : list string :=
  ["global-shortcut"; "localhost"; "log"; "sql"; "store"; "stronghold"; "updater"; "window-state"].
Definition rust_only_plugins : list string := ["localhost"; "persisted-scope"; "single-instance"].
Definition other_plugins : list string :=
  ["geolocation"; "deep-link"; "dialog"; "fs"; "http"; "notification"; "os"; "process"; "shell"; "upload"; "websocket";
   "opener"].

(** [plugins.entry(p).or_default()], changed by [f]. *)
Definition known (f : PluginMetadata → PluginMetadata) (ps : list string) (m : gmap string PluginMetadata)
    : gmap string PluginMetadata :=
  foldl (λ m p, entry_or (mk_plugin_metadata false false false false) f p m) m ps.

(** Without the requirement on versions, which is the same for all. *)
Definition known_plugins : gmap string PluginMetadata :=
  let m := known (λ d, mk_plugin_metadata true (mobile_only d) (rust_only d) (builder d)) desktop_only_plugins ∅ in
  let m := known (λ d, mk_plugin_metadata (desktop_only d) true (rust_only d) (builder d)) mobile_only_plugins m in
  let m := known (λ d, mk_plugin_metadata (desktop_only d) (mobile_only d) (rust_only d) true) builder_plugins m in
  let m := known (λ d, mk_plugin_metadata (desktop_only d) (mobile_only d) true (builder d)) rust_only_plugins m in
  known (λ d, d) other_plugins m.

(** ** Capability documents *)
Inductive TomlOrJson := Toml (t : Table) | Json (j : json).

Fixpoint toml_get (k : string) (t : Table) : option toml :=
  match t with [] => None | (k', v) :: t => if decide (k' = k) then Some v else toml_get k t end.
Fixpoint toml_insert (k : string) (v : toml) (t : Table) : Table :=
  match t with
  | [] => [(k, v)]
  | (k', v') :: t => if decide (k' = k) then (k, v) :: t else (k', v') :: toml_insert k v t
  end.
Definition toml_str (v : toml) : option string := match v with TString s => Some s | _ => None end.

(** [Value::get] of a key. *)
Definition json_get (k : string) (j : json) : option json := ConfigFiles.as_object j ≫= get k.

Definition identifier (c : TomlOrJson) : string :=
  match c with
  | Toml t => default "" (toml_get "identifier" t ≫= toml_str)
  | Json j => default "" (json_get "identifier" j ≫= ConfigFiles.as_str)
  end.

Definition platforms (c : TomlOrJson) : option (list string) :=
  match c with
  | Toml t => toml_get "platforms" t ≫= λ k, match k with TArray l => mapM toml_str l | _ => None end
  | Json j => json_get "platforms" j ≫= λ k, match k with JArray l => Some (omap ConfigFiles.as_str l) | _ => None end
  end.

Definition insert_permission (id : string) (c : TomlOrJson) : TomlOrJson :=
  match c with
  | Toml t =>
      Toml (match default (TArray []) (toml_get "permissions" t) with
            | TArray l => toml_insert "permissions" (TArray (l ++ [TString id])) t
            | _ => t
            end)
  | Json (JObject o) =>
      Json (JObject (match default (JArray []) (get "permissions" o) with
                     | JArray l => insert "permissions" (JArray (l ++ [JString id])) o
                     | _ => o
                     end))
  | Json j => Json j
  end.

Definition to_string (c : TomlOrJson) : option string :=
  match c with Toml t => Some (document_to_string t) | Json j => value_to_string_pretty j end.

Definition capability_from_path (path : PathBuf) (w : Files) : option TomlOrJson :=
  match ConfigFiles.extension path with
  | Some "toml" => Toml <$> (w path ≫= document_from_str)
  | Some "json" => Json <$> (w path ≫= value_from_slice)
  | _ => None
  end.

(** ** [permission add] *)
Definition entry_file (dir : PathBuf) (e : Entry) : option PathBuf :=
  match e with EFile name => Some (ConfigFiles.join_name dir name) | _ => None end.

(** The capabilities of the directory, those of the given identifier only. *)
Definition find_capabilities (dir : PathBuf) (entries : list Entry) (capability : option string) (w : Files)
    : list (TomlOrJson * PathBuf) :=
  omap (λ e, path ← entry_file dir e; c ← capability_from_path path w;
             match capability with
             | Some id => if decide (id = identifier c) then Some (c, path) else None
             | None => Some (c, path)
             end) entries.

Definition expected_capability_config (p : option PluginMetadata) : option (list string * string) :=
  let '(desktop, mobile) := match p with Some p => (desktop_only p, mobile_only p) | None => (false, false) end in
  if desktop then Some (Target_to_string <$> [MacOS; Windows; Linux], "desktop")
  else if mobile then Some (Target_to_string <$> [Android; Ios], "mobile")
  else None.

Definition matches_platforms (expected : list string) (c : TomlOrJson) : bool :=
  match platforms c with Some ps => forallb (λ p, bool_decide (p ∈ expected)) ps | None => false end.

Definition new_capability (dir : PathBuf) (expected : list string) (target_name : string) : TomlOrJson * PathBuf :=
  (Json (JObject [("identifier", JString (target_name +:+ "-capability"));
                  ("platforms", JArray (JString <$> expected));
                  ("windows", JArray [JString "main"])]),
   ConfigFiles.join_name dir (target_name +:+ ".json")).

Definition candidates (dir : PathBuf) (entries : list Entry) (capability : option string) (id : string) (w : Files)
    : list (TomlOrJson * PathBuf) :=
  let found := find_capabilities dir entries capability w in
  match expected_capability_config ('(plugin, _) ← split_once ":" id; known_plugins !! plugin) with
  | Some (expected, target_name) =>
      match List.filter (λ x, matches_platforms expected x.1) found with
      | [] => [new_capability dir expected target_name]
      | l => l
      end
  | None => found
  end.

(** The label of a capability in the prompt. *)
Definition label_of (x : TomlOrJson * PathBuf) : string :=
  if bool_decide (identifier x.1 = "") then path_text x.2 else identifier x.1.

Definition select (l : list (TomlOrJson * PathBuf)) : outcome AclError (list (TomlOrJson * PathBuf)) :=
  if decide (1 < length l) then
    selections ← ok_or (multiselect (label_of <$> l)) IoError;
    match selections with
    | [] => Err NothingSelected
    | _ => collect (λ i, expect (l !! i) "index out of bounds") selections
    end
  else Ok l.

Definition write_capability (id : string) (x : TomlOrJson * PathBuf) : prog unit :=
  bind (get_or (to_string (insert_permission id x.1)) SerdeError) (write x.2).

(** [entries] are those of the directory of capabilities, if it exists and can
    be read. *)
Definition add_command (id : string) (capability : option string) (entries : option (option (list Entry))) : prog unit :=
  bind (get_or (match acl_tauri_dir with Some t => Some t | None => acl_current_dir end) IoError) (λ dir,
  let capabilities_dir := ConfigFiles.join_name dir "capabilities" in
  bind (get_or entries NotFound) (λ entries,
  bind (get_or entries IoError) (λ entries w,
    match select (candidates capabilities_dir entries capability id w) with
    | Ok [] => (Err NotFound, w)
    | Ok l => each (write_capability id) l w
    | Err e => (Err e, w)
    | Panic msg => (Panic msg, w)
    | Diverge => (Diverge, w)
    end))).

(** ** [permission rm] *)
Definition identifier_match (id permission : string) : bool :=
  match split_once ":" id with
  | Some (plugin_name, rest) =>
      if bool_decide (rest = "*") then str_contains plugin_name permission else bool_decide (permission = id)
  | None => bool_decide (permission = id)
  end.

(** Whether an entry of the permissions of a capability stays. *)
Definition keep_json (id : string) (p : json) : bool :=
  match p with
  | JString s => negb (identifier_match id s)
  | JObject o => match get "identifier" o with Some (JString name) => negb (identifier_match id name) | _ => true end
  | _ => false
  end.
Definition keep_toml (id : string) (p : toml) : bool :=
  match p with
  | TString s => negb (identifier_match id s)
  | TTable o => match toml_get "identifier" o with Some (TString name) => negb (identifier_match id name) | _ => true end
  | _ => false
  end.

(** The document without the permission, if there is one to remove. *)
Definition remove_permission (id : string) (c : TomlOrJson) : option TomlOrJson :=
  match c with
  | Toml t =>
      match toml_get "permissions" t with
      | Some (TArray l) =>
          let l' := List.filter (keep_toml id) l in
          if decide (length l = length l') then None else Some (Toml (toml_insert "permissions" (TArray l') t))
      | _ => None
      end
  | Json (JObject o) =>
      match get "permissions" o with
      | Some (JArray l) =>
          let l' := List.filter (keep_json id) l in
          if decide (length l = length l') then None else Some (Json (JObject (insert "permissions" (JArray l') o)))
      | _ => None
      end
  | Json _ => None
  end.

Definition rm_from_capability (id : string) (path : PathBuf) : prog unit :=
  match ConfigFiles.extension path with
  | Some ext =>
      if bool_decide (ext = "toml") || bool_decide (ext = "json") then
        bind (read path) (λ content,
          let document := if bool_decide (ext = "toml") then Toml <$> document_from_str content
                          else Json <$> value_from_slice content in
          match document ≫= remove_permission id with
          | Some c => bind (get_or (to_string c) SerdeError) (write path)
          | None => ret ()
          end)
      else ret ()
  | None => ret ()
  end.

Definition rm_permission_from_capabilities (id : string) (dir : PathBuf) (entries : list Entry) : prog unit :=
  each (λ e, match e with
             | EFile name => rm_from_capability id (ConfigFiles.join_name dir name)
             | EUnknown _ => fail IoError
             | _ => ret ()
             end) entries.

Definition read_permission_file (path : PathBuf) (ext : string) : prog (option PermissionFile) :=
  if bool_decide (ext = "toml") then
    bind (read path) (λ c, bind (get_or (permission_file_from_toml c) SerdeError) (λ f, ret (Some f)))
  else if bool_decide (ext = "json") then
    bind (read path) (λ c, bind (get_or (permission_file_from_json c) SerdeError) (λ f, ret (Some f)))
  else ret None.

(** The file without the permission, and whether it changed. *)
Definition without_permission (id : string) (f : PermissionFile) : PermissionFile * bool :=
  if bool_decide (id = "default") then
    (mk_permission_file None (file_set f) (file_permission f), bool_decide (is_Some (file_default f)))
  else
    let set := List.filter (λ s, negb (identifier_match id (set_identifier s))) (file_set f) in
    let permission := List.filter (λ p, negb (identifier_match id (permission_identifier p))) (file_permission f) in
    (mk_permission_file (file_default f) set permission,
     bool_decide (length set ≠ length (file_set f)) || bool_decide (length permission ≠ length (file_permission f))).

Definition file_is_empty (f : PermissionFile) : bool :=
  match file_default f, file_set f, file_permission f with None, [], [] => true | _, _, _ => false end.

Definition rm_permission_file (id : string) (path : PathBuf) : prog unit :=
  if bool_decide (ConfigFiles.path_file_name path = Some AclBuild.PERMISSION_SCHEMA_FILE_NAME) then ret ()
  else
    match ConfigFiles.extension path with
    | None => ret ()
    | Some ext =>
        bind (read_permission_file path ext) (λ f,
          match f with
          | None => ret ()
          | Some f =>
              let '(f', updated) := without_permission id f in
              if file_is_empty f' then remove_file path
              else if updated then
                bind (get_or ((if bool_decide (ext = "toml") then permission_file_to_toml else permission_file_to_json) f')
                        SerdeError) (write path)
              else ret ()
          end)
    end.

Fixpoint rm_entry (id : string) (dir : PathBuf) (e : Entry) : prog unit :=
  match e with
  | EDir name (Some entries) =>
      (fix go l := match l with
                   | [] => ret ()
                   | e :: l => bind (rm_entry id (ConfigFiles.join_name dir name) e) (λ _, go l)
                   end) entries
  | EDir _ None => fail IoError
  | EFile name | EOther name => rm_permission_file id (ConfigFiles.join_name dir name)
  | EUnknown _ => fail IoError
  end.

Definition rm_permission_files (id : string) (dir : PathBuf) (entries : list Entry) : prog unit :=
  each (rm_entry id dir) entries.

(** [permissions] and [capabilities] are the entries of the two directories. *)
Definition rm_command (id : string) (permissions capabilities : option (option (list Entry))) : prog unit :=
  bind (get_or acl_current_dir IoError) (λ cwd,
  bind (match permissions with
        | Some entries => bind (get_or entries IoError) (rm_permission_files id (ConfigFiles.join_name cwd "permissions"))
        | None => ret ()
        end) (λ _,
  match acl_tauri_dir, capabilities with
  | Some t, Some entries =>
      bind (get_or entries IoError) (rm_permission_from_capabilities id (ConfigFiles.join_name t "capabilities"))
  | _, _ => ret ()
  end)).

(** ** [permission new] and [capability new] *)
Inductive FileFormat := FormatJson | FormatToml.

Definition format_extension (f : FileFormat) : string := match f with FormatJson => "json" | FormatToml => "toml" end.

Definition serialize_permission (f : FileFormat) (p : PermissionFile) : option string :=
  match f with FormatJson => permission_file_to_json p | FormatToml => permission_file_to_toml p end.
Definition serialize_capability (f : FileFormat) (c : Capability) : option string :=
  match f with FormatJson => capability_to_json c | FormatToml => capability_to_toml c end.

Definition unwrap {A} (o : option A) : prog A :=
  match o with Some a => ret a | None => panic "called `Option::unwrap()` on a `None` value" end.

(** The option, or the answer to a prompt. *)
Definition ask_identifier (o : option string) (prompt : string) : prog string :=
  match o with Some i => ret i | None => bind (get_or (input prompt) IoError) unwrap end.

Definition non_empty (d : string) : option string := if bool_decide (d = "") then None else Some d.

Definition ask_description (o : option string) (prompt : string) : prog (option string) :=
  match o with Some d => ret (Some d) | None => bind (get_or (input prompt) IoError) (λ d, ret (d ≫= non_empty)) end.

Definition ask_list (o : option (list string)) (prompt : string) : prog (list string) :=
  match o with
  | Some l => ret l
  | None => bind (get_or (input prompt) IoError) (λ d, ret (from_option (split_on ","%char) [] (d ≫= non_empty)))
  end.

(** The rest of both commands: the file is written where none is, or one that
    may be overwritten. *)
Definition create_file (path : PathBuf) (text : option string) : prog unit := λ w,
  bind (if acl_exists path w then
          bind (get_or (confirm (path_text path)) IoError) (λ overwrite,
            if overwrite then remove_file path else fail AlreadyExists)
        else ret ()) (λ _,
  bind (match ConfigFiles.parent path with
        | Some p => λ w, ((if acl_create_dir_all p w then Ok () else Err IoError), w)
        | None => ret ()
        end) (λ _,
  bind (get_or text SerdeError) (write path))) w.

Definition out_path (out : option PathBuf) (dir : prog PathBuf) (folder name : string) (f : FileFormat) : prog PathBuf :=
  match out with
  | Some o => get_or (acl_canonicalize o) IoError
  | None =>
      bind dir (λ dir, ret (ConfigFiles.join_name (ConfigFiles.join_name dir folder) (name +:+ "." +:+ format_extension f)))
  end.

Definition permission_new (id description : option string) (allow deny : option (list string)) (f : FileFormat)
    (out : option PathBuf) : prog unit :=
  bind (ask_identifier id "What's the permission identifier?") (λ id,
  bind (ask_description description "What's the permission description?") (λ description,
  let permission := mk_permission None id description (mk_commands (default [] allow) (default [] deny)) Scopes_default None in
  bind (out_path out (get_or (match acl_tauri_dir with Some t => Some t | None => acl_current_dir end) IoError)
          "permissions" id f) (λ path,
  create_file path (serialize_permission f (mk_permission_file None [] [permission]))))).

Definition permission_ref (p : string) : prog PermissionEntry :=
  match try_from p with Ok i => ret (PermissionRef i) | _ => panic ("invalid permission " +:+ p) end.

Fixpoint collect_refs (l : list string) : prog (list PermissionEntry) :=
  match l with
  | [] => ret []
  | p :: l => bind (permission_ref p) (λ e, bind (collect_refs l) (λ es, ret (e :: es)))
  end.

Definition capability_new (id description : option string) (windows permission : option (list string)) (f : FileFormat)
    (out : option PathBuf) : prog unit :=
  bind (unwrap acl_tauri_dir) (λ tauri_dir,
  bind (ask_identifier id "What's the capability identifier?") (λ id,
  bind (ask_description description "What's the capability description?") (λ description,
  bind (ask_list windows "Which windows should be affected by this? (comma separated)") (λ windows,
  bind (ask_list permission "What permissions to enable? (comma separated)") (λ permissions,
  bind (collect_refs (set_order (list_to_set permissions))) (λ entries,
  bind (out_path out (ret tauri_dir) "capabilities" id f) (λ path,
  create_file path (serialize_capability f
    (mk_capability id (default "" description) None true windows [] entries None))))))))).

(** ** Documents *)
Definition permissions_json (j : json) : option (list json) :=
  json_get "permissions" j ≫= λ p, match p with JArray l => Some l | _ => None end.
Definition permissions_toml (t : Table) : option (list toml) :=
  toml_get "permissions" t ≫= λ p, match p with TArray l => Some l | _ => None end.

(** The document has a list of permissions, none of which matches. *)
Definition lacks (id : string) (c : TomlOrJson) : Prop :=
  match c with
  | Toml t => ∃ l, permissions_toml t = Some l ∧ Forall (λ p, keep_toml id p = true) l
  | Json j => ∃ l, permissions_json j = Some l ∧ Forall (λ p, keep_json id p = true) l
  end.

Lemma toml_get_insert k k' v t : toml_get k (toml_insert k' v t) = if decide (k = k') then Some v else toml_get k t.
Proof.
  induction t as [|[j w] t IH]; simpl; [repeat case_decide; congruence|].
  destruct (decide (j = k')) as [->|Hj]; simpl; [by repeat case_decide; subst|]. rewrite IH. by repeat case_decide; subst.
Qed.

Lemma toml_insert_same k v t : toml_get k t = Some v → toml_insert k v t = t.
Proof.
  induction t as [|[j w] t IH]; simpl; intros Hg; [done|]. case_decide; subst; [by simplify_eq|]. by rewrite IH.
Qed.

Lemma toml_insert_insert k v v' t : toml_insert k v (toml_insert k v' t) = toml_insert k v t.
Proof.
  induction t as [|[j w] t IH]; simpl; [by rewrite decide_True|].
  destruct (decide (j = k)) as [->|Hj]; simpl; [by rewrite decide_True|]. rewrite decide_False by done. by rewrite IH.
Qed.

Lemma insert_insert k v v' m : JsonObject.insert k v (JsonObject.insert k v' m) = JsonObject.insert k v m.
Proof.
  induction m as [|[j w] m IH]; simpl; [by rewrite decide_True|].
  destruct (decide (j = k)) as [->|Hj]; simpl; [by rewrite decide_True|]. rewrite decide_False by done. by rewrite IH.
Qed.

Lemma filter_all {A} (f : A → bool) l : Forall (λ x, f x = true) l → List.filter f l = l.
Proof. induction 1 as [|x l Hx _ IH]; [done|]. simpl. by rewrite Hx, IH. Qed.

Lemma str_contains_prefix p s : str_contains p (p +:+ s) = true.
Proof.
  assert (starts_with p (p +:+ s) = true) as H by (apply starts_with_spec; eauto).
  by destruct (p +:+ s) eqn:E; simpl in *; rewrite H.
Qed.

Lemma identifier_match_refl id : identifier_match id id = true.
Proof.
  unfold identifier_match. destruct (split_once ":" id) as [[p r]|] eqn:H; [|by apply bool_decide_eq_true].
  case_bool_decide; [|by apply bool_decide_eq_true]. apply split_once_sound in H. rewrite H. apply str_contains_prefix.
Qed.

Lemma filter_snoc {A} (f : A → bool) l x :
  Forall (λ x, f x = true) l → f x = false → List.filter f (l ++ [x]) = l.
Proof. intros Hl Hx. rewrite List.filter_app, filter_all by done. simpl. rewrite Hx. apply app_nil_r. Qed.

(** Removing a permission that was added to a document without it, in JSON
    or in TOML, gives the document back. *)
Theorem add_remove_permission id c :
  lacks id c → remove_permission id (insert_permission id c) = Some c.
Proof.
  destruct c as [t|j]; simpl.
  - intros (l & Hl & Hk). unfold permissions_toml in Hl. apply bind_Some in Hl as (v & Hv & Hl).
    destruct v; simplify_eq. rewrite Hv. simpl. rewrite toml_get_insert, decide_True by done.
    rewrite filter_snoc; [|done|simpl; by rewrite identifier_match_refl].
    rewrite length_app. simpl. rewrite decide_False by lia. by rewrite toml_insert_insert, toml_insert_same.
  - intros (l & Hl & Hk). unfold permissions_json, json_get in Hl. apply bind_Some in Hl as (v & Hv & Hl).
    destruct v; simplify_eq. destruct j; try done. simpl in Hv. rewrite Hv. simpl. rewrite get_insert, decide_True by done.
    rewrite filter_snoc; [|done|simpl; by rewrite identifier_match_refl].
    rewrite length_app. simpl. rewrite decide_False by lia. by rewrite insert_insert, insert_same.
Qed.

(** ** Commands

    Every write is done, and the documents of [docs] can be read again when they
    were printed. *)
Record writes_work (docs : TomlOrJson → Prop) : Prop := {
  ww_write path text w : acl_write path text w = (true, TauriBuild.write_file path text w);
  ww_read c text : docs c → to_string c = Some text →
    match c with Toml t => document_from_str text = Some t | Json j => value_from_slice text = Some j end;
}.

(** The text of a document that was printed for a file is read again. *)
Lemma capability_reread docs (HW : writes_work docs) path c text w :
  docs c → to_string c = Some text → w path = Some text →
  (match c with Toml _ => ConfigFiles.extension path = Some "toml" | Json _ => ConfigFiles.extension path = Some "json" end) →
  capability_from_path path w = Some c.
Proof.
  intros Hdoc Ht Hw He. pose proof (ww_read _ HW c text Hdoc Ht) as Hr. unfold capability_from_path.
  by destruct c as [t|j]; rewrite He, Hw; simpl; rewrite Hr.
Qed.

Lemma write_spec docs (HW : writes_work docs) path text w : write path text w = (Ok (), TauriBuild.write_file path text w).
Proof. unfold write. by rewrite (ww_write _ HW). Qed.

Lemma write_file_eq path text (w : Files) : TauriBuild.write_file path text w path = Some text.
Proof. unfold TauriBuild.write_file. by rewrite decide_True. Qed.
Lemma write_file_ne path text (w : Files) q : q ≠ path → TauriBuild.write_file path text w q = w q.
Proof. intros H. unfold TauriBuild.write_file. by rewrite decide_False. Qed.

Lemma write_all docs (HW : writes_work docs) id l w :
  NoDup l.*2 → (∀ x, x ∈ l → is_Some (to_string (insert_permission id x.1))) →
  ∃ w', each (write_capability id) l w = (Ok (), w') ∧
    (∀ x, x ∈ l → w' x.2 = to_string (insert_permission id x.1)) ∧ (∀ p, p ∉ l.*2 → w' p = w p).
Proof.
  revert w. induction l as [|x l IH]; intros w Hd Hs; [exists w; split_and!; [done|set_solver|done]|].
  simpl in Hd. apply NoDup_cons in Hd as [Hn Hd]. destruct (Hs x) as [text Ht]; [left|].
  destruct (IH (TauriBuild.write_file x.2 text w) Hd) as (w' & Hw' & Hl & Ho); [intros y Hy; apply Hs; by right|].
  exists w'. cbn [each]. unfold bind, write_capability at 1, bind. rewrite Ht. unfold get_or, ret. rewrite (write_spec _ HW).
  split; [done|]. split.
  - intros y [->|Hy]%elem_of_cons; [|by apply Hl]. rewrite Ho by done. by rewrite write_file_eq, Ht.
  - intros p Hp. simpl in Hp. rewrite Ho by set_solver. apply write_file_ne. set_solver.
Qed.

Lemma file_name_join dir n : ConfigFiles.path_file_name (ConfigFiles.join_name dir n) = Some n.
Proof. unfold ConfigFiles.path_file_name, ConfigFiles.join_name. by rewrite last_snoc. Qed.

Definition right_extension (x : TomlOrJson * PathBuf) : Prop :=
  match x.1 with Toml _ => ConfigFiles.extension x.2 = Some "toml" | Json _ => ConfigFiles.extension x.2 = Some "json" end.

Lemma capability_from_path_extension path w c : capability_from_path path w = Some c → right_extension (c, path).
Proof.
  unfold capability_from_path, right_extension. simpl.
  destruct (ConfigFiles.extension path) as [e|]; [|done].
  destruct (decide (e = "toml")) as [->|H1]; [intros (t & _ & ->)%fmap_Some; done|].
  destruct (decide (e = "json")) as [->|H2]; [intros (t & _ & ->)%fmap_Some; done|].
  intros H. exfalso. revert H.
  repeat match goal with |- context [match ?x with _ => _ end] => destruct x; try done end.
Qed.

Lemma filter_elem {A} (f : A → bool) (l : list A) x : x ∈ List.filter f l → x ∈ l.
Proof. intros H%list_elem_of_In. apply list_elem_of_In. by apply List.filter_In in H as [H _]. Qed.

Lemma find_capabilities_read dir entries capability w x :
  x ∈ find_capabilities dir entries capability w → capability_from_path x.2 w = Some x.1.
Proof.
  intros (e & _ & He)%list_elem_of_omap. apply bind_Some in He as (p & _ & He).
  apply bind_Some in He as (c & Hc & He). destruct capability; [case_decide; [|done]|]; by simplify_eq.
Qed.

(** A candidate is a capability of the directory or a new one. *)
Lemma candidates_spec dir entries capability id w x :
  x ∈ candidates dir entries capability id w →
  right_extension x ∧
  (capability_from_path x.2 w = Some x.1 ∨ ∃ expected target, x = new_capability dir expected target).
Proof.
  assert (∀ y, capability_from_path y.2 w = Some y.1 → right_extension y) as Hr
    by (intros [c p]; apply capability_from_path_extension).
  unfold candidates. destruct (expected_capability_config _) as [[expected target]|] eqn:He.
  - assert (target = "desktop" ∨ target = "mobile") as Ht.
    { unfold expected_capability_config in He. repeat case_match; simplify_eq; auto. }
    destruct (List.filter _ _) as [|y l] eqn:Hl.
    + intros ->%list_elem_of_singleton. split; [|right; eauto].
      unfold right_extension, ConfigFiles.extension. cbn [new_capability fst snd].
      rewrite file_name_join. by destruct Ht as [-> | ->].
    + rewrite <- Hl. intros Hin%filter_elem%find_capabilities_read. auto.
  - intros Hin%find_capabilities_read. auto.
Qed.

Lemma select_spec l l' : select l = Ok l' → ∀ x, x ∈ l' → x ∈ l.
Proof.
  unfold select. case_decide; [|by intros [= <-]]. intros (sel & _ & H')%bind_ok. destruct sel as [|i sel]; [done|].
  apply collect_ok in H'. intros x Hx. apply list_elem_of_lookup in Hx as [k Hk].
  destruct (Forall2_lookup_r _ _ _ _ _ H' Hk) as (j & _ & Hj). unfold expect in Hj.
  destruct (l !! j) eqn:E; simplify_eq. by eapply list_elem_of_lookup_2.
Qed.

(** Adding a permission appends it to each capability that was selected, as
    the file says when it is read again, and changes no other file; a capability
    that was selected is one of the directory, or the new one for the platforms
    of the plugin. *)
Theorem permission_add_adds docs (HW : writes_work docs) id capability entries dir w l :
  acl_tauri_dir = Some dir →
  let capabilities := ConfigFiles.join_name dir "capabilities" in
  select (candidates capabilities entries capability id w) = Ok l → l ≠ [] → NoDup l.*2 →
  (∀ x, x ∈ l → docs (insert_permission id x.1) ∧ is_Some (to_string (insert_permission id x.1))) →
  ∃ w', add_command id capability (Some (Some entries)) w = (Ok (), w') ∧
    (∀ x, x ∈ l →
       (capability_from_path x.2 w = Some x.1 ∨ ∃ expected target, x = new_capability capabilities expected target) ∧
       capability_from_path x.2 w' = Some (insert_permission id x.1)) ∧
    (∀ p, p ∉ l.*2 → w' p = w p).
Proof.
  intros Hdir capabilities Hsel Hne Hd Hs. destruct (write_all _ HW id l w Hd (λ x Hx, proj2 (Hs x Hx))) as (w' & Hw' & Hin & Hout).
  exists w'. split_and!; [| |done].
  - unfold add_command, bind. rewrite Hdir. simpl. fold capabilities. rewrite Hsel. by destruct l.
  - intros x Hx. destruct (candidates_spec _ _ _ _ _ _ (select_spec _ _ Hsel x Hx)) as [He Ho]. split; [done|].
    destruct (Hs x Hx) as [Hdoc [text Ht]]. apply (capability_reread _ HW _ _ text); [done|done|by rewrite Hin|].
    destruct x as [[t|j] p]; [exact He|]. unfold right_extension in He. simpl in *. by destruct j.
Qed.

Definition removed (id : string) (c : TomlOrJson) : TomlOrJson := default c (remove_permission id c).

(** The names of the permissions of a document. *)
Definition json_name (p : json) : option string :=
  match p with
  | JString s => Some s
  | JObject o => match get "identifier" o with Some (JString name) => Some name | _ => None end
  | _ => None
  end.
Definition toml_name (p : toml) : option string :=
  match p with
  | TString s => Some s
  | TTable o => match toml_get "identifier" o with Some (TString name) => Some name | _ => None end
  | _ => None
  end.
Definition names (c : TomlOrJson) : list string :=
  match c with
  | Toml t => omap toml_name (default [] (permissions_toml t))
  | Json j => omap json_name (default [] (permissions_json j))
  end.

(** The documents agree on everything but the permissions. *)
Definition same_rest (c c' : TomlOrJson) : Prop :=
  match c, c' with
  | Toml t, Toml t' => ∀ k, k ≠ "permissions" → toml_get k t' = toml_get k t
  | Json j, Json j' => ∀ k, k ≠ "permissions" → json_get k j' = json_get k j
  | _, _ => False
  end.

Lemma filter_same_length {A} (f : A → bool) l : length l = length (List.filter f l) → List.filter f l = l.
Proof.
  intros H. apply filter_all. induction l as [|x l IH]; simpl in *; [done|]. destruct (f x) eqn:E; simpl in *.
  - constructor; [done|]. apply IH. lia.
  - pose proof (List.filter_length_le f l). lia.
Qed.

Lemma omap_filter {A B} (f : A → option B) (g : A → bool) (h : B → bool) l :
  (∀ x y, f x = Some y → g x = h y) → omap f (List.filter g l) = List.filter h (omap f l).
Proof.
  intros H. induction l as [|x l IH]; [done|]. cbn [List.filter omap list_omap]. destruct (f x) as [y|] eqn:E.
  - rewrite (H x y E). cbn [List.filter]. destruct (h y); [|exact IH]. cbn [omap list_omap]. rewrite E. by f_equal.
  - destruct (g x); [|exact IH]. cbn [omap list_omap]. by rewrite E.
Qed.

Lemma kept_json_names id l :
  omap json_name (List.filter (keep_json id) l) = List.filter (λ n, negb (identifier_match id n)) (omap json_name l).
Proof.
  apply omap_filter. intros p n. destruct p; try done; simpl; [by intros [= ->]|].
  destruct (get "identifier" _) as [v|]; [|done]. destruct v; try done. by intros [= ->].
Qed.

Lemma kept_toml_names id l :
  omap toml_name (List.filter (keep_toml id) l) = List.filter (λ n, negb (identifier_match id n)) (omap toml_name l).
Proof.
  apply omap_filter. intros p n. destruct p; try done; simpl; [by intros [= ->]|].
  destruct (toml_get "identifier" _) as [v|]; [|done]. destruct v; try done. by intros [= ->].
Qed.

Lemma permissions_object m :
  permissions_json (JObject m) = get "permissions" m ≫= λ p, match p with JArray l => Some l | _ => None end.
Proof. done. Qed.

Lemma removed_names id c :
  names (removed id c) = List.filter (λ n, negb (identifier_match id n)) (names c) ∧ same_rest c (removed id c).
Proof.
  unfold removed. destruct c as [t|j].
  - cbn [remove_permission]. unfold names at 2, permissions_toml.
    destruct (toml_get "permissions" t) as [v|] eqn:Hv; [|by simpl; unfold permissions_toml; rewrite Hv].
    destruct v as [| | | | |l|]; try (by simpl; unfold permissions_toml; rewrite Hv).
    cbn [mbind option_bind default]. rewrite <- kept_toml_names. cbv zeta. case_decide as Hl; cbn [from_option Datatypes.id].
    + split; [|done]. unfold names, permissions_toml. rewrite Hv. cbn [mbind option_bind default].
      by rewrite filter_same_length.
    + unfold names, permissions_toml. rewrite toml_get_insert, decide_True by done. split; [done|].
      intros k Hk. by rewrite toml_get_insert, decide_False.
  - destruct j as [| | | | |m]; try done. cbn [remove_permission].
    destruct (get "permissions" m) as [v|] eqn:Hv;
      [|split; [cbn [from_option names]; by rewrite permissions_object, Hv|done]].
    destruct v as [| | | |l|]; try (split; [cbn [from_option names]; by rewrite permissions_object, Hv|done]).
    cbv zeta. case_decide as Hl; cbn [from_option Datatypes.id names]; rewrite !permissions_object.
    + split; [|done]. rewrite Hv. cbn [mbind option_bind from_option Datatypes.id].
      by rewrite <- kept_json_names, filter_same_length.
    + rewrite get_insert, decide_True, Hv by done. cbn [mbind option_bind from_option Datatypes.id].
      split; [apply kept_json_names|]. intros k Hk. unfold json_get. simpl. by rewrite get_insert, decide_False.
Qed.

Lemma removed_extension id c path : right_extension (c, path) → right_extension (removed id c, path).
Proof.
  unfold right_extension, removed. destruct c as [t|j]; simpl; [by repeat case_match|]. destruct j; simpl; try done.
  by repeat case_match.
Qed.

(** The file is written when something is removed. *)
Lemma rm_from_capability_spec docs (HW : writes_work docs) id path w text :
  w path = Some text →
  (∀ c, capability_from_path path w = Some c → docs (removed id c) ∧ is_Some (to_string (removed id c))) →
  ∃ w', rm_from_capability id path w = (Ok (), w') ∧ (∀ p, p ≠ path → w' p = w p) ∧
    (capability_from_path path w = None → w' path = w path) ∧
    (∀ c, capability_from_path path w = Some c → capability_from_path path w' = Some (removed id c)).
Proof.
  intros Hw Hs. unfold rm_from_capability.
  destruct (ConfigFiles.extension path) as [ext|] eqn:He;
    [|exists w; unfold capability_from_path; rewrite He; done].
  destruct (bool_decide (ext = "toml") || bool_decide (ext = "json")) eqn:Ho; cycle 1.
  { exists w. split_and!; [done|done|done|]. intros c Hc. exfalso. apply capability_from_path_extension in Hc.
    unfold right_extension in Hc. simpl in Hc. rewrite He in Hc. apply orb_false_iff in Ho as [H1 H2].
    rewrite bool_decide_eq_false in H1, H2. destruct c; congruence. }
  assert ((if bool_decide (ext = "toml") then Toml <$> document_from_str text else Json <$> value_from_slice text) =
          capability_from_path path w) as Hdoc.
  { unfold capability_from_path. rewrite He, Hw. apply orb_true_iff in Ho as [->%bool_decide_eq_true| ->%bool_decide_eq_true]; done. }
  unfold bind, read. rewrite Hw. cbn [get_or ret]. rewrite Hdoc.
  destruct (capability_from_path path w) as [c|] eqn:Hc; cbn [mbind option_bind]; [|by exists w].
  destruct (remove_permission id c) as [c'|] eqn:Hr.
  - destruct (Hs c eq_refl) as [Hdc [t Ht]]. unfold removed in Ht, Hdc. rewrite Hr in Hdc. simpl in Hdc. rewrite Hr in Ht. simpl in Ht. rewrite Ht. cbn [get_or ret].
    rewrite (write_spec _ HW). eexists. split_and!; [done|intros p Hp; by apply write_file_ne|done|].
    intros c0 [= <-]. unfold removed. rewrite Hr. simpl. apply (capability_reread _ HW _ _ t); [done|done|apply write_file_eq|].
    pose proof (removed_extension id c path (capability_from_path_extension _ _ _ Hc)) as Hx.
    unfold removed in Hx. rewrite Hr in Hx. exact Hx.
  - exists w. split_and!; [done|done|done|]. intros c0 [= <-]. unfold removed. by rewrite Hr.
Qed.

(** Removing a permission from the capabilities leaves each of them with
    the permissions that do not match, in their order, and with everything else
    it had, as the file says when it is read again; every other file is
    unchanged. *)
Theorem permission_rm_removes docs (HW : writes_work docs) id dir entries w :
  (∀ n, EUnknown n ∉ entries) → NoDup (omap (entry_file dir) entries) →
  (∀ path, path ∈ omap (entry_file dir) entries → is_Some (w path) ∧
     ∀ c, capability_from_path path w = Some c → docs (removed id c) ∧ is_Some (to_string (removed id c))) →
  ∃ w', rm_permission_from_capabilities id dir entries w = (Ok (), w') ∧
    (∀ path c, path ∈ omap (entry_file dir) entries → capability_from_path path w = Some c →
       ∃ c', capability_from_path path w' = Some c' ∧ same_rest c c' ∧
         names c' = List.filter (λ n, negb (identifier_match id n)) (names c)) ∧
    (∀ path, path ∉ omap (entry_file dir) entries ∨ capability_from_path path w = None → w' path = w path).
Proof.
  unfold rm_permission_from_capabilities. revert w. induction entries as [|e entries IH]; intros w Hu Hd Hr.
  { exists w. split_and!; [done|set_solver|done]. }
  assert (∀ n, EUnknown n ∉ entries) as Hu' by (intros n Hn; apply (Hu n); by right).
  assert (∀ q w1 w2, w1 q = w2 q → capability_from_path q w1 = capability_from_path q w2) as Hcong.
  { intros q w1 w2 E. unfold capability_from_path. by rewrite E. }
  destruct e as [n|n es|n|n]; [|by apply IH|by apply IH|by destruct (Hu n); left].
  cbn [omap list_omap entry_file] in *. set (path := ConfigFiles.join_name dir n) in *.
  apply NoDup_cons in Hd as [Hn Hd]. destruct (Hr path) as [[text Ht] Hs]; [by left|].
  destruct (rm_from_capability_spec _ HW id path w text Ht Hs) as (w1 & Hw1 & Hother & Hnone & Hsome).
  assert (∀ q, q ∈ omap (entry_file dir) entries → w1 q = w q) as Hrest.
  { intros q Hq. apply Hother. by intros ->. }
  destruct (IH w1 Hu' Hd) as (w2 & Hw2 & H1 & H2).
  { intros q Hq. destruct (Hr q) as [Hq1 Hq2]; [by right|]. rewrite (Hrest q Hq). split; [done|].
    intros c Hc. apply Hq2. rewrite <- Hc. symmetry. apply Hcong. by apply Hrest. }
  exists w2. split_and!.
  - cbn [each]. fold path. unfold bind. by rewrite Hw1.
  - intros q c [->|Hq]%elem_of_cons Hc.
    + destruct (removed_names id c) as [Hnames Hrest']. exists (removed id c). split; [|done].
      rewrite <- (Hsome c Hc). apply Hcong, H2. by left.
    + apply (H1 q c Hq). rewrite <- Hc. apply Hcong. by apply Hrest.
  - intros q [Hq|Hq].
    + rewrite H2 by (left; set_solver). apply Hother. set_solver.
    + destruct (decide (q = path)) as [->|Hne]; [rewrite H2 by (left; done); by apply Hnone|].
      rewrite H2; [by apply Hother|]. right. rewrite <- Hq. apply Hcong. by apply Hother.
Qed.

(** ** Limits *)

(** A file of the name of the new capability is replaced, whatever it holds,
    unless it restricts its platforms to those of the plugin. *)
Theorem capability_replaced dir w c :
  capability_from_path (ConfigFiles.join_name dir "desktop.json") w = Some c → platforms c = None →
  (λ x, x.2) <$> candidates dir [EFile "desktop.json"] None "updater:default" w = [ConfigFiles.join_name dir "desktop.json"] ∧
  ∀ x, x ∈ candidates dir [EFile "desktop.json"] None "updater:default" w → identifier x.1 = "desktop-capability".
Proof.
  intros Hc Hp.
  assert (candidates dir [EFile "desktop.json"] None "updater:default" w =
          [new_capability dir (Target_to_string <$> [MacOS; Windows; Linux]) "desktop"]) as ->.
  { unfold candidates, find_capabilities. cbn [omap list_omap entry_file mbind option_bind]. rewrite Hc.
    cbn [mbind option_bind].
    replace (expected_capability_config _) with (Some (Target_to_string <$> [MacOS; Windows; Linux], "desktop"))
      by (vm_compute; reflexivity).
    cbn [List.filter fst]. unfold matches_platforms. by rewrite Hp. }
  split; [done|]. by intros x ->%list_elem_of_singleton.
Qed.

(** A file with a list of capabilities is accepted, and nothing is added. *)
Theorem list_of_capabilities_unchanged id l : insert_permission id (Json (JArray l)) = Json (JArray l).
Proof. done. Qed.

(** A JSON file that is no permission file, but has none of its fields, is
    removed with any permission. *)
Theorem unrelated_file_removed id dir name text w :
  ConfigFiles.extension (ConfigFiles.join_name dir name) = Some "json" → name ≠ "schema.json" →
  w (ConfigFiles.join_name dir name) = Some text → permission_file_from_json text = Some (mk_permission_file None [] []) →
  rm_permission_file id (ConfigFiles.join_name dir name) w = remove_file (ConfigFiles.join_name dir name) w.
Proof.
  intros He Hn Hw Hp. unfold rm_permission_file. rewrite file_name_join, bool_decide_false by (intros [= ->]; done).
  rewrite He. unfold read_permission_file. rewrite (bool_decide_false ("json" = "toml")), bool_decide_true by done.
  unfold bind, read. rewrite Hw. cbn [get_or ret]. rewrite Hp. cbn [get_or ret]. unfold without_permission. simpl.
  by case_bool_decide.
Qed.

(** Documents with a platform that is no text are read in two ways. *)
Theorem platforms_read_differently :
  platforms (Toml [("platforms", TArray [TString "linux"; TBoolean true])]) = None ∧
  platforms (Json (JObject [("platforms", JArray [JString "linux"; JBool true])])) = Some ["linux"].
Proof. done. Qed.

End AclCli.

(** Removing all permissions of a plugin removes those of others whose name
    contains the name of the plugin, and none of a plugin of the core. *)
Theorem wildcard_removes_others :
  identifier_match "os:*" "core:window:allow-close" = true ∧
  identifier_match "core:window:*" "core:window:allow-close" = false.
Proof. vm_compute. done. Qed.

(** ** Witnesses *)
#[local] Instance ex_serde : SerdeLib := {|
  json_number := Z;
  as_f64 _ := None;
  as_u64 n := Some n;
  as_i64 n := Some n;
  from_f64 _ := None;
  from_i64 n := n;
  toml_datetime := unit;
  datetime_to_string _ := "";
|}.

Definition ex_capability (permissions : list string) : json :=
  JObject [("identifier", JString "main"); ("permissions", JArray (JString <$> permissions))].

(** The two documents of the example have a text. *)
Definition ex_dir : PathBuf := [Paths.RootDir; Paths.Normal "app"].
Definition ex_path : PathBuf := ex_dir ++ [Paths.Normal "capabilities"; Paths.Normal "main.json"].

#[local] Instance ex_lib : AclCliLib := {|
  document_from_str _ := None;
  document_to_string _ := "";
  value_from_slice s :=
    if bool_decide (s = "[fs]") then Some (ex_capability ["os:default"; "fs:default"])
    else if bool_decide (s = "[]") then Some (ex_capability ["os:default"]) else None;
  value_to_string_pretty j :=
    match j with JObject [_; (_, JArray [_; _])] => Some "[fs]" | JObject [_; (_, JArray [_])] => Some "[]" | _ => None end;
  permission_file_from_toml _ := None;
  permission_file_from_json _ := None;
  permission_file_to_toml _ := None;
  permission_file_to_json _ := None;
  capability_to_toml _ := None;
  capability_to_json _ := None;
  acl_write p t w := (true, TauriBuild.write_file p t w);
  acl_remove p w := (true, w);
  acl_create_dir_all _ _ := true;
  acl_exists _ _ := false;
  path_text _ := "";
  set_order s := elements s;
  acl_canonicalize p := Some p;
  acl_tauri_dir := Some ex_dir;
  acl_current_dir := Some ex_dir;
  multiselect _ := Some [0];
  input _ := Some None;
  confirm _ := Some true;
|}.

Definition ex_files (text : string) : Files := λ p, if decide (p = ex_path) then Some text else None.

Lemma add_remove_permission_witness :
  remove_permission "fs:default" (insert_permission "fs:default" (Json (ex_capability ["os:default"]))) =
  Some (Json (ex_capability ["os:default"])).
Proof.
  apply add_remove_permission. exists [JString "os:default"]. split; [reflexivity|]. repeat constructor.
Defined.

Lemma permission_rm_removes_witness :
  ∃ w', rm_permission_from_capabilities "fs:default" (ConfigFiles.join_name ex_dir "capabilities") [EFile "main.json"]
          (ex_files "[fs]") = (Ok (), w') ∧
    ∃ c, capability_from_path ex_path w' = Some c ∧ names c = ["os:default"].
Proof.
  destruct (permission_rm_removes (λ c, c = Json (ex_capability ["os:default"]))) with
    (id := "fs:default") (dir := ConfigFiles.join_name ex_dir "capabilities") (entries := [EFile "main.json"])
    (w := ex_files "[fs]") as (w' & Hw' & H & _).
  - split; [reflexivity|]. intros c text -> Ht. vm_compute in Ht. injection Ht as <-. reflexivity.
  - intros n Hn. apply list_elem_of_singleton in Hn. discriminate.
  - apply NoDup_singleton.
  - intros path Hp. apply list_elem_of_singleton in Hp as ->. split; [by exists "[fs]"|].
    intros c Hc. assert (c = Json (ex_capability ["os:default"; "fs:default"])) as ->
      by (vm_compute in Hc; injection Hc as <-; reflexivity).
    split; [reflexivity|by exists "[]"].
  - exists w'. split; [exact Hw'|].
    destruct (H ex_path (Json (ex_capability ["os:default"; "fs:default"]))) as (c & Hc & _ & Hn); [left|reflexivity|].
    exists c. split; [exact Hc|]. rewrite Hn. reflexivity.
Defined.

Lemma permission_add_adds_witness :
  ∃ w', add_command "fs:default" None (Some (Some [EFile "main.json"])) (ex_files "[]") = (Ok (), w') ∧
    capability_from_path ex_path w' = Some (Json (ex_capability ["os:default"; "fs:default"])).
Proof.
  destruct (permission_add_adds (λ c, c = Json (ex_capability ["os:default"; "fs:default"]))) with
    (id := "fs:default") (capability := @None string) (entries := [EFile "main.json"]) (dir := ex_dir) (w := ex_files "[]")
    (l := [(Json (ex_capability ["os:default"]), ex_path)]) as (w' & Hw' & H & _).
  - split; [reflexivity|]. intros c text -> Ht. vm_compute in Ht. injection Ht as <-. reflexivity.
  - reflexivity.
  - vm_compute. reflexivity.
  - discriminate.
  - apply NoDup_singleton.
  - intros x Hx. apply list_elem_of_singleton in Hx as ->. split; [reflexivity|by exists "[fs]"].
  - exists w'. split; [exact Hw'|]. destruct (H (Json (ex_capability ["os:default"]), ex_path)) as [_ Hr]; [left|exact Hr].
Defined.

End AclCli.
