(* ===== verification/CargoManifest.v ===== *)
(** * The features of the Cargo manifest

    Models [tauri-cli/Source/interface/rust/manifest.rs], which writes the Cargo
    features that the configuration asks for into [Cargo.toml] before a build,
    and [tauri-build/Source/manifest.rs], which checks in the build script that
    they are there; with [AppConfig::features] of [tauri-utils]. A document of
    [toml_edit] is a table of items in the order of the text. The references into
    the document that [find_dependency] returns are the paths to the items. The
    parsers and printers are parameters, and so is the order of a hash set. *)
From Stdlib Require Import Ascii.
From S2P Require Import Prelude MigrateConfig.

Module CargoManifest.

(** ** Documents *)

(** A string has the text it is printed as, with its quotes, and its value. *)
Inductive Value :=
| VString (text value : string)
| VBoolean (b : bool)
| VArray (l : list Value)
| VInlineTable (t : list (string * Value))
| VOther (text : string).

Inductive Item :=
| INone
| IValue (v : Value)
| ITable (t : list (string * Item))
| IArrayOfTables (l : list (list (string * Item))).

Abbreviation Table := (list (string * Item)).

Section Maps.
Context {X : Type}.

Fixpoint find (k : string) (t : list (string * X)) : option X :=
  match t with
  | [] => None
  | (k', v) :: t => if decide (k' = k) then Some v else find k t
  end.

(** A new key goes to the end, an existing one keeps its place. *)
Fixpoint set_key (k : string) (v : X) (t : list (string * X)) : list (string * X) :=
  match t with
  | [] => [(k, v)]
  | (k', v') :: t => if decide (k' = k) then (k, v) :: t else (k', v') :: set_key k v t
  end.
End Maps.

Definition is_none (i : Item) : bool := match i with INone => true | _ => false end.
Definition as_table (i : Item) : option Table := match i with ITable t => Some t | _ => None end.
Definition as_value (i : Item) : option Value := match i with IValue v => Some v | _ => None end.
Definition as_str (v : Value) : option string := match v with VString _ s => Some s | _ => None end.
Definition as_bool (v : Value) : option bool := match v with VBoolean b => Some b | _ => None end.
Definition as_array (v : Value) : option (list Value) := match v with VArray l => Some l | _ => None end.

(** [Table::get]: a placeholder is not there. *)
Definition table_get (k : string) (t : Table) : option Item :=
  i ← find k t; if is_none i then None else Some i.
(** [Item::get] with a text. *)
Definition item_get (k : string) (i : Item) : option Item :=
  match i with
  | ITable t => table_get k t
  | IValue (VInlineTable t) => IValue <$> find k t
  | _ => None
  end.

(** The item at a path of tables, and the document with another item there. *)
Fixpoint get_path (p : list string) (i : Item) : option Item :=
  match p with
  | [] => Some i
  | k :: p => t ← as_table i; i ← table_get k t; get_path p i
  end.
Fixpoint set_path (p : list string) (v : Item) (i : Item) : Item :=
  match p with
  | [] => v
  | k :: p =>
      match i with
      | ITable t => match table_get k t with Some j => ITable (set_key k (set_path p v j) t) | None => i end
      | _ => i
      end
  end.

Class ManifestLib := {
  (** the text of a string that is put into a document *)
  string_text : string → string;
  document_from_str : string → option Table;
  document_to_string : Table → string;
  (** writing the manifest: whether all was written, and the text then *)
  write_manifest : string → string → bool * string;
  write_manifest_done text old : (write_manifest text old).1 = true → (write_manifest text old).2 = text;
  (** the order in which a hash set is visited *)
  hash_order : gset string → list string;
  hash_order_elements s : hash_order s ≡ₚ elements s;
}.

(** ** The configuration *)
Inductive PatternKind := Brownfield | Isolation (dir : string).

Record AppConfig := mk_app_config {
  tray_icon : bool;
  macos_private_api : bool;
  asset_protocol_enable : bool;
  pattern : PatternKind;
}.

Definition all_features : list string := ["tray-icon"; "macos-private-api"; "protocol-asset"; "isolation"].

Definition is_isolation (c : AppConfig) : bool := match pattern c with Isolation _ => true | Brownfield => false end.

Definition AppConfig_features (c : AppConfig) : list string :=
  merge_sort String.le
    ((if tray_icon c then ["tray-icon"] else []) ++ (if macos_private_api c then ["macos-private-api"] else []) ++
     (if asset_protocol_enable c then ["protocol-asset"] else []) ++ (if is_isolation c then ["isolation"] else [])).

Definition not_tray_icon (f : string) : bool := negb (bool_decide (f = "tray-icon")).

(** ** The command line *)
Inductive DependencyKind := Build | Normal.
#[global] Instance DependencyKind_eq_dec : EqDecision DependencyKind.
Proof. solve_decision. Defined.

Definition table_of (kind : DependencyKind) : string :=
  match kind with Build => "build-dependencies" | Normal => "dependencies" end.

Inductive ManifestError := OpenManifest | ParseManifest | UnsupportedFormat (name : string) | WriteManifest.

Record DependencyAllowlist := mk_allowlist {
  name : string;
  kind : DependencyKind;
  all_cli_managed_features : list string;
  features : gset string;
}.

(** The targets that have the dependency. *)
Definition target_path (table name cfg : string) : list string := ["target"; cfg; table; name].
Definition target_has (table name : string) (target_value : Item) : bool :=
  bool_decide (is_Some (target_table ← as_table target_value; deps ← table_get table target_table;
                        deps ← as_table deps; table_get name deps)).
Definition matching_deps (table name : string) (t : Table) : list (list string) :=
  target_path table name <$> (List.filter (λ e, target_has table name e.2) t).*1.

Fixpoint find_dependency (m : Table) (name : string) (kind : DependencyKind) : list (list string) :=
  match m with
  | [] => []
  | (k, v) :: m =>
      match as_table v with
      | None => find_dependency m name kind
      | Some t =>
          if decide (k = table_of kind) then
            match table_get name t with
            | Some _ => [[table_of kind; name]]
            | None => find_dependency m name kind
            end
          else if decide (k = "target") then matching_deps (table_of kind) name t
          else find_dependency m name kind
      end
  end.

(** The text without its double quotes and blanks. *)
Fixpoint without_quotes (s : string) : string :=
  match s with
  | EmptyString => EmptyString
  | String c s => if decide (c = "034"%char ∨ c = " "%char) then without_quotes s else String c (without_quotes s)
  end.

Section Rewriting.
Context {ML : ManifestLib}.

Definition string_value (s : string) : Value := VString (string_text s) s.

Definition toml_array (features : gset string) : list Value :=
  string_value <$> merge_sort String.le (hash_order features).

Definition add_feature (l : list Value) (feature : string) : list Value :=
  if List.existsb (λ f, bool_decide (as_str f = Some feature)) l then l else string_value feature :: l.

(** [i] is the number of entries that are still to be looked at, from the end. *)
Fixpoint remove_unlisted (features : gset string) (i : nat) (features_array : list Value) : list Value :=
  match i with
  | O => features_array
  | S index =>
      remove_unlisted features index
        match features_array !! index ≫= as_str with
        | Some f => if decide (f ∈ features) then features_array else delete index features_array
        | None => features_array
        end
  end.

Definition inject_array (features : gset string) (features_array : list Value) : list Value :=
  let features_array := foldl add_feature features_array (hash_order features) in
  remove_unlisted features (length features_array) features_array.

Definition insert_unmanaged (is_managed_feature : string → bool) (features : gset string) (feat : Value) : gset string :=
  match feat with
  | VString _ feature => if is_managed_feature feature then features else {[feature]} ∪ features
  | _ => features
  end.

(** The table [dep] holds values or items: [value] and [item] go between. *)
Definition inject_features_table {X} (value : X → option Value) (item : Value → X)
    (is_managed_feature : string → bool) (features : gset string) (dep : list (string * X))
    : list (string * X) * gset string :=
  match find "features" dep ≫= value with
  | Some (VArray f) =>
      let features := foldl (insert_unmanaged is_managed_feature) features f in
      (set_key "features" (item (VArray (inject_array features f))) dep, features)
  | _ => (set_key "features" (item (VArray (toml_array features))) dep, features)
  end.

Definition write_features (dependency_name : string) (item : Item) (is_managed_feature : string → bool)
    (features : gset string) : outcome ManifestError (Item * bool * gset string) :=
  match item with
  | ITable dep =>
      let '(dep, features) := inject_features_table as_value IValue is_managed_feature features dep in
      Ok (ITable dep, true, features)
  | IValue (VInlineTable table) =>
      let '(table, features) := inject_features_table Some id is_managed_feature features table in
      Ok (IValue (VInlineTable table), true, features)
  | IValue (VString version _) =>
      let def := [("version", string_value (without_quotes version)); ("features", VArray (toml_array features))] in
      Ok (IValue (VInlineTable def), true, features)
  | IValue _ => Err (UnsupportedFormat dependency_name)
  | _ => Ok (item, false, features)
  end.

Definition is_inherited (item : Item) : bool :=
  default false (i ← item_get "workspace" item; v ← as_value i; as_bool v).

(** The state of the loops: the document, [persist] and the features of the
    dependency. *)
Definition inject_item (d : DependencyAllowlist) (s : Item * bool * gset string) (path : list string)
    : outcome ManifestError (Item * bool * gset string) :=
  let '(manifest, persist, features) := s in
  match get_path path manifest with
  | None => Ok s
  | Some item =>
      if is_inherited item then Ok s
      else
        '(item, should_write, features) ←
          write_features (name d) item (λ f, bool_decide (f ∈ all_cli_managed_features d)) features;
        Ok (set_path path item manifest, if persist : bool then persist else should_write, features)
  end.

Definition paths_of (d : DependencyAllowlist) (manifest : Item) : list (list string) :=
  find_dependency (default [] (as_table manifest)) (name d) (kind d).

Definition inject_dependency (s : Item * bool * list (gset string)) (d : DependencyAllowlist)
    : outcome ManifestError (Item * bool * list (gset string)) :=
  let '(manifest, persist, done) := s in
  '(manifest, persist, features) ←
    for_each (inject_item d) (paths_of d manifest) (manifest, persist, features d);
  Ok (manifest, persist, done ++ [features]).

Definition inject_features (manifest : Item) (dependencies : list DependencyAllowlist)
    : outcome ManifestError (Item * bool * list (gset string)) :=
  for_each inject_dependency dependencies (manifest, false, []).

Definition quote : string := String "034" EmptyString.
Definition serialize_manifest (manifest : Table) : string :=
  let fix_with s r := Migrate.str_replace r.1 r.2 s in
  foldl fix_with (document_to_string manifest)
    [(quote +:+ " ,features =[", quote +:+ ", features = [");
     (quote +:+ " , features", quote +:+ ", features");
     ("]}", "] }"); ("={", "= {"); ("=[", "= ["); (quote +:+ "," +:+ quote, quote +:+ ", " +:+ quote)].

Record Manifest := mk_manifest { inner : Table; tauri_features : gset string }.

Definition dependencies_of (config : AppConfig) : list DependencyAllowlist :=
  [mk_allowlist "tauri-build" Build ["isolation"] (if is_isolation config then {["isolation"]} else ∅);
   mk_allowlist "tauri" Normal (List.filter not_tray_icon all_features) (list_to_set (AppConfig_features config))].

Definition read_manifest (file : option string) : outcome ManifestError (Table * string) :=
  manifest_str ← ok_or file OpenManifest;
  manifest ← ok_or (document_from_str manifest_str) ParseManifest;
  Ok (manifest, manifest_str).

(** [file] is the text of [Cargo.toml], which is passed on. *)
Definition rewrite_manifest (config : AppConfig) (file : option string)
    : outcome ManifestError (Manifest * bool) * option string :=
  let rewritten :=
    '(manifest, original) ← read_manifest file;
    '(manifest, persist, features) ← inject_features (ITable manifest) (dependencies_of config);
    Ok (default [] (as_table manifest), original, persist, default ∅ (last features)) in
  match rewritten with
  | Ok (manifest, original, persist, features) =>
      let new_manifest_str := serialize_manifest manifest in
      if persist && negb (bool_decide (original = new_manifest_str)) then
        let '(written, text) := write_manifest new_manifest_str original in
        (if written then Ok (mk_manifest manifest features, true) else Err WriteManifest, Some text)
      else (Ok (mk_manifest manifest features, false), file)
  | Err e => (Err e, file)
  | Panic msg => (Panic msg, file)
  | Diverge => (Diverge, file)
  end.

(** ** Features that are enabled *)
Definition Manifest_features (m : Manifest) : gmap string (list string) :=
  match table_get "features" (inner m) ≫= as_table with
  | Some features =>
      foldl (λ f e, match e.2 with IValue (VArray enabled) => <[e.1 := omap as_str enabled]> f | _ => f end) ∅ features
  | None => ∅
  end.

(** The recursion has no bound in the source. *)
Fixpoint get_enabled_features (fuel : nat) (l : gmap string (list string)) (feature : string)
    : outcome ManifestError (list string) :=
  match fuel with
  | O => Diverge
  | S fuel =>
      match l !! feature with
      | None => Ok []
      | Some enabled_features =>
          for_each (λ f enabled,
            match l !! enabled with
            | Some _ => e ← get_enabled_features fuel l enabled; Ok (f ++ e)
            | None => Ok (f ++ [enabled])
            end) enabled_features []
      end
  end.

Definition all_enabled_features (fuel : nat) (m : Manifest) (enabled_features : list string)
    : outcome ManifestError (list string) :=
  for_each (λ all f, e ← get_enabled_features fuel (Manifest_features m) f; Ok (all ++ e)) enabled_features
    ((λ f, "tauri/" +:+ f) <$> hash_order (tauri_features m)).

End Rewriting.

(** ** The build script *)
Inductive Dependency :=
| Simple (version : string)
| Detailed (features : list string)
| Inherited (features : list string).

Record Target := mk_target { target_dependencies : gmap string Dependency; target_build_dependencies : gmap string Dependency }.
Record CargoToml := mk_cargo_toml {
  dependencies : gmap string Dependency;
  build_dependencies : gmap string Dependency;
  target : gmap string Target;
}.

Record Diff := mk_diff { diff_remove : list string; diff_add : list string }.

Definition features_diff (current expected : list string) : Diff :=
  mk_diff (List.filter (λ f, negb (bool_decide (f ∈ expected))) current)
          (List.filter (λ f, negb (bool_decide (f ∈ current))) expected).

Record AllowlistedDependency := mk_allowlisted {
  dep_name : string;
  alias : option string;
  dep_kind : DependencyKind;
  managed_features : option (list string);
  expected_features : list string;
}.

Definition dep_features (d : Dependency) : list string :=
  match d with Simple _ => [] | Detailed f | Inherited f => f end.

Definition plural (l : list string) : string := if decide (length l = 1) then "` feature" else "` features".

Definition check_features (dependency : Dependency) (metadata : AllowlistedDependency) : outcome string unit :=
  let considered := List.filter (λ f, match managed_features metadata with
                                      | Some all => bool_decide (f ∈ all)
                                      | None => starts_with "allow-" f
                                      end) (dep_features dependency) in
  let diff := features_diff considered (expected_features metadata) in
  let error_message :=
    (match diff_remove diff with
     | [] => ""
     | l => "remove the `" +:+ String.concat ", " l +:+ plural l +:+
            match diff_add diff with [] => "" | _ => " and " end
     end) +:+
    (match diff_add diff with
     | [] => ""
     | l => "add the `" +:+ String.concat ", " l +:+ plural l
     end) in
  if decide (error_message = "") then Ok () else Err error_message.

(** The entries that are found are taken out of the manifest. *)
Definition take_dependency (kind : DependencyKind) (name : string) (t : Target) : option Dependency * Target :=
  match kind with
  | Build => (target_build_dependencies t !! name,
              mk_target (target_dependencies t) (delete name (target_build_dependencies t)))
  | Normal => (target_dependencies t !! name,
               mk_target (delete name (target_dependencies t)) (target_build_dependencies t))
  end.

Definition remove_dependency (manifest : CargoToml) (name : string) (kind : DependencyKind)
    : list Dependency * CargoToml :=
  let direct := match kind with Build => build_dependencies manifest | Normal => dependencies manifest end in
  match direct !! name with
  | Some dep =>
      ([dep], match kind with
              | Build => mk_cargo_toml (dependencies manifest) (delete name (build_dependencies manifest)) (target manifest)
              | Normal => mk_cargo_toml (delete name (dependencies manifest)) (build_dependencies manifest) (target manifest)
              end)
  | None =>
      (omap (λ t, (take_dependency kind name t).1) (btree_values (target manifest)),
       mk_cargo_toml (dependencies manifest) (build_dependencies manifest)
         ((λ t, (take_dependency kind name t).2) <$> target manifest))
  end.

Definition check_error (name error : string) : string :=
  "
      The `" +:+ name +:+ "` dependency features on the `Cargo.toml` file does not match the allowlist defined under `tauri.conf.json`.
      Please run `tauri dev` or `tauri build` or " +:+ error +:+ ".
    ".

Definition check_dependency (manifest : CargoToml) (metadata : AllowlistedDependency) : outcome string CargoToml :=
  let '(deps, manifest) := remove_dependency manifest (dep_name metadata) (dep_kind metadata) in
  let '(name, deps, manifest) :=
    match deps, alias metadata with
    | [], Some alias => let '(deps, manifest) := remove_dependency manifest alias (dep_kind metadata) in (alias, deps, manifest)
    | _, _ => (dep_name metadata, deps, manifest)
    end in
  for_each (λ manifest dep,
    match check_features dep metadata with
    | Err error => Err (check_error name error)
    | _ => Ok manifest
    end) deps manifest.

Definition allowlisted (config : AppConfig) : list AllowlistedDependency :=
  [mk_allowlisted "tauri-build" None Build (Some ["isolation"]) (if is_isolation config then ["isolation"] else []);
   mk_allowlisted "tauri" None Normal (Some (List.filter not_tray_icon all_features))
     (List.filter not_tray_icon (AppConfig_features config))].

Definition check (config : AppConfig) (manifest : CargoToml) : outcome string unit :=
  _ ← for_each check_dependency (allowlisted config) manifest; Ok ().


(** * Proofs *)

(** ** Maps and paths *)
Section MapLemmas.
Context {X : Type}.
Implicit Types t : list (string * X).

Lemma find_set_key k k' v t : find k (set_key k' v t) = if decide (k = k') then Some v else find k t.
Proof.
  induction t as [|[j w] t IH]; simpl; [by repeat case_decide; subst|].
  destruct (decide (j = k')) as [->|]; simpl; [by repeat case_decide; subst|]. rewrite IH. by repeat case_decide; subst.
Qed.

Lemma set_key_same k v t : find k t = Some v → set_key k v t = t.
Proof. induction t as [|[j w] t IH]; simpl; [done|]. case_decide; intros; simplify_eq; [done|]. by rewrite IH. Qed.

Lemma set_key_set_key k v v' t : set_key k v (set_key k v' t) = set_key k v t.
Proof.
  induction t as [|[j w] t IH]; simpl; [by rewrite decide_True|].
  destruct (decide (j = k)) as [->|]; simpl; [by rewrite decide_True|]. rewrite decide_False by done. by rewrite IH.
Qed.

Lemma set_key_keys k v w t : find k t = Some w → (set_key k v t).*1 = t.*1.
Proof. induction t as [|[j u] t IH]; simpl; [done|]. case_decide; intros; subst; [done|]. by apply (f_equal (cons j)), IH. Qed.

Lemma find_elem k v t : NoDup t.*1 → find k t = Some v ↔ (k, v) ∈ t.
Proof.
  induction t as [|[j w] t IH]; simpl; [by intros _; split; [|inversion 1]|]. intros [Hj Ht]%NoDup_cons.
  rewrite elem_of_cons. case_decide as E.
  - subst. split; [intros; simplify_eq; auto|]. intros [?|Hin]; [by simplify_eq|].
    destruct Hj. apply list_elem_of_fmap. by exists (k, v).
  - rewrite (IH Ht). split; [auto|]. intros [?|?]; [by simplify_eq|done].
Qed.
End MapLemmas.

Lemma table_get_set k k' v t : v ≠ INone →
  table_get k (set_key k' v t) = if decide (k = k') then Some v else table_get k t.
Proof. intros Hv. unfold table_get. rewrite find_set_key. case_decide; [|done]. by destruct v. Qed.

Lemma table_get_find k t i : table_get k t = Some i → find k t = Some i ∧ i ≠ INone.
Proof. unfold table_get. destruct (find k t) as [[]|]; simpl; intros; by simplify_eq. Qed.

(** Paths that lead to different places. *)
Fixpoint apart (p q : list string) : Prop :=
  match p, q with
  | k :: p, j :: q => k ≠ j ∨ apart p q
  | _, _ => False
  end.

Lemma apart_sym p q : apart p q → apart q p.
Proof. revert q. induction p as [|k p IH]; intros [|j q]; simpl; naive_solver. Qed.

Lemma set_path_none p v i : v ≠ INone → i ≠ INone → set_path p v i ≠ INone.
Proof. intros Hv Hi. destruct p as [|k p]; [done|]. simpl. destruct i; try done. by destruct (table_get k t). Qed.

Lemma get_set_path p v i : v ≠ INone → is_Some (get_path p i) → get_path p (set_path p v i) = Some v.
Proof.
  intros Hv. revert i. induction p as [|k p IH]; intros i; [done|]. simpl. destruct i as [| |t|]; simpl; try by intros [? ?].
  destruct (table_get k t) as [j|] eqn:Hj; simpl; [|by intros [? ?]]. intros Hs.
  apply table_get_find in Hj as [_ Hn]. rewrite table_get_set, decide_True by (done || by apply set_path_none). simpl. by apply IH.
Qed.

Lemma get_set_path_apart p q v i : v ≠ INone → apart p q → get_path q (set_path p v i) = get_path q i.
Proof.
  intros Hv. revert q i. induction p as [|k p IH]; intros [|j q] i; simpl; try done. intros Ha.
  destruct i as [| |t|]; try done. destruct (table_get k t) as [x|] eqn:Hx; [|done]. simpl.
  apply table_get_find in Hx as Hx'. destruct Hx' as [_ Hn]. rewrite table_get_set by by apply set_path_none.
  case_decide as E; [|done]. subst. rewrite Hx. simpl. apply IH. naive_solver.
Qed.

Lemma set_path_same p v i : get_path p i = Some v → set_path p v i = i.
Proof.
  revert i. induction p as [|k p IH]; intros i; simpl; [by intros [= ->]|]. destruct i as [| |t|]; simpl; try done.
  destruct (table_get k t) as [x|] eqn:Hx; simpl; [|done]. intros H. rewrite IH by done.
  apply table_get_find in Hx as [Hx _]. by rewrite set_key_same.
Qed.

(** ** Features of one dependency *)
Definition strings (l : list Value) : list string := omap as_str l.
Definition item_features (i : Item) : list string :=
  default [] (f ← item_get "features" i; v ← as_value f; l ← as_array v; Some (strings l)).
(** A dependency is a version or a table. *)
Definition dependency_item (i : Item) : Prop :=
  match i with ITable _ | IValue (VInlineTable _) | IValue (VString _ _) => True | _ => False end.

Section Proofs.
Context {ML : ManifestLib}.

Definition listed (features : gset string) (v : Value) : bool :=
  match as_str v with Some f => bool_decide (f ∈ features) | None => true end.

Lemma remove_unlisted_filter features i l :
  i ≤ length l → remove_unlisted features i l = List.filter (listed features) (take i l) ++ drop i l.
Proof.
  revert l. induction i as [|i IH]; intros l Hi; [by rewrite take_0, drop_0|]. simpl.
  destruct (lookup_lt_is_Some_2 l i ltac:(lia)) as [v Hv]. rewrite Hv. simpl.
  rewrite (take_S_r _ _ _ Hv), List.filter_app, <- app_assoc. simpl.
  assert (drop i l = v :: drop (S i) l) as Hd by by apply drop_S.
  unfold listed at 2. destruct (as_str v) as [f|] eqn:E; [|rewrite IH, Hd by lia; done].
  case_decide as Hf; [rewrite bool_decide_true by done; rewrite IH, Hd by lia; done|].
  rewrite bool_decide_false by done. simpl. rewrite IH by (rewrite length_delete by eauto; lia).
  rewrite delete_take_drop, take_app_length', drop_app_length' by (rewrite length_take; lia). done.
Qed.

Lemma strings_elem f l : f ∈ strings l ↔ ∃ v, v ∈ l ∧ as_str v = Some f.
Proof. apply list_elem_of_omap. Qed.

Lemma has_feature l f : List.existsb (λ v, bool_decide (as_str v = Some f)) l = true ↔ f ∈ strings l.
Proof.
  rewrite List.existsb_exists, strings_elem. split; intros (v & Hv & E); exists v;
    rewrite list_elem_of_In in *; (split; [done|]); by apply bool_decide_eq_true in E || apply bool_decide_eq_true.
Qed.

Lemma add_features_strings order l f : f ∈ strings (foldl add_feature l order) ↔ f ∈ strings l ∨ f ∈ order.
Proof.
  revert l. induction order as [|g order IH]; intros l; simpl; [set_solver|]. rewrite IH. unfold add_feature.
  destruct (List.existsb _ l) eqn:E.
  - apply has_feature in E. set_solver.
  - unfold strings. simpl. set_solver.
Qed.

Lemma add_features_same order l : (∀ f, f ∈ order → f ∈ strings l) → foldl add_feature l order = l.
Proof.
  induction order as [|g order IH]; intros H; simpl; [done|]. unfold add_feature at 2.
  assert (List.existsb (λ f, bool_decide (as_str f = Some g)) l = true) as -> by (apply has_feature, H; by left).
  apply IH. intros f Hf. apply H. by right.
Qed.

Lemma hash_order_elem f s : f ∈ hash_order s ↔ f ∈ s.
Proof. by rewrite hash_order_elements, elem_of_elements. Qed.

Lemma inject_array_filter features l :
  inject_array features l = List.filter (listed features) (foldl add_feature l (hash_order features)).
Proof. unfold inject_array. rewrite remove_unlisted_filter by done. by rewrite firstn_all, drop_all, app_nil_r. Qed.

Lemma inject_array_strings features l f : f ∈ strings (inject_array features l) ↔ f ∈ features.
Proof.
  rewrite inject_array_filter, strings_elem. split.
  - intros (v & Hv & E). rewrite list_elem_of_In, List.filter_In in Hv. destruct Hv as [_ Hl]. unfold listed in Hl.
    rewrite E in Hl. by apply bool_decide_eq_true in Hl.
  - intros Hf. assert (f ∈ strings (foldl add_feature l (hash_order features))) as (v & Hv & E)%strings_elem.
    { apply add_features_strings. right. by apply hash_order_elem. }
    exists v. split; [|done]. rewrite list_elem_of_In, List.filter_In, <- list_elem_of_In. split; [done|].
    unfold listed. rewrite E. by apply bool_decide_eq_true.
Qed.

Lemma inject_array_same features l : (∀ f, f ∈ strings l ↔ f ∈ features) → inject_array features l = l.
Proof.
  intros H. rewrite inject_array_filter, add_features_same by (intros f; rewrite hash_order_elem; apply H).
  assert (∀ v, v ∈ l → listed features v = true) as Hl.
  { intros v Hv. unfold listed. destruct (as_str v) as [f|] eqn:E; [|done]. apply bool_decide_eq_true, H, strings_elem. eauto. }
  clear H. induction l as [|v l IH]; simpl; [done|]. rewrite Hl by by left. f_equal. apply IH. intros w Hw. apply Hl. by right.
Qed.

Lemma toml_array_strings features f : f ∈ strings (toml_array features) ↔ f ∈ features.
Proof.
  unfold toml_array. rewrite strings_elem, <- hash_order_elem. setoid_rewrite list_elem_of_fmap. split.
  - intros (v & (g & -> & Hg) & E). simpl in E. simplify_eq. by rewrite merge_sort_Permutation in Hg.
  - intros Hf. exists (string_value f). split; [|done]. exists f. split; [done|]. by rewrite merge_sort_Permutation.
Qed.

Lemma insert_unmanaged_elem managed l features f :
  f ∈ foldl (insert_unmanaged managed) features l ↔ f ∈ features ∨ (managed f = false ∧ f ∈ strings l).
Proof.
  revert features. induction l as [|v l IH]; intros features; simpl; [set_solver|]. rewrite IH. unfold strings.
  destruct v as [x g| | | |]; simpl; try set_solver. destruct (managed g) eqn:E; simpl.
  - rewrite elem_of_cons. split; [naive_solver|]. intros [?|[Hm [->|?]]]; [auto|congruence|auto].
  - rewrite elem_of_union, elem_of_singleton, elem_of_cons. naive_solver.
Qed.

Section TableFeatures.
Context {X : Type} (value : X → option Value) (item : Value → X) (value_item : ∀ v, value (item v) = Some v).

Definition table_features (dep : list (string * X)) : list string :=
  default [] (i ← find "features" dep; v ← value i; l ← as_array v; Some (strings l)).

Lemma inject_table_spec managed F dep :
  ∃ l F', inject_features_table value item managed F dep = (set_key "features" (item (VArray l)) dep, F') ∧
    (∀ f, f ∈ strings l ↔ f ∈ F') ∧ (∀ f, f ∈ F' ↔ f ∈ F ∨ (managed f = false ∧ f ∈ table_features dep)).
Proof. clear value_item.
  unfold inject_features_table, table_features.
  destruct (find "features" dep) as [i|]; simpl; [destruct (value i) as [[]|]; simpl|].
  all: try (eexists _, _; split_and!; [done|apply toml_array_strings|set_solver]).
  eexists _, _. split_and!; [done|apply inject_array_strings|intros f; apply insert_unmanaged_elem].
Qed.

Lemma inject_table_again managed F dep :
  inject_features_table value item managed F (inject_features_table value item managed F dep).1 =
  inject_features_table value item managed F dep.
Proof.
  destruct (inject_table_spec managed F dep) as (l & F' & -> & Hl & HF). simpl. unfold inject_features_table.
  rewrite find_set_key, decide_True by done. simpl. rewrite value_item. simpl.
  assert (foldl (insert_unmanaged managed) F l = F') as ->.
  { apply set_eq. intros f. rewrite insert_unmanaged_elem, Hl, HF. naive_solver. }
  by rewrite inject_array_same, set_key_set_key.
Qed.
End TableFeatures.

Definition writes (managed : string → bool) (F : gset string) (item item' : Item) (F' : gset string) : Prop :=
  dependency_item item ∧ dependency_item item' ∧ (∀ f, f ∈ item_features item' ↔ f ∈ F') ∧
  (∀ f, f ∈ F' ↔ f ∈ F ∨ (managed f = false ∧ f ∈ item_features item)) ∧
  (∀ k, k ≠ "features" → k ≠ "version" → item_get k item' = item_get k item).

Lemma table_features_item t : table_features as_value t = item_features (ITable t).
Proof. unfold table_features, item_features. simpl. unfold table_get. by destruct (find "features" t) as [[]|]. Qed.
Lemma table_features_inline t : table_features Some t = item_features (IValue (VInlineTable t)).
Proof. unfold table_features, item_features. simpl. by destruct (find "features" t). Qed.

Lemma write_features_spec n item managed F item' w F' :
  write_features n item managed F = Ok (item', w, F') →
  (item' = item ∧ F' = F ∧ w = false ∧ ¬ dependency_item item) ∨ (w = true ∧ writes managed F item item' F').
Proof.
  destruct item as [|v|t|l]; simpl; try (intros ?; simplify_eq; left; naive_solver).
  - destruct v as [text version| | |t|]; simpl; try done.
    + intros ?. simplify_eq. right. unfold writes. split_and!; try done.
      * intros f. apply toml_array_strings.
      * unfold item_features. set_solver.
      * intros k H1 H2. simpl. by rewrite !decide_False by done.
    + destruct (inject_table_spec Some id managed F t) as (l & F'' & -> & Hl & HF). intros ?. simplify_eq. right.
      rewrite table_features_inline in HF. unfold writes. split_and!; try done.
      * unfold item_features. simpl. by rewrite find_set_key, decide_True.
      * intros k Hk _. simpl. by rewrite find_set_key, decide_False.
  - destruct (inject_table_spec as_value IValue managed F t) as (l & F'' & -> & Hl & HF). intros ?. simplify_eq. right.
    rewrite table_features_item in HF. unfold writes. split_and!; try done.
    + unfold item_features. simpl. by rewrite table_get_set, decide_True.
    + intros k Hk _. simpl. by rewrite table_get_set, decide_False.
Qed.

Lemma write_features_again n item managed F item' w F' :
  write_features n item managed F = Ok (item', w, F') → write_features n item' managed F = Ok (item', w, F').
Proof.
  destruct item as [|v|t|l]; simpl; try (intros; simplify_eq; done).
  - destruct v as [text version| | |t|]; simpl; try done.
    + intros ?. simplify_eq. simpl.
      assert (foldl (insert_unmanaged managed) F' (toml_array F') = F') as E.
      { apply set_eq. intros f. rewrite insert_unmanaged_elem, toml_array_strings. naive_solver. }
      unfold inject_features_table. simpl. rewrite E. rewrite inject_array_same by apply toml_array_strings. done.
    + pose proof (inject_table_again Some id (λ _, eq_refl) managed F t) as H.
      destruct (inject_features_table Some id managed F t) as [t' F''] eqn:E. simpl in H. intros ?. simplify_eq. simpl. by rewrite H.
  - pose proof (inject_table_again as_value IValue (λ _, eq_refl) managed F t) as H.
    destruct (inject_features_table as_value IValue managed F t) as [t' F''] eqn:E. simpl in H. intros ?. simplify_eq. simpl. by rewrite H.
Qed.

Lemma write_features_none n item managed F item' w F' :
  item ≠ INone → write_features n item managed F = Ok (item', w, F') → item' ≠ INone.
Proof.
  intros Hn Hw. destruct (write_features_spec _ _ _ _ _ _ _ Hw) as [(-> & _)|(_ & _ & H & _)]; [done|]. by intros ->.
Qed.

Lemma writes_inherited managed F item item' F' : writes managed F item item' F' → is_inherited item' = is_inherited item.
Proof. intros (_ & _ & _ & _ & H). unfold is_inherited. by rewrite H. Qed.

(** ** Where dependencies are found *)
Definition dep_path (kind : DependencyKind) (name : string) (p : list string) : Prop :=
  p = [table_of kind; name] ∨ ∃ cfg, p = target_path (table_of kind) name cfg.

Lemma dep_paths_apart kind name kind' name' p q : dep_path kind name p → dep_path kind' name' q → p ≠ q → apart p q.
Proof.
  assert (∀ k, table_of k ≠ "target") as Ht by by intros [].
  intros [->|[cfg ->]] [->|[cfg' ->]] Hne; simpl.
  - destruct (decide (table_of kind = table_of kind')) as [E|]; [|by left]. right. left. intros ->. by rewrite E in Hne.
  - by left.
  - left. by intros ?%eq_sym%Ht.
  - right. destruct (decide (cfg = cfg')) as [->|]; [|by left]. right.
    destruct (decide (table_of kind = table_of kind')) as [E|]; [|by left]. right. left. intros ->. by rewrite E in Hne.
Qed.

(** No key is there twice. *)
Definition distinct_doc (d : Item) : Prop :=
  ∃ m, d = ITable m ∧ NoDup m.*1 ∧ ∀ t, find "target" m = Some (ITable t) → NoDup t.*1.

Lemma target_has_path table name tv : target_has table name tv = bool_decide (is_Some (get_path [table; name] tv)).
Proof.
  apply bool_decide_ext. simpl. destruct (as_table tv) as [t|]; [|done]. simpl.
  destruct (table_get table t) as [j|]; [|done]. simpl. destruct (as_table j) as [u|]; [|done]. simpl.
  by destruct (table_get name u).
Qed.

Lemma matching_deps_elem table name t p :
  p ∈ matching_deps table name t ↔
  ∃ cfg tv, (cfg, tv) ∈ t ∧ is_Some (get_path [table; name] tv) ∧ p = target_path table name cfg.
Proof.
  unfold matching_deps. rewrite list_elem_of_fmap. setoid_rewrite list_elem_of_fmap. split.
  - intros (cfg & -> & [? tv] & -> & Hin). rewrite list_elem_of_In, List.filter_In, <- list_elem_of_In in Hin.
    destruct Hin as [Hin Hh]. rewrite target_has_path in Hh. apply bool_decide_eq_true in Hh. eauto.
  - intros (cfg & tv & Hin & Hs & ->). exists cfg. split; [done|]. exists (cfg, tv). split; [done|].
    rewrite list_elem_of_In, List.filter_In, <- list_elem_of_In. split; [done|]. rewrite target_has_path. by apply bool_decide_eq_true.
Qed.

Lemma table_get_some k m j : find k m = Some j → j ≠ INone → table_get k m = Some j.
Proof. intros H Hj. unfold table_get. rewrite H. by destruct j. Qed.

Lemma target_path_get m t cfg tv table name : find "target" m = Some (ITable t) → find cfg t = Some tv → 
  is_Some (get_path [table; name] tv) →
  get_path (target_path table name cfg) (ITable m) = get_path [table; name] tv.
Proof.
  intros Hm Ht Hs. unfold target_path. change (get_path ["target"; cfg; table; name] (ITable m)) with
    (j ← table_get "target" m; get_path [cfg; table; name] j).
  rewrite (table_get_some _ _ _ Hm) by done. simpl mbind.
  change (get_path [cfg; table; name] (ITable t)) with (j ← table_get cfg t; get_path [table; name] j).
  rewrite (table_get_some _ _ _ Ht); [done|]. intros ->. by destruct Hs.
Qed.

Lemma found_paths m n k p : distinct_doc (ITable m) → p ∈ find_dependency m n k →
  dep_path k n p ∧ is_Some (get_path p (ITable m)).
Proof.
  intros (? & [= <-] & Hm & Ht). assert (∀ e, e ∈ m → e ∈ m) as Hsub by done. revert Hsub.
  generalize m at 1 3. intros l. induction l as [|[j v] l IH]; intros Hsub; simpl; [set_solver|].
  assert (∀ e, e ∈ l → e ∈ m) as Hl by (intros e He; apply Hsub; by right).
  destruct (as_table v) as [t|] eqn:Hv; [|by apply IH]. destruct v; simplify_eq/=.
  assert (find j m = Some (ITable t)) as Hf by (apply find_elem; [done|]; apply Hsub; by left).
  case_decide; [subst; destruct (table_get n t) as [i|] eqn:Hn; [|by apply IH]|].
  - intros ->%list_elem_of_singleton. split; [by left|]. simpl. rewrite (table_get_some _ _ _ Hf) by done. simpl. rewrite Hn. by eexists.
  - case_decide; [subst|by apply IH]. intros (cfg & tv & Hin & Hs & ->)%matching_deps_elem. split; [right; by exists cfg|].
    rewrite (target_path_get m t cfg tv); [done|done| |done]. apply find_elem; auto.
Qed.

Lemma found_nodup m n k : distinct_doc (ITable m) → NoDup (find_dependency m n k).
Proof.
  intros (? & [= <-] & Hm & Ht). assert (∀ e, e ∈ m → e ∈ m) as Hsub by done. revert Hsub.
  generalize m at 1 3. intros l. induction l as [|[j v] l IH]; intros Hsub; simpl; [constructor|].
  assert (∀ e, e ∈ l → e ∈ m) as Hl by (intros e He; apply Hsub; by right).
  destruct (as_table v) as [t|] eqn:Hv; [|by apply IH]. destruct v; simplify_eq/=.
  case_decide; [destruct (table_get n t); [apply NoDup_singleton|by apply IH]|]. case_decide; [subst|by apply IH].
  unfold matching_deps. apply NoDup_fmap_2; [intros ?? [=]; done|].
  assert (NoDup t.*1) as Hd by (apply Ht, find_elem; [done|]; apply Hsub; by left). clear -Hd.
  induction t as [|[c i] t IH]; simpl; [constructor|]. apply NoDup_cons in Hd as [Hc Hd]. destruct (target_has _ _ i); [|by apply IH].
  simpl. apply NoDup_cons. split; [|by apply IH]. intros ([c' i'] & E & Hin)%list_elem_of_fmap. simpl in E. subst c'.
  rewrite list_elem_of_In, List.filter_In, <- list_elem_of_In in Hin. apply Hc, list_elem_of_fmap. exists (c, i'). naive_solver.
Qed.

(** Writing an item changes no other dependency's place. *)
Lemma matching_deps_set_key table name cfg w old t :
  find cfg t = Some old → target_has table name w = target_has table name old →
  matching_deps table name (set_key cfg w t) = matching_deps table name t.
Proof.
  intros Hf Hh. unfold matching_deps. f_equal. induction t as [|[c i] t IH]; simpl in *; [done|].
  case_decide; simplify_eq; simpl; [by rewrite Hh; destruct (target_has _ _ old)|].
  destruct (target_has table name i); simpl; [f_equal|]; by apply IH.
Qed.

Lemma find_dependency_set_key k t t' m n kd :
  find k m = Some (ITable t) → (k = table_of kd → is_Some (table_get n t') ↔ is_Some (table_get n t)) →
  (k = "target" → matching_deps (table_of kd) n t' = matching_deps (table_of kd) n t) →
  find_dependency (set_key k (ITable t') m) n kd = find_dependency m n kd.
Proof.
  intros Hf H1 H2. induction m as [|[j v] m IH]; simpl in *; [done|]. case_decide; simplify_eq; simpl.
  - case_decide; [|case_decide; [auto|done]]. specialize (H1 ltac:(done)).
    destruct (table_get n t') as [i|], (table_get n t) as [i'|]; try done.
    + destruct (proj1 H1); [by eexists|]. done.
    + destruct (proj2 H1); [by eexists|]. done.
  - by rewrite IH.
Qed.

Lemma get_path_table k p m i : get_path (k :: p) (ITable m) = Some i →
  ∃ j, table_get k m = Some j ∧ get_path p j = Some i.
Proof. simpl. destruct (table_get k m) as [j|]; simpl; [eauto|done]. Qed.

Lemma has_after_set kd n p table name v i :
  p = [table_of kd; n] → v ≠ INone → is_Some (get_path p i) →
  is_Some (get_path [table_of table; name] (set_path p v i)) ↔ is_Some (get_path [table_of table; name] i).
Proof.
  intros -> Hv Hs. destruct (decide ([table_of kd; n] = [table_of table; name])) as [E|E].
  - rewrite <- E, get_set_path by done. by split.
  - rewrite get_set_path_apart; [done|done|]. eapply dep_paths_apart; [by left|by left|done].
Qed.

Lemma set_path_table k p v m j : table_get k m = Some j → set_path (k :: p) v (ITable m) = ITable (set_key k (set_path p v j) m).
Proof. intros H. simpl. by rewrite H. Qed.

Lemma set_path_is_table k p v t i : get_path (k :: p) (ITable t) = Some i → ∃ t', set_path (k :: p) v (ITable t) = ITable t'.
Proof. intros (j & Hj & _)%get_path_table. rewrite (set_path_table _ _ _ _ _ Hj). eauto. Qed.

Lemma path_through k p j i : get_path (k :: p) j = Some i → ∃ t, j = ITable t.
Proof. destruct j; try done. eauto. Qed.

Lemma find_after_set kd n p v m n' kd' :
  dep_path kd n p → is_Some (get_path p (ITable m)) → v ≠ INone →
  ∃ m', set_path p v (ITable m) = ITable m' ∧ find_dependency m' n' kd' = find_dependency m n' kd' ∧
    (distinct_doc (ITable m) → distinct_doc (ITable m')).
Proof.
  unfold dep_path, target_path. intros [->|[cfg ->]] [i Hi] Hv; apply get_path_table in Hi as (j & Hj & Hi); rewrite (set_path_table _ _ _ _ _ Hj);
    apply table_get_find in Hj as [Hj _]; eexists; (split; [done|]).
  - apply path_through in Hi as Ht. destruct Ht as [t ->]. destruct (set_path_is_table _ _ v _ _ Hi) as [t' Ht']. rewrite Ht'. split.
    + apply (find_dependency_set_key _ t); [done| |by destruct kd]. intros Hk.
      pose proof (has_after_set kd n _ kd' n' v (ITable m) eq_refl Hv) as H.
      simpl in Ht'. apply get_path_table in Hi as (j & Hjn & _). rewrite Hjn in Ht'. injection Ht' as <-.
      rewrite table_get_set by by destruct v. case_decide; [|done]. subst. rewrite Hjn. split; by eexists.
    + intros (? & [= <-] & Hm & Htg). eexists. split; [done|]. rewrite (set_key_keys _ _ _ _ Hj). split; [done|].
      intros u. rewrite find_set_key, decide_False by by destruct kd. apply Htg.
  - apply path_through in Hi as Ht. destruct Ht as [t ->]. apply get_path_table in Hi as (tv & Htv & Hi).
    rewrite (set_path_table _ _ _ _ _ Htv). apply table_get_find in Htv as [Htv _]. split.
    + apply (find_dependency_set_key _ t); [done|by destruct kd'|]. intros _. apply (matching_deps_set_key _ _ _ _ tv); [done|].
      rewrite !target_has_path. apply bool_decide_ext. eapply has_after_set; [done|done|by eexists].
    + intros (? & [= <-] & Hm & Htg). eexists. split; [done|]. rewrite (set_key_keys _ _ _ _ Hj). split; [done|].
      intros u. rewrite find_set_key, decide_True by done. intros [= <-]. rewrite (set_key_keys _ _ _ _ Htv). by apply Htg.
Qed.

(** ** One dependency *)
Section OneDependency.
Context (d : DependencyAllowlist).
Let managed f := bool_decide (f ∈ all_cli_managed_features d).

(** What happens to an item: it is left alone, or it gets exactly the managed
    features of [F] and keeps the others it has. *)
Definition updated (F : gset string) (item item' : Item) : Prop :=
  ((is_inherited item = true ∨ ¬ dependency_item item) ∧ item' = item) ∨
  (is_inherited item = false ∧ dependency_item item' ∧
   (∀ f, f ∈ all_cli_managed_features d → f ∈ item_features item' ↔ f ∈ F) ∧
   (∀ f, f ∉ all_cli_managed_features d → f ∈ F ∨ f ∈ item_features item → f ∈ item_features item')).

(** [F'] has the managed features of [F], and at least its others. *)
Definition same_managed (F F' : gset string) : Prop :=
  (∀ f, f ∈ all_cli_managed_features d → f ∈ F' ↔ f ∈ F) ∧ F ⊆ F'.

Lemma managed_spec f : managed f = false ↔ f ∉ all_cli_managed_features d.
Proof. unfold managed. by rewrite bool_decide_eq_false. Qed.

Lemma writes_same_managed F item item' F' : writes managed F item item' F' → same_managed F F'.
Proof.
  intros (_ & _ & _ & H & _). split; [|intros f Hf; rewrite H; auto]. intros f Hf. rewrite H, managed_spec. naive_solver.
Qed.

Lemma writes_updated F0 F item item' F' :
  same_managed F0 F → is_inherited item = false → writes managed F item item' F' → updated F0 item item'.
Proof.
  intros [Hm Hs] Hi Hw. pose proof (writes_same_managed _ _ _ _ Hw) as [Hm' Hs']. destruct Hw as (_ & Hd & Hf & HF & _).
  right. split_and!; [done|done| |].
  - intros f Hin. rewrite Hf, Hm', Hm by done. done.
  - intros f Hin Ho. rewrite Hf, HF, managed_spec. destruct Ho; [left; by apply Hs|auto].
Qed.

Lemma get_path_not_none k p i j : get_path (k :: p) i = Some j → j ≠ INone.
Proof.
  revert k i. induction p as [|k' p IH]; intros k i; destruct i as [| |t|]; try done; intros (x & Hx & H)%get_path_table.
  - simpl in H. simplify_eq. by apply table_get_find in Hx as [_ ?].
  - by eapply IH.
Qed.

Lemma dep_path_not_none p i j : dep_path (kind d) (name d) p → get_path p i = Some j → j ≠ INone.
Proof. intros [->|[cfg ->]]; apply get_path_not_none. Qed.

(** One step of the loop on a dependency that is there. *)
Lemma inject_item_spec m b F p s :
  dep_path (kind d) (name d) p → is_Some (get_path p (ITable m)) → inject_item d (ITable m, b, F) p = Ok s →
  ∃ m' b' F' item item', s = (ITable m', b', F') ∧ ITable m' = set_path p item' (ITable m) ∧ item' ≠ INone ∧
    get_path p (ITable m) = Some item ∧ same_managed F F' ∧ (∀ F0, same_managed F0 F → updated F0 item item') ∧
    (b' = false → b = false ∧ m' = m) ∧
    (∀ doc b0, get_path p doc = Some item' → ∃ b1, inject_item d (doc, b0, F) p = Ok (doc, b1, F')).
Proof.
  intros Hp [item Hi]. unfold inject_item. rewrite Hi. pose proof (dep_path_not_none _ _ _ Hp Hi) as Hn.
  destruct (is_inherited item) eqn:Hin.
  { intros [= <-]. exists m, b, F, item, item. split_and!; try done.
    - by rewrite (set_path_same _ _ _ Hi).
    - intros F0 _. left. auto.
    - intros doc b0 Hd. rewrite Hd, Hin. by exists b0. }
  intros ([[item' w] F'] & Hw & Hs)%bind_ok. injection Hs as <-.
  pose proof (write_features_none _ _ _ _ _ _ _ Hn Hw) as Hn'.
  destruct (find_after_set (kind d) (name d) p item' m "" Build Hp ltac:(by eexists) Hn') as (m' & Hm' & _).
  exists m', (if b then b else w), F', item, item'.
  assert (is_inherited item' = false ∧ same_managed F F' ∧ (∀ F0, same_managed F0 F → updated F0 item item') ∧
          (w = false → item' = item)) as (Hin' & Hsm & Hup & Hk).
  { destruct (write_features_spec _ _ _ _ _ _ _ Hw) as [(-> & -> & -> & Hnd)|(-> & Hwr)].
    - split_and!; try done. intros F0 _. left. auto.
    - split_and!; [by rewrite (writes_inherited _ _ _ _ _ Hwr)|by eapply writes_same_managed| |done].
      intros F0 H0. by eapply writes_updated. }
  split_and!; try done; [by rewrite Hm'| |].
  - destruct b; [done|]. intros ->. split; [done|]. rewrite (Hk eq_refl), (set_path_same _ _ _ Hi) in Hm'. by injection Hm'.
  - intros doc b0 Hd. rewrite Hd, Hin'. rewrite (write_features_again _ _ _ _ _ _ _ Hw). simpl.
    rewrite (set_path_same _ _ _ Hd). eauto.
Qed.

Lemma same_managed_trans F1 F2 F3 : same_managed F1 F2 → same_managed F2 F3 → same_managed F1 F3.
Proof. intros [H1 S1] [H2 S2]. split; [intros f Hf; by rewrite H2, H1|by trans F2]. Qed.

(** The loop over the items of the dependency. *)
Record rewritten (ps : list (list string)) (m m' : Table) (b b' : bool) (F F' : gset string) : Prop := {
  rw_items p item : p ∈ ps → get_path p (ITable m) = Some item →
    ∃ item', get_path p (ITable m') = Some item' ∧ updated F item item';
  rw_others q : (∀ p, p ∈ ps → apart p q) → get_path q (ITable m') = get_path q (ITable m);
  rw_found n k : find_dependency m' n k = find_dependency m n k;
  rw_distinct : distinct_doc (ITable m) → distinct_doc (ITable m');
  rw_managed : same_managed F F';
  rw_unchanged : b' = false → b = false ∧ m' = m;
  rw_again doc b0 : (∀ p, p ∈ ps → get_path p doc = get_path p (ITable m')) →
    ∃ b1, for_each (inject_item d) ps (doc, b0, F) = Ok (doc, b1, F');
}.

Lemma inject_items_spec ps m b F s :
  Forall (dep_path (kind d) (name d)) ps → NoDup ps → (∀ p, p ∈ ps → is_Some (get_path p (ITable m))) →
  for_each (inject_item d) ps (ITable m, b, F) = Ok s →
  ∃ m' b' F', s = (ITable m', b', F') ∧ rewritten ps m m' b b' F F'.
Proof.
  intros Hps Hnd. revert m b F. induction Hps as [|p ps Hp Hps IH]; intros m b F Hs.
  { intros [= <-]. exists m, b, F. split; [done|]. split; try done; [set_solver|]. intros doc b0 _. by exists b0. }
  intros (s1 & H1 & H2)%bind_ok. apply NoDup_cons in Hnd as [Hn Hnd].
  destruct (inject_item_spec m b F p s1 Hp (Hs p ltac:(by left)) H1)
    as (m1 & b1 & F1 & item & item1 & -> & Hm1 & Hn1 & Hi & Hsm & Hup & Hun & Hag).
  assert (∀ q, q ∈ ps → apart p q) as Hap.
  { intros q Hq. rewrite Forall_forall in Hps. eapply dep_paths_apart; [done|by apply Hps|]. by intros ->. }
  assert (∀ q, apart p q → get_path q (ITable m1) = get_path q (ITable m)) as Hq1.
  { intros q Hq. rewrite Hm1. by apply get_set_path_apart. }
  assert (get_path p (ITable m1) = Some item1) as Hp1 by (rewrite Hm1; apply get_set_path; [done|by eexists]).
  destruct (IH Hnd m1 b1 F1) as (m' & b' & F' & -> & R); [intros q Hq; rewrite Hq1 by auto; apply Hs; by right|done|].
  assert (get_path p (ITable m') = Some item1) as Hp'.
  { rewrite (rw_others _ _ _ _ _ _ _ R); [done|]. intros q Hq. by apply apart_sym, Hap. }
  exists m', b', F'. split; [done|]. split.
  - intros q i [->|Hq]%elem_of_cons Hi'.
    + exists item1. split; [done|]. rewrite Hi in Hi'. simplify_eq. apply Hup. by split.
    + rewrite <- Hq1 in Hi' by auto. destruct (rw_items _ _ _ _ _ _ _ R q i Hq Hi') as (i' & Hi1 & Hu). exists i'. split; [done|].
      destruct Hu as [?|(? & ? & Hm & Hk)]; [by left|]. right. destruct Hsm as [Ha Hb]. split_and!; [done|done| |].
      * intros f Hf. rewrite Hm, Ha by done. done.
      * intros f Hf [?|?]; apply Hk; auto.
  - intros q Hq. rewrite (rw_others _ _ _ _ _ _ _ R) by (intros; apply Hq; by right). apply Hq1, Hq. by left.
  - intros n k. rewrite (rw_found _ _ _ _ _ _ _ R).
    destruct (find_after_set _ _ p item1 m n k Hp ltac:(by eexists) Hn1) as (m0 & E & Hf & _). rewrite <- Hm1 in E. by injection E as <-.
  - intros Hd. apply (rw_distinct _ _ _ _ _ _ _ R).
    destruct (find_after_set _ _ p item1 m "" Build Hp ltac:(by eexists) Hn1) as (m0 & E & _ & H). rewrite <- Hm1 in E. injection E as <-. auto.
  - eapply same_managed_trans; [done|]. apply (rw_managed _ _ _ _ _ _ _ R).
  - intros Hb. destruct (rw_unchanged _ _ _ _ _ _ _ R Hb) as [Hb1 ->]. by apply Hun.
  - intros doc b0 Hdoc. cbn [for_each]. destruct (Hag doc b0) as [b2 ->]; [rewrite Hdoc by (by left); done|]. simpl.
    apply (rw_again _ _ _ _ _ _ _ R). intros q Hq. apply Hdoc. by right.
Qed.

Lemma inject_dependency_spec m b done s :
  distinct_doc (ITable m) → inject_dependency (ITable m, b, done) d = Ok s →
  ∃ m' b' F', s = (ITable m', b', done ++ [F']) ∧ rewritten (find_dependency m (name d) (kind d)) m m' b b' (features d) F'.
Proof.
  intros Hd ([[doc b'] F'] & H & Hs)%bind_ok. injection Hs as <-.
  destruct (inject_items_spec (paths_of d (ITable m)) m b (features d) (doc, b', F')) as (m' & b'' & F'' & [= -> -> ->] & R).
  - apply Forall_forall. intros p Hp. by apply (found_paths m).
  - by apply found_nodup.
  - intros p Hp. by eapply found_paths.
  - done.
  - eauto.
Qed.
End OneDependency.

(** ** Both dependencies *)
Definition tauri_build_dep (config : AppConfig) : DependencyAllowlist :=
  mk_allowlist "tauri-build" Build ["isolation"] (if is_isolation config then {["isolation"]} else ∅).
Definition tauri_dep (config : AppConfig) : DependencyAllowlist :=
  mk_allowlist "tauri" Normal (List.filter not_tray_icon all_features) (list_to_set (AppConfig_features config)).

Definition paths_in (m : Table) (d : DependencyAllowlist) : list (list string) := find_dependency m (name d) (kind d).

Lemma inject_features_spec config m s :
  distinct_doc (ITable m) → inject_features (ITable m) (dependencies_of config) = Ok s →
  ∃ m1 m2 b1 b2 F1 F2, s = (ITable m2, b2, [F1; F2]) ∧
    rewritten (tauri_build_dep config) (paths_in m (tauri_build_dep config)) m m1 false b1 (features (tauri_build_dep config)) F1 ∧
    rewritten (tauri_dep config) (paths_in m (tauri_dep config)) m1 m2 b1 b2 (features (tauri_dep config)) F2.
Proof.
  intros Hd (s1 & H1 & H)%bind_ok. apply bind_ok in H as (s2 & H2 & [= <-]).
  destruct (inject_dependency_spec (tauri_build_dep config) m false [] s1 Hd H1) as (m1 & b1 & F1 & -> & R1).
  destruct (inject_dependency_spec (tauri_dep config) m1 b1 ([] ++ [F1]) s2 (rw_distinct _ _ _ _ _ _ _ _ R1 Hd) H2)
    as (m2 & b2 & F2 & -> & R2).
  rewrite (rw_found _ _ _ _ _ _ _ _ R1) in R2. by exists m1, m2, b1, b2, F1, F2.
Qed.

Lemma rewritten_cases d ps m m' b b' F F' k n q :
  rewritten d ps m m' b b' F F' → Forall (dep_path (kind d) (name d)) ps → dep_path k n q →
  q ∈ ps ∨ get_path q (ITable m') = get_path q (ITable m).
Proof.
  intros R Hps Hq. destruct (decide (q ∈ ps)) as [|Hn]; [by left|]. right. apply (rw_others _ _ _ _ _ _ _ _ R).
  intros p Hp. rewrite Forall_forall in Hps. eapply dep_paths_apart; [by apply Hps|done|]. by intros ->.
Qed.

Lemma paths_in_forall m d : distinct_doc (ITable m) → Forall (dep_path (kind d) (name d)) (paths_in m d).
Proof. intros Hd. apply Forall_forall. intros p Hp. by apply (found_paths m). Qed.

Lemma other_kind_kept d m m' b b' F F' q k n :
  distinct_doc (ITable m) → rewritten d (paths_in m d) m m' b b' F F' → dep_path k n q → k ≠ kind d →
  get_path q (ITable m') = get_path q (ITable m).
Proof.
  intros Hd R Hq Hk. apply (rw_others _ _ _ _ _ _ _ _ R). intros p Hp.
  pose proof (paths_in_forall m d Hd) as H. rewrite Forall_forall in H. eapply dep_paths_apart; [by apply H|done|].
  intros ->. destruct (H q Hp) as [E|[c E]], Hq as [E'|[c' E']]; rewrite E in E'; injection E'; by destruct k, (kind d).
Qed.

(** What the two passes do to the items of a dependency. *)
Lemma inject_features_updates config m m' b Fs d :
  distinct_doc (ITable m) → d = tauri_build_dep config ∨ d = tauri_dep config →
  inject_features (ITable m) (dependencies_of config) = Ok (ITable m', b, Fs) →
  (∀ p item, p ∈ paths_in m d → get_path p (ITable m) = Some item →
     ∃ item', get_path p (ITable m') = Some item' ∧ updated d (features d) item item') ∧
  (∀ q n, dep_path (kind d) n q → q ∉ paths_in m d → get_path q (ITable m') = get_path q (ITable m)).
Proof.
  intros Hd Hor Hinj. destruct (inject_features_spec _ _ _ Hd Hinj) as (m1 & m2 & b1 & b2 & F1 & F2 & [= -> -> ->] & R1 & R2).
  pose proof (rw_distinct _ _ _ _ _ _ _ _ R1 Hd) as Hd1.
  assert (paths_in m (tauri_dep config) = paths_in m1 (tauri_dep config)) as Hp1.
  { symmetry. apply (rw_found _ _ _ _ _ _ _ _ R1). }
  pose proof R2 as R2'. rewrite Hp1 in R2'.
  assert (∀ q n, dep_path Build n q → get_path q (ITable m2) = get_path q (ITable m1)) as HB
    by (intros; by eapply (other_kind_kept (tauri_dep config))).
  assert (∀ q n, dep_path Normal n q → get_path q (ITable m1) = get_path q (ITable m)) as HN
    by (intros; by eapply (other_kind_kept (tauri_build_dep config))).
  destruct Hor as [-> | ->]; (split; [intros p item Hp Hi|intros q n Hq Hn]).
  - destruct (rw_items _ _ _ _ _ _ _ _ R1 p item Hp Hi) as (item' & Hi' & Hu). exists item'. split; [|done].
    rewrite (HB p "tauri-build"); [done|]. by apply (found_paths m).
  - rewrite (HB q n Hq). by destruct (rewritten_cases _ _ _ _ _ _ _ _ _ _ _ R1 (paths_in_forall _ _ Hd) Hq).
  - apply (rw_items _ _ _ _ _ _ _ _ R2 p item Hp). rewrite (HN p "tauri"); [done|]. by apply (found_paths m).
  - rewrite <- (HN q n Hq). rewrite Hp1 in Hn.
    by destruct (rewritten_cases _ _ _ _ _ _ _ _ _ _ _ R2' (paths_in_forall _ _ Hd1) Hq).
Qed.

(** ** What the build script finds *)

(** The table of the dependencies does not come after the one of the targets. *)
Definition direct_first (m : Table) (kind : DependencyKind) : Prop :=
  ∀ l1 t l2, m = l1 ++ ("target", ITable t) :: l2 → table_of kind ∉ l2.*1.

Lemma direct_first_tail e m k : direct_first (e :: m) k → direct_first m k.
Proof. intros H l1 t l2 ->. by apply (H (e :: l1) t). Qed.

Lemma find_none_elem {X} k (t : list (string * X)) : k ∉ t.*1 → find k t = None.
Proof. induction t as [|[j v] t IH]; simpl; [done|]. rewrite not_elem_of_cons. intros [? ?]. rewrite decide_False by done. auto. Qed.

Lemma get_path_head k p v m : v ≠ INone → get_path (k :: p) (ITable ((k, v) :: m)) = get_path p v.
Proof. intros Hv. simpl. unfold table_get. simpl. rewrite decide_True by done. by destruct v. Qed.

Lemma found_complete m n k q :
  NoDup m.*1 → direct_first m k → dep_path k n q → is_Some (get_path q (ITable m)) →
  (q ≠ [table_of k; n] → get_path [table_of k; n] (ITable m) = None) → q ∈ find_dependency m n k.
Proof.
  intros Hnd Hf Hq [item Hi] Hdir. induction m as [|[j v] m IH]; [by destruct Hq as [->|[? ->]]|].
  simpl in Hnd. apply NoDup_cons in Hnd as [Hj Hnd]. apply direct_first_tail in Hf as Hf'.
  assert (table_of k ≠ "target") as Ht by by destruct k.
  assert (∀ x p, x ≠ j → get_path (x :: p) (ITable ((j, v) :: m)) = get_path (x :: p) (ITable m)) as Hne.
  { intros x p Hx. simpl. unfold table_get. simpl. by rewrite decide_False. }
  assert (∀ p y, get_path (j :: p) (ITable ((j, v) :: m)) = Some y → get_path p v = Some y) as Heq.
  { intros p y (w & Hw & Hy)%get_path_table. apply table_get_find in Hw as [Hw _]. simpl in Hw. by rewrite decide_True in Hw by done; simplify_eq. }
  assert (j ≠ table_of k → j ≠ "target" → q ∈ find_dependency m n k) as Hskip.
  { intros H1 H2. apply IH; [done|done| |].
    - destruct Hq as [->|[cfg ->]]; unfold target_path in *; by rewrite Hne in Hi.
    - intros Hq'. rewrite <- Hdir by done. symmetry. by apply Hne. }
  destruct (decide (j = table_of k)) as [->|Hjt].
  - assert (get_path [table_of k; n] (ITable m) = None) as Hmn.
    { simpl. unfold table_get. by rewrite find_none_elem. }
    destruct Hq as [->|[cfg ->]].
    + apply Heq in Hi. destruct v as [| |t|]; try done. apply get_path_table in Hi as (i & Hi & _). simpl.
      rewrite decide_True, Hi by done. by left.
    + assert (target_path (table_of k) n cfg ∈ find_dependency m n k) as Hrest.
      { apply IH; [done|done| |done]. unfold target_path in *. by rewrite Hne in Hi. }
      destruct v as [| |t|]; try done. simpl. rewrite decide_True by done. destruct (table_get n t) as [i|] eqn:E; [|done].
      specialize (Hdir ltac:(by destruct k)). rewrite get_path_head in Hdir by done. simpl in Hdir. by rewrite E in Hdir.
  - destruct (decide (j = "target")) as [->|Hjg]; [|destruct v; simpl; try rewrite !decide_False by done; by apply Hskip].
    destruct Hq as [->|[cfg ->]].
    + rewrite Hne in Hi by done. destruct v as [| |t|]; simpl; try (apply IH; [done|done|by left|by rewrite Hne in Hdir]).
      all: try (apply IH; eauto; done).
      destruct (Hf [] t m eq_refl). apply get_path_table in Hi as (i & Hi & _). apply table_get_find in Hi as [Hi _].
      apply find_elem in Hi; [|done]. apply list_elem_of_fmap. by exists (table_of k, i).
    + apply Heq in Hi. destruct v as [| |t|]; try done. cbn [find_dependency as_table]. rewrite decide_False, decide_True by done.
      apply get_path_table in Hi as (tv & Htv & Hi). apply matching_deps_elem. exists cfg, tv.
      split_and!; [|by eexists|done]. apply table_get_find in Htv as [Htv _]. clear -Htv.
      induction t as [|[c w] t IH]; simpl in *; [done|]. case_decide; simplify_eq; [by left|]. right. auto.
Qed.

(** ** The check of the build script *)
Definition direct (c : CargoToml) (kind : DependencyKind) : gmap string Dependency :=
  match kind with Build => build_dependencies c | Normal => dependencies c end.

(** A manifest that Cargo reads from a document that writes its tables of
    dependencies as tables: the dependencies are those of the document, with the
    same features. *)
Definition reads_item (item : Item) (dep : Dependency) : Prop :=
  dependency_item item ∧ dep_features dep = item_features item.
Definition reads_kind (m : Table) (c : CargoToml) (kind : DependencyKind) : Prop :=
  (∀ n, match direct c kind !! n with
        | Some dep => ∃ item, get_path [table_of kind; n] (ITable m) = Some item ∧ reads_item item dep
        | None => get_path [table_of kind; n] (ITable m) = None
        end) ∧
  (∀ cfg t n dep, target c !! cfg = Some t → (take_dependency kind n t).1 = Some dep →
     ∃ item, get_path (target_path (table_of kind) n cfg) (ITable m) = Some item ∧ reads_item item dep).
Definition reads (m : Table) (c : CargoToml) : Prop := ∀ kind, reads_kind m c kind.

Lemma filter_nil {A} (f : A → bool) l : (∀ x, x ∈ l → f x = false) → List.filter f l = [].
Proof. induction l as [|x l IH]; intros H; simpl; [done|]. rewrite H by by left. apply IH. intros y Hy. apply H. by right. Qed.

Lemma check_features_ok dep md managed :
  managed_features md = Some managed → (∀ f, f ∈ managed → f ∈ dep_features dep ↔ f ∈ expected_features md) →
  (∀ f, f ∈ expected_features md → f ∈ managed) → check_features dep md = Ok ().
Proof.
  intros Hm He Hs. unfold check_features. rewrite Hm. unfold features_diff. cbn [diff_remove diff_add].
  set (considered := List.filter _ (dep_features dep)).
  assert (∀ f, f ∈ considered ↔ f ∈ dep_features dep ∧ f ∈ managed) as Hc.
  { intros f. unfold considered. rewrite list_elem_of_In, List.filter_In, <- list_elem_of_In. by rewrite bool_decide_eq_true. }
  rewrite !filter_nil; [done|..]; intros f Hf; apply negb_false_iff, bool_decide_eq_true.
  - apply Hc. split; [|by apply Hs]. apply He; [by apply Hs|done].
  - apply Hc in Hf as [H1 H2]. by apply He.
Qed.

Lemma for_each_same {E A S} (f : S → A → outcome E S) l s :
  (∀ x, x ∈ l → f s x = Ok s) → for_each f l s = Ok s.
Proof.
  induction l as [|x l IH]; intros H; [done|]. simpl. rewrite H by by left. simpl. apply IH. intros y Hy. apply H. by right.
Qed.

(** The dependencies that are found are the ones the command line wrote. *)
Lemma removed_reads m c n kind dep :
  reads_kind m c kind → dep ∈ (remove_dependency c n kind).1 →
  ∃ q item, dep_path kind n q ∧ get_path q (ITable m) = Some item ∧ reads_item item dep ∧
    (q ≠ [table_of kind; n] → get_path [table_of kind; n] (ITable m) = None).
Proof.
  intros [Hd Ht]. unfold remove_dependency. fold (direct c kind). specialize (Hd n).
  destruct (direct c kind !! n) as [dep'|]; simpl.
  - intros ->%list_elem_of_singleton. destruct Hd as (item & Hi & Hr). exists [table_of kind; n], item. split_and!; [by left|done..].
  - intros (t & Ht' & Hdep)%list_elem_of_omap. apply elem_of_btree_values in Ht' as [cfg Hcfg].
    destruct (Ht cfg t n dep Hcfg Hdep) as (item & Hi & Hr). exists (target_path (table_of kind) n cfg), item.
    split_and!; [by right; exists cfg|done..].
Qed.

Lemma removed_other m c n kind kind' :
  kind ≠ kind' → reads_kind m c kind' → reads_kind m (remove_dependency c n kind).2 kind'.
Proof.
  intros Hk [Hd Ht]. unfold remove_dependency.
  destruct (match kind with Build => build_dependencies c | Normal => dependencies c end !! n) as [dep|];
    split; destruct kind, kind'; try done; simpl.
  all: intros cfg t n' dep; rewrite lookup_fmap; intros (t' & Ht' & ->)%fmap_Some; simpl; intros; by eapply (Ht cfg t').
Qed.

Lemma check_dependency_ok m c md :
  alias md = None → reads_kind m c (dep_kind md) →
  (∀ q item dep, dep_path (dep_kind md) (dep_name md) q → get_path q (ITable m) = Some item → reads_item item dep →
     (q ≠ [table_of (dep_kind md); dep_name md] → get_path [table_of (dep_kind md); dep_name md] (ITable m) = None) →
     check_features dep md = Ok ()) →
  check_dependency c md = Ok (remove_dependency c (dep_name md) (dep_kind md)).2.
Proof.
  intros Ha Hr H. unfold check_dependency. rewrite Ha.
  pose proof (removed_reads m c (dep_name md) (dep_kind md)) as Hrm.
  destruct (remove_dependency c (dep_name md) (dep_kind md)) as [deps c']. simpl in *.
  replace (match deps with [] | _ => _ end) with (dep_name md, deps, c') by by destruct deps.
  apply for_each_same. intros dep Hdep. destruct (Hrm dep Hr Hdep) as (q & item & Hq & Hi & Hri & Hd).
  by rewrite (H q item dep).
Qed.

(** No dependency takes its features from the workspace. *)
Definition none_inherited (m : Table) : Prop :=
  ∀ k n q item, (k, n) ∈ [(Build, "tauri-build"); (Normal, "tauri")] → dep_path k n q →
    get_path q (ITable m) = Some item → is_inherited item = false.

Lemma app_features_elem config f : f ∈ AppConfig_features config → f ∈ all_features.
Proof.
  unfold AppConfig_features. rewrite merge_sort_Permutation. unfold all_features.
  destruct (tray_icon config), (macos_private_api config), (asset_protocol_enable config), (is_isolation config); set_solver.
Qed.

Lemma filter_in {A} (f : A → bool) l x : x ∈ List.filter f l ↔ x ∈ l ∧ f x = true.
Proof. by rewrite list_elem_of_In, List.filter_In, <- list_elem_of_In. Qed.

(** The items of a dependency have the managed features of the configuration. *)
Lemma managed_features_written config m m' b Fs d q item' :
  distinct_doc (ITable m) → (∀ k, direct_first m k) → none_inherited m →
  d = tauri_build_dep config ∨ d = tauri_dep config →
  inject_features (ITable m) (dependencies_of config) = Ok (ITable m', b, Fs) →
  dep_path (kind d) (name d) q → get_path q (ITable m') = Some item' → dependency_item item' →
  (q ≠ [table_of (kind d); name d] → get_path [table_of (kind d); name d] (ITable m') = None) →
  ∀ f, f ∈ all_cli_managed_features d → f ∈ item_features item' ↔ f ∈ features d.
Proof.
  intros Hd Hfirst Hni Hor Hinj Hq Hi' Hdi Hdir f Hf.
  destruct (inject_features_updates _ _ _ _ _ _ Hd Hor Hinj) as [Hup Hsame].
  pose proof Hd as (? & [= <-] & Hnd & _).
  assert (∀ p, dep_path (kind d) (name d) p → is_Some (get_path p (ITable m')) ↔ is_Some (get_path p (ITable m))) as Hiff.
  { intros p Hp. destruct (decide (p ∈ paths_in m d)) as [Hin|Hn]; [|by rewrite (Hsame p (name d))].
    destruct (found_paths m _ _ p Hd Hin) as [_ [item Hitem]]. destruct (Hup p item Hin Hitem) as (item1 & H1 & _).
    rewrite H1, Hitem. split; by eexists. }
  assert (q ∈ paths_in m d) as Hin.
  { apply found_complete; [done|done|done|apply Hiff; [done|by eexists]|]. intros Hne. apply eq_None_not_Some.
    rewrite <- Hiff by by left. rewrite Hdir by done. by intros [? ?]. }
  destruct (found_paths m _ _ q Hd Hin) as [_ [item Hitem]]. destruct (Hup q item Hin Hitem) as (item1 & H1 & Hu).
  rewrite Hi' in H1. simplify_eq.
  assert (is_inherited item = false) as Hin'.
  { eapply (Hni (kind d) (name d) q); [|done|done]. destruct Hor as [-> | ->]; [by left|by right; left]. }
  destruct Hu as [[[?|?] ?]|(_ & _ & Hm & _)]; [congruence|by subst|auto].
Qed.

Lemma rewritten_accepted config m m' b Fs c :
  distinct_doc (ITable m) → (∀ k, direct_first m k) → none_inherited m →
  inject_features (ITable m) (dependencies_of config) = Ok (ITable m', b, Fs) → reads m' c → check config c = Ok ().
Proof.
  intros Hd Hf Hn Hinj Hr.
  assert (∀ d md c', d = tauri_build_dep config ∨ d = tauri_dep config → alias md = None →
    dep_name md = name d → dep_kind md = kind d → managed_features md = Some (all_cli_managed_features d) →
    (∀ f, f ∈ all_cli_managed_features d → f ∈ features d ↔ f ∈ expected_features md) →
    (∀ f, f ∈ expected_features md → f ∈ all_cli_managed_features d) → reads_kind m' c' (kind d) →
    check_dependency c' md = Ok (remove_dependency c' (dep_name md) (dep_kind md)).2) as Hone.
  { intros d md c' Hor Ha H1 H2 H3 H4 H5 Hrk. apply (check_dependency_ok m'); [done|by rewrite H2|].
    rewrite H1, H2. intros q item dep Hq Hi [Hdi Hfe] Hdir. eapply check_features_ok; [done| |done].
    intros f Hin. rewrite Hfe, <- H4 by done. eapply managed_features_written; eauto. }
  unfold check, allowlisted. cbn [for_each].
  rewrite (Hone (tauri_build_dep config)); [|by left|done..| | |apply Hr]; cycle 1.
  { intros f Hin. simpl. destruct (is_isolation config); set_solver. }
  { intros f. simpl. destruct (is_isolation config); set_solver. }
  cbn [mbind outcome_bind]. rewrite (Hone (tauri_dep config)); [done|by right|done..| | |apply removed_other; [done|apply Hr]].
  - intros f [_ Ht]%filter_in. cbn [features tauri_dep expected_features].
    rewrite elem_of_list_to_set, filter_in. naive_solver.
  - intros f [Hin Ht]%filter_in. apply filter_in. split; [by eapply app_features_elem|done].
Qed.

(** C21. What the command line writes is what the build script accepts: after the
    manifest was rewritten, the check of [tauri-build] passes on the manifest
    that Cargo reads from the file, when no table has a key twice, the tables of
    dependencies come before those of targets ([target_table_hides_dependency]
    shows one that does not) and no features come from the workspace. *)
Theorem rewritten_manifest_accepted (from_path : string → option CargoToml) config text m manifest changed file cargo :
  document_from_str text = Some m → distinct_doc (ITable m) → (∀ k, direct_first m k) → none_inherited m →
  rewrite_manifest config (Some text) = (Ok (manifest, changed), Some file) →
  (∀ c, from_path text = Some c → reads m c) →
  (∀ c, from_path (serialize_manifest (inner manifest)) = Some c → reads (inner manifest) c) →
  from_path file = Some cargo → check config cargo = Ok ().
Proof.
  intros Hm Hd Hf Hn Hrw Hr1 Hr2 Hc. unfold rewrite_manifest, read_manifest in Hrw. simpl in Hrw. rewrite Hm in Hrw. simpl in Hrw.
  destruct (inject_features (ITable m) (dependencies_of config)) as [s|e|msg|] eqn:Hinj; [|done..].
  destruct (inject_features_spec _ _ _ Hd Hinj) as (m1 & m2 & b1 & b2 & F1 & F2 & -> & R1 & R2). simpl in Hrw.
  assert (inner manifest = m2 ∧ (file = serialize_manifest m2 ∨ (b2 = false ∧ file = text))) as [Hin Hfile].
  { destruct b2; simpl in Hrw; [|by simplify_eq; auto]. case_bool_decide; simpl in Hrw; [by simplify_eq; auto|].
    pose proof (write_manifest_done (serialize_manifest m2) text) as Hw.
    destruct (write_manifest (serialize_manifest m2) text) as [[] t]; simplify_eq/=. rewrite Hw by done. auto. }
  apply (rewritten_accepted config m m2 b2 [F1; F2]); try done. subst m2. destruct Hfile as [->|[-> ->]]; [by apply Hr2|].
  destruct (rw_unchanged _ _ _ _ _ _ _ _ R2 eq_refl) as [-> H2]. destruct (rw_unchanged _ _ _ _ _ _ _ _ R1 eq_refl) as [_ H1].
  rewrite H2, H1. by apply Hr1.
Qed.

(** Writing the features again changes nothing. *)
Theorem inject_features_idempotent config m m' b Fs :
  distinct_doc (ITable m) → inject_features (ITable m) (dependencies_of config) = Ok (ITable m', b, Fs) →
  ∃ b', inject_features (ITable m') (dependencies_of config) = Ok (ITable m', b', Fs).
Proof.
  intros Hd Hinj. destruct (inject_features_spec _ _ _ Hd Hinj) as (m1 & m2 & b1 & b2 & F1 & F2 & [= -> -> ->] & R1 & R2).
  assert (∀ n k, find_dependency m2 n k = find_dependency m n k) as Hfd.
  { intros n k. by rewrite (rw_found _ _ _ _ _ _ _ _ R2), (rw_found _ _ _ _ _ _ _ _ R1). }
  destruct (rw_again _ _ _ _ _ _ _ _ R1 (ITable m2) false) as [b3 H1].
  { intros p Hp. eapply (other_kind_kept (tauri_dep config)); [by apply (rw_distinct _ _ _ _ _ _ _ _ R1)| |by apply (found_paths m)|done].
    unfold paths_in. by rewrite (rw_found _ _ _ _ _ _ _ _ R1). }
  destruct (rw_again _ _ _ _ _ _ _ _ R2 (ITable m2) b3) as [b4 H2]; [done|].
  exists b4. unfold inject_features, dependencies_of. cbn [for_each]. fold (tauri_build_dep config) (tauri_dep config).
  unfold inject_dependency, paths_of. cbn [as_table from_option Datatypes.id]. rewrite !Hfd. unfold paths_in in H1, H2.
  rewrite H1. cbn [mbind outcome_bind]. cbv beta iota. cbn [as_table from_option Datatypes.id]. rewrite Hfd, H2. done.
Qed.

(** The features that the command line does not manage stay, and so does
    everything that is not one of the two dependencies. *)
Theorem other_features_kept config m m' b Fs :
  distinct_doc (ITable m) → inject_features (ITable m) (dependencies_of config) = Ok (ITable m', b, Fs) →
  (∀ d p item, d ∈ dependencies_of config → p ∈ paths_in m d → get_path p (ITable m) = Some item →
     ∃ item', get_path p (ITable m') = Some item' ∧
       ∀ f, f ∉ all_cli_managed_features d → f ∈ item_features item → f ∈ item_features item') ∧
  (∀ q, (∀ d p, d ∈ dependencies_of config → p ∈ paths_in m d → apart p q) →
     get_path q (ITable m') = get_path q (ITable m)).
Proof.
  intros Hd Hinj. split.
  - intros d p item Hin Hp Hi.
    destruct (inject_features_updates config m m' b Fs d Hd) as [H _]; [set_solver|done|].
    destruct (H p item Hp Hi) as (item' & Hi' & Hu). exists item'. split; [done|]. intros f Hf Hfi.
    destruct Hu as [[_ ->]|(_ & _ & _ & Hk)]; [done|auto].
  - intros q Hq. destruct (inject_features_spec _ _ _ Hd Hinj) as (m1 & m2 & b1 & b2 & F1 & F2 & [= -> -> ->] & R1 & R2).
    rewrite (rw_others _ _ _ _ _ _ _ _ R2), (rw_others _ _ _ _ _ _ _ _ R1); [done|..]; intros p Hp; eapply Hq; try done;
      [by left|by right; left].
Qed.

(** ** Features that are enabled *)

(** The features at the end of the references, which other crates have. *)
Inductive enables (l : gmap string (list string)) : string → string → Prop :=
| enables_end f es e : l !! f = Some es → e ∈ es → l !! e = None → enables l f e
| enables_via f es g e : l !! f = Some es → g ∈ es → enables l g e → enables l f e.

Lemma for_each_append {A} (f : A → outcome ManifestError (list string)) (P : A → string → Prop) l acc :
  (∀ x, x ∈ l → ∃ r, f x = Ok r ∧ ∀ e, e ∈ r ↔ P x e) →
  ∃ r, for_each (λ acc x, r ← f x; Ok (acc ++ r)) l acc = Ok r ∧ ∀ e, e ∈ r ↔ e ∈ acc ∨ ∃ x, x ∈ l ∧ P x e.
Proof.
  revert acc. induction l as [|x l IH]; intros acc H; [exists acc; set_solver|]. destruct (H x ltac:(by left)) as (r & Hr & HP).
  destruct (IH (acc ++ r)) as (r' & Hr' & H'); [intros y Hy; apply H; by right|]. exists r'. split; [cbn [for_each]; by rewrite Hr|].
  intros e. rewrite H', elem_of_app, HP. setoid_rewrite elem_of_cons. naive_solver.
Qed.

Lemma for_each_ext {E A S} (f g : S → A → outcome E S) l s : (∀ s x, x ∈ l → f s x = g s x) → for_each f l s = for_each g l s.
Proof.
  revert s. induction l as [|x l IH]; intros s H; simpl; [done|]. rewrite H by by left. destruct (g s x); simpl; try done.
  apply IH. intros. apply H. by right.
Qed.

(** When the features of the manifest do not refer to each other in a circle,
    the search ends with exactly the features that are reached. *)
Theorem enabled_features_reached l (rank : string → nat) fuel f :
  (∀ f es g, l !! f = Some es → g ∈ es → is_Some (l !! g) → rank g < rank f) → rank f < fuel →
  ∃ r, get_enabled_features fuel l f = Ok r ∧ ∀ e, e ∈ r ↔ enables l f e.
Proof.
  intros Hr. revert f. induction fuel as [|fuel IH]; intros f Hf; [lia|]. cbn [get_enabled_features].
  destruct (l !! f) as [es|] eqn:Hl; cycle 1.
  { exists []. split; [done|]. intros e. split; [by intros ?%elem_of_nil|]. inversion 1; congruence. }
  destruct (for_each_append (λ g, match l !! g with Some _ => get_enabled_features fuel l g | None => Ok [g] end)
              (λ g e, match l !! g with Some _ => enables l g e | None => e = g end) es []) as (r & Hfe & He).
  { intros g Hg. destruct (l !! g) as [es'|] eqn:Hlg.
    - apply IH. specialize (Hr f es g Hl Hg ltac:(by eexists)). lia.
    - exists [g]. split; [done|]. set_solver. }
  exists r. split.
  - rewrite <- Hfe. apply for_each_ext. intros s g _. by destruct (l !! g).
  - intros e. rewrite He. split.
    + intros [?%elem_of_nil|(g & Hg & H)]; [done|]. destruct (l !! g) eqn:Hlg; [by eapply enables_via|subst; by eapply enables_end].
    + right. inversion H as [? es' ? H1 H2 H3|? es' g ? H1 H2 H3]; simplify_eq.
      * exists e. by rewrite H3.
      * exists g. split; [done|]. inversion H3 as [? ? ? E|? ? ? ? E]; by rewrite E.
Qed.

(** ** Limits *)
Definition isolated : AppConfig := mk_app_config false false false (Isolation "dist").

(** A feature that enables itself is searched without end. *)
Theorem circular_feature_diverges fuel : get_enabled_features fuel {["a" := ["a"]]} "a" = Diverge.
Proof.
  assert (({["a" := ["a"]]} : gmap string (list string)) !! "a" = Some ["a"]) as E by reflexivity.
  induction fuel as [|fuel IH]; [done|]. cbn [get_enabled_features]. rewrite E. cbn [for_each]. by rewrite E, IH.
Qed.

(** A table of targets before the one of dependencies hides the dependency: its
    features are not written, and the build script refuses the manifest and asks
    to run the command that was just run. *)
Theorem target_table_hides_dependency :
  let m := [("target", ITable [("cfg(unix)", ITable [("dependencies", ITable [("libc", IValue (VString "1" "1"))])])]);
            ("dependencies", ITable [("tauri", IValue (VString "2" "2"))])] in
  let c := mk_cargo_toml {["tauri" := Simple "2"]} ∅
             {["cfg(unix)" := mk_target {["libc" := Simple "1"]} ∅]} in
  ∃ Fs, inject_features (ITable m) (dependencies_of isolated) = Ok (ITable m, false, Fs) ∧
    check isolated c = Err (check_error "tauri" "add the `isolation` feature").
Proof. eexists. split; [reflexivity|]. vm_compute. reflexivity. Qed.

(** A version in single quotes keeps them. *)
Theorem literal_version_quoted managed F :
  ∃ t, write_features "tauri" (IValue (VString "'2'" "2")) managed F = Ok (IValue (VInlineTable t), true, F) ∧
    find "version" t = Some (string_value "'2'").
Proof. eexists. split; reflexivity. Qed.

(** The formatting of the text also changes the strings of the manifest. *)
Theorem formatting_changes_strings m :
  document_to_string m = "description = " +:+ quote +:+ "a={b}" +:+ quote →
  serialize_manifest m = "description = " +:+ quote +:+ "a= {b}" +:+ quote.
Proof. intros H. unfold serialize_manifest. rewrite H. reflexivity. Qed.

End Proofs.

(** ** Examples *)
Definition ex_string (v : string) : Value := VString v v.
Definition ex_doc : Table :=
  [("dependencies", ITable [("tauri", IValue (VInlineTable [("version", ex_string "2"); ("features", VArray [ex_string "test"])]))]);
   ("build-dependencies", ITable [("tauri-build", IValue (ex_string "2"))])].

Program Definition ex_lib : ManifestLib := {|
  string_text s := s;
  document_from_str _ := Some ex_doc;
  document_to_string _ := "new";
  write_manifest text _ := (true, text);
  hash_order := elements;
|}.
Solve Obligations with done.

Definition ex_cargo : CargoToml :=
  mk_cargo_toml {["tauri" := Detailed ["isolation"; "test"]]} {["tauri-build" := Detailed ["isolation"]]} ∅.
Definition ex_written : Table :=
  [("dependencies", ITable [("tauri", IValue (VInlineTable [("version", ex_string "2");
      ("features", VArray [ex_string "isolation"; ex_string "test"])]))]);
   ("build-dependencies", ITable [("tauri-build", IValue (VInlineTable [("version", ex_string "2");
      ("features", VArray [ex_string "isolation"])]))])].

Lemma ex_doc_distinct : distinct_doc (ITable ex_doc).
Proof.
  exists ex_doc. split; [done|]. split; [refine (bool_decide_unpack _ _); vm_compute; exact I|]. intros t. vm_compute. discriminate.
Qed.

Lemma ex_doc_direct_first k : direct_first ex_doc k.
Proof.
  intros l1 t l2 E. assert (("target", ITable t) ∈ ex_doc) as H by (rewrite E; set_solver). unfold ex_doc in H. set_solver.
Qed.

Lemma ex_doc_none_inherited : none_inherited ex_doc.
Proof.
  intros k n q item Hin Hq Hi. apply elem_of_cons in Hin as [[= -> ->]|Hin]; [|apply list_elem_of_singleton in Hin as [= -> ->]];
    (destruct Hq as [->|[cfg ->]]; [|discriminate Hi]); vm_compute in Hi; injection Hi as <-; reflexivity.
Qed.

Lemma ex_reads : reads ex_written ex_cargo.
Proof.
  intros k. split; [|intros cfg t n dep H; vm_compute in H; discriminate].
  intros n. destruct k.
  - destruct (decide (n = "tauri-build")) as [->|Hn]; [eexists; split; [reflexivity|by split]|].
    unfold direct, ex_cargo, build_dependencies. rewrite lookup_singleton_ne by done.
    simpl. unfold table_get. simpl. by rewrite decide_False.
  - destruct (decide (n = "tauri")) as [->|Hn]; [eexists; split; [reflexivity|by split]|].
    unfold direct, ex_cargo, dependencies. rewrite lookup_singleton_ne by done.
    simpl. unfold table_get. simpl. by rewrite decide_False.
Qed.

Definition ex_from_path (text : string) : option CargoToml := if decide (text = "new") then Some ex_cargo else None.

Lemma rewritten_manifest_accepted_witness :
  rewrite_manifest (ML := ex_lib) isolated (Some "old") =
    (Ok (mk_manifest ex_written {["isolation"; "test"]}, true), Some "new") ∧
  check isolated ex_cargo = Ok ().
Proof.
  assert (rewrite_manifest (ML := ex_lib) isolated (Some "old") =
    (Ok (mk_manifest ex_written {["isolation"; "test"]}, true), Some "new")) as H by (vm_compute; reflexivity).
  split; [exact H|]. apply (rewritten_manifest_accepted (ML := ex_lib) ex_from_path isolated "old" ex_doc
    (mk_manifest ex_written {["isolation"; "test"]}) true "new").
  - reflexivity.
  - exact ex_doc_distinct.
  - exact ex_doc_direct_first.
  - exact ex_doc_none_inherited.
  - exact H.
  - intros c Hc. vm_compute in Hc. discriminate.
  - intros c Hc. assert (Some ex_cargo = Some c) as [= <-] by exact Hc. exact ex_reads.
  - reflexivity.
Defined.

Lemma inject_features_idempotent_witness :
  ∃ b, inject_features (ML := ex_lib) (ITable ex_written) (dependencies_of isolated) =
    Ok (ITable ex_written, b, [{["isolation"]}; {["isolation"; "test"]}]).
Proof.
  apply (inject_features_idempotent (ML := ex_lib) isolated ex_doc ex_written true); [exact ex_doc_distinct|].
  vm_compute. reflexivity.
Defined.

(** The features of a dependency for one target are also written for the next. *)
Theorem target_features_spread :
  let dep f := ITable [("dependencies", ITable [("tauri", IValue (VInlineTable [("features", VArray f)]))])] in
  let m := [("target", ITable [("cfg(unix)", dep [ex_string "x11"]); ("cfg(windows)", dep [])])] in
  ∃ m' b Fs, inject_features (ML := ex_lib) (ITable m) (dependencies_of isolated) = Ok (ITable m', b, Fs) ∧
    item_features <$> get_path (target_path "dependencies" "tauri" "cfg(windows)") (ITable m') = Some ["x11"; "isolation"].
Proof. eexists _, _, _. split; vm_compute; reflexivity. Qed.

End CargoManifest.
