(* ===== verification/CorePlugins.v ===== *)
(** * The core plugins

    Models the tables of the plugins that the core library has itself: the
    commands for which [tauri/build.rs] generates permissions, the permission
    files that it writes, and the commands that the plugins of
    [tauri/Source/*/plugin.rs] handle and [App::register_core_plugins]
    registers. *)
From Stdlib Require Import Ascii.
From S2P Require Import Prelude Identifier Acl Resolved Paths ConfigFiles BuildSupport TauriBuild Ipc.
Import Identifier Acl.

Module CorePlugins.
Import Paths ConfigFiles AclBuild TauriBuild.

(** ** Commands with permissions

    A command and whether the default permission of its plugin allows it. *)
Definition path_permissions : list (string * bool) :=
  [
    ("resolve_directory", true); ("resolve", true); ("normalize", true); ("join", true); ("dirname", true);
    ("extname", true); ("basename", true); ("is_absolute", true)
  ].

Definition event_permissions : list (string * bool) :=
  [
    ("listen", true); ("unlisten", true); ("emit", true); ("emit_to", true)
  ].

Definition window_permissions : list (string * bool) :=
  [
    ("create", false); ("get_all_windows", true); ("scale_factor", true); ("inner_position", true);
    ("outer_position", true); ("inner_size", true); ("outer_size", true); ("is_fullscreen", true);
    ("is_minimized", true); ("is_maximized", true); ("is_focused", true); ("is_decorated", true);
    ("is_resizable", true); ("is_maximizable", true); ("is_minimizable", true); ("is_closable", true);
    ("is_visible", true); ("is_enabled", true); ("title", true); ("current_monitor", true);
    ("primary_monitor", true); ("monitor_from_point", true); ("available_monitors", true);
    ("cursor_position", true); ("theme", true); ("center", false); ("request_user_attention", false);
    ("set_enabled", false); ("set_resizable", false); ("set_maximizable", false); ("set_minimizable", false);
    ("set_closable", false); ("set_title", false); ("maximize", false); ("unmaximize", false); ("minimize", false);
    ("unminimize", false); ("show", false); ("hide", false); ("close", false); ("destroy", false);
    ("set_decorations", false); ("set_shadow", false); ("set_effects", false); ("set_always_on_top", false);
    ("set_always_on_bottom", false); ("set_visible_on_all_workspaces", false); ("set_content_protected", false);
    ("set_size", false); ("set_min_size", false); ("set_size_constraints", false); ("set_max_size", false);
    ("set_position", false); ("set_fullscreen", false); ("set_focus", false); ("set_skip_taskbar", false);
    ("set_cursor_grab", false); ("set_cursor_visible", false); ("set_cursor_icon", false);
    ("set_cursor_position", false); ("set_ignore_cursor_events", false); ("start_dragging", false);
    ("start_resize_dragging", false); ("set_progress_bar", false); ("set_badge_count", false);
    ("set_overlay_icon", false); ("set_badge_label", false); ("set_icon", false); ("set_title_bar_style", false);
    ("set_theme", false); ("toggle_maximize", false); ("set_background_color", false);
    ("internal_toggle_maximize", true)
  ].

Definition webview_permissions : list (string * bool) :=
  [
    ("create_webview", false); ("create_webview_window", false); ("get_all_webviews", true);
    ("webview_position", true); ("webview_size", true); ("webview_close", false); ("set_webview_size", false);
    ("set_webview_position", false); ("set_webview_focus", false); ("set_webview_zoom", false);
    ("webview_hide", false); ("webview_show", false); ("print", false); ("reparent", false);
    ("clear_all_browsing_data", false); ("set_webview_background_color", false); ("internal_toggle_devtools", true)
  ].

Definition app_permissions : list (string * bool) :=
  [
    ("version", true); ("name", true); ("tauri_version", true); ("app_show", false); ("app_hide", false);
    ("default_window_icon", false); ("set_app_theme", false)
  ].

Definition image_permissions : list (string * bool) :=
  [
    ("new", true); ("from_bytes", true); ("from_path", true); ("rgba", true); ("size", true)
  ].

Definition resources_permissions : list (string * bool) :=
  [
    ("close", true)
  ].

Definition menu_permissions : list (string * bool) :=
  [
    ("new", true); ("append", true); ("prepend", true); ("insert", true); ("remove", true); ("remove_at", true);
    ("items", true); ("get", true); ("popup", true); ("create_default", true); ("set_as_app_menu", true);
    ("set_as_window_menu", true); ("text", true); ("set_text", true); ("is_enabled", true); ("set_enabled", true);
    ("set_accelerator", true); ("set_as_windows_menu_for_nsapp", true); ("set_as_help_menu_for_nsapp", true);
    ("is_checked", true); ("set_checked", true); ("set_icon", true)
  ].

Definition tray_permissions : list (string * bool) :=
  [
    ("new", true); ("get_by_id", true); ("remove_by_id", true); ("set_icon", true); ("set_menu", true);
    ("set_tooltip", true); ("set_title", true); ("set_visible", true); ("set_temp_dir_path", true);
    ("set_icon_as_template", true); ("set_show_menu_on_left_click", true)
  ].

Definition PLUGINS : list (string * list (string * bool)) :=
  [("core:path", path_permissions);
   ("core:event", event_permissions);
   ("core:window", window_permissions);
   ("core:webview", webview_permissions);
   ("core:app", app_permissions);
   ("core:image", image_permissions);
   ("core:resources", resources_permissions);
   ("core:menu", menu_permissions);
   ("core:tray", tray_permissions)].

(** ** Permission files *)
Definition LICENSE_HEADER : string :=
  "# Copyright 2019-2024 Tauri Programme within The Commons Conservancy" +:+ nl +:+
  "# SPDX-License-Identifier: Apache-2.0" +:+ nl +:+
  "# SPDX-License-Identifier: MIT" +:+ nl.

Definition AUTOGENERATED_FOLDER_NAME : string := "autogenerated".

(** The text of the default permission of a plugin. *)
Definition plugin_default_toml (commands : list (string * bool)) : string :=
  let default_permissions :=
    join ", " ((λ c, dq +:+ "allow-" +:+ slugify c.1 +:+ dq) <$> List.filter snd commands) in
  LICENSE_HEADER +:+ "# Automatically generated - DO NOT EDIT!" +:+ nl +:+ nl +:+
  "[default]" +:+ nl +:+
  "description = " +:+ dq +:+ "Default permissions for the plugin." +:+ dq +:+ nl +:+
  "permissions = [" +:+ default_permissions +:+ "]" +:+ nl.

Section BuildScript.
Context {BE : BuildEnv}.

(** [unwrap_or_else(|e| panic!(..))] and [expect(..)]. *)
Definition or_panic {A} (o : outcome BuildError A) (msg : string) : outcome BuildError A :=
  match o with Err _ => Panic msg | _ => o end.

Definition permissions_dir (out_dir : PathBuf) (plugin : string) : PathBuf :=
  join_name (join_name out_dir "permissions") (default plugin (strip_prefix "core:" plugin)).

(** One round of the loop. The text of the default permission and its path are
    made, and not used. *)
Definition define_plugin_permissions (out_dir : PathBuf) (b : Build) (entry : string * list (string * bool))
    : outcome BuildError Build :=
  let '(plugin, commands) := entry in
  let plugin_directory_name := default plugin (strip_prefix "core:" plugin) in
  let permissions_out_dir := permissions_dir out_dir plugin in
  let autogenerated := join_name permissions_out_dir AUTOGENERATED_FOLDER_NAME in
  let commands_dir := join_name autogenerated "commands" in
  '(_, ws) ← lift_error no_error
    (autogenerate_command_permissions (BL := lib_at (files b)) commands_dir commands.*1 LICENSE_HEADER false);
  let b := written ws b in
  let _default_toml := plugin_default_toml commands in
  let _out_path := join_name autogenerated "default.toml" in
  let panic := "failed to define permissions for " +:+ plugin in
  '(_, b) ← or_panic
    (define_permissions_in
       (join_pattern (join_pattern (pattern_escape (to_string_lossy permissions_out_dir)) "**") "*.toml")
       ("tauri:" +:+ plugin) out_dir everything b) panic;
  '(permissions, b) ← or_panic
    (define_permissions_in (join_pattern (join_pattern (to_string_lossy permissions_out_dir) "**") "*.toml")
       ("tauri:" +:+ plugin) out_dir everything b) panic;
  let docs_out_dir := [Normal "permissions"; Normal plugin_directory_name; Normal "autogenerated"] in
  _ ← or_panic (ensure_dir docs_out_dir) "failed to create plugin documentation directory";
  ws ← or_panic (lift_error AclError
    (generate_docs (BL := lib_at (files b)) permissions docs_out_dir (default plugin (strip_prefix "tauri-plugin-" plugin))))
    "failed to generate plugin documentation page";
  Ok (written ws b).

Definition core_default_toml : string :=
  "# " +:+ LICENSE_HEADER +:+ nl +:+ nl +:+ "[default]" +:+ nl +:+
  "description = " +:+ dq +:+ dq +:+ dq +:+ "Default core plugins set which includes:" +:+ nl +:+
  join nl ((λ k, "- '" +:+ k +:+ ":default'") <$> PLUGINS.*1) +:+ nl +:+ dq +:+ dq +:+ dq +:+ nl +:+
  "permissions = [" +:+ join "," ((λ k, "'" +:+ k +:+ ":default'") <$> PLUGINS.*1) +:+ "]" +:+ nl.

Definition define_default_permission_set (out_dir : PathBuf) (b : Build) : outcome BuildError Build :=
  let permissions_out_dir := join_name out_dir "permissions" in
  _ ← or_panic (ensure_dir permissions_out_dir) "failed to create core:default permissions directory";
  b ← or_panic (write_changed (join_name permissions_out_dir "default.toml") core_default_toml b)
        "unable to autogenerate core:default set";
  '(_, b) ← or_panic
    (define_permissions_in (join_pattern (pattern_escape (to_string_lossy permissions_out_dir)) "*.toml")
       "tauri:core" out_dir everything b) "failed to define permissions for `core:default`";
  Ok b.

Definition define_core_permissions (out_dir : PathBuf) (b : Build) : outcome BuildError Build :=
  b ← for_each (define_plugin_permissions out_dir) PLUGINS b;
  define_default_permission_set out_dir b.

End BuildScript.

(** ** Commands that are handled

    The configuration of a build, as far as the plugins depend on it. *)
Record Cfg := mk_cfg {
  desktop : bool;
  macos : bool;
  windows : bool;
  devtools : bool;
  tray_icon : bool;
}.

Definition path_commands : list string :=
  ["resolve_directory"; "resolve"; "normalize"; "join"; "dirname"; "extname"; "basename"; "is_absolute"].

Definition event_commands : list string :=
  ["listen"; "unlisten"; "emit"; "emit_to"].

Definition window_commands (c : Cfg) : list string :=
  ["create"; "get_all_windows"; "scale_factor"; "inner_position"; "outer_position"; "inner_size"; "outer_size";
    "is_fullscreen"; "is_minimized"; "is_maximized"; "is_focused"; "is_decorated"; "is_resizable";
    "is_maximizable"; "is_minimizable"; "is_closable"; "is_visible"; "is_enabled"; "title"; "current_monitor";
    "primary_monitor"; "monitor_from_point"; "available_monitors"; "cursor_position"; "theme"; "center";
    "request_user_attention"; "set_resizable"; "set_maximizable"; "set_minimizable"; "set_closable"; "set_title";
    "maximize"; "unmaximize"; "minimize"; "unminimize"; "show"; "hide"; "close"; "destroy"; "set_decorations";
    "set_shadow"; "set_effects"; "set_always_on_top"; "set_always_on_bottom"; "set_content_protected"; "set_size";
    "set_min_size"; "set_max_size"; "set_size_constraints"; "set_position"; "set_fullscreen"; "set_focus";
    "set_enabled"; "set_skip_taskbar"; "set_cursor_grab"; "set_cursor_visible"; "set_cursor_icon";
    "set_cursor_position"; "set_ignore_cursor_events"; "start_dragging"; "start_resize_dragging"; "set_badge_count"] ++
  (if macos c then ["set_badge_label"] else []) ++
  ["set_progress_bar"] ++
  (if windows c then ["set_overlay_icon"] else []) ++
  ["set_icon"; "set_visible_on_all_workspaces"; "set_background_color"; "set_title_bar_style"; "set_theme";
    "toggle_maximize"; "internal_toggle_maximize"].

Definition webview_commands (c : Cfg) : list string :=
  ["create_webview"; "create_webview_window"; "get_all_webviews"; "webview_position"; "webview_size";
    "webview_close"; "set_webview_size"; "set_webview_position"; "set_webview_focus";
    "set_webview_background_color"; "set_webview_zoom"; "webview_hide"; "webview_show"; "print"; "reparent";
    "clear_all_browsing_data"] ++
  (if devtools c then ["internal_toggle_devtools"] else []).

Definition app_commands : list string :=
  ["version"; "name"; "tauri_version"; "app_show"; "app_hide"; "default_window_icon"; "set_app_theme"].

Definition resources_commands : list string :=
  ["close"].

Definition image_commands : list string :=
  ["new"; "from_bytes"; "from_path"; "rgba"; "size"].

Definition menu_commands : list string :=
  ["new"; "append"; "prepend"; "insert"; "remove"; "remove_at"; "items"; "get"; "popup"; "create_default";
    "set_as_app_menu"; "set_as_window_menu"; "text"; "set_text"; "is_enabled"; "set_enabled"; "set_accelerator";
    "set_as_windows_menu_for_nsapp"; "set_as_help_menu_for_nsapp"; "is_checked"; "set_checked"; "set_icon"].

Definition tray_commands : list string :=
  ["new"; "get_by_id"; "remove_by_id"; "set_icon"; "set_menu"; "set_tooltip"; "set_title"; "set_visible";
    "set_temp_dir_path"; "set_icon_as_template"; "set_show_menu_on_left_click"].

(** A plugin hands the commands it knows to their functions, or refuses every
    command itself. *)
Inductive Handler := Commands_ (commands : list string) | Rejects (message : string).

(** [register_core_plugins], in its order. *)
Definition core_plugins (c : Cfg) : list (string * Handler) :=
  [("path", Commands_ path_commands);
   ("event", Commands_ event_commands);
   ("window", if desktop c then Commands_ (window_commands c) else Rejects "Window API not available on mobile");
   ("webview", if desktop c then Commands_ (webview_commands c) else Rejects "Webview API not available on mobile");
   ("app", Commands_ app_commands);
   ("resources", Commands_ resources_commands);
   ("image", Commands_ image_commands)] ++
  (if desktop c then [("menu", Commands_ menu_commands)] else []) ++
  (if desktop c && tray_icon c then [("tray", Commands_ tray_commands)] else []).

(** * Proofs *)

(** ** The tables agree *)
Definition find_entry {A} (k : string) (l : list (string * A)) : option A := snd <$> List.find (λ e, bool_decide (e.1 = k)) l.

Lemma find_entry_elem {A} k (l : list (string * A)) v : find_entry k l = Some v → (k, v) ∈ l.
Proof.
  unfold find_entry. intros ([k' v'] & Hf & ->)%fmap_Some. apply List.find_some in Hf as [Hin Hk].
  apply bool_decide_eq_true in Hk. simpl in *. subst. by apply list_elem_of_In.
Qed.

(** The permission [key:action-command] as it is named in a capability. *)
Definition well_named (key base : string) : bool :=
  match try_from (key +:+ ":" +:+ base) with
  | Ok i => bool_decide (get_prefix i = Some key) && bool_decide (get_base i = base)
  | _ => false
  end.

Lemma well_named_spec key base :
  well_named key base = true →
  ∃ i, try_from (key +:+ ":" +:+ base) = Ok i ∧ get_prefix i = Some key ∧ get_base i = base.
Proof.
  unfold well_named. destruct (try_from _) as [i|e|msg|]; try done.
  intros [?%bool_decide_eq_true ?%bool_decide_eq_true]%andb_true_iff. eauto.
Qed.

Definition command_listed (plugin cmd : string) : bool :=
  let key := "core:" +:+ plugin in
  match find_entry key PLUGINS with
  | Some permissions => bool_decide (is_Some (find_entry cmd permissions))
  | None => false
  end && well_named key ("allow-" +:+ slugify cmd) && well_named key ("deny-" +:+ slugify cmd) &&
  bool_decide (Ipc.plugin_command (Resolved.command_key key cmd) = Some (plugin, cmd)).

Definition handler_listed (e : string * Handler) : bool :=
  match e.2 with Commands_ commands => forallb (command_listed e.1) commands | Rejects _ => true end.

Lemma all_listed c : forallb handler_listed (core_plugins c) = true.
Proof. destruct c as [[] [] [] [] []]; vm_compute; reflexivity. Qed.

(** C22. Every command that a core plugin handles is in the table of permissions:
    there is a permission to allow it and one to deny it, their names can be
    used in a capability, and the key under which they are resolved is the one
    with which a page calls that command of that plugin. *)
Theorem core_commands_guarded c plugin commands cmd :
  (plugin, Commands_ commands) ∈ core_plugins c → cmd ∈ commands →
  let key := "core:" +:+ plugin in
  (∃ permissions default, (key, permissions) ∈ PLUGINS ∧ (cmd, default) ∈ permissions) ∧
  (∀ action, action ∈ ["allow-"; "deny-"] → ∃ i, try_from (key +:+ ":" +:+ action +:+ slugify cmd) = Ok i ∧
     get_prefix i = Some key ∧ get_base i = action +:+ slugify cmd) ∧
  Ipc.plugin_command (Resolved.command_key key cmd) = Some (plugin, cmd).
Proof.
  intros Hp Hc key. pose proof (all_listed c) as H. rewrite forallb_forall in H.
  apply list_elem_of_In in Hp. specialize (H _ Hp). unfold handler_listed in H. cbn [snd fst] in H.
  rewrite forallb_forall in H. apply list_elem_of_In in Hc. specialize (H _ Hc). unfold command_listed in H. fold key in H.
  apply andb_true_iff in H as [[[H1 H2]%andb_true_iff H3]%andb_true_iff H4%bool_decide_eq_true]. split_and!; [| |done].
  - destruct (find_entry key PLUGINS) as [permissions|] eqn:Ep; [|done].
    apply bool_decide_eq_true in H1 as [d Hd]. exists permissions, d. split; by apply find_entry_elem.
  - intros action [->|[->|[]%elem_of_nil]%elem_of_cons]%elem_of_cons; by apply well_named_spec.
Qed.

Definition only_elsewhere (c : Cfg) (cmd : string) : bool :=
  (bool_decide (cmd = "set_badge_label") && negb (macos c)) ||
  (bool_decide (cmd = "set_overlay_icon") && negb (windows c)) ||
  (bool_decide (cmd = "internal_toggle_devtools") && negb (devtools c)).

Definition permission_handled (c : Cfg) (key cmd : string) : bool :=
  match strip_prefix "core:" key with
  | Some plugin =>
      match find_entry plugin (core_plugins c) with
      | Some (Commands_ commands) => existsb (λ x, bool_decide (x = cmd)) commands || only_elsewhere c cmd
      | _ => false
      end
  | None => false
  end.

Lemma all_handled c : desktop c = true → tray_icon c = true →
  forallb (λ e, forallb (λ p, permission_handled c e.1 p.1) e.2) PLUGINS = true.
Proof. destruct c as [[] [] [] [] []]; intros; try discriminate; vm_compute; reflexivity. Qed.

(** On the desktop every permission is for a command that is handled, but for
    the ones of another platform and of the developer tools. *)
Theorem core_permissions_handled c key permissions cmd default :
  desktop c = true → tray_icon c = true → (key, permissions) ∈ PLUGINS → (cmd, default) ∈ permissions →
  ∃ plugin commands, key = "core:" +:+ plugin ∧ (plugin, Commands_ commands) ∈ core_plugins c ∧
    (cmd ∈ commands ∨ only_elsewhere c cmd = true).
Proof.
  intros Hd Ht Hk Hc. pose proof (all_handled c Hd Ht) as H. rewrite forallb_forall in H.
  apply list_elem_of_In in Hk. specialize (H _ Hk). cbn [fst snd] in H. rewrite forallb_forall in H.
  apply list_elem_of_In in Hc. specialize (H _ Hc). cbn [fst] in H. unfold permission_handled in H.
  destruct (strip_prefix "core:" key) as [plugin|] eqn:Es; [|done]. apply strip_prefix_spec in Es.
  destruct (find_entry plugin (core_plugins c)) as [[commands|]|] eqn:Ef; try done. exists plugin, commands.
  split_and!; [done|by apply find_entry_elem|]. apply orb_true_iff in H as [H|H]; [left|by right].
  apply existsb_exists in H as (x & Hx & ->%bool_decide_eq_true). by apply list_elem_of_In.
Qed.

(** ** The default permissions *)
Section Defaults.
Context {BE : BuildEnv}.

Definition untouched (p : PathBuf) (b b' : Build) : Prop := files b' p = files b p.

Lemma apply_writes_other ws w p : (∀ x, x ∈ ws → x.1 ≠ p) → apply_writes ws w p = w p.
Proof.
  unfold apply_writes. revert w. induction ws as [|[q text] ws IH]; intros w H; simpl; [done|].
  rewrite IH by (intros x Hx; apply H; by right). unfold write_file. rewrite decide_False; [done|].
  intros ->. by apply (H (q, text)); [left|].
Qed.

Lemma autogenerate_paths {BL : BuildLib} path commands license schema_ref a ws :
  autogenerate_command_permissions path commands license schema_ref = Ok (a, ws) →
  ∀ x, x ∈ ws → ∃ c, c ∈ commands ∧ x.1 = command_file path c.
Proof.
  unfold autogenerate_command_permissions. destruct (_ && _); [done|].
  set (entry := schema_entry schema_ref path).
  assert (∀ a0 ws0, for_each (autogenerate_command path license entry) commands (a0, ws0) = Ok (a, ws) →
    ∀ x, x ∈ ws → x ∈ ws0 ∨ ∃ c, c ∈ commands ∧ x.1 = command_file path c) as H; cycle 1.
  { intros Hf x Hx. destruct (H _ _ Hf x Hx) as [?%elem_of_nil|?]; done. }
  induction commands as [|c commands IH]; intros a0 ws0; cbn [for_each].
  { intros [= <- <-] x Hx. by left. }
  intros ([a1 ws1] & H1 & H2)%bind_ok x Hx. apply bind_ok in H1 as (w & Hw & [= <- <-]).
  unfold expect in Hw. destruct (write_if_changed _ _) as [w'|] eqn:Hw1; [|done]. injection Hw as ->. rename Hw1 into Hw.
  destruct (IH _ _ H2 x Hx) as [[?|Hw']%elem_of_app|(c' & ? & ?)].
  - by left.
  - right. exists c. split; [by left|]. unfold write_if_changed in Hw. repeat case_match; simplify_eq; [by apply elem_of_nil in Hw'|].
    by apply list_elem_of_singleton in Hw' as ->.
  - right. exists c'. split; [by right|done].
Qed.

Lemma or_panic_ok {A} (o : outcome BuildError A) msg a : or_panic o msg = Ok a → o = Ok a.
Proof. by destruct o. Qed.

Lemma list_file_name pkg : pkg +:+ "-permission-files" ≠ "default.toml".
Proof. intros H. apply (f_equal (λ s, last (bytes s))) in H. rewrite bytes_append, last_app in H. discriminate. Qed.

Lemma define_permissions_untouched pattern pkg out_dir filter_fn b l b' d :
  define_permissions_in pattern pkg out_dir filter_fn b = Ok (l, b') → untouched (join_name d "default.toml") b b'.
Proof.
  intros ([meta l'] & H & [= -> <-])%bind_ok. unfold lift_error in H.
  destruct (define_permissions _ _ _ _) as [[meta' l'']|e|msg|] eqn:E; try done. injection H as -> ->.
  unfold define_permissions in E. apply bind_ok in E as (paths & _ & E). apply bind_ok in E as (fs & _ & E).
  destruct (negb _); [done|]. apply bind_ok in E as (l0 & _ & [= <- <-]). simpl. unfold untouched. simpl. unfold write_file.
  rewrite decide_False; [done|]. intros [_ [= H]]%app_inj_tail. by eapply list_file_name.
Qed.

Lemma write_if_changed_paths {BL : BuildLib} p text ws : write_if_changed p text = Some ws → ∀ x, x ∈ ws → x.1 = p.
Proof.
  unfold write_if_changed. repeat case_match; intros [= <-] x Hx; [by apply elem_of_nil in Hx|].
  by apply list_elem_of_singleton in Hx as ->.
Qed.

Lemma define_plugin_untouched out_dir b entry b' d :
  "default" ∉ entry.2.*1 → define_plugin_permissions out_dir b entry = Ok b' → untouched (join_name d "default.toml") b b'.
Proof.
  destruct entry as [plugin commands]. intros Hd H. unfold define_plugin_permissions in H.
  apply bind_ok in H as ([a ws] & H1 & H). unfold lift_error in H1.
  destruct (autogenerate_command_permissions _ _ _ _) as [[a' ws']|e|msg|] eqn:Ea; try done. injection H1 as -> ->.
  apply bind_ok in H as ([l1 b1] & H1%or_panic_ok & H). apply bind_ok in H as ([l2 b2] & H2%or_panic_ok & H).
  apply bind_ok in H as ([] & _ & H). apply bind_ok in H as (ws2 & H3%or_panic_ok & [= <-]).
  apply (define_permissions_untouched _ _ _ _ _ _ _ d) in H1, H2. unfold untouched in *. simpl.
  rewrite apply_writes_other; [rewrite H2, H1; simpl; apply apply_writes_other|].
  - intros x Hx E. destruct (autogenerate_paths _ _ _ _ _ _ Ea x Hx) as (c & Hc & Hxc). rewrite E in Hxc.
    unfold command_file, join_name in Hxc. apply app_inj_tail in Hxc as [_ [= Hxc]].
    assert (c = "default") as ->; [|done].
    apply (f_equal bytes) in Hxc. rewrite bytes_append in Hxc. apply bytes_inj.
    change (bytes "default.toml") with (bytes "default" ++ bytes ".toml") in Hxc. by apply app_inv_tail in Hxc.
  - intros x Hx E. unfold lift_error, generate_docs in H3.
    destruct (write_if_changed _ _) as [ws3|] eqn:Ew; try done. simpl in H3. injection H3 as ->.
    rewrite (write_if_changed_paths _ _ _ Ew x Hx) in E. by apply app_inj_tail in E as [_ [=]].
Qed.

(** The build script of the core library does not write the default permission
    of any of its plugins, although it makes the text. *)
Theorem core_defaults_not_written out_dir b b' plugin permissions :
  (plugin, permissions) ∈ PLUGINS → define_core_permissions out_dir b = Ok b' →
  let path := join_name (join_name (permissions_dir out_dir plugin) AUTOGENERATED_FOLDER_NAME) "default.toml" in
  files b' path = files b path.
Proof.
  intros Hp H path. apply bind_ok in H as (b1 & H1 & H2).
  assert (untouched path b b1) as Hb1.
  { clear H2. assert (∀ e, e ∈ PLUGINS → "default" ∉ e.2.*1) as Hn.
    { apply Forall_forall. refine (bool_decide_unpack _ _). vm_compute. exact I. }
    revert b H1. generalize PLUGINS Hn. clear. intros l. induction l as [|e l IH]; intros Hn b; cbn [for_each].
    - intros [= <-]. done.
    - intros (b2 & H & Hr)%bind_ok. unfold untouched in *. rewrite (IH ltac:(intros; apply Hn; by right) b2 Hr).
      eapply define_plugin_untouched; [|done]. apply Hn. by left. }
  apply bind_ok in H2 as ([] & _ & H2). apply bind_ok in H2 as (b2 & Hw%or_panic_ok & H2).
  apply bind_ok in H2 as ([l b3] & Hd%or_panic_ok & [= <-]).
  apply (define_permissions_untouched _ _ _ _ _ _ _ (join_name (permissions_dir out_dir plugin) AUTOGENERATED_FOLDER_NAME)) in Hd.
  unfold untouched in *. fold path in Hd. rewrite Hd, <- Hb1.
  apply bind_ok in Hw as (ws & Hws%ok_or_ok & [= <-]). simpl. apply apply_writes_other. intros x Hx E.
  rewrite (write_if_changed_paths _ _ _ Hws x Hx) in E. unfold path, permissions_dir, join_name in E.
  apply app_inj_tail in E as [E _]. apply (f_equal length) in E. rewrite !length_app in E. simpl in E. lia.
Qed.

Definition list_name (plugin : string) : string := replace_char ":"%char "-"%char ("tauri:" +:+ plugin).

(** Of the two searches for the files of a plugin the second counts, and it does
    not escape the path: when the build directory has a character with a meaning
    in patterns, the permissions of the core plugins are lost. *)
Theorem unescaped_search_counts out_dir b plugin permissions b' :
  (∀ w, env_glob w (join_pattern (join_pattern (to_string_lossy (permissions_dir out_dir plugin)) "**") "*.toml") = Some []) →
  define_plugin_permissions out_dir b (plugin, permissions) = Ok b' →
  files b' (join_name out_dir (list_name plugin +:+ "-permission-files")) = Some (json_of_paths []).
Proof.
  intros Hg H. unfold define_plugin_permissions in H.
  apply bind_ok in H as ([a ws] & _ & H). apply bind_ok in H as ([l1 b1] & _ & H).
  apply bind_ok in H as ([l2 b2] & H2%or_panic_ok & H).
  apply bind_ok in H as ([] & _ & H). apply bind_ok in H as (ws2 & H3%or_panic_ok & [= <-]).
  simpl. rewrite apply_writes_other; cycle 1.
  { intros x Hx E. unfold lift_error, generate_docs in H3.
    destruct (write_if_changed _ _) as [ws3|] eqn:Ew; try done. simpl in H3. injection H3 as ->.
    rewrite (write_if_changed_paths _ _ _ Ew x Hx) in E. by apply app_inj_tail in E as [_ [=]]. }
  unfold define_permissions_in in H2. apply bind_ok in H2 as ([meta l'] & H & [= -> <-]). unfold lift_error in H.
  destruct (define_permissions _ _ _ _) as [[meta' l'']|e|msg|] eqn:E; try done. injection H as -> ->.
  unfold define_permissions in E. cbn [glob_paths lib_at] in E. rewrite Hg in E. cbn in E.
  destruct (negb _); [done|]. injection E as <- <-. simpl. unfold write_file. by rewrite decide_True.
Qed.

End Defaults.

(** A manifest has the default permission of one of its files. *)
Lemma Manifest_new_no_default l schema : Forall (λ f, file_default f = None) l → default_permission (Manifest_new l schema) = None.
Proof.
  intros H. unfold Manifest_new. assert (default_permission (mk_manifest None ∅ ∅ schema) = None) as Hm by done.
  revert Hm. generalize (mk_manifest None ∅ ∅ schema). induction H as [|f l Hf _ IH]; intros m Hm; simpl; [done|]. apply IH. unfold add_permission_file. by rewrite Hf.
Qed.

Lemma core_default_members : Forall (λ k, well_named k "default" = true) PLUGINS.*1.
Proof. refine (bool_decide_unpack _ _). vm_compute. exact I. Qed.

(** Without default permissions of its plugins the set [core:default] is
    accepted and allows nothing. *)
Theorem core_default_grants_nothing fuel acl core set i :
  try_from "core:default" = Ok i → acl !! "core" = Some core → default_permission core = Some set →
  set_permissions set = (λ k, k +:+ ":default") <$> PLUGINS.*1 →
  (∀ k, k ∈ PLUGINS.*1 → ∃ files schema, acl !! k = Some (Manifest_new files schema) ∧
     Forall (λ f, file_default f = None) files) →
  permission_exists acl i = true ∧ Resolved.get_permissions (S fuel) i acl = Ok [].
Proof.
  intros Hi Hc Hd Hs Hk. vm_compute in Hi. injection Hi as <-.
  split; [unfold permission_exists; change (default APP_ACL_KEY (get_prefix _)) with "core"; by rewrite Hc|].
  unfold Resolved.get_permissions. change (default APP_ACL_KEY (get_prefix _)) with "core". rewrite Hc. cbn [ok_or mbind outcome_bind].
  change (get_base _) with "default". rewrite decide_True by done. rewrite Hd. cbn [Resolved.get_permission_set_permissions].
  rewrite Hs. pose proof core_default_members as Hm. revert Hk Hm. generalize (PLUGINS.*1). intros l.
  induction l as [|k l IH]; intros Hk Hm; [done|]. apply Forall_cons in Hm as [Hk1 Hm].
  destruct (well_named_spec _ _ Hk1) as (i & Hi & Hp & Hb). cbn [fmap list_fmap for_each]. cbn beta.
  change (k +:+ ":" +:+ "default") with (k +:+ ":default") in Hi. rewrite Hi.
  destruct (Hk k ltac:(by left)) as (files & schema & Hak & Hf).
  unfold Resolved.set_member. rewrite Hp. cbn [mbind option_bind]. rewrite Hak. cbn. rewrite Hb, decide_True by done.
  rewrite Manifest_new_no_default by done. cbn [mbind outcome_bind]. apply IH; [|done]. intros k' Hk'. apply Hk. by right.
Qed.

(** ** Examples *)
Definition ex_cfg : Cfg := mk_cfg true false false true true.

Lemma core_commands_guarded_witness :
  ("window", Commands_ (window_commands ex_cfg)) ∈ core_plugins ex_cfg ∧
  Ipc.plugin_command (Resolved.command_key "core:window" "set_title") = Some ("window", "set_title").
Proof.
  assert (("window", Commands_ (window_commands ex_cfg)) ∈ core_plugins ex_cfg) as H by (do 2 right; left).
  split; [exact H|]. apply (core_commands_guarded ex_cfg "window" (window_commands ex_cfg) "set_title" H).
  refine (bool_decide_unpack _ _). vm_compute. exact I.
Defined.

Lemma core_permissions_handled_witness :
  ∃ commands, ("event", Commands_ commands) ∈ core_plugins ex_cfg ∧ "emit" ∈ commands.
Proof.
  destruct (core_permissions_handled ex_cfg "core:event" event_permissions "emit" true) as (plugin & commands & Hk & Hp & Hc).
  - reflexivity.
  - reflexivity.
  - right. left.
  - refine (bool_decide_unpack _ _). vm_compute. exact I.
  - apply (f_equal (strip_prefix "core:")) in Hk. rewrite strip_prefix_app in Hk. injection Hk as <-. destruct Hc as [Hc|Hc]; [exists commands; split; [exact Hp|exact Hc]|discriminate Hc].
Defined.

End CorePlugins.
