(* ===== verification/CoreCommands.v ===== *)
(** * Commands of the core plugins

    Models the functions behind the commands of [tauri/Source/window/plugin.rs],
    [webview/plugin.rs] and [resources/plugin.rs] on Linux, with the methods of
    [window/mod.rs] and [webview/mod.rs] that they call: which window or webview
    a command acts on, which message its dispatcher sends, and what is answered.
    An argument is what was read from the message of the page, of the type that
    the command declares. The messages of a command are handled one after the
    other, as for a caller on the main thread. *)
From S2P Require Import Prelude State Resources Listeners Runtime EventLoop Windows CorePlugins.
Import Messages Runtime Windows CorePlugins.

Module CoreCommands.

(** Values of the runtime that a command looks into, and the package. *)
Class CommandLib {RTy : RuntimeTypes} := {
  value_bool : value → bool;
  package_name : string;
  (** the state of a progress bar with the name of the desktop file *)
  progress_bar : arg → string → arg;
}.

Section Commands.
Context {RTy : RuntimeTypes} {NA : Native} {U : UnicodeTables} {MH : ManagerHooks} {CL : CommandLib}.

Inductive CommandError :=
| InvalidArgs
| WindowNotFound
| WebviewNotFound
| UnstableFeatureNotSupported
| BadImage
| Failed (e : Windows.Error).

Inductive Answer :=
| AUnit
| AValue (v : value)
| ALabels (labels : list string)
| AWebviews (refs : list (string * string)).

(** The argument [value] of a command, or its other arguments. *)
Inductive Arg :=
| NoArg
| ABool (b : bool)
| AText (s : string)
| ASize (s : size)
| AOptSize (s : option size)
| APosition (p : position)
| AOptTheme (t : option Theme)
| AOptInt (n : option Z)
| AArg (a : arg)
| AOptArg (a : option arg)
(** an image, if the table of the webview has the resource that it names *)
| AImage (image : option arg)
| AConfig (label : string) (parent : option string) (webview : PendingWebview)
| AWebview (window_label : string) (webview : PendingWebview)
| AWindow (label : string).

Definition CRes : Type := outcome Empty_set (outcome CommandError Answer * Manager * Context).

(** ** Windows *)
Definition get_window (window : Window) (label : option string) (m : Manager) : outcome CommandError Window :=
  match label with
  | Some l => if decide (l = "") then Ok window else ok_or (m_windows m !! l) WindowNotFound
  | None => Ok window
  end.

Definition window_getters : list (string * WindowGetter) :=
  [("scale_factor", ScaleFactor); ("inner_position", InnerPosition); ("outer_position", OuterPosition);
   ("inner_size", InnerSize); ("outer_size", OuterSize); ("is_fullscreen", IsFullscreen);
   ("is_minimized", IsMinimized); ("is_maximized", IsMaximized); ("is_focused", IsFocused);
   ("is_decorated", IsDecorated); ("is_resizable", IsResizable); ("is_maximizable", IsMaximizable);
   ("is_minimizable", IsMinimizable); ("is_closable", IsClosable); ("is_visible", IsVisible);
   ("is_enabled", IsEnabled); ("title", Title); ("current_monitor", CurrentMonitor);
   ("primary_monitor", PrimaryMonitor); ("available_monitors", AvailableMonitors); ("theme", GetTheme)].

(** The type of the argument of a setter. *)
Definition no_value (s : WindowSetter) (a : Arg) : option WindowSetter := match a with NoArg => Some s | _ => None end.
Definition boolean (f : bool → WindowSetter) (a : Arg) : option WindowSetter :=
  match a with ABool b => Some (f b) | _ => None end.
Definition any_value (f : arg → WindowSetter) (a : Arg) : option WindowSetter :=
  match a with AArg x => Some (f x) | _ => None end.
Definition optional_value (f : option arg → WindowSetter) (a : Arg) : option WindowSetter :=
  match a with AOptArg x => Some (f x) | _ => None end.
Definition optional_size (f : option size → WindowSetter) (a : Arg) : option WindowSetter :=
  match a with AOptSize x => Some (f x) | _ => None end.
Definition a_position (f : position → WindowSetter) (a : Arg) : option WindowSetter :=
  match a with APosition p => Some (f p) | _ => None end.

Definition desktop_filename : string := package_name +:+ ".desktop".

(** The state of the window. *)
Definition state_setters : list (string * (Arg → option WindowSetter)) :=
  [("center", no_value Center);
   ("request_user_attention", optional_value RequestUserAttention);
   ("set_resizable", boolean SetResizable);
   ("set_maximizable", boolean SetMaximizable);
   ("set_minimizable", boolean SetMinimizable);
   ("set_closable", boolean SetClosable);
   ("set_title", λ a, match a with AText s => Some (SetTitle s) | _ => None end);
   ("set_enabled", boolean SetEnabled);
   ("maximize", no_value Maximize);
   ("unmaximize", no_value Unmaximize);
   ("minimize", no_value Minimize);
   ("unminimize", no_value Unminimize);
   ("show", no_value Show);
   ("hide", no_value Hide);
   ("set_decorations", boolean SetDecorations);
   ("set_shadow", boolean SetShadow)].

(** Its place, size and look. *)
Definition place_setters : list (string * (Arg → option WindowSetter)) :=
  [("set_always_on_bottom", boolean SetAlwaysOnBottom);
   ("set_always_on_top", boolean SetAlwaysOnTop);
   ("set_visible_on_all_workspaces", boolean SetVisibleOnAllWorkspaces);
   ("set_background_color", optional_value SetBackgroundColor);
   ("set_content_protected", boolean SetContentProtected);
   ("set_size", λ a, match a with ASize s => Some (SetSize s) | _ => None end);
   ("set_min_size", optional_size SetMinSize);
   ("set_max_size", optional_size SetMaxSize);
   ("set_size_constraints", any_value SetSizeConstraints);
   ("set_position", a_position SetPosition);
   ("set_fullscreen", boolean SetFullscreen);
   ("set_focus", no_value SetFocus);
   ("set_skip_taskbar", boolean SetSkipTaskbar)].

(** The cursor, dragging and the taskbar. *)
Definition cursor_setters : list (string * (Arg → option WindowSetter)) :=
  [("set_cursor_grab", boolean SetCursorGrab);
   ("set_cursor_visible", boolean SetCursorVisible);
   ("set_cursor_icon", any_value SetCursorIcon);
   ("set_cursor_position", a_position SetCursorPosition);
   ("set_ignore_cursor_events", boolean SetIgnoreCursorEvents);
   ("start_dragging", no_value DragWindow);
   ("start_resize_dragging", any_value ResizeDragWindow);
   ("set_badge_count", λ a, match a with AOptInt n => Some (SetBadgeCount n (Some desktop_filename)) | _ => None end);
   ("set_progress_bar", any_value (λ x, SetProgressBar (progress_bar x desktop_filename)));
   ("set_title_bar_style", any_value SetTitleBarStyle);
   ("set_theme", λ a, match a with AOptTheme t => Some (SetTheme t) | _ => None end)].

Definition window_setters : list (string * (Arg → option WindowSetter)) :=
  state_setters ++ place_setters ++ cursor_setters.

Definition refuse (e : CommandError) (m : Manager) (c : Context) : CRes := Ok (Err e, m, c).

Definition lift {A} (f : A → Answer) (r : outcome Runtime.Error A) : outcome CommandError Answer :=
  match r with
  | Ok a => Ok (f a)
  | Err e => Err (Failed (RuntimeError e))
  | Panic msg => Panic msg
  | Diverge => Diverge
  end.

Definition dispatch (cmd : Cmd) (m : Manager) (c : Context) : CRes :=
  c ← run_cmd cmd c; Ok (Ok AUnit, m, c).

Definition ask_window (w : Window) (g : WindowGetter) (m : Manager) (c : Context) : CRes :=
  '(r, c) ← window_getter (w_id w) g c; Ok (lift AValue r, m, c).

(** [match window.is_maximized()? { true => window.unmaximize()?, false => window.maximize()? }] *)
Definition toggle_maximize (w : Window) (m : Manager) (c : Context) : CRes :=
  '(r, c) ← window_getter (w_id w) IsMaximized c;
  match r with
  | Ok v => dispatch (SetWindow (w_id w) (if value_bool v then Unmaximize else Maximize)) m c
  | _ => Ok (lift AValue r, m, c)
  end.

Definition internal_toggle_maximize (w : Window) (m : Manager) (c : Context) : CRes :=
  '(r, c) ← window_getter (w_id w) IsResizable c;
  match r with
  | Ok v => if value_bool v then toggle_maximize w m c else Ok (Ok AUnit, m, c)
  | _ => Ok (lift AValue r, m, c)
  end.

(** [AppHandle::cursor_position]. *)
Definition cursor_position_of (m : Manager) (c : Context) : CRes :=
  c' ← run_cmd CursorPosition_ c; Ok (lift AValue (recv (next_tx c) c'), m, c').

(** [WindowBuilder::from_config]: the parent must be there. *)
Definition parent_exists (parent : option string) (m : Manager) : bool :=
  match parent with Some p => bool_decide (is_Some (m_windows m !! p)) | None => true end.

Definition built {A} (r : outcome Empty_set (outcome Windows.Error A * Manager * Context)) : CRes :=
  '(o, m, c) ← r;
  Ok (match o with Ok _ => Ok AUnit | Err e => Err (Failed e) | Panic msg => Panic msg | Diverge => Diverge end, m, c).

(** The commands for a window that are no plain getter or setter. *)
Definition window_actions : list (string * (Window → Arg → Manager → Context → option CRes)) :=
  [("close", λ w a m c, match a with NoArg => Some (dispatch (CloseWindow (w_id w)) m c) | _ => None end);
   ("destroy", λ w a m c, match a with NoArg => Some (dispatch (DestroyWindow (w_id w)) m c) | _ => None end);
   ("set_effects", λ w a m c, match a with AOptArg _ => Some (dispatch (RunOnMainThread []) m c) | _ => None end);
   ("cursor_position", λ w a m c, match a with NoArg => Some (cursor_position_of m c) | _ => None end);
   ("monitor_from_point", λ w a m c, match a with AArg p => Some (ask_window w (MonitorFromPoint p) m c) | _ => None end);
   ("set_icon", λ w a m c, match a with
                           | AImage (Some i) => Some (dispatch (SetWindow (w_id w) (SetIcon i)) m c)
                           | AImage None => Some (refuse BadImage m c)
                           | _ => None
                           end);
   ("toggle_maximize", λ w a m c, match a with NoArg => Some (toggle_maximize w m c) | _ => None end);
   ("internal_toggle_maximize", λ w a m c, match a with NoArg => Some (internal_toggle_maximize w m c) | _ => None end)].

(** A command with a label: the arguments are read first, then the window is
    looked up. *)
Definition on_window (cmd : string) (window : Window) (label : option string) (a : Arg) (m : Manager) (c : Context)
    : option CRes :=
  let with_window (f : Window → CRes) : CRes :=
    match get_window window label m with Ok w => f w | Err e => refuse e m c | _ => refuse WindowNotFound m c end in
  match find_entry cmd window_getters with
  | Some g => Some (match a with NoArg => with_window (λ w, ask_window w g m c) | _ => refuse InvalidArgs m c end)
  | None =>
  match find_entry cmd window_setters with
  | Some f =>
      Some (match f a with
            | Some s => with_window (λ w, dispatch (SetWindow (w_id w) s) m c)
            | None => refuse InvalidArgs m c
            end)
  | None =>
  match find_entry cmd window_actions with
  | Some f =>
      Some (if decide (is_Some (f window a m c))
            then with_window (λ w, default (refuse InvalidArgs m c) (f w a m c)) else refuse InvalidArgs m c)
  | None => None
  end end end.

(** The commands of the plugin; nothing is answered for an unknown one. *)
Definition window_plugin (cmd : string) (window : Window) (label : option string) (a : Arg) (m : Manager) (c : Context)
    : option CRes :=
  if decide (cmd = "get_all_windows") then Some (Ok (Ok (ALabels (map_to_list (m_windows m)).*1), m, c))
  else if decide (cmd = "create") then
    Some (match a with
          | AConfig l parent _ =>
              if parent_exists parent m then built (build_internal l [] None m c) else refuse WindowNotFound m c
          | _ => refuse InvalidArgs m c
          end)
  else on_window cmd window label a m c.

(** ** Webviews *)
Definition get_webview (webview : Windows.Webview) (label : option string) (m : Manager)
    : outcome CommandError Windows.Webview :=
  match label with
  | Some l => if decide (l = "") then Ok webview else ok_or (m_webviews m !! l) WebviewNotFound
  | None => Ok webview
  end.

Definition webview_getters : list (string * WebviewGetter) :=
  [("webview_position", WvPosition); ("webview_size", WvSize)].

Definition webview_setters : list (string * (Arg → option WebviewSetter)) :=
  [("print", λ a, match a with NoArg => Some Print | _ => None end);
   ("set_webview_size", λ a, match a with ASize s => Some (WvSetSize s) | _ => None end);
   ("set_webview_position", λ a, match a with APosition p => Some (WvSetPosition p) | _ => None end);
   ("set_webview_focus", λ a, match a with NoArg => Some WvSetFocus | _ => None end);
   ("webview_hide", λ a, match a with NoArg => Some WvHide | _ => None end);
   ("webview_show", λ a, match a with NoArg => Some WvShow | _ => None end);
   ("set_webview_zoom", λ a, match a with AArg z => Some (SetZoom z) | _ => None end);
   ("set_webview_background_color", λ a, match a with AOptArg x => Some (WvSetBackgroundColor x) | _ => None end);
   ("clear_all_browsing_data", λ a, match a with NoArg => Some ClearAllBrowsingData | _ => None end)].

(** [is_devtools_open] takes an error for closed. *)
Definition internal_toggle_devtools (v : Windows.Webview) (m : Manager) (c : Context) : CRes :=
  '(r, c) ← webview_getter (v_dispatcher v) IsDevToolsOpen c;
  let open := match r with Ok x => value_bool x | _ => false end in
  dispatch (SetWebview (v_dispatcher v) (if open then CloseDevTools else OpenDevTools)) m c.

Definition close_webview (v : Windows.Webview) (m : Manager) (c : Context) : CRes :=
  '(m, c) ← webview_close v m c; Ok (Ok AUnit, m, c).

Definition reparent_to (v : Windows.Webview) (window : string) (m : Manager) (c : Context) : CRes :=
  match m_windows m !! window with
  | Some w => built (reparent v w m c)
  | None => Ok (Ok AUnit, m, c)
  end.

Definition webview_actions : list (string * (Windows.Webview → Arg → Manager → Context → option CRes)) :=
  [("webview_close", λ v a m c, match a with NoArg => Some (close_webview v m c) | _ => None end);
   ("reparent", λ v a m c, match a with AWindow w => Some (reparent_to v w m c) | _ => None end);
   ("internal_toggle_devtools", λ v a m c, match a with NoArg => Some (internal_toggle_devtools v m c) | _ => None end)].

Definition on_a_webview (cmd : string) (webview : Windows.Webview) (label : option string) (a : Arg) (m : Manager) (c : Context)
    : option CRes :=
  let with_webview_ (f : Windows.Webview → CRes) : CRes :=
    match get_webview webview label m with Ok w => f w | Err e => refuse e m c | _ => refuse WebviewNotFound m c end in
  match find_entry cmd webview_getters with
  | Some g =>
      Some (match a with
            | NoArg => with_webview_ (λ v, '(r, c) ← webview_getter (v_dispatcher v) g c; Ok (lift AValue r, m, c))
            | _ => refuse InvalidArgs m c
            end)
  | None =>
  match find_entry cmd webview_setters with
  | Some f =>
      Some (match f a with
            | Some s => with_webview_ (λ v, dispatch (SetWebview (v_dispatcher v) s) m c)
            | None => refuse InvalidArgs m c
            end)
  | None =>
  match find_entry cmd webview_actions with
  | Some f =>
      Some (if decide (is_Some (f webview a m c))
            then with_webview_ (λ v, default (refuse InvalidArgs m c) (f v a m c)) else refuse InvalidArgs m c)
  | None => None
  end end end.

Definition webview_plugin (cmd : string) (webview : Windows.Webview) (label : option string) (a : Arg) (m : Manager)
    (c : Context) : option CRes :=
  if decide (cmd = "get_all_webviews") then
    Some (Ok (Ok (AWebviews ((λ v, (w_label (v_window v), v_label v)) <$> (map_to_list (m_webviews m)).*2)), m, c))
  else if decide (cmd = "create_webview_window") then
    Some (match a with
          | AConfig l parent w =>
              if parent_exists parent m then built (with_webview l [] w m c) else refuse WindowNotFound m c
          | _ => refuse InvalidArgs m c
          end)
  else if decide (cmd = "create_webview") then
    Some (if unstable then
            match a with
            | AWebview window_label w =>
                match m_windows m !! window_label with
                | Some window => built (add_child window w m c)
                | None => refuse WindowNotFound m c
                end
            | _ => refuse InvalidArgs m c
            end
          else refuse UnstableFeatureNotSupported m c)
  else on_a_webview cmd webview label a m c.

(** * Proofs *)

(** ** Every command has its function *)
Definition window_names : list string :=
  ["get_all_windows"; "create"] ++ window_getters.*1 ++ window_setters.*1 ++ window_actions.*1.
Definition webview_names : list string :=
  ["get_all_webviews"; "create_webview_window"; "create_webview"] ++
  webview_getters.*1 ++ webview_setters.*1 ++ webview_actions.*1.

Lemma find_entry_in {A} k (l : list (string * A)) : is_Some (find_entry k l) ↔ k ∈ l.*1.
Proof.
  induction l as [|[j v] l IH]; unfold find_entry in *; cbn [List.find fst].
  - split; [by intros [? ?]|by intros ?%elem_of_nil].
  - rewrite fmap_cons, elem_of_cons. cbn [fst]. case_bool_decide as E; [subst; simpl; split; [auto|by eexists]|].
    rewrite IH. naive_solver.
Qed.

Lemma window_plugin_names cmd window label a m c : is_Some (window_plugin cmd window label a m c) ↔ cmd ∈ window_names.
Proof.
  unfold window_plugin, window_names. rewrite !elem_of_app, <- !find_entry_in, !elem_of_cons, elem_of_nil. unfold on_window.
  destruct (decide (cmd = "get_all_windows")); [split; [auto|by eexists]|].
  destruct (decide (cmd = "create")); [split; [auto|by eexists]|].
  destruct (find_entry cmd window_getters); [split; [auto|by eexists]|].
  destruct (find_entry cmd window_setters); [split; [auto|by eexists]|].
  destruct (find_entry cmd window_actions); [split; [auto|by eexists]|]. split; [by intros [? ?]|].
  intros [[?|[?|[]]]|[[? ?]|[[? ?]|[? ?]]]]; done.
Qed.

Lemma webview_plugin_names cmd webview label a m c : is_Some (webview_plugin cmd webview label a m c) ↔ cmd ∈ webview_names.
Proof.
  unfold webview_plugin, webview_names. rewrite !elem_of_app, <- !find_entry_in, !elem_of_cons, elem_of_nil. unfold on_a_webview.
  destruct (decide (cmd = "get_all_webviews")); [split; [auto|by eexists]|].
  destruct (decide (cmd = "create_webview_window")); [split; [auto|by eexists]|].
  destruct (decide (cmd = "create_webview")); [split; [auto|by eexists]|].
  destruct (find_entry cmd webview_getters); [split; [auto|by eexists]|].
  destruct (find_entry cmd webview_setters); [split; [auto|by eexists]|].
  destruct (find_entry cmd webview_actions); [split; [auto|by eexists]|]. split; [by intros [? ?]|].
  intros [[?|[?|[?|[]]]]|[[? ?]|[[? ?]|[? ?]]]]; done.
Qed.

Definition same_names (l l' : list string) : bool :=
  forallb (λ x, bool_decide (x ∈ l')) l && forallb (λ x, bool_decide (x ∈ l)) l'.

Lemma same_names_spec l l' x : same_names l l' = true → x ∈ l ↔ x ∈ l'.
Proof.
  intros [H1 H2]%andb_true_iff. rewrite forallb_forall in H1, H2.
  split; intros Hx%list_elem_of_In; [apply H1 in Hx|apply H2 in Hx]; by apply bool_decide_eq_true in Hx.
Qed.

(** On Linux the plugins have a function for exactly the commands they
    register. *)
Theorem commands_implemented cfg cmd window webview label a m c :
  macos cfg = false → CorePlugins.windows cfg = false → devtools cfg = true →
  (is_Some (window_plugin cmd window label a m c) ↔ cmd ∈ window_commands cfg) ∧
  (is_Some (webview_plugin cmd webview label a m c) ↔ cmd ∈ webview_commands cfg).
Proof.
  intros Hm Hw Hd. rewrite window_plugin_names, webview_plugin_names.
  split; apply same_names_spec; [unfold window_commands; rewrite Hm, Hw|unfold webview_commands; rewrite Hd];
    vm_compute; reflexivity.
Qed.

(** ** The window that a command acts on *)
Lemma window_actions_args w w' a m c :
  Forall (λ e, is_Some (e.2 w a m c) ↔ is_Some (e.2 w' a m c)) window_actions.
Proof. unfold window_actions. repeat constructor; cbn [snd]; destruct a; try done; try (by destruct image); by split; eexists. Qed.

Lemma found_action {A} (P : string * A → Prop) k l v : Forall P l → find_entry k l = Some v → P (k, v).
Proof. intros H Hf%find_entry_elem. rewrite Forall_forall in H. by apply H. Qed.

Lemma window_command_cases cmd window label a m c :
  cmd ∈ window_names → (cmd ∉ ["get_all_windows"; "create"]) →
  match get_window window label m with
  | Ok w => window_plugin cmd window label a m c = window_plugin cmd w None a m c
  | _ => ∃ l e, label = Some l ∧ m_windows m !! l = None ∧ (e = WindowNotFound ∨ e = InvalidArgs) ∧
           window_plugin cmd window label a m c = Some (refuse e m c)
  end.
Proof.
  intros Hin Hn. rewrite !not_elem_of_cons in Hn. destruct Hn as (Hn1 & Hn2 & _).
  assert (is_Some (window_plugin cmd window label a m c)) as Hs by by apply window_plugin_names.
  assert (∀ w label, window_plugin cmd w label a m c = on_window cmd w label a m c) as Hon.
  { intros. unfold window_plugin. by rewrite !decide_False. }
  rewrite Hon in Hs. assert (∀ w, get_window w None m = Ok w) as Hnone by done.
  destruct (get_window window label m) as [w|e|msg|] eqn:Hg.
  - rewrite !Hon. unfold on_window. rewrite Hg, Hnone. destruct (find_entry cmd window_getters); [done|]. destruct (find_entry cmd window_setters); [done|].
    destruct (find_entry cmd window_actions) as [f|] eqn:Hf; [|done].
    pose proof (found_action _ _ _ _ (window_actions_args window w a m c) Hf) as Ha. cbn [snd] in Ha.
    do 2 f_equal. destruct (decide (is_Some (f window a m c))), (decide (is_Some (f w a m c))); tauto.
  - unfold get_window in Hg. destruct label as [l|]; [|done]. case_decide; [done|].
    destruct (m_windows m !! l) eqn:Hl; [done|]. injection Hg as <-. exists l.
    rewrite Hon. unfold on_window in *. unfold get_window in *. rewrite decide_False, Hl in * by done. simpl in *.
    destruct (find_entry cmd window_getters); [destruct a; eauto 10|].
    destruct (find_entry cmd window_setters) as [f|]; [destruct (f a); eauto 10|].
    destruct (find_entry cmd window_actions) as [f|]; [case_decide; eauto 10|]. by destruct Hs.
  - unfold get_window in Hg. destruct label as [l|]; [|done]. case_decide; [done|]. by destruct (m_windows m !! l).
  - unfold get_window in Hg. destruct label as [l|]; [|done]. case_decide; [done|]. by destruct (m_windows m !! l).
Qed.

(** C24. A command with the label of a window is the command of that window, and one
    without a label, or with an empty one, that of the window it came from; with
    the label of no window it fails and changes nothing. *)
Theorem window_command_addressed cmd window label a m c :
  cmd ∈ window_names → (cmd ∉ ["get_all_windows"; "create"]) →
  match label with
  | None => True
  | Some l =>
      if decide (l = "") then window_plugin cmd window label a m c = window_plugin cmd window None a m c
      else match m_windows m !! l with
           | Some w => window_plugin cmd window label a m c = window_plugin cmd w None a m c
           | None => ∃ e, (e = WindowNotFound ∨ e = InvalidArgs) ∧
                       window_plugin cmd window label a m c = Some (Ok (Err e, m, c))
           end
  end.
Proof.
  intros Hin Hn. pose proof (window_command_cases cmd window label a m c Hin Hn) as H. destruct label as [l|]; [|done].
  unfold get_window in H. case_decide; [exact H|]. destruct (m_windows m !! l); [exact H|].
  destruct H as (l' & e & _ & _ & He & Hr). exists e. split; [exact He|exact Hr].
Qed.

(** ** What the commands do *)
Definition log_call (t : tao_id) (s : WindowSetter) (c : Context) : Context :=
  match window_setter s with Some n => call (WindowCall t n) c | None => c end.

(** A setter makes the native call of its message on the window, and no other. *)
Theorem setter_command_calls cmd f a s window m c t :
  find_entry cmd window_setters = Some f → f a = Some s → Runtime.windows c !! w_id window ≫= inner = Some t →
  window_plugin cmd window None a m c = Some (Ok (Ok AUnit, m, log_call t s c)).
Proof.
  intros Hf Ha Ht. apply find_entry_elem in Hf as Hin. unfold window_plugin, on_window.
  assert (find_entry cmd window_getters = None ∧ cmd ≠ "get_all_windows" ∧ cmd ≠ "create") as (Hg & Hn1 & Hn2).
  { assert (Forall (λ e, bool_decide (find_entry e.1 window_getters = None) && negb (bool_decide (e.1 = "get_all_windows"))
                         && negb (bool_decide (e.1 = "create")) = true) window_setters) as H.
    { unfold window_setters. repeat constructor; vm_compute; reflexivity. }
    pose proof (found_action _ _ _ _ H Hf) as Hx. cbn [fst] in Hx. apply andb_true_iff in Hx as [[H1 H2]%andb_true_iff H3].
    apply bool_decide_eq_true in H1. apply negb_true_iff, bool_decide_eq_false in H2, H3. done. }
  rewrite !decide_False, Hg, Hf, Ha by done. cbn [get_window]. unfold dispatch. cbn [run_cmd message posted].
  unfold handle_with, handle_window. rewrite Ht. done.
Qed.

Lemma window_getter_answers id g c t :
  Runtime.windows c !! id ≫= inner = Some t →
  ∃ c', window_getter id g c = Ok (Ok (window_answer (native c) t g), c') ∧
    Runtime.windows c' = Runtime.windows c ∧ native c' = native c ∧ proxy c' = proxy c.
Proof.
  intros Ht. unfold window_getter. cbn [run_cmd message posted channel]. unfold handle_with, handle_window. simpl. rewrite Ht.
  eexists. split; [simpl; unfold recv; simpl; by rewrite lookup_insert_eq|done].
Qed.

(** The double click of a title bar: a window that can be resized is maximized,
    or restored if it is maximized; another one is left as it is. *)
Theorem internal_toggle_flips window m c t :
  Runtime.windows c !! w_id window ≫= inner = Some t →
  ∃ c', internal_toggle_maximize window m c = Ok (Ok AUnit, m, c') ∧ Runtime.windows c' = Runtime.windows c ∧
    native c' = native c ++
      if value_bool (window_answer (native c) t IsResizable)
      then [WindowCall t (tao_set_maximized (negb (value_bool (window_answer (native c) t IsMaximized))))] else [].
Proof.
  intros Ht. unfold internal_toggle_maximize. destruct (window_getter_answers _ IsResizable _ _ Ht) as (c1 & -> & Hw1 & Hn1 & _).
  simpl. destruct (value_bool _); [|exists c1; by rewrite app_nil_r].
  rewrite <- Hw1 in Ht. unfold toggle_maximize. destruct (window_getter_answers _ IsMaximized _ _ Ht) as (c2 & -> & Hw2 & Hn2 & _).
  simpl. rewrite Hn1. unfold dispatch. cbn [run_cmd message posted]. unfold handle_with, handle_window. rewrite Hw2, Ht.
  destruct (value_bool (window_answer (native c) t IsMaximized)); (eexists; split; [done|]); simpl; rewrite Hw2, Hn2, Hn1, Hw1; done.
Qed.

(** Moving a webview to a window that does not exist is answered as if it was
    done. *)
Theorem reparent_to_unknown_succeeds webview window m c :
  m_windows m !! window = None → webview_plugin "reparent" webview None (AWindow window) m c = Some (Ok (Ok AUnit, m, c)).
Proof. intros Hw. unfold webview_plugin, on_a_webview. simpl. unfold reparent_to. by rewrite Hw. Qed.

End Commands.

(** ** Resources

    The tables of the webview, of its window and of the application. *)
Section Close.
Context {Obj : Type}.
Record Tables := mk_tables {
  of_webview : gmap Resources.ResourceId (@State.Boxed Obj);
  of_window : gmap Resources.ResourceId (@State.Boxed Obj);
  of_app : gmap Resources.ResourceId (@State.Boxed Obj);
}.

Definition resources_close (rid : Resources.ResourceId) (t : Tables) : outcome Resources.Error (@State.Boxed Obj) * Tables :=
  let '(result, webview) := Resources.close rid (of_webview t) in
  match result with
  | Err _ =>
      let '(result, window) := Resources.close rid (of_window t) in
      match result with
      | Err _ =>
          let '(result, app) := Resources.close rid (of_app t) in
          (result, mk_tables webview window app)
      | _ => (result, mk_tables webview window (of_app t))
      end
  | _ => (result, mk_tables webview (of_window t) (of_app t))
  end.

(** A resource is closed in the first of the tables that has it, and only
    there; a resource that none of them has is an error that changes nothing. *)
Theorem resources_close_first rid t :
  match of_webview t !! rid, of_window t !! rid, of_app t !! rid with
  | Some r, _, _ => resources_close rid t = (Ok r, mk_tables (delete rid (of_webview t)) (of_window t) (of_app t))
  | None, Some r, _ => resources_close rid t = (Ok r, mk_tables (of_webview t) (delete rid (of_window t)) (of_app t))
  | None, None, Some r => resources_close rid t = (Ok r, mk_tables (of_webview t) (of_window t) (delete rid (of_app t)))
  | None, None, None => resources_close rid t = (Err (Resources.BadResourceId rid), t)
  end.
Proof.
  unfold resources_close, Resources.close.
  destruct (of_webview t !! rid) eqn:H1; [done|]. simpl. rewrite (delete_id _ _ H1).
  destruct (of_window t !! rid) eqn:H2; [done|]. simpl. rewrite (delete_id _ _ H2).
  destruct (of_app t !! rid) eqn:H3; [done|]. simpl. rewrite (delete_id _ _ H3). by destruct t.
Qed.
End Close.

(** ** Examples *)
#[local] Existing Instances Runtime.ex_types Runtime.ex_good Windows.ex_unicode Windows.ex_hooks.
#[local] Instance ex_command_lib : CommandLib := {|
  value_bool v := bool_decide (v = "answer");
  package_name := "demo";
  progress_bar a _ := a;
|}.

Definition ex_manager : Manager := Windows.ex_built.1.
Definition ex_context : Context := Windows.ex_built.2.
Definition ex_main : Window := default (mk_win "main" 0%N) (m_windows ex_manager !! "main").

Lemma window_command_addressed_witness :
  window_plugin "set_title" (mk_win "other" 7%N) (Some "main") (AText "Home") ex_manager ex_context =
    window_plugin "set_title" ex_main None (AText "Home") ex_manager ex_context.
Proof.
  apply (window_command_addressed "set_title" (mk_win "other" 7%N) (Some "main") (AText "Home") ex_manager ex_context);
    refine (bool_decide_unpack _ _); vm_compute; exact I.
Defined.

Lemma internal_toggle_flips_witness :
  ∃ c, internal_toggle_maximize ex_main ex_manager ex_context = Ok (Ok AUnit, ex_manager, c) ∧
    native c = native ex_context ++ [WindowCall Windows.ex_tao (tao_set_maximized false)].
Proof.
  destruct (internal_toggle_flips ex_main ex_manager ex_context Windows.ex_tao) as (c & Hc & _ & Hn); [vm_compute; reflexivity|].
  exists c. split; [exact Hc|exact Hn].
Defined.

End CoreCommands.
