(* ===== verification/Commands.v ===== *)
(** * Commands

    Models what the attribute [command] and the macro [generate_handler] of
    [tauri-macros/Source/command] make of the functions of an application, and
    the code they rely on: the arguments of [tauri/Source/ipc/command.rs] and the
    resolver of [tauri/Source/ipc/mod.rs]. A function is its signature and what
    it computes; what a type reads from JSON and the change of case of names are
    parameters. The handler that is generated is one that [on_message] calls. *)
From Stdlib Require Import Ascii.
From S2P Require Import Prelude Identifier Acl Resolved State Authority Numbers Channel Ipc.
Import Acl Resolved.

(** [serde] for the types of arguments, [heck] for the case of names. *)
Class ArgLib {WL : WebLib} := {
  (** a value that is passed to a function *)
  Val : Type;
  (** the type of an argument *)
  ArgType : Type;
  json_get : JsonValue → string → option JsonValue;
  deserialize : ArgType → JsonValue → string + Val;
  (** what an optional type reads from nothing, and the type of texts *)
  none_value : ArgType → Val;
  deserialize_string : JsonValue → string + string;
  channel_value : Channel.CallbackFn → Val;
  to_lower_camel_case : string → string;
  to_snake_case : string → string;
}.

Module Commands.
Import Authority Ipc.

Section Commands.
Context {GL : GlobLib} {UL : UrlPatternLib} {UR : UrlLib UL} {WL : WebLib} {HL : HttpLib} {AL : ArgLib}.
Context {Obj : Type} (state_value : Obj → Val).

(** ** Signatures *)
Inductive Pat :=
| PatIdent (ident : string)
| PatWild
| PatStruct (path : list string)
| PatTupleStruct (path : list string)
| PatOther.

(** The types of arguments: those that are read from the message, and those with
    a [CommandArg] of their own. [KContext] stands for the handles, the window,
    the webview and the request, which a message always gives. *)
Inductive Kind :=
| KDeserialize (optional : bool) (type : ArgType)
| KState (type : State.TypeId)
| KChannel
| KWebviewWindow (of_message : Val)
| KContext (of_message : Val)
| KScope (of_acl : option (list (ResolvedCommand GL UL)) → option string → JsonValue + Val).

Inductive FnArg :=
| Receiver
| Typed (pat : Pat) (kind : Kind) (has_reference : bool).

(** The value of a function: one with a body, which may fail to be serialized,
    or a result of it. *)
Inductive Returned :=
| Value (body : string + Channel.InvokeResponseBody)
| Result_ (r : JsonValue + (string + Channel.InvokeResponseBody)).

Record ItemFn := mk_fn {
  fn_ident : string;
  inputs : list FnArg;
  asyncness : bool;
  returns_type : bool;
  fn_body : list Val → Returned;
}.

(** ** Attributes of the macro

    The value of an attribute is a text, or something else. *)
Inductive ExecutionContext := Async | Blocking.
Inductive ArgumentCase := Snake | Camel.

Inductive WrapperAttributeKind :=
| MetaList
| MetaNameValue (path : string) (value : option string)
| MetaPath
| MetaAsync.

Record WrapperAttributes := mk_attrs {
  execution_context : ExecutionContext;
  argument_case : ArgumentCase;
}.

(** A compilation error. *)
Abbreviation Compile := (outcome string).

Definition quoted (s : string) : string := String "034"%char (s +:+ String "034"%char EmptyString).

Definition parse_attribute (a : WrapperAttributes) (k : WrapperAttributeKind) : Compile WrapperAttributes :=
  match k with
  | MetaList => Err "unexpected list input"
  | MetaNameValue path value =>
      if decide (path = "rename_all") then
        match value with
        | Some value =>
            if decide (value = "snake_case") then Ok (mk_attrs (execution_context a) Snake)
            else if decide (value = "camelCase") then Ok (mk_attrs (execution_context a) Camel)
            else Err ("expected " +:+ quoted "camelCase" +:+ " or " +:+ quoted "snake_case")
        | None => Ok a
        end
      else Ok a
  | MetaPath => Err "unexpected input, expected one of `rename_all`, `root`, `async`"
  | MetaAsync => Ok (mk_attrs Async (argument_case a))
  end.

Definition parse_attributes (l : list WrapperAttributeKind) : Compile WrapperAttributes :=
  for_each parse_attribute l (mk_attrs Blocking Camel).

(** ** Arguments of the wrapper *)
Record CommandItem := mk_item {
  item_plugin : option string;
  item_name : string;
  item_key : string;
}.

Definition path_to_command (path : list string) : Compile string :=
  match last path with Some s => Ok s | None => Panic "parsed syn::Path has no segment" end.

Definition pattern_key (pat : Pat) : Compile string :=
  match pat with
  | PatIdent ident => Ok (default ident (strip_prefix "r#" ident))
  | PatWild => Ok ""
  | PatStruct path | PatTupleStruct path => path_to_command path
  | PatOther => Err "only named, wildcard, struct, and tuple struct arguments allowed"
  end.

Definition parse_arg (plugin_name : option string) (attributes : WrapperAttributes) (command : string) (arg : FnArg)
    : Compile (CommandItem * Kind) :=
  match arg with
  | Receiver => Err "unable to use self as a command function parameter"
  | Typed pat kind _ =>
      key ← pattern_key pat;
      if decide (key = "self") then Err "unable to use self as a command function parameter"
      else
        let key := match argument_case attributes with Camel => to_lower_camel_case key | Snake => to_snake_case key end in
        Ok (mk_item plugin_name command key, kind)
  end.

Definition parse_args (plugin_name : option string) (attributes : WrapperAttributes) (f : ItemFn)
    : Compile (list (CommandItem * Kind)) :=
  collect (parse_arg plugin_name attributes (fn_ident f)) (inputs f).

(** The code of a wrapper, after the attribute was expanded. *)
Record Wrapper := mk_wrapper {
  context : ExecutionContext;
  args : list (CommandItem * Kind);
  function : ItemFn;
}.

Definition has_ref_argument (f : ItemFn) : bool :=
  existsb (λ a, match a with Typed _ _ b => b | Receiver => false end) (inputs f).

(** [pkg_name] is the package that is compiled. *)
Definition wrapper (pkg_name : string) (attributes : list WrapperAttributeKind) (f : ItemFn) : Compile Wrapper :=
  attrs ← parse_attributes attributes;
  let attrs := if asyncness f then mk_attrs Async (argument_case attrs) else attrs in
  if asyncness f && has_ref_argument f && negb (returns_type f)
  then Err "async commands that contain references as inputs must return a `Result`"
  else
    args ← parse_args (strip_prefix "tauri-plugin-" pkg_name) attrs f;
    Ok (mk_wrapper (execution_context attrs) args f).

Definition is_rustc_at_least (version : N * N) (major minor : N) : bool :=
  (major <=? version.1)%N && (minor <=? version.2)%N.

(** ** Reading an argument *)
Record InvokeMessage := mk_message {
  message_command : string;
  message_payload : InvokeBody;
  message_state : gmap State.TypeId (@State.Boxed Obj);
  in_webview_window : bool;
}.

Definition InvalidArgs (item : CommandItem) (e : string) : JsonValue :=
  json_string ("invalid args `" +:+ item_key item +:+ "` for command `" +:+ item_name item +:+ "`: " +:+ e).

Definition bytes_payload (item : CommandItem) : string :=
  "command " +:+ item_name item +:+ " expected a value for key " +:+ item_key item +:+
  " but the IPC call used a bytes payload".

(** The deserializer of a [CommandItem]: [pass!], and [deserialize_option]. *)
Definition pass {A} (item : CommandItem) (payload : InvokeBody) (read : JsonValue → string + A) : string + A :=
  if decide (item_key item = "") then
    inl ("command " +:+ item_name item +:+ " has an argument with no name with a non-optional value")
  else
    match payload with
    | BodyRaw _ => inl (bytes_payload item)
    | BodyJson v =>
        match json_get v (item_key item) with
        | Some value => read value
        | None => inl ("command " +:+ item_name item +:+ " missing required key " +:+ item_key item)
        end
    end.

Definition deserialize_option (item : CommandItem) (payload : InvokeBody) (t : ArgType) : string + Val :=
  match payload with
  | BodyRaw _ => inl (bytes_payload item)
  | BodyJson v =>
      match json_get v (item_key item) with
      | Some value => deserialize t value
      | None => inr (none_value t)
      end
  end.

Definition invalid {A} (item : CommandItem) (r : string + A) : JsonValue + A :=
  match r with inl e => inl (InvalidArgs item e) | inr v => inr v end.

Definition from_command (m : InvokeMessage) (acl : option (list (ResolvedCommand GL UL))) (item : CommandItem) (k : Kind)
    : JsonValue + Val :=
  match k with
  | KDeserialize true t => invalid item (deserialize_option item (message_payload m) t)
  | KDeserialize false t => invalid item (pass item (message_payload m) (deserialize t))
  | KState T =>
      match State.try_get T (message_state m) with
      | Some s => inr (state_value s)
      | None => inl (json_string ("state not managed for field `" +:+ item_key item +:+ "` on command `" +:+
                       item_name item +:+ "`. You must call `.manage()` before using this command"))
      end
  | KChannel =>
      match invalid item (pass item (message_payload m) deserialize_string) with
      | inl e => inl e
      | inr value =>
          match Channel.JavaScriptChannelId_from_str value with
          | Ok id => inr (channel_value id)
          | _ => inl (json_string ("invalid channel value `" +:+ value +:+ "`, expected a string in the `" +:+
                        Channel.IPC_PAYLOAD_PREFIX +:+ "ID` format"))
          end
      end
  | KWebviewWindow w =>
      if in_webview_window m then inr w else inl (json_string "current webview is not a WebviewWindow")
  | KContext v => inr v
  | KScope f => f acl (item_plugin item)
  end.

(** The arguments in their order; the first one that fails ends the reading. *)
Fixpoint read_args (m : InvokeMessage) (acl : option (list (ResolvedCommand GL UL))) (l : list (CommandItem * Kind))
    : JsonValue + list Val :=
  match l with
  | [] => inr []
  | (item, k) :: l =>
      match from_command m acl item k with
      | inl e => inl e
      | inr v => match read_args m acl l with inl e => inl e | inr vs => inr (v :: vs) end
      end
  end.

(** ** Answering *)

(** [InvokeResponse::from] of a result, and the futures of the tags. *)
Definition response_of (r : Returned) : InvokeResponse :=
  match r with
  | Value (inl e) | Result_ (inr (inl e)) => ResponseErr (json_string e)
  | Value (inr b) | Result_ (inr (inr b)) => ResponseOk b
  | Result_ (inl e) => ResponseErr e
  end.

(** The resolver of an invocation: the answers so far. [return_result] takes the
    responder, which is there once. *)
Definition return_result (answers : list InvokeResponse) (r : InvokeResponse) : outcome Empty_set (list InvokeResponse) :=
  match answers with [] => Ok [r] | _ => Panic "resolver consumed" end.

(** What the wrapper does: it answers at once, or leaves a task to do so. *)
Inductive Running := Answered (answers : list InvokeResponse) | Spawned (task : InvokeResponse).

Definition run_wrapper (w : Wrapper) (m : InvokeMessage) (acl : option (list (ResolvedCommand GL UL)))
    : outcome Empty_set Running :=
  let response := match read_args m acl (args w) with
                  | inl e => ResponseErr e
                  | inr vs => response_of (fn_body (function w) vs)
                  end in
  match context w with
  | Blocking => answers ← return_result [] response; Ok (Answered answers)
  | Async => Ok (Spawned response)
  end.

(** The task of an asynchronous command, run to its end. *)
Definition finish (r : Running) : outcome Empty_set (list InvokeResponse) :=
  match r with
  | Answered answers => Ok answers
  | Spawned response => return_result [] response
  end.

(** [generate_handler]: the paths of the commands with the wrappers they name.
    The answer is whether the command is known, and what runs. *)
Definition Handler : Type := list (list string * Wrapper).

Definition command_of (path : list string) : string := default "" (last path).

Fixpoint find_wrapper (h : Handler) (cmd : string) : option Wrapper :=
  match h with
  | [] => None
  | (path, w) :: h => if decide (command_of path = cmd) then Some w else find_wrapper h cmd
  end.

Definition handle (h : Handler) (m : InvokeMessage) (acl : option (list (ResolvedCommand GL UL)))
    : outcome Empty_set (bool * option Running) :=
  match find_wrapper h (message_command m) with
  | Some w => r ← run_wrapper w m acl; Ok (true, Some r)
  | None => Ok (false, None)
  end.

(** The handler as [on_message] sees it. *)
Definition as_invoke_handler (h : Handler) (state : gmap State.TypeId (@State.Boxed Obj)) (in_webview_window : bool) (i : Invoke)
    : Handled :=
  match handle h (mk_message (invoke_command i) (invoke_payload i) state in_webview_window) (invoke_acl i) with
  | Ok (known, Some (Answered answers)) => mk_handled known (head answers)
  | Ok (known, _) => mk_handled known None
  | _ => mk_handled false None
  end.

(** * Proofs *)

(** ** Arguments *)
Lemma read_args_ok m acl l vs :
  read_args m acl l = inr vs ↔ Forall2 (λ a v, from_command m acl a.1 a.2 = inr v) l vs.
Proof.
  revert vs. induction l as [|[item k] l IH]; intros vs; cbn [read_args].
  - split; [intros [= <-]; constructor|by inversion 1].
  - destruct (from_command m acl item k) as [e|v] eqn:E.
    + split; [done|]. inversion 1; simplify_eq/=. congruence.
    + split.
      * destruct (read_args m acl l) as [e|ws] eqn:R; [done|]. intros [= <-]. constructor; [done|]. by apply IH.
      * inversion 1 as [|? v' ? ws H1 H2]; simplify_eq/=. apply IH in H2. rewrite H2. congruence.
Qed.

(** The error is the one of the first argument that cannot be read. *)
Lemma read_args_err m acl l e :
  read_args m acl l = inl e ↔
  ∃ l1 item k l2, l = l1 ++ (item, k) :: l2 ∧ from_command m acl item k = inl e ∧
    Forall (λ a, ∃ v, from_command m acl a.1 a.2 = inr v) l1.
Proof.
  induction l as [|[item k] l IH]; cbn [read_args].
  - split; [done|]. by intros ([|] & ? & ? & ? & ? & _).
  - destruct (from_command m acl item k) as [e'|v] eqn:E.
    + split.
      * intros [= ->]. exists [], item, k, l. auto.
      * intros ([|a l1] & item' & k' & l2 & Hl & He & Hf); simplify_eq/=; [congruence|].
        apply Forall_cons in Hf as [[? ?] _]. simpl in *. congruence.
    + split.
      * destruct (read_args m acl l) as [e'|vs]; [|done]. intros [= ->].
        destruct (proj1 IH eq_refl) as (l1 & item' & k' & l2 & -> & He & Hf).
        exists ((item, k) :: l1), item', k', l2. split_and!; [done|done|]. constructor; [|done]. by exists v.
      * intros ([|a l1] & item' & k' & l2 & Hl & He & Hf); simplify_eq/=; [congruence|].
        apply Forall_cons in Hf as [_ Hf].
        assert (read_args m acl (l1 ++ (item', k') :: l2) = inl e) as -> by (apply IH; eauto 10). done.
Qed.

Definition case_of (attributes : WrapperAttributes) (key : string) : string :=
  match argument_case attributes with Camel => to_lower_camel_case key | Snake => to_snake_case key end.

(** ** Functions that are commands *)

(** What the wrapper answers. *)
Definition wrapper_response (w : Wrapper) (m : InvokeMessage) (acl : option (list (ResolvedCommand GL UL))) : InvokeResponse :=
  match read_args m acl (args w) with
  | inl e => ResponseErr e
  | inr vs => response_of (fn_body (function w) vs)
  end.

Lemma run_wrapper_spec w m acl :
  run_wrapper w m acl =
  Ok (match context w with Blocking => Answered [wrapper_response w m acl] | Async => Spawned (wrapper_response w m acl) end).
Proof. unfold run_wrapper, wrapper_response. by destruct (context w). Qed.

Lemma wrapper_spec pkg attributes f w :
  wrapper pkg attributes f = Ok w →
  ∃ attrs, parse_attributes attributes = Ok attrs ∧ function w = f ∧
    parse_args (strip_prefix "tauri-plugin-" pkg) attrs f = Ok (args w).
Proof.
  intros (attrs & Ha & H)%bind_ok. exists attrs. split; [done|].
  destruct (asyncness f && _ && _); [done|]. apply bind_ok in H as (l & Hl & [= <-]). simpl. split; [done|].
  rewrite <- Hl. unfold parse_args. by destruct (asyncness f).
Qed.

(** C23. A function whose arguments are all in the message is called with them, each
    read under its name in the case of the attribute, and the one answer of the
    invocation is what the function returned. *)
Theorem command_called pkg attributes attrs f w m acl v vs :
  parse_attributes attributes = Ok attrs → wrapper pkg attributes f = Ok w → message_payload m = BodyJson v →
  Forall2 (λ a x, ∃ ident t r value, a = Typed (PatIdent ident) (KDeserialize false t) r ∧
     strip_prefix "r#" ident = None ∧ case_of attrs ident ≠ "" ∧
     json_get v (case_of attrs ident) = Some value ∧ deserialize t value = inr x) (inputs f) vs →
  ∃ r, run_wrapper w m acl = Ok r ∧ finish r = Ok [response_of (fn_body f vs)].
Proof.
  intros Ha Hw Hm Hvs. destruct (wrapper_spec _ _ _ _ Hw) as (attrs' & Ha' & Hf & Hargs). rewrite Ha in Ha'. simplify_eq.
  assert (read_args m acl (args w) = inr vs) as Hr.
  { apply read_args_ok. unfold parse_args in Hargs. apply collect_ok in Hargs. revert vs Hvs.
    induction Hargs as [|a [item k] l l' Hp Hl IH]; intros vs Hvs; inversion Hvs as [|? x ? vs' Hx Hrest]; subst; [constructor|].
    constructor; [|by apply IH]. destruct Hx as (ident & t & r & value & -> & Hraw & Hne & Hg & Hd).
    unfold parse_arg, pattern_key in Hp. rewrite Hraw in Hp. cbn [from_option mbind outcome_bind] in Hp. case_decide; [done|]. injection Hp as <- <-.
    change (match argument_case attrs' with Snake => to_snake_case ident | Camel => to_lower_camel_case ident end)
      with (case_of attrs' ident). cbn [fst snd from_command]. unfold pass. cbn [item_key item_name]. rewrite decide_False by done.
    by rewrite Hm, Hg, Hd. }
  eexists. rewrite run_wrapper_spec. split; [done|]. unfold wrapper_response. rewrite Hr. by destruct (context w).
Qed.

(** An argument that is read from the message has no value when the message has
    raw bytes for a payload. *)
Theorem raw_payload_refused w m acl b item o t :
  message_payload m = BodyRaw b → (item, KDeserialize o t) ∈ args w → ∃ e, wrapper_response w m acl = ResponseErr e.
Proof.
  intros Hm Hin. unfold wrapper_response. destruct (read_args m acl (args w)) as [e|vs] eqn:E; [by exists e|].
  apply read_args_ok in E. apply list_elem_of_lookup in Hin as [i Hi].
  destruct (Forall2_lookup_l _ _ _ _ _ E Hi) as (v & _ & Hv). cbn [fst snd from_command] in Hv. rewrite Hm in Hv.
  destruct o; cbn in Hv; [done|]. unfold pass in Hv. by case_decide.
Qed.

(** ** The handler of an application *)

(** A message of the application is answered once: with the answer of the
    command that its name stands for, at once or by the task of an asynchronous
    command, or with a refusal if there is no such command. *)
Theorem app_message_answered_once fuel (m : Manager GL UL Obj) ext h state ww w request b :
  let i := mk_invoke (cmd request) (body request) (headers request)
             (resolve_access (runtime_authority m) (cmd request) (window_label w) (label w) (acl_origin b (url request))) in
  let msg := mk_message (cmd request) (body request) state ww in
  is_local_url m (url request) = Ok b → invoke_key request = manager_invoke_key m →
  plugin_command (cmd request) = None → has_app_manifest (runtime_authority m) = false ∨ invoke_acl i ≠ None →
  on_message fuel m ext (as_invoke_handler h state ww) w request =
  Ok (CallApp i ::
      match find_wrapper h (cmd request) with
      | None => [Respond (ResponseErr (json_string ("Command " +:+ cmd request +:+ " not found")))]
      | Some x => match context x with Blocking => [Respond (wrapper_response x msg (invoke_acl i))] | Async => [] end
      end).
Proof.
  intros i msg Hl Hk Hp Ha. unfold on_message. rewrite Hl. cbn [mbind outcome_bind]. rewrite decide_False by auto.
  rewrite Hp. cbn [bool_decide]. fold i.
  assert ((bool_decide (is_Some (@None (string * string))) || has_app_manifest (runtime_authority m)) &&
     negb (bool_decide (cmd request = Channel.FETCH_CHANNEL_DATA_COMMAND)) && bool_decide (invoke_acl i = None) = false) as Hc.
  { rewrite bool_decide_false by by intros [? ?]. destruct Ha as [->|Ha]; [done|].
    rewrite (bool_decide_false (invoke_acl i = None)) by done. by rewrite andb_false_r. }
  change (resolve_access _ _ _ _ _) with (invoke_acl i) in Hc |- *.
  rewrite Hc. unfold after_call, as_invoke_handler, handle. cbn [invoke_command invoke_payload invoke_acl message_command].
  change (invoke_command i) with (cmd request). change (invoke_payload i) with (body request). fold msg.
  change (message_command msg) with (cmd request).
  destruct (find_wrapper h (cmd request)) as [x|]; [|done]. rewrite run_wrapper_spec. by destruct (context x).
Qed.

(** Two commands of one name: the first one is called for both. *)
Theorem first_command_wins path path' x x' h cmd :
  command_of path = cmd → command_of path' = cmd → find_wrapper ((path, x) :: (path', x') :: h) cmd = Some x.
Proof. intros H1 H2. cbn [find_wrapper]. by rewrite decide_True. Qed.

(** ** Limits *)

(** The documentation of [WebviewWindow::from_command] says that it never
    fails; it fails for a webview of a window with other webviews. *)
Theorem webview_window_argument_fails m acl item v :
  in_webview_window m = false →
  from_command m acl item (KWebviewWindow v) = inl (json_string "current webview is not a WebviewWindow").
Proof. intros H. cbn [from_command]. by rewrite H. Qed.

(** The next major version of the compiler counts as an older one. *)
Theorem next_major_version_too_old : is_rustc_at_least (2, 0)%N 1 78 = false.
Proof. reflexivity. Qed.

End Commands.

(** ** Examples *)
#[local] Existing Instances literal_glob literal_url Channel.ascii_http Ipc.literal_url_lib Ipc.text_web.
#[local] Instance ex_args : ArgLib := {|
  Val := string; ArgType := ();
  json_get v k := if decide (k = "name") then Some v else None;
  deserialize _ v := inr v; none_value _ := ""; deserialize_string v := inr v; channel_value _ := "channel";
  to_lower_camel_case k := k; to_snake_case k := k;
|}.

Definition ex_fn : ItemFn :=
  mk_fn "greet" [Typed (PatIdent "name") (KDeserialize false ()) false] false true
    (λ vs, Value (inr (Channel.Json (default "" (head vs))))).
Definition ex_wrapper : Wrapper := mk_wrapper Blocking [(mk_item None "greet" "name", KDeserialize false ())] ex_fn.
Definition ex_message : InvokeMessage (Obj := Acl.Value) := mk_message "greet" (BodyJson ("[]" : JsonValue)) ∅ true.

Definition ex_state (_ : Acl.Value) : Val := "".

Lemma command_called_witness :
  ∃ r, run_wrapper ex_state ex_wrapper ex_message None = Ok r ∧
    finish r = Ok [ResponseOk (Channel.Json "[]")].
Proof.
  apply (command_called ex_state "app" [] (mk_attrs Blocking Camel) ex_fn ex_wrapper ex_message None "[]" ["[]"]).
  - reflexivity.
  - reflexivity.
  - reflexivity.
  - constructor; [|constructor]. exists "name", (), false, "[]". split_and!; try reflexivity. discriminate.
Defined.

Lemma app_message_answered_once_witness :
  on_message 3 Ipc.ex_manager Ipc.ex_plugin (as_invoke_handler ex_state [(["greet"], ex_wrapper)] ∅ true) Ipc.ex_webview
    (Ipc.ex_request "greet" "key") =
  Ok [CallApp (mk_invoke "greet" (BodyJson ("[]" : JsonValue)) (headers (Ipc.ex_request "greet" "key")) None);
      Respond (ResponseOk (Channel.Json "[]"))].
Proof.
  refine (app_message_answered_once ex_state 3 Ipc.ex_manager Ipc.ex_plugin [(["greet"], ex_wrapper)] ∅ true Ipc.ex_webview
    (Ipc.ex_request "greet" "key") true _ _ _ _).
  - vm_compute. reflexivity.
  - reflexivity.
  - reflexivity.
  - left. vm_compute. reflexivity.
Defined.

End Commands.
