(* ===== verification/Bundler.v ===== *)
(** * The bundler

    Models [tauri-bundler/Source/bundle/settings.rs], [category.rs],
    [bundle.rs] and [updater_bundle.rs] on a Linux host: what is bundled, from
    which files, in which order, and what becomes an update. A path is the list
    of its components, so that equal lists are equal [PathBuf]s. The packagers
    that write a package are the class [Packagers]: those of Linux are in
    [LinuxPackages], that of NSIS calls an external program. *)
From Stdlib Require Import Ascii QArith.
From S2P Require Import Prelude Acl Paths BuildSupport MigrateConfig BundleResources.
Import Paths.

(** The package [strsim]: the similarity of two texts, a double. *)
Class SimilarityLib := { jaro_winkler : string → string → Q }.

Module Bundler.
#[local] Open Scope stdpp_scope.
#[local] Open Scope nat_scope.

Abbreviation PathBuf := (list Component).

(** ** Paths *)

(** [Path::join] on components: a leading dot is kept only at the start. *)
Definition join_path (p q : PathBuf) : PathBuf :=
  match p, q with
  | [], _ => q
  | _, RootDir :: _ => q
  | _, CurDir :: q => p ++ q
  | _, _ => p ++ q
  end.
Definition join (p : PathBuf) (s : string) : PathBuf := join_path p (components s).

(** [rsplit_file_at_dot]: the stem and the extension of a file name. *)
Definition split_name (n : string) : string * option string :=
  match rev (split_on "." n) with
  | ext :: ((_ :: _) as stems) =>
      let stem := String.concat "." (rev stems) in
      if decide (stem = "") then (n, None) else (stem, Some ext)
  | _ => (n, None)
  end.

Definition path_file_name (p : PathBuf) : option string :=
  match last p with Some (Normal n) => Some n | _ => None end.
Definition path_extension (p : PathBuf) : option string := n ← path_file_name p; (split_name n).2.
Definition path_file_stem (p : PathBuf) : option string := (λ n, (split_name n).1) <$> path_file_name p.

Definition with_name (p : PathBuf) (n : string) : PathBuf := take (length p - 1) p ++ [Normal n].

(** [Path::with_extension]: a path without a file name stays as it is. *)
Definition with_extension (p : PathBuf) (ext : string) : PathBuf :=
  match path_file_stem p with
  | Some stem => with_name p (if decide (ext = "") then stem else stem +:+ "." +:+ ext)
  | None => p
  end.

(** [Path::with_file_name]. *)
Definition with_file_name (p : PathBuf) (n : string) : PathBuf :=
  match path_file_name p with
  | Some _ => join (take (length p - 1) p) n
  | None => join p n
  end.

(** [Path::ends_with], by components. *)
Definition path_ends_with (p q : PathBuf) : bool := bool_decide (q `suffix_of` p).

(** ** Package types *)
Inductive PackageType := MacOsBundle | IosBundle | WindowsMsi | Nsis | Deb | Rpm | AppImage | Dmg | UpdaterPackage.

#[global] Instance PackageType_eq_dec : EqDecision PackageType.
Proof. solve_decision. Defined.

(** [BundleType] and [BundleTarget] of the configuration. *)
Inductive BundleType := TDeb | TRpm | TAppImage | TMsi | TNsis | TApp | TDmg.
Inductive BundleTarget := TargetAll | TargetList (l : list BundleType) | TargetOne (t : BundleType).

Definition BundleType_all : list BundleType := [TDeb; TRpm; TAppImage; TMsi; TNsis; TApp; TDmg].

Definition BundleType_to_string (t : BundleType) : string :=
  match t with
  | TDeb => "deb" | TRpm => "rpm" | TAppImage => "appimage" | TMsi => "msi" | TNsis => "nsis" | TApp => "app" | TDmg => "dmg"
  end.

Definition BundleType_deserialize (s : string) : outcome string BundleType :=
  let t := AclBuild.to_lowercase s in
  if decide (t = "deb") then Ok TDeb
  else if decide (t = "rpm") then Ok TRpm
  else if decide (t = "appimage") then Ok TAppImage
  else if decide (t = "msi") then Ok TMsi
  else if decide (t = "nsis") then Ok TNsis
  else if decide (t = "app") then Ok TApp
  else if decide (t = "dmg") then Ok TDmg
  else Err ("unknown bundle target '" +:+ s +:+ "'").

(** [BundleTargetInner] is untagged: a list of types, a type, or any text. *)
Inductive TargetValue := ListValue (l : list string) | TextValue (s : string).

Definition BundleTarget_deserialize (v : TargetValue) : outcome string BundleTarget :=
  match v with
  | ListValue l =>
      match collect BundleType_deserialize l with
      | Ok ts => Ok (TargetList ts)
      | _ => Err "data did not match any variant of untagged enum BundleTargetInner"
      end
  | TextValue s =>
      match BundleType_deserialize s with
      | Ok t => Ok (TargetOne t)
      | _ =>
          if decide (AclBuild.to_lowercase s = "all") then Ok TargetAll
          else Err ("invalid bundle type " +:+ s +:+ ", expected one of `all`, " +:+
                    String.concat ", " ((λ t, "`" +:+ BundleType_to_string t +:+ "`") <$> BundleType_all))
      end
  end.

Definition BundleTarget_serialize (t : BundleTarget) : TargetValue :=
  match t with
  | TargetAll => TextValue "all"
  | TargetList l => ListValue (BundleType_to_string <$> l)
  | TargetOne t => TextValue (BundleType_to_string t)
  end.

Definition BundleTarget_to_vec (t : BundleTarget) : list BundleType :=
  match t with TargetAll => BundleType_all | TargetList l => l | TargetOne t => [t] end.

Definition PackageType_from (t : BundleType) : PackageType :=
  match t with
  | TDeb => Deb | TRpm => Rpm | TAppImage => AppImage | TMsi => WindowsMsi | TNsis => Nsis | TApp => MacOsBundle | TDmg => Dmg
  end.

Definition from_short_name (name : string) : option PackageType :=
  if decide (name = "deb") then Some Deb
  else if decide (name = "ios") then Some IosBundle
  else if decide (name = "msi") then Some WindowsMsi
  else if decide (name = "nsis") then Some Nsis
  else if decide (name = "app") then Some MacOsBundle
  else if decide (name = "rpm") then Some Rpm
  else if decide (name = "appimage") then Some AppImage
  else if decide (name = "dmg") then Some Dmg
  else if decide (name = "updater") then Some UpdaterPackage
  else None.

Definition short_name (t : PackageType) : string :=
  match t with
  | Deb => "deb" | IosBundle => "ios" | WindowsMsi => "msi" | Nsis => "nsis" | MacOsBundle => "app" | Rpm => "rpm"
  | AppImage => "appimage" | Dmg => "dmg" | UpdaterPackage => "updater"
  end.

(** [ALL_PACKAGE_TYPES] on Linux. *)
Definition ALL_PACKAGE_TYPES : list PackageType := [Deb; Rpm; AppImage; UpdaterPackage].

Definition priority (t : PackageType) : nat :=
  match t with Dmg => 1 | UpdaterPackage => 2 | _ => 0 end.

(** ** Categories *)
Inductive AppCategory :=
| Business | DeveloperTool | Education | Entertainment | Finance | Game | ActionGame | AdventureGame | ArcadeGame
| BoardGame | CardGame | CasinoGame | DiceGame | EducationalGame | FamilyGame | KidsGame | MusicGame | PuzzleGame
| RacingGame | RolePlayingGame | SimulationGame | SportsGame | StrategyGame | TriviaGame | WordGame
| GraphicsAndDesign | HealthcareAndFitness | Lifestyle | Medical | Music | News | Photography | Productivity
| Reference | SocialNetworking | Sports | Travel | Utility | Video | Weather.

#[global] Instance AppCategory_eq_dec : EqDecision AppCategory.
Proof. solve_decision. Defined.

Definition MACOS_APP_CATEGORY_PREFIX : string := "public.app-category.".

Definition canonical (c : AppCategory) : string :=
  match c with
  | Business => "Business" | DeveloperTool => "Developer Tool" | Education => "Education"
  | Entertainment => "Entertainment" | Finance => "Finance" | Game => "Game" | ActionGame => "Action Game"
  | AdventureGame => "Adventure Game" | ArcadeGame => "Arcade Game" | BoardGame => "Board Game"
  | CardGame => "Card Game" | CasinoGame => "Casino Game" | DiceGame => "Dice Game"
  | EducationalGame => "Educational Game" | FamilyGame => "Family Game" | KidsGame => "Kids Game"
  | MusicGame => "Music Game" | PuzzleGame => "Puzzle Game" | RacingGame => "Racing Game"
  | RolePlayingGame => "Role-Playing Game" | SimulationGame => "Simulation Game" | SportsGame => "Sports Game"
  | StrategyGame => "Strategy Game" | TriviaGame => "Trivia Game" | WordGame => "Word Game"
  | GraphicsAndDesign => "Graphics and Design" | HealthcareAndFitness => "Healthcare and Fitness"
  | Lifestyle => "Lifestyle" | Medical => "Medical" | Music => "Music" | News => "News"
  | Photography => "Photography" | Productivity => "Productivity" | Reference => "Reference"
  | SocialNetworking => "Social Networking" | Sports => "Sports" | Travel => "Travel" | Utility => "Utility"
  | Video => "Video" | Weather => "Weather"
  end.

Definition freedesktop_categories (c : AppCategory) : string :=
  match c with
  | Business => "Office;" | DeveloperTool => "Development;" | Education => "Education;" | Entertainment => "Network;"
  | Finance => "Office;Finance;" | Game => "Game;" | ActionGame => "Game;ActionGame;"
  | AdventureGame => "Game;AdventureGame;" | ArcadeGame => "Game;ArcadeGame;" | BoardGame => "Game;BoardGame;"
  | CardGame => "Game;CardGame;" | CasinoGame => "Game;" | DiceGame => "Game;" | EducationalGame => "Game;Education;"
  | FamilyGame => "Game;" | KidsGame => "Game;KidsGame;" | MusicGame => "Game;" | PuzzleGame => "Game;LogicGame;"
  | RacingGame => "Game;" | RolePlayingGame => "Game;RolePlaying;" | SimulationGame => "Game;Simulation;"
  | SportsGame => "Game;SportsGame;" | StrategyGame => "Game;StrategyGame;" | TriviaGame => "Game;"
  | WordGame => "Game;" | GraphicsAndDesign => "Graphics;" | HealthcareAndFitness => "Science;"
  | Lifestyle => "Education;" | Medical => "Science;MedicalSoftware;" | Music => "AudioVideo;Audio;Music;"
  | News => "Network;News;" | Photography => "Graphics;Photography;" | Productivity => "Office;"
  | Reference => "Education;" | SocialNetworking => "Network;" | Sports => "Education;Sports;"
  | Travel => "Education;" | Utility => "Utility;" | Video => "AudioVideo;Video;" | Weather => "Science;"
  end.

Definition macos_application_category_type (c : AppCategory) : string :=
  match c with
  | Business => "public.app-category.business" | DeveloperTool => "public.app-category.developer-tools"
  | Education => "public.app-category.education" | Entertainment => "public.app-category.entertainment"
  | Finance => "public.app-category.finance" | Game => "public.app-category.games"
  | ActionGame => "public.app-category.action-games" | AdventureGame => "public.app-category.adventure-games"
  | ArcadeGame => "public.app-category.arcade-games" | BoardGame => "public.app-category.board-games"
  | CardGame => "public.app-category.card-games" | CasinoGame => "public.app-category.casino-games"
  | DiceGame => "public.app-category.dice-games" | EducationalGame => "public.app-category.educational-games"
  | FamilyGame => "public.app-category.family-games" | KidsGame => "public.app-category.kids-games"
  | MusicGame => "public.app-category.music-games" | PuzzleGame => "public.app-category.puzzle-games"
  | RacingGame => "public.app-category.racing-games" | RolePlayingGame => "public.app-category.role-playing-games"
  | SimulationGame => "public.app-category.simulation-games" | SportsGame => "public.app-category.sports-games"
  | StrategyGame => "public.app-category.strategy-games" | TriviaGame => "public.app-category.trivia-games"
  | WordGame => "public.app-category.word-games" | GraphicsAndDesign => "public.app-category.graphics-design"
  | HealthcareAndFitness => "public.app-category.healthcare-fitness" | Lifestyle => "public.app-category.lifestyle"
  | Medical => "public.app-category.medical" | Music => "public.app-category.music"
  | News => "public.app-category.news" | Photography => "public.app-category.photography"
  | Productivity => "public.app-category.productivity" | Reference => "public.app-category.reference"
  | SocialNetworking => "public.app-category.social-networking" | Sports => "public.app-category.sports"
  | Travel => "public.app-category.travel" | Utility => "public.app-category.utilities"
  | Video => "public.app-category.video" | Weather => "public.app-category.weather"
  end.

Definition CATEGORY_STRINGS : list (string * AppCategory) :=
  [("actiongame", ActionGame); ("actiongames", ActionGame); ("adventuregame", AdventureGame);
   ("adventuregames", AdventureGame); ("arcadegame", ArcadeGame); ("arcadegames", ArcadeGame);
   ("boardgame", BoardGame); ("boardgames", BoardGame); ("business", Business); ("cardgame", CardGame);
   ("cardgames", CardGame); ("casinogame", CasinoGame); ("casinogames", CasinoGame); ("developer", DeveloperTool);
   ("developertool", DeveloperTool); ("developertools", DeveloperTool); ("development", DeveloperTool);
   ("dicegame", DiceGame); ("dicegames", DiceGame); ("education", Education); ("educationalgame", EducationalGame);
   ("educationalgames", EducationalGame); ("entertainment", Entertainment); ("familygame", FamilyGame);
   ("familygames", FamilyGame); ("finance", Finance); ("fitness", HealthcareAndFitness); ("game", Game);
   ("games", Game); ("graphicdesign", GraphicsAndDesign); ("graphicsanddesign", GraphicsAndDesign);
   ("graphicsdesign", GraphicsAndDesign); ("healthcareandfitness", HealthcareAndFitness);
   ("healthcarefitness", HealthcareAndFitness); ("kidsgame", KidsGame); ("kidsgames", KidsGame);
   ("lifestyle", Lifestyle); ("logicgame", PuzzleGame); ("medical", Medical); ("medicalsoftware", Medical);
   ("music", Music); ("musicgame", MusicGame); ("musicgames", MusicGame); ("news", News);
   ("photography", Photography); ("productivity", Productivity); ("puzzlegame", PuzzleGame);
   ("puzzlegames", PuzzleGame); ("racinggame", RacingGame); ("racinggames", RacingGame); ("reference", Reference);
   ("roleplaying", RolePlayingGame); ("roleplayinggame", RolePlayingGame); ("roleplayinggames", RolePlayingGame);
   ("rpg", RolePlayingGame); ("simulationgame", SimulationGame); ("simulationgames", SimulationGame);
   ("socialnetwork", SocialNetworking); ("socialnetworking", SocialNetworking); ("sports", Sports);
   ("sportsgame", SportsGame); ("sportsgames", SportsGame); ("strategygame", StrategyGame);
   ("strategygames", StrategyGame); ("travel", Travel); ("triviagame", TriviaGame); ("triviagames", TriviaGame);
   ("utilities", Utility); ("utility", Utility); ("video", Video); ("weather", Weather); ("wordgame", WordGame);
   ("wordgames", WordGame)].

Definition without_char (c : ascii) (s : string) : string := of_bytes (filter (.≠ c) (bytes s)).

(** The input in lower case, without the prefix of macOS, spaces and hyphens. *)
Definition canonical_input (input : string) : string :=
  let input := AclBuild.to_lowercase input in
  without_char "-" (without_char " " (default input (strip_prefix MACOS_APP_CATEGORY_PREFIX input))).

(** 0.8 as a double. *)
Definition CONFIDENCE_THRESHOLD : Q := 3602879701896397 # 4503599627370496.

Section Category.
Context {SL : SimilarityLib}.

Fixpoint find_category (input : string) (l : list (string * AppCategory)) (best_confidence : Q)
    (best_category : option AppCategory) : option AppCategory + AppCategory :=
  match l with
  | [] => inl best_category
  | (string, category) :: l =>
      if decide (input = string) then inr category
      else
        let confidence := jaro_winkler input string in
        if Qle_bool CONFIDENCE_THRESHOLD confidence && negb (Qle_bool confidence best_confidence)
        then find_category input l confidence (Some category)
        else find_category input l best_confidence best_category
  end.

(** [AppCategory::from_str]: the category, or the closest text if any. *)
Definition category_from_str (input : string) : outcome (option string) AppCategory :=
  match find_category (canonical_input input) CATEGORY_STRINGS 0 None with
  | inr c => Ok c
  | inl best => Err (canonical <$> best)
  end.

End Category.

(** ** Settings *)
#[global] Instance Component_countable : Countable Component.
Proof.
  refine (inj_countable'
    (λ c, match c with RootDir => inl (inl ()) | CurDir => inl (inr ()) | ParentDir => inr (inl ()) | Normal s => inr (inr s) end)
    (λ c, match c with inl (inl _) => RootDir | inl (inr _) => CurDir | inr (inl _) => ParentDir | inr (inr s) => Normal s end) _).
  by intros [].
Defined.

Abbreviation FileMap := (gmap PathBuf PathBuf).

Record PackageSettings := mk_package {
  product_name : string;
  version : string;
  description : string;
  package_homepage : option string;
  authors : option (list string);
  default_run : option string;
}.

Record UpdaterSettings := mk_updater {
  v1_compatible : bool;
  pubkey : string;
  msiexec_args : list string;
}.

Record DebianSettings := mk_deb {
  deb_depends : option (list string);
  deb_recommends : option (list string);
  deb_provides : option (list string);
  deb_conflicts : option (list string);
  deb_replaces : option (list string);
  deb_files : FileMap;
  deb_desktop_template : option PathBuf;
  deb_section : option string;
  deb_priority : option string;
  deb_changelog : option PathBuf;
  deb_pre_install_script : option PathBuf;
  deb_post_install_script : option PathBuf;
  deb_pre_remove_script : option PathBuf;
  deb_post_remove_script : option PathBuf;
}.

Record AppImageSettings := mk_appimage {
  appimage_files : FileMap;
  bundle_media_framework : bool;
  bundle_xdg_open : bool;
}.

Inductive RpmCompression := Gzip (level : Z) | Zstd (level : Z) | Xz (level : Z) | Bzip2 (level : Z) | NoCompression.

Record RpmSettings := mk_rpm {
  rpm_depends : option (list string);
  rpm_recommends : option (list string);
  rpm_provides : option (list string);
  rpm_conflicts : option (list string);
  rpm_obsoletes : option (list string);
  rpm_release : string;
  rpm_epoch : Z;
  rpm_files : FileMap;
  rpm_desktop_template : option PathBuf;
  rpm_pre_install_script : option PathBuf;
  rpm_post_install_script : option PathBuf;
  rpm_pre_remove_script : option PathBuf;
  rpm_post_remove_script : option PathBuf;
  rpm_compression : option RpmCompression;
}.

Inductive WebviewInstallMode :=
| SkipInstall
| DownloadBootstrapper (silent : bool)
| EmbedBootstrapper (silent : bool)
| OfflineInstaller (silent : bool)
| FixedRuntime (path : PathBuf).

Inductive BundleTypeRole := Editor | Viewer | Shell | QLGenerator | NoRole.

Record FileAssociation := mk_association {
  assoc_ext : list string;
  assoc_name : option string;
  assoc_description : option string;
  assoc_role : BundleTypeRole;
  assoc_mime_type : option string;
}.

Record DeepLinkProtocol := mk_deep_link {
  schemes : list string;
  link_name : option string;
  link_role : BundleTypeRole;
}.

(** The settings of macOS and of the installers of Windows are copied from the
    configuration for packagers that are not modelled: of them only the mode of
    the webview installation is used here. *)
Record BundleSettings := mk_bundle {
  identifier : option string;
  publisher : option string;
  homepage : option string;
  icon : option (list string);
  resources : option (list string);
  resources_map : option (list (string * string));
  copyright : option string;
  license : option string;
  license_file : option PathBuf;
  category : option AppCategory;
  file_associations : option (list FileAssociation);
  bundle_short_description : option string;
  bundle_long_description : option string;
  external_bin : option (list string);
  bundle_deep_links : option (list DeepLinkProtocol);
  deb : DebianSettings;
  appimage : AppImageSettings;
  rpm : RpmSettings;
  updater : option UpdaterSettings;
  webview_install_mode : WebviewInstallMode;
}.

(** ** Binaries *)
Record BundleBinary := mk_binary {
  name : string;
  main : bool;
  src_path : option string;
}.

Definition BundleBinary_new (name : string) (main : bool) : BundleBinary := mk_binary name main None.
Definition set_main (main : bool) (b : BundleBinary) : BundleBinary := mk_binary (name b) main (src_path b).
Definition set_name (name : string) (b : BundleBinary) : BundleBinary := mk_binary name (main b) (src_path b).

Inductive Arch := X86_64 | X86 | AArch64 | Armhf | Armel | Universal.
Inductive Level := LevelError | LevelWarn | LevelInfo | LevelDebug | LevelTrace.

#[global] Instance Level_eq_dec : EqDecision Level.
Proof. solve_decision. Defined.

Record Settings := mk_settings {
  log_level : Level;
  package : PackageSettings;
  requested_types : option (list PackageType);
  project_out_directory : PathBuf;
  local_tools_directory : option PathBuf;
  bundle_settings : BundleSettings;
  binaries : list BundleBinary;
  target : string;
}.

(** [SettingsBuilder]: what was set before [build]. *)
Record SettingsBuilder := mk_builder {
  b_log_level : option Level;
  b_out_directory : option PathBuf;
  b_package_types : option (list PackageType);
  b_package_settings : option PackageSettings;
  b_bundle_settings : BundleSettings;
  b_binaries : list BundleBinary;
  b_target : option string;
  b_tools_directory : option PathBuf;
}.

Inductive BundleError :=
| GenericError (text : string)
| ArchError (text : string)
| UnableToFindProject
| NoMainBinary
| ResourceError (e : BundleResources.Error)
| NoBundles
| PackagerError (text : string).

Definition with_external_bin (bins : option (list string)) (b : BundleSettings) : BundleSettings :=
  mk_bundle (identifier b) (publisher b) (homepage b) (icon b) (resources b) (resources_map b) (copyright b) (license b)
    (license_file b) (category b) (file_associations b) (bundle_short_description b) (bundle_long_description b) bins
    (bundle_deep_links b) (deb b) (appimage b) (rpm b) (updater b) (webview_install_mode b).

(** [SettingsBuilder::build]; [host] is the answer of [target_triple]. *)
Definition build (host : outcome BundleError string) (b : SettingsBuilder) : outcome BundleError Settings :=
  target ← match b_target b with Some t => Ok t | None => host end;
  package ← ok_or (b_package_settings b) (GenericError "package settings is required");
  out ← ok_or (b_out_directory b) (GenericError "out directory is required");
  let bundle := b_bundle_settings b in
  Ok (mk_settings (default LevelError (b_log_level b)) package (b_package_types b) out (b_tools_directory b)
       (with_external_bin ((λ bins, BundleResources.external_binaries bins target) <$> external_bin bundle) bundle)
       (b_binaries b) target).

Definition binary_arch (s : Settings) : outcome BundleError Arch :=
  if starts_with "x86_64" (target s) then Ok X86_64
  else if starts_with "i" (target s) then Ok X86
  else if starts_with "arm" (target s) && ends_with "hf" (target s) then Ok Armhf
  else if starts_with "arm" (target s) then Ok Armel
  else if starts_with "aarch64" (target s) then Ok AArch64
  else if starts_with "universal" (target s) then Ok Universal
  else Panic ("Unexpected target triple " +:+ target s).

Definition find_main (l : list BundleBinary) : option BundleBinary := head (filter (λ b, main b = true) l).

Definition main_binary (s : Settings) : outcome BundleError BundleBinary := ok_or (find_main (binaries s)) NoMainBinary.
Definition main_binary_name (s : Settings) : outcome BundleError string := name <$> main_binary s.

(** The first binary that is [main], changed in place. *)
Fixpoint update_main (f : BundleBinary → BundleBinary) (l : list BundleBinary) : list BundleBinary :=
  match l with
  | [] => []
  | b :: l => if main b then f b :: l else b :: update_main f l
  end.

(** [std::env::consts::OS] of the host. *)
Definition OS : string := "linux".

Definition third_component (target : string) : string := default OS (split_on "-" target !! 2).
Definition target_os (s : Settings) : string := Migrate.str_replace "darwin" "macos" (third_component (target s)).

Definition binary_path (s : Settings) (binary : BundleBinary) : PathBuf :=
  let path := join (project_out_directory s) (name binary) in
  if decide (third_component (target s) = "windows") then with_extension path "exe" else path.

Definition platform_types (os : string) : outcome BundleError (list PackageType) :=
  if decide (os = "macos") then Ok [MacOsBundle; Dmg]
  else if decide (os = "ios") then Ok [IosBundle]
  else if decide (os = "linux") then Ok [Deb; Rpm; AppImage]
  else if decide (os = "windows") then Ok [WindowsMsi; Nsis]
  else Err (GenericError ("Native " +:+ os +:+ " bundles not yet supported.")).

Definition package_types (s : Settings) : outcome BundleError (list PackageType) :=
  platform_types ← platform_types (target_os s);
  match requested_types s with
  | Some package_types => Ok (filter (λ t, t ∈ platform_types) package_types)
  | None => Ok platform_types
  end.

Definition bundle_identifier (s : Settings) : string := default "" (identifier (bundle_settings s)).

Definition icon_files (s : Settings) : BundleResources.ResourcePathsIter :=
  BundleResources.ResourcePaths_new (default [] (icon (bundle_settings s))) false.

Definition resource_files (s : Settings) : outcome BundleError BundleResources.ResourcePathsIter :=
  match resources (bundle_settings s), resources_map (bundle_settings s) with
  | Some paths, None => Ok (BundleResources.ResourcePaths_new paths true)
  | None, Some map => Ok (BundleResources.from_map map true)
  | Some _, Some _ => Panic "cannot use both `resources` and `resources_map`"
  | None, None => Ok (BundleResources.ResourcePaths_new [] true)
  end.

Definition external_binaries (s : Settings) : BundleResources.ResourcePathsIter :=
  BundleResources.ResourcePaths_new (default [] (external_bin (bundle_settings s))) true.

Definition author_names (s : Settings) : list string := default [] (authors (package s)).
Definition authors_comma_separated (s : Settings) : option string :=
  match author_names s with [] => None | names => Some (String.concat ", " names) end.

Definition homepage_url (s : Settings) : option string :=
  match homepage (bundle_settings s) with Some h => Some h | None => package_homepage (package s) end.

Definition short_description (s : Settings) : string :=
  default (description (package s)) (bundle_short_description (bundle_settings s)).

(** ** Bundling a project *)
Record Bundle := mk_bundled {
  package_type : PackageType;
  bundle_paths : list PathBuf;
}.

(** The packagers: each writes its package and answers with the files of it.
    [nsis_project] is told whether the installer is one of the updater. *)
Class Packagers := {
  deb_project : Settings → outcome BundleError (list PathBuf);
  rpm_project : Settings → outcome BundleError (list PathBuf);
  appimage_project : Settings → outcome BundleError (list PathBuf);
  nsis_project : bool → Settings → outcome BundleError (list PathBuf);
  (** archives of a file, written to a path *)
  create_tar : PathBuf → PathBuf → outcome BundleError ();
  create_zip : PathBuf → PathBuf → outcome BundleError ();
  (** the signing program, and whether it is configured *)
  can_sign : Settings → bool;
  sign : PathBuf → outcome BundleError ();
  (** [TAURI_SKIP_SIDECAR_SIGNATURE_CHECK] *)
  skip_sidecar_signature : bool;
}.

(** [sort_by_key], which is stable. *)
Fixpoint insert_by_key (x : PackageType) (l : list PackageType) : list PackageType :=
  match l with
  | [] => [x]
  | y :: l => if decide (priority x ≤ priority y) then x :: y :: l else y :: insert_by_key x l
  end.
Definition sort_by_priority (l : list PackageType) : list PackageType := foldr insert_by_key [] l.

Definition NSIS_OUTPUT_FOLDER_NAME : string := "nsis".
Definition NSIS_UPDATER_OUTPUT_FOLDER_NAME : string := "nsis-updater".
Definition WIX_OUTPUT_FOLDER_NAME : string := "msi".
Definition WIX_UPDATER_OUTPUT_FOLDER_NAME : string := "msi-updater".

Section Project.
Context {FS : ResourceFs} {PK : Packagers}.

(** A [for] loop over the iterator, to its end. *)
Definition all_of (it : BundleResources.ResourcePathsIter) : outcome BundleError (list BundleResources.Item) :=
  match BundleResources.items (S (length (BundleResources.remaining it))) (3 * BundleResources.weight it + 2) it with
  | Ok l => Ok l
  | Err e => match e with end
  | Panic msg => Panic msg
  | Diverge => Diverge
  end.

Definition item_path (i : BundleResources.Item) : outcome BundleError BundleResources.Resource :=
  match i with inl e => Err (ResourceError e) | inr r => Ok r end.

Definition sign_sidecar (u : ()) (i : BundleResources.Item) : outcome BundleError () :=
  r ← item_path i;
  if skip_sidecar_signature then Ok u else sign (components (BundleResources.path r)).

Definition sign_binaries (s : Settings) : outcome BundleError () :=
  if decide (target_os s = "windows") then
    if can_sign s then
      u ← for_each (λ _ bin, sign (binary_path s bin)) (binaries s) ();
      items ← all_of (external_binaries s);
      for_each sign_sidecar items u
    else Ok ()
  else Ok ().

(** A turn of the loop over the package types. *)
Definition bundle_one (s : Settings) (bundles : list Bundle) (t : PackageType) : outcome BundleError (list Bundle) :=
  if decide (t ∈ package_type <$> bundles) then Ok bundles
  else
    let built paths := Ok (bundles ++ [mk_bundled t paths]) in
    match t with
    | Nsis => nsis_project false s ≫= built
    | Deb => deb_project s ≫= built
    | Rpm => rpm_project s ≫= built
    | AppImage => appimage_project s ≫= built
    | _ => Ok bundles
    end.

Definition has_extension (ext : string) (p : PathBuf) : Prop := path_extension p = Some ext.
#[global] Instance has_extension_dec ext p : Decision (has_extension ext p).
Proof. unfold has_extension. apply _. Defined.

Definition add_suffix (suffix : string) (p : PathBuf) : PathBuf :=
  match path_file_name p with Some n => with_name p (n +:+ suffix) | None => p end.

(** [updater_bundle::bundle_project]. *)
Definition bundle_update_linux (bundles : list Bundle) : outcome BundleError (list PathBuf) :=
  let paths := filter (has_extension "AppImage") (filter (λ b, package_type b = AppImage) bundles ≫= bundle_paths) in
  match paths with
  | source_path :: _ =>
      let archived := add_suffix ".tar.gz" source_path in
      _ ← create_tar source_path archived; Ok [archived]
  | [] => Err UnableToFindProject
  end.

Definition rebuild_installers (s : Settings) (bundles : list Bundle) : outcome BundleError (list PathBuf) :=
  for_each (λ paths b, match package_type b with
                       | Nsis => l ← nsis_project true s; Ok (paths ++ l)
                       | _ => Ok paths
                       end) bundles [].

(** The components of an installer, those of the updater put where the others
    are, and the folder it is in. *)
Definition fold_archived (acc : PathBuf * string) (c : Component) : PathBuf * string :=
  let '(p, b) := acc in
  match c with
  | Normal n =>
      if decide (n = WIX_UPDATER_OUTPUT_FOLDER_NAME ∨ n = NSIS_UPDATER_OUTPUT_FOLDER_NAME) then
        let b := default n (AclBuild.strip_suffix "-updater" n) in (join_path p [Normal b], b)
      else if decide (n = WIX_OUTPUT_FOLDER_NAME ∨ n = NSIS_OUTPUT_FOLDER_NAME) then (join_path p [c], n)
      else (join_path p [c], b)
  | _ => (join_path p [c], b)
  end.

Definition archived_path (source_path : PathBuf) : PathBuf :=
  let '(p, bundle_name) := foldl fold_archived ([], "") source_path in with_extension p (bundle_name +:+ ".zip").

Definition bundle_update_windows (s : Settings) (bundles : list Bundle) : outcome BundleError (list PathBuf) :=
  paths ← match webview_install_mode (bundle_settings s) with
          | OfflineInstaller _ | EmbedBootstrapper _ => rebuild_installers s bundles
          | _ =>
              match filter (λ b, package_type b = WindowsMsi ∨ package_type b = Nsis) bundles ≫= bundle_paths with
              | [] => rebuild_installers s bundles
              | paths => Ok paths
              end
          end;
  collect (λ source, _ ← create_zip source (archived_path source); Ok (archived_path source)) paths.

Definition bundle_update (s : Settings) (bundles : list Bundle) : outcome BundleError (list PathBuf) :=
  if decide (target_os s = "windows") then bundle_update_windows s bundles else bundle_update_linux bundles.

(** The package types an updater package is made for. *)
Definition updates (u : UpdaterSettings) (t : PackageType) : bool :=
  if v1_compatible u
  then match t with AppImage | MacOsBundle | Nsis | WindowsMsi | Deb => true | _ => false end
  else match t with MacOsBundle => true | _ => false end.

Definition bundle_project (s : Settings) : outcome BundleError (list Bundle) :=
  package_types ← package_types s;
  match package_types with
  | [] => Ok []
  | _ =>
      let package_types := sort_by_priority package_types in
      _ ← sign_binaries s;
      bundles ← for_each (bundle_one s) package_types [];
      bundles ← match updater (bundle_settings s) with
                | Some u =>
                    if existsb (updates u) package_types
                    then paths ← bundle_update s bundles; Ok (bundles ++ [mk_bundled UpdaterPackage paths])
                    else Ok bundles
                | None => Ok bundles
                end;
      match bundles with [] => Err NoBundles | _ => Ok bundles end
  end.

End Project.

(** * Proofs *)

(** ** Names *)
Example split_names :
  split_name <$> ["a.b.c"; "app"; ".x"; "x."; "a..b"] =
  [("a.b", Some "c"); ("app", None); (".x", None); ("x", Some ""); ("a.", Some "b")].
Proof. reflexivity. Qed.

(** ** Categories *)
Definition exact (input : string) (l : list (string * AppCategory)) : option AppCategory :=
  snd <$> head (filter (λ e, e.1 = input) l).

Section CategoryProofs.
Context {SL : SimilarityLib}.

Lemma find_category_exact input l b best c : exact input l = Some c → find_category input l b best = inr c.
Proof.
  revert b best. induction l as [|[t x] l IH]; intros b best H; [done|]. cbn [find_category]. unfold exact in H.
  destruct (decide (t = input)) as [->|Hne].
  - rewrite filter_cons_True in H by done. injection H as ->. by rewrite decide_True.
  - rewrite filter_cons_False in H by done. rewrite decide_False by done. destruct (_ && _); by apply IH.
Qed.

Lemma category_exact input c :
  exact (canonical_input input) CATEGORY_STRINGS = Some c → category_from_str input = Ok c.
Proof. intros H. unfold category_from_str. by rewrite (find_category_exact _ _ _ _ c). Qed.

Lemma category_error input t : category_from_str input = Err (Some t) → ∃ c, t = canonical c.
Proof.
  unfold category_from_str. destruct (find_category _ _ _ _) as [[c|]|c]; [|done..]. intros [= <-]. by exists c.
Qed.

(** The name that is shown for a category and its name on macOS are both read as
    that category, and what is suggested for a misspelt one is such a name. *)
Theorem category_names_read :
  (∀ c, category_from_str (canonical c) = Ok c ∧ category_from_str (macos_application_category_type c) = Ok c) ∧
  (∀ input suggestion, category_from_str input = Err (Some suggestion) → ∃ c, category_from_str suggestion = Ok c).
Proof.
  assert (∀ c, category_from_str (canonical c) = Ok c) as Hc.
  { intros c. apply category_exact. destruct c; vm_compute; reflexivity. }
  split; [|intros input t (c & ->)%category_error; by exists c].
  intros c. split; [apply Hc|]. apply category_exact. destruct c; vm_compute; reflexivity.
Qed.

End CategoryProofs.

(** ** Package types *)
Lemma short_name_roundtrip t : from_short_name (short_name t) = Some t.
Proof. by destruct t. Qed.

Lemma BundleType_roundtrip t : BundleType_deserialize (BundleType_to_string t) = Ok t.
Proof. by destruct t. Qed.

(** The targets of a configuration are read back as they were written. *)
Theorem targets_roundtrip t : BundleTarget_deserialize (BundleTarget_serialize t) = Ok t.
Proof.
  destruct t as [|l|t]; [reflexivity| |].
  - cbn [BundleTarget_serialize BundleTarget_deserialize].
    assert (collect BundleType_deserialize (BundleType_to_string <$> l) = Ok l) as ->; [|done].
    apply collect_ok, Forall2_fmap_l, Forall_Forall2_diag, Forall_forall. intros x _. apply BundleType_roundtrip.
  - cbn [BundleTarget_serialize BundleTarget_deserialize]. by rewrite BundleType_roundtrip.
Qed.

(** ** Bundling on Linux *)
Lemma sort_zero l : Forall (λ t, priority t = 0) l → sort_by_priority l = l.
Proof.
  induction 1 as [|t l Ht Hl IH]; [done|]. unfold sort_by_priority in *. cbn [foldr]. rewrite IH.
  destruct l as [|y l]; [done|]. cbn [insert_by_key]. apply Forall_inv in Hl. rewrite decide_True; [done|lia].
Qed.

(** The types in the order of their first request. *)
Fixpoint firsts (seen l : list PackageType) : list PackageType :=
  match l with
  | [] => []
  | t :: l => if decide (t ∈ seen) then firsts seen l else t :: firsts (seen ++ [t]) l
  end.

Lemma firsts_elem l seen t : t ∈ firsts seen l ↔ t ∈ l ∧ t ∉ seen.
Proof.
  revert seen. induction l as [|x l IH]; intros seen; [set_solver|]. cbn [firsts].
  case_decide as Hx.
  - rewrite IH, elem_of_cons. split; [intros [? ?]; auto|]. intros [[->|?] ?]; [done|auto].
  - rewrite elem_of_cons, IH, elem_of_app, list_elem_of_singleton, elem_of_cons.
    destruct (decide (t = x)) as [->|]; naive_solver.
Qed.

Lemma firsts_NoDup l seen : NoDup (firsts seen l).
Proof.
  revert seen. induction l as [|x l IH]; intros seen; [constructor|]. cbn [firsts]. case_decide; [done|].
  constructor; [|done]. rewrite firsts_elem, elem_of_app, list_elem_of_singleton. tauto.
Qed.

Section ProjectProofs.
Context {FS : ResourceFs} {PK : Packagers}.

Definition linux_types : list PackageType := [Deb; Rpm; AppImage].

Definition packager (t : PackageType) (s : Settings) : outcome BundleError (list PathBuf) :=
  match t with Deb => deb_project s | Rpm => rpm_project s | AppImage => appimage_project s | _ => Err NoBundles end.

Lemma bundle_one_linux s bundles t :
  t ∈ linux_types →
  bundle_one s bundles t =
  if decide (t ∈ package_type <$> bundles) then Ok bundles
  else packager t s ≫= λ paths, Ok (bundles ++ [mk_bundled t paths]).
Proof.
  intros Ht. unfold bundle_one. case_decide; [done|]. destruct t; try reflexivity; exfalso; unfold linux_types in Ht; set_solver.
Qed.

Lemma bundle_loop s (paths : PackageType → list PathBuf) l bundles :
  Forall (λ t, t ∈ linux_types ∧ packager t s = Ok (paths t)) l →
  for_each (bundle_one s) l bundles =
  Ok (bundles ++ ((λ t, mk_bundled t (paths t)) <$> firsts (package_type <$> bundles) l)).
Proof.
  intros Hl. revert bundles. induction Hl as [|t l [Ht Hp] Hl IH]; intros bundles.
  - cbn. by rewrite app_nil_r.
  - cbn [for_each firsts]. rewrite bundle_one_linux by done. case_decide; cbn [mbind outcome_bind]; [by rewrite IH|].
    rewrite Hp. cbn [mbind outcome_bind]. rewrite IH, fmap_app. cbn [fmap list_fmap package_type].
    by rewrite <- app_assoc.
Qed.

(** Without an updater, a Linux build gives one bundle for each package type of
    Linux among the requested ones, in the order of the first request, each with
    the files its packager wrote. *)
Theorem linux_bundles_built s types paths :
  target_os s = "linux" → requested_types s = Some types → updater (bundle_settings s) = None →
  filter (λ t, t ∈ linux_types) types ≠ [] →
  (∀ t, t ∈ types → t ∈ linux_types → packager t s = Ok (paths t)) →
  ∃ bundles, bundle_project s = Ok bundles ∧ Forall (λ b, bundle_paths b = paths (package_type b)) bundles ∧
    NoDup (package_type <$> bundles) ∧ (∀ t, t ∈ package_type <$> bundles ↔ t ∈ types ∧ t ∈ linux_types).
Proof.
  intros Hos Hreq Hu Hne Hp. set (l := filter (λ t, t ∈ linux_types) types) in *.
  assert (Forall (λ t, t ∈ linux_types ∧ packager t s = Ok (paths t)) l) as Hl.
  { apply Forall_forall. intros t [Ht Ht']%list_elem_of_filter. split; [done|by apply Hp]. }
  assert (sort_by_priority l = l) as Hs.
  { apply sort_zero. eapply Forall_impl; [exact Hl|]. intros t [Ht _]. unfold linux_types in Ht.
    repeat (apply elem_of_cons in Ht as [->|Ht]; [done|]). by apply not_elem_of_nil in Ht. }
  exists ((λ t, mk_bundled t (paths t)) <$> firsts [] l). split_and!.
  - unfold bundle_project, package_types. rewrite Hos. unfold platform_types. cbn [decide].
    rewrite !decide_False, decide_True by done. cbn [mbind outcome_bind]. rewrite Hreq. cbn [mbind outcome_bind].
    change (filter (λ t, t ∈ [Deb; Rpm; AppImage]) types) with l. destruct l as [|t l'] eqn:El; [done|]. rewrite Hs.
    unfold sign_binaries. rewrite Hos, decide_False by done. cbn [mbind outcome_bind].
    rewrite (bundle_loop s paths) by done. rewrite Hu. done.
  - apply Forall_fmap, Forall_forall. intros t _. done.
  - rewrite <- list_fmap_compose. rewrite list_fmap_id. apply firsts_NoDup.
  - intros t. rewrite <- list_fmap_compose, list_fmap_id, firsts_elem. unfold l. rewrite list_elem_of_filter. set_solver.
Qed.

(** Artifacts for the updater of version 1 are asked for whenever a Debian
    package is built, and made of an AppImage only: without one the whole
    bundling fails after the packages were written. *)
Theorem v1_updater_needs_appimage s u paths :
  target_os s = "linux" → requested_types s = Some [Deb] → updater (bundle_settings s) = Some u →
  v1_compatible u = true → deb_project s = Ok paths → bundle_project s = Err UnableToFindProject.
Proof.
  intros Hos Hreq Hu Hv Hd. unfold bundle_project, package_types. rewrite Hos. unfold platform_types.
  rewrite !decide_False, decide_True by done. cbn [mbind outcome_bind]. rewrite Hreq. cbn [mbind outcome_bind].
  change (filter (λ t, t ∈ [Deb; Rpm; AppImage]) [Deb]) with [Deb]. cbn [sort_by_priority foldr insert_by_key].
  unfold sign_binaries, bundle_update. rewrite Hos, !decide_False by done. cbn [mbind outcome_bind].
  rewrite (bundle_loop s (λ _, paths)) by (constructor; [split; [left|done]|constructor]).
  cbn [mbind outcome_bind]. rewrite Hu. cbn [existsb]. unfold updates. rewrite Hv. reflexivity.
Qed.

End ProjectProofs.

End Bundler.
