(* ===== verification/LinuxPackages.v ===== *)
(** * The packages of Linux

    Models [tauri-bundler/Source/bundle/linux/debian.rs], [rpm.rs], the data of
    [appimage.rs], [freedesktop/mod.rs] and [utils/fs_utils.rs]. What a packager
    writes is a map from the path of a file to its content; the file system it
    reads from, the PNG decoder, the templates and the order of hash maps are
    parameters. The archives themselves and the check sums are not modelled. *)
From Stdlib Require Import Ascii DecimalString.
From S2P Require Import Prelude Acl Paths Numbers MigrateConfig Csp BuildSupport BundleResources Bundler.
Import Paths.

Module LinuxPackages.
Import Bundler.

(** ** Files *)

(** What a file of a package is made of. *)
Inductive Content :=
| CopyOf (src : PathBuf)
| Text (text : string)
| Compressed (src : PathBuf)
| Script (src : PathBuf)
| SymlinkTo (target : PathBuf)
| Directory.

Abbreviation Tree := (gmap PathBuf Content).

Inductive EntryKind := FileEntry | DirEntry | LinkEntry (target : PathBuf).

Record DesktopTemplateParams := mk_params {
  p_categories : string;
  p_comment : option string;
  p_exec : string;
  p_icon : string;
  p_name : string;
  p_mime_type : option string;
  p_long_description : string;
}.

(** The file system, [walkdir], the PNG decoder, [heck] and [handlebars]. *)
Class PackLib := {
  path_exists : PathBuf → bool;
  is_file : PathBuf → bool;
  is_dir : PathBuf → bool;
  (** the entries of a directory, by their paths relative to it; the first is
      the directory itself *)
  walk : PathBuf → list (PathBuf * EntryKind);
  read_to_string : PathBuf → option string;
  png_dimensions : PathBuf → option (N * N);
  to_kebab_case : string → string;
  (** the template of the user, or that of the program *)
  render_desktop : option string → DesktopTemplateParams → option string;
  (** the order in which a hash map is visited *)
  files_order : FileMap → list (PathBuf * PathBuf);
  files_order_perm m : files_order m ≡ₚ map_to_list m;
  (** the size of the files under a directory, in bytes *)
  total_dir_size : Tree → PathBuf → N;
}.

Section Packages.
Context {FS : ResourceFs} {PL : PackLib}.

Definition io_error : BundleError := PackagerError "io".

(** [fs_utils::copy_file]. *)
Definition copy_file (from to : PathBuf) (t : Tree) : outcome BundleError Tree :=
  if negb (path_exists from) then Err (GenericError "does not exist")
  else if negb (is_file from) then Err (GenericError "is not a file")
  else match to with
       | [] | [RootDir] => Panic "No data in parent"
       | _ => Ok (<[to := CopyOf from]> t)
       end.

(** A path that was written, or a directory above one. *)
Definition written (t : Tree) (p : PathBuf) : Prop := Exists (λ kv, p `prefix_of` kv.1) (map_to_list t).
#[global] Instance written_dec t p : Decision (written t p).
Proof. unfold written. apply _. Defined.

Definition copy_entry (from to : PathBuf) (t : Tree) (e : PathBuf * EntryKind) : outcome BundleError Tree :=
  let dest := join_path to e.1 in
  Ok (<[dest := match e.2 with
                | FileEntry => CopyOf (join_path from e.1)
                | DirEntry => Directory
                | LinkEntry target => SymlinkTo target
                end]> t).

(** [fs_utils::copy_dir]. *)
Definition copy_dir (from to : PathBuf) (t : Tree) : outcome BundleError Tree :=
  if negb (path_exists from) then Err (GenericError "does not exist")
  else if negb (is_dir from) then Err (GenericError "is not a Directory")
  else if decide (written t to) then Err (GenericError "already exists")
  else match to with
       | [] | [RootDir] => Panic "No data in parent"
       | _ => for_each (copy_entry from to) (walk from) t
       end.

(** The path in the package, without its root. *)
Definition without_root (p : PathBuf) : PathBuf := match p with RootDir :: p => p | _ => p end.

Definition copy_custom_files (files : FileMap) (data_dir : PathBuf) (t : Tree) : outcome BundleError Tree :=
  for_each (λ t '(pkg_path, path),
    let to := join_path data_dir (without_root pkg_path) in
    if is_file path then copy_file path to t else copy_dir path to t) (files_order files) t.

(** ** Resources and binaries *)

(** [Settings::copy_resources]. *)
Definition copy_resources (s : Settings) (path : PathBuf) (t : Tree) : outcome BundleError Tree :=
  it ← resource_files s;
  items ← all_of it;
  for_each (λ t i, r ← item_path i; copy_file (components (BundleResources.path r)) (join path (BundleResources.target r)) t)
    items t.

(** The name of an external binary in the package: without the target triple. *)
Definition sidecar_name (s : Settings) (src : string) : outcome BundleError string :=
  n ← expect (BundleResources.file_name src) "failed to extract external binary filename";
  Ok (Migrate.str_replace ("-" +:+ target s) "" n).

(** [Settings::copy_binaries]. *)
Definition copy_binaries (s : Settings) (path : PathBuf) (t : Tree) : outcome BundleError Tree :=
  items ← all_of (external_binaries s);
  for_each (λ t i, r ← item_path i;
                   n ← sidecar_name s (BundleResources.path r);
                   copy_file (components (BundleResources.path r)) (join path n) t) items t.

(** ** [freedesktop] *)
Record Icon := mk_icon { width : N; height : N; is_high_density : bool; icon_path : PathBuf }.

Definition is_retina (p : PathBuf) : bool :=
  match path_file_stem p with Some stem => ends_with "@2x" stem | None => false end.

Definition icon_dest (base_dir : PathBuf) (main_binary_name : string) (w h : N) (high_density : bool) : PathBuf :=
  join base_dir (Numbers.print_u32 w +:+ "x" +:+ Numbers.print_u32 h +:+ (if high_density then "@2" else "") +:+ "/apps/" +:+
                 main_binary_name +:+ ".png").

(** Icons are ordered by size and density; those give the path. *)
Definition icon_compare (a b : Icon) : comparison :=
  match (width a ?= width b)%N with
  | Eq => match (height a ?= height b)%N with
          | Eq => match is_high_density a, is_high_density b with
                  | false, true => Lt | true, false => Gt | _, _ => Eq
                  end
          | c => c
          end
  | c => c
  end.

(** [entry(icon).or_insert(src)]. *)
Fixpoint or_insert (i : Icon) (src : PathBuf) (l : list (Icon * PathBuf)) : list (Icon * PathBuf) :=
  match l with
  | [] => [(i, src)]
  | (j, src') :: l' =>
      match icon_compare i j with
      | Lt => (i, src) :: l
      | Eq => l
      | Gt => (j, src') :: or_insert i src l'
      end
  end.

Definition list_icon_files (s : Settings) (data_dir : PathBuf) : outcome BundleError (list (Icon * PathBuf)) :=
  main_binary_name ← main_binary_name s;
  items ← all_of (icon_files s);
  let base_dir := join data_dir "usr/share/icons/hicolor" in
  for_each (λ icons i,
    r ← item_path i;
    let src := components (BundleResources.path r) in
    if decide (path_extension src = Some "png") then
      '(w, h) ← ok_or (png_dimensions src) io_error;
      let d := is_retina src in
      Ok (or_insert (mk_icon w h d (icon_dest base_dir main_binary_name w h d)) src icons)
    else Ok icons) items [].

Definition copy_icon_files (s : Settings) (data_dir : PathBuf) (t : Tree) : outcome BundleError (Tree * list Icon) :=
  icons ← list_icon_files s data_dir;
  t ← for_each (λ t '(i, src), copy_file src (icon_path i) t) icons t;
  Ok (t, icons.*1).

Definition mime_types (s : Settings) : list string :=
  omap assoc_mime_type (default [] (file_associations (bundle_settings s))) ++
  ((λ scheme, "x-scheme-handler/" +:+ scheme) <$> (default [] (bundle_deep_links (bundle_settings s)) ≫= schemes)).

Definition quote (s : string) : string := String "034" (s +:+ String "034" EmptyString).

Definition desktop_params (s : Settings) (bin_name : string) : DesktopTemplateParams :=
  mk_params (match category (bundle_settings s) with Some c => freedesktop_categories c | None => "" end)
    (if decide (short_description s = "") then None else Some (short_description s))
    (if Acl.str_contains " " bin_name then quote bin_name else bin_name) bin_name (product_name (package s))
    (match mime_types s with [] => None | l => Some (String.concat ";" l) end)
    (default "" (bundle_long_description (bundle_settings s))).

(** The path of the desktop file below the root, and its text. *)
Definition desktop_path (s : Settings) : PathBuf :=
  join (components "usr/share/applications") (product_name (package s) +:+ ".desktop").

Definition generate_desktop_file (s : Settings) (template : option PathBuf) (data_dir : PathBuf) (t : Tree)
    : outcome BundleError (Tree * PathBuf * PathBuf) :=
  bin_name ← main_binary_name s;
  let path := desktop_path s in
  let file_path := join_path data_dir path in
  template ← match template with
             | Some p => text ← ok_or (read_to_string p) io_error; Ok (Some text)
             | None => Ok None
             end;
  text ← ok_or (render_desktop template (desktop_params s bin_name)) (PackagerError "template");
  Ok (<[file_path := Text text]> t, file_path, join_path [RootDir] path).

(** ** Debian packages *)
Definition generate_changelog_file (s : Settings) (data_dir : PathBuf) (t : Tree) : outcome BundleError Tree :=
  match deb_changelog (deb (bundle_settings s)) with
  | Some src =>
      if is_file src
      then Ok (<[join data_dir ("usr/share/doc/" +:+ product_name (package s) +:+ "/changelog.gz") := Compressed src]> t)
      else Err io_error
  | None => Ok t
  end.

Definition generate_data (s : Settings) (package_dir : PathBuf) (t : Tree) : outcome BundleError (Tree * PathBuf * list Icon) :=
  let data_dir := join package_dir "data" in
  let bin_dir := join data_dir "usr/bin" in
  t ← for_each (λ t bin, copy_file (binary_path s bin) (join bin_dir (name bin)) t) (binaries s) t;
  t ← copy_resources s (join (join data_dir "usr/lib") (product_name (package s))) t;
  t ← copy_binaries s bin_dir t;
  '(t, icons) ← copy_icon_files s data_dir t;
  '(t, _, _) ← generate_desktop_file s (deb_desktop_template (deb (bundle_settings s))) data_dir t;
  t ← generate_changelog_file s data_dir t;
  Ok (t, data_dir, icons).

Definition newline : string := String "010" EmptyString.

Definition trim (s : string) : string := Csp.trim s.
Definition or_none (s : string) : string := let s := trim s in if decide (s = "") then "(none)" else s.

(** [str::lines]. *)
Definition strip_cr (s : string) : string := default s (AclBuild.strip_suffix (String "013" EmptyString) s).
Definition lines (s : string) : list string :=
  let l := split_on "010" s in
  strip_cr <$> (match last l with Some "" => take (length l - 1) l | _ => l end).

(** A list of packages, if it is not empty. *)
Definition list_field (field : string) (l : option (list string)) : list string :=
  match l with Some ((_ :: _) as l) => [field +:+ ": " +:+ String.concat ", " l] | _ => [] end.
Definition opt_field (field : string) (v : option string) : list string :=
  match v with Some v => [field +:+ ": " +:+ v] | None => [] end.

Definition maintainer (s : Settings) : string :=
  match authors_comma_separated s with
  | Some a => a
  | None => match publisher (bundle_settings s) with
            | Some p => p
            | None => default (bundle_identifier s) (split_on "." (bundle_identifier s) !! 1)
            end
  end.

Definition description_line (line : string) : string :=
  let line := trim line in if decide (line = "") then " ." else " " +:+ line.

(** The lines of the control file. *)
Definition control_lines (s : Settings) (arch : string) (size : N) : list string :=
  let d := deb (bundle_settings s) in
  ["Package: " +:+ to_kebab_case (product_name (package s));
   "Version: " +:+ version (package s);
   "Architecture: " +:+ arch;
   "Installed-Size: " +:+ Numbers.print_u32 (size / 1024)%N;
   "Maintainer: " +:+ maintainer s] ++
  opt_field "Section" (deb_section d) ++
  ["Priority: " +:+ default "optional" (deb_priority d)] ++
  opt_field "Homepage" (homepage_url s) ++
  list_field "Depends" (deb_depends d) ++
  list_field "Recommends" (deb_recommends d) ++
  list_field "Provides" (deb_provides d) ++
  list_field "Conflicts" (deb_conflicts d) ++
  list_field "Replaces" (deb_replaces d) ++
  ["Description: " +:+ or_none (short_description s)] ++
  (description_line <$> lines (or_none (default "" (bundle_long_description (bundle_settings s))))).

Definition writeln (l : list string) : string := foldr (λ line text, line +:+ newline +:+ text) "" l.

Definition generate_control_file (s : Settings) (arch : string) (control_dir data_dir : PathBuf) (t : Tree) : Tree :=
  <[join control_dir "control" := Text (writeln (control_lines s arch (total_dir_size t data_dir)))]> t.

Definition script (control_dir : PathBuf) (n : string) (src : option PathBuf) (t : Tree) : outcome BundleError Tree :=
  match src with
  | Some src => if is_file src then Ok (<[join control_dir n := Script src]> t) else Err io_error
  | None => Ok t
  end.

Definition generate_scripts (s : Settings) (control_dir : PathBuf) (t : Tree) : outcome BundleError Tree :=
  let d := deb (bundle_settings s) in
  t ← script control_dir "preinst" (deb_pre_install_script d) t;
  t ← script control_dir "postinst" (deb_post_install_script d) t;
  t ← script control_dir "prerm" (deb_pre_remove_script d) t;
  script control_dir "postrm" (deb_post_remove_script d) t.

Definition unsupported {A} : outcome BundleError A := Err (ArchError "Unsupported architecture").

Definition deb_arch (a : Arch) : outcome BundleError string :=
  match a with
  | X86_64 => Ok "amd64" | X86 => Ok "i386" | AArch64 => Ok "arm64" | Armhf => Ok "armhf" | Armel => Ok "armel"
  | Universal => unsupported
  end.

Definition deb_base_name (s : Settings) (arch : string) : string :=
  product_name (package s) +:+ "_" +:+ version (package s) +:+ "_" +:+ arch.
Definition deb_base_dir (s : Settings) : PathBuf := join (project_out_directory s) "bundle/deb".
Definition deb_package_dir (s : Settings) (arch : string) : PathBuf := join (deb_base_dir s) (deb_base_name s arch).

(** The package: the files of its data, those of its control directory, and the
    path of the archive made of them. *)
Definition deb_package (s : Settings) : outcome BundleError (Tree * list PathBuf) :=
  arch ← binary_arch s ≫= deb_arch;
  let package_dir := deb_package_dir s arch in
  '(t, data_dir, _) ← generate_data s package_dir ∅;
  t ← copy_custom_files (deb_files (deb (bundle_settings s))) data_dir t;
  let control_dir := join package_dir "control" in
  let t := generate_control_file s arch control_dir data_dir t in
  t ← generate_scripts s control_dir t;
  Ok (t, [join (deb_base_dir s) (deb_base_name s arch +:+ ".deb")]).

(** ** RPM packages *)
Definition rpm_arch (a : Arch) : outcome BundleError string :=
  match a with
  | X86_64 => Ok "x86_64" | X86 => Ok "i386" | AArch64 => Ok "aarch64" | Armhf => Ok "armhfp" | Armel => Ok "armel"
  | Universal => unsupported
  end.

(** [PackageBuilder::with_file] reads the source. *)
Definition with_file (src dest : PathBuf) (t : Tree) : outcome BundleError Tree :=
  if is_file src then Ok (<[dest := CopyOf src]> t) else Err io_error.

Definition rpm_resource (dir : PathBuf) (t : Tree) (i : BundleResources.Item) : outcome BundleError Tree :=
  r ← item_path i;
  with_file (components (BundleResources.path r)) (join dir (BundleResources.resource_relpath (BundleResources.path r))) t.

Definition rpm_custom (t : Tree) (e : PathBuf * PathBuf) : outcome BundleError Tree :=
  let '(rpm_path, src_path) := e in
  if is_file src_path then with_file src_path rpm_path t
  else for_each (λ t entry,
         if is_file (join_path src_path entry.1)
         then with_file (join_path src_path entry.1) (join_path rpm_path entry.1) t
         else Ok t) (walk src_path) t.

(** What is said about the package besides its files. *)
Record RpmMetadata := mk_metadata {
  m_name : string;
  m_version : string;
  m_license : string;
  m_arch : string;
  m_summary : string;
  m_epoch : Z;
  m_release : string;
  m_compression : RpmCompression;
  m_description : option string;
  m_url : option string;
  m_requires : list string;
  m_provides : list string;
  m_recommends : list string;
  m_conflicts : list string;
  m_obsoletes : list string;
}.

Definition rpm_metadata (s : Settings) (arch : string) : RpmMetadata :=
  let r := rpm (bundle_settings s) in
  mk_metadata (to_kebab_case (product_name (package s))) (version (package s)) (default "" (license (bundle_settings s))) arch
    (trim (short_description s)) (rpm_epoch r) (rpm_release r) (default (Gzip 6) (rpm_compression r))
    (bundle_long_description (bundle_settings s)) (homepage_url s) (default [] (rpm_depends r)) (default [] (rpm_provides r))
    (default [] (rpm_recommends r)) (default [] (rpm_conflicts r)) (default [] (rpm_obsoletes r)).

Definition rpm_script (src : option PathBuf) : outcome BundleError (option string) :=
  match src with Some p => text ← ok_or (read_to_string p) io_error; Ok (Some text) | None => Ok None end.

(** The scripts before and after the installation and the removal. *)
Definition rpm_scripts (s : Settings) : outcome BundleError (list (option string)) :=
  let r := rpm (bundle_settings s) in
  collect rpm_script [rpm_pre_install_script r; rpm_post_install_script r; rpm_pre_remove_script r; rpm_post_remove_script r].

(** The files of the package. The desktop file is generated in the directory of
    the package and added from there. *)
Definition rpm_package (s : Settings) : outcome BundleError (Tree * list PathBuf) :=
  arch ← binary_arch s ≫= rpm_arch;
  let base := product_name (package s) +:+ "-" +:+ version (package s) +:+ "-" +:+ rpm_release (rpm (bundle_settings s)) +:+
              "." +:+ arch in
  let base_dir := join (project_out_directory s) "bundle/rpm" in
  let package_dir := join base_dir base in
  let usr_bin := components "/usr/bin" in
  t ← for_each (λ t bin, with_file (binary_path s bin) (join usr_bin (name bin)) t) (binaries s) ∅;
  items ← all_of (external_binaries s);
  t ← for_each (λ t i, r ← item_path i;
                       n ← sidecar_name s (BundleResources.path r);
                       with_file (components (BundleResources.path r)) (join usr_bin n) t) items t;
  _ ← rpm_scripts s;
  it ← resource_files s;
  items ← all_of it;
  let resource_dir := join (components "/usr/lib") (product_name (package s)) in
  t ← match items with
      | [] => Ok t
      | _ => for_each (rpm_resource resource_dir) items (<[resource_dir := Directory]> t)
      end;
  '(d, src, dest) ← generate_desktop_file s (rpm_desktop_template (rpm (bundle_settings s))) package_dir ∅;
  t ← match d !! src with Some c => Ok (<[dest := c]> t) | None => Err io_error end;
  icons ← list_icon_files s [RootDir];
  t ← for_each (λ t '(i, src), with_file src (icon_path i) t) icons t;
  t ← for_each rpm_custom (files_order (rpm_files (rpm (bundle_settings s)))) t;
  Ok (t, [join base_dir (base +:+ ".rpm")]).

(** ** The directory of an AppImage *)

(** The square icon that is used: the last one of the largest. *)
Definition larger_icon (icons : list Icon) : outcome BundleError Icon :=
  expect (foldl (λ best i, match best with
                           | Some b => if (width b <=? width i)%N then Some i else best
                           | None => Some i
                           end) None (filter (λ i, width i = height i) icons))
    "couldn't find a square icon to use as AppImage icon".

(** The programs that are copied besides the data of the package. *)
Definition copy_program (app_dir_usr_bin : PathBuf) (n : string) (t : Tree) : outcome BundleError Tree :=
  let src := join (components "/usr/bin") n in
  if is_file src then Ok (<[join app_dir_usr_bin n := CopyOf src]> t) else Err (PackagerError (n +:+ " binary not found")).

Definition copy_xdg (s : Settings) (app_dir_usr_bin : PathBuf) (t : Tree) : outcome BundleError Tree :=
  t ← (if bool_decide (is_Some (bundle_deep_links (bundle_settings s))) &&
          negb (bool_decide (written t (join app_dir_usr_bin "xdg-open")))
       then copy_program app_dir_usr_bin "xdg-mime" t else Ok t);
  if bundle_xdg_open (appimage (bundle_settings s)) && negb (bool_decide (written t (join app_dir_usr_bin "xdg-open")))
  then copy_program app_dir_usr_bin "xdg-open" t else Ok t.

Definition appimage_arch (a : Arch) : outcome BundleError string :=
  match a with
  | X86_64 => Ok "amd64" | X86 => Ok "i386" | AArch64 => Ok "aarch64" | Armhf => Ok "armhf"
  | Armel | Universal => unsupported
  end.

(** The path of the image. *)
Definition appimage_path (s : Settings) (arch : string) : PathBuf :=
  join (join (project_out_directory s) "bundle/appimage")
    (product_name (package s) +:+ "_" +:+ version (package s) +:+ "_" +:+ arch +:+ ".AppImage").

End Packages.

(** * Proofs *)

(** ** Paths *)

(** A path that is appended by [join_path]. *)
Definition relative (q : PathBuf) : Prop := head q ≠ Some RootDir.
Definition rel (q : PathBuf) : PathBuf := match q with CurDir :: q => q | _ => q end.

Lemma join_relative p q : p ≠ [] → relative q → join_path p q = p ++ rel q.
Proof. destruct p as [|c p]; [done|]. intros _ Hq. by destruct q as [|[] q]. Qed.

Lemma join_ne p q : p ≠ [] → join_path p q ≠ [].
Proof. destruct p as [|c p]; [done|]. by destruct q as [|[] q]. Qed.

Lemma relative_components t : is_absolute t = false → relative (components t).
Proof.
  intros H. unfold relative, components, lead. rewrite H. case_decide; [done|]. cbn [app].
  destruct (body t) as [|c l] eqn:E; [done|]. intros [= ->].
  destruct (body_elements t RootDir) as [?|(x & ? & _)]; [rewrite E; by left|done|done].
Qed.

Lemma join_text p t : p ≠ [] → is_absolute t = false → join p t = p ++ rel (components t).
Proof. intros Hp Ht. by apply join_relative, relative_components. Qed.

Lemma absolute_first c t : c ≠ "/"%char → is_absolute (String c t) = false.
Proof. intros H. unfold is_absolute, starts_with. cbn [strip_prefix]. by rewrite decide_False by congruence. Qed.

Lemma absolute_append a b : a ≠ "" → is_absolute a = false → is_absolute (a +:+ b) = false.
Proof. intros Ha. by rewrite is_absolute_app. Qed.

Lemma no_slash_relative t : "/"%char ∉ bytes t → is_absolute t = false.
Proof. destruct t as [|c t]; [done|]. intros H. apply absolute_first. intros ->. apply H. by left. Qed.

Lemma print_no_slash n : "/"%char ∉ bytes (print_u32 n).
Proof.
  unfold print_u32. assert (∀ d, "/"%char ∉ bytes (NilEmpty.string_of_uint d)) as H.
  { intros d. induction d; simpl; [apply not_elem_of_nil|..]; rewrite not_elem_of_cons; done. }
  unfold NilZero.string_of_uint. pose proof (to_uint_not_nil n). destruct (N.to_uint n); try apply H. done.
Qed.

Lemma print_ne n : print_u32 n ≠ "".
Proof.
  unfold print_u32, NilZero.string_of_uint. pose proof (to_uint_not_nil n). by destruct (N.to_uint n).
Qed.

Lemma name_no_slash n : Paths.name n → "/"%char ∉ bytes n.
Proof.
  intros [Hs _]. unfold segments, split_on in Hs.
  assert (bytes n ∈ split_bytes "/" (bytes n)) as H.
  { destruct (split_bytes "/" (bytes n)) as [|a [|b l]] eqn:E; try done.
    injection Hs as Hs. rewrite <- Hs, bytes_of_bytes. by left. }
  by apply split_bytes_piece in H.
Qed.

Lemma replace_no_slash from n skip : "/"%char ∉ bytes n → "/"%char ∉ bytes (Migrate.replace_from from "" skip n).
Proof.
  revert skip. induction n as [|c n IH]; intros skip H; [by destruct skip|]. cbn [Migrate.replace_from].
  apply not_elem_of_cons in H as [Hc Hn]. destruct skip; [|by apply IH].
  destruct (starts_with _ _); [by apply IH|]. cbn. apply not_elem_of_cons. split; [done|by apply IH].
Qed.

Lemma push_relative p q : is_absolute p = false → is_absolute q = false → is_absolute (push p q) = false.
Proof.
  intros Hp Hq. unfold push. rewrite Hq. case_decide; [done|]. destruct (ends_with _ _); by rewrite is_absolute_app.
Qed.

Lemma relpath_relative p : is_absolute (BundleResources.resource_relpath p) = false.
Proof.
  unfold BundleResources.resource_relpath.
  assert (∀ cs d, (∀ n, Normal n ∈ cs → Paths.name n) → is_absolute d = false →
    is_absolute (foldl BundleResources.push_relpath d cs) = false) as H.
  { induction cs as [|c cs IH]; intros d Hcs Hd; [done|]. cbn [foldl]. apply IH; [intros n Hn; apply Hcs; by right|].
    destruct c; cbn [BundleResources.push_relpath]; try by apply push_relative. done.
    apply push_relative; [done|]. apply name_relative, Hcs. by left. }
  apply H; [|done]. intros n. apply components_normal.
Qed.

(** ** Insertions *)
Definition insert_all (l : list (PathBuf * Content)) (t : Tree) : Tree := foldl (λ t e, <[e.1 := e.2]> t) t l.

Lemma insert_all_cons e l t : insert_all (e :: l) t = insert_all l (<[e.1 := e.2]> t).
Proof. done. Qed.

Lemma insert_all_app l l' t : insert_all (l ++ l') t = insert_all l' (insert_all l t).
Proof. apply foldl_app. Qed.

Lemma insert_all_other l t k : k ∉ l.*1 → insert_all l t !! k = t !! k.
Proof.
  revert t. induction l as [|e l IH]; intros t H; [done|]. apply not_elem_of_cons in H as [He Hl].
  rewrite insert_all_cons, IH by done. by apply lookup_insert_ne.
Qed.

Lemma insert_all_insert l t k v : k ∉ l.*1 → insert_all l (<[k := v]> t) = <[k := v]> (insert_all l t).
Proof.
  revert t. induction l as [|e l IH]; intros t H; [done|]. apply not_elem_of_cons in H as [He Hl].
  rewrite !insert_all_cons, insert_insert_ne by congruence. by apply IH.
Qed.

Lemma insert_all_swap l l' t :
  (∀ k, k ∈ l.*1 → k ∉ l'.*1) → insert_all l' (insert_all l t) = insert_all l (insert_all l' t).
Proof.
  revert t. induction l as [|e l IH]; intros t H; [done|]. rewrite !insert_all_cons.
  rewrite IH by (intros k Hk; apply H; by right). rewrite insert_all_insert; [done|]. apply H. by left.
Qed.

Lemma insert_all_lookup l t t' k : t !! k = t' !! k → insert_all l t !! k = insert_all l t' !! k.
Proof.
  revert t t'. induction l as [|e l IH]; intros t t' H; [done|]. rewrite !insert_all_cons. apply IH.
  destruct (decide (e.1 = k)) as [<-|Hne]; [by rewrite !lookup_insert_eq|by rewrite !lookup_insert_ne].
Qed.

Definition under (d : PathBuf) (l : list (PathBuf * Content)) : list (PathBuf * Content) := (λ e, (d ++ e.1, e.2)) <$> l.

Lemma insert_all_under d l t t' k :
  t !! (d ++ k) = t' !! k → insert_all (under d l) t !! (d ++ k) = insert_all l t' !! k.
Proof.
  revert t t'. induction l as [|e l IH]; intros t t' H; [done|]. cbn [under fmap list_fmap]. rewrite !insert_all_cons. apply IH. cbn [fst snd].
  destruct (decide (e.1 = k)) as [<-|Hne]; [by rewrite !lookup_insert_eq|].
  rewrite !lookup_insert_ne; [done|done|]. intros E%app_inv_head. done.
Qed.

Lemma under_app d l l' : under d (l ++ l') = under d l ++ under d l'.
Proof. apply fmap_app. Qed.

Lemma for_each_inserts {A} (f : Tree → A → outcome BundleError Tree) (e : A → PathBuf * Content) l t t' :
  (∀ t x t', x ∈ l → f t x = Ok t' → t' = <[(e x).1 := (e x).2]> t) →
  for_each f l t = Ok t' → t' = insert_all (e <$> l) t.
Proof.
  intros Hf. revert t. induction l as [|x l IH]; intros t H; [by injection H as <-|].
  cbn [for_each] in H. apply bind_ok in H as (t1 & H1 & H2). apply Hf in H1 as ->; [|by left].
  cbn [fmap list_fmap]. rewrite insert_all_cons. apply IH; [|done]. intros ? ? ? ?. apply Hf. by right.
Qed.

(** ** The files of both packages *)
Section Agreement.
Context {FS : ResourceFs} {FL : BundleResources.ResourceFsLaws} {PL : PackLib}.

Lemma copy_file_inserts from to t t' : copy_file from to t = Ok t' → t' = <[to := CopyOf from]> t.
Proof.
  unfold copy_file. destruct (negb _); [done|]. destruct (negb _); [done|]. destruct to as [|[] []]; by intros [= <-] || done.
Qed.

Lemma with_file_inserts src dest t t' : with_file src dest t = Ok t' → t' = <[dest := CopyOf src]> t.
Proof. unfold with_file. destruct (is_file src); [|done]. by intros [= <-]. Qed.

Lemma all_of_remaining it l :
  BundleResources.current_path it = None → BundleResources.wf it → all_of it = Ok l → l = BundleResources.remaining it.
Proof. intros Hc Hw. unfold all_of. rewrite BundleResources.items_remaining by (done || lia). by intros [= <-]. Qed.

Abbreviation usr_bin := [Normal "usr"; Normal "bin"].
Abbreviation usr_lib := [Normal "usr"; Normal "lib"].
Abbreviation hicolor := [Normal "usr"; Normal "share"; Normal "icons"; Normal "hicolor"].
Abbreviation applications := [Normal "usr"; Normal "share"; Normal "applications"].

Lemma bin_dest (d : PathBuf) n : d ≠ [] → is_absolute n = false → join (join d "usr/bin") n = d ++ usr_bin ++ rel (components n).
Proof.
  intros Hd Hn. rewrite join_text by (try apply join_ne; done). rewrite (join_text d) by done. by rewrite <- app_assoc.
Qed.

(** The files of the groups, by their paths below the root. *)
Definition bin_entry (s : Settings) (b : BundleBinary) : PathBuf * Content :=
  (usr_bin ++ rel (components (name b)), CopyOf (binary_path s b)).

Definition resource_entry (s : Settings) (i : BundleResources.Item) : PathBuf * Content :=
  match i with
  | inr r => (usr_lib ++ rel (components (product_name (package s))) ++ rel (components (BundleResources.target r)),
              CopyOf (components (BundleResources.path r)))
  | inl _ => (usr_lib, Directory)
  end.

Definition sidecar_entry (s : Settings) (i : BundleResources.Item) : PathBuf * Content :=
  match i with
  | inr r => (usr_bin ++ rel (components (match sidecar_name s (BundleResources.path r) with Ok n => n | _ => "" end)),
              CopyOf (components (BundleResources.path r)))
  | inl _ => (usr_bin, Directory)
  end.

Lemma sidecar_relative s p n : sidecar_name s p = Ok n → is_absolute n = false.
Proof.
  unfold sidecar_name. intros (f & Hf & [= <-])%bind_ok. unfold BundleResources.file_name in Hf.
  destruct (last (components p)) as [[| | |x]|] eqn:E; try done. injection Hf as <-.
  apply no_slash_relative, replace_no_slash, name_no_slash, (components_normal p).
  apply last_Some_elem_of in E. done.
Qed.

Lemma entries_under {A} d (e : A → PathBuf * Content) l : (λ x, (d ++ (e x).1, (e x).2)) <$> l = under d (e <$> l).
Proof. unfold under. by rewrite <- list_fmap_compose. Qed.

(** Copies of binaries, resources and external binaries into a directory. *)
Lemma bins_inserted (s : Settings) (d : PathBuf) (f : PathBuf → PathBuf → Tree → outcome BundleError Tree) t t' :
  d ≠ [] → (∀ a b t t', f a b t = Ok t' → t' = <[b := CopyOf a]> t) → Forall (λ b, is_absolute (name b) = false) (binaries s) →
  for_each (λ t bin, f (binary_path s bin) (join (join d "usr/bin") (name bin)) t) (binaries s) t = Ok t' →
  t' = insert_all (under d (bin_entry s <$> binaries s)) t.
Proof.
  intros Hd Hf Hb H. rewrite <- entries_under. eapply for_each_inserts; [|exact H].
  intros t1 b t2 Hin Hc. apply Hf in Hc as ->. rewrite Forall_forall in Hb. by rewrite bin_dest by auto.
Qed.

Lemma sidecars_inserted (s : Settings) (d : PathBuf) (f : PathBuf → PathBuf → Tree → outcome BundleError Tree) items t t' :
  d ≠ [] → (∀ a b t t', f a b t = Ok t' → t' = <[b := CopyOf a]> t) →
  for_each (λ t i, r ← item_path i; n ← sidecar_name s (BundleResources.path r);
     f (components (BundleResources.path r)) (join (join d "usr/bin") n) t) items t = Ok t' →
  t' = insert_all (under d (sidecar_entry s <$> items)) t.
Proof.
  intros Hd Hf H. rewrite <- entries_under. eapply for_each_inserts; [|exact H].
  intros t1 [e|r] t2 Hin Hc; [done|]. cbn [item_path mbind outcome_bind] in Hc. apply bind_ok in Hc as (n & Hn & Hc).
  apply Hf in Hc as ->. cbn [sidecar_entry fst snd]. rewrite Hn.
  by rewrite bin_dest by (try exact (sidecar_relative _ _ _ Hn); done).
Qed.

Lemma resource_dest (d : PathBuf) p n :
  d ≠ [] → is_absolute p = false → is_absolute n = false →
  join (join (join d "usr/lib") p) n = d ++ usr_lib ++ rel (components p) ++ rel (components n).
Proof.
  intros Hd Hp Hn. rewrite join_text; [|by repeat apply join_ne|done].
  rewrite (join_text _ p); [|by apply join_ne|done]. rewrite join_text by done. by rewrite <- !app_assoc.
Qed.

Lemma resources_inserted (s : Settings) (d : PathBuf) (f : PathBuf → PathBuf → Tree → outcome BundleError Tree) (g : BundleResources.Resource → string)
    items t t' :
  d ≠ [] → (∀ a b t t', f a b t = Ok t' → t' = <[b := CopyOf a]> t) → is_absolute (product_name (package s)) = false →
  (∀ r, inr r ∈ items → g r = BundleResources.target r ∧ is_absolute (BundleResources.target r) = false) →
  for_each (λ t i, r ← item_path i;
     f (components (BundleResources.path r)) (join (join (join d "usr/lib") (product_name (package s))) (g r)) t) items t = Ok t' →
  t' = insert_all (under d (resource_entry s <$> items)) t.
Proof.
  intros Hd Hf Hp Hg H. rewrite <- entries_under. eapply for_each_inserts; [|exact H].
  intros t1 [e|r] t2 Hin Hc; [done|]. cbn [item_path mbind outcome_bind] in Hc. apply Hf in Hc as ->.
  destruct (Hg r Hin) as [-> Ha]. by rewrite resource_dest.
Qed.

(** ** Icons *)
Definition at_dir (d : PathBuf) (e : Icon * PathBuf) : Icon * PathBuf :=
  (mk_icon (width e.1) (height e.1) (is_high_density e.1) (d ++ icon_path e.1), e.2).

#[local] Instance at_dir_inj d : Inj (=) (=) (at_dir d).
Proof. intros [[] ?] [[] ?] [= -> -> -> H%app_inv_head ->]. by rewrite H. Qed.

Lemma or_insert_at d i src l :
  or_insert (at_dir d (i, src)).1 src (at_dir d <$> l) = at_dir d <$> or_insert i src l.
Proof.
  induction l as [|[j src'] l IH]; [done|]. cbn [fmap list_fmap or_insert at_dir fst snd].
  change (icon_compare _ _) with (icon_compare i j). destruct (icon_compare i j); [done|done|].
  cbn [fmap list_fmap]. f_equal. exact IH.
Qed.

Lemma or_insert_elem i src l e : e ∈ or_insert i src l → e = (i, src) ∨ e ∈ l.
Proof.
  induction l as [|[j src'] l IH]; cbn [or_insert]; [by intros ->%list_elem_of_singleton; left|].
  destruct (icon_compare i j); [by right|by intros [->|?]%elem_of_cons; auto|].
  intros [->|H]%elem_of_cons; [right; by left|]. destruct (IH H) as [->|?]; [by left|right; by right].
Qed.

Lemma icon_dest_at d n w h b :
  d ≠ [] → ∃ q, icon_dest (join d "usr/share/icons/hicolor") n w h b = d ++ hicolor ++ q ∧
    ∀ d', d' ≠ [] → icon_dest (join d' "usr/share/icons/hicolor") n w h b = d' ++ hicolor ++ q.
Proof.
  intros Hd. set (t := print_u32 w +:+ "x" +:+ print_u32 h +:+ (if b then "@2" else "") +:+ "/apps/" +:+ n +:+ ".png").
  assert (is_absolute t = false) as Ht.
  { apply absolute_append; [apply print_ne|apply no_slash_relative, print_no_slash]. }
  assert (∀ d', d' ≠ [] → icon_dest (join d' "usr/share/icons/hicolor") n w h b = d' ++ hicolor ++ rel (components t)) as H.
  { intros d' Hd'. unfold icon_dest. fold t. rewrite join_text by (try apply join_ne; done).
    rewrite (join_text d') by done. by rewrite <- app_assoc. }
  exists (rel (components t)). split; [by apply H|exact H].
Qed.

(** The icons of a package are the same in every directory. *)
Lemma icons_moved s d d' l :
  d ≠ [] → d' ≠ [] → list_icon_files s d = Ok l →
  ∃ m, l = at_dir d <$> m ∧ list_icon_files s d' = Ok (at_dir d' <$> m) ∧ Forall (λ e, hicolor `prefix_of` icon_path e.1) m.
Proof.
  intros Hd Hd'. unfold list_icon_files. destruct (main_binary_name s) as [n| | |]; try done. cbn [mbind outcome_bind].
  destruct (all_of (icon_files s)) as [items| | |]; try done. cbn [mbind outcome_bind].
  change (@nil (Icon * PathBuf)) with (at_dir d <$> (@nil (Icon * PathBuf))) at 1.
  change (@nil (Icon * PathBuf)) with (at_dir d' <$> (@nil (Icon * PathBuf))) at 2.
  assert (Forall (λ e : Icon * PathBuf, hicolor `prefix_of` icon_path e.1) []) as Hm by constructor.
  revert Hm. generalize (@nil (Icon * PathBuf)) as m. induction items as [|i items IH]; intros m Hm H.
  - injection H as <-. by exists m.
  - cbn [for_each] in *. destruct (item_path i) as [r| | |]; try done. cbn [mbind outcome_bind] in *.
    case_decide; cbn [mbind outcome_bind] in *; [|by apply IH].
    destruct (png_dimensions _) as [[w h]|]; [|done]. cbn [ok_or mbind outcome_bind] in *.
    destruct (icon_dest_at d n w h (is_retina (components (BundleResources.path r))) Hd) as (q & Hq & Hq').
    rewrite (Hq' d' Hd'). rewrite Hq in H.
    set (i0 := mk_icon w h (is_retina (components (BundleResources.path r))) (hicolor ++ q)).
    set (src := components (BundleResources.path r)) in *.
    change (mk_icon w h (is_retina src) (d ++ hicolor ++ q)) with (at_dir d (i0, src)).1 in H.
    change (mk_icon w h (is_retina src) (d' ++ hicolor ++ q)) with (at_dir d' (i0, src)).1.
    rewrite or_insert_at in *. apply IH; [|done].
    apply Forall_forall. intros e [->|He]%or_insert_elem; [by exists q|]. rewrite Forall_forall in Hm. by apply Hm.
Qed.

Definition icon_entry (e : Icon * PathBuf) : PathBuf * Content := (icon_path e.1, CopyOf e.2).

Lemma icons_inserted (d : PathBuf) (f : PathBuf → PathBuf → Tree → outcome BundleError Tree) m t t' :
  (∀ a b t t', f a b t = Ok t' → t' = <[b := CopyOf a]> t) →
  for_each (λ t '(i, src), f src (icon_path i) t) (at_dir d <$> m) t = Ok t' →
  t' = insert_all (under d (icon_entry <$> m)) t.
Proof.
  intros Hf H. apply (for_each_inserts _ icon_entry) in H as ->.
  - unfold under. by rewrite <- !list_fmap_compose.
  - intros t1 [i src] t2 _ Hc. by apply Hf in Hc as ->.
Qed.

(** ** The other files *)

(** A file configured by the user that is put under an absolute path. *)
Definition custom_file (e : PathBuf * PathBuf) : Prop :=
  is_file e.2 = true ∧ ∃ q, e.1 = RootDir :: q ∧ relative q ∧ rel q = q.
Definition custom_entry (e : PathBuf * PathBuf) : PathBuf * Content := (without_root e.1, CopyOf e.2).

Lemma deb_custom_inserted d files t t' :
  d ≠ [] → Forall custom_file (files_order files) → copy_custom_files files d t = Ok t' →
  t' = insert_all (under d (custom_entry <$> files_order files)) t.
Proof.
  intros Hd Hc H. rewrite <- entries_under. eapply for_each_inserts; [|exact H].
  intros t1 [k src] t2 Hin Hf. rewrite Forall_forall in Hc. destruct (Hc _ Hin) as (Hi & q & Hq & Hr & Hq').
  cbn [fst snd] in *. rewrite Hi, Hq in Hf. apply copy_file_inserts in Hf as ->. unfold custom_entry. cbn [fst snd].
  rewrite Hq. cbn [without_root]. by rewrite join_relative, Hq'.
Qed.

Lemma rpm_custom_inserted files t t' :
  Forall custom_file (files_order files) → for_each rpm_custom (files_order files) t = Ok t' →
  t' = insert_all (under [RootDir] (custom_entry <$> files_order files)) t.
Proof.
  intros Hc H. rewrite <- entries_under. eapply for_each_inserts; [|exact H].
  intros t1 [k src] t2 Hin Hf. rewrite Forall_forall in Hc. destruct (Hc _ Hin) as (Hi & q & Hq & _).
  cbn [fst snd] in *. unfold rpm_custom in Hf. rewrite Hi in Hf. apply with_file_inserts in Hf as ->. by rewrite Hq.
Qed.

Lemma desktop_generated s template d t t' file dest :
  d ≠ [] → is_absolute (product_name (package s) +:+ ".desktop") = false →
  generate_desktop_file s template d t = Ok (t', file, dest) →
  ∃ q text, t' = <[d ++ applications ++ q := Text text]> t ∧ file = d ++ applications ++ q ∧ dest = RootDir :: applications ++ q ∧
    ∀ d' t, d' ≠ [] → generate_desktop_file s template d' t =
      Ok (<[d' ++ applications ++ q := Text text]> t, d' ++ applications ++ q, RootDir :: applications ++ q).
Proof.
  intros Hd Hp. assert (desktop_path s = applications ++ rel (components (product_name (package s) +:+ ".desktop"))) as Hq.
  { unfold desktop_path. by rewrite join_text. }
  unfold generate_desktop_file. rewrite Hq. set (q := rel _). clearbody q.
  assert (∀ d, d ≠ [] → join_path d (applications ++ q) = d ++ applications ++ q) as Hj by by intros [].
  destruct (main_binary_name s) as [n| | |]; try done. cbn [mbind outcome_bind].
  destruct template as [p|]; [destruct (read_to_string p) as [text|]; [|done]|]; cbn [ok_or mbind outcome_bind];
    (destruct (render_desktop _ _) as [out|]; [|done]); cbn [ok_or mbind outcome_bind]; intros [= <- <- <-];
    exists q, out; rewrite !Hj by done; (split_and!; [done..|]); intros d' t1 Hd'; by rewrite !Hj.
Qed.

Lemma script_kept d dir n src t t' k : join dir n ≠ d ++ k → script dir n src t = Ok t' → t' !! (d ++ k) = t !! (d ++ k).
Proof.
  intros Hne. unfold script. destruct src as [src|]; [|by intros [= <-]]. destruct (is_file src); [|done]. intros [= <-].
  by apply lookup_insert_ne.
Qed.

Lemma scripts_kept s p t t' k :
  p ≠ [] → generate_scripts s (join p "control") t = Ok t' → t' !! ((p ++ [Normal "data"]) ++ k) = t !! ((p ++ [Normal "data"]) ++ k).
Proof.
  intros Hp. assert (∀ n, is_absolute n = false → join (join p "control") n ≠ (p ++ [Normal "data"]) ++ k) as Hn.
  { intros n Hn. rewrite join_text by (try apply join_ne; done). rewrite (join_text p) by done. rewrite <- !app_assoc.
    intros H%app_inv_head. done. }
  unfold generate_scripts. intros (t1 & H1 & (t2 & H2 & (t3 & H3 & H4)%bind_ok)%bind_ok)%bind_ok.
  rewrite (script_kept _ _ _ _ _ _ _ (Hn "postrm" eq_refl) H4), (script_kept _ _ _ _ _ _ _ (Hn "prerm" eq_refl) H3),
    (script_kept _ _ _ _ _ _ _ (Hn "postinst" eq_refl) H2). exact (script_kept _ _ _ _ _ _ _ (Hn "preinst" eq_refl) H1).
Qed.

Lemma list_resources s l it items r :
  resources (bundle_settings s) = Some l → resources_map (bundle_settings s) = None →
  resource_files s = Ok it → all_of it = Ok items → inr r ∈ items →
  BundleResources.resource_relpath (BundleResources.path r) = BundleResources.target r ∧
  is_absolute (BundleResources.target r) = false.
Proof.
  intros Hl Hm Hit Hi Hr. unfold resource_files in Hit. rewrite Hl, Hm in Hit. injection Hit as <-.
  apply all_of_remaining in Hi as ->; [|done|constructor; [by intros []|by left|by intros []]].
  apply BundleResources.all_items_list in Hr as ->. split; [done|apply relpath_relative].
Qed.

(** What both packages need of the settings. *)
Record plain_settings (s : Settings) : Prop := {
  plain_list : ∃ l, resources (bundle_settings s) = Some l;
  plain_map : resources_map (bundle_settings s) = None;
  plain_changelog : deb_changelog (deb (bundle_settings s)) = None;
  plain_template : deb_desktop_template (deb (bundle_settings s)) = rpm_desktop_template (rpm (bundle_settings s));
  plain_files : deb_files (deb (bundle_settings s)) = rpm_files (rpm (bundle_settings s));
  plain_custom : Forall custom_file (files_order (rpm_files (rpm (bundle_settings s))));
  plain_product : Paths.name (product_name (package s));
  plain_binaries : Forall (λ b, is_absolute (name b) = false) (binaries s);
  plain_out : project_out_directory s ≠ [];
}.

Lemma plain_absolute s : plain_settings s → is_absolute (product_name (package s)) = false.
Proof. intros H. apply name_relative, H. Qed.
Lemma plain_desktop s : plain_settings s → is_absolute (product_name (package s) +:+ ".desktop") = false.
Proof. intros H. apply absolute_append; [apply name_nonempty, H|by apply plain_absolute]. Qed.

(** The files found for the settings, in groups. *)
Record groups (s : Settings) (items sidecars : list BundleResources.Item) (icons : list (Icon * PathBuf)) (q : PathBuf)
    (text : string) : Prop := {
  group_items : ∃ it, resource_files s = Ok it ∧ all_of it = Ok items;
  group_sidecars : all_of (external_binaries s) = Ok sidecars;
  group_icons d : d ≠ [] → list_icon_files s d = Ok (at_dir d <$> icons);
  group_hicolor : Forall (λ e, hicolor `prefix_of` icon_path e.1) icons;
  group_desktop d t : d ≠ [] → generate_desktop_file s (rpm_desktop_template (rpm (bundle_settings s))) d t =
    Ok (<[d ++ applications ++ q := Text text]> t, d ++ applications ++ q, RootDir :: applications ++ q);
}.

Lemma deb_entries s arch t p k :
  plain_settings s → binary_arch s ≫= deb_arch = Ok arch → deb_package s = Ok (t, p) →
  ∃ items sidecars icons q text, groups s items sidecars icons q text ∧
    t !! ((deb_package_dir s arch ++ [Normal "data"]) ++ k) =
    insert_all ((bin_entry s <$> binaries s) ++ (resource_entry s <$> items) ++ (sidecar_entry s <$> sidecars) ++
                (icon_entry <$> icons) ++ [(applications ++ q, Text text)] ++
                (custom_entry <$> files_order (rpm_files (rpm (bundle_settings s))))) ∅ !! k.
Proof.
  intros Hs Harch Hdeb. pose proof (plain_absolute _ Hs) as Hp. set (pd := deb_package_dir s arch).
  assert (pd ≠ []) as Hpd by (unfold pd, deb_package_dir, deb_base_dir; apply join_ne, join_ne, Hs).
  assert (pd ++ [Normal "data"] ≠ []) as Hd by by destruct pd.
  unfold deb_package in Hdeb. rewrite Harch in Hdeb. cbn [mbind outcome_bind] in Hdeb. fold pd in Hdeb.
  apply bind_ok in Hdeb as ([[t6 data] ics] & Hdata & (t7 & Hcustom & (t8 & Hc & [= <- <-])%bind_ok)%bind_ok).
  rewrite (scripts_kept _ _ _ _ k Hpd Hc). clear Hc.
  unfold generate_control_file. rewrite lookup_insert_ne.
  2:{ rewrite join_text by (try apply join_ne; done). rewrite (join_text pd) by done. rewrite <- !app_assoc.
      intros E%app_inv_head. done. }
  unfold generate_data in Hdata. replace (join pd "data") with (pd ++ [Normal "data"]) in Hdata by by rewrite join_text.
  set (d := pd ++ [Normal "data"]) in *.
  apply bind_ok in Hdata as (ta & H1 & (tb & H2 & (tc & H3 & ([td ics'] & H4 & ([[te f] g] & H5 & (tf & H6 & [= -> <- <-])%bind_ok)%bind_ok)%bind_ok)%bind_ok)%bind_ok).
  apply (bins_inserted s d copy_file) in H1; [|done|apply copy_file_inserts|apply Hs].
  unfold copy_resources in H2. apply bind_ok in H2 as (it & Hit & (items & Hitems & H2)%bind_ok).
  destruct (plain_list _ Hs) as [l Hl].
  apply (resources_inserted s d copy_file BundleResources.target) in H2; [|done|apply copy_file_inserts|done|].
  2:{ intros r Hr. split; [done|]. by apply (list_resources s l it items r Hl (plain_map _ Hs)). }
  unfold copy_binaries in H3. apply bind_ok in H3 as (sidecars & Hsidecars & H3).
  apply (sidecars_inserted s d copy_file) in H3; [|done|apply copy_file_inserts].
  unfold copy_icon_files in H4. apply bind_ok in H4 as (icons1 & Hicons & (td' & H4 & [= <- <-])%bind_ok).
  destruct (icons_moved s d d icons1 Hd Hd Hicons) as (icons & -> & _ & Hhi).
  apply (icons_inserted d copy_file) in H4; [|apply copy_file_inserts].
  rewrite (plain_template _ Hs) in H5.
  apply desktop_generated in H5 as (q & text & -> & -> & -> & Hdesk); [|done|by apply plain_desktop].
  unfold generate_changelog_file in H6. rewrite (plain_changelog _ Hs) in H6. injection H6 as <-.
  rewrite (plain_files _ Hs) in Hcustom. apply deb_custom_inserted in Hcustom; [|done|apply Hs].
  exists items, sidecars, icons, q, text. split.
  - split; [by exists it|done| |done|by intros; apply Hdesk].
    intros d' Hd'. by destruct (icons_moved s d d' _ Hd Hd' Hicons) as (m & <-%(inj (fmap (at_dir d))) & ? & _).
  - subst ta tb tc td' t7.
    rewrite <- (insert_all_under d _ ∅ ∅ k) by by rewrite !lookup_empty. rewrite !under_app, !insert_all_app. done.
Qed.

Lemma rpm_entries s t p k items sidecars icons q text :
  plain_settings s → groups s items sidecars icons q text → rpm_package s = Ok (t, p) →
  ∃ dirs, (∀ e, e ∈ dirs → e.1 = usr_lib ++ rel (components (product_name (package s)))) ∧
    t !! (RootDir :: k) =
    insert_all ((bin_entry s <$> binaries s) ++ (sidecar_entry s <$> sidecars) ++ dirs ++ (resource_entry s <$> items) ++
                [(applications ++ q, Text text)] ++ (icon_entry <$> icons) ++
                (custom_entry <$> files_order (rpm_files (rpm (bundle_settings s))))) ∅ !! k.
Proof.
  intros Hs [[it [Hit Hitems]] Hsidecars Hicons _ Hdesk] Hrpm. pose proof (plain_absolute _ Hs) as Hp.
  unfold rpm_package in Hrpm. apply bind_ok in Hrpm as (arch & _ & Hrpm).
  apply bind_ok in Hrpm as (ta & H1 & Hrpm). rewrite Hsidecars in Hrpm. cbn [mbind outcome_bind] in Hrpm.
  apply bind_ok in Hrpm as (tb & H2 & (? & _ & Hrpm)%bind_ok). rewrite Hit in Hrpm. cbn [mbind outcome_bind] in Hrpm.
  rewrite Hitems in Hrpm. cbn [mbind outcome_bind] in Hrpm. apply bind_ok in Hrpm as (tc & H3 & Hrpm).
  rewrite Hdesk in Hrpm by (apply join_ne, join_ne, Hs). cbn [mbind outcome_bind] in Hrpm. rewrite lookup_insert_eq in Hrpm.
  cbn [mbind outcome_bind] in Hrpm. rewrite Hicons in Hrpm by done. cbn [mbind outcome_bind] in Hrpm.
  apply bind_ok in Hrpm as (td & H4 & (te & H5 & [= <- <-])%bind_ok).
  change (components "/usr/bin") with (join [RootDir] "usr/bin") in H1, H2.
  change (components "/usr/lib") with (join [RootDir] "usr/lib") in H3.
  apply (bins_inserted s [RootDir] with_file) in H1; [|done|apply with_file_inserts|apply Hs].
  apply (sidecars_inserted s [RootDir] with_file) in H2; [|done|apply with_file_inserts].
  destruct (plain_list _ Hs) as [l Hl].
  assert (∃ dirs, (∀ e, e ∈ dirs → e.1 = usr_lib ++ rel (components (product_name (package s)))) ∧
    tc = insert_all (under [RootDir] (resource_entry s <$> items)) (insert_all (under [RootDir] dirs) tb)) as (dirs & Hdirs & Htc).
  { destruct items as [|i items]; [injection H3 as <-; exists []; by split; [intros ? ?%not_elem_of_nil|]|].
    apply (resources_inserted s [RootDir] with_file (λ r, BundleResources.resource_relpath (BundleResources.path r))) in H3;
      [|done|apply with_file_inserts|done|intros r Hr; by apply (list_resources s l it (i :: items) r Hl (plain_map _ Hs))].
    exists [(usr_lib ++ rel (components (product_name (package s))), Directory)].
    split; [by intros e ->%list_elem_of_singleton|]. rewrite H3. f_equal.
    rewrite join_text by done. done. }
  apply (icons_inserted [RootDir] with_file) in H4; [|apply with_file_inserts].
  apply rpm_custom_inserted in H5; [|apply Hs]. exists dirs. split; [done|]. subst.
  change (RootDir :: k) with ([RootDir] ++ k).
  rewrite <- (insert_all_under [RootDir] _ ∅ ∅ k) by by rewrite !lookup_empty. rewrite !under_app, !insert_all_app. done.
Qed.

Lemma entries_reordered (B R E I D C dirs : list (PathBuf * Content)) t k :
  (∀ x, x ∈ R.*1 → x ∉ E.*1) → (∀ x, x ∈ I.*1 → x ∉ D.*1) → k ∉ dirs.*1 →
  insert_all (B ++ R ++ E ++ I ++ D ++ C) t !! k = insert_all (B ++ E ++ dirs ++ R ++ D ++ I ++ C) t !! k.
Proof.
  intros HR HI Hk. rewrite !insert_all_app. rewrite (insert_all_swap R E) by done. rewrite (insert_all_swap I D) by done.
  do 4 apply insert_all_lookup. by rewrite (insert_all_other dirs).
Qed.

Lemma resource_key s i x : x ∈ (resource_entry s <$> i).*1 → usr_lib `prefix_of` x.
Proof. rewrite <- list_fmap_compose. intros ([e|r] & -> & _)%list_elem_of_fmap; cbn; [by exists []|by eexists]. Qed.

Lemma sidecar_key s i x : x ∈ (sidecar_entry s <$> i).*1 → usr_bin `prefix_of` x.
Proof. rewrite <- list_fmap_compose. intros ([e|r] & -> & _)%list_elem_of_fmap; cbn; [by exists []|by eexists]. Qed.


End Agreement.

(** ** The control file *)

(** Reading a control file, as Debian does: a line that starts with a space
    continues the field above it, and an empty line would end the paragraph. *)
Definition text_lines (text : string) : list string :=
  let l := split_on "010" text in match last l with Some "" => take (length l - 1) l | _ => l end.

Fixpoint parse_fields (l : list string) (acc : list (string * list string)) : option (list (string * list string)) :=
  match l with
  | [] => Some acc
  | String " " rest :: l =>
      match last acc with
      | Some (n, v) => parse_fields l (take (length acc - 1) acc ++ [(n, v ++ [rest])])
      | None => None
      end
  | line :: l => '(n, v) ← split_once ": " line; parse_fields l (acc ++ [(n, [v])])
  end.
Definition parse_control (text : string) : option (list (string * list string)) := parse_fields (text_lines text) [].

Definition no_newline (s : string) : Prop := "010"%char ∉ bytes s.

Lemma text_lines_writeln l : Forall no_newline l → text_lines (writeln l) = l.
Proof.
  assert (∀ l, Forall no_newline l → split_on "010" (writeln l) = l ++ [""]) as H.
  { clear l. induction 1 as [|x l Hx Hl IH]; [done|]. cbn [writeln foldr app]. change (foldr _ "" l) with (writeln l).
    unfold split_on in *. rewrite !bytes_append. cbn [bytes newline app].
    change (["010"%char] ++ bytes (writeln l)) with ("010"%char :: bytes (writeln l)). rewrite split_bytes_app.
    rewrite split_bytes_single by done. rewrite fmap_app, IH. cbn. by rewrite of_bytes_bytes. }
  intros Hl. unfold text_lines. rewrite H by done. rewrite last_snoc, length_app. cbn.
  rewrite Nat.add_sub. apply take_app_length.
Qed.

(** A field that starts a line. *)
Definition field_name (n : string) : Prop := (":"%char ∉ bytes n) ∧ n ≠ "" ∧ starts_with " " n = false ∧ no_newline n.

#[local] Instance field_name_dec n : Decision (field_name n).
Proof. unfold field_name, no_newline. apply _. Defined.

Lemma split_field n v : ":"%char ∉ bytes n → split_once ": " (n +:+ ": " +:+ v) = Some (n, v).
Proof.
  induction n as [|c n IH]; intros Hn.
  - by destruct v.
  - apply not_elem_of_cons in Hn as [Hc Hn]. specialize (IH Hn). rewrite append_cons. cbn [split_once strip_prefix].
    rewrite decide_False by congruence. by rewrite IH.
Qed.

Lemma parse_field n v l acc :
  field_name n → parse_fields ((n +:+ ": " +:+ v) :: l) acc = parse_fields l (acc ++ [(n, [v])]).
Proof.
  intros (Hc & Hne & Hs & _). destruct n as [|c n]; [done|]. rewrite append_cons. cbn [parse_fields].
  pose proof (split_field (String c n) v Hc) as Hf. rewrite append_cons in Hf. rewrite Hf. cbn [mbind option_bind].
  assert (c ≠ " "%char) as Hcs by (intros ->; by unfold starts_with in Hs; cbn in Hs).
  destruct c as [[] [] [] [] [] [] [] []]; done.
Qed.

Lemma parse_continued rest acc n v :
  parse_fields (String " " <$> rest) (acc ++ [(n, v)]) = Some (acc ++ [(n, v ++ rest)]).
Proof.
  revert v. induction rest as [|r rest IH]; intros v; [by rewrite app_nil_r|]. rewrite fmap_cons. cbn [parse_fields].
  rewrite last_snoc, length_app. cbn [length]. rewrite Nat.add_sub, take_app_length, IH. by rewrite <- app_assoc.
Qed.

(** The fields of the control file with their values. *)
Definition opt_entry (n : string) (v : option string) : list (string * list string) :=
  match v with Some v => [(n, [v])] | None => [] end.
Definition list_entry (n : string) (l : option (list string)) : list (string * list string) :=
  match l with Some ((_ :: _) as l) => [(n, [String.concat ", " l])] | _ => [] end.

(** A line of the long description, without the space it starts with. *)
Definition description_text (line : string) : string := let line := trim line in if decide (line = "") then "." else line.

Section Control.
Context {FS : ResourceFs} {PL : PackLib}.

Definition control_fields (s : Settings) (arch : string) (size : N) : list (string * list string) :=
  let d := deb (bundle_settings s) in
  [("Package", [to_kebab_case (product_name (package s))]);
   ("Version", [version (package s)]); ("Architecture", [arch]);
   ("Installed-Size", [Numbers.print_u32 (size / 1024)%N]); ("Maintainer", [maintainer s])] ++
  opt_entry "Section" (deb_section d) ++ [("Priority", [default "optional" (deb_priority d)])] ++
  opt_entry "Homepage" (homepage_url s) ++
  list_entry "Depends" (deb_depends d) ++ list_entry "Recommends" (deb_recommends d) ++
  list_entry "Provides" (deb_provides d) ++ list_entry "Conflicts" (deb_conflicts d) ++
  list_entry "Replaces" (deb_replaces d).

Definition description_field (s : Settings) : string * list string :=
  ("Description", or_none (short_description s) ::
     (description_text <$> lines (or_none (default "" (bundle_long_description (bundle_settings s)))))).

(** A header line for each field. *)
Definition header (e : string * list string) : string := e.1 +:+ ": " +:+ default "" (head e.2).

Definition long_lines (s : Settings) : list string :=
  description_text <$> lines (or_none (default "" (bundle_long_description (bundle_settings s)))).

Lemma description_line_text x : description_line x = String " " (description_text x).
Proof. unfold description_line, description_text. by case_decide. Qed.

Lemma control_lines_headers s arch size :
  control_lines s arch size =
  (header <$> (control_fields s arch size ++ [("Description", [or_none (short_description s)])])) ++
  (String " " <$> long_lines s).
Proof.
  unfold control_lines, control_fields, long_lines. rewrite !fmap_app, <- list_fmap_compose.
  rewrite (list_fmap_ext description_line (String " " ∘ description_text)) by (intros; apply description_line_text).
  assert (∀ n v, opt_field n v = header <$> opt_entry n v) as Ho by by intros ? [].
  assert (∀ n l, list_field n l = header <$> list_entry n l) as Hl by by intros ? [[]|].
  rewrite !Ho, !Hl, <- !app_assoc. done.
Qed.

Lemma parse_headers es l acc :
  Forall (λ e, field_name e.1 ∧ ∃ v, e.2 = [v]) es → parse_fields ((header <$> es) ++ l) acc = parse_fields l (acc ++ es).
Proof.
  intros H. revert acc. induction H as [|[n vs] es [Hn [v Hv]] Hes IH]; intros acc; [by rewrite app_nil_r|].
  cbn [fst snd] in *. subst vs. rewrite fmap_cons. change (header (n, [v])) with (n +:+ ": " +:+ v). rewrite <- app_comm_cons.
  rewrite parse_field, IH by done. by rewrite <- app_assoc.
Qed.

Lemma fields_wellformed s arch size :
  Forall (λ e, field_name e.1 ∧ ∃ v, e.2 = [v]) (control_fields s arch size ++ [("Description", [or_none (short_description s)])]).
Proof.
  assert (∀ n, bool_decide (field_name n) = true → field_name n) as Hb by (intros n; apply bool_decide_eq_true).
  assert (∀ n v, field_name n → Forall (λ e : string * list string, field_name e.1 ∧ ∃ v, e.2 = [v]) (opt_entry n v)) as Ho.
  { intros n [v|] Hn; [apply Forall_singleton; split; [done|by eexists]|apply Forall_nil_2]. }
  assert (∀ n l, field_name n → Forall (λ e : string * list string, field_name e.1 ∧ ∃ v, e.2 = [v]) (list_entry n l)) as Hl.
  { intros n [[|x l]|] Hn; [apply Forall_nil_2|apply Forall_singleton; split; [done|by eexists]|apply Forall_nil_2]. }
  unfold control_fields.
  rewrite !Forall_app; split_and!; try apply Ho; try apply Hl; repeat apply Forall_cons_2; try apply Forall_nil_2;
    try (split; [|by eexists]); apply Hb; reflexivity.
Qed.

Lemma strip_while_keeps c fuel ps t : c ∉ bytes t → c ∉ bytes (Csp.strip_while fuel ps t).
Proof.
  revert t. induction fuel as [|fuel IH]; intros t H; [done|]. cbn [Csp.strip_while].
  destruct (omap _ ps) as [|t' l] eqn:E; [done|]. apply IH.
  assert (t' ∈ omap (λ p, strip_prefix p t) ps) as Ht by (rewrite E; by left).
  apply list_elem_of_omap in Ht as (p & _ & ->%strip_prefix_spec). rewrite bytes_append, not_elem_of_app in H. tauto.
Qed.

Lemma rev_keeps c t : c ∉ bytes t → c ∉ bytes (rev_string t).
Proof. unfold rev_string. by rewrite bytes_of_bytes, elem_of_reverse. Qed.

Lemma trim_keeps c t : c ∉ bytes t → c ∉ bytes (trim t).
Proof. intros H. by apply rev_keeps, strip_while_keeps, rev_keeps, strip_while_keeps. Qed.

Lemma strip_cr_keeps c t : c ∉ bytes t → c ∉ bytes (strip_cr t).
Proof.
  intros H. unfold strip_cr, AclBuild.strip_suffix. destruct (strip_prefix _ _) as [r|] eqn:E; [|done]. cbn.
  apply strip_prefix_spec in E. apply rev_keeps in H. rewrite E, bytes_append, not_elem_of_app in H.
  destruct H. by apply rev_keeps.
Qed.

Lemma lines_no_newline t x : x ∈ lines t → no_newline x.
Proof.
  unfold lines. intros (y & -> & Hy)%list_elem_of_fmap. apply strip_cr_keeps.
  assert (∀ n (l : list string), y ∈ take n l → y ∈ l) as Ht.
  { intros n l H. rewrite <- (take_drop n l). apply elem_of_app. by left. }
  assert (y ∈ split_on "010" t) as H by (destruct (last _) as [[]|]; [by apply Ht in Hy|done..]).
  unfold split_on in H. apply list_elem_of_fmap in H as (b & -> & Hb). unfold no_newline. rewrite bytes_of_bytes.
  by apply split_bytes_piece in Hb.
Qed.

Lemma long_lines_no_newline s : Forall no_newline (long_lines s).
Proof.
  apply Forall_fmap, Forall_forall. intros x Hx%lines_no_newline. unfold compose, description_text.
  case_decide; [by apply (bool_decide_unpack _)|by apply trim_keeps].
Qed.

(** The control file of a Debian package is one paragraph: read back it has the
    fields of the package with their values, and the long description, whatever
    it is, as the rest of the last one, as long as no other value has a newline. *)
Theorem control_file_reads_back s arch size :
  Forall (λ e, Forall no_newline e.2) (control_fields s arch size) → no_newline (or_none (short_description s)) →
  parse_control (writeln (control_lines s arch size)) =
  Some (control_fields s arch size ++ [("Description", or_none (short_description s) :: long_lines s)]).
Proof.
  intros Hf Hd. unfold parse_control. pose proof (fields_wellformed s arch size) as Hw. rewrite text_lines_writeln.
  - rewrite control_lines_headers, parse_headers by done. by rewrite app_nil_l, parse_continued.
  - rewrite control_lines_headers. apply Forall_app. split.
    + assert (Forall (λ e : string * list string, Forall no_newline e.2)
        (control_fields s arch size ++ [("Description", [or_none (short_description s)])])) as Hv.
      { apply Forall_app. split; [done|]. by repeat constructor. }
      apply Forall_fmap, Forall_forall. intros e He. rewrite Forall_forall in Hw, Hv. specialize (Hv _ He).
      destruct (Hw _ He) as [(_ & _ & _ & Hn) [v Ev]]. unfold compose, header, no_newline. rewrite Ev in *.
      apply Forall_inv in Hv. rewrite !bytes_append, !not_elem_of_app. split_and!; [exact Hn| |exact Hv].
      by apply (bool_decide_unpack _).
    + apply Forall_fmap. eapply Forall_impl; [apply long_lines_no_newline|]. intros x Hx.
      unfold compose, no_newline. cbn. apply not_elem_of_cons. by split.
Qed.

End Control.

(** ** External binaries *)
Lemma replace_skip from s : Migrate.replace_from from "" (String.length s) s = "".
Proof. induction s as [|c s IH]; [done|exact IH]. Qed.

Lemma replace_first p n :
  p ≠ "" → (∀ a b, n +:+ p = a +:+ p +:+ b → a = n) → Migrate.str_replace p "" (n +:+ p) = n.
Proof.
  intros Hp. unfold Migrate.str_replace. induction n as [|c n IH]; intros Hf.
  - rewrite append_nil_l. destruct p as [|x p]; [done|]. cbn [Migrate.replace_from].
    assert (starts_with (String x p) (String x p) = true) as ->.
    { apply starts_with_spec. exists "". by rewrite append_nil_r. }
    rewrite append_nil_l. cbn [String.length]. rewrite Nat.sub_1_r. cbn [Nat.pred]. apply replace_skip.
  - rewrite append_cons. cbn [Migrate.replace_from].
    destruct (starts_with p (String c (n +:+ p))) eqn:E.
    + apply starts_with_spec in E as [b Hb]. by specialize (Hf "" b Hb).
    + f_equal. apply IH. intros a b Hab. assert (String c a = String c n) as [= ?]; [|done].
      apply (Hf _ b). rewrite !append_cons. by f_equal.
Qed.

(** An external binary is put into the package under the name it has in the
    configuration, without the target triple that was added to it, where the
    triple starts at the first place it is found. *)
Theorem sidecar_name_restored s n src :
  BundleResources.file_name src = Some (n +:+ "-" +:+ target s) →
  (∀ a b, n +:+ "-" +:+ target s = a +:+ ("-" +:+ target s) +:+ b → a = n) → sidecar_name s src = Ok n.
Proof.
  intros Hs Hf. unfold sidecar_name. rewrite Hs. cbn [expect mbind outcome_bind]. by rewrite replace_first.
Qed.

(** ** Examples *)
Definition ex_files : list string := ["target/app"; "data.txt"; "icons/icon.png"].

#[local] Instance ex_resource_fs : ResourceFs := {|
  res_exists p := bool_decide (p ∈ ex_files); res_is_dir _ := false;
  glob_glob _ := inr []; walk_dir _ := [];
|}.
#[local] Instance ex_resource_laws : BundleResources.ResourceFsLaws.
Proof.
  intros p He Hd. cbn in *. apply bool_decide_eq_true in He. unfold ex_files in He.
  repeat (apply elem_of_cons in He as [->|He]; [by eexists|]). by apply not_elem_of_nil in He.
Qed.

#[local] Instance ex_pack : PackLib := {|
  path_exists p := bool_decide (p ∈ components <$> ex_files); is_file p := bool_decide (p ∈ components <$> ex_files);
  is_dir _ := false; walk _ := []; read_to_string _ := None; png_dimensions _ := Some (32, 32)%N; to_kebab_case t := t;
  render_desktop _ p := Some (p_exec p); files_order := map_to_list; files_order_perm m := reflexivity _;
  total_dir_size _ _ := 2048%N;
|}.

Definition ex_bundle (res : option (list string)) (map : option (list (string * string))) (short : option string) : BundleSettings :=
  mk_bundle (Some "com.app") None None (Some ["icons/icon.png"]) res map None None None None None short None None None
    (mk_deb (Some ["libgtk-3-0"; "libc6"]) None None None None ∅ None None None None None None None None)
    (mk_appimage ∅ false false)
    (mk_rpm None None None None None "1" 0 ∅ None None None None None None) None SkipInstall.

Definition ex_settings (res : option (list string)) (map : option (list (string * string))) (short : option string) : Settings :=
  mk_settings LevelError (mk_package "app" "1.0.0" "An app" None None None) None [Normal "target"] None
    (ex_bundle res map short) [mk_binary "app" true None] "x86_64-unknown-linux-gnu".

Definition tree_of (r : outcome BundleError (Tree * list PathBuf)) : Tree := match r with Ok (t, _) => t | _ => ∅ end.
Definition gives (r : outcome BundleError (Tree * list PathBuf)) (p : list PathBuf) : bool :=
  match r with Ok (_, q) => bool_decide (q = p) | _ => false end.

Lemma gives_tree r p : gives r p = true → r = Ok (tree_of r, p).
Proof. destruct r as [[t q]| | |]; try done. by intros ->%bool_decide_eq_true. Qed.

Definition ex_list : Settings := ex_settings (Some ["data.txt"]) None None.
Definition ex_map : Settings := ex_settings None (Some [("data.txt", "texts/renamed.txt")]) None.
Definition ex_deb_path : list PathBuf := [components "target/bundle/deb/app_1.0.0_amd64.deb"].
Definition ex_rpm_path : list PathBuf := [components "target/bundle/rpm/app-1.0.0-1.x86_64.rpm"].


(** Of a map of resources an RPM package uses the sources and not the targets:
    the file is not where a Debian package has it. *)
Theorem rpm_ignores_resource_targets :
  gives (deb_package ex_map) ex_deb_path = true ∧ gives (rpm_package ex_map) ex_rpm_path = true ∧
  tree_of (deb_package ex_map) !! (components "target/bundle/deb/app_1.0.0_amd64/data/usr/lib/app/texts/renamed.txt") =
    Some (CopyOf [Normal "data.txt"]) ∧
  tree_of (rpm_package ex_map) !! (components "/usr/lib/app/texts/renamed.txt") = None ∧
  tree_of (rpm_package ex_map) !! (components "/usr/lib/app/data.txt") = Some (CopyOf [Normal "data.txt"]).
Proof. split_and!; vm_compute; reflexivity. Qed.

Lemma control_file_reads_back_witness :
  parse_control (writeln (control_lines (ex_settings None None None) "amd64" 2048)) =
  Some [("Package", ["app"]); ("Version", ["1.0.0"]); ("Architecture", ["amd64"]); ("Installed-Size", ["2"]);
        ("Maintainer", ["app"]); ("Priority", ["optional"]); ("Depends", ["libgtk-3-0, libc6"]); ("Description", ["An app"; "(none)"])].
Proof.
  refine (control_file_reads_back (ex_settings None None None) "amd64" 2048 _ _).
  - repeat apply Forall_cons_2; try apply Forall_nil_2; by apply (bool_decide_unpack _).
  - by apply (bool_decide_unpack _).
Defined.

(** The lines of the short description are not protected: the second one is read
    as a field of its own. *)
Theorem short_description_adds_field :
  parse_control (writeln (control_lines (ex_settings None None (Some ("An app" +:+ newline +:+ "Essential: yes"))) "amd64" 2048)) =
  Some [("Package", ["app"]); ("Version", ["1.0.0"]); ("Architecture", ["amd64"]); ("Installed-Size", ["2"]);
        ("Maintainer", ["app"]); ("Priority", ["optional"]); ("Depends", ["libgtk-3-0, libc6"]); ("Description", ["An app"]); ("Essential", ["yes"; "(none)"])].
Proof. vm_compute. reflexivity. Qed.

(** The copy of [xdg-mime] that the user provides is replaced: the check looks
    for [xdg-open]. *)
Theorem own_xdg_mime_replaced `{PackLib} s bin t own :
  bundle_deep_links (bundle_settings s) ≠ None → bundle_xdg_open (appimage (bundle_settings s)) = false →
  t !! join bin "xdg-mime" = Some own → ¬ written t (join bin "xdg-open") →
  is_file (components "/usr/bin/xdg-mime") = true →
  ∃ t', copy_xdg s bin t = Ok t' ∧ t' !! join bin "xdg-mime" = Some (CopyOf (components "/usr/bin/xdg-mime")).
Proof.
  intros Hl Hx Ht Ho Hf. unfold copy_xdg. rewrite bool_decide_true by by apply not_eq_None_Some.
  rewrite bool_decide_false by done. cbn [negb andb]. unfold copy_program.
  change (join (components "/usr/bin") "xdg-mime") with (components "/usr/bin/xdg-mime"). rewrite Hf.
  cbn [mbind outcome_bind]. rewrite Hx. cbn [andb]. eexists. split; [done|]. apply lookup_insert_eq.
Qed.

End LinuxPackages.
