(* ===== verification/RustInterface.v ===== *)
(** * Building and bundling an application

    Models the Rust interface of the command line:
    [tauri-cli/Source/interface/rust.rs], [interface/rust/desktop.rs],
    [interface/rust/cargo_config.rs] and [interface/mod.rs], with the options of
    [build.rs], [bundle.rs] and [dev.rs]. It gives the arguments of Cargo, finds
    the binaries and the directory they are built in, and turns the
    configuration into the settings of the bundler. Cargo, the file system and
    the environment are the class [CargoEnv]. *)
From Stdlib Require Import Ascii QArith.
From S2P Require Import Prelude Acl Paths Numbers BuildSupport MigrateConfig BundleResources CargoManifest Bundler LinuxPackages.
Import Paths.

Module RustInterface.
Import Bundler.
#[local] Open Scope stdpp_scope.
#[local] Open Scope nat_scope.

(** ** Options *)
Record BuildOptions := mk_build {
  build_runner : option string;
  build_debug : bool;
  build_target : option string;
  build_features : option (list string);
  build_bundles : option (list PackageType);
  build_no_bundle : bool;
  build_args : list string;
  build_ci : bool;
}.

Record BundleOptions := mk_bundle_options {
  bundle_debug : bool;
  bundle_bundles : option (list PackageType);
  bundle_features : option (list string);
  bundle_target : option string;
  bundle_ci : bool;
}.

Record DevOptions := mk_dev {
  dev_runner : option string;
  dev_target : option string;
  dev_features : option (list string);
  exit_on_panic : bool;
  release_mode : bool;
  dev_args : list string;
  dev_no_watch : bool;
}.

Record Options := mk_options {
  runner : option string;
  debug : bool;
  opt_target : option string;
  features : option (list string);
  args : list string;
  no_watch : bool;
}.

Definition Options_from_build (o : BuildOptions) : Options :=
  mk_options (build_runner o) (build_debug o) (build_target o) (build_features o) (build_args o) true.
Definition Options_from_bundle (o : BundleOptions) : Options :=
  mk_options None (bundle_debug o) (bundle_target o) (bundle_features o) [] true.
Definition Options_from_dev (o : DevOptions) : Options :=
  mk_options (dev_runner o) (negb (release_mode o)) (dev_target o) (dev_features o) (dev_args o) (dev_no_watch o).
Definition BundleOptions_from (o : BuildOptions) : BundleOptions :=
  mk_bundle_options (build_debug o) (build_bundles o) (build_features o) (build_target o) (build_ci o).

(** ** Arguments of Cargo *)

(** [get_cargo_option]: the value after the equals sign, or the next argument. *)
Fixpoint get_cargo_option (l : list string) (option : string) : Datatypes.option string :=
  match l with
  | [] => None
  | a :: l =>
      if starts_with option a
      then match split_once "=" a with Some (_, p) => Some p | None => head l end
      else get_cargo_option l option
  end.

Definition get_profile (o : Options) : string :=
  default (if debug o then "dev" else "release") (get_cargo_option (args o) "--profile").
Definition get_profile_dir (o : Options) : string :=
  if decide (get_profile o = "dev") then "debug" else get_profile o.

(** [options.features.get_or_insert(Vec::new()).push(f)]. *)
Definition push_feature (f : string) (l : option (list string)) : option (list string) := Some (default [] l ++ [f]).

Inductive CliError :=
| ManifestFailed (e : CargoManifest.ManifestError)
| BundleFailed (e : BundleError)
| CliFailed (text : string).

Section Cargo.
Context {ML : CargoManifest.ManifestLib}.

Definition shared_options (fuel : nat) (desktop_dev mobile : bool) (m : CargoManifest.Manifest)
    (args : list string) (features : option (list string)) : outcome CliError (list string * option (list string)) :=
  if mobile then Ok (args ++ ["--lib"], push_feature "tauri/rustls-tls" features)
  else
    let args := if desktop_dev then args else args ++ ["--bins"] in
    all_features ← map_err ManifestFailed (CargoManifest.all_enabled_features fuel m (default [] features));
    if decide ("tauri/rustls-tls" ∈ all_features) then Ok (args, features)
    else Ok (args, push_feature "tauri/native-tls" features).

(** The arguments before and after the first double dash. *)
Fixpoint split_args (l : list string) : list string * list string :=
  match l with
  | [] => ([], [])
  | a :: l => if decide (a = "--") then ([], l) else let '(d, r) := split_args l in (a :: d, r)
  end.

(** Whether a default feature is kept in development. *)
Definition kept_in_dev (manifest_features : gmap string (list string)) (feature : string) : bool :=
  match manifest_features !! feature with
  | Some l => negb (bool_decide ("tauri/custom-protocol" ∈ l))
  | None => negb (bool_decide (feature = "tauri/custom-protocol"))
  end.

(** The arguments and features of Cargo, and the arguments of the application. *)
Definition dev_options (fuel : nat) (mobile : bool) (m : CargoManifest.Manifest) (args : list string)
    (features : option (list string)) : outcome CliError (list string * list string * option (list string)) :=
  let '(dev_args, run_args) := split_args args in
  '(args, features) ← shared_options fuel true mobile m dev_args features;
  if decide ("--no-default-features" ∈ args) then Ok (args, run_args, features)
  else
    let manifest_features := CargoManifest.Manifest_features m in
    let enable_features := filter (λ f, kept_in_dev manifest_features f = true)
                             (default [] (manifest_features !! "default")) in
    Ok (args ++ ["--no-default-features"], run_args,
        match enable_features with [] => features | _ => Some (default [] features ++ enable_features) end).

Definition build_options (fuel : nat) (mobile : bool) (m : CargoManifest.Manifest) (args : list string)
    (features : option (list string)) : outcome CliError (list string * option (list string)) :=
  shared_options fuel false mobile m args (push_feature "tauri/custom-protocol" features).

End Cargo.

Record RustupTarget := mk_rustup { target_name : string; installed : bool }.

(** [fetch_available_targets], on the output of rustup. *)
Definition parse_targets (stdout : string) : list RustupTarget :=
  filter (λ t, target_name t ≠ "")
    ((λ line, let words := split_on " " line in
              mk_rustup (default "" (head words)) (bool_decide (words !! 1 = Some "(installed)"))) <$> split_on "010" stdout).

Definition find_target (target : string) (l : list RustupTarget) : option RustupTarget :=
  head (filter (λ t, target_name t = target) l).

Definition validate_target (available_targets : option (list RustupTarget)) (target : string) : outcome CliError () :=
  match available_targets with
  | Some l =>
      match find_target target l with
      | Some t =>
          if installed t then Ok ()
          else Err (CliFailed ("Target " +:+ target +:+ " is not installed (installed targets: " +:+
                    String.concat ", " (target_name <$> filter (λ t, installed t = true) l) +:+ "). Please run `rustup target add " +:+
                    target +:+ "`."))
      | None => Err (CliFailed ("Target " +:+ target +:+ " does not exist. Please run `rustup target list` to see the available targets."))
      end
  | None => Ok ()
  end.

(** The command line that runs Cargo: the program and its arguments. *)
Definition cargo_command (dev : bool) (o : Options) (available_targets : option (list RustupTarget))
    (config_features : list string) : outcome CliError (string * list string) :=
  _ ← match opt_target o with Some t => validate_target available_targets t | None => Ok () end;
  let features := config_features ++ default [] (features o) in
  Ok (default "cargo" (runner o),
      [if dev then "run" else "build"] ++ args o ++
      match features with [] => [] | _ => ["--features"; String.concat "," features] end ++
      (if negb (debug o) && negb (bool_decide ("--profile" ∈ args o)) then ["--release"] else []) ++
      match opt_target o with Some t => ["--target"; t] | None => [] end).

(** ** The Cargo manifest of the application *)
Inductive MaybeWorkspace (T : Type) := Workspace (workspace : bool) | Defined (value : T).
Arguments Workspace {T} workspace.
Arguments Defined {T} value.

Definition MaybeWorkspace_resolve {T} (v : MaybeWorkspace T) (label : string) (ws : option T) : outcome CliError T :=
  match v with
  | Defined v => Ok v
  | Workspace true =>
      ok_or ws (CliFailed ("error inheriting `" +:+ label +:+ "` from workspace root manifest's `workspace.package." +:+ label +:+ "`"))
  | Workspace false => Err (CliFailed ("`workspace=false` is unsupported for `package." +:+ label +:+ "`"))
  end.

Record WorkspacePackageSettings := mk_ws {
  ws_authors : option (list string);
  ws_description : option string;
  ws_homepage : option string;
  ws_version : option string;
  ws_license : option string;
}.

Record CargoPackageSettings := mk_cargo_package {
  cargo_name : string;
  cargo_version : option (MaybeWorkspace string);
  cargo_description : option (MaybeWorkspace string);
  cargo_homepage : option (MaybeWorkspace string);
  cargo_authors : option (MaybeWorkspace (list string));
  cargo_license : option (MaybeWorkspace string);
  cargo_default_run : option string;
}.

Record BinarySettings := mk_bin { bin_name : string; bin_path : option string }.

Record CargoSettings := mk_cargo {
  cargo_package : option CargoPackageSettings;
  ws_package : option (option WorkspacePackageSettings);
  cargo_bin : option (list BinarySettings);
}.

Record RustAppSettings := mk_app {
  manifest : CargoManifest.Manifest;
  cargo_settings : CargoSettings;
  cargo_package_settings : CargoPackageSettings;
  cargo_ws_package_settings : option WorkspacePackageSettings;
  package_settings : PackageSettings;
  config_build_target : option string;
  target_triple : string;
}.

(** Cargo, rustc, the files of the project and the environment. *)
Class CargoEnv := {
  current_dir : PathBuf;
  tauri_dir : PathBuf;
  (** [cargo metadata] *)
  metadata_target_directory : outcome CliError PathBuf;
  (** [Cargo.toml] of the application and of its workspace *)
  load_cargo : outcome CliError CargoSettings;
  load_workspace : outcome CliError CargoSettings;
  (** the host triple that rustc prints *)
  rustc_host : string;
  (** files *)
  file_exists : PathBuf → bool;
  read_dir : PathBuf → option (list PathBuf);
  rename_file : PathBuf → PathBuf → bool;
  (** a file of [.cargo], if it is one: its [build.target] *)
  read_cargo_config : PathBuf → outcome CliError (option string);
  cargo_home : option PathBuf;
  (** running Cargo with arguments, and lipo *)
  run_cargo : string * list string → bool;
  run_lipo : PathBuf → list PathBuf → bool;
  rustup_targets : option string;
  (** [TAURI_LINUX_AYATANA_APPINDICATOR] and pkg-config *)
  ayatana_appindicator : option string;
  library_path : string → option string;
}.

Section Interface.
Context {ML : CargoManifest.ManifestLib} {CE : CargoEnv} {SL : SimilarityLib}.

(** A resolved value that the source unwraps. *)
Definition unwrap_resolved {T} (r : outcome CliError T) (msg : string) : outcome CliError T :=
  match r with Err _ => Panic msg | r => r end.

Definition inherit {T} (v : option (MaybeWorkspace T)) (label : string) (ws : option T) : outcome CliError (option T) :=
  match v with
  | Some v => t ← unwrap_resolved (MaybeWorkspace_resolve v label ws) "called `Result::unwrap()` on an `Err` value"; Ok (Some t)
  | None => Ok None
  end.

(** ** [cargo_config.rs] *)
Fixpoint ancestors (n : nat) (p : PathBuf) : list PathBuf :=
  match n with
  | O => [p]
  | S n => p :: match last p with
                | Some RootDir | None => []
                | Some _ => ancestors n (take (length p - 1) p)
                end
  end.

(** [get_file_path]: the file without an extension is preferred. *)
Definition get_file_path (dir : PathBuf) (filename_without_extension : string) : option PathBuf :=
  let possible := join dir filename_without_extension in
  let possible_with_extension := join dir (filename_without_extension +:+ ".toml") in
  if file_exists possible then Some possible
  else if file_exists possible_with_extension then Some possible_with_extension
  else None.

Fixpoint first_target (dirs : list PathBuf) : outcome CliError (option string) :=
  match dirs with
  | [] => Ok None
  | d :: dirs =>
      match get_file_path d "config" with
      | Some path => t ← read_cargo_config path; match t with Some t => Ok (Some t) | None => first_target dirs end
      | None => first_target dirs
      end
  end.

Definition CargoConfig_load (path : PathBuf) : outcome CliError (option string) :=
  t ← first_target ((λ d, join d ".cargo") <$> ancestors (length path) path);
  match t, cargo_home with
  | Some t, _ => Ok (Some t)
  | None, Some home => match get_file_path home "config" with Some p => read_cargo_config p | None => Ok None end
  | None, None => Ok None
  end.

(** ** [RustAppSettings] *)
Definition RustAppSettings_new (product_name version : option string) (m : CargoManifest.Manifest) (target : option string)
    : outcome CliError RustAppSettings :=
  cargo ← load_cargo;
  package ← ok_or (cargo_package cargo) (CliFailed "No package info in the config file");
  workspace ← load_workspace;
  let ws := ws_package workspace ≫= id in
  version ← match version with
            | Some v => Ok v
            | None => v ← expect (cargo_version package) "Cargo manifest must have the `package.version` field";
                      unwrap_resolved (MaybeWorkspace_resolve v "version" (ws ≫= ws_version)) "Cargo project does not have a version"
            end;
  description ← inherit (cargo_description package) "description" (ws ≫= ws_description);
  homepage ← inherit (cargo_homepage package) "homepage" (ws ≫= ws_homepage);
  authors ← inherit (cargo_authors package) "authors" (ws ≫= ws_authors);
  config_target ← CargoConfig_load tauri_dir;
  let target_triple := match target with Some t => t | None => default rustc_host config_target end in
  Ok (mk_app m cargo package ws
       (mk_package (default (cargo_name package) product_name) version (default "" description) homepage authors
          (cargo_default_run package)) config_target target_triple).

(** ** Binaries *)
Definition declared_binaries (s : RustAppSettings) : list BundleBinary :=
  let default_run := default "" (Bundler.default_run (package_settings s)) in
  (λ b, mk_binary (bin_name b) (bool_decide (bin_name b = cargo_name (cargo_package_settings s) ∨ bin_name b = default_run))
          (bin_path b)) <$> default [] (cargo_bin (cargo_settings s)).

(** The sources Cargo finds by itself, with the names of their binaries. *)
Definition discovered (s : RustAppSettings) : list (string * PathBuf) :=
  let paths := (λ p, (default "" (path_file_stem p), p)) <$> default [] (read_dir (join tauri_dir "src/bin")) in
  let main_rs := join tauri_dir "src/main.rs" in
  if negb (existsb (λ e, bool_decide (e.2 = components "src/main.rs")) paths) && file_exists main_rs
  then paths ++ [(cargo_name (cargo_package_settings s), main_rs)]
  else paths.

Definition bin_exists (binaries : list BundleBinary) (n : string) (path : PathBuf) : bool :=
  existsb (λ b, bool_decide (name b = n) || path_ends_with path (components (default "" (src_path b)))) binaries.

Definition add_discovered (binaries : list BundleBinary) (e : string * PathBuf) : list BundleBinary :=
  if bin_exists binaries e.1 e.2 then binaries else binaries ++ [BundleBinary_new e.1 false].

(** [iter_mut().find(name)] and [set_main(true)]. *)
Fixpoint mark_main (n : string) (l : list BundleBinary) : option (list BundleBinary) :=
  match l with
  | [] => None
  | b :: l => if decide (name b = n) then Some (set_main true b :: l) else (λ l, b :: l) <$> mark_main n l
  end.

Definition get_binaries (s : RustAppSettings) : list BundleBinary :=
  let binaries := foldl add_discovered (declared_binaries s) (discovered s) in
  let binaries :=
    match Bundler.default_run (package_settings s) with
    | Some default_run => default (binaries ++ [BundleBinary_new default_run true]) (mark_main default_run binaries)
    | None => binaries
    end in
  match binaries with
  | [] => [BundleBinary_new (cargo_name (cargo_package_settings s)) true]
  | [b] => [set_main true b]
  | _ => binaries
  end.

(** ** Directories *)
Definition target_of (s : RustAppSettings) (o : Options) : option string :=
  match opt_target o with Some t => Some t | None => config_build_target s end.

Definition get_target_dir (triple : option string) (o : Options) : outcome CliError PathBuf :=
  path ← match get_cargo_option (args o) "--target-dir" with
         | Some target => Ok (join current_dir target)
         | None =>
             path ← metadata_target_directory;
             Ok (match triple with Some triple => join path triple | None => path end)
         end;
  Ok (join path (get_profile_dir o)).

Definition out_dir (s : RustAppSettings) (o : Options) : outcome CliError PathBuf := get_target_dir (target_of s o) o.

Definition no_main : CliError :=
  CliFailed "failed to find main binary, make sure you have a `package > default-run` in the Cargo.toml file".

Definition app_binary_path (s : RustAppSettings) (o : Options) : outcome CliError PathBuf :=
  main ← ok_or (find_main (get_binaries s)) no_main;
  out ← out_dir s o;
  let ext := if Acl.str_contains "windows" (target_triple s) then "exe" else "" in
  Ok (with_extension (join out (name main)) ext).

(** ** Building *)
Definition build_production_app (o : Options) (config_features : list string) : outcome CliError () :=
  cmd ← cargo_command false o (parse_targets <$> rustup_targets) config_features;
  if run_cargo cmd then Ok () else Err (CliFailed "failed to build app").

Definition rename_app (bin_path : PathBuf) (main_binary_name : option string) : outcome CliError PathBuf :=
  match main_binary_name with
  | Some main_binary_name =>
      let new_path := with_extension (with_file_name bin_path main_binary_name) (default "" (path_extension bin_path)) in
      if rename_file bin_path new_path then Ok new_path else Err (CliFailed "failed to rename")
  | None => Ok bin_path
  end.

Definition with_target (t : string) (o : Options) : Options :=
  mk_options (runner o) (debug o) (Some t) (features o) (args o) (no_watch o).

Definition lipo_inputs (s : RustAppSettings) (o : Options) (config_features : list string) (bin_name : string)
    (inputs : list PathBuf) (triple : string) : outcome CliError (list PathBuf) :=
  let o := with_target triple o in
  triple_out_dir ← out_dir s o;
  _ ← build_production_app o config_features;
  Ok (inputs ++ [join triple_out_dir bin_name]).

Definition build_app (s : RustAppSettings) (o : Options) (config_features : list string) (main_binary_name : option string)
    : outcome CliError PathBuf :=
  out ← out_dir s o;
  bin_path ← app_binary_path s o;
  _ ← (if decide (opt_target o = Some "universal-apple-darwin") then
         bin_name ← expect (path_file_stem bin_path) "called `Option::unwrap()` on a `None` value";
         inputs ← for_each (lipo_inputs s o config_features bin_name) ["aarch64-apple-darwin"; "x86_64-apple-darwin"] [];
         if run_lipo (join out bin_name) inputs then Ok () else Err (CliFailed "Result of `lipo` command was unsuccessful")
       else build_production_app o config_features);
  rename_app bin_path main_binary_name.

(** ** The settings of the bundler *)
Inductive ResourcesConfig := ResourceList (l : list string) | ResourceMap (m : list (string * string)).
Inductive UpdaterArtifacts := V1Artifacts | BoolArtifacts (b : bool).

#[global] Instance UpdaterArtifacts_eq_dec : EqDecision UpdaterArtifacts.
Proof. solve_decision. Defined.

(** [BundleConfig] on Linux; [DebConfig] and [RpmConfig] have the fields of the
    settings that are made of them. *)
Record BundleConfig := mk_bundle_config {
  active : bool;
  targets : BundleTarget;
  create_updater_artifacts : UpdaterArtifacts;
  c_publisher : option string;
  c_homepage : option string;
  c_icon : list string;
  c_resources : option ResourcesConfig;
  c_copyright : option string;
  c_license : option string;
  c_license_file : option string;
  c_category : option string;
  c_file_associations : option (list FileAssociation);
  c_short_description : option string;
  c_long_description : option string;
  use_local_tools_dir : bool;
  c_external_bin : option (list string);
  c_appimage_files : FileMap;
  c_bundle_media_framework : bool;
  c_deb : DebianSettings;
  c_rpm : RpmSettings;
  c_webview_install_mode : WebviewInstallMode;
}.

Inductive TrayKind := Ayatana | Libappindicator.

Definition get_appindicator_library_path : outcome CliError (TrayKind * string) :=
  match library_path "ayatana-appindicator3-0.1" with
  | Some p => Ok (Ayatana, p +:+ "/libayatana-appindicator3.so.1")
  | None =>
      match library_path "appindicator3-0.1" with
      | Some p => Ok (Libappindicator, p +:+ "/libappindicator3.so.1")
      | None => Panic "Can't detect any appindicator library"
      end
  end.

Definition tray_library : outcome CliError (TrayKind * string) :=
  match ayatana_appindicator with
  | Some ayatana =>
      if decide (ayatana = "true" ∨ ayatana = "1") then
        p ← expect (library_path "ayatana-appindicator3-0.1") "failed to get ayatana-appindicator library path using pkg-config.";
        Ok (Ayatana, p +:+ "/libayatana-appindicator3.so.1")
      else
        p ← expect (library_path "appindicator3-0.1") "failed to get libappindicator-gtk library path using pkg-config.";
        Ok (Libappindicator, p +:+ "/libappindicator3.so.1")
  | None => get_appindicator_library_path
  end.

(** The dependency of a tray icon: the Debian package, the library and the files
    of the AppImage. *)
Definition tray_dependency (enabled_features : list string) (files : FileMap)
    : outcome CliError (list string * list string * FileMap) :=
  if decide ("tray-icon" ∈ enabled_features ∨ "tauri/tray-icon" ∈ enabled_features) then
    '(kind, path) ← tray_library;
    let path := components path in
    n ← expect (path_file_name path) "called `Option::unwrap()` on a `None` value";
    let files := if decide (is_Some (files !! path)) then files else <[join (components "/usr/lib/") n := path]> files in
    Ok (match kind with
        | Ayatana => (["libayatana-appindicator3-1"], ["libayatana-appindicator3.so.1"], files)
        | Libappindicator => (["libappindicator3-1"], ["libappindicator3.so.1"], files)
        end)
  else Ok ([], [], files).

Definition some_list (l : list string) : option (list string) := match l with [] => None | _ => Some l end.

Definition with_deb_depends (l : list string) (d : DebianSettings) : DebianSettings :=
  mk_deb (some_list l) (deb_recommends d) (deb_provides d) (deb_conflicts d) (deb_replaces d) (deb_files d)
    (deb_desktop_template d) (deb_section d) (deb_priority d) (deb_changelog d) (deb_pre_install_script d)
    (deb_post_install_script d) (deb_pre_remove_script d) (deb_post_remove_script d).

Definition with_rpm_depends (l : list string) (r : RpmSettings) : RpmSettings :=
  mk_rpm (some_list l) (rpm_recommends r) (rpm_provides r) (rpm_conflicts r) (rpm_obsoletes r) (rpm_release r) (rpm_epoch r)
    (rpm_files r) (rpm_desktop_template r) (rpm_pre_install_script r) (rpm_post_install_script r) (rpm_pre_remove_script r)
    (rpm_post_remove_script r) (rpm_compression r).

Definition category_of (c : option string) : outcome CliError (option AppCategory) :=
  match c with
  | Some c =>
      match category_from_str c with
      | Ok c => Ok (Some c)
      | Err (Some e) => Err (CliFailed ("invalid category, did you mean `" +:+ e +:+ "`?"))
      | _ => Err (CliFailed "invalid category")
      end
  | None => Ok None
  end.

Definition rpm_requirement (arch64bits : bool) (lib : string) : string := if arch64bits then lib +:+ "()(64bit)" else lib.

Definition tauri_config_to_bundle_settings (fuel : nat) (s : RustAppSettings) (features : list string) (identifier : string)
    (config : BundleConfig) (updater_config : option UpdaterSettings) (arch64bits : bool) : outcome CliError BundleSettings :=
  enabled_features ← map_err ManifestFailed (CargoManifest.all_enabled_features fuel (manifest s) features);
  '(tray_deb, tray_libs, files) ← tray_dependency enabled_features (c_appimage_files config);
  let depends_deb := default [] (deb_depends (c_deb config)) ++ tray_deb ++ ["libwebkit2gtk-4.1-0"; "libgtk-3-0"] in
  let libs := tray_libs ++ ["libwebkit2gtk-4.1.so.0"; "libgtk-3.so.0"] in
  let depends_rpm := default [] (rpm_depends (c_rpm config)) ++ (rpm_requirement arch64bits <$> libs) in
  let '(resources, resources_map) :=
    match default (ResourceList []) (c_resources config) with
    | ResourceList paths => (Some paths, None)
    | ResourceMap map => (None, Some map)
    end in
  category ← category_of (c_category config);
  license ← match c_license config with
            | Some l => Ok (Some l)
            | None => inherit (cargo_license (cargo_package_settings s)) "license" (cargo_ws_package_settings s ≫= ws_license)
            end;
  Ok (mk_bundle (Some identifier) (c_publisher config) (c_homepage config) (Some (c_icon config)) resources resources_map
       (c_copyright config) license ((λ l, join tauri_dir l) <$> c_license_file config) category (c_file_associations config)
       (c_short_description config) (c_long_description config) (c_external_bin config) None
       (with_deb_depends depends_deb (c_deb config))
       (mk_appimage files (c_bundle_media_framework config) false)
       (with_rpm_depends depends_rpm (c_rpm config)) updater_config (c_webview_install_mode config)).

(** ** Settings of plugins *)
Inductive WindowsUpdateInstallMode := BasicUi | Quiet | Passive.

Definition install_mode_deserialize (s : string) : outcome CliError WindowsUpdateInstallMode :=
  let t := BuildSupport.AclBuild.to_lowercase s in
  if decide (t = "basicui") then Ok BasicUi
  else if decide (t = "quiet") then Ok Quiet
  else if decide (t = "passive") then Ok Passive
  else Err (CliFailed ("unknown update install mode '" +:+ s +:+ "'")).

Definition mode_msiexec_args (m : WindowsUpdateInstallMode) : list string :=
  match m with BasicUi => ["/qb+"] | Quiet => ["/quiet"] | Passive => ["/passive"] end.

Record UpdaterConfig := mk_updater_config { updater_pubkey : string; install_mode : WindowsUpdateInstallMode }.

Inductive DesktopDeepLinks := OneLink (p : DeepLinkProtocol) | LinkList (l : list DeepLinkProtocol).
Inductive ShellOpen := OpenBool (b : bool) | OpenString (s : string) | OpenOther.

(** What the configuration says for the bundler, with the values of the plugins
    as they are read. *)
Record Config := mk_config {
  config_identifier : string;
  config_main_binary_name : option string;
  bundle : BundleConfig;
  before_bundle_command : bool;
  updater_plugin : option (outcome CliError UpdaterConfig);
  deep_link_desktop : option (outcome CliError DesktopDeepLinks);
  shell_open : option ShellOpen;
}.

Definition with_links (links : list DeepLinkProtocol) (b : BundleSettings) : BundleSettings :=
  mk_bundle (identifier b) (publisher b) (homepage b) (icon b) (resources b) (resources_map b) (copyright b) (license b)
    (license_file b) (category b) (file_associations b) (bundle_short_description b) (bundle_long_description b) (external_bin b)
    (Some links) (deb b) (appimage b) (rpm b) (updater b) (webview_install_mode b).

Definition with_xdg_open (b : BundleSettings) : BundleSettings :=
  mk_bundle (identifier b) (publisher b) (homepage b) (icon b) (resources b) (resources_map b) (copyright b) (license b)
    (license_file b) (category b) (file_associations b) (bundle_short_description b) (bundle_long_description b) (external_bin b)
    (bundle_deep_links b) (deb b) (mk_appimage (appimage_files (appimage b)) (bundle_media_framework (appimage b)) true) (rpm b)
    (updater b) (webview_install_mode b).

Definition uses_opener (s : RustAppSettings) : bool :=
  match CargoManifest.table_get "dependencies" (CargoManifest.inner (manifest s)) ≫= CargoManifest.as_table with
  | Some deps => bool_decide (is_Some (CargoManifest.table_get "tauri-plugin-opener" deps))
  | None => false
  end.

Definition updater_settings (c : Config) : outcome CliError (option UpdaterSettings) :=
  let artifacts := create_updater_artifacts (bundle c) in
  if decide (artifacts = BoolArtifacts false) then Ok None
  else
    u ← match updater_plugin c with
        | Some u => u
        | None => Err (CliFailed "failed to get updater configuration: plugins > updater doesn't exist")
        end;
    Ok (Some (mk_updater (bool_decide (artifacts = V1Artifacts)) (updater_pubkey u) (mode_msiexec_args (install_mode u)))).

Definition get_bundle_settings (fuel : nat) (s : RustAppSettings) (c : Config) (features : list string)
    : outcome CliError BundleSettings :=
  let arch64bits := starts_with "x86_64" (target_triple s) || starts_with "aarch64" (target_triple s) in
  updater ← updater_settings c;
  settings ← tauri_config_to_bundle_settings fuel s features (config_identifier c) (bundle c) updater arch64bits;
  settings ← match deep_link_desktop c with
             | Some links => links ← links; Ok (with_links (match links with OneLink p => [p] | LinkList l => l end) settings)
             | None => Ok settings
             end;
  let settings := match shell_open c with
                  | Some (OpenBool true) | Some (OpenString _) => with_xdg_open settings
                  | _ => settings
                  end in
  Ok (if uses_opener s then with_xdg_open settings else settings).

(** ** [get_bundler_settings] *)
Definition enabled_features (o : Options) : list string :=
  default [] (features o) ++ (if decide ("--no-default-features" ∈ args o) then [] else ["default"]).

Definition get_bundler_settings (fuel : nat) (host : outcome BundleError string) (s : RustAppSettings) (o : Options) (c : Config)
    (out : PathBuf) (package_types : list PackageType) : outcome CliError Settings :=
  target ← match opt_target o with Some t => Ok t | None => map_err BundleFailed host end;
  bins ← match config_main_binary_name c with
         | Some n => _ ← ok_or (find_main (get_binaries s)) (CliFailed "no main bin?"); Ok (update_main (set_name n) (get_binaries s))
         | None => Ok (get_binaries s)
         end;
  bundle_settings ← get_bundle_settings fuel s c (enabled_features o);
  tools ← (if use_local_tools_dir (bundle c) then d ← metadata_target_directory; Ok (Some d) else Ok None);
  map_err BundleFailed
    (build host (mk_builder None (Some out) (Some package_types) (Some (package_settings s)) bundle_settings bins (Some target) tools)).

(** The package types of the [bundle] command. *)
Definition requested_package_types (o : BundleOptions) (c : Config) : list PackageType :=
  match bundle_bundles o with
  | Some bundles => bundles
  | None => PackageType_from <$> BundleTarget_to_vec (targets (bundle c))
  end.

(** [bundle]: the hook, the settings and the packagers; [hook] is whether
    [beforeBundleCommand] succeeds. *)
Definition bundle_command {FS : ResourceFs} {PK : Packagers} (fuel : nat) (host : outcome BundleError string) (hook : bool)
    (s : RustAppSettings) (o : BundleOptions) (c : Config) (out : PathBuf) : outcome CliError (list Bundle) :=
  match requested_package_types o c with
  | [] => Ok []
  | package_types =>
      _ ← (if before_bundle_command c && negb hook then Err (CliFailed "beforeBundleCommand") else Ok ());
      settings ← get_bundler_settings fuel host s (Options_from_bundle o) c out package_types;
      map_err BundleFailed (bundle_project settings)
  end.

(** ** [env] *)
Definition env (s : RustAppSettings) : list (string * string) :=
  let triple := ("TAURI_ENV_TARGET_TRIPLE", target_triple s) in
  let vars arch host :=
    [triple; ("TAURI_ENV_ARCH", arch); ("TAURI_ENV_PLATFORM", host);
     ("TAURI_ENV_FAMILY", if decide (host = "windows") then "windows" else "unix")] in
  match split_on "-" (target_triple s) with
  | [arch; _; host] => vars arch host
  | [arch; _; host; _] => vars arch host
  | _ => [triple]
  end.

End Interface.

(** * Proofs *)

(** ** Names of binaries *)

(** A file name without a dot. *)
Definition plain_name (n : string) : Prop := Paths.name n ∧ "."%char ∉ bytes n.

Lemma split_name_plain n : "."%char ∉ bytes n → split_name n = (n, None).
Proof.
  intros H. unfold split_name, split_on. rewrite split_bytes_single by done. done.
Qed.

Lemma split_name_extension n e :
  n ≠ "" → "."%char ∉ bytes n → "."%char ∉ bytes e → split_name (n +:+ "." +:+ e) = (n, Some e).
Proof.
  intros Hn Hd He. unfold split_name, split_on. rewrite !bytes_append.
  change (bytes n ++ bytes "." ++ bytes e) with (bytes n ++ "."%char :: bytes e). rewrite split_bytes_app.
  rewrite !split_bytes_single by done. cbn. rewrite !of_bytes_bytes. by rewrite decide_False.
Qed.

Lemma join_name out n : out ≠ [] → Paths.name n → join out n = out ++ [Normal n].
Proof.
  intros Ho Hn. unfold join, components, lead. rewrite (name_relative n Hn), (name_body n Hn). destruct Hn as [Hs Hc]. rewrite Hs.
  cbn [head]. rewrite decide_False. { by destruct out. }
  intros [= ->]. done.
Qed.

Lemma extension_snoc p n e :
  with_extension (p ++ [Normal n]) e = p ++ [Normal (if decide (e = "") then (split_name n).1 else (split_name n).1 +:+ "." +:+ e)].
Proof.
  unfold with_extension, path_file_stem, path_file_name. rewrite last_snoc. cbn [fmap option_fmap option_map]. unfold with_name.
  rewrite length_app. cbn [length]. by rewrite Nat.add_sub, take_app_length.
Qed.

Lemma path_extension_snoc p n : path_extension (p ++ [Normal n]) = (split_name n).2.
Proof. unfold path_extension, path_file_name. by rewrite last_snoc. Qed.

Lemma file_name_snoc p n m : with_file_name (p ++ [Normal n]) m = join p m.
Proof.
  unfold with_file_name, path_file_name. rewrite last_snoc, length_app. cbn [length]. by rewrite Nat.add_sub, take_app_length.
Qed.

Lemma find_main_update f l b :
  (∀ b, main (f b) = main b) → find_main l = Some b → find_main (update_main f l) = Some (f b).
Proof.
  intros Hf. unfold find_main. induction l as [|x l IH]; [done|]. cbn [update_main]. destruct (main x) eqn:E.
  - rewrite filter_cons_True by done. intros [= <-]. rewrite filter_cons_True by by rewrite Hf. done.
  - rewrite !filter_cons_False by congruence. exact IH.
Qed.

Lemma rename_plain {CE : CargoEnv} out n m (windows : bool) path :
  out ≠ [] → plain_name n → (∀ x, m = Some x → plain_name x) →
  rename_app (with_extension (join out n) (if windows then "exe" else "")) m = Ok path →
  path = (if windows then with_extension (join out (default n m)) "exe" else join out (default n m)).
Proof.
  intros Ho [Hn Hd] Hm H. rewrite join_name, extension_snoc, split_name_plain in H by done. cbn [fst] in H.
  destruct m as [m|]; cbn [rename_app] in H.
  - change (default n (Some m)) with m. destruct (Hm m eq_refl) as [Hm1 Hm2]. rewrite file_name_snoc, path_extension_snoc in H.
    rewrite (join_name out m), extension_snoc, (split_name_plain m) in H by done.
    destruct (rename_file _ _); [|done]. injection H as <-. rewrite (join_name out m) by done. destruct windows.
    + rewrite (decide_False (P := "exe" = "")) by done.
      rewrite (split_name_extension n "exe"); [|by apply name_nonempty|done|by apply (bool_decide_unpack _)].
      cbn [snd default from_option id]. by rewrite extension_snoc, (split_name_plain m).
    + rewrite (decide_True (P := "" = "")) by done. by rewrite split_name_plain.
  - change (default n None) with n. injection H as <-. rewrite (join_name out n) by done. destruct windows; [|done].
    by rewrite extension_snoc, split_name_plain.
Qed.

Section BuildProofs.
Context {ML : CargoManifest.ManifestLib} {CE : CargoEnv} {SL : SimilarityLib}.

Lemma bundler_settings_main fuel host s o c out types settings b :
  get_bundler_settings fuel host s o c out types = Ok settings → find_main (get_binaries s) = Some b →
  project_out_directory settings = out ∧
  main_binary settings = Ok (match config_main_binary_name c with Some n => set_name n b | None => b end).
Proof.
  unfold get_bundler_settings. intros (t & _ & (bins & Hbins & (bs & _ & (tools & _ & H)%bind_ok)%bind_ok)%bind_ok)%bind_ok Hb.
  cbn in H. injection H as <-. split; [done|]. unfold main_binary. cbn [binaries].
  destruct (config_main_binary_name c) as [n|].
  - rewrite Hb in Hbins. injection Hbins as <-. by rewrite (find_main_update _ _ b).
  - injection Hbins as <-. by rewrite Hb.
Qed.

(** C20. The bundler takes the main binary from the path the build put it at, with
    and without a name of its own in the configuration, as long as the names
    are single and have no dot ([dotted_name_not_found] shows one that has), the
    output directory has a name and both agree on whether the target is
    Windows. *)
Theorem built_binary_bundled fuel host s o o' c out types config_features path settings :
  out_dir s o = Ok out → out ≠ [] → (∀ b, find_main (get_binaries s) = Some b → plain_name (name b)) →
  (∀ n, config_main_binary_name c = Some n → plain_name n) →
  build_app s o config_features (config_main_binary_name c) = Ok path →
  get_bundler_settings fuel host s o' c out types = Ok settings →
  (third_component (target settings) = "windows" ↔ Acl.str_contains "windows" (target_triple s) = true) →
  ∃ b, main_binary settings = Ok b ∧ binary_path settings b = path.
Proof.
  intros Hout Hne Hn Hm Hbuild Hset Hw. unfold build_app in Hbuild. rewrite Hout in Hbuild. cbn [mbind outcome_bind] in Hbuild.
  apply bind_ok in Hbuild as (bin & Hbin & (u & _ & Hren)%bind_ok). unfold app_binary_path in Hbin.
  apply bind_ok in Hbin as (b & Hb%ok_or_ok & Hbin). rewrite Hout in Hbin. cbn [mbind outcome_bind] in Hbin.
  injection Hbin as <-. apply rename_plain in Hren; [|done|by apply Hn|done].
  destruct (bundler_settings_main _ _ _ _ _ _ _ _ _ Hset Hb) as [Hdir Hmain]. eexists. split; [exact Hmain|].
  unfold binary_path. rewrite Hdir. rewrite Hren.
  replace (name (match config_main_binary_name c with Some n => set_name n b | None => b end))
    with (default (name b) (config_main_binary_name c)) by by destruct (config_main_binary_name c).
  destruct (Acl.str_contains "windows" (target_triple s)).
  - by rewrite decide_True by by apply Hw.
  - rewrite decide_False; [done|]. intros E%Hw. done.
Qed.

(** A name with a dot in the configuration: the build renames the binary to the
    part before it, and the bundler looks for the whole name. *)
Theorem dotted_name_not_found out n :
  out ≠ [] → plain_name n → (∀ p q, rename_file p q = true) →
  rename_app (join out n) (Some "app-1.0") = Ok (out ++ [Normal "app-1"]) ∧ join out "app-1.0" = out ++ [Normal "app-1.0"].
Proof.
  intros Ho [Hn Hd] Hr. assert (Paths.name "app-1.0") as Ha by by split. rewrite !join_name by done. split; [|done].
  cbn [rename_app]. rewrite file_name_snoc, path_extension_snoc, join_name, split_name_plain by done. cbn [snd default from_option].
  by rewrite Hr, extension_snoc.
Qed.

End BuildProofs.

(** ** The profile of a build *)
Lemma get_cargo_option_none l o : Forall (λ a, starts_with o a = false) l → get_cargo_option l o = None.
Proof. induction 1 as [|a l Ha Hl IH]; [done|]. cbn [get_cargo_option]. by rewrite Ha. Qed.

Lemma get_cargo_option_next o l l' v :
  Forall (λ a, starts_with o a = false) l → split_once "=" o = None → get_cargo_option (l ++ o :: v :: l') o = Some v.
Proof.
  intros Hl Ho. induction Hl as [|a l Ha Hl IH]; rewrite ?app_nil_l, <- ?app_comm_cons; cbn [get_cargo_option].
  - assert (starts_with o o = true) as -> by (apply starts_with_spec; exists ""; by rewrite append_nil_r). by rewrite Ho.
  - by rewrite Ha.
Qed.

(** The flags that [cargo_command] adds for the profile. *)
Definition release_flag (o : Options) : list string :=
  if negb (debug o) && negb (bool_decide ("--profile" ∈ args o)) then ["--release"] else [].

(** Cargo is told the profile whose directory the binary is looked for in: the
    default ones by the flag, another one by the argument with its value. *)
Theorem profile_directory_matches o before after profile :
  Forall (λ a, starts_with "--profile" a = false) before →
  (args o = before → get_profile_dir o = (if debug o then "debug" else "release") ∧
                     release_flag o = (if debug o then [] else ["--release"])) ∧
  (args o = before ++ "--profile" :: profile :: after → profile ≠ "dev" →
     get_profile_dir o = profile ∧ release_flag o = []).
Proof.
  intros Hb. split.
  - intros Ha. unfold get_profile_dir, get_profile, release_flag. rewrite Ha, get_cargo_option_none by done.
    rewrite bool_decide_false. { by destruct (debug o). }
    intros Hin. rewrite Forall_forall in Hb. by specialize (Hb _ Hin).
  - intros Ha Hp. unfold get_profile_dir, get_profile, release_flag. rewrite Ha, get_cargo_option_next by done.
    cbn [default from_option id]. rewrite decide_False by done. split; [done|].
    rewrite bool_decide_true by set_solver. by rewrite andb_false_r.
Qed.

(** The profile in one argument with an equals sign: the directory is that of the
    profile, and Cargo is also told to use the release profile. *)
Theorem inline_profile_conflicts :
  let o := mk_options None false None None ["--profile=fast"] true in
  get_profile_dir o = "fast" ∧
  cargo_command false o None [] = Ok ("cargo", ["build"; "--profile=fast"; "--release"]).
Proof. done. Qed.

(** The profile that is called [dev] has the directory [debug]; a target directory
    of its own loses the directory of the target triple. *)
Theorem target_dir_without_triple `{CE : CargoEnv} triple dir o :
  get_cargo_option (args o) "--target-dir" = Some dir →
  get_target_dir (Some triple) o = get_target_dir None o.
Proof. intros H. unfold get_target_dir. by rewrite H. Qed.

(** ** Features *)
Section FeatureProofs.
Context {ML : CargoManifest.ManifestLib}.

Lemma shared_keeps fuel d mobile m a f a' f' x :
  shared_options fuel d mobile m a f = Ok (a', f') → x ∈ default [] f → x ∈ default [] f'.
Proof.
  unfold shared_options, push_feature. destruct mobile; [intros [= <- <-] H; cbn; set_solver|].
  intros (l & _ & H)%bind_ok Hx. case_decide; injection H as <- <-; [done|cbn; set_solver].
Qed.

(** A production build always has the custom protocol. *)
Theorem build_has_custom_protocol fuel mobile m a f a' f' :
  build_options fuel mobile m a f = Ok (a', f') → "tauri/custom-protocol" ∈ default [] f'.
Proof. intros H. eapply shared_keeps; [exact H|]. unfold push_feature. cbn. set_solver. Qed.

(** In development no feature that Cargo would enable by default brings the
    custom protocol, directly or by one step: the default features are switched
    off and those listed instead are not it and do not list it. *)
Theorem dev_without_custom_protocol fuel mobile m a f a' run f' x :
  dev_options fuel mobile m a f = Ok (a', run, f') →
  "--no-default-features" ∈ a' ∧
  (x ∈ default [] f' → x ∈ default [] f ∨ x = "tauri/rustls-tls" ∨ x = "tauri/native-tls" ∨
    (x ≠ "tauri/custom-protocol" ∨ is_Some (CargoManifest.Manifest_features m !! x)) ∧
    ∀ l, CargoManifest.Manifest_features m !! x = Some l → "tauri/custom-protocol" ∉ l).
Proof.
  unfold dev_options. destruct (split_args a) as [da ra]. intros ([a1 f1] & Hs & H)%bind_ok.
  assert (x ∈ default [] f1 → x ∈ default [] f ∨ x = "tauri/rustls-tls" ∨ x = "tauri/native-tls") as Hf1.
  { unfold shared_options, push_feature in Hs. destruct mobile; [injection Hs as <- <-; cbn; set_solver|].
    apply bind_ok in Hs as (l & _ & Hs). destruct (decide (_ ∈ l)); simplify_eq; cbn; set_solver. }
  cbn beta iota zeta in H. destruct (decide (_ ∈ a1)) as [Hd|Hd]; [injection H as <- <- <-; split; [done|naive_solver]|].
  injection H as <- <- <-. split; [set_solver|].
  set (l := filter _ _). intros Hx. assert (x ∈ default [] f1 ∨ x ∈ l) as [Hx'|Hx'].
  { destruct l eqn:E; [by left|]. cbn in Hx. by apply elem_of_app in Hx. }
  - destruct (Hf1 Hx') as [?|[?|?]]; auto.
  - do 3 right. apply list_elem_of_filter in Hx' as [Hk _]. unfold kept_in_dev in Hk.
    destruct (CargoManifest.Manifest_features m !! x) as [es|] eqn:E.
    + split; [right; by eexists|]. intros ? [= <-]. by apply negb_true_iff, bool_decide_eq_false in Hk.
    + split; [left; by apply negb_true_iff, bool_decide_eq_false in Hk|done].
Qed.

End FeatureProofs.

(** The arguments of the build are not kept for the bundler, so its features
    always have the default ones, also when the build was made without them. *)
Theorem bundle_forgets_arguments o :
  enabled_features (Options_from_bundle (BundleOptions_from o)) = default [] (build_features o) ++ ["default"].
Proof. reflexivity. Qed.

(** ** The main binary *)
Lemma find_main_is_some l : is_Some (find_main l) ↔ ∃ b, b ∈ l ∧ main b = true.
Proof.
  unfold find_main. split.
  - intros [b Hb]. exists b. destruct (filter _ l) as [|x k] eqn:E; [done|]. injection Hb as ->.
    assert (b ∈ filter (λ b, main b = true) l) as H by (rewrite E; by left). apply list_elem_of_filter in H. tauto.
  - intros (b & Hb & Hm). destruct (filter (λ b, main b = true) l) as [|x k] eqn:E; [|by eexists].
    assert (b ∈ filter (λ b, main b = true) l) as H by by apply list_elem_of_filter. rewrite E in H. by apply not_elem_of_nil in H.
Qed.

Lemma mark_main_spec n l l' : mark_main n l = Some l' → ∃ b, b ∈ l' ∧ name b = n ∧ main b = true.
Proof.
  revert l'. induction l as [|b l IH]; intros l'; [done|]. cbn [mark_main]. case_decide as Hn.
  - intros [= <-]. exists (set_main true b). by split; [left|].
  - destruct (mark_main n l) as [k|]; [|done]. intros [= <-]. destruct (IH k eq_refl) as (x & Hx & ?). exists x. by split; [right|].
Qed.

Section BinaryProofs.
Context {CE : CargoEnv}.

Lemma discovered_kept l es b : b ∈ l → b ∈ foldl add_discovered l es.
Proof.
  revert l. induction es as [|e es IH]; intros l H; [done|]. cbn [foldl]. apply IH. unfold add_discovered.
  destruct (bin_exists _ _ _); [done|]. apply elem_of_app. by left.
Qed.

Lemma last_step l (n : string) b :
  b ∈ l → main b = true →
  is_Some (find_main (match l with [] => [BundleBinary_new n true] | [b] => [set_main true b] | _ => l end)).
Proof.
  intros Hb Hm. apply find_main_is_some. destruct l as [|x [|y l]]; [by apply not_elem_of_nil in Hb| |by exists b].
  exists (set_main true x). by split; [left|].
Qed.

(** There is a main binary when Cargo is told which one to run, when a declared
    binary has the name of the package, and when there is just one. *)
Theorem main_binary_found s :
  is_Some (Bundler.default_run (package_settings s)) ∨
  (∃ b, b ∈ default [] (cargo_bin (cargo_settings s)) ∧ bin_name b = cargo_name (cargo_package_settings s)) ∨
  length (get_binaries s) ≤ 1 →
  is_Some (find_main (get_binaries s)).
Proof.
  unfold get_binaries. set (l := foldl _ _ _). intros [[r Hr]|[(b & Hb & Hn)|Hlen]].
  - rewrite Hr. destruct (mark_main r l) as [l'|] eqn:E.
    + destruct (mark_main_spec _ _ _ E) as (b & Hb & _ & Hm). by eapply last_step.
    + apply (last_step _ _ (BundleBinary_new r true)); [|done]. apply elem_of_app. right. by left.
  - set (b' := mk_binary (bin_name b) true (bin_path b)). assert (b' ∈ l) as Hl.
    { apply discovered_kept. unfold declared_binaries. apply list_elem_of_fmap. exists b. split; [|done].
      unfold b'. f_equal. symmetry. apply bool_decide_true. by left. }
    destruct (Bundler.default_run (package_settings s)) as [r|]; [|by apply (last_step _ _ b')].
    destruct (mark_main r l) as [l'|] eqn:E.
    + destruct (mark_main_spec _ _ _ E) as (x & Hx & _ & Hm). by eapply last_step.
    + apply (last_step _ _ b'); [|done]. apply elem_of_app. by left.
  - destruct (match _ with Some _ => _ | None => l end) as [|x [|y k]]; [by eexists|by eexists|simpl in Hlen; lia].
Qed.

End BinaryProofs.

(** ** The settings made of a configuration *)
Section ConfigProofs.
Context {ML : CargoManifest.ManifestLib} {CE : CargoEnv} {SL : SimilarityLib}.

(** What the settings keep of the configuration. *)
Definition configured (c : BundleConfig) (b : BundleSettings) : Prop :=
  match default (ResourceList []) (c_resources c) with
  | ResourceList l => resources b = Some l ∧ resources_map b = None
  | ResourceMap m => resources b = None ∧ resources_map b = Some m
  end ∧ external_bin b = c_external_bin c ∧
  (∃ l, deb_depends (deb b) = Some l ∧ "libwebkit2gtk-4.1-0" ∈ l ∧ "libgtk-3-0" ∈ l ∧
        ∀ d, d ∈ default [] (deb_depends (c_deb c)) → d ∈ l).

Lemma config_configured fuel s f id c u a b : tauri_config_to_bundle_settings fuel s f id c u a = Ok b → configured c b.
Proof.
  unfold tauri_config_to_bundle_settings.
  intros (fs & _ & ([[td tl] files] & _ & H)%bind_ok)%bind_ok. cbn beta iota zeta in H.
  assert (∀ l, some_list (l ++ td ++ ["libwebkit2gtk-4.1-0"; "libgtk-3-0"]) = Some (l ++ td ++ ["libwebkit2gtk-4.1-0"; "libgtk-3-0"])) as Hs.
  { intros [|x l]; [by destruct td|done]. }
  unfold configured. destruct (default (ResourceList []) (c_resources c));
    apply bind_ok in H as (cat & _ & (lic & _ & [= <-])%bind_ok); cbn [resources resources_map external_bin deb];
    (split; [done|]); (split; [done|]); unfold with_deb_depends; cbn [deb_depends]; rewrite Hs;
    (eexists; split_and!; [done|set_solver..]).
Qed.

Lemma bundle_settings_configured fuel s c f b : get_bundle_settings fuel s c f = Ok b → configured (bundle c) b.
Proof.
  unfold get_bundle_settings. intros (u & _ & (b1 & Hb & (b2 & Hl & H)%bind_ok)%bind_ok)%bind_ok.
  apply config_configured in Hb. assert (configured (bundle c) b2) as H2.
  { destruct (deep_link_desktop c) as [links|]; [|by injection Hl as <-]. apply bind_ok in Hl as (l & _ & [= <-]). exact Hb. }
  injection H as <-.
  assert (configured (bundle c) (match shell_open c with Some (OpenBool true) | Some (OpenString _) => with_xdg_open b2 | _ => b2 end))
    as H3 by (destruct (shell_open c) as [[[]| |]|]; exact H2).
  destruct (uses_opener s); exact H3.
Qed.

(** The bundler gets the resources of the configuration, as a list or as a map and
    never as both, its external binaries with the target triple, and a Debian
    package that needs the webview besides what is configured. *)
Theorem configuration_reaches_bundler fuel host s o c out types settings :
  get_bundler_settings fuel host s o c out types = Ok settings →
  resource_files settings = Ok (match c_resources (bundle c) with
                                | Some (ResourceMap m) => BundleResources.from_map m true
                                | Some (ResourceList l) => BundleResources.ResourcePaths_new l true
                                | None => BundleResources.ResourcePaths_new [] true
                                end) ∧
  external_bin (bundle_settings settings) =
    (λ l, BundleResources.external_binaries l (target settings)) <$> c_external_bin (bundle c) ∧
  ∃ l, deb_depends (deb (bundle_settings settings)) = Some l ∧ "libwebkit2gtk-4.1-0" ∈ l ∧
       ∀ d, d ∈ default [] (deb_depends (c_deb (bundle c))) → d ∈ l.
Proof.
  unfold get_bundler_settings. intros (t & _ & (bins & _ & (b & Hb & (tools & _ & H)%bind_ok)%bind_ok)%bind_ok)%bind_ok.
  apply bundle_settings_configured in Hb as (Hr & He & l & Hl & Hw & _ & Hd). cbn in H. injection H as <-. split_and!.
  - unfold resource_files. cbn [bundle_settings with_external_bin resources resources_map].
    destruct (c_resources (bundle c)) as [[]|]; cbn in Hr; destruct Hr as [-> ->]; done.
  - cbn. by rewrite He.
  - exists l. by split_and!.
Qed.

(** The library of the tray icon replaces the one that the configuration puts at
    the same place of the AppImage: the check looks for the source of the
    library among the targets. *)
Theorem own_tray_library_replaced files own features :
  "tauri/tray-icon" ∈ features → ayatana_appindicator = Some "1" → library_path "ayatana-appindicator3-0.1" = Some "/usr/lib/x86_64" →
  files !! components "/usr/lib/libayatana-appindicator3.so.1" = Some own →
  files !! components "/usr/lib/x86_64/libayatana-appindicator3.so.1" = None →
  ∃ deb libs files', tray_dependency features files = Ok (deb, libs, files') ∧
    files' !! components "/usr/lib/libayatana-appindicator3.so.1" =
      Some (components "/usr/lib/x86_64/libayatana-appindicator3.so.1").
Proof.
  intros Hf Ha Hl Ho Hn. unfold tray_dependency. rewrite decide_True by by right. unfold tray_library.
  rewrite Ha, decide_True by by right. rewrite Hl. cbn [expect mbind outcome_bind].
  change ("/usr/lib/x86_64" +:+ "/libayatana-appindicator3.so.1") with "/usr/lib/x86_64/libayatana-appindicator3.so.1".
  cbn [path_file_name]. set (p := components "/usr/lib/x86_64/libayatana-appindicator3.so.1") in *.
  assert (path_file_name p = Some "libayatana-appindicator3.so.1") as -> by reflexivity. cbn [expect mbind outcome_bind].
  rewrite decide_False by by rewrite Hn; intros []. do 3 eexists. split; [done|].
  change (components "/usr/lib/libayatana-appindicator3.so.1") with (join (components "/usr/lib/") "libayatana-appindicator3.so.1").
  apply lookup_insert_eq.
Qed.

End ConfigProofs.

(** ** Examples *)
#[local] Instance ex_similarity : SimilarityLib := {| jaro_winkler _ _ := 0%Q |}.

Definition ex_package (default_run : option string) : CargoPackageSettings :=
  mk_cargo_package "app" (Some (Defined "1.0.0")) None None None None default_run.

Definition ex_env (sources : list PathBuf) : CargoEnv := {|
  current_dir := [Normal "app"]; tauri_dir := [Normal "app"]; metadata_target_directory := Ok [Normal "target"];
  load_cargo := Err (CliFailed ""); load_workspace := Err (CliFailed ""); rustc_host := "x86_64-unknown-linux-gnu";
  file_exists p := bool_decide (p = components "app/src/main.rs"); read_dir p := Some sources;
  rename_file _ _ := true; read_cargo_config _ := Ok None; cargo_home := None; run_cargo _ := true; run_lipo _ _ := true;
  rustup_targets := None; ayatana_appindicator := None; library_path _ := None;
|}.

Definition ex_app (bins : option (list BinarySettings)) (default_run : option string) : RustAppSettings :=
  mk_app (CargoManifest.mk_manifest [] ∅) (mk_cargo (Some (ex_package default_run)) None bins) (ex_package default_run) None
    (mk_package "App" "1.0.0" "" None None default_run) None "x86_64-unknown-linux-gnu".

(** Binaries that Cargo finds by itself have no source path, and every path ends
    with an empty one: after the first of them all others count as known, the
    one of [src/main.rs] too, and it becomes the main binary. *)
Theorem second_binary_dropped :
  get_binaries (CE := ex_env [components "app/src/bin/tool.rs"; components "app/src/bin/other.rs"]) (ex_app None None) =
  [mk_binary "tool" true None].
Proof. vm_compute. reflexivity. Qed.

(** A declared binary with the name of the package is a main binary even when
    another one is to be run by default, and it comes first. *)
Theorem default_run_not_first :
  find_main (get_binaries (CE := ex_env []) (ex_app (Some [mk_bin "app" (Some "src/main.rs"); mk_bin "cli" (Some "src/cli.rs")]) (Some "cli")))
  = Some (mk_binary "app" true (Some "src/main.rs")).
Proof. vm_compute. reflexivity. Qed.

Definition ex_config : Config :=
  mk_config "com.app" (Some "my-app")
    (mk_bundle_config true TargetAll (BoolArtifacts false) None None [] (Some (ResourceList ["data.txt"])) None None None None None
       None None false None ∅ false
       (mk_deb None None None None None ∅ None None None None None None None None)
       (mk_rpm None None None None None "1" 0 ∅ None None None None None None) SkipInstall)
    false None None None.

Definition ex_options : Options := mk_options None false None None [] true.

Definition ex_out : PathBuf := components "target/release".

#[local] Existing Instance CargoManifest.ex_lib.

Definition ex_bundler_settings : Settings :=
  match get_bundler_settings (CE := ex_env []) 3 (Ok "x86_64-unknown-linux-gnu") (ex_app None None) ex_options ex_config ex_out [Deb]
  with Ok s => s | _ => LinuxPackages.ex_list end.

Lemma ex_settings_made :
  get_bundler_settings (CE := ex_env []) 3 (Ok "x86_64-unknown-linux-gnu") (ex_app None None) ex_options ex_config ex_out [Deb] =
  Ok ex_bundler_settings.
Proof.
  unfold ex_bundler_settings. destruct (get_bundler_settings _ _ _ _ _ _ _) as [x| | |] eqn:E; [done|exfalso..];
    assert (match get_bundler_settings (CE := ex_env []) 3 (Ok "x86_64-unknown-linux-gnu") (ex_app None None) ex_options ex_config
              ex_out [Deb] with Ok _ => true | _ => false end = true) as H by (vm_compute; reflexivity); by rewrite E in H.
Qed.

Lemma plain_app : plain_name "app" ∧ plain_name "my-app".
Proof. split; (split; [by split|by apply (bool_decide_unpack _)]). Qed.

Lemma built_binary_bundled_witness :
  ∃ b, main_binary ex_bundler_settings = Ok b ∧ binary_path ex_bundler_settings b = components "target/release/my-app".
Proof.
  refine (built_binary_bundled (CE := ex_env []) 3 (Ok "x86_64-unknown-linux-gnu") (ex_app None None) ex_options ex_options ex_config
    ex_out [Deb] [] (components "target/release/my-app") ex_bundler_settings _ _ _ _ _ ex_settings_made _).
  - vm_compute. reflexivity.
  - discriminate.
  - intros b [= <-]. exact (proj1 plain_app).
  - intros n [= <-]. exact (proj2 plain_app).
  - vm_compute. reflexivity.
  - split; intros H; vm_compute in H; discriminate.
Defined.

Lemma configuration_reaches_bundler_witness :
  resource_files ex_bundler_settings = Ok (BundleResources.ResourcePaths_new ["data.txt"] true) ∧
  external_bin (bundle_settings ex_bundler_settings) = None ∧
  ∃ l, deb_depends (deb (bundle_settings ex_bundler_settings)) = Some l ∧ "libwebkit2gtk-4.1-0" ∈ l ∧
       ∀ d, d ∈ [] → d ∈ l.
Proof.
  exact (configuration_reaches_bundler (CE := ex_env []) 3 (Ok "x86_64-unknown-linux-gnu") (ex_app None None) ex_options ex_config
    ex_out [Deb] ex_bundler_settings ex_settings_made).
Defined.

End RustInterface.
