(* ===== verification/WindowsInstallers.v ===== *)
(** * The installers of Windows

    Models [tauri-bundler/Source/bundle/windows/msi/mod.rs] and [nsis/mod.rs]
    with [sign.rs] and [util.rs]: the versions, the resources and the binaries
    of an installer, the data its template gets, and the commands that sign. The
    MSI packager runs on Windows, the NSIS packager as on Linux; paths are their
    components, so the separators matter only where a text is made of them. The
    WiX and NSIS compilers, downloads, templates and identifiers are
    parameters. *)
From Stdlib Require Import Ascii DecimalString DecimalN DecimalFacts.
From S2P Require Import Prelude Acl Paths Numbers MigrateConfig BuildSupport BundleResources Bundler.
Import Paths.

(** A version of the [semver] package. *)
Record Version := mk_version {
  major : N;
  minor : N;
  patch : N;
  pre : string;
  build_metadata : string;
}.

Module WindowsInstallers.
Import Bundler.

(** ** Settings *)
Inductive NSISInstallerMode := CurrentUser | PerMachine | BothModes.
Inductive NsisCompression := Zlib | NBzip2 | Lzma | NNone.

Record WixSettings := mk_wix {
  wix_version : option string;
  upgrade_code : option string;
  wix_language : list (string * option PathBuf);
  wix_template : option PathBuf;
  fragment_paths : list PathBuf;
  component_group_refs : list string;
  component_refs : list string;
  feature_group_refs : list string;
  feature_refs : list string;
  merge_refs : list string;
  enable_elevated_update_task : bool;
  banner_path : option PathBuf;
  dialog_image_path : option PathBuf;
  fips_compliant : bool;
}.

Record NsisSettings := mk_nsis {
  nsis_template : option PathBuf;
  header_image : option PathBuf;
  sidebar_image : option PathBuf;
  installer_icon : option PathBuf;
  install_mode : NSISInstallerMode;
  languages : option (list string);
  custom_language_files : option (gmap string PathBuf);
  display_language_selector : bool;
  compression : NsisCompression;
  start_menu_folder : option string;
  installer_hooks : option PathBuf;
  minimum_webview2_version : option string;
}.

Record CustomSignCommandSettings := mk_sign_command { sign_cmd : string; sign_args : list string }.

(** [Settings::windows]; the mode of the webview installation is a field of the
    settings of [Bundler]. *)
Record WindowsSettings := mk_windows {
  digest_algorithm : option string;
  certificate_thumbprint : option string;
  timestamp_url : option string;
  tsp : bool;
  wix : option WixSettings;
  nsis : option NsisSettings;
  windows_icon_path : PathBuf;
  allow_downgrades : bool;
  sign_command_settings : option CustomSignCommandSettings;
}.

(** [WixLanguage::default]. *)
Definition WixLanguage_default : list (string * option PathBuf) := [("en-US", None)].

(** What the template of an installer is given for a name. *)
Inductive Json :=
| JText (s : string)
| JOptional (s : option string)
| JFlag (b : bool)
| JSize (n : N)
| JPath (p : PathBuf)
| JTexts (l : list string)
| JPaths (l : list PathBuf)
| JBinaries (m : gmap PathBuf string)
| JWixBinaries (l : list (string * string * PathBuf))
| JResources (m : gmap PathBuf (string * string))
| JModules (l : list (string * PathBuf))
| JAssociations (l : list FileAssociation).

Abbreviation Data := (gmap string Json).

(** The parameters: [semver], [uuid], [dunce], [glob], the file system, the
    network, [regex], [handlebars] and the compilers. *)
Class WindowsLib := {
  semver_parse : string → option Version;
  (** the identifiers that are drawn, and their two texts *)
  new_v4 : nat → N;
  uuid_v5 : string → string → string;
  uuid_simple : N → string;
  uuid_hyphenated : N → string;
  current_dir : PathBuf;
  temp_dir : PathBuf;
  cache_dir : PathBuf;
  simplified : PathBuf → PathBuf;
  canonicalize : PathBuf → option PathBuf;
  html_escape : string → string;
  (** the files of a directory with an extension, as [glob] finds them *)
  glob_extension : PathBuf → string → list (string + PathBuf);
  path_there : PathBuf → bool;
  file_text : PathBuf → option string;
  file_size : PathBuf → option N;
  fetch : string → option string;
  verify_file_hash : PathBuf → string → bool;
  download_and_verify : string → string → option string;
  (** the url that a request is redirected to *)
  redirected : string → option string;
  run_command : string → list string → bool;
  debug_command : string → list string → string;
  (** the texts that are compiled into the program, by their file names *)
  included : string → string;
  (** the code page and the identifier of a language of [languages.json] *)
  language_metadata : string → option (N * N);
  to_upper : string → string;
  (** the template of the user, or that of the program *)
  render_nsis : option string → (string → string) → Data → option string;
  render_wix : option string → Data → option string;
  render_task : string → Data → option string;
  (** the extensions of WiX that a fragment names *)
  wix_extensions : string → list string;
}.

Section Installers.
Context {FS : ResourceFs} {WL : WindowsLib}.

Definition failed {A} (text : string) : outcome BundleError A := Err (GenericError text).
Definition required {A} (o : option A) (text : string) : outcome BundleError A := ok_or o (GenericError text).

(** ** Versions *)
Definition u64_max : N := 18446744073709551615.

(** [str::parse::<u64>]. *)
Definition parse_u64 (s : string) : option N :=
  d ← NilZero.uint_of_string (match strip_prefix "+" s with Some r => r | None => s end);
  let n := N.of_uint d in
  if decide (n ≤ u64_max)%N then Some n else None.

Definition validate_wix_version (version_str : string) : outcome BundleError () :=
  match omap parse_u64 (split_on "." version_str) with
  | major :: minor :: patch :: rest =>
      if decide (255 < major)%N then failed "app version major number cannot be greater than 255"
      else if decide (255 < minor)%N then failed "app version minor number cannot be greater than 255"
      else if decide (65535 < patch)%N then failed "app version patch number cannot be greater than 65535"
      else match rest with
           | [build] => if decide (65535 < build)%N then failed "app version build number cannot be greater than 65535" else Ok ()
           | _ => Ok ()
           end
  | _ => failed "app wix version should be in the format major.minor.patch.build (build is optional)"
  end.

Definition dotted (v : Version) : string :=
  print_u32 (major v) +:+ "." +:+ print_u32 (minor v) +:+ "." +:+ print_u32 (patch v).

(** A text that is a number of at most 16 bits. *)
Definition is_u16 (s : string) : bool :=
  match parse_u64 s with Some n => bool_decide (n ≤ 65535)%N | None => false end.

Definition convert_version (version_str : string) : outcome BundleError string :=
  v ← required (semver_parse version_str) "invalid app version";
  if decide (build_metadata v ≠ "") then
    if is_u16 (build_metadata v) then Ok (dotted v +:+ "." +:+ build_metadata v)
    else failed "optional build metadata in app version must be numeric-only and cannot be greater than 65535 for msi target"
  else if decide (pre v ≠ "") then
    if is_u16 (pre v) then Ok (dotted v +:+ "." +:+ pre v)
    else failed "optional pre-release identifier in app version must be numeric-only and cannot be greater than 65535 for msi target"
  else Ok version_str.

Definition add_build_number_if_needed (version_str : string) : outcome BundleError string :=
  v ← required (semver_parse version_str) "invalid app version";
  if decide (build_metadata v ≠ "") then
    if decide (is_Some (parse_u64 (build_metadata v))) then Ok (dotted v +:+ "." +:+ build_metadata v)
    else failed "optional build metadata in app version must be numeric-only"
  else Ok (dotted v +:+ ".0").

(** ** Places *)
Definition windows_arch (s : Settings) : outcome BundleError string :=
  a ← binary_arch s;
  match a with
  | X86_64 => Ok "x64"
  | X86 => Ok "x86"
  | AArch64 => Ok "arm64"
  | _ => Err (ArchError "unsupported architecture")
  end.

Definition app_installer_output_path (s : Settings) (language version : string) (updater : bool) : outcome BundleError PathBuf :=
  arch ← windows_arch s;
  let package_base_name := product_name (package s) +:+ "_" +:+ version +:+ "_" +:+ arch +:+ "_" +:+ language in
  Ok (Bundler.join (project_out_directory s)
       ("bundle/" +:+ (if updater then WIX_UPDATER_OUTPUT_FOLDER_NAME else WIX_OUTPUT_FOLDER_NAME) +:+ "/" +:+ package_base_name +:+ ".msi")).

Definition nsis_installer_path (s : Settings) (arch : string) (updater : bool) : PathBuf :=
  let package_base_name := product_name (package s) +:+ "_" +:+ version (package s) +:+ "_" +:+ arch +:+ "-setup" in
  Bundler.join (project_out_directory s)
    ("bundle/" +:+ (if updater then NSIS_UPDATER_OUTPUT_FOLDER_NAME else NSIS_OUTPUT_FOLDER_NAME) +:+ "/" +:+ package_base_name +:+ ".exe").

(** ** Resources of an MSI installer *)
Record ResourceFile := mk_file { file_guid : string; file_id : string; file_path : PathBuf }.

Inductive ResourceDirectory :=
| mk_dir (dir_path dir_name : string) (files : list ResourceFile) (directories : list ResourceDirectory).

Definition dir_path (d : ResourceDirectory) : string := let '(mk_dir p _ _ _) := d in p.
Definition dir_name (d : ResourceDirectory) : string := let '(mk_dir _ n _ _) := d in n.

Definition add_file (file : ResourceFile) (d : ResourceDirectory) : ResourceDirectory :=
  let '(mk_dir p n files ds) := d in mk_dir p n (files ++ [file]) ds.

(** [position] and [get_mut]. *)
Fixpoint update_first {A} (p : A → bool) (f : A → A) (l : list A) : option (list A) :=
  match l with
  | [] => None
  | x :: l => if p x then Some (f x :: l) else (λ l, x :: l) <$> update_first p f l
  end.

Definition MAIN_SEPARATOR : string := "\".

(** The loop over the directories of a target below the first one. *)
Fixpoint add_at (directories : list string) (path : string) (file : ResourceFile) (d : ResourceDirectory) : ResourceDirectory :=
  match directories with
  | [] => add_file file d
  | directory_name :: directories =>
      let path := path +:+ directory_name +:+ MAIN_SEPARATOR in
      let '(mk_dir p n files ds) := d in
      mk_dir p n files
        match update_first (λ f, bool_decide (dir_path f = path)) (add_at directories path file) ds with
        | Some ds => ds
        | None => ds ++ [add_at directories path file (mk_dir path directory_name [] [])]
        end
  end.

Abbreviation ResourceMap := (gmap string ResourceDirectory).

(** The directories of a target: all of its components but the last one. *)
Definition target_directories (target : PathBuf) : list string := component_str <$> take (length target - 1) target.

Definition source_path (r : BundleResources.Resource) : PathBuf :=
  simplified (join_path current_dir (components (BundleResources.path r))).

Definition new_file (k : nat) (p : PathBuf) : ResourceFile :=
  mk_file (uuid_hyphenated (new_v4 (S k))) ("I" +:+ uuid_simple (new_v4 k)) p.

Definition wix_add_resource (st : ResourceMap * list PathBuf * nat) (i : BundleResources.Item)
    : outcome BundleError (ResourceMap * list PathBuf * nat) :=
  r ← item_path i;
  let '(resources, added_resources, k) := st in
  let resource_path := source_path r in
  if decide (resource_path ∈ added_resources) then Ok st
  else
    let directories := target_directories (components (BundleResources.target r)) in
    let first_directory := default "" (head directories) in
    Ok (entry_or (mk_dir first_directory first_directory [] []) (add_at (tail directories) "" (new_file k resource_path))
          first_directory resources,
        added_resources ++ [resource_path], S (S k)).

Definition add_dll (out_dir : PathBuf) (added_resources : list PathBuf) (st : list ResourceFile * nat) (dll : string + PathBuf)
    : outcome BundleError (list ResourceFile * nat) :=
  match dll with
  | inl e => failed e
  | inr path =>
      relative_path ← expect (BundleResources.strip_components out_dir path) "called `Option::unwrap()` on a `None` value";
      let '(dlls, k) := st in
      if existsb (λ r, path_ends_with r relative_path) added_resources then Ok st
      else Ok (dlls ++ [new_file k (simplified path)], S (S k))
  end.

(** [generate_resource_data] of [msi/mod.rs], when [k] identifiers were drawn. *)
Definition wix_resources (s : Settings) (k : nat) : outcome BundleError (ResourceMap * nat) :=
  it ← resource_files s;
  items ← all_of it;
  '(resources, added_resources, k) ← for_each wix_add_resource items (∅, [], k);
  '(dlls, k) ← for_each (add_dll (project_out_directory s) added_resources) (glob_extension (project_out_directory s) "dll") ([], k);
  Ok (if decide (dlls = []) then resources else <["" := mk_dir "" "" dlls []]> resources, k).

Definition quote (s : string) : string := String "034" (s +:+ String "034" "").

Definition wix_component (f : ResourceFile) : string :=
  "<Component Id=" +:+ quote (file_id f) +:+ " Guid=" +:+ quote (file_guid f) +:+ " Win64=" +:+ quote "$(var.Win64)" +:+ " KeyPath=" +:+
  quote "yes" +:+ "><File Id=" +:+ quote ("PathFile_" +:+ file_id f) +:+ " Source=" +:+
  quote (html_escape (collect_path (file_path f))) +:+ " /></Component>".

(** [ResourceDirectory::get_wix_data]: the text, the identifiers of the files,
    and how many identifiers were drawn. *)
Fixpoint get_wix_data (d : ResourceDirectory) (k : nat) : string * list string * nat :=
  let '(mk_dir _ name files ds) := d in
  let '(directories, ids, k) :=
    (fix go (ds : list ResourceDirectory) (acc : string * list string * nat) :=
       match ds with
       | [] => acc
       | c :: ds =>
           let '(text, ids, k) := acc in
           let '(text', ids', k) := get_wix_data c k in
           go ds (text +:+ text', ids ++ ids', k)
       end) ds ("", file_id <$> files, k) in
  let files := String.concat "" (wix_component <$> files) in
  if decide (name = "") then (files +:+ directories, ids, k)
  else ("<Directory Id=" +:+ quote ("I" +:+ uuid_simple (new_v4 k)) +:+ " Name=" +:+ quote (html_escape name) +:+ ">" +:+
          files +:+ directories +:+ "</Directory>", ids, S k).

(** The loop over the map of resources. *)
Definition wix_resource_data (m : ResourceMap) (k : nat) : string * list string * nat :=
  foldl (λ acc e, let '(text, ids, k) := acc in
                  let '(text', ids', k) := get_wix_data e.2 k in (text +:+ text', ids ++ ids', k))
    ("", [], k) (btree_to_list m).

(** ** Resources of an NSIS installer *)
Abbreviation ResourcesMap := (gmap PathBuf (PathBuf * PathBuf)).

(** [Path::parent]. *)
Definition path_parent (p : PathBuf) : option PathBuf :=
  match last p with None | Some RootDir => None | Some _ => Some (take (length p - 1) p) end.

Definition nsis_add_resource (st : ResourcesMap * list PathBuf) (i : BundleResources.Item)
    : outcome BundleError (ResourcesMap * list PathBuf) :=
  r ← item_path i;
  let '(resources, added_resources) := st in
  let resource_path := source_path r in
  if decide (resource_path ∈ added_resources) then Ok st
  else
    let target_path := components (BundleResources.target r) in
    parent ← expect (path_parent target_path) "Couldn't get parent of target path";
    Ok (<[resource_path := (parent, target_path)]> resources, added_resources ++ [resource_path]).

(** [generate_resource_data] of [nsis/mod.rs]. *)
Definition nsis_resources (s : Settings) : outcome BundleError ResourcesMap :=
  it ← resource_files s;
  items ← all_of it;
  '(resources, _) ← for_each nsis_add_resource items (∅, []);
  Ok resources.

(** The order of paths, that of their components, for [sort_unstable]. *)
Definition component_rank (c : Component) : nat :=
  match c with RootDir => 0 | CurDir => 1 | ParentDir => 2 | Normal _ => 3 end.

Definition component_le (c d : Component) : Prop :=
  match c, d with
  | Normal s, Normal t => String.le s t
  | _, _ => component_rank c ≤ component_rank d
  end.

#[global] Instance component_le_dec : RelDecision component_le.
Proof. intros [] []; cbn; apply _. Defined.

Fixpoint path_le (p q : PathBuf) : Prop :=
  match p, q with
  | [], _ => True
  | _ :: _, [] => False
  | c :: p, d :: q => if decide (c = d) then path_le p q else component_le c d
  end.

#[global] Instance path_le_dec : RelDecision path_le.
Proof. intros p. induction p as [|c p IH]; intros [|d q]; cbn; [apply _..|]. destruct (decide (c = d)); apply _. Defined.

(** [Vec::dedup]. *)
Fixpoint dedup {A} `{EqDecision A} (l : list A) : list A :=
  match l with
  | x :: l' => match l' with y :: _ => if decide (x = y) then dedup l' else x :: dedup l' | [] => [x] end
  | [] => []
  end.

(** [sort_by_key] by the number of components, the longest paths first. *)
Fixpoint insert_by_count (p : PathBuf) (l : list PathBuf) : list PathBuf :=
  match l with
  | [] => [p]
  | q :: l' => if decide (length q ≤ length p) then p :: l else q :: insert_by_count p l'
  end.

(** [Path::ancestors]: down to the root, or to the empty path. *)
Definition path_ancestors (p : PathBuf) : list PathBuf :=
  let first := match p with RootDir :: _ => 1 | _ => 0 end in
  (λ n, take n p) <$> reverse (seq first (S (length p) - first)).

Definition resources_ancestors (dirs : list PathBuf) : list PathBuf :=
  let sorted := dedup (merge_sort path_le (dirs ≫= path_ancestors)) in
  let by_count := foldr insert_by_count [] sorted in
  take (length by_count - 1) by_count.

(** ** Binaries *)

(** [regex.replace_all] with the pattern of what is no word character and no dot,
    on texts of ASCII characters. *)
Definition is_word (c : ascii) : bool :=
  let n := Ascii.nat_of_ascii c in
  (bool_decide (48 ≤ n ≤ 57) || bool_decide (65 ≤ n ≤ 90) || bool_decide (97 ≤ n ≤ 122) || bool_decide (n = 95) || bool_decide (n = 46))%nat.

Definition wix_id (s : string) : string := of_bytes (filter (λ c, is_word c = true) (bytes (Migrate.str_replace "-" "_" s))).

Definition sidecar_dest (s : Settings) (src : string) : outcome BundleError string :=
  n ← expect (BundleResources.file_name src) "failed to extract external binary filename";
  Ok (Migrate.str_replace ("-" +:+ target s) "" n).

Definition wix_sidecar (s : Settings) (st : list (string * string * PathBuf) * nat) (i : BundleResources.Item)
    : outcome BundleError (list (string * string * PathBuf) * nat) :=
  r ← item_path i;
  let '(binaries, k) := st in
  dest_filename ← sidecar_dest s (BundleResources.path r);
  if path_there (join_path current_dir (components (BundleResources.path r))) then
    Ok (binaries ++ [(uuid_hyphenated (new_v4 k), wix_id dest_filename, Bundler.join temp_dir dest_filename)], S k)
  else failed "io".

Definition wix_binary (s : Settings) (st : list (string * string * PathBuf) * nat) (bin : BundleBinary)
    : list (string * string * PathBuf) * nat :=
  let '(binaries, k) := st in
  if main bin then st else (binaries ++ [(uuid_hyphenated (new_v4 k), wix_id (name bin), binary_path s bin)], S k).

(** [generate_binaries_data] of [msi/mod.rs]: the guid, the id and the path of
    each binary. *)
Definition wix_binaries (s : Settings) (k : nat) : outcome BundleError (list (string * string * PathBuf) * nat) :=
  items ← all_of (external_binaries s);
  st ← for_each (wix_sidecar s) items ([], k);
  Ok (foldl (wix_binary s) st (binaries s)).

Definition nsis_sidecar (s : Settings) (m : gmap PathBuf string) (i : BundleResources.Item)
    : outcome BundleError (gmap PathBuf string) :=
  r ← item_path i;
  binary_path ← required (canonicalize (join_path current_dir (components (BundleResources.path r)))) "io";
  dest_filename ← sidecar_dest s (BundleResources.path r);
  Ok (<[binary_path := dest_filename]> m).

Definition nsis_binary (s : Settings) (m : gmap PathBuf string) (bin : BundleBinary) : outcome BundleError (gmap PathBuf string) :=
  if main bin then Ok m
  else
    n ← expect (path_file_name (binary_path s bin)) "failed to extract external binary filename";
    Ok (<[binary_path s bin := n]> m).

(** [generate_binaries_data] of [nsis/mod.rs]. *)
Definition nsis_binaries (s : Settings) : outcome BundleError (gmap PathBuf string) :=
  items ← all_of (external_binaries s);
  m ← for_each (nsis_sidecar s) items ∅;
  for_each (nsis_binary s) (binaries s) m.

Definition generate_estimated_size (main : PathBuf) (binaries : gmap PathBuf string) (resources : gmap PathBuf (string * string))
    : outcome BundleError N :=
  size ← for_each (λ size k, n ← required (file_size k) "when getting size"; Ok (size + n)%N)
           (main :: (map_to_list binaries).*1 ++ (map_to_list resources).*1) 0%N;
  Ok (size / 1024)%N.

(** ** Signing *)
Definition can_sign (w : WindowsSettings) : bool :=
  bool_decide (is_Some (sign_command_settings w)) || bool_decide (is_Some (certificate_thumbprint w)).

Record SignParams := mk_sign_params {
  sp_product_name : string;
  sp_digest_algorithm : string;
  sp_certificate_thumbprint : string;
  sp_timestamp_url : option string;
  sp_tsp : bool;
  sp_sign_command : option CustomSignCommandSettings;
}.

Definition sign_params (s : Settings) (w : WindowsSettings) : SignParams :=
  mk_sign_params (product_name (package s)) (default "sha256" (digest_algorithm w)) (default "" (certificate_thumbprint w))
    (timestamp_url w) (tsp w) (sign_command_settings w).

(** A command: its program and its arguments. *)
Definition sign_command_custom (path : string) (c : CustomSignCommandSettings) : string * list string :=
  (sign_cmd c, (λ arg, if decide (arg = "%1") then path else arg) <$> sign_args c).

(** On a host that is not Windows. *)
Definition sign_command (path : string) (params : SignParams) : string * list string :=
  match sp_sign_command params with Some c => sign_command_custom path c | None => ("", []) end.

Definition sign (path : string) (params : SignParams) : outcome BundleError () :=
  match sp_sign_command params with
  | Some c => let '(cmd, args) := sign_command_custom path c in if run_command cmd args then Ok () else failed "failed to run command"
  | None => Ok ()
  end.

Definition try_sign (path : PathBuf) (s : Settings) (w : WindowsSettings) : outcome BundleError () :=
  if can_sign w then sign (collect_path path) (sign_params s w) else Ok ().

(** ** The webview *)
Definition WEBVIEW2_BOOTSTRAPPER_URL : string := "https://go.microsoft.com/fwlink/p/?LinkId=2124703".
Definition WEBVIEW2_OFFLINE_INSTALLER_X86_URL : string := "https://go.microsoft.com/fwlink/?linkid=2099617".
Definition WEBVIEW2_OFFLINE_INSTALLER_X64_URL : string := "https://go.microsoft.com/fwlink/?linkid=2124701".
Definition WEBVIEW2_URL_PREFIX : string := "https://msedge.sf.dl.delivery.mp.microsoft.com/filestreamingservice/files/".

Definition webview2_guid_path (url : string) : outcome BundleError (string * string) :=
  final_url ← required (redirected url) "request failed";
  remaining_url ← required (strip_prefix WEBVIEW2_URL_PREFIX final_url) "WebView2 URL prefix mismatch.";
  required (split_once "/" remaining_url) "WebView2 URL format mismatch.".

(** The file is fetched unless it is there. *)
Definition fetched (file_path : PathBuf) (url : string) : outcome BundleError PathBuf :=
  if path_there file_path then Ok file_path
  else _ ← required (fetch url) "download failed"; Ok file_path.

Definition download_webview2_bootstrapper (base_path : PathBuf) : outcome BundleError PathBuf :=
  fetched (Bundler.join base_path "MicrosoftEdgeWebview2Setup.exe") WEBVIEW2_BOOTSTRAPPER_URL.

Definition download_webview2_offline_installer (base_path : PathBuf) (arch : string) : outcome BundleError PathBuf :=
  let url := if decide (arch = "x64") then WEBVIEW2_OFFLINE_INSTALLER_X64_URL else WEBVIEW2_OFFLINE_INSTALLER_X86_URL in
  '(guid, filename) ← webview2_guid_path url;
  fetched (Bundler.join (Bundler.join base_path guid) filename) url.

Definition silent_webview_install (m : WebviewInstallMode) : bool :=
  match m with
  | DownloadBootstrapper silent | EmbedBootstrapper silent | OfflineInstaller silent => silent
  | _ => true
  end.

(** An installer for the updater downloads the webview. *)
Definition installed_mode (s : Settings) (updater : bool) : WebviewInstallMode :=
  let m := webview_install_mode (bundle_settings s) in
  if updater then DownloadBootstrapper (silent_webview_install m) else m.

(** The part of the data on the webview, of the two templates. *)
Definition wix_webview (s : Settings) (updater : bool) (output_path : PathBuf) (arch : string) (data : Data) : outcome BundleError Data :=
  let silent := silent_webview_install (webview_install_mode (bundle_settings s)) in
  let data := <["webview_installer_args" := JText (if silent then "/silent" else "")]> (<["install_webview" := JFlag true]> data) in
  match installed_mode s updater with
  | SkipInstall | FixedRuntime _ => Ok (<["install_webview" := JFlag false]> data)
  | DownloadBootstrapper _ =>
      Ok (<["webview_installer_args" := JText (if silent then "&apos;/silent&apos;," else "")]>
            (<["download_bootstrapper" := JFlag true]> data))
  | EmbedBootstrapper _ =>
      p ← download_webview2_bootstrapper output_path;
      Ok (<["webview2_bootstrapper_path" := JPath p]> data)
  | OfflineInstaller _ =>
      p ← download_webview2_offline_installer (Bundler.join output_path arch) arch;
      Ok (<["webview2_installer_path" := JPath p]> data)
  end.

Definition nsis_webview (s : Settings) (updater : bool) (tauri_tools_path : PathBuf) (arch : string) (data : Data) : outcome BundleError Data :=
  let silent := silent_webview_install (webview_install_mode (bundle_settings s)) in
  let mode := installed_mode s updater in
  let data := <["webview2_installer_args" := JText (if silent then "/silent" else "")]> data in
  let data := <["install_webview2_mode" := JText match mode with
                                                  | DownloadBootstrapper _ => "downloadBootstrapper"
                                                  | EmbedBootstrapper _ => "embedBootstrapper"
                                                  | OfflineInstaller _ => "offlineInstaller"
                                                  | _ => ""
                                                  end]> data in
  match mode with
  | EmbedBootstrapper _ =>
      p ← download_webview2_bootstrapper tauri_tools_path;
      Ok (<["webview2_bootstrapper_path" := JPath p]> data)
  | OfflineInstaller _ =>
      p ← download_webview2_offline_installer (Bundler.join tauri_tools_path arch) arch;
      Ok (<["webview2_installer_path" := JPath p]> data)
  | _ => Ok data
  end.

(** ** The NSIS installer *)
Abbreviation Files := (gmap PathBuf string).

Definition BOM : string := of_bytes [Ascii.ascii_of_nat 239; Ascii.ascii_of_nat 187; Ascii.ascii_of_nat 191].

Definition write_utf8_with_bom (path : PathBuf) (content : string) (files : Files) : Files := <[path := BOM +:+ content]> files.

(** The languages with translations, and the files that have them. *)
Definition LANGUAGES : list (string * string) :=
  [("arabic", "Arabic.nsh"); ("bulgarian", "Bulgarian.nsh"); ("dutch", "Dutch.nsh"); ("english", "English.nsh");
   ("german", "German.nsh"); ("italian", "Italian.nsh"); ("japanese", "Japanese.nsh"); ("korean", "Korean.nsh");
   ("portuguesebr", "PortugueseBR.nsh"); ("russian", "Russian.nsh"); ("tradchinese", "TradChinese.nsh");
   ("simpchinese", "SimpChinese.nsh"); ("french", "French.nsh"); ("spanish", "Spanish.nsh");
   ("spanishinternational", "SpanishInternational.nsh"); ("persian", "Persian.nsh"); ("turkish", "Turkish.nsh");
   ("swedish", "Swedish.nsh"); ("portuguese", "Portuguese.nsh")].

Definition get_lang_data (lang : string) : option (string * string) :=
  e ← head (filter (λ e, e.1 = AclBuild.to_lowercase lang) LANGUAGES);
  Some (lang +:+ ".nsh", included e.2).

Definition add_language (output_path : PathBuf) (custom : option (gmap string PathBuf)) (st : list PathBuf * Files) (lang : string)
    : outcome BundleError (list PathBuf * Files) :=
  let '(paths, files) := st in
  match custom ≫= lookup lang with
  | Some path =>
      path ← required (canonicalize path) "io";
      let path_with_bom := Bundler.join output_path (default (lang +:+ "_custom.nsh") (path_file_name path)) in
      content ← required (file_text path) "io";
      Ok (paths ++ [path_with_bom], write_utf8_with_bom path_with_bom content files)
  | None =>
      match get_lang_data lang with
      | Some (file_name, content) =>
          let path := Bundler.join output_path file_name in
          Ok (paths ++ [path], write_utf8_with_bom path content files)
      | None => Ok st
      end
  end.

(** The escaping of texts in a script of NSIS. *)
Definition escape_char (c : ascii) : list ascii :=
  if decide (c = "034"%char) then ["$"; "\"; "034"]%char
  else if decide (c = "$"%char) then ["$"; "$"]%char
  else if decide (c = "`"%char) then ["$"; "\"; "`"]%char
  else if decide (c = "010"%char) then ["$"; "\"; "n"]%char
  else if decide (c = "009"%char) then ["$"; "\"; "t"]%char
  else if decide (c = "013"%char) then ["$"; "\"; "r"]%char
  else [c].

Definition nsis_escape (s : string) : string := of_bytes (bytes s ≫= escape_char).

(** The helpers of the template. *)
Definition handlebars_or (param1 param2 : string) : string := if decide (param1 = "") then param2 else param1.
Definition association_description (description ext : string) : string :=
  if decide (description = "") then to_upper ext +:+ " File" else description.

Definition backslashes (p : PathBuf) : string := Migrate.str_replace "/" "\" (collect_path p).

Definition manufacturer (s : Settings) : string :=
  let bundle_id := bundle_identifier s in
  default (default bundle_id (split_on "." bundle_id !! 1)) (publisher (bundle_settings s)).

Definition insert_canonical (k : string) (p : option PathBuf) (data : Data) : outcome BundleError Data :=
  match p with
  | Some p => p ← required (canonicalize p) "io"; Ok (<[k := JPath p]> data)
  | None => Ok data
  end.

Definition insert_text (k : string) (t : option string) (data : Data) : Data :=
  match t with Some t => <[k := JText t]> data | None => data end.

Definition nsis_options (n : NsisSettings) (data : Data) : outcome BundleError Data :=
  data ← insert_canonical "installer_icon" (installer_icon n) data;
  data ← insert_canonical "header_image" (header_image n) data;
  data ← insert_canonical "sidebar_image" (sidebar_image n) data;
  data ← insert_canonical "installer_hooks" (installer_hooks n) data;
  Ok (insert_text "minimum_webview2_version" (minimum_webview2_version n) (insert_text "start_menu_folder" (start_menu_folder n) data)).

Definition deep_link_schemes (s : Settings) (data : Data) : Data :=
  match bundle_deep_links (bundle_settings s) with
  | Some protocols => <["deep_link_protocols" := JTexts (protocols ≫= schemes)]> data
  | None => data
  end.

Definition associations (s : Settings) (data : Data) : Data :=
  match file_associations (bundle_settings s) with
  | Some l => <["file_associations" := JAssociations l]> data
  | None => data
  end.

Definition compression_name (c : NsisCompression) : string :=
  match c with Zlib => "zlib" | NBzip2 => "bzip2" | Lzma => "lzma" | NNone => "none" end.
Definition mode_name (m : NSISInstallerMode) : string :=
  match m with CurrentUser => "currentUser" | PerMachine => "perMachine" | BothModes => "both" end.

(** The data that does not depend on files. *)
Definition nsis_texts (s : Settings) (w : WindowsSettings) (arch version_with_build : string) : Data :=
  let data : Data :=
    <["additional_plugins_path" := JPath (cache_dir ++ [Normal "tauri"; Normal "NSIS"; Normal "Plugins"; Normal "x86-unicode"])]>
    (<["arch" := JText arch]> (<["bundle_id" := JText (bundle_identifier s)]> (<["manufacturer" := JText (manufacturer s)]>
    (<["product_name" := JText (product_name (package s))]> (<["short_description" := JText (short_description s)]>
    (<["homepage" := JText (default "" (homepage_url s))]>
    (<["long_description" := JText (default "" (bundle_long_description (bundle_settings s)))]>
    (<["copyright" := JOptional (copyright (bundle_settings s))]> ∅)))))))) in
  let data := if can_sign w then
                let '(cmd, args) := sign_command "%1" (sign_params s w) in
                <["uninstaller_sign_cmd" := JText (debug_command cmd args)]> data
              else data in
  <["allow_downgrades" := JFlag (allow_downgrades w)]>
    (<["version_with_build" := JText version_with_build]> (<["version" := JText (version (package s))]> data)).

Definition nsis_license (s : Settings) (output_path : PathBuf) (data : Data) (files : Files) : outcome BundleError (Data * Files) :=
  match license_file (bundle_settings s) with
  | Some license_file =>
      p ← required (canonicalize license_file) "io";
      content ← required (file_text p) "io";
      let out := Bundler.join output_path "license_file" in
      Ok (<["license" := JPath out]> data, write_utf8_with_bom out content files)
  | None => Ok (data, files)
  end.

(** The data of the template and the files beside it. *)
Definition nsis_data (s : Settings) (w : WindowsSettings) (tauri_tools_path output_path : PathBuf) (arch : string) (updater : bool)
    : outcome BundleError (Data * Files) :=
  version_with_build ← add_build_number_if_needed (version (package s));
  '(data, files) ← nsis_license s output_path (nsis_texts s w arch version_with_build) ∅;
  data ← match nsis w with Some n => nsis_options n data | None => Ok data end;
  let data := <["compression" := JText (compression_name (default Lzma (compression <$> nsis w)))]> data in
  let data := <["install_mode" := JText (mode_name (default CurrentUser (install_mode <$> nsis w)))]> data in
  let langs := default ["English"] (nsis w ≫= languages) in
  let data := <["languages" := JTexts langs]> data in
  let selector := match nsis w with Some n => display_language_selector n && bool_decide (1 < length langs) | None => false end in
  let data := <["display_language_selector" := JFlag selector]> data in
  '(language_files_paths, files) ← for_each (add_language output_path (nsis w ≫= custom_language_files)) langs ([], files);
  let data := <["language_files" := JPaths language_files_paths]> data in
  main ← main_binary s;
  let main_binary_path := binary_path s main in
  let data := <["main_binary_path" := JPath main_binary_path]> (<["main_binary_name" := JText (name main)]> data) in
  let data := <["out_file" := JText "nsis-output.exe"]> data in
  resources ← nsis_resources s;
  let dirs := remove_dups ((map_to_list resources).*2).*1 in
  let texts := (λ e, (backslashes e.1, backslashes e.2)) <$> resources in
  let data := <["resources_ancestors" := JTexts (backslashes <$> resources_ancestors dirs)]> data in
  let data := <["resources" := JResources texts]> (<["resources_dirs" := JTexts (backslashes <$> dirs)]> data) in
  binaries ← nsis_binaries s;
  let data := <["binaries" := JBinaries binaries]> data in
  size ← generate_estimated_size main_binary_path binaries texts;
  let data := deep_link_schemes s (associations s (<["estimated_size" := JSize size]> data)) in
  data ← nsis_webview s updater tauri_tools_path arch data;
  Ok (data, files).

Definition user_template (p : option PathBuf) : outcome BundleError (option string) :=
  match p with Some p => t ← required (file_text p) "io"; Ok (Some t) | None => Ok None end.

Definition build_nsis_app_installer (s : Settings) (w : WindowsSettings) (tauri_tools_path : PathBuf) (updater : bool)
    : outcome BundleError (list PathBuf * Files) :=
  arch ← windows_arch s;
  let output_path := Bundler.join (Bundler.join (project_out_directory s) "nsis") arch in
  '(data, files) ← nsis_data s w tauri_tools_path output_path arch updater;
  template ← user_template (nsis w ≫= nsis_template);
  let files := write_utf8_with_bom (Bundler.join output_path "FileAssociation.nsh") (included "FileAssociation.nsh") files in
  let files := write_utf8_with_bom (Bundler.join output_path "utils.nsh") (included "utils.nsh") files in
  text ← required (render_nsis template nsis_escape data) "failed to render";
  let installer_nsi_path := Bundler.join output_path "installer.nsi" in
  let files := write_utf8_with_bom installer_nsi_path text files in
  let level := match log_level s with LevelError => "-V1" | LevelWarn => "-V2" | LevelInfo => "-V3" | _ => "-V4" end in
  if run_command "makensis" ["-INPUTCHARSET"; "UTF8"; "-OUTPUTCHARSET"; "UTF8"; level; collect_path installer_nsi_path] then
    let nsis_installer_path := nsis_installer_path s arch updater in
    _ ← try_sign nsis_installer_path s w;
    Ok ([nsis_installer_path], files)
  else failed "error running makensis.exe".

(** ** The MSI installer *)

(** [generate_guid] with the name space of the bundler. *)
Definition UUID_NAMESPACE : string := "fd8595a8-17a3-474e-a616-76148dfa0c7b".
Definition NAMESPACE_DNS : string := "6ba7b810-9dad-11d1-80b4-00c04fd430c8".

Definition generate_guid (key : string) : string := uuid_v5 UUID_NAMESPACE key.
Definition generate_package_guid (s : Settings) : string := generate_guid (bundle_identifier s).

Definition wix_upgrade_code (s : Settings) (w : WindowsSettings) : string :=
  default (uuid_v5 NAMESPACE_DNS (product_name (package s) +:+ ".exe.app.x64")) (wix w ≫= upgrade_code).

(** [wix_upgrade_code] of the command [inspect]: the default code and the one
    that the configuration sets. *)
Definition inspect_upgrade_code (product : string) (code : option string) : string * option string :=
  (uuid_v5 NAMESPACE_DNS (product +:+ ".exe.app.x64"), code).

Definition newline : string := String "010" "".

Definition license_rtf (contents : string) : string :=
  "{\rtf1\ansi\ansicpg1252\deff0\nouicompat\deflang1033{\fonttbl{\f0\fnil\fcharset0 Calibri;}}" +:+ newline +:+
  "{\*\generator Riched20 10.0.18362}\viewkind4\uc1" +:+ newline +:+
  "\pard\sa200\sl276\slmult1\f0\fs22\lang9 " +:+ Migrate.str_replace newline "\par " contents +:+ "\par" +:+ newline +:+
  "}" +:+ newline.

Definition wix_license (s : Settings) (data : Data) (files : Files) : outcome BundleError (Data * Files) :=
  match license_file (bundle_settings s) with
  | Some license =>
      if path_ends_with license (components ".rtf") then Ok (<["license" := JPath license]> data, files)
      else
        license_contents ← required (file_text license) "io";
        let out := Bundler.join (Bundler.join (project_out_directory s) "wix") "LICENSE.rtf" in
        Ok (<["license" := JPath out]> data, <[out := license_rtf license_contents]> files)
  | None => Ok (data, files)
  end.

Definition copy_icon (s : Settings) (filename : string) (path : PathBuf) : outcome BundleError PathBuf :=
  if path_there (join_path current_dir path) then Ok (Bundler.join (Bundler.join (project_out_directory s) "resources") filename)
  else failed "does not exist".

Definition insert_image (s : Settings) (k : string) (p : option PathBuf) (data : Data) : outcome BundleError Data :=
  match p with
  | Some p =>
      filename ← expect (path_file_name p) "called `Option::unwrap()` on a `None` value";
      p ← copy_icon s filename p;
      Ok (<[k := JPath p]> data)
  | None => Ok data
  end.

Definition wix_options (s : Settings) (x : WixSettings) (data : Data) : outcome BundleError Data :=
  let data := <["component_group_refs" := JTexts (component_group_refs x)]> data in
  let data := <["component_refs" := JTexts (component_refs x)]> data in
  let data := <["feature_group_refs" := JTexts (feature_group_refs x)]> data in
  let data := <["feature_refs" := JTexts (feature_refs x)]> data in
  let data := <["merge_refs" := JTexts (merge_refs x)]> data in
  data ← insert_image s "banner_path" (banner_path x) data;
  insert_image s "dialog_image_path" (dialog_image_path x) data.

Definition get_merge_modules (s : Settings) : outcome BundleError (list (string * PathBuf)) :=
  collect (λ msm, match msm with
                  | inl e => failed e
                  | inr path =>
                      filename ← expect (path_file_name path) "failed to extract merge module filename";
                      Ok (of_bytes (filter (λ c, is_word c = true) (bytes filename)), path)
                  end) (glob_extension (project_out_directory s) "msm").

Definition wix_icon (s : Settings) (w : WindowsSettings) : outcome BundleError PathBuf :=
  if decide (windows_icon_path w ≠ []) then Ok (windows_icon_path w)
  else
    items ← all_of (icon_files s);
    ok_or (head (filter (λ p, path_extension p = Some "ico") (omap (λ i, match i with inl _ => None | inr r => Some (components (BundleResources.path r)) end) items)))
      (GenericError "Couldn't find a .ico icon").

Definition wix_texts (s : Settings) (w : WindowsSettings) (app_version : string) (data : Data) : Data :=
  <["shortcut_guid" := JText (generate_package_guid s)]> (<["path_component_guid" := JText (generate_package_guid s)]>
  (<["allow_downgrades" := JFlag (allow_downgrades w)]> (<["upgrade_code" := JText (wix_upgrade_code s w)]>
  (<["manufacturer" := JText (manufacturer s)]> (<["bundle_id" := JText (bundle_identifier s)]>
  (<["homepage" := JOptional (homepage_url s)]>
  (<["long_description" := JText (default "" (bundle_long_description (bundle_settings s)))]>
  (<["version" := JText app_version]> (<["product_name" := JText (product_name (package s))]> data))))))))).

(** The task that updates with elevated rights. *)
Definition update_task (s : Settings) (output_path : PathBuf) (data : Data) (files : Files) : outcome BundleError (Data * Files) :=
  let data := <["msiexec_args" := JText match updater (bundle_settings s) with
                                        | Some u => String.concat " " (msiexec_args u)
                                        | None => "/passive"
                                        end]> data in
  xml ← required (render_task (included "update-task.xml") data) "failed to render";
  install ← required (render_task (included "install-task.ps1") data) "failed to render";
  uninstall ← required (render_task (included "uninstall-task.ps1") data) "failed to render";
  Ok (<["enable_elevated_update_task" := JFlag true]> data,
      <[Bundler.join output_path "uninstall-task.ps1" := uninstall]>
        (<[Bundler.join output_path "install-task.ps1" := install]> (<[Bundler.join output_path "update.xml" := xml]> files))).

Definition wix_app_version (s : Settings) (w : WindowsSettings) : outcome BundleError string :=
  v ← match wix w ≫= wix_version with Some v => Ok v | None => convert_version (version (package s)) end;
  _ ← validate_wix_version v;
  Ok v.

Definition wix_data (s : Settings) (w : WindowsSettings) (output_path : PathBuf) (arch app_version : string) (updater : bool)
    : outcome BundleError (Data * Files) :=
  data ← wix_webview s updater output_path arch ∅;
  '(data, files) ← wix_license s data ∅;
  let data := wix_texts s w app_version data in
  '(binaries, k) ← wix_binaries s 0;
  let data := <["binaries" := JWixBinaries binaries]> data in
  '(resources, k) ← wix_resources s k;
  let '(resources_wix_string, files_ids, _) := wix_resource_data resources k in
  let data := <["resource_file_ids" := JTexts files_ids]> (<["resources" := JText resources_wix_string]> data) in
  merge_modules ← get_merge_modules s;
  let data := <["merge_modules" := JModules merge_modules]> data in
  main ← main_binary s;
  let data := <["main_binary_path" := JPath (binary_path s main)]> (<["main_binary_name" := JText (name main)]> data) in
  icon ← wix_icon s w;
  icon ← copy_icon s "icon.ico" icon;
  let data := <["icon_path" := JPath icon]> data in
  data ← match wix w with Some x => wix_options s x data | None => Ok data end;
  let data := deep_link_schemes s (associations s data) in
  if default false (enable_elevated_update_task <$> wix w) then update_task s output_path data files else Ok (data, files).

(** The strings of the program that a locale file does not set. *)
Definition locale_id (locale_string : string) : outcome BundleError string :=
  '(before, _) ← expect (split_once ">" locale_string) "called `Option::unwrap()` on a `None` value";
  if decide (String.length before < String.length "<String ") then Panic "attempt to subtract with overflow"
  else Ok (of_bytes (drop (String.length "<String ") (bytes before))).

Definition unset_locale_strings (locale_strings locale_contents : string) : outcome BundleError string :=
  for_each (λ acc locale_string,
    id ← locale_id locale_string;
    Ok (if Acl.str_contains id locale_contents then acc else acc +:+ locale_string))
    (filter (λ l, l ≠ "") (split_on "010" locale_strings)) "".

Definition locale_file (s : Settings) (language : string) (locale_path : option PathBuf) : outcome BundleError string :=
  '(ascii_code, lang_id) ← expect (language_metadata language) ("Language " +:+ language +:+ " not found.");
  locale_contents ← match locale_path with
                    | Some p => required (file_text p) "io"
                    | None => Ok ("<WixLocalization Culture=" +:+ quote (AclBuild.to_lowercase language) +:+ " xmlns=" +:+
                                  quote "http://schemas.microsoft.com/wix/2006/localization" +:+ "></WixLocalization>")
                    end;
  let locale_strings :=
    Migrate.str_replace "__productName__" (product_name (package s))
      (Migrate.str_replace "__codepage__" (print_u32 ascii_code)
        (Migrate.str_replace "__language__" (print_u32 lang_id) (included "default-locale-strings.xml"))) in
  unset ← unset_locale_strings locale_strings locale_contents;
  Ok (Migrate.str_replace "</WixLocalization>" (unset +:+ "</WixLocalization>") locale_contents).

Definition candle_args (s : Settings) (w : WindowsSettings) (wxs_file_path : PathBuf) : outcome BundleError (list string) :=
  arch ← windows_arch s;
  main ← main_binary s;
  Ok (["-arch"; arch; collect_path wxs_file_path; "-dSourceDir=" +:+ collect_path (binary_path s main)] ++
      (if default false (fips_compliant <$> wix w) then ["-fips"] else [])).

Definition extension_args (extensions : list PathBuf) : list string := extensions ≫= λ e, ["-ext"; collect_path e].

Definition run_candle (s : Settings) (w : WindowsSettings) (wix_toolset_path : PathBuf) (input : PathBuf * list PathBuf) : outcome BundleError () :=
  args ← candle_args s w input.1;
  if run_command (collect_path (Bundler.join wix_toolset_path "candle.exe")) (extension_args input.2 ++ args) then Ok ()
  else failed "error running candle.exe".

(** A fragment is rendered to find the extensions it uses. *)
Definition fragment_input (wix_toolset_path : PathBuf) (data : Data) (fragment_path : PathBuf) : outcome BundleError (PathBuf * list PathBuf) :=
  let fragment_path := join_path current_dir fragment_path in
  content ← required (file_text fragment_path) "io";
  fragment ← required (render_task content data) "failed to render";
  Ok (fragment_path, (λ e, Bundler.join wix_toolset_path ("Wix" +:+ e +:+ ".dll")) <$> wix_extensions fragment).

Definition cultures (language : string) : string :=
  "-cultures:" +:+ (if decide (language = "en-US") then AclBuild.to_lowercase language else AclBuild.to_lowercase language +:+ ";en-US").

(** One turn of the loop over the languages. *)
Definition build_language (s : Settings) (w : WindowsSettings) (wix_toolset_path output_path : PathBuf) (extensions : list PathBuf) (updater : bool)
    (st : list PathBuf * Files) (l : string * option PathBuf) : outcome BundleError (list PathBuf * Files) :=
  let '(language, locale_path) := l in
  contents ← locale_file s language locale_path;
  let locale_path := Bundler.join output_path "locale.wxl" in
  let files := <[locale_path := contents]> st.2 in
  msi_path ← app_installer_output_path s language (version (package s)) updater;
  let args := ["-o"; collect_path (Bundler.join output_path "output.msi"); cultures language; "-loc"; collect_path locale_path; "*.wixobj"] in
  if run_command (collect_path (Bundler.join wix_toolset_path "light.exe")) (extension_args extensions ++ args) then
    _ ← try_sign msi_path s w;
    Ok (st.1 ++ [msi_path], files)
  else failed "error running light.exe".

Definition build_wix_app_installer (s : Settings) (w : WindowsSettings) (wix_toolset_path : PathBuf) (updater : bool)
    : outcome BundleError (list PathBuf * Files) :=
  arch ← windows_arch s;
  app_version ← wix_app_version s w;
  let output_path := Bundler.join (Bundler.join (project_out_directory s) "wix") arch in
  '(data, files) ← wix_data s w output_path arch app_version updater;
  template ← user_template (wix w ≫= wix_template);
  text ← required (render_wix template data) "failed to render";
  let files := <[Bundler.join output_path "main.wxs" := text]> files in
  fragments ← collect (fragment_input wix_toolset_path data) (default [] (fragment_paths <$> wix w));
  _ ← for_each (λ _, run_candle s w wix_toolset_path) ((components "main.wxs", []) :: fragments) ();
  let extensions := remove_dups ([Bundler.join wix_toolset_path "WixUIExtension.dll"; Bundler.join wix_toolset_path "WixUtilExtension.dll"] ++
                                 concat fragments.*2) in
  for_each (build_language s w wix_toolset_path output_path extensions updater) (default WixLanguage_default (wix_language <$> wix w)) ([], files).

(** ** The tools *)
Definition NSIS_TAURI_UTILS_URL : string :=
  "https://github.com/tauri-apps/nsis-tauri-utils/releases/download/nsis_tauri_utils-v0.4.1/nsis_tauri_utils.dll".
Definition NSIS_TAURI_UTILS_SHA1 : string := "F99A50209A345185A84D34D0E5F66D04C75FF52F".
Definition NSIS_REQUIRED_FILES : list string := ["Plugins/x86-unicode/nsis_tauri_utils.dll"].
Definition NSIS_REQUIRED_FILES_HASH : list (string * string * string) :=
  [("Plugins/x86-unicode/nsis_tauri_utils.dll", NSIS_TAURI_UTILS_URL, NSIS_TAURI_UTILS_SHA1)].

Definition tauri_tools_path (s : Settings) : PathBuf :=
  match local_tools_directory s with Some d => Bundler.join d ".tauri" | None => Bundler.join cache_dir "tauri" end.

Definition get_and_extract_nsis (nsis_toolset_path : PathBuf) : outcome BundleError Files :=
  data ← required (download_and_verify NSIS_TAURI_UTILS_URL NSIS_TAURI_UTILS_SHA1) "download failed";
  Ok {[Bundler.join (Bundler.join (Bundler.join nsis_toolset_path "Plugins") "x86-unicode") "nsis_tauri_utils.dll" := data]}.

(** The files of the tools that are written, on a host that is not Windows. *)
Definition nsis_tools (nsis_toolset_path : PathBuf) : outcome BundleError Files :=
  if negb (path_there nsis_toolset_path) then get_and_extract_nsis nsis_toolset_path
  else if existsb (λ p, negb (path_there (Bundler.join nsis_toolset_path p))) NSIS_REQUIRED_FILES then get_and_extract_nsis nsis_toolset_path
  else
    let mismatched := filter (λ e, verify_file_hash (Bundler.join nsis_toolset_path e.1.1) e.2 = false) NSIS_REQUIRED_FILES_HASH in
    for_each (λ (files : Files) e,
      data ← required (download_and_verify e.1.2 e.2) "download failed";
      Ok (<[Bundler.join nsis_toolset_path e.1.1 := data]> files)) mismatched ∅.

(** [bundle_project] of [nsis/mod.rs]. *)
Definition nsis_bundle_project (s : Settings) (w : WindowsSettings) (updater : bool) : outcome BundleError (list PathBuf * Files) :=
  let tools := tauri_tools_path s in
  files ← nsis_tools (Bundler.join tools "NSIS");
  '(paths, written) ← build_nsis_app_installer s w tools updater;
  Ok (paths, written ∪ files).

Definition WIX_REQUIRED_FILES : list string :=
  ["candle.exe"; "candle.exe.config"; "darice.cub"; "light.exe"; "light.exe.config"; "wconsole.dll"; "winterop.dll"; "wix.dll";
   "WixUIExtension.dll"; "WixUtilExtension.dll"].
Definition WIX_URL : string := "https://github.com/wixtoolset/wix3/releases/download/wix3141rtm/wix314-binaries.zip".
Definition WIX_SHA256 : string := "6ac824e1642d6f7277d0ed7ea09411a508f6116ba6fae0aa5f2c7daa2ff43d31".

(** Whether the tools of WiX are fetched, and that they could be. *)
Definition wix_tools (wix_path : PathBuf) : outcome BundleError () :=
  if negb (path_there wix_path) || existsb (λ p, negb (path_there (Bundler.join wix_path p))) WIX_REQUIRED_FILES then
    _ ← required (download_and_verify WIX_URL WIX_SHA256) "download failed"; Ok ()
  else Ok ().

(** [bundle_project] of [msi/mod.rs]. *)
Definition wix_bundle_project (s : Settings) (w : WindowsSettings) (updater : bool) : outcome BundleError (list PathBuf * Files) :=
  let wix_path := Bundler.join (tauri_tools_path s) "WixTools314" in
  _ ← wix_tools wix_path;
  build_wix_app_installer s w wix_path updater.

End Installers.

(** * Proofs *)

(** ** The tree of an MSI installer *)

(** The files of a directory, each with the names of the directories on its way. *)
Fixpoint placed (d : ResourceDirectory) : list (list string * ResourceFile) :=
  let '(mk_dir _ _ files ds) := d in
  ((λ f, ([], f)) <$> files) ++ concat (map (λ c, (λ e, (dir_name c :: e.1, e.2)) <$> placed c) ds).

Definition below (c : ResourceDirectory) : list (list string * ResourceFile) := (λ e, (dir_name c :: e.1, e.2)) <$> placed c.

(** Every directory is known by its name, and is there once. *)
Inductive wf_dir : string → ResourceDirectory → Prop :=
| wf_dir_intro path p n files ds :
    NoDup (dir_name <$> ds) →
    Forall (λ c, dir_path c = path +:+ dir_name c +:+ MAIN_SEPARATOR ∧ wf_dir (dir_path c) c) ds →
    wf_dir path (mk_dir p n files ds).

Lemma placed_eq p n files ds : placed (mk_dir p n files ds) = ((λ f, ([], f)) <$> files) ++ concat (below <$> ds).
Proof. reflexivity. Qed.

Lemma update_first_spec {A} (p : A → bool) f l :
  match update_first p f l with
  | Some l' => ∃ l1 x l2, l = l1 ++ x :: l2 ∧ p x = true ∧ l' = l1 ++ f x :: l2
  | None => Forall (λ x, p x = false) l
  end.
Proof.
  induction l as [|x l IH]; cbn; [constructor|]. destruct (p x) eqn:E.
  - by exists [], x, l.
  - destruct (update_first p f l) as [l'|]; cbn.
    + destruct IH as (l1 & y & l2 & -> & Hy & ->). by exists (x :: l1), y, l2.
    + by constructor.
Qed.

Lemma same_directory path n m : path +:+ n +:+ MAIN_SEPARATOR = path +:+ m +:+ MAIN_SEPARATOR → n = m.
Proof.
  intros H. apply bytes_inj. apply (f_equal bytes) in H. rewrite !bytes_append in H. simplify_list_eq. done.
Qed.

Lemma add_at_name dirs path file d : dir_name (add_at dirs path file d) = dir_name d ∧ dir_path (add_at dirs path file d) = dir_path d.
Proof. by destruct d, dirs. Qed.

Lemma add_at_placed dirs : ∀ path file d,
  wf_dir path d → placed (add_at dirs path file d) ≡ₚ (dirs, file) :: placed d ∧ wf_dir path (add_at dirs path file d).
Proof.
  induction dirs as [|n dirs IH]; intros path file d Hd; inversion Hd as [path' p m files ds Hnd Hwf]; subst; cbn [add_at add_file].
  - rewrite !placed_eq, fmap_app. split; [|by constructor]. rewrite <- app_assoc. symmetry. apply Permutation_middle.
  - set (path' := path +:+ n +:+ MAIN_SEPARATOR).
    pose proof (update_first_spec (λ f, bool_decide (dir_path f = path')) (add_at dirs path' file) ds) as U.
    destruct (update_first _ _ ds) as [ds'|].
    + destruct U as (l1 & c & l2 & -> & Hc%bool_decide_eq_true & ->).
      apply Forall_app in Hwf as [H1 [[Hp Hw] H2]%Forall_cons]. rewrite Hc in Hp, Hw. apply same_directory in Hp as En.
      destruct (IH path' file c Hw) as [Hperm Hw']. destruct (add_at_name dirs path' file c) as [Nc Pc]. split.
      * assert (below (add_at dirs path' file c) ≡ₚ (n :: dirs, file) :: below c) as Hb.
        { unfold below. rewrite Nc, Hperm. by rewrite fmap_cons, <- En. }
        rewrite !placed_eq, !fmap_app, !fmap_cons, !concat_app. cbn [concat]. rewrite Hb.
        rewrite (Permutation_middle (_ <$> files)). apply Permutation_app_head. symmetry. apply Permutation_middle.
      * constructor.
        -- rewrite fmap_app, fmap_cons, Nc. by rewrite fmap_app, fmap_cons in Hnd.
        -- apply Forall_app. split; [done|]. constructor; [|done]. rewrite Pc, Nc, Hc, <- En. done.
    + destruct (IH path' file (mk_dir path' n [] [])) as [Hperm Hw']; [constructor; [apply NoDup_nil_2|constructor]|].
      destruct (add_at_name dirs path' file (mk_dir path' n [] [])) as [Nc Pc]. cbn [dir_name dir_path] in Nc, Pc. split.
      * assert (below (add_at dirs path' file (mk_dir path' n [] [])) ≡ₚ [(n :: dirs, file)]) as Hb.
        { unfold below. rewrite Nc, Hperm. done. }
        rewrite !placed_eq, fmap_app, concat_app. cbn [fmap list_fmap concat]. rewrite Hb, app_nil_r, app_assoc. symmetry.
        apply Permutation_cons_append.
      * constructor.
        -- rewrite fmap_app. apply NoDup_app. split_and!; [done| |apply NoDup_singleton].
           cbn. rewrite Nc. intros x Hx ->%list_elem_of_singleton. apply list_elem_of_fmap in Hx as (c & En & Hc).
           rewrite Forall_forall in U, Hwf. specialize (U c Hc). apply bool_decide_eq_false in U. apply U.
           destruct (Hwf c Hc) as [Hp _]. by rewrite Hp, <- En.
        -- apply Forall_app. split; [done|]. constructor; [|constructor]. by rewrite Pc, Nc.
Qed.

(** The files of all directories of the map. *)
Definition under (e : string * ResourceDirectory) : list (list string * ResourceFile) :=
  if decide (e.1 = "") then placed e.2 else (λ x, (e.1 :: x.1, x.2)) <$> placed e.2.

Definition tree_files (m : gmap string ResourceDirectory) : list (list string * ResourceFile) := concat (under <$> btree_to_list m).

Definition wf_map (m : gmap string ResourceDirectory) : Prop := map_Forall (λ k d, dir_name d = k ∧ wf_dir "" d) m.

Lemma tree_files_perm m : tree_files m ≡ₚ concat (under <$> map_to_list m).
Proof. unfold tree_files. by rewrite btree_to_list_perm. Qed.

Lemma concat_perm {A} (l k : list (list A)) : l ≡ₚ k → concat l ≡ₚ concat k.
Proof. intros H. induction H; cbn; [done|by f_equiv|rewrite !app_assoc; f_equiv; apply Permutation_app_comm|by etrans]. Qed.

(** A file put below a directory of the map, which is made if it is not there. *)
Lemma tree_files_entry dirs file k m :
  wf_map m →
  tree_files (entry_or (mk_dir k k [] []) (add_at dirs "" file) k m) ≡ₚ
    (if decide (k = "") then dirs else k :: dirs, file) :: tree_files m ∧
  wf_map (entry_or (mk_dir k k [] []) (add_at dirs "" file) k m).
Proof.
  intros Hm. unfold entry_or. set (d := default (mk_dir k k [] []) (m !! k)).
  assert (dir_name d = k ∧ wf_dir "" d) as [Hn Hd].
  { unfold d. destruct (m !! k) as [d'|] eqn:E; cbn; [by apply (Hm k)|]. split; [done|]. constructor; [apply NoDup_nil_2|constructor]. }
  destruct (add_at_placed dirs "" file d Hd) as [Hp Hw]. destruct (add_at_name dirs "" file d) as [Hn' _]. split.
  - rewrite !tree_files_perm.
    assert (concat (under <$> map_to_list m) ≡ₚ under (k, d) ++ concat (under <$> map_to_list (delete k m))) as Hold.
    { unfold d. destruct (m !! k) as [d'|] eqn:E; cbn [default from_option].
      - rewrite <- (insert_delete_id m k d') at 1 by done. rewrite map_to_list_insert by apply lookup_delete_eq. done.
      - rewrite delete_id by done. unfold under at 2. cbn. by destruct (decide _). }
    rewrite <- insert_delete_eq, map_to_list_insert by apply lookup_delete_eq. rewrite fmap_cons. cbn [concat].
    rewrite Hold. unfold under at 1 3. cbn [fst snd]. destruct (decide (k = "")); rewrite Hp; done.
  - intros k' d' [[<- <-]|[_ H]]%lookup_insert_Some; [by rewrite Hn'|by apply Hm].
Qed.

Section Agreement.
Context {FS : ResourceFs} {WL : WindowsLib}.

Lemma component_text s c : c ∈ components s → component_str c ≠ "".
Proof. destruct c as [| | |n]; [done..|]. intros [_ H]%components_normal E. cbn in E. by subst. Qed.

(** The directories of a target are reached through the first one. *)
Lemma target_directories_split target :
  let names := target_directories (components target) in
  let k := default "" (head names) in
  (if decide (k = "") then tail names else k :: tail names) = names.
Proof.
  cbn zeta. unfold target_directories. destruct (take _ (components target)) as [|c l] eqn:E; [done|]. cbn.
  rewrite decide_False; [done|]. apply (component_text target).
  rewrite <- (take_drop (length (components target) - 1) (components target)), E. constructor.
Qed.

(** The source of a resource and the directories it is put into. *)
Definition wix_entry (e : list string * ResourceFile) : PathBuf * list string := (file_path e.2, e.1).
Definition nsis_entry (e : PathBuf * (PathBuf * PathBuf)) : PathBuf * list string := (e.1, component_str <$> e.2.1).

(** What the two packagers know after the same resources. *)
Record agree (st : gmap string ResourceDirectory * list PathBuf * nat) (st' : gmap PathBuf (PathBuf * PathBuf) * list PathBuf) : Prop := {
  agree_added : st.1.2 = st'.2;
  agree_wf : wf_map st.1.1;
  agree_known p : is_Some (st'.1 !! p) → p ∈ st'.2;
  agree_files : wix_entry <$> tree_files st.1.1 ≡ₚ nsis_entry <$> map_to_list st'.1;
}.

Lemma agree_step st st' i st1' :
  agree st st' → nsis_add_resource st' i = Ok st1' → ∃ st1, wix_add_resource st i = Ok st1 ∧ agree st1 st1'.
Proof.
  destruct st as [[m added] k], st' as [m' added']. intros [Ha Hwf Hk Hf]. cbn in Ha, Hwf, Hk, Hf. subst added'.
  unfold nsis_add_resource, wix_add_resource. intros (r & Hr & H)%bind_ok. rewrite Hr. cbn [mbind outcome_bind].
  destruct (decide (source_path r ∈ added)) as [Hin|Hin].
  - injection H as <-. eexists. split; [done|]. by constructor.
  - apply bind_ok in H as (parent & Hp & [= <-]). unfold expect in Hp.
    destruct (path_parent (components (BundleResources.target r))) as [parent'|] eqn:E; [|done]. injection Hp as ->.
    assert (target_directories (components (BundleResources.target r)) = component_str <$> parent) as En.
    { unfold path_parent in E. destruct (last _) as [[]|]; by simplify_eq. }
    eexists. split; [done|].
    pose proof (target_directories_split (BundleResources.target r)) as Hs. cbn zeta in Hs.
    destruct (tree_files_entry (tail (target_directories (components (BundleResources.target r)))) (new_file k (source_path r))
      (default "" (head (target_directories (components (BundleResources.target r))))) m Hwf) as [Ht Hw].
    constructor; cbn; [done|done| |].
    + intros p [? Hp]. apply lookup_insert_Some in Hp as [[<- _]|[_ Hp]]; set_solver.
    + rewrite Ht, Hs, En. rewrite map_to_list_insert; [cbn; by rewrite Hf|].
      apply eq_None_not_Some. intros Hp. by apply Hin, Hk.
Qed.

Lemma agree_loop items : ∀ st st' st1',
  agree st st' → for_each nsis_add_resource items st' = Ok st1' →
  ∃ st1, for_each wix_add_resource items st = Ok st1 ∧ agree st1 st1'.
Proof.
  induction items as [|i items IH]; intros st st' st1' Ha H; cbn in H |- *.
  - injection H as <-. by exists st.
  - apply bind_ok in H as (st2' & H1 & H2). destruct (agree_step st st' i st2' Ha H1) as (st2 & -> & Ha2). cbn.
    by apply (IH st2 st2').
Qed.

Lemma ResourceDirectory_nested (P : ResourceDirectory → Prop) :
  (∀ p n files ds, Forall P ds → P (mk_dir p n files ds)) → ∀ d, P d.
Proof.
  intros H. fix IH 1. intros [p n files ds]. apply H. induction ds as [|c ds IHds]; constructor; [apply IH|exact IHds].
Qed.

(** The identifiers that the installer refers to are those of all files. *)
Lemma wix_ids d : ∀ k, (get_wix_data d k).1.2 = file_id <$> (placed d).*2.
Proof.
  induction d as [p n files ds IH] using ResourceDirectory_nested. intros k. rewrite placed_eq. cbn [get_wix_data].
  match goal with |- context [?go ds ("", file_id <$> files, k)] => set (g := go) end.
  assert (∀ ds acc, Forall (λ d, ∀ k, (get_wix_data d k).1.2 = file_id <$> (placed d).*2) ds →
    (g ds acc).1.2 = acc.1.2 ++ (file_id <$> (concat (below <$> ds)).*2)) as Hg.
  { clear. intros ds. induction ds as [|c ds IH]; intros [[text ids] k] H; cbn; [by rewrite app_nil_r|].
    apply Forall_cons in H as [Hc H]. specialize (Hc k). destruct (get_wix_data c k) as [[text' ids'] k']. cbn in Hc. subst ids'.
    rewrite IH by done. cbn. rewrite !fmap_app, app_assoc. f_equal. f_equal. unfold below. by rewrite <- !list_fmap_compose. }
  specialize (Hg ds ("", file_id <$> files, k) IH). destruct (g ds _) as [[text ids] k'].
  rewrite !fmap_app. cbn in Hg. rewrite <- !list_fmap_compose in *. rewrite Hg. by destruct (decide (n = "")).
Qed.

Lemma wix_resource_ids m k : (wix_resource_data m k).1.2 = file_id <$> (tree_files m).*2.
Proof.
  unfold wix_resource_data, tree_files. change (file_id <$> _) with ([] ++ (file_id <$> (concat (under <$> btree_to_list m)).*2)).
  generalize "" ([] : list string) k. induction (btree_to_list m) as [|e l IH]; intros text ids k'; cbn; [by rewrite app_nil_r|].
  pose proof (wix_ids e.2 k') as He. destruct (get_wix_data e.2 k') as [[text' ids'] k'']. cbn in He. subst ids'. rewrite IH.
  rewrite !fmap_app, app_assoc. f_equal. f_equal. unfold under. destruct (decide _); [done|]. by rewrite <- !list_fmap_compose.
Qed.

(** C34. The two installers of Windows put a resource into the same directory, when
    no library lies next to the binary ([dlls_replace_root_resources] shows one
    that does): the source files in the map of the NSIS installer, with the
    directories of their targets, are those in the tree of the MSI installer,
    each directory of which is there once; and the MSI installer refers to each
    of the files. The names under which the files are installed may differ
    ([msi_keeps_source_names]), and of several targets of one file both take
    the first ([second_target_dropped]). *)
Theorem installers_agree s m1 k0 :
  nsis_resources s = Ok m1 → glob_extension (project_out_directory s) "dll" = [] →
  ∃ m2 k, wix_resources s k0 = Ok (m2, k) ∧ wf_map m2 ∧
    wix_entry <$> tree_files m2 ≡ₚ nsis_entry <$> map_to_list m1 ∧
    (wix_resource_data m2 k).1.2 = file_id <$> (tree_files m2).*2.
Proof.
  unfold nsis_resources, wix_resources. intros (it & Hit & (items & Hitems & ([m added] & H & [= <-])%bind_ok)%bind_ok)%bind_ok Hdll.
  assert (agree (∅, [], k0) (∅, [])) as Ha.
  { constructor; cbn; [done|apply map_Forall_empty|by intros p [? Hp]|done]. }
  destruct (agree_loop items _ _ _ Ha H) as ([[m2 added2] k] & H2 & [_ Hw _ Hf]).
  exists m2, k. rewrite Hit. cbn [mbind outcome_bind]. rewrite Hitems. cbn [mbind outcome_bind]. rewrite H2, Hdll. cbn.
  split_and!; [done|done|done|apply wix_resource_ids].
Qed.

End Agreement.

(** ** Versions *)
Section Versions.
Context {WL : WindowsLib}.

Lemma uint_digits s d c : NilEmpty.uint_of_string s = Some d → c ∈ bytes s → is_Some (DecimalString.uint_of_char c (Some Decimal.Nil)).
Proof.
  revert d. induction s as [|x s IH]; intros d; cbn; [by intros _ ?%elem_of_nil|].
  intros H [->|Hc]%elem_of_cons.
  - destruct x as [[] [] [] [] [] [] [] []]; by try destruct (NilEmpty.uint_of_string s).
  - destruct (NilEmpty.uint_of_string s) as [d'|] eqn:E; [by apply (IH d')|].
    destruct x as [[] [] [] [] [] [] [] []]; done.
Qed.

(** A number has no dot in its text. *)
Lemma parse_u64_no_dot s n : parse_u64 s = Some n → "."%char ∉ bytes s.
Proof.
  unfold parse_u64. intros (d & Hd & _)%bind_Some Hin.
  assert (∀ r, "."%char ∈ bytes r → NilZero.uint_of_string r = Some d → False) as Hno.
  { intros r Hr H. destruct r as [|c r]; [by apply elem_of_nil in Hr|].
    apply (uint_digits _ d) in Hr; [by destruct Hr|exact H]. }
  destruct (strip_prefix "+" s) as [r|] eqn:E; [|by eapply Hno].
  apply strip_prefix_spec in E as ->. apply (Hno r); [|done]. rewrite bytes_append in Hin. set_solver.
Qed.

Lemma split_dot a b : "."%char ∉ bytes a → split_on "." (a +:+ "." +:+ b) = a :: split_on "." b.
Proof.
  intros H. unfold split_on. rewrite bytes_append. change (bytes ("." +:+ b)) with ("."%char :: bytes b).
  rewrite split_bytes_app, split_bytes_single by done. cbn. by rewrite of_bytes_bytes.
Qed.

Lemma split_no_dot a : "."%char ∉ bytes a → split_on "." a = [a].
Proof. intros H. unfold split_on. rewrite split_bytes_single by done. cbn. by rewrite of_bytes_bytes. Qed.

Lemma parse_print_u64 n : (n ≤ u64_max)%N → parse_u64 (print_u32 n) = Some n.
Proof.
  intros Hn. unfold parse_u64. rewrite print_u32_no_plus. unfold print_u32. rewrite NilZero.usu by apply to_uint_not_nil.
  cbn [mbind option_bind]. rewrite DecimalN.Unsigned.of_to. by rewrite decide_True.
Qed.

(** The components of a dotted version, and what follows it. *)
Lemma dotted_components v rest :
  (major v ≤ u64_max)%N → (minor v ≤ u64_max)%N → (patch v ≤ u64_max)%N →
  omap parse_u64 (split_on "." (dotted v)) = [major v; minor v; patch v] ∧
  omap parse_u64 (split_on "." (dotted v +:+ "." +:+ rest)) = [major v; minor v; patch v] ++ omap parse_u64 (split_on "." rest).
Proof.
  intros H1%parse_print_u64 H2%parse_print_u64 H3%parse_print_u64. unfold dotted.
  pose proof (parse_u64_no_dot _ _ H1). pose proof (parse_u64_no_dot _ _ H2). pose proof (parse_u64_no_dot _ _ H3).
  replace ((print_u32 (major v) +:+ "." +:+ print_u32 (minor v) +:+ "." +:+ print_u32 (patch v)) +:+ "." +:+ rest)
    with (print_u32 (major v) +:+ "." +:+ print_u32 (minor v) +:+ "." +:+ print_u32 (patch v) +:+ "." +:+ rest)
    by (apply bytes_inj; rewrite !bytes_append, <- !app_assoc; done).
  rewrite !split_dot, split_no_dot by done. cbn [omap list_omap]. by rewrite H1, H2, H3.
Qed.

(** What [semver] documents: the numbers are of 64 bits, and a version without
    further parts is the three numbers. *)
Class SemverLaws : Prop := {
  semver_u64 s v : semver_parse s = Some v → (major v ≤ u64_max)%N ∧ (minor v ≤ u64_max)%N ∧ (patch v ≤ u64_max)%N;
  semver_plain s v : semver_parse s = Some v → pre v = "" → build_metadata v = "" → s = dotted v;
}.

Definition in_range (v : Version) : Prop := (major v ≤ 255 ∧ minor v ≤ 255 ∧ patch v ≤ 65535)%N.

(** The number behind the three ones of a converted version, if there is one. *)
Definition fourth (v : Version) : option N :=
  if decide (build_metadata v ≠ "") then parse_u64 (build_metadata v)
  else if decide (pre v ≠ "") then parse_u64 (pre v) else None.

Lemma converted_components `{!SemverLaws} s v t :
  semver_parse s = Some v → convert_version s = Ok t →
  omap parse_u64 (split_on "." t) = [major v; minor v; patch v] ++ option_list (fourth v) ∧
  (∀ n, fourth v = Some n → (n ≤ 65535)%N).
Proof.
  intros Hp. destruct (semver_u64 _ _ Hp) as (H1 & H2 & H3). unfold convert_version, fourth, required. rewrite Hp. cbn [ok_or mbind outcome_bind].
  assert (∀ x, is_u16 x = true → ∃ n, parse_u64 x = Some n ∧ (n ≤ 65535)%N ∧ split_on "." x = [x]) as Hu.
  { intros x. unfold is_u16. destruct (parse_u64 x) as [n|] eqn:E; [|done]. intros Hn%bool_decide_eq_true.
    exists n. split_and!; [done|done|]. by apply split_no_dot, (parse_u64_no_dot _ n). }
  destruct (decide (build_metadata v ≠ "")) as [Hb|Hb].
  - destruct (is_u16 (build_metadata v)) eqn:E; [|done]. intros [= <-]. destruct (Hu _ E) as (n & En & Hn & Hs).
    rewrite (proj2 (dotted_components v _ H1 H2 H3)), Hs. cbn [omap list_omap]. rewrite En. split; [done|by intros ? [= <-]].
  - destruct (decide (pre v ≠ "")) as [Hr|Hr].
    + destruct (is_u16 (pre v)) eqn:E; [|done]. intros [= <-]. destruct (Hu _ E) as (n & En & Hn & Hs).
      rewrite (proj2 (dotted_components v _ H1 H2 H3)), Hs. cbn [omap list_omap]. rewrite En. split; [done|by intros ? [= <-]].
    + intros [= <-]. rewrite (semver_plain _ _ Hp) by (by apply dec_stable).
      rewrite (proj1 (dotted_components v "" H1 H2 H3)). done.
Qed.

(** The part of a version behind the three numbers is a number of 16 bits. *)
Definition short_part (v : Version) : Prop :=
  if decide (build_metadata v ≠ "") then is_u16 (build_metadata v) = true
  else pre v = "" ∨ is_u16 (pre v) = true.

Lemma convert_version_ok s v : semver_parse s = Some v → (∃ t, convert_version s = Ok t) ↔ short_part v.
Proof.
  intros Hp. unfold convert_version, short_part, required. rewrite Hp. cbn [ok_or mbind outcome_bind].
  destruct (decide (build_metadata v ≠ "")) as [Hb|Hb].
  - destruct (is_u16 (build_metadata v)); split; [done|by eexists|by intros [? ?]|done].
  - destruct (decide (pre v ≠ "")) as [Hr|Hr].
    + destruct (is_u16 (pre v)); split; [by right|by eexists|by intros [? ?]|by intros [?|?]].
    + split; [left; by apply dec_stable|by eexists].
Qed.

Lemma validate_components t a b c (o : option N) :
  omap parse_u64 (split_on "." t) = [a; b; c] ++ option_list o → (∀ n, o = Some n → n ≤ 65535)%N →
  validate_wix_version t = Ok () ↔ (a ≤ 255 ∧ b ≤ 255 ∧ c ≤ 65535)%N.
Proof.
  intros H Ho. unfold validate_wix_version. rewrite H. cbn [option_list app].
  destruct o as [n|]; cbn; repeat case_decide; try (split; [done|lia]); try (split; [lia|done]).
  specialize (Ho n eq_refl). lia.
Qed.

(** The version of an MSI installer: a version of the application is taken
    exactly when its numbers are in the ranges that Windows Installer has for
    them and what follows is a number of 16 bits; the version of the installer
    then is these numbers. *)
Theorem wix_version_bounds `{!SemverLaws} s w v :
  wix w ≫= wix_version = None → semver_parse (version (package s)) = Some v →
  ((∃ t, wix_app_version s w = Ok t) ↔ in_range v ∧ short_part v) ∧
  ∀ t, wix_app_version s w = Ok t →
    omap parse_u64 (split_on "." t) = [major v; minor v; patch v] ++ option_list (fourth v) ∧
    (∀ n, fourth v = Some n → n ≤ 65535)%N.
Proof.
  intros Hw Hp. unfold wix_app_version. rewrite Hw. split.
  - rewrite <- (convert_version_ok _ _ Hp). split.
    + intros (t & (t' & Ht & (u & Hv & _)%bind_ok)%bind_ok). split; [|by exists t'].
      destruct (converted_components _ _ _ Hp Ht) as [Hc Hf]. destruct u. by apply (validate_components _ _ _ _ _ Hc Hf).
    + intros [Hr [t Ht]]. exists t. rewrite Ht. cbn [mbind outcome_bind].
      destruct (converted_components _ _ _ Hp Ht) as [Hc Hf]. by rewrite (proj2 (validate_components _ _ _ _ _ Hc Hf) Hr).
  - intros t (t' & Ht & (u & _ & [= <-])%bind_ok)%bind_ok. by apply converted_components with (s := version (package s)).
Qed.

End Versions.

(** ** The directories of an NSIS installer *)
#[global] Instance component_le_po : PartialOrder component_le.
Proof.
  split; [split|].
  - intros []; cbn; done.
  - intros [] [] []; cbn; try lia. by apply (transitivity (R := String.le)).
  - intros [] []; cbn; try lia; try done. intros H1 H2. f_equal. by apply (anti_symm String.le).
Qed.

#[global] Instance component_le_total : Total component_le.
Proof. intros [] []; cbn; try lia. apply (total String.le). Qed.

#[global] Instance path_le_trans : Transitive path_le.
Proof.
  intros p. induction p as [|c p IH]; intros [|d q] [|e r]; cbn; try done.
  destruct (decide (c = d)) as [->|Hcd]; destruct (decide (d = e)) as [->|Hde]; try done.
  - by apply IH.
  - by rewrite decide_False.
  - intros H1 H2. destruct (decide (c = e)) as [->|_]; [by destruct Hcd; apply (anti_symm component_le)|by trans d].
Qed.

#[global] Instance path_le_total : Total path_le.
Proof.
  intros p. induction p as [|c p IH]; intros [|d q]; cbn; [by left..|by right|].
  destruct (decide (c = d)) as [->|H]; [rewrite decide_True by done; apply IH|rewrite (decide_False (P := d = c)) by done; apply total; apply _].
Qed.

#[global] Instance path_le_anti : AntiSymm (=) path_le.
Proof.
  intros p. induction p as [|c p IH]; intros [|d q]; cbn; try done.
  destruct (decide (c = d)) as [->|H]; [rewrite decide_True by done; intros; f_equal; by apply IH|].
  rewrite (decide_False (P := d = c)) by done. intros H1 H2. by destruct H; apply (anti_symm component_le).
Qed.

Lemma dedup_elem {A} `{EqDecision A} (l : list A) x : x ∈ dedup l ↔ x ∈ l.
Proof.
  induction l as [|y l IH]; [done|]. cbn. destruct l as [|z l]; [done|]. case_decide as E; [subst z|]; set_solver.
Qed.

Lemma dedup_NoDup {A} `{EqDecision A} (R : relation A) `{!AntiSymm (=) R} (l : list A) : StronglySorted R l → NoDup (dedup l).
Proof.
  induction l as [|y l IH]; intros Hs; [constructor|]. inversion Hs as [|? ? Hl Hy]; subst. cbn. destruct l as [|z l]; [apply NoDup_singleton|].
  case_decide as E; [by apply IH|]. constructor; [|by apply IH]. rewrite dedup_elem. intros Hin.
  apply Forall_cons in Hy as [Hz Hy]. inversion Hl as [|? ? _ Hz']; subst.
  apply elem_of_cons in Hin as [->|Hin]; [done|]. rewrite Forall_forall in Hz'. apply E. apply (anti_symm R); [done|]. by apply Hz'.
Qed.

Lemma insert_by_count_perm p l : insert_by_count p l ≡ₚ p :: l.
Proof. induction l as [|q l IH]; cbn; [done|]. case_decide; [done|]. by rewrite IH, Permutation_swap. Qed.

Definition deeper (p q : PathBuf) : Prop := length q ≤ length p.

Lemma insert_by_count_sorted p l : StronglySorted deeper l → StronglySorted deeper (insert_by_count p l).
Proof.
  induction l as [|q l IH]; intros Hs; cbn; [repeat constructor|]. inversion Hs as [|? ? Hl Hq]; subst. case_decide as E.
  - constructor; [done|]. constructor; [done|]. eapply Forall_impl; [exact Hq|]. unfold deeper. lia.
  - constructor; [by apply IH|]. rewrite insert_by_count_perm. constructor; [unfold deeper; lia|done].
Qed.

Lemma by_count_spec l : foldr insert_by_count [] l ≡ₚ l ∧ StronglySorted deeper (foldr insert_by_count [] l).
Proof.
  induction l as [|p l [Hp Hs]]; cbn; [by repeat constructor|]. split; [by rewrite insert_by_count_perm, Hp|by apply insert_by_count_sorted].
Qed.

Lemma path_ancestors_prefix p q : head p ≠ Some RootDir → q ∈ path_ancestors p ↔ q `prefix_of` p.
Proof.
  intros Hr. unfold path_ancestors. replace (match p with RootDir :: _ => 1 | _ => 0 end) with 0 by by destruct p as [|[] p].
  rewrite list_elem_of_fmap. setoid_rewrite elem_of_reverse. setoid_rewrite elem_of_seq. split.
  - intros (n & -> & _). by apply prefix_take.
  - intros Hp. exists (length q). split; [|apply prefix_length in Hp; lia]. destruct Hp as [r ->]. by rewrite take_app_length.
Qed.

(** The directories that an uninstaller removes: those of the resources and all
    above them, each of them once and below those it contains, without the
    directory of the application itself. *)
Theorem ancestors_removed dirs :
  Forall (λ p, head p ≠ Some RootDir) dirs →
  NoDup (resources_ancestors dirs) ∧ StronglySorted deeper (resources_ancestors dirs) ∧
  ∀ q, q ∈ resources_ancestors dirs ↔ q ≠ [] ∧ ∃ p, p ∈ dirs ∧ q `prefix_of` p.
Proof.
  intros Hd. unfold resources_ancestors. set (sorted := dedup (merge_sort path_le (dirs ≫= path_ancestors))).
  destruct (by_count_spec sorted) as [Hp Hs]. set (l := foldr insert_by_count [] sorted) in *.
  assert (NoDup l) as Hn. { rewrite Hp. apply (dedup_NoDup path_le), (StronglySorted_merge_sort path_le). }
  assert (∀ q, q ∈ l ↔ ∃ p, p ∈ dirs ∧ q `prefix_of` p) as Hm.
  { intros q. rewrite Hp. unfold sorted. rewrite dedup_elem, merge_sort_Permutation, list_elem_of_bind.
    rewrite Forall_forall in Hd. split; intros (p & H1 & H2); exists p.
    - split; [done|]. apply path_ancestors_prefix; [by apply Hd|done].
    - split; [|done]. apply path_ancestors_prefix; [by apply Hd|done]. }
  destruct (decide (l = [])) as [El|El].
  { rewrite El in *. split_and!; [constructor|constructor|]. intros q. split; [by intros ?%elem_of_nil|].
    intros [_ H]. apply Hm in H. done. }
  destruct (exists_last El) as (k & x & El'). rewrite El' in *. rewrite length_app, Nat.add_sub, take_app_length.
  assert (x = []) as ->.
  { destruct x as [|c x]; [done|]. exfalso. assert ([] ∈ k ++ [c :: x]) as Hin.
    { apply Hm. destruct (proj1 (Hm (c :: x))) as (p & H1 & _); [set_solver|]. exists p. split; [done|apply prefix_nil]. }
    apply elem_of_app in Hin as [Hin|Hin]; [|by apply list_elem_of_singleton in Hin].
    apply list_elem_of_split in Hin as (k1 & k2 & ->). rewrite <- app_assoc in Hs. apply StronglySorted_app_1_r in Hs.
    inversion Hs as [|? ? _ H]; subst. rewrite Forall_forall in H. specialize (H (c :: x)). unfold deeper in H. cbn in H.
    specialize (H ltac:(set_solver)). lia. }
  apply NoDup_app in Hn as (Hk & Hx & _). split_and!; [done|by apply StronglySorted_app_1_l in Hs|].
  intros q. rewrite <- Hm. rewrite elem_of_app, list_elem_of_singleton. split.
  - intros Hq. split; [|by left]. intros ->. apply (Hx [] Hq). constructor.
  - intros [Hq [H| ->]]; done.
Qed.

(** ** Texts in a script of NSIS *)

(** Reading a text between quotation marks, as NSIS does: a dollar sign starts an
    escape sequence or else a variable, and a quotation mark ends the text. *)
Definition unescape (c : ascii) : option ascii :=
  if decide (c = "034"%char ∨ c = "`"%char) then Some c
  else if decide (c = "n"%char) then Some "010"%char
  else if decide (c = "t"%char) then Some "009"%char
  else if decide (c = "r"%char) then Some "013"%char
  else None.

Fixpoint nsis_read (l : list ascii) : option (list ascii) :=
  match l with
  | [] => Some []
  | c :: l =>
      if decide (c = "$"%char) then
        match l with
        | d :: l' =>
            if decide (d = "$"%char) then cons d <$> nsis_read l'
            else if decide (d = "\"%char) then
              match l' with e :: l'' => x ← unescape e; cons x <$> nsis_read l'' | [] => None end
            else None
        | [] => None
        end
      else if decide (c = "034"%char) then None
      else cons c <$> nsis_read l
  end.

Lemma read_escaped c l : nsis_read (escape_char c ++ l) = cons c <$> nsis_read l.
Proof.
  unfold escape_char. repeat case_decide; subst; cbn; try done. by rewrite !decide_False.
Qed.

(** A text that the template puts between quotation marks is read by NSIS as it
    was: it does not end the quotation and refers to no variable. *)
Theorem nsis_text_reads_back s : nsis_read (bytes (nsis_escape s)) = Some (bytes s).
Proof.
  unfold nsis_escape. rewrite bytes_of_bytes. induction (bytes s) as [|c l IH]; [done|].
  rewrite bind_cons, read_escaped, IH. done.
Qed.

(** ** Other properties *)
Section Findings.
Context {FS : ResourceFs} {WL : WindowsLib}.

(** The code that [inspect] prints is the one of the installer. *)
Lemma upgrade_code_inspected s w :
  wix_upgrade_code s w = let '(code, set) := inspect_upgrade_code (product_name (package s)) (wix w ≫= upgrade_code) in default code set.
Proof. reflexivity. Qed.

(** A licence in the format that WiX needs is taken for plain text and wrapped
    again: the test compares the whole name of the file with the extension. *)
Theorem rtf_license_wrapped s dir text data files :
  license_file (bundle_settings s) = Some (dir ++ [Normal "LICENSE.rtf"]) → file_text (dir ++ [Normal "LICENSE.rtf"]) = Some text →
  ∃ data' files', wix_license s data files = Ok (data', files') ∧
    data' !! "license" = Some (JPath (Bundler.join (Bundler.join (project_out_directory s) "wix") "LICENSE.rtf")) ∧
    files' !! Bundler.join (Bundler.join (project_out_directory s) "wix") "LICENSE.rtf" = Some (license_rtf text).
Proof.
  intros Hl Ht. unfold wix_license. rewrite Hl. unfold path_ends_with. rewrite bool_decide_false.
  - rewrite Ht. cbn [required ok_or mbind outcome_bind]. do 2 eexists. split; [done|]. by rewrite !lookup_insert_eq.
  - change (components ".rtf") with [Normal ".rtf"]. intros [k Hk]. by apply app_inj_tail in Hk as [_ [= ]].
Qed.

(** Two files of messages with the same name are written to the same place: both
    languages get those of the second one. *)
Theorem custom_language_files_collide out custom files a b :
  custom !! "German" = Some (components "de/messages.nsh") → custom !! "French" = Some (components "fr/messages.nsh") →
  (∀ p, canonicalize p = Some p) → file_text (components "de/messages.nsh") = Some a → file_text (components "fr/messages.nsh") = Some b →
  ∃ files', for_each (add_language out (Some custom)) ["German"; "French"] ([], files) =
      Ok ([Bundler.join out "messages.nsh"; Bundler.join out "messages.nsh"], files') ∧
    files' !! Bundler.join out "messages.nsh" = Some (BOM +:+ b).
Proof.
  intros Hg Hf Hc Ha Hb. cbn [for_each]. unfold add_language. cbn [mbind option_bind]. rewrite Hg, Hc. cbn [required ok_or mbind outcome_bind].
  rewrite Ha. cbn [required ok_or mbind outcome_bind]. rewrite Hf, Hc. cbn [required ok_or mbind outcome_bind]. rewrite Hb.
  cbn [required ok_or mbind outcome_bind]. eexists. split; [done|]. apply lookup_insert_eq.
Qed.

(** With a directory of its own for the tools, the plugin is put there, and the
    script still looks for it in the cache. *)
Theorem nsis_plugins_elsewhere s w arch v d data :
  local_tools_directory s = Some d → path_there (Bundler.join (tauri_tools_path s) "NSIS") = false →
  download_and_verify NSIS_TAURI_UTILS_URL NSIS_TAURI_UTILS_SHA1 = Some data →
  nsis_texts s w arch v !! "additional_plugins_path" =
    Some (JPath (cache_dir ++ [Normal "tauri"; Normal "NSIS"; Normal "Plugins"; Normal "x86-unicode"])) ∧
  nsis_tools (Bundler.join (tauri_tools_path s) "NSIS") =
    Ok {[Bundler.join (Bundler.join (Bundler.join (Bundler.join (Bundler.join d ".tauri") "NSIS") "Plugins") "x86-unicode") "nsis_tauri_utils.dll" := data]}.
Proof.
  intros Hd Hp Hf. split.
  - unfold nsis_texts. destruct (can_sign w); [destruct (sign_command _ _)|]; cbn zeta;
      rewrite !(lookup_insert_ne _ _ "additional_plugins_path") by done; by rewrite lookup_insert_eq.
  - unfold nsis_tools. rewrite Hp. cbn [negb]. unfold get_and_extract_nsis. rewrite Hf. cbn [required ok_or mbind outcome_bind].
    unfold tauri_tools_path. by rewrite Hd.
Qed.

(** Binaries whose names differ in a hyphen have the same identifier. *)
Theorem binary_ids_collide : wix_id "my-app" = wix_id "my_app".
Proof. reflexivity. Qed.

(** A version that is set in the configuration is taken though a part of it is no
    number, and with a fifth part of it nothing bounds the fourth. *)
Theorem wix_version_not_checked :
  validate_wix_version "1.x.2.3" = Ok () ∧ validate_wix_version "1.2.3.70000.5" = Ok ().
Proof. by vm_compute. Qed.

End Findings.

(** ** Witnesses *)
#[local] Instance ex_resources : ResourceFs := {|
  res_exists p := bool_decide (p ∈ ["data.txt"; "./data.txt"; "texts/en.txt"]); res_is_dir _ := false;
  glob_glob p := inr [inr p]; walk_dir _ := [];
|}.

Definition ex_semver (s : string) : option Version :=
  if decide (s = "1.2.3") then Some (mk_version 1 2 3 "" "")
  else if decide (s = "1.2.3-4") then Some (mk_version 1 2 3 "4" "") else None.

Definition ex_windows (dlls : list string) : WindowsLib := {|
  semver_parse := ex_semver; new_v4 n := N.of_nat n; uuid_v5 n k := n +:+ k; uuid_simple := print_u32; uuid_hyphenated := print_u32;
  current_dir := [RootDir; Normal "app"]; temp_dir := [RootDir; Normal "tmp"]; cache_dir := [RootDir; Normal "cache"];
  simplified p := p; canonicalize := Some; html_escape t := t;
  glob_extension d e := if decide (e = "dll") then (λ n, inr (Bundler.join d n)) <$> dlls else [];
  path_there _ := true; file_text _ := None; file_size _ := Some 1024%N; fetch _ := None; verify_file_hash _ _ := true;
  download_and_verify _ _ := None; redirected _ := None; run_command _ _ := true; debug_command c _ := c; included _ := "";
  language_metadata _ := None; to_upper t := t; render_nsis _ _ _ := Some ""; render_wix _ _ := Some ""; render_task _ _ := Some "";
  wix_extensions _ := [];
|}.

Definition ex_bundle (res : option (list string)) (map : option (list (string * string))) : BundleSettings :=
  mk_bundle (Some "com.app") None None None res map None None None None None None None None None
    (mk_deb None None None None None ∅ None None None None None None None None) (mk_appimage ∅ false false)
    (mk_rpm None None None None None "1" 0 ∅ None None None None None None) None SkipInstall.

Definition ex_settings (v : string) (res : option (list string)) (map : option (list (string * string))) : Settings :=
  mk_settings LevelError (mk_package "app" v "An app" None None None) None [Normal "target"] None
    (ex_bundle res map) [mk_binary "app" true None] "x86_64-pc-windows-msvc".

Definition ex_win : WindowsSettings := mk_windows None None None false None None [] true None.

(** Where a run puts the resources, by their sources. *)
Definition wix_places {WL : WindowsLib} (s : Settings) : list (PathBuf * list string) :=
  match wix_resources s 0 with Ok (m, _) => wix_entry <$> tree_files m | _ => [] end.
Definition nsis_places {WL : WindowsLib} (s : Settings) : list (PathBuf * PathBuf) :=
  match nsis_resources s with Ok m => (λ e, (e.1, e.2.2)) <$> map_to_list m | _ => [] end.

Definition ex_agreeing : Settings := ex_settings "1.2.3" (Some ["data.txt"; "texts/en.txt"]) None.

Lemma ex_agreeing_ok : is_Some (ok (nsis_resources (WL := ex_windows []) ex_agreeing)).
Proof.
  assert (match nsis_resources (WL := ex_windows []) ex_agreeing with Ok _ => true | _ => false end = true) as H by (vm_compute; reflexivity).
  destruct (nsis_resources ex_agreeing); [by eexists|discriminate H..].
Qed.

Lemma installers_agree_witness :
  ∃ m1 m2 k, ok (nsis_resources (WL := ex_windows []) ex_agreeing) = Some m1 ∧
    wix_resources (WL := ex_windows []) ex_agreeing 0 = Ok (m2, k) ∧
    wix_entry <$> tree_files m2 ≡ₚ nsis_entry <$> map_to_list m1.
Proof.
  destruct ex_agreeing_ok as [m1 H1]. assert (nsis_resources (WL := ex_windows []) ex_agreeing = Ok m1) as E.
  { destruct (nsis_resources ex_agreeing); cbn in H1; congruence. }
  destruct (installers_agree (WL := ex_windows []) ex_agreeing m1 0 E eq_refl) as (m2 & k & H2 & _ & Hp & _).
  exists m1, m2, k. split; [exact H1|]. split; [exact H2|exact Hp].
Defined.

(** A library next to the binary replaces the resources that belong into the
    directory of the application. *)
Theorem dlls_replace_root_resources :
  wix_places (WL := ex_windows []) (ex_settings "1.2.3" (Some ["data.txt"]) None) = [(components "/app/data.txt", [])] ∧
  wix_places (WL := ex_windows ["helper.dll"]) (ex_settings "1.2.3" (Some ["data.txt"]) None) = [(components "target/helper.dll", [])].
Proof. by vm_compute. Qed.

(** The name that WiX gives a file when the element does not set one: that of
    its source. *)
Definition wix_installed_name (f : ResourceFile) : option string := path_file_name (file_path f).

(** A resource that is mapped to another name keeps the name of its source in the
    MSI installer; the NSIS installer renames it. *)
Theorem msi_keeps_source_names :
  let s := ex_settings "1.2.3" None (Some [("data.txt", "texts/renamed.txt")]) in
  match wix_resources (WL := ex_windows []) s 0 with
  | Ok (m, _) => (λ e, (e.1, wix_installed_name e.2)) <$> tree_files m
  | _ => []
  end = [(["texts"], Some "data.txt")] ∧
  nsis_places (WL := ex_windows []) s = [(components "/app/data.txt", components "texts/renamed.txt")].
Proof. by vm_compute. Qed.

(** A file that is mapped to two targets is installed at the first one only. *)
Theorem second_target_dropped :
  let s := ex_settings "1.2.3" None (Some [("data.txt", "one.txt"); ("./data.txt", "two.txt")]) in
  nsis_places (WL := ex_windows []) s = [(components "/app/data.txt", components "one.txt")] ∧
  wix_places (WL := ex_windows []) s = [(components "/app/data.txt", [])].
Proof. by vm_compute. Qed.

#[local] Instance ex_semver_laws : SemverLaws (WL := ex_windows []).
Proof.
  split; intros s v; cbn; unfold ex_semver; repeat case_decide; intros; simplify_eq/=; try done.
Qed.

Lemma wix_version_bounds_witness :
  (∃ t, wix_app_version (WL := ex_windows []) (ex_settings "1.2.3-4" None None) ex_win = Ok t) ∧
  omap parse_u64 (split_on "." "1.2.3.4") = [1; 2; 3; 4]%N.
Proof.
  destruct (wix_version_bounds (WL := ex_windows []) (ex_settings "1.2.3-4" None None) ex_win (mk_version 1 2 3 "4" "") eq_refl eq_refl)
    as [H1 H2].
  assert (∃ t, wix_app_version (WL := ex_windows []) (ex_settings "1.2.3-4" None None) ex_win = Ok t) as [t Ht].
  { apply H1. split; [done|]. right. reflexivity. }
  split; [by exists t|]. by vm_compute.
Defined.

Lemma ancestors_removed_witness : resources_ancestors [components "a/b"; components "a"] = [components "a/b"; components "a"].
Proof.
  destruct (ancestors_removed [components "a/b"; components "a"]) as (H & _).
  - repeat constructor; done.
  - by vm_compute.
Defined.

End WindowsInstallers.
