(* ===== verification/Installed.v ===== *)
(** * The installed application

    Models what an application finds out about the place it runs from:
    [tauri-utils/Source/platform.rs] with [platform/starting_binary.rs], [Env] of
    [tauri-utils/Source/lib.rs], the directories of [tauri/Source/path/desktop.rs]
    and [tauri/Source/process.rs], on Linux; [exit] and [restart] of
    [tauri/Source/app.rs]; and of [tauri-build/Source/lib.rs] what the build
    script copies next to the binary. The theorems compose this with the
    packages of [LinuxPackages] and the resolution of [Paths]: the application
    finds its resources where the package put them. *)
From Stdlib Require Import Ascii.
From S2P Require Import Prelude Acl Paths Numbers MigrateConfig BundleResources Bundler LinuxPackages WindowsInstallers.
Import Paths.

(** The process and its surroundings. *)
Class Host := {
  std_current_exe : option string;
  (** the canonical path of a file that exists *)
  canonical_path : string → option string;
  exists_at : string → bool;
  env_var : string → option string;
  args_os : list string;
  std_temp_dir : string;
  (** a directory of the user, by the name of its function in [dirs] *)
  user_dir : string → option string;
}.

Module Installed.
Import Bundler LinuxPackages.

Record Env := mk_env { appimage_var : option string; appdir : option string; env_args : list string }.

Record PackageInfo := mk_info {
  info_name : string;
  info_version : string;
  info_authors : string;
  info_description : string;
  crate_name : string;
}.

(** What Cargo tells about the package. *)
Record CargoPackage := mk_cargo { cargo_name : string; cargo_version : string; cargo_authors : string; cargo_description : string }.

(** The package info that the code generation writes into the application; a
    version of the configuration that is not semantic is refused. *)
Definition package_info_of (is_semver : string → bool) (product_name version : option string) (c : CargoPackage)
    : outcome () PackageInfo :=
  let package_name := default (cargo_name c) product_name in
  package_version ← match version with
                    | Some version => if is_semver version then Ok version else Err ()
                    | None => Ok (cargo_version c)
                    end;
  Ok (mk_info package_name package_version (cargo_authors c) (cargo_description c) (cargo_name c)).

Section Running.
Context {H : Host}.

(** [Env::default]; the warning changes nothing. *)
Definition Env_default : Env := mk_env (env_var "APPIMAGE") (env_var "APPDIR") args_os.

(** ** [platform.rs] *)

(** [StartingBinary::new] where links are allowed. *)
Definition STARTING_BINARY : option string := p ← std_current_exe; canonical_path p.
Definition current_exe : option string := STARTING_BINARY.

(** [target_triple], by the configuration of the compiler. *)
Inductive TripleError := Architecture | Os | Environment.

Definition target_triple (target_arch target_os target_env : string) : outcome TripleError string :=
  arch ← (if decide (target_arch = "x86") then Ok "i686"
          else if decide (target_arch = "x86_64") then Ok "x86_64"
          else if decide (target_arch = "arm") then Ok "armv7"
          else if decide (target_arch = "aarch64") then Ok "aarch64"
          else Err Architecture);
  os ← (if decide (target_os = "linux") then Ok "unknown-linux"
        else if decide (target_os = "macos") then Ok "apple-darwin"
        else if decide (target_os = "windows") then Ok "pc-windows"
        else if decide (target_os = "freebsd") then Ok "unknown-freebsd"
        else Err Os);
  os ← (if decide (target_os = "macos" ∨ target_os = "freebsd") then Ok os
        else
          env ← (if decide (target_env = "gnu") then Ok "gnu"
                 else if decide (target_env = "musl") then Ok "musl"
                 else if decide (target_env = "msvc") then Ok "msvc"
                 else Err Environment);
          Ok (os +:+ "-" +:+ env));
  Ok (arch +:+ "-" +:+ os).

(** [parse_rust_cfg] and [target_triple] of [tauri-bundler/Source/bundle/platform.rs]:
    what [rustc] prints, where it runs, names the architecture. *)
Definition parse_rust_cfg_line (target_arch : option string) (line : string) : outcome BundleError (option string) :=
  let target_line := "target_arch=" +:+ String "034" EmptyString in
  if starts_with target_line line then
    let len := String.length target_line in
    if decide (String.length line < len + 1) then Panic "attempt to subtract with overflow"
    else Ok (Some (of_bytes (take (String.length line - len - 1) (drop len (bytes line)))))
  else Ok target_arch.

Definition parse_rust_cfg (cfg : string) : outcome BundleError (option string) :=
  for_each parse_rust_cfg_line (split_on "010" cfg) None.

Definition host_target_triple (rustc_cfg : option string) (target_arch target_os target_env : string) : outcome BundleError string :=
  arch ← match rustc_cfg with
         | Some stdout =>
             arch ← parse_rust_cfg stdout;
             expect arch "could not find `target_arch` when running `rustc --print cfg`."
         | None =>
             if decide (target_arch = "x86") then Ok "i686"
             else if decide (target_arch = "x86_64") then Ok "x86_64"
             else if decide (target_arch = "arm") then Ok "armv7"
             else if decide (target_arch = "aarch64") then Ok "aarch64"
             else Err (ArchError "Unable to determine target-architecture")
         end;
  os ← (if decide (target_os = "linux") then Ok "unknown-linux"
        else if decide (target_os = "macos") then Ok "apple-darwin"
        else if decide (target_os = "windows") then Ok "pc-windows"
        else if decide (target_os = "freebsd") then Ok "unknown-freebsd"
        else Err (ArchError "Unable to determine target-os"));
  os ← (if decide (target_os = "macos" ∨ target_os = "freebsd") then Ok os
        else
          env ← (if decide (target_env = "gnu") then Ok "gnu"
                 else if decide (target_env = "musl") then Ok "musl"
                 else if decide (target_env = "msvc") then Ok "msvc"
                 else Err (ArchError "Unable to determine target-environment"));
          Ok (os +:+ "-" +:+ env));
  Ok (arch +:+ "-" +:+ os).

Definition is_cargo_output_directory (path : string) : bool := exists_at (push path ".cargo-lock").

(** [Path::parent], of a canonical path. *)
Definition parent (p : string) : option string := collect_path <$> WindowsInstallers.path_parent (components p).

(** The directory is [target/profile] or [target/triple/profile]. *)
Definition below_target (curr_dir : string) : bool :=
  let parts := split_on "/" curr_dir in
  let len := length parts in
  (bool_decide (2 ≤ len) && bool_decide (parts !! (len - 2) = Some "target")) ||
  (bool_decide (3 ≤ len) && bool_decide (parts !! (len - 3) = Some "target")).

Definition resource_dir_from (exe : string) (info : PackageInfo) (env : Env) : outcome Empty_set string :=
  exe_dir ← expect (parent exe) "failed to get exe directory";
  if below_target exe_dir && is_cargo_output_directory exe_dir then Ok exe_dir
  else
    match canonical_path (push exe_dir ("../lib/" +:+ info_name info)) with
    | Some bundle_dir => Ok bundle_dir
    | None =>
        match appdir env with
        | Some appdir => Ok (appdir +:+ "/usr/lib/" +:+ info_name info)
        | None => Ok ("/usr/lib/" +:+ info_name info)
        end
    end.

Definition resource_dir (info : PackageInfo) (env : Env) : outcome () string :=
  exe ← ok_or current_exe ();
  match resource_dir_from exe info env with Ok d => Ok d | Err e => match e with end | Panic msg => Panic msg | Diverge => Diverge end.

(** ** [path/desktop.rs] *)

(** [resolve_path] calls one method of the resolver for each base directory. *)
Definition base_directory (identifier : string) (info : PackageInfo) (env : Env) (d : BaseDirectory) : option string :=
  match d with
  | Paths.Audio => user_dir "audio_dir"
  | Paths.Cache => user_dir "cache_dir"
  | Paths.Config => user_dir "config_dir"
  | Paths.Data => user_dir "data_dir"
  | Paths.LocalData => user_dir "data_local_dir"
  | Paths.Document => user_dir "document_dir"
  | Paths.Download => user_dir "download_dir"
  | Paths.Picture => user_dir "picture_dir"
  | Paths.Public => user_dir "public_dir"
  | Paths.Video => user_dir "video_dir"
  | Paths.Resource => ok (resource_dir info env)
  | Paths.Temp => Some std_temp_dir
  | Paths.AppConfig => (λ d, push d identifier) <$> user_dir "config_dir"
  | Paths.AppData => (λ d, push d identifier) <$> user_dir "data_dir"
  | Paths.AppLocalData => (λ d, push d identifier) <$> user_dir "data_local_dir"
  | Paths.AppCache => (λ d, push d identifier) <$> user_dir "cache_dir"
  | Paths.AppLog => (λ d, push (push d identifier) "logs") <$> user_dir "data_local_dir"
  | Paths.Desktop => user_dir "desktop_dir"
  | Paths.Executable => user_dir "executable_dir"
  | Paths.Font => user_dir "font_dir"
  | Paths.Home => user_dir "home_dir"
  | Paths.Runtime => user_dir "runtime_dir"
  | Paths.Template => user_dir "template_dir"
  end.

(** ** [process.rs] and the end of the application *)

(** What the process does, in order. *)
Inductive Action :=
| RequestExit (code : Z)
| Cleanup
| Spawn (program : string) (args : list string)
| ExitProcess (code : Z).

Definition current_binary (env : Env) : option string :=
  match appimage_var env with Some p => Some p | None => current_exe end.

(** [process::restart]: a failure to start is only logged. *)
Definition process_restart (env : Env) : list Action :=
  match current_binary env with Some path => [Spawn path (drop 1 (env_args env))] | None => [] end ++ [ExitProcess 0].

Definition RESTART_EXIT_CODE : Z := 2147483647.

(** [AppHandle::exit] and [AppHandle::restart]; the request fails when the event
    loop is gone. *)
Definition app_exit (loop_open : bool) (exit_code : Z) : list Action :=
  if loop_open then [RequestExit exit_code] else [Cleanup; ExitProcess exit_code].

Definition app_restart (loop_open : bool) (env : Env) : list Action :=
  (if loop_open then [RequestExit RESTART_EXIT_CODE] else [Cleanup]) ++ process_restart env.

End Running.

(** ** The build script *)
Section BuildScript.
Context {FS : ResourceFs} {PL : PackLib} {H : Host}.

Inductive ScriptError := ScriptFailed (text : string) | ScriptResource (e : BundleResources.Error).

Definition script_item (i : BundleResources.Item) : outcome ScriptError BundleResources.Resource :=
  match i with inl e => Err (ScriptResource e) | inr r => Ok r end.

Definition script_copy_file (from to : PathBuf) (t : Tree) : outcome ScriptError Tree :=
  if negb (path_exists from) then Err (ScriptFailed "does not exist")
  else if negb (is_file from) then Err (ScriptFailed "is not a file")
  else match to with
       | [] | [RootDir] => Panic "No data in parent"
       | _ => Ok (<[to := CopyOf from]> t)
       end.

Definition script_copy_binary (target_triple : string) (path : PathBuf) (package_name : option string) (t : Tree) (i : BundleResources.Item)
    : outcome ScriptError Tree :=
  src ← script_item i;
  n ← expect (BundleResources.file_name (BundleResources.path src)) "failed to extract external binary filename";
  let file_name := Migrate.str_replace ("-" +:+ target_triple) "" n in
  if decide (package_name = Some file_name) then Err (ScriptFailed "Cannot define a sidecar with the same name as the Cargo package name")
  else
    let dest := Bundler.join path file_name in
    script_copy_file (components (BundleResources.path src)) dest (delete dest t).

Definition script_copy_resource (path : PathBuf) (t : Tree) (i : BundleResources.Item) : outcome ScriptError Tree :=
  resource ← script_item i;
  src ← ok_or (canonical_path (BundleResources.path resource)) (ScriptFailed "io");
  let target := Bundler.join path (BundleResources.target resource) in
  if decide (components src = target) then Ok t else script_copy_file (components src) target t.

(** All items of an iterator of resources. *)
Definition script_items (it : BundleResources.ResourcePathsIter) : outcome ScriptError (list BundleResources.Item) :=
  match all_of it with Ok l => Ok l | Err _ => Err (ScriptFailed "resources") | Panic msg => Panic msg | Diverge => Diverge end.

Definition script_copy_resources (it : BundleResources.ResourcePathsIter) (path : string) (t : Tree) : outcome ScriptError Tree :=
  path ← ok_or (canonical_path path) (ScriptFailed "io");
  items ← script_items it;
  for_each (script_copy_resource (components path)) items t.

Definition script_copy_binaries (it : BundleResources.ResourcePathsIter) (target_triple : string) (path : PathBuf) (package_name : option string)
    (t : Tree) : outcome ScriptError Tree :=
  items ← script_items it;
  for_each (script_copy_binary target_triple path package_name) items t.

(** The directory of the profile, three levels above the output directory. *)
Definition script_target_dir (out_dir : string) : outcome ScriptError string :=
  p ← expect (parent out_dir) "called `Option::unwrap()` on a `None` value";
  p ← expect (parent p) "called `Option::unwrap()` on a `None` value";
  expect (parent p) "called `Option::unwrap()` on a `None` value".

(** The part of [try_build] that copies binaries and resources, for a target
    that is not Windows. *)
Definition script_copies (external_bin : option (list string)) (resources : option (list string + list (string * string)))
    (target_triple out_dir : string) (package_name : option string) (t : Tree) : outcome ScriptError Tree :=
  target_dir ← script_target_dir out_dir;
  t ← match external_bin with
      | Some paths =>
          script_copy_binaries (BundleResources.ResourcePaths_new (BundleResources.external_binaries paths target_triple) true)
            target_triple (components target_dir) package_name t
      | None => Ok t
      end;
  match default (inl []) resources with
  | inl res => script_copy_resources (BundleResources.ResourcePaths_new res true) target_dir t
  | inr map => script_copy_resources (BundleResources.from_map map true) target_dir t
  end.

End BuildScript.

(** The version in the resources of a Windows executable, of 64 bits. *)
Definition file_version (v : Version) : Z :=
  (Z.lor (Z.lor (Z.shiftl (Z.of_N (major v)) 48) (Z.shiftl (Z.of_N (minor v)) 32)) (Z.shiftl (Z.of_N (patch v)) 16)) `mod` 2 ^ 64.

(** The names that the Java side of an application looks its functions up by. *)
Definition android_app_name (identifier : string) : string :=
  Migrate.str_replace "-" "_" (default "" (last (split_on "." identifier))).

Definition android_part (w : string) : string := of_bytes (bytes w ≫= λ c, if decide (c = "_"%char ∨ c = "-"%char) then ["_"; "1"]%char else [c]).

Definition android_package_prefix (identifier : string) : string :=
  let parts := split_on "." identifier in
  String.concat "_" (android_part <$> take (length parts - 1) parts).

(** ** Proofs *)
Abbreviation usr_lib := [Normal "usr"; Normal "lib"].
Abbreviation applications := [Normal "usr"; Normal "share"; Normal "applications"].
Abbreviation hicolor := [Normal "usr"; Normal "share"; Normal "icons"; Normal "hicolor"].

Lemma rel_components p : is_absolute p = false → rel (components p) = body p.
Proof.
  intros Hp. unfold components, lead. rewrite Hp. case_decide; [done|]. cbn [app].
  destruct (body p) as [|c b] eqn:E; [done|].
  destruct (body_elements p c) as [->|(n & -> & _)]; [rewrite E; by left|done..].
Qed.

Lemma rel_name n : Paths.name n → rel (components n) = [Normal n].
Proof. intros Hn. rewrite rel_components by by apply name_relative. by apply name_body. Qed.

Lemma parent_push d n : d ≠ "" → Paths.name n → parent (push d n) = Some (normalize d).
Proof.
  intros Hd Hn. unfold parent, WindowsInstallers.path_parent.
  rewrite components_push by (try apply name_relative; done). rewrite name_body by done.
  rewrite last_snoc, length_app, Nat.add_sub, take_app_length. done.
Qed.

Lemma insert_all_found l t k :
  k ∈ l.*1 → ∃ e, e ∈ l ∧ e.1 = k ∧ insert_all l t !! k = Some e.2.
Proof.
  induction l as [|e l IH] using rev_ind; intros Hk; [by apply not_elem_of_nil in Hk|].
  rewrite insert_all_app. cbn. rewrite fmap_app, elem_of_app in Hk. destruct (decide (e.1 = k)) as [He|He].
  - exists e. rewrite elem_of_app, list_elem_of_singleton. split_and!; [auto|done|]. by rewrite He, lookup_insert_eq.
  - destruct Hk as [Hk|Hk]; [|cbn in Hk; apply list_elem_of_singleton in Hk; congruence].
    destruct (IH Hk) as (e' & He' & Hk' & Hl). exists e'. rewrite lookup_insert_ne by done.
    split_and!; [|done..]. apply elem_of_app. by left.
Qed.

Section Found.
Context {FS : ResourceFs} {FL : BundleResources.ResourceFsLaws} {PL : PackLib} {H : Host}.

(** The process runs from where the package put the program, and the directory
    of its libraries is the one next to it, or there is none. *)
Record installed_in_usr (product program : string) (info : PackageInfo) (env : Env) : Prop := {
  usr_program : Paths.name program;
  usr_exe : current_exe = Some ("/usr/bin/" +:+ program);
  usr_name : info_name info = product;
  usr_lib_dir : canonical_path ("/usr/bin/../lib/" +:+ product) = Some ("/usr/lib/" +:+ product) ∨
                (canonical_path ("/usr/bin/../lib/" +:+ product) = None ∧ appdir env = None);
}.

Lemma usr_resource_dir product program info env :
  installed_in_usr product program info env → resource_dir info env = Ok ("/usr/lib/" +:+ product).
Proof.
  intros [Hp He <- Hl]. unfold resource_dir. rewrite He. cbn [ok_or mbind outcome_bind].
  unfold resource_dir_from. change ("/usr/bin/" +:+ program) with ("/usr/bin" +:+ "/" +:+ program).
  replace ("/usr/bin" +:+ "/" +:+ program) with (push "/usr/bin" program)
    by (unfold push; by rewrite (name_relative _ Hp)).
  rewrite parent_push by done. cbn [expect mbind outcome_bind].
  replace (below_target (normalize "/usr/bin")) with false by (vm_compute; reflexivity). cbn [andb].
  change (push (normalize "/usr/bin") ("../lib/" +:+ info_name info)) with ("/usr/bin/../lib/" +:+ info_name info).
  destruct Hl as [->|[-> ->]]; done.
Qed.

(** Where the package keeps a resource, below the root. *)
Definition resource_place (product target : string) : PathBuf := usr_lib ++ Normal product :: body target.

Lemma resource_place_components product target :
  Paths.name product → is_absolute target = false →
  components (push ("/usr/lib/" +:+ product) target) = RootDir :: resource_place product target.
Proof.
  intros Hp Ht. rewrite components_push by done.
  replace ("/usr/lib/" +:+ product) with (push "/usr/lib" product) by (unfold push; by rewrite (name_relative _ Hp)).
  rewrite components_push by (try apply name_relative; done). by rewrite name_body by done.
Qed.

Lemma resource_entry_place s r :
  Paths.name (product_name (package s)) → is_absolute (BundleResources.target r) = false →
  resource_entry s (inr r) =
    (resource_place (product_name (package s)) (BundleResources.target r), CopyOf (components (BundleResources.path r))).
Proof. intros Hp Ht. cbn [resource_entry]. by rewrite rel_name, rel_components by done. Qed.

(** What is copied after the resources does not replace one of them. *)
Lemma kept_after_resources s sidecars icons q text k :
  usr_lib `prefix_of` k → Forall (λ e, hicolor `prefix_of` icon_path e.1) icons →
  Forall (λ e, (custom_entry e).1 ≠ k) (files_order (rpm_files (rpm (bundle_settings s)))) →
  k ∉ ((sidecar_entry s <$> sidecars) ++ (icon_entry <$> icons) ++ [(applications ++ q, Text text)] ++
       (custom_entry <$> files_order (rpm_files (rpm (bundle_settings s))))).*1.
Proof.
  intros [x Hk] Hi Hc. rewrite !fmap_app, !not_elem_of_app. split_and!.
  - intros [y Hy]%sidecar_key. by rewrite Hk in Hy.
  - rewrite <- list_fmap_compose. intros (e & E & He)%list_elem_of_fmap. rewrite Forall_forall in Hi.
    destruct (Hi e He) as [y Hy]. cbn in E. rewrite Hy in E. by rewrite Hk in E.
  - intros E%list_elem_of_singleton. by rewrite Hk in E.
  - rewrite <- list_fmap_compose. intros (e & E & He)%list_elem_of_fmap. rewrite Forall_forall in Hc. by apply (Hc e).
Qed.

(** An application finds its resources where its Debian package puts them. When
    the resources are a list, the program runs from the directory of programs
    and no custom file replaces a resource, resolving the path of a resource as
    it is written in the configuration, against the base directory of
    resources, gives a path at which the package installs a copy of that
    resource, or of another with the same target. *)
Theorem installed_resource_found s arch t p it items r program identifier info env src :
  plain_settings s → binary_arch s ≫= deb_arch = Ok arch → deb_package s = Ok (t, p) →
  resource_files s = Ok it → all_of it = Ok items → inr r ∈ items →
  Forall (λ e, (custom_entry e).1 ≠ resource_place (product_name (package s)) (BundleResources.target r))
    (files_order (rpm_files (rpm (bundle_settings s)))) →
  installed_in_usr (product_name (package s)) program info env →
  BundleResources.normalize src = BundleResources.path r ∨ src = BundleResources.path r →
  ∃ q k r', resolve (base_directory identifier info env) src Resource = Ok q ∧ components q = RootDir :: k ∧
    inr r' ∈ items ∧ body (BundleResources.target r') = body (BundleResources.target r) ∧
    t !! ((deb_package_dir s arch ++ [Normal "data"]) ++ k) = Some (CopyOf (components (BundleResources.path r'))).
Proof.
  intros Hs Ha Hd Hit Hitems Hr Hc Hu Hsrc. destruct (plain_list _ Hs) as [l Hl].
  pose proof (list_resources s l it items) as Htarget. specialize (λ r, Htarget r Hl (plain_map _ Hs) Hit Hitems) as Hrel.
  set (k := resource_place (product_name (package s)) (BundleResources.target r)) in *.
  destruct (deb_entries s arch t p k Hs Ha Hd) as (items' & sidecars & icons & q & text & Hg & Ht).
  destruct (group_items _ _ _ _ _ _ Hg) as (it' & Hit' & Hitems'). rewrite Hit in Hit'. injection Hit' as <-.
  rewrite Hitems in Hitems'. injection Hitems' as <-.
  rewrite insert_all_app, insert_all_app, insert_all_other in Ht.
  2:{ apply kept_after_resources; [by eexists|by apply Hg|done]. }
  destruct (insert_all_found (resource_entry s <$> items) (insert_all (bin_entry s <$> binaries s) ∅) k) as (e & He & Hk & Hf).
  { rewrite <- list_fmap_compose. apply list_elem_of_fmap. exists (inr r). split; [|done].
    cbn [compose]. by rewrite resource_entry_place by (apply Hs || by apply Hrel). }
  apply list_elem_of_fmap in He as ([e'|r'] & -> & Hr'); [done|].
  rewrite Hf in Ht. clear Hf. rewrite resource_entry_place in Hk, Ht by (apply Hs || by apply Hrel).
  apply app_inv_head in Hk. injection Hk as Hk.
  exists (push ("/usr/lib/" +:+ product_name (package s)) (BundleResources.target r)), k, r'. split_and!; [|by apply resource_place_components; (apply Hs || apply Hrel)|done..].
  destruct (Hrel r Hr) as [<- _]. unfold resolve, resolve_path. cbn [base_directory].
  rewrite (usr_resource_dir _ _ _ _ Hu). cbn. do 2 f_equal.
  destruct Hsrc as [<-| ->]; [|done]. symmetry. apply BundleResources.relpath_normalize.
Qed.

(** *** Running from the directory of Cargo *)

(** The build script puts the resource there, unless it is there already. *)
Definition provided (d : PathBuf) (b : PathBuf) (items : list BundleResources.Item) (t : Tree) : Prop :=
  ∃ r c, inr r ∈ items ∧ body (BundleResources.target r) = b ∧ canonical_path (BundleResources.path r) = Some c ∧
    (t !! (d ++ b) = Some (CopyOf (components c)) ∨ components c = d ++ b).

Lemma script_copy_step d t r t' :
  d ≠ [] → is_absolute (BundleResources.target r) = false → script_copy_resource d t (inr r) = Ok t' →
  ∃ c, canonical_path (BundleResources.path r) = Some c ∧
    (t' = <[d ++ body (BundleResources.target r) := CopyOf (components c)]> t ∨
     (t' = t ∧ components c = d ++ body (BundleResources.target r))).
Proof.
  intros Hd Ht. unfold script_copy_resource. cbn [script_item mbind outcome_bind].
  destruct (canonical_path _) as [c|]; [|done]. cbn [ok_or mbind outcome_bind].
  rewrite join_text, rel_components by done. case_decide as Hc; [intros [= <-]; eauto|].
  intros Hcopy. exists c. split; [done|]. left. unfold script_copy_file in Hcopy.
  destruct (negb _); [done|]. destruct (negb _); [done|].
  by destruct (d ++ _) as [|[] []]; simplify_eq.
Qed.

Lemma resources_provided d items t t' b :
  d ≠ [] → (∀ r, inr r ∈ items → is_absolute (BundleResources.target r) = false) →
  (∃ r, inr r ∈ items ∧ body (BundleResources.target r) = b) →
  for_each (script_copy_resource d) items t = Ok t' → provided d b items t'.
Proof.
  intros Hd. revert t'. induction items as [|i items IH] using rev_ind; intros t' Hrel (r & Hr & Hb) Hf; [by apply not_elem_of_nil in Hr|].
  rewrite for_each_app in Hf. apply bind_ok in Hf as (t1 & H1 & (t2 & H2 & [= <-])%bind_ok).
  destruct i as [e|x]; [done|]. assert (inr x ∈ items ++ [inr x]) as Hx by (apply elem_of_app; right; by left).
  apply script_copy_step in H2 as (c & Hc & H2); [|done|by apply Hrel].
  destruct (decide (body (BundleResources.target x) = b)) as [Hxb|Hxb].
  - exists x, c. split_and!; [done..|]. rewrite Hxb in H2. destruct H2 as [->|[-> ?]]; [left; apply lookup_insert_eq|by right].
  - destruct (IH t1) as (r' & c' & Hr' & Hb' & Hc' & Hp); [| |done|].
    + intros y Hy. apply Hrel, elem_of_app. by left.
    + exists r. split; [|done]. apply elem_of_app in Hr as [?|[=->]%list_elem_of_singleton]; done.
    + exists r', c'. split_and!; [apply elem_of_app; by left|done..|].
      destruct Hp as [Hp|Hp]; [left|by right]. destruct H2 as [->|[-> _]]; [|done].
      rewrite lookup_insert_ne; [done|]. intros E%app_inv_head. done.
Qed.

Lemma cargo_resource_dir d program info env :
  d ≠ "" → normalize d = d → Paths.name program → current_exe = Some (push d program) →
  below_target d = true → is_cargo_output_directory d = true → resource_dir info env = Ok d.
Proof.
  intros Hd Hn Hp He Hb Hc. unfold resource_dir. rewrite He. cbn [ok_or mbind outcome_bind].
  unfold resource_dir_from. rewrite parent_push by done. cbn [expect mbind outcome_bind]. by rewrite Hn, Hb, Hc.
Qed.

(** An application that runs from the directory of Cargo finds its resources
    where the build script copied them, when the resources are a list. *)
Theorem dev_resource_found l dir d t0 t items r program identifier info env src :
  script_copy_resources (BundleResources.ResourcePaths_new l true) dir t0 = Ok t → canonical_path dir = Some d →
  script_items (BundleResources.ResourcePaths_new l true) = Ok items → inr r ∈ items →
  is_absolute d = true → normalize d = d → Paths.name program → current_exe = Some (push d program) →
  below_target d = true → is_cargo_output_directory d = true →
  BundleResources.normalize src = BundleResources.path r ∨ src = BundleResources.path r →
  ∃ q, resolve (base_directory identifier info env) src Resource = Ok q ∧
    components q = components d ++ body (BundleResources.target r) ∧
    provided (components d) (body (BundleResources.target r)) items t.
Proof.
  intros Hs Hc Hi Hr Ha Hn Hp He Hb Hl Hsrc. assert (d ≠ "") as Hd by (intros ->; done).
  assert (∀ x, inr x ∈ items → BundleResources.target x = BundleResources.resource_relpath (BundleResources.path x)) as Htarget.
  { unfold script_items in Hi. destruct (all_of _) as [m| | |] eqn:E; try done. injection Hi as ->.
    apply all_of_remaining in E as ->; [|done|constructor; [by intros []|by left|by intros []]].
    intros x Hx. by apply BundleResources.all_items_list in Hx. }
  assert (∀ x, inr x ∈ items → is_absolute (BundleResources.target x) = false) as Hrel.
  { intros x Hx. rewrite Htarget by done. apply relpath_relative. }
  exists (push d (BundleResources.target r)). split_and!.
  - unfold resolve, resolve_path. cbn [base_directory]. rewrite (cargo_resource_dir d program) by done. cbn.
    do 2 f_equal. rewrite Htarget by done. destruct Hsrc as [<-| ->]; [|done]. symmetry. apply BundleResources.relpath_normalize.
  - by rewrite components_push by auto.
  - unfold script_copy_resources in Hs. rewrite Hc in Hs. cbn [ok_or mbind outcome_bind] in Hs. rewrite Hi in Hs.
    cbn [mbind outcome_bind] in Hs. eapply resources_provided; [|exact Hrel|by exists r|exact Hs].
    unfold components, lead. by rewrite Ha.
Qed.

End Found.

(** ** The version of a Windows executable *)

(** The fields of a version of 64 bits: four of 16 bits, the last of them zero. *)
Definition version_field (v : Z) (i : Z) : Z := Z.land (Z.shiftr v i) 65535.

Lemma version_field_div v i : (0 ≤ i)%Z → version_field v i = ((v / 2 ^ i) mod 65536)%Z.
Proof. intros Hi. unfold version_field. change 65535%Z with (Z.ones 16). by rewrite Z.land_ones, Z.shiftr_div_pow2 by lia. Qed.

Lemma lor_disjoint a b n : (0 ≤ n)%Z → (0 ≤ b < 2 ^ n)%Z → Z.lor (a * 2 ^ n) b = (a * 2 ^ n + b)%Z.
Proof.
  intros Hn Hb. assert (Z.land (a * 2 ^ n) b = 0%Z) as Hl; [|by rewrite <- Z.add_lor_land, Hl, Z.add_0_r].
  apply Z.bits_inj_0. intros i. rewrite Z.land_spec. destruct (Z.lt_ge_cases i 0) as [Hi|Hi]; [by rewrite Z.testbit_neg_r|].
  destruct (Z.lt_ge_cases i n) as [Hin|Hin]; [by rewrite Z.mul_pow2_bits_low|].
  destruct (decide (b = 0)%Z) as [->|Hb0]; [by rewrite Z.bits_0, andb_false_r|].
  rewrite (Z.bits_above_log2 b i); [apply andb_false_r|lia|]. apply Z.log2_lt_pow2; [lia|].
  eapply Z.lt_le_trans; [apply Hb|]. by apply Z.pow_le_mono_r.
Qed.

Lemma file_version_sum (v : Version) :
  (major v < 65536)%N → (minor v < 65536)%N → (patch v < 65536)%N →
  file_version v = (Z.of_N (major v) * 2 ^ 48 + Z.of_N (minor v) * 2 ^ 32 + Z.of_N (patch v) * 2 ^ 16)%Z.
Proof.
  intros Ha Hb Hc. unfold file_version. rewrite !Z.shiftl_mul_pow2 by lia. rewrite <- Z.lor_assoc.
  rewrite (lor_disjoint (Z.of_N (minor v)) _ 32), lor_disjoint by lia. rewrite Z.mod_small; lia.
Qed.

(** Each number of a version that fits 16 bits is read back from the version in
    the resources of the executable. *)
Theorem file_version_fields (v : Version) :
  (major v < 65536)%N → (minor v < 65536)%N → (patch v < 65536)%N →
  version_field (file_version v) 48 = Z.of_N (major v) ∧ version_field (file_version v) 32 = Z.of_N (minor v) ∧
  version_field (file_version v) 16 = Z.of_N (patch v) ∧ version_field (file_version v) 0 = 0%Z ∧
  (0 ≤ file_version v < 2 ^ 64)%Z.
Proof.
  intros Ha Hb Hc. rewrite file_version_sum, !version_field_div by lia.
  change (2 ^ 48)%Z with 281474976710656%Z. change (2 ^ 32)%Z with 4294967296%Z. change (2 ^ 16)%Z with 65536%Z.
  change (2 ^ 0)%Z with 1%Z. change (2 ^ 64)%Z with 18446744073709551616%Z. split_and!; Z.to_euclidean_division_equations; lia.
Qed.

(** A number that does not fit changes the one before it: two versions that
    differ give one version of the file. *)
Theorem wide_minor_is_a_major :
  file_version (WindowsInstallers.mk_version 0 65536 0 "" "") = file_version (WindowsInstallers.mk_version 1 0 0 "" "").
Proof. vm_compute. reflexivity. Qed.

(** ** The end of the application *)

(** A restart posts the request to leave and ends the process in the same call:
    nothing is cleaned up in between, and the program starts again with the
    arguments it was started with. *)
Theorem restart_skips_cleanup {H : Host} env path :
  current_binary env = Some path →
  app_restart true env = [RequestExit RESTART_EXIT_CODE; Spawn path (drop 1 (env_args env)); ExitProcess 0] ∧
  Cleanup ∉ app_restart true env.
Proof.
  intros Hp. unfold app_restart, process_restart. rewrite Hp. split; [done|].
  change (Cleanup ∉ [RequestExit RESTART_EXIT_CODE; Spawn path (drop 1 (env_args env)); ExitProcess 0]).
  rewrite !not_elem_of_cons. split_and!; try done. apply not_elem_of_nil.
Qed.

(** ** Target triples of the host *)

(** What [rustc] prints about its target. *)
Definition ex_cfg (arch : string) : string :=
  "debug_assertions" +:+ newline +:+ "target_arch=" +:+ quote arch +:+ newline +:+ "target_os=" +:+ quote "linux" +:+ newline.

(** On an ARM host with hard floats the triple has no name of that, and a Debian
    package is made for the architecture without them. *)
Theorem host_triple_armel s :
  target_triple "arm" "linux" "gnu" = Ok (target s) → binary_arch s ≫= deb_arch = Ok "armel".
Proof. intros Ht. injection Ht as Ht. unfold binary_arch. by rewrite <- Ht. Qed.

(** The bundler takes the architecture as the compiler names it: its triple of a
    host of 32 bits is one whose architecture it does not know. *)
Theorem host_triple_unknown s :
  host_target_triple (Some (ex_cfg "x86")) "x86" "linux" "gnu" = Ok (target s) →
  binary_arch s = Panic "Unexpected target triple x86-unknown-linux-gnu".
Proof.
  intros Ht. assert (host_target_triple (Some (ex_cfg "x86")) "x86" "linux" "gnu" = Ok "x86-unknown-linux-gnu") as He
    by (vm_compute; reflexivity).
  rewrite He in Ht. injection Ht as Ht. unfold binary_arch. by rewrite <- Ht.
Qed.

(** For the architectures that have one name the bundler and the application
    agree on the triple of the host. *)
Theorem host_triples_agree arch os env t :
  arch = "x86_64" ∨ arch = "aarch64" → target_triple arch os env = Ok t →
  host_target_triple (Some (ex_cfg arch)) arch os env = Ok t ∧ host_target_triple None arch os env = Ok t.
Proof.
  intros Ha Ht. unfold host_target_triple.
  assert (parse_rust_cfg (ex_cfg arch) = Ok (Some arch)) as -> by (destruct Ha as [-> | ->]; vm_compute; reflexivity).
  cbn [expect mbind outcome_bind]. unfold target_triple in Ht.
  destruct Ha as [-> | ->]; repeat (case_decide; try done); simplify_eq/=; by split.
Qed.

(** ** Examples *)
#[local] Existing Instance LinuxPackages.ex_resource_fs.
#[local] Existing Instance LinuxPackages.ex_resource_laws.
#[local] Existing Instance LinuxPackages.ex_pack.

Definition ex_host (exe : string) (files : list string) : Host := {|
  std_current_exe := Some exe; canonical_path p := if decide (p ∈ files) then Some p else None;
  exists_at p := bool_decide (p ∈ files); env_var _ := None; args_os := [exe]; std_temp_dir := "/tmp"; user_dir _ := None;
|}.

Definition ex_info : PackageInfo := mk_info "app" "1.0.0" "" "" "my-app".
Definition ex_resource : BundleResources.Resource := BundleResources.mk_resource "data.txt" "data.txt".
Definition ex_items : list BundleResources.Item := [inr ex_resource].
Definition ex_dev : Host :=
  ex_host "/p/target/debug/app" ["/p/target/debug/app"; "/p/target/debug"; "/p/target/debug/.cargo-lock"; "data.txt"].
Definition ex_env : Env := mk_env None None [].

Definition copied (r : outcome ScriptError Tree) : Tree := match r with Ok t => t | _ => ∅ end.
Lemma copied_tree r : match r with Ok _ => true | _ => false end = true → r = Ok (copied r).
Proof. by destruct r. Qed.

Lemma installed_resource_found_witness :
  ∃ q k r', resolve (base_directory (H := ex_host "/usr/bin/app" ["/usr/bin/app"]) "com.app" ex_info ex_env) "./data.txt" Resource = Ok q ∧
    components q = RootDir :: k ∧ (inr r' : BundleResources.Item) ∈ ex_items ∧
    body (BundleResources.target r') = [Normal "data.txt"] ∧
    tree_of (deb_package ex_list) !! ((deb_package_dir ex_list "amd64" ++ [Normal "data"]) ++ k) =
      Some (CopyOf (components (BundleResources.path r'))).
Proof.
  refine (installed_resource_found (H := ex_host "/usr/bin/app" ["/usr/bin/app"]) ex_list "amd64" (tree_of (deb_package ex_list)) ex_deb_path
    (BundleResources.ResourcePaths_new ["data.txt"] true) ex_items
    ex_resource "app" "com.app" ex_info ex_env "./data.txt" _ _ (gives_tree _ _ _) _ _ _ _ _ _).
  - split; cbn [ex_list ex_settings ex_bundle bundle_settings resources resources_map deb rpm deb_changelog deb_desktop_template
      rpm_desktop_template deb_files rpm_files package product_name binaries project_out_directory];
      [by eexists|done|done|done|done| |by split|by apply Forall_singleton|done].
    cbn [files_order ex_pack]. rewrite map_to_list_empty. apply Forall_nil_2.
  - vm_compute. reflexivity.
  - vm_compute. reflexivity.
  - reflexivity.
  - vm_compute. reflexivity.
  - by left.
  - cbn [ex_list ex_settings ex_bundle bundle_settings rpm rpm_files files_order ex_pack]. rewrite map_to_list_empty. apply Forall_nil_2.
  - split; [by split|vm_compute; reflexivity|reflexivity|right; split; vm_compute; reflexivity].
  - left. vm_compute. reflexivity.
Defined.

Lemma dev_resource_found_witness :
  ∃ q, resolve (base_directory (H := ex_dev)
      "com.app" ex_info ex_env) "./data.txt" Resource = Ok q ∧ components q = components "/p/target/debug/data.txt" ∧
    provided (H := ex_dev)
      (components "/p/target/debug") [Normal "data.txt"] ex_items
      (copied (script_copy_resources (H := ex_dev) (BundleResources.ResourcePaths_new ["data.txt"] true) "/p/target/debug" ∅)).
Proof.
  refine (dev_resource_found (H := ex_dev)
    ["data.txt"] "/p/target/debug" "/p/target/debug" ∅ _ _
    ex_resource "app" "com.app" ex_info ex_env "./data.txt" (copied_tree _ _) _ _ _ _ _ _ _ _ _ _).
  - vm_compute. reflexivity.
  - vm_compute. reflexivity.
  - vm_compute. reflexivity.
  - by left.
  - reflexivity.
  - vm_compute. reflexivity.
  - by split.
  - vm_compute. reflexivity.
  - vm_compute. reflexivity.
  - vm_compute. reflexivity.
  - left. vm_compute. reflexivity.
Defined.

(** The directory of the resources is named after the product: not after the
    package, as the test of this case has it, nor after the executable. *)
Theorem resource_dir_of_product :
  resource_dir_from (H := ex_host "/p/target/unknown-profile/app" []) "/p/target/unknown-profile/app"
    (mk_info "MyApp" "1.0.0" "" "" "my-app") ex_env = Ok "/usr/lib/MyApp".
Proof. vm_compute. reflexivity. Qed.

(** A program that runs from a directory of Cargo has its resources next to it,
    not in the directory of libraries beside that one. *)
Theorem cargo_resources_beside :
  resource_dir (H := ex_host "/p/target/debug/app" ["/p/target/debug/app"; "/p/target/debug/.cargo-lock"; "/p/target/debug/../lib/app"])
    ex_info ex_env = Ok "/p/target/debug".
Proof. vm_compute. reflexivity. Qed.

(** The names of an application on Android. *)
Theorem android_names :
  android_app_name "com.my-company.tauri-app" = "tauri_app" ∧ android_package_prefix "com.my-company.tauri-app" = "com_my_1company" ∧
  android_package_prefix "app" = "".
Proof. vm_compute. split_and!; reflexivity. Qed.

End Installed.
