(* ===== verification/MacBundle.v ===== *)
(** * The packages of macOS

    Models [tauri-bundler/Source/bundle/macos]: the application bundle of
    [app.rs] with its icon of [icon.rs], its [Info.plist] and the code that is
    signed in it, the decisions of [sign.rs], the disk image of [dmg/mod.rs] and
    the bundle for iOS of [ios.rs]; and of the application that runs from such a
    bundle its resource directory ([tauri-utils/Source/platform.rs]) and its
    restart ([tauri/Source/process.rs]). A packager gives the tree of files it
    writes and the tools it calls, in order. The keychain, the image decoders,
    the format of property lists and the file system are parameters. *)
From Stdlib Require Import Ascii.
From S2P Require Import Prelude Acl Paths Numbers MigrateConfig BuildSupport BundleResources Bundler LinuxPackages WindowsInstallers Installed.
Import Paths.

Module MacBundle.
Import Bundler LinuxPackages.

(** ** Property lists *)

(** A dictionary keeps its keys in the order of their insertion. *)
Inductive Plist :=
| PText (s : string)
| PBool (b : bool)
| PArray (l : list Plist)
| PDict (d : list (string * Plist)).

Definition Dictionary : Type := list (string * Plist).

(** [Dictionary::insert]: a key that is there keeps its place. *)
Fixpoint dict_insert (k : string) (v : Plist) (d : Dictionary) : Dictionary :=
  match d with
  | [] => [(k, v)]
  | (k', v') :: d => if decide (k = k') then (k, v) :: d else (k', v') :: dict_insert k v d
  end.

Fixpoint dict_get (k : string) (d : Dictionary) : option Plist :=
  match d with
  | [] => None
  | (k', v) :: d => if decide (k = k') then Some v else dict_get k d
  end.

Definition dict_insert_opt (k : string) (v : option Plist) (d : Dictionary) : Dictionary :=
  match v with Some v => dict_insert k v d | None => d end.

(** ** Settings *)
Record Position := mk_position { pos_x : N; pos_y : N }.
Record Size := mk_size { size_width : N; size_height : N }.

Record DmgSettings := mk_dmg {
  dmg_background : option PathBuf;
  dmg_window_position : option Position;
  dmg_window_size : Size;
  dmg_app_position : Position;
  dmg_application_folder_position : Position;
}.

Record MacOsSettings := mk_macos {
  frameworks : option (list string);
  mac_files : FileMap;
  minimum_system_version : option string;
  exception_domain : option string;
  signing_identity : option string;
  hardened_runtime : bool;
  provider_short_name : option string;
  entitlements : option string;
  info_plist_path : option PathBuf;
}.

(** ** The surroundings *)
Inductive ApiKey := KeyPath (p : PathBuf).

Inductive AppleNotarizationCredentials :=
| AppleId (apple_id password team_id : string)
| ApiKeyAuth (issuer key_id : string) (key : ApiKey).

(** A keychain is known by its signing identity. *)
Class MacLib := {
  var_os : string → option string;
  home_dir : option PathBuf;
  current_dir : PathBuf;
  (** the time of the build, in the format of the build number *)
  build_number : string;
  (** the entries of a directory that can be read, and whether each is a link *)
  dir_entries : PathBuf → list (string * bool);
  dir_entries_distinct p : NoDup (dir_entries p).*1;
  (** [tauri_macos_sign]: the identity of a certificate *)
  with_certificate : string → string → outcome BundleError string;
  (** the [image] and [icns] packages *)
  image_dimensions : PathBuf → option (N * N);
  icns_supported_color : PathBuf → bool;
  icns_type : N → N → N → option string;
  icns_images : PathBuf → option (list (N * N * bool));
  icns_file : list (string * PathBuf) → string;
  (** property lists as text *)
  plist_to_xml : Dictionary → string;
  plist_from_xml : string → option Plist;
  plist_reads_back d : plist_from_xml (plist_to_xml d) = Some (PDict d);
}.

Record SignTarget := mk_target { target_path : PathBuf; is_an_executable : bool }.

(** The tools that are called. *)
Inductive Tool :=
| RemoveAttributes (path : PathBuf)
| CodeSign (signing : string) (path : PathBuf) (entitlements : option PathBuf) (hardened : bool)
| NotarizeApp (signing : string) (path : PathBuf) (credentials : AppleNotarizationCredentials)
| BundleScript (args : list string).

Section Packagers.
Context {FS : ResourceFs} {PL : PackLib} {ML : MacLib}.

(** ** [sign.rs] *)
Definition keychain (signing : option string) : outcome BundleError (option string) :=
  match var_os "APPLE_CERTIFICATE", var_os "APPLE_CERTIFICATE_PASSWORD" with
  | Some certificate_encoded, Some certificate_password =>
      certificate_identity ← with_certificate certificate_encoded certificate_password;
      match signing with
      | Some signing =>
          if Acl.str_contains signing certificate_identity then Ok (Some certificate_identity)
          else Err (GenericError "certificate from APPLE_CERTIFICATE environment variable does not match provided identity")
      | None => Ok (Some certificate_identity)
      end
  | _, _ => Ok signing
  end.

Definition sign_target (signing : string) (m : MacOsSettings) (t : SignTarget) : Tool :=
  CodeSign signing (target_path t) (components <$> entitlements m) (is_an_executable t && hardened_runtime m).

Definition sign (signing : string) (targets : list SignTarget) (m : MacOsSettings) : list Tool :=
  sign_target signing m <$> targets.

Inductive NotarizeAuthError := MissingTeamId | AuthFailed (text : string).

Definition find_api_key (folder : PathBuf) (file_name : string) : option PathBuf :=
  let path := join folder file_name in if path_exists path then Some path else None.

(** The folders of keys, the first of them relative to the current directory. *)
Definition search_paths : list PathBuf :=
  components "./private_keys" ::
  match home_dir with
  | Some h => [join h "private_keys"; join h ".private_keys"; join (join h ".appstoreconnect") "private_keys"]
  | None => []
  end.

Fixpoint first_api_key (folders : list PathBuf) (file_name : string) : option PathBuf :=
  match folders with
  | [] => None
  | folder :: folders =>
      match find_api_key folder file_name with Some path => Some path | None => first_api_key folders file_name end
  end.

Definition notarize_auth : outcome NotarizeAuthError AppleNotarizationCredentials :=
  match var_os "APPLE_ID", var_os "APPLE_PASSWORD", var_os "APPLE_TEAM_ID" with
  | Some apple_id, Some password, Some team_id => Ok (AppleId apple_id password team_id)
  | Some _, Some _, None => Err MissingTeamId
  | _, _, _ =>
      match var_os "APPLE_API_KEY", var_os "APPLE_API_ISSUER", var_os "APPLE_API_KEY_PATH" with
      | Some key_id, Some issuer, Some key_path => Ok (ApiKeyAuth issuer key_id (KeyPath (components key_path)))
      | Some key_id, Some issuer, None =>
          let api_key_file_name := "AuthKey_" +:+ key_id +:+ ".p8" in
          match first_api_key search_paths api_key_file_name with
          | Some key_path => Ok (ApiKeyAuth issuer key_id (KeyPath key_path))
          | None => Err (AuthFailed "could not find API key file")
          end
      | _, _, _ => Err (AuthFailed "no environment variables found")
      end
  end.

(** ** [icon.rs] *)
Definition lower_power (n : N) : N := if decide (n = 0)%N then 0%N else (2 ^ N.log2 n)%N.

(** The family has at most one icon of a type. *)
Definition add_icon_to_family (icon : PathBuf) (width height density : N) (family : list (string * PathBuf))
    : outcome BundleError (list (string * PathBuf)) :=
  match icns_type width height density with
  | Some icon_type =>
      if decide (icon_type ∈ family.*1) then Ok family
      else if icns_supported_color icon then Ok (family ++ [(icon_type, icon)])
      else Err io_error
  | None => Err (PackagerError "No matching IconType")
  end.

Definition icon_step (st : list (string * PathBuf) * list (PathBuf * N * N)) (i : BundleResources.Item)
    : outcome BundleError (list (string * PathBuf) * list (PathBuf * N * N)) :=
  let '(family, images_to_resize) := st in
  r ← item_path i;
  let icon_path := components (BundleResources.path r) in
  '(w, h) ← ok_or (image_dimensions icon_path) io_error;
  let density := if is_retina icon_path then 2%N else 1%N in
  let orig_size := N.min w h in
  let next_size_down := lower_power orig_size in
  if decide (next_size_down < orig_size)%N
  then Ok (family, images_to_resize ++ [(icon_path, next_size_down, density)])
  else family ← add_icon_to_family icon_path w h density family; Ok (family, images_to_resize).

Definition resize_step (family : list (string * PathBuf)) (e : PathBuf * N * N) : outcome BundleError (list (string * PathBuf)) :=
  let '(icon, next_size_down, density) := e in add_icon_to_family icon next_size_down next_size_down density family.

(** The first icon that is an ICNS file already; an icon that is not found
    before it is an error. *)
Fixpoint first_icns (items : list BundleResources.Item) : outcome BundleError (option PathBuf) :=
  match items with
  | [] => Ok None
  | i :: items =>
      r ← item_path i;
      let icon_path := components (BundleResources.path r) in
      if decide (path_extension icon_path = Some "icns") then Ok (Some icon_path) else first_icns items
  end.

Definition create_icns_file (out_dir : PathBuf) (s : Settings) (t : Tree) : outcome BundleError (Tree * option PathBuf) :=
  items ← all_of (icon_files s);
  match items with
  | [] => Ok (t, None)
  | _ =>
      found ← first_icns items;
      match found with
      | Some icon_path =>
          n ← expect (path_file_name icon_path) "Could not get icon filename";
          let dest_path := join_path out_dir [Normal n] in
          t ← copy_file icon_path dest_path t;
          Ok (t, Some dest_path)
      | None =>
          '(family, images_to_resize) ← for_each icon_step items ([], []);
          family ← for_each resize_step images_to_resize family;
          match family with
          | [] => Err (GenericError "No usable Icon files found")
          | _ =>
              let dest_path := with_extension (join out_dir (product_name (package s))) "icns" in
              Ok (<[dest_path := Text (icns_file family)]> t, Some dest_path)
          end
      end
  end.

(** ** [app.rs] *)
Definition NESTED_CODE_FOLDER : list string := ["MacOS"; "Frameworks"; "Plugins"; "Helpers"; "XPCServices"; "Libraries"].

(** *** [Info.plist] *)
Definition BundleTypeRole_to_string (r : BundleTypeRole) : string :=
  match r with Editor => "Editor" | Viewer => "Viewer" | Shell => "Shell" | QLGenerator => "QLGenerator" | NoRole => "None" end.

(** The first extension is looked up before it is known to be needed. *)
Definition document_type (association : FileAssociation) : outcome BundleError Plist :=
  first ← expect (head (assoc_ext association)) "index out of bounds: the len is 0 but the index is 0";
  Ok (PDict (dict_insert "CFBundleTypeRole" (PText (BundleTypeRole_to_string (assoc_role association)))
       (dict_insert "CFBundleTypeName" (PText (default first (assoc_name association)))
         (dict_insert "CFBundleTypeExtensions" (PArray (PText <$> assoc_ext association)) [])))).

Definition url_type (s : Settings) (protocol : DeepLinkProtocol) : outcome BundleError Plist :=
  first ← expect (head (schemes protocol)) "index out of bounds: the len is 0 but the index is 0";
  Ok (PDict (dict_insert "CFBundleTypeRole" (PText (BundleTypeRole_to_string (link_role protocol)))
       (dict_insert "CFBundleURLName" (PText (default (bundle_identifier s +:+ " " +:+ first) (link_name protocol)))
         (dict_insert "CFBundleURLSchemes" (PArray (PText <$> schemes protocol)) [])))).

Definition app_transport_security (exception_domain : string) : Plist :=
  let domain := dict_insert "NSIncludesSubdomains" (PBool true) (dict_insert "NSExceptionAllowsInsecureHTTPLoads" (PBool true) []) in
  PDict [("NSExceptionDomains", PDict [(exception_domain, PDict domain)])].

(** The arrays of the file associations and of the deep links. *)
Definition plist_array {A} (f : A → outcome BundleError Plist) (l : option (list A)) : outcome BundleError (option Plist) :=
  match l with Some l => l ← collect f l; Ok (Some (PArray l)) | None => Ok None end.

(** The dictionary before the one of the user. *)
Definition generated_plist (bundle_icon_file : option PathBuf) (s : Settings) (m : MacOsSettings) : outcome BundleError Dictionary :=
  let plist := [] in
  let plist := dict_insert "CFBundleDevelopmentRegion" (PText "English") plist in
  let plist := dict_insert "CFBundleDisplayName" (PText (product_name (package s))) plist in
  main ← main_binary_name s;
  let plist := dict_insert "CFBundleExecutable" (PText main) plist in
  plist ← match bundle_icon_file with
          | Some path => n ← expect (path_file_name path) "No file name"; Ok (dict_insert "CFBundleIconFile" (PText n) plist)
          | None => Ok plist
          end;
  let plist := dict_insert "CFBundleIdentifier" (PText (bundle_identifier s)) plist in
  let plist := dict_insert "CFBundleInfoDictionaryVersion" (PText "6.0") plist in
  let plist := dict_insert "CFBundleName" (PText (product_name (package s))) plist in
  let plist := dict_insert "CFBundlePackageType" (PText "APPL") plist in
  let plist := dict_insert "CFBundleShortVersionString" (PText (version (package s))) plist in
  let plist := dict_insert "CFBundleVersion" (PText build_number) plist in
  let plist := dict_insert "CSResourcesFileMapped" (PBool true) plist in
  let plist := dict_insert_opt "LSApplicationCategoryType"
                 ((λ c, PText (macos_application_category_type c)) <$> category (bundle_settings s)) plist in
  let plist := dict_insert_opt "LSMinimumSystemVersion" (PText <$> minimum_system_version m) plist in
  types ← plist_array document_type (file_associations (bundle_settings s));
  let plist := dict_insert_opt "CFBundleDocumentTypes" types plist in
  urls ← plist_array (url_type s) (bundle_deep_links (bundle_settings s));
  let plist := dict_insert_opt "CFBundleURLTypes" urls plist in
  let plist := dict_insert "LSRequiresCarbon" (PBool true) plist in
  let plist := dict_insert "NSHighResolutionCapable" (PBool true) plist in
  let plist := dict_insert_opt "NSHumanReadableCopyright" (PText <$> copyright (bundle_settings s)) plist in
  Ok (dict_insert_opt "NSAppTransportSecurity" (app_transport_security <$> exception_domain m) plist).

(** The keys of a dictionary, put over those of another. *)
Definition merge_plist (user : Dictionary) (plist : Dictionary) : Dictionary :=
  foldl (λ plist '(key, value), dict_insert key value plist) plist user.

Definition info_plist (bundle_icon_file : option PathBuf) (s : Settings) (m : MacOsSettings) : outcome BundleError Dictionary :=
  plist ← generated_plist bundle_icon_file s m;
  match info_plist_path m with
  | Some user_plist_path =>
      user_plist ← ok_or (read_to_string user_plist_path ≫= plist_from_xml) io_error;
      match user_plist with PDict dict => Ok (merge_plist dict plist) | _ => Ok plist end
  | None => Ok plist
  end.

Definition create_info_plist (bundle_dir : PathBuf) (bundle_icon_file : option PathBuf) (s : Settings) (m : MacOsSettings) (t : Tree)
    : outcome BundleError Tree :=
  plist ← info_plist bundle_icon_file s m;
  Ok (<[join bundle_dir "Info.plist" := Text (plist_to_xml plist)]> t).

(** *** The code to be signed *)

(** An entry of a folder of code; [nested] looks into a directory. *)
Definition add_bundle_sign_path (nested : list SignTarget → PathBuf → PathBuf → outcome BundleError (list SignTarget))
    (inner : string) (executable : bool) (root dest_path : PathBuf) (sign_paths : list SignTarget) : outcome BundleError (list SignTarget) :=
  sign_paths ← (if path_exists (join root inner) then nested sign_paths (join root inner) (join dest_path inner)
                else nested sign_paths root dest_path);
  Ok (sign_paths ++ [mk_target dest_path executable]).

Definition add_entry_sign_path (nested : list SignTarget → PathBuf → PathBuf → outcome BundleError (list SignTarget))
    (src_folder_path dest_folder_path : PathBuf) (sign_paths : list SignTarget) (entry : string * bool)
    : outcome BundleError (list SignTarget) :=
  let '(name, path_is_symlink) := entry in
  if path_is_symlink || starts_with "." name then Ok sign_paths
  else
    let path := join_path src_folder_path [Normal name] in
    let dest_path := join_path dest_folder_path [Normal name] in
    let ext := path_extension path in
    if is_dir path then
      if decide (ext = Some "framework") then add_bundle_sign_path nested "Versions/Current" false path dest_path sign_paths
      else if decide (ext = Some "xpc" ∨ ext = Some "app") then add_bundle_sign_path nested "Contents" true path dest_path sign_paths
      else Ok sign_paths
    else if is_file path then
      if decide (ext = Some "dylib") then Ok (sign_paths ++ [mk_target dest_path false])
      else if decide (ext = None) then Ok (sign_paths ++ [mk_target dest_path true])
      else Ok sign_paths
    else Ok sign_paths.

(** [add_nested_code_sign_path], with fuel for the depth of nested bundles. *)
Fixpoint add_nested_code_sign_path (fuel : nat) (sign_paths : list SignTarget) (src_path dest_path : PathBuf)
    : outcome BundleError (list SignTarget) :=
  match fuel with
  | O => Diverge
  | S fuel =>
      for_each (λ sign_paths folder_name,
        let src_folder_path := join_path src_path [Normal folder_name] in
        let dest_folder_path := join_path dest_path [Normal folder_name] in
        if path_exists src_folder_path then
          for_each (add_entry_sign_path (add_nested_code_sign_path fuel) src_folder_path dest_folder_path)
            (dir_entries src_folder_path) sign_paths
        else Ok sign_paths) NESTED_CODE_FOLDER sign_paths
  end.

Definition add_framework_sign_path (fuel : nat) (framework_root dest_path : PathBuf) (sign_paths : list SignTarget)
    : outcome BundleError (list SignTarget) :=
  add_bundle_sign_path (add_nested_code_sign_path fuel) "Versions/Current" false framework_root dest_path sign_paths.

(** *** The bundle *)
Definition copy_framework_from (dest_dir : PathBuf) (framework : string) (src_dir : PathBuf) (t : Tree) : outcome BundleError (Tree * bool) :=
  let src_name := framework +:+ ".framework" in
  let src_path := join src_dir src_name in
  if path_exists src_path then t ← copy_dir src_path (join dest_dir src_name) t; Ok (t, true) else Ok (t, false).

Fixpoint copy_framework_from_any (dest_dir : PathBuf) (framework : string) (src_dirs : list PathBuf) (t : Tree) : outcome BundleError Tree :=
  match src_dirs with
  | [] => Err (GenericError ("Could not locate framework: " +:+ framework))
  | src_dir :: src_dirs =>
      '(t, found) ← copy_framework_from dest_dir framework src_dir t;
      if found : bool then Ok t else copy_framework_from_any dest_dir framework src_dirs t
  end.

Definition framework_dirs : list PathBuf :=
  match home_dir with Some h => [join h "Library/Frameworks/"] | None => [] end ++
  [components "/Library/Frameworks/"; components "/Network/Library/Frameworks/"].

Definition copy_framework (fuel : nat) (dest_dir : PathBuf) (st : Tree * list SignTarget) (framework : string)
    : outcome BundleError (Tree * list SignTarget) :=
  let '(t, paths) := st in
  let src_path := components framework in
  if ends_with ".framework" framework then
    src_name ← expect (path_file_name src_path) "Couldn't get framework filename";
    let dest_path := join_path dest_dir [Normal src_name] in
    t ← copy_dir src_path dest_path t;
    paths ← add_framework_sign_path fuel src_path dest_path paths;
    Ok (t, paths)
  else if ends_with ".dylib" framework then
    if negb (path_exists src_path) then Err (GenericError ("Library not found: " +:+ framework))
    else
      src_name ← expect (path_file_name src_path) "Couldn't get library filename";
      let dest_path := join_path dest_dir [Normal src_name] in
      t ← copy_file src_path dest_path t;
      Ok (t, paths ++ [mk_target dest_path false])
  else if Acl.str_contains "/" framework then
    Err (GenericError ("Framework path should have .framework extension: " +:+ framework))
  else t ← copy_framework_from_any dest_dir framework framework_dirs t; Ok (t, paths).

Definition copy_frameworks_to_bundle (fuel : nat) (bundle_directory : PathBuf) (m : MacOsSettings) (t : Tree)
    : outcome BundleError (Tree * list SignTarget) :=
  for_each (copy_framework fuel (join bundle_directory "Frameworks")) (default [] (frameworks m)) (t, []).

(** [Settings::copy_binaries], with the paths it gives. *)
Definition copy_sidecars (s : Settings) (path : PathBuf) (t : Tree) : outcome BundleError (Tree * list PathBuf) :=
  items ← all_of (external_binaries s);
  for_each (λ '(t, paths) i,
    r ← item_path i;
    n ← sidecar_name s (BundleResources.path r);
    t ← copy_file (components (BundleResources.path r)) (join path n) t;
    Ok (t, paths ++ [join path n])) items (t, []).

Definition copy_binaries_to_bundle (bundle_directory : PathBuf) (s : Settings) (t : Tree) : outcome BundleError (Tree * list PathBuf) :=
  let dest_dir := join bundle_directory "MacOS" in
  for_each (λ '(t, paths) bin,
    t ← copy_file (binary_path s bin) (join dest_dir (name bin)) t;
    Ok (t, paths ++ [join dest_dir (name bin)])) (binaries s) (t, []).

Definition executable_target (p : PathBuf) : SignTarget := mk_target p true.

Definition app_bundle_path (s : Settings) : PathBuf :=
  join (join (project_out_directory s) "bundle/macos") (product_name (package s) +:+ ".app").

(** What is done with the finished bundle. *)
Definition sign_app (s : Settings) (m : MacOsSettings) (sign_paths : list SignTarget) : outcome BundleError (list Tool) :=
  keychain ← keychain (signing_identity m);
  match keychain with
  | Some signing =>
      let tools := RemoveAttributes (app_bundle_path s) :: sign signing (sign_paths ++ [executable_target (app_bundle_path s)]) m in
      match notarize_auth with
      | Ok auth => Ok (tools ++ [NotarizeApp signing (app_bundle_path s) auth])
      | Err MissingTeamId => Err (GenericError "The team ID is now required for notarization")
      | _ => Ok tools
      end
  | None => Ok []
  end.

(** The bundle is written into an empty tree: what an earlier one left is deleted
    first. *)
Definition app_bundle (fuel : nat) (s : Settings) (m : MacOsSettings) : outcome BundleError (Tree * list Tool) :=
  let bundle_directory := join (app_bundle_path s) "Contents" in
  let resources_dir := join bundle_directory "Resources" in
  let bin_dir := join bundle_directory "MacOS" in
  '(t, bundle_icon_file) ← create_icns_file resources_dir s ∅;
  t ← create_info_plist bundle_directory bundle_icon_file s m t;
  '(t, framework_paths) ← copy_frameworks_to_bundle fuel bundle_directory m t;
  t ← copy_resources s resources_dir t;
  '(t, sidecar_paths) ← copy_sidecars s bin_dir t;
  '(t, bin_paths) ← copy_binaries_to_bundle bundle_directory s t;
  let sign_paths := framework_paths ++ (executable_target <$> sidecar_paths) ++ (executable_target <$> bin_paths) in
  t ← copy_custom_files (mac_files m) bundle_directory t;
  tools ← sign_app s m sign_paths;
  Ok (t, tools).

(** ** [dmg/mod.rs] *)
Definition dmg_arch (a : Arch) : outcome BundleError string :=
  match a with
  | X86_64 => Ok "x64" | AArch64 => Ok "aarch64" | Universal => Ok "universal"
  | _ => Err (ArchError "Unsupported architecture")
  end.

Definition dmg_package_name (s : Settings) (arch : string) : string :=
  product_name (package s) +:+ "_" +:+ version (package s) +:+ "_" +:+ arch +:+ ".dmg".

Definition path_arg (p : PathBuf) : string := collect_path p.

(** The arguments of the script that makes the image. *)
Definition dmg_args (s : Settings) (d : DmgSettings) (dmg_name : string) (icon : option PathBuf) : list string :=
  let bundle_file_name := product_name (package s) +:+ ".app" in
  ["--volname"; product_name (package s); "--icon"; bundle_file_name;
   print_u32 (pos_x (dmg_app_position d)); print_u32 (pos_y (dmg_app_position d));
   "--app-drop-link"; print_u32 (pos_x (dmg_application_folder_position d)); print_u32 (pos_y (dmg_application_folder_position d));
   "--window-size"; print_u32 (size_width (dmg_window_size d)); print_u32 (size_height (dmg_window_size d));
   "--hide-extension"; bundle_file_name] ++
  match dmg_window_position d with Some p => ["--window-pos"; print_u32 (pos_x p); print_u32 (pos_y p)] | None => [] end ++
  match dmg_background d with Some p => ["--background"; path_arg (join_path current_dir p)] | None => [] end ++
  match icon with Some icon => ["--volicon"; path_arg icon] | None => [] end ++
  match license_file (bundle_settings s) with Some p => ["--eula"; path_arg (join_path current_dir p)] | None => [] end ++
  (if decide (default "" (var_os "TAURI_BUNDLER_DMG_IGNORE_CI") = "true") then []
   else match var_os "CI" with
        | Some value => if decide (value = "true") then ["--skip-jenkins"] else []
        | None => []
        end) ++
  [dmg_name; bundle_file_name].

Record Bundled := mk_bundled_mac {
  bundled_dmg : list PathBuf;
  bundled_app : list PathBuf;
  bundled_tree : Tree;
  bundled_tools : list Tool;
}.

(** The image is moved to its place, and signed there. *)
Definition dmg_project (fuel : nat) (s : Settings) (m : MacOsSettings) (d : DmgSettings) (bundles : list PackageType)
    : outcome BundleError Bundled :=
  '(t, app_tools, app_bundle_paths) ←
    (if decide (MacOsBundle ∈ bundles) then Ok (∅, [], [])
     else '(t, tools) ← app_bundle fuel s m; Ok (t, tools, [app_bundle_path s]));
  let output_path := join (project_out_directory s) "bundle/dmg" in
  arch ← binary_arch s ≫= dmg_arch;
  let dmg_name := dmg_package_name s arch in
  let dmg_path := join output_path dmg_name in
  let support_directory_path := join (join (project_out_directory s) "bundle") "share/create-dmg/support" in
  let t := <[join output_path "bundle_dmg.sh" := Text "bundle_dmg"]> t in
  let t := <[join support_directory_path "template.applescript" := Text "template.applescript"]> t in
  let t := <[join support_directory_path "eula-resources-template.xml" := Text "eula-resources-template.xml"]> t in
  '(t, icns_icon_path) ← create_icns_file output_path s t;
  keychain ← keychain (signing_identity m);
  let signs := match keychain with Some signing => sign signing [mk_target dmg_path false] m | None => [] end in
  Ok (mk_bundled_mac [dmg_path] app_bundle_paths t (app_tools ++ BundleScript (dmg_args s d dmg_name icns_icon_path) :: signs)).

(** ** [ios.rs] *)

(** The name of an icon by its size. *)
Definition ios_icon_name (width height : N) (retina : bool) : string :=
  "icon_" +:+ print_u32 width +:+ "x" +:+ print_u32 height +:+ (if retina then "@2x" else "") +:+ ".png".

(** The sizes seen, the names in order, and the files. *)
Definition IosIcons : Type := list (N * N * bool) * list string * Tree.

(** An icon that is encoded as PNG is [Compressed]. *)
Definition add_ios_icon (bundle_dir : PathBuf) (content : Content) (st : IosIcons) (size : N * N * bool) : IosIcons :=
  let '(sizes, filenames, t) := st in
  if decide (size ∈ sizes) then st
  else
    let filename := ios_icon_name size.1.1 size.1.2 size.2 in
    (size :: sizes, filenames ++ [filename], <[join bundle_dir filename := content]> t).

Definition ios_png_icon (bundle_dir : PathBuf) (st : IosIcons) (i : BundleResources.Item) : outcome BundleError IosIcons :=
  r ← item_path i;
  let icon_path := components (BundleResources.path r) in
  if decide (path_extension icon_path = Some "png") then
    '(w, h) ← ok_or (png_dimensions icon_path) io_error;
    Ok (add_ios_icon bundle_dir (CopyOf icon_path) st (w, h, is_retina icon_path))
  else Ok st.

Definition ios_other_icon (bundle_dir : PathBuf) (st : IosIcons) (i : BundleResources.Item) : outcome BundleError IosIcons :=
  r ← item_path i;
  let icon_path := components (BundleResources.path r) in
  if decide (path_extension icon_path = Some "png") then Ok st
  else if decide (path_extension icon_path = Some "icns") then
    icons ← ok_or (icns_images icon_path) io_error;
    Ok (foldl (add_ios_icon bundle_dir (Compressed icon_path)) st icons)
  else
    '(w, h) ← ok_or (image_dimensions icon_path) io_error;
    Ok (add_ios_icon bundle_dir (Compressed icon_path) st (w, h, is_retina icon_path)).

Definition ios_icon_files (bundle_dir : PathBuf) (s : Settings) (t : Tree) : outcome BundleError (Tree * list string) :=
  items ← all_of (icon_files s);
  st ← for_each (ios_png_icon bundle_dir) items ([], [], t);
  '(_, filenames, t) ← for_each (ios_other_icon bundle_dir) items st;
  Ok (t, filenames).

Definition plist_key (k v : string) : list string :=
  ["  <key>" +:+ k +:+ "</key>"; "  <string>" +:+ v +:+ "</string>"].

(** The lines of [Info.plist]. *)
Definition ios_info_plist (s : Settings) (icon_filenames : list string) : outcome BundleError (list string) :=
  main ← main_binary_name s;
  Ok (["<?xml version=" +:+ quote "1.0" +:+ " encoding=" +:+ quote "UTF-8" +:+ "?>";
       "<!DOCTYPE plist PUBLIC " +:+ quote "-//Apple Computer//DTD PLIST 1.0//EN" +:+ " " +:+
         quote "http://www.apple.com/DTDs/PropertyList-1.0.dtd" +:+ ">";
       "<plist version=" +:+ quote "1.0" +:+ ">"; "<dict>"] ++
      plist_key "CFBundleIdentifier" (bundle_identifier s) ++
      plist_key "CFBundleDisplayName" (product_name (package s)) ++
      plist_key "CFBundleName" (product_name (package s)) ++
      plist_key "CFBundleExecutable" main ++
      plist_key "CFBundleVersion" (version (package s)) ++
      plist_key "CFBundleShortVersionString" (version (package s)) ++
      plist_key "CFBundleDevelopmentRegion" "en_US" ++
      (if decide (icon_filenames = []) then []
       else ["  <key>CFBundleIconFiles</key>"; "  <array>"] ++
            ((λ filename, "    <string>" +:+ filename +:+ "</string>") <$> icon_filenames) ++ ["  </array>"]) ++
      ["  <key>LSRequiresIPhoneOS</key>"; "  <true/>"; "</dict>"; "</plist>"]).

Definition ios_project (s : Settings) : outcome BundleError (Tree * list PathBuf) :=
  let app_bundle_path := join (join (project_out_directory s) "bundle/ios") (product_name (package s) +:+ ".app") in
  it ← resource_files s;
  items ← all_of it;
  t ← for_each (λ t i,
        r ← item_path i;
        copy_file (components (BundleResources.path r))
          (join app_bundle_path (BundleResources.resource_relpath (BundleResources.path r))) t) items ∅;
  '(t, icon_filenames) ← ios_icon_files app_bundle_path s t;
  plist ← ios_info_plist s icon_filenames;
  let t := <[join app_bundle_path "Info.plist" := Text (writeln plist)]> t in
  t ← for_each (λ t bin, copy_file (binary_path s bin) (join app_bundle_path (name bin)) t) (binaries s) t;
  Ok (t, [app_bundle_path]).

End Packagers.

(** ** The running application *)
Section Running.
Context {H : Host} {ML : MacLib}.

(** [StartingBinary::new] where links are not allowed: no directory above the
    binary may be one. *)
Definition ancestors (p : PathBuf) : list PathBuf := (λ n, take n p) <$> reverse (seq 1 (length p)).

Definition mac_starting_binary (is_symlink : PathBuf → bool) : option string :=
  dangerous_path ← std_current_exe;
  if existsb is_symlink (ancestors (components dangerous_path)) then None else canonical_path dangerous_path.

(** [resource_dir_from] on macOS. *)
Definition mac_resource_dir_from (exe : string) : outcome () string :=
  match Installed.parent exe with
  | None => Panic "failed to get exe directory"
  | Some exe_dir =>
      if Installed.below_target exe_dir && Installed.is_cargo_output_directory exe_dir then Ok exe_dir
      else ok_or (canonical_path (push exe_dir "../Resources")) ()
  end.

Definition mac_resource_dir (starting_binary : option string) : outcome () string :=
  exe ← ok_or starting_binary (); mac_resource_dir_from exe.

(** What the application does to start again, where it runs from a bundle:
    [restart_macos_app], with the text of a file. *)
Definition restart_macos_app (read : PathBuf → option string) (current_binary : PathBuf) (args : list string)
    : option (list Installed.Action) :=
  macos_directory ← WindowsInstallers.path_parent current_binary;
  if decide (last macos_directory = Some (Normal "MacOS")) then
    contents_directory ← WindowsInstallers.path_parent macos_directory;
    if decide (last contents_directory = Some (Normal "Contents")) then
      info_plist ← read (join contents_directory "Info.plist") ≫= plist_from_xml;
      match info_plist with
      | PDict info_plist =>
          match dict_get "CFBundleExecutable" info_plist with
          | Some (PText binary_name) =>
              Some [Installed.Spawn (collect_path (join macos_directory binary_name)) (drop 1 args); Installed.ExitProcess 0]
          | _ => None
          end
      | _ => None
      end
    else None
  else None.

Definition mac_restart (read : PathBuf → option string) (starting_binary : option string) (args : list string) : list Installed.Action :=
  match starting_binary with
  | Some path =>
      match restart_macos_app read (components path) args with
      | Some actions => actions
      | None => [Installed.Spawn path (drop 1 args); Installed.ExitProcess 0]
      end
  | None => [Installed.ExitProcess 0]
  end.

End Running.

(** ** Signing from the inside out *)

(** One path lies below another. *)
Definition below (p q : PathBuf) : Prop := q `prefix_of` p ∧ p ≠ q.

(** No target lies below one that is signed before it. *)
Definition inside_out (l : list PathBuf) : Prop := StronglySorted (λ a b, ¬ below b a) l.

Definition incomparable (a b : PathBuf) : Prop := ¬ a `prefix_of` b ∧ ¬ b `prefix_of` a.

Lemma incomparable_below a b x y : incomparable a b → a `prefix_of` x → b `prefix_of` y → ¬ below y x.
Proof.
  intros [H1 H2] Ha Hb [Hxy _]. assert (a `prefix_of` y) as Hay by by etrans.
  by destruct (prefix_weak_total a b y Hay Hb).
Qed.

(** What a step appends to the targets. *)
Definition appends (d : PathBuf) (l l' : list SignTarget) : Prop :=
  ∃ new, l' = l ++ new ∧ Forall (λ t, d `prefix_of` target_path t) new ∧ inside_out (target_path <$> new).

(** Steps whose targets lie below paths that have nothing in common. *)
Lemma blocks_inside_out {S A} (paths : S → list SignTarget) (key : A → PathBuf) (f : S → A → outcome BundleError S) d xs l l' :
  (∀ x l l', x ∈ xs → f l x = Ok l' → appends (key x) (paths l) (paths l')) →
  StronglySorted incomparable (key <$> xs) → (∀ x, x ∈ xs → d `prefix_of` key x) →
  for_each f xs l = Ok l' → appends d (paths l) (paths l').
Proof.
  intros Hf Hs Hd. cut (for_each f xs l = Ok l' → ∃ new, paths l' = paths l ++ new ∧
    Forall (λ t, ∃ x, x ∈ xs ∧ key x `prefix_of` target_path t) new ∧ inside_out (target_path <$> new)).
  { intros Hc H. destruct (Hc H) as (new & Hl & Hn & Hi). exists new. split_and!; [done| |done].
    eapply Forall_impl; [exact Hn|]. intros t (x & Hx & Hk). etrans; [by apply Hd|done]. }
  clear Hd. revert l. induction xs as [|x xs IH]; intros l H.
  - injection H as <-. exists []. rewrite app_nil_r. by repeat constructor.
  - cbn [for_each] in H. apply bind_ok in H as (l1 & H1 & H2). cbn in Hs. inversion Hs as [|? ? Hs' Hall]; subst.
    destruct (Hf x l l1) as (n1 & E1 & Hn1 & Hi1); [by left|done|].
    destruct (IH (λ x l l' Hx, Hf x l l' (list_elem_of_further _ _ _ Hx)) Hs' _ H2) as (n2 & E2 & Hn2 & Hi2).
    exists (n1 ++ n2). rewrite app_assoc, <- E1. split_and!; [done| |].
    + apply Forall_app. split; (eapply Forall_impl; [eassumption|]); cbn; [intros t Ht; exists x; split; [by left|done]|].
      intros t (y & Hy & Ht). exists y. split; [by right|done].
    + rewrite fmap_app. apply StronglySorted_app. split_and!; [|done..].
      intros a b (ta & -> & Hta)%list_elem_of_fmap (tb & -> & Htb)%list_elem_of_fmap.
      rewrite Forall_forall in Hn1. rewrite Forall_forall in Hn2. destruct (Hn2 tb Htb) as (y & Hy & Hky).
      rewrite Forall_forall in Hall. eapply incomparable_below; [|by apply Hn1|exact Hky].
      apply Hall, list_elem_of_fmap. by exists y.
Qed.

Lemma children_incomparable d a b : a ≠ b → incomparable (d ++ [Normal a]) (d ++ [Normal b]).
Proof.
  intros Hab. split; intros [x Hx]; rewrite <- !app_assoc in Hx; apply app_inv_head in Hx; cbn in Hx; congruence.
Qed.

Lemma children_sorted {A} (n : A → string) d (l : list A) :
  NoDup (n <$> l) → StronglySorted incomparable ((λ x, d ++ [Normal (n x)]) <$> l).
Proof.
  induction l as [|x l IH]; cbn; [constructor|]. rewrite NoDup_cons. intros [Hx Hl]. constructor; [by apply IH|].
  apply Forall_fmap, Forall_forall. intros y Hy. apply children_incomparable. intros E. apply Hx, list_elem_of_fmap. by exists y.
Qed.

Lemma join_child (d : PathBuf) n : join_path d [Normal n] = d ++ [Normal n].
Proof. by destruct d. Qed.

Section Signing.
Context {FS : ResourceFs} {PL : PackLib} {ML : MacLib}.

(** A bundle is signed after the code in it. *)
Lemma bundle_appends nested inner executable root d l l' :
  (∀ l src dest l', nested l src dest = Ok l' → appends dest l l') → d ≠ [] → relative (components inner) →
  add_bundle_sign_path nested inner executable root d l = Ok l' → appends d l l'.
Proof.
  intros Hn Hd Hi H. unfold add_bundle_sign_path in H. apply bind_ok in H as (l1 & H1 & [= <-]).
  assert (∃ e, appends (d ++ e) l l1) as [e (new & -> & Ha & Hs)].
  { destruct (path_exists _); apply Hn in H1; [|exists []; by rewrite app_nil_r].
    unfold join in H1. rewrite join_relative in H1 by done. by eexists. }
  exists (new ++ [mk_target d executable]). rewrite app_assoc. split_and!; [done| |].
  - apply Forall_app. split; [|by apply Forall_singleton]. eapply Forall_impl; [exact Ha|]. intros t Ht. etrans; [|exact Ht]; by eexists.
  - rewrite fmap_app. apply StronglySorted_app. split_and!; [|done|repeat constructor].
    intros a b (t & -> & Ht)%list_elem_of_fmap ->%list_elem_of_singleton [Hp Hne]. cbn in *.
    rewrite Forall_forall in Ha. specialize (Ha t Ht). apply Hne, (anti_symm prefix); [|done].
    etrans; [|exact Ha]; by eexists.
Qed.

Lemma appends_nothing d l : appends d l l.
Proof. exists []. rewrite app_nil_r. by repeat constructor. Qed.
Lemma appends_one d l b : appends d l (l ++ [mk_target d b]).
Proof. exists [mk_target d b]. split_and!; [done|by apply Forall_singleton|repeat constructor]. Qed.

Lemma entry_appends nested src dest l e l' :
  (∀ l src dest l', nested l src dest = Ok l' → appends dest l l') →
  add_entry_sign_path nested src dest l e = Ok l' → appends (dest ++ [Normal e.1]) l l'.
Proof.
  intros Hn. destruct e as [n link]. unfold add_entry_sign_path. rewrite !join_child. cbn [fst].
  destruct (link || _); [intros [= <-]; apply appends_nothing|].
  assert (dest ++ [Normal n] ≠ []) as Hne by by destruct dest.
  destruct (is_dir _); [|destruct (is_file _)]; [..|intros [= <-]; apply appends_nothing].
  - case_decide; [by apply bundle_appends|]. case_decide; [by apply bundle_appends|]. intros [= <-]. apply appends_nothing.
  - case_decide; [intros [= <-]; apply appends_one|]. case_decide; intros [= <-]; [apply appends_one|apply appends_nothing].
Qed.

Lemma nested_appends fuel l src dest l' : add_nested_code_sign_path fuel l src dest = Ok l' → appends dest l l'.
Proof.
  revert l src dest l'. induction fuel as [|fuel IH]; intros l src dest l' H; [done|].
  eapply (blocks_inside_out id (λ f, dest ++ [Normal f])); [|apply (children_sorted id)|intros; by eexists|exact H].
  - intros f l1 l2 _. cbn beta zeta. rewrite !join_child.
    destruct (path_exists _); [|intros [= <-]; apply appends_nothing]. intros Hf.
    eapply (blocks_inside_out id (λ e, (dest ++ [Normal f]) ++ [Normal e.1])); [|apply (children_sorted fst)|intros; by eexists|exact Hf].
    + intros e l3 l4 _. by apply entry_appends.
    + apply dir_entries_distinct.
  - rewrite list_fmap_id. apply (bool_decide_unpack _). vm_compute. exact I.
Qed.

Lemma framework_appends fuel root d l l' :
  d ≠ [] → add_framework_sign_path fuel root d l = Ok l' → appends d l l'.
Proof. intros Hd. apply bundle_appends; [apply nested_appends|done|done]. Qed.

Definition framework_name (f : string) : string := default "" (path_file_name (components f)).

Lemma framework_step fuel dest st f st' :
  dest ≠ [] → copy_framework fuel dest st f = Ok st' → appends (dest ++ [Normal (framework_name f)]) st.2 st'.2.
Proof.
  intros Hd. destruct st as [t l]. unfold copy_framework, framework_name.
  destruct (ends_with ".framework" f); [|destruct (ends_with ".dylib" f); [destruct (negb _); [done|]|destruct (Acl.str_contains _ _); [done|]]].
  - intros (n & Hn & (t1 & _ & (l1 & Hl & [= <-])%bind_ok)%bind_ok)%bind_ok. unfold expect in Hn.
    destruct (path_file_name _); [|done]. injection Hn as ->. rewrite join_child in Hl.
    apply framework_appends in Hl; [done|by destruct dest].
  - intros (n & Hn & (t1 & _ & [= <-])%bind_ok)%bind_ok. unfold expect in Hn.
    destruct (path_file_name _); [|done]. injection Hn as ->. rewrite join_child. apply appends_one.
  - intros (t1 & _ & [= <-])%bind_ok. apply appends_nothing.
Qed.

(** Paths of files in one directory. *)
Definition in_directory (d : PathBuf) (p : PathBuf) : Prop := ∃ n, p = d ++ [Normal n].

Lemma siblings_inside_out d l : Forall (in_directory d) l → inside_out l.
Proof.
  induction 1 as [|p l [n ->] Hl IH]; constructor; [done|]. eapply Forall_impl; [exact Hl|].
  intros q [n' ->] [[x Hx] Hne]. rewrite <- app_assoc in Hx. apply app_inv_head in Hx. cbn in Hx. congruence.
Qed.

Lemma copies_in_directory {A} (n : A → string) (f : Tree * list PathBuf → A → outcome BundleError (Tree * list PathBuf)) d l st st' :
  (∀ x st st', x ∈ l → f st x = Ok st' → st'.2 = st.2 ++ [d ++ [Normal (n x)]]) →
  for_each f l st = Ok st' → Forall (in_directory d) st.2 → Forall (in_directory d) st'.2.
Proof.
  intros Hf. revert st. induction l as [|x l IH]; intros st H Hst; [by injection H as <-|].
  cbn [for_each] in H. apply bind_ok in H as (st1 & H1 & H2). eapply IH; [|exact H2|].
  - intros y ? ? Hy. apply Hf. by right.
  - rewrite (Hf x st st1) by (done || by left). apply Forall_app. split; [done|]. apply Forall_singleton. by eexists.
Qed.

Definition signed (tools : list Tool) : list PathBuf :=
  omap (λ t, match t with CodeSign _ p _ _ => Some p | _ => None end) tools.

Lemma signed_sign signing l m : signed (sign signing l m) = target_path <$> l.
Proof. induction l as [|t l IH]; [done|]. cbn. by f_equal. Qed.

Lemma signed_app a b : signed (a ++ b) = signed a ++ signed b.
Proof. apply omap_app. Qed.

Lemma sign_app_signed s m l tools :
  sign_app s m l = Ok tools → tools = [] ∨ signed tools = (target_path <$> l) ++ [app_bundle_path s].
Proof.
  unfold sign_app. intros ([signing|] & _ & H)%bind_ok; [right|injection H as <-; by left].
  assert (signed (RemoveAttributes (app_bundle_path s) :: sign signing (l ++ [executable_target (app_bundle_path s)]) m) =
    (target_path <$> l) ++ [app_bundle_path s]) as He.
  { cbn [signed omap list_omap]. fold (signed (sign signing (l ++ [executable_target (app_bundle_path s)]) m)).
    by rewrite signed_sign, fmap_app. }
  cbv zeta in H. revert He H. generalize (RemoveAttributes (app_bundle_path s) :: sign signing (l ++ [executable_target (app_bundle_path s)]) m).
  intros all He H. destruct notarize_auth as [auth|[]| |]; simplify_eq; try done. rewrite signed_app, He. apply app_nil_r.
Qed.

End Signing.

(** *** Property lists *)
Lemma dict_get_insert k k' v d : dict_get k (dict_insert k' v d) = if decide (k = k') then Some v else dict_get k d.
Proof.
  induction d as [|[k1 v1] d IH]; [done|]. cbn [dict_insert]. destruct (decide (k' = k1)) as [<-|H1]; cbn [dict_get].
  - by destruct (decide (k = k')).
  - rewrite IH. destruct (decide (k = k1)) as [->|]; [by rewrite decide_False by congruence|done].
Qed.

Lemma dict_get_insert_opt k k' v d : k ≠ k' → dict_get k (dict_insert_opt k' v d) = dict_get k d.
Proof. intros Hk. destruct v; [|done]. cbn. by rewrite dict_get_insert, decide_False. Qed.

Lemma dict_get_merge k user d : k ∉ user.*1 → dict_get k (merge_plist user d) = dict_get k d.
Proof.
  unfold merge_plist. revert d. induction user as [|[k' v] user IH]; intros d Hk; [done|]. apply not_elem_of_cons in Hk as [Hk Hu].
  cbn [foldl]. rewrite IH by done. by rewrite dict_get_insert, decide_False.
Qed.

Section App.
Context {FS : ResourceFs} {FL : BundleResources.ResourceFsLaws} {PL : PackLib} {ML : MacLib}.

(** Settings whose programs have plain names. *)
Record plain_app (s : Settings) : Prop := {
  app_out : project_out_directory s ≠ [];
  app_binaries : Forall (λ b, Paths.name (name b)) (binaries s);
  app_sidecars items r : all_of (external_binaries s) = Ok items → inr r ∈ items →
    ∃ n, sidecar_name s (BundleResources.path r) = Ok n ∧ Paths.name n;
}.

Definition contents (s : Settings) : PathBuf := app_bundle_path s ++ [Normal "Contents"].

Lemma app_path_ne s : plain_app s → app_bundle_path s ≠ [].
Proof. intros Hs. by apply join_ne, join_ne, Hs. Qed.

Lemma join_child_name d n : d ≠ [] → Paths.name n → join d n = d ++ [Normal n].
Proof. intros Hd Hn. rewrite join_text by (try apply name_relative; done). by rewrite Installed.rel_name. Qed.

Lemma contents_join s : plain_app s → join (app_bundle_path s) "Contents" = contents s.
Proof. intros Hs. apply join_text; [by apply app_path_ne|done]. Qed.

Lemma contents_ne s : contents s ≠ [].
Proof. unfold contents. by destruct (app_bundle_path s). Qed.

(** The copies of programs: what they add to the tree and to the paths. *)
Lemma sidecars_copied s d t t' paths :
  plain_app s → d ≠ [] → copy_sidecars s d t = Ok (t', paths) →
  Forall (in_directory d) paths ∧ ∀ k, ¬ in_directory d k → t' !! k = t !! k.
Proof.
  intros Hs Hd. unfold copy_sidecars. intros (items & Hi & H)%bind_ok.
  cut (∀ k, Forall (in_directory d) paths ∧ (¬ in_directory d k → t' !! k = t !! k)).
  { intros Hc. split; [apply (Hc [])|]. intros k. apply Hc. }
  intros k.
  apply (for_each_inv (λ st : Tree * list PathBuf, Forall (in_directory d) st.2 ∧ (¬ in_directory d k → st.1 !! k = t !! k))) in H;
    [exact H| |by split].
  intros [t1 p1] [e|r] [t2 p2] Hin [Hp Ht] Hc; [done|]. cbn in Hc. apply bind_ok in Hc as (n & Hn & (t3 & Hcopy & [= <- <-])%bind_ok).
  destruct (app_sidecars s Hs items r Hi Hin) as (n' & Hn' & Hname). rewrite Hn in Hn'. injection Hn' as <-.
  rewrite join_child_name in Hcopy |- * by done. apply copy_file_inserts in Hcopy as ->. cbn in *. split.
  - apply Forall_app. split; [done|]. apply Forall_singleton. by eexists.
  - intros Hk. rewrite lookup_insert_ne; [by apply Ht|]. intros <-. apply Hk. by eexists.
Qed.

Lemma binaries_copied s t t' paths :
  plain_app s → copy_binaries_to_bundle (contents s) s t = Ok (t', paths) →
  let d := contents s ++ [Normal "MacOS"] in
  Forall (in_directory d) paths ∧ (∀ k, ¬ in_directory d k → t' !! k = t !! k) ∧
  ∀ b, b ∈ binaries s → t' !! (d ++ [Normal (name b)]) = Some (CopyOf (binary_path s b)).
Proof.
  intros Hs H d. unfold copy_binaries_to_bundle in H.
  assert (join (contents s) "MacOS" = d) as Hd by (by apply join_text; [apply contents_ne|]). rewrite Hd in H. clear Hd.
  assert (d ≠ []) as Hd by (unfold d; by destruct (contents s)).
  cut (Forall (in_directory d) paths ∧ (∀ k, (∀ b, b ∈ binaries s → k ≠ d ++ [Normal (name b)]) → t' !! k = t !! k) ∧
       ∀ b, b ∈ binaries s → t' !! (d ++ [Normal (name b)]) = Some (CopyOf (binary_path s b))).
  { intros (Hp & Hk & Hb). split_and!; [done| |done]. intros k Hkd. apply Hk. intros b _ ->. apply Hkd. by eexists. }
  pose proof (app_binaries s Hs) as Hn. match type of H with for_each ?f _ _ = _ => set (F := f) in H end.
  assert (∀ t p b, F (t, p) b = (t ← copy_file (binary_path s b) (join d (name b)) t; Ok (t, p ++ [join d (name b)]))) as HF by done.
  clearbody F. revert t H. generalize (@nil PathBuf) (Forall_nil_2 (in_directory d)).
  induction (binaries s) as [|b l IH]; intros acc Hacc t H.
  { injection H as <- <-. split_and!; [done..|]. intros b Hb. by apply not_elem_of_nil in Hb. }
  cbn [for_each] in H. rewrite HF in H.
  apply bind_ok in H as ([t1 acc1] & (t2 & Hc & [= <- <-])%bind_ok & H). inversion Hn as [|? ? Hb Hl]; subst.
  rewrite join_child_name in Hc, H by done. apply copy_file_inserts in Hc as ->.
  apply IH in H as (Hp & Hk & Hbins); [|done|].
  2:{ apply Forall_app. split; [done|]. apply Forall_singleton. by eexists. }
  split_and!; [done| |].
  - intros k Hkd. rewrite Hk by (intros; apply Hkd; by right). apply lookup_insert_ne. intros E. by apply (Hkd b); [left|].
  - intros b' [->|Hb']%elem_of_cons; [|by apply Hbins].
    destruct (decide (name b ∈ name <$> l)) as [(b' & E & Hb')%list_elem_of_fmap|Hnot].
    + rewrite E, Hbins by done. unfold binary_path. by rewrite E.
    + rewrite Hk; [by rewrite lookup_insert_eq|]. intros b' Hb' E%app_inv_head. apply Hnot, list_elem_of_fmap. exists b'. by split; [congruence|].
Qed.

(** The targets of a bundle, in the order in which they are signed. *)
Lemma targets_inside_out s l l1 l2 :
  appends (contents s ++ [Normal "Frameworks"]) [] l →
  Forall (in_directory (contents s ++ [Normal "MacOS"])) l1 → Forall (in_directory (contents s ++ [Normal "MacOS"])) l2 →
  inside_out ((target_path <$> l ++ (executable_target <$> l1) ++ (executable_target <$> l2)) ++ [app_bundle_path s]) ∧
  Forall (λ p, below p (app_bundle_path s)) (target_path <$> l ++ (executable_target <$> l1) ++ (executable_target <$> l2)).
Proof.
  intros (new & -> & Hf & Hi) H1 H2. rewrite app_nil_l, !fmap_app, <- !list_fmap_compose.
  assert (∀ l, target_path ∘ executable_target <$> l = l) as Hid by (intros; apply list_fmap_id). rewrite !Hid. clear Hid.
  assert (Forall (in_directory (contents s ++ [Normal "MacOS"])) (l1 ++ l2)) as Hm by by apply Forall_app.
  assert (∀ p x, contents s ++ [Normal x] `prefix_of` p → below p (app_bundle_path s)) as Hbelow.
  { intros p x [y ->]. unfold contents. rewrite <- !app_assoc. split; [by eexists|]. intros E.
    apply (f_equal length) in E. rewrite !length_app in E. cbn in E. lia. }
  assert (Forall (λ p, below p (app_bundle_path s)) (target_path <$> new) ∧ Forall (λ p, below p (app_bundle_path s)) (l1 ++ l2)) as [Hb1 Hb2].
  { split; [apply Forall_fmap; eapply Forall_impl; [exact Hf|]; intros t Ht; exact (Hbelow _ _ Ht)|].
    eapply Forall_impl; [exact Hm|]. intros p [n ->]. apply (Hbelow _ "MacOS"). by eexists. }
  split; [|by apply Forall_app].
  apply StronglySorted_app. split_and!; [|apply StronglySorted_app; split_and!; [|exact Hi|exact (siblings_inside_out _ _ Hm)]|repeat constructor].
  - intros a b Ha ->%list_elem_of_singleton [Hp Hne]. apply Hne.
    assert (below a (app_bundle_path s)) as [Ha' _]; [|by apply (anti_symm prefix)].
    rewrite Forall_forall in Hb1. rewrite Forall_forall in Hb2. apply elem_of_app in Ha as [?|?]; auto.
  - intros a b (t & -> & Ht)%list_elem_of_fmap Hb. rewrite Forall_forall in Hf. rewrite Forall_forall in Hm.
    destruct (Hm b Hb) as [n ->].
    eapply incomparable_below; [apply (children_incomparable (contents s) "Frameworks" "MacOS"); done|by apply Hf|by eexists].
Qed.

(** C32. The code of an application is signed from the inside out: when a framework,
    a bundle in it, a program or the application is signed, no code below it is
    signed later; all that is signed lies in the application, which is the last
    to be signed. *)
Theorem signed_inside_out fuel s m t tools :
  app_bundle fuel s m = Ok (t, tools) → plain_app s → NoDup (framework_name <$> default [] (frameworks m)) → tools ≠ [] →
  inside_out (signed tools) ∧
  ∃ l, signed tools = l ++ [app_bundle_path s] ∧ Forall (λ p, below p (app_bundle_path s)) l.
Proof.
  intros H Hs Hd Htools. unfold app_bundle in H. rewrite contents_join in H by done.
  apply bind_ok in H as ([t1 icon] & _ & (t2 & _ & ([t3 fw] & Hfw & (t4 & _ & ([t5 p1] & H1 & ([t6 p2] & H2 & (t7 & _ & (tl & Hsign & [= <- <-])%bind_ok)%bind_ok)%bind_ok)%bind_ok)%bind_ok)%bind_ok)%bind_ok).
  apply sidecars_copied in H1 as [H1 _]; [|done|by apply join_ne, contents_ne]. apply binaries_copied in H2 as [H2 _]; [|done].
  rewrite join_text in H1 by (apply contents_ne || done).
  assert (appends (contents s ++ [Normal "Frameworks"]) [] fw) as Ha.
  { unfold copy_frameworks_to_bundle in Hfw. rewrite join_text in Hfw by (apply contents_ne || done).
    eapply (blocks_inside_out snd (λ f, (contents s ++ [Normal "Frameworks"]) ++ [Normal (framework_name f)])) in Hfw; [exact Hfw| | |].
    - intros f st st' _ Hst. eapply framework_step; [|exact Hst]. by destruct (contents s).
    - by apply children_sorted.
    - intros f _. by eexists. }
  destruct (targets_inside_out s fw p1 p2 Ha H1 H2) as [Hi Hb].
  destruct (sign_app_signed _ _ _ _ Hsign) as [->|E]; [done|]. rewrite E. split; [exact Hi|by eexists].
Qed.

(** *** The files of the bundle *)
Lemma generated_executable icon s m d : generated_plist icon s m = Ok d →
  ∃ main, main_binary_name s = Ok main ∧ dict_get "CFBundleExecutable" d = Some (PText main).
Proof.
  unfold generated_plist. intros (main & Hm & (d1 & H1 & (types & _ & (urls & _ & [= <-])%bind_ok)%bind_ok)%bind_ok)%bind_ok.
  exists main. split; [done|].
  repeat first [rewrite dict_get_insert_opt by done|rewrite dict_get_insert, decide_False by done].
  destruct icon as [icon|]; [apply bind_ok in H1 as (n & _ & [= <-])|injection H1 as <-]; done.
Qed.

Lemma info_executable icon s m d : info_plist icon s m = Ok d →
  (∀ p user, info_plist_path m = Some p → read_to_string p ≫= plist_from_xml = Some (PDict user) → "CFBundleExecutable" ∉ user.*1) →
  ∃ main, main_binary_name s = Ok main ∧ dict_get "CFBundleExecutable" d = Some (PText main).
Proof.
  unfold info_plist. intros (plist & Hp & H)%bind_ok Huser. apply generated_executable in Hp as (main & Hm & He).
  exists main. split; [done|]. destruct (info_plist_path m) as [p|]; [|by injection H as <-].
  apply bind_ok in H as (user & Hu & H). destruct (read_to_string p ≫= plist_from_xml) as [u|] eqn:E; [|done]. injection Hu as ->.
  destruct user as [| | |user]; injection H as <-; try done. rewrite dict_get_merge; [done|]. by eapply Huser.
Qed.

(** Directories are copied below their destination. *)
Definition relative_walk : Prop := ∀ p, Forall (λ e, relative e.1) (walk p).

Lemma copy_dir_kept from to t t' k :
  relative_walk → copy_dir from to t = Ok t' → ¬ to `prefix_of` k → t' !! k = t !! k.
Proof.
  intros Hw H Hk. unfold copy_dir in H. destruct (negb _); [done|]. destruct (negb _); [done|]. case_decide; [done|].
  assert (to ≠ []) as Hto by (intros ->; apply Hk, prefix_nil).
  assert (for_each (copy_entry from to) (walk from) t = Ok t') as Hf by by destruct to as [|[] []].
  apply (for_each_inv (λ u, u !! k = t !! k)) in Hf; [done| |done].
  intros t1 e t2 He Ht [= <-]. rewrite lookup_insert_ne; [done|]. intros E. apply Hk. rewrite <- E.
  specialize (Hw from). rewrite Forall_forall in Hw. rewrite join_relative by (done || by apply Hw). by eexists.
Qed.

Lemma copy_file_kept from to t t' k : copy_file from to t = Ok t' → k ≠ to → t' !! k = t !! k.
Proof. intros ->%copy_file_inserts Hk. by apply lookup_insert_ne. Qed.

Lemma framework_kept fuel dest st f st' k :
  relative_walk → dest ≠ [] → copy_framework fuel dest st f = Ok st' → ¬ dest `prefix_of` k → st'.1 !! k = st.1 !! k.
Proof.
  intros Hw Hd. destruct st as [t l]. unfold copy_framework. intros H Hk.
  assert (∀ x, ¬ dest ++ x `prefix_of` k) as Hx by (intros x Hx; apply Hk; etrans; [|exact Hx]; by eexists).
  destruct (ends_with ".framework" f); [|destruct (ends_with ".dylib" f); [destruct (negb _); [done|]|destruct (Acl.str_contains _ _) eqn:Hsl; [done|]]].
  - apply bind_ok in H as (n & _ & (t1 & Hc & (l1 & _ & [= <-])%bind_ok)%bind_ok). rewrite join_child in Hc. by eapply copy_dir_kept.
  - apply bind_ok in H as (n & _ & (t1 & Hc & [= <-])%bind_ok). rewrite join_child in Hc. eapply copy_file_kept; [done|].
    intros ->. by eapply Hx.
  - apply bind_ok in H as (t1 & Hc & [= <-]). cbn. revert t Hc. induction framework_dirs as [|d ds IH]; intros t Hc; [done|].
    cbn [copy_framework_from_any] in Hc. apply bind_ok in Hc as ([t2 found] & Hf & Hc). unfold copy_framework_from in Hf.
    assert (t2 !! k = t !! k) as E.
    { destruct (path_exists _); [|by injection Hf as <- <-]. apply bind_ok in Hf as (t3 & Hf & [= <- <-]).
      eapply copy_dir_kept; [done|exact Hf|]. rewrite join_text; [apply Hx|done|].
      destruct f as [|c f]; [done|]. apply absolute_append; [done|].
      cbn [Acl.str_contains] in Hsl. by apply orb_false_iff in Hsl as [Hsl _]. }
    destruct found; [injection Hc as <-; done|]. rewrite <- E. by apply IH.
Qed.

Lemma custom_kept m d t t' k :
  relative_walk → Forall (λ e, ¬ join_path d (without_root e.1) `prefix_of` k) (files_order (mac_files m)) →
  copy_custom_files (mac_files m) d t = Ok t' → t' !! k = t !! k.
Proof.
  intros Hw Hk H. apply (for_each_inv (λ u, u !! k = t !! k)) in H; [done| |done].
  intros t1 [pkg src] t2 Hin <- Hc. rewrite Forall_forall in Hk. specialize (Hk _ Hin). cbn in Hk, Hc.
  destruct (is_file src); [eapply copy_file_kept; [done|]; by intros ->|by eapply copy_dir_kept].
Qed.

(** The bundle step by step: its list of properties, its programs, and what the
    steps after the resources keep. *)
Lemma app_steps fuel s m t tools :
  app_bundle fuel s m = Ok (t, tools) → plain_app s → relative_walk →
  ∃ t3 t4 icon plist, info_plist icon s m = Ok plist ∧
    t3 !! (contents s ++ [Normal "Info.plist"]) = Some (Text (plist_to_xml plist)) ∧
    copy_resources s (contents s ++ [Normal "Resources"]) t3 = Ok t4 ∧
    (∀ k, Forall (λ e, ¬ join_path (contents s) (without_root e.1) `prefix_of` k) (files_order (mac_files m)) →
       (¬ in_directory (contents s ++ [Normal "MacOS"]) k → t !! k = t4 !! k) ∧
       (∀ b, b ∈ binaries s → k = contents s ++ [Normal "MacOS"; Normal (name b)] → t !! k = Some (CopyOf (binary_path s b)))).
Proof.
  intros H Hs Hw. unfold app_bundle in H. rewrite contents_join in H by done.
  apply bind_ok in H as ([t1 icon] & _ & (t2 & Hplist & ([t3 fw] & Hfw & (t4 & Hres & ([t5 p1] & H1 & ([t6 p2] & H2 & (t7 & Hc & (tl & Hsign & [= <- <-])%bind_ok)%bind_ok)%bind_ok)%bind_ok)%bind_ok)%bind_ok)%bind_ok).
  rewrite (join_text (contents s)) in Hres by (apply contents_ne || done).
  apply sidecars_copied in H1 as [_ H1]; [|done|by apply join_ne, contents_ne]. rewrite join_text in H1 by (apply contents_ne || done).
  apply binaries_copied in H2 as (_ & H2 & Hb); [|done]. unfold create_info_plist in Hplist.
  apply bind_ok in Hplist as (plist & Hplist & [= <-]).
  exists t3, t4, icon, plist. split_and!; [done| |done|].
  - unfold copy_frameworks_to_bundle in Hfw. rewrite join_text in Hfw by (apply contents_ne || done).
    apply (for_each_inv (λ st : Tree * list SignTarget, st.1 !! (contents s ++ [Normal "Info.plist"]) = Some (Text (plist_to_xml plist)))) in Hfw; [done| |].
    + intros st f st' _ Hst Hf. rewrite <- Hst. eapply framework_kept; [done| |exact Hf|].
      * by destruct (contents s).
      * intros [x Hx]. rewrite <- app_assoc in Hx. by apply app_inv_head in Hx.
    + cbn. rewrite join_text by (apply contents_ne || done). apply lookup_insert_eq.
  - intros k Hk. rewrite (custom_kept _ _ _ _ _ Hw Hk Hc). split.
    + intros Hkm. by rewrite H2, H1.
    + intros b Hbin ->. rewrite <- Hb by done. by rewrite <- app_assoc.
Qed.

Definition app_resource (i : BundleResources.Item) : PathBuf * Content :=
  match i with
  | inr r => (body (BundleResources.target r), CopyOf (components (BundleResources.path r)))
  | inl _ => ([], Directory)
  end.

(** A loop over items that ends has met no error. *)
Lemma loop_no_errors {S} (g : S → BundleResources.Resource → outcome BundleError S) items t t' e :
  for_each (λ t i, r ← item_path i; g t r) items t = Ok t' → inl e ∉ items.
Proof.
  revert t. induction items as [|i items IH]; intros t H; [apply not_elem_of_nil|].
  cbn [for_each] in H. apply bind_ok in H as (t1 & H1 & H2). apply not_elem_of_cons. split; [|by eapply IH].
  by intros <-.
Qed.

Lemma resources_copied s d l it items t t' :
  d ≠ [] → resources (bundle_settings s) = Some l → resources_map (bundle_settings s) = None →
  resource_files s = Ok it → all_of it = Ok items → copy_resources s d t = Ok t' →
  t' = insert_all (under d (app_resource <$> items)) t ∧ ∀ e, inl e ∉ items.
Proof.
  intros Hd Hl Hm Hit Hi H. unfold copy_resources in H. rewrite Hit in H. cbn [mbind outcome_bind] in H. rewrite Hi in H.
  cbn [mbind outcome_bind] in H. split; [|intros e; by eapply (loop_no_errors (λ t r, copy_file _ _ t))].
  rewrite <- entries_under. eapply for_each_inserts; [|exact H].
  intros t1 [e|r] t2 Hin Hc; [done|]. cbn [item_path mbind outcome_bind] in Hc. apply copy_file_inserts in Hc as ->.
  destruct (list_resources s l it items r Hl Hm Hit Hi Hin) as [_ Hr].
  cbn [app_resource fst snd]. by rewrite join_text, Installed.rel_components.
Qed.

(** *** The application in its bundle *)

(** A process that runs from the bundle, wherever that was put, and not from a
    directory of Cargo. *)
Record runs_from {H : Host} (root program : string) : Prop := {
  root_absolute : is_absolute root = true;
  root_program : Paths.name program;
  root_not_cargo : Installed.below_target (normalize (push root "Contents/MacOS")) = false;
  root_resources : canonical_path (push (normalize (push root "Contents/MacOS")) "../Resources") = Some (push root "Contents/Resources");
}.

Definition program_path (root program : string) : string := push (push root "Contents/MacOS") program.

Lemma root_ne {H : Host} root program : runs_from root program → root ≠ "".
Proof. intros [Ha _ _ _] ->. done. Qed.

Lemma bundle_resource_dir {H : Host} root program :
  runs_from root program → mac_resource_dir (Some (program_path root program)) = Ok (push root "Contents/Resources").
Proof.
  intros Hr. unfold mac_resource_dir. cbn [ok_or mbind outcome_bind]. unfold mac_resource_dir_from, program_path.
  rewrite Installed.parent_push; [|by apply push_ne_nil|apply Hr]. rewrite (root_not_cargo _ _ Hr). cbn [andb].
  by rewrite (root_resources _ _ Hr).
Qed.

(** An application finds its resources in its bundle: when the resources are a
    list and no custom file replaces it, resolving the path of a resource as it
    is written in the configuration gives a path in the bundle at which it
    holds a copy of that resource, or of another with the same target. *)
Theorem app_resource_found {H : Host} fuel s m t tools l it items r root program dir src :
  app_bundle fuel s m = Ok (t, tools) → plain_app s → relative_walk →
  resources (bundle_settings s) = Some l → resources_map (bundle_settings s) = None →
  resource_files s = Ok it → all_of it = Ok items → inr r ∈ items →
  Forall (λ e, ¬ join_path (contents s) (without_root e.1) `prefix_of`
    (contents s ++ Normal "Resources" :: body (BundleResources.target r))) (files_order (mac_files m)) →
  runs_from root program → dir Resource = ok (mac_resource_dir (Some (program_path root program))) →
  BundleResources.normalize src = BundleResources.path r ∨ src = BundleResources.path r →
  ∃ q k r', resolve dir src Resource = Ok q ∧ components q = components root ++ k ∧
    inr r' ∈ items ∧ body (BundleResources.target r') = body (BundleResources.target r) ∧
    t !! (app_bundle_path s ++ k) = Some (CopyOf (components (BundleResources.path r'))).
Proof.
  intros Happ Hs Hw Hl Hm Hit Hi Hr Hc Hrun Hdir Hsrc.
  destruct (app_steps fuel s m t tools Happ Hs Hw) as (t3 & t4 & icon & plist & _ & _ & Hres & Hk).
  pose proof (list_resources s l it items r Hl Hm Hit Hi Hr) as [Htarget Hrel].
  specialize (Hk _ Hc) as [Hk _]. apply (resources_copied s _ l it items) in Hres as [Hres Hne]; [|by destruct (contents s)|done..].
  set (b := body (BundleResources.target r)) in *.
  destruct (Installed.insert_all_found (under (contents s ++ [Normal "Resources"]) (app_resource <$> items)) t3 (contents s ++ Normal "Resources" :: b))
    as (e & He & Hek & Hf).
  { unfold under. rewrite <- !list_fmap_compose. apply list_elem_of_fmap. exists (inr r). split; [|done].
    cbn. by rewrite <- app_assoc. }
  unfold under in He. rewrite <- list_fmap_compose in He. apply list_elem_of_fmap in He as ([x|r'] & -> & Hr').
  { by apply Hne in Hr'. }
  cbn in Hek. rewrite <- app_assoc in Hek. apply app_inv_head in Hek. injection Hek as Hb.
  exists (push (push root "Contents/Resources") (BundleResources.target r)), (Normal "Contents" :: Normal "Resources" :: b), r'.
  split_and!; [| |done|done|].
  - unfold resolve, resolve_path. rewrite Hdir, (bundle_resource_dir root program Hrun). cbn. do 2 f_equal. rewrite <- Htarget.
    destruct Hsrc as [<-| ->]; [|done]. symmetry. apply BundleResources.relpath_normalize.
  - rewrite components_push; [|done|by apply push_ne_nil]. rewrite components_push; [|done|by eapply root_ne]. by rewrite <- app_assoc.
  - unfold contents in *. rewrite <- !app_assoc in *. cbn in *. rewrite Hk, Hres; [by rewrite Hf|].
    intros [n Hn]. rewrite <- !app_assoc in Hn. by apply app_inv_head in Hn.
Qed.

(** The text of a file of the bundle that was put at [root]. *)
Definition installed_text (s : Settings) (t : Tree) (root : string) (p : PathBuf) : option string :=
  if decide (components root `prefix_of` p) then
    match t !! (app_bundle_path s ++ drop (length (components root)) p) with Some (Text text) => Some text | _ => None end
  else None.

Lemma installed_text_at s t root k text :
  t !! (app_bundle_path s ++ k) = Some (Text text) → installed_text s t root (components root ++ k) = Some text.
Proof. intros H. unfold installed_text. rewrite decide_True by by eexists. by rewrite drop_app_length, H. Qed.

Lemma main_binary_in s n : main_binary_name s = Ok n → ∃ b, b ∈ binaries s ∧ main b = true ∧ name b = n.
Proof.
  unfold main_binary_name, main_binary, find_main. destruct (head (filter _ (binaries s))) as [b|] eqn:E; [|done].
  intros [= <-]. apply head_Some_elem_of, list_elem_of_filter in E as [??]. by exists b.
Qed.

Lemma program_components root program :
  is_absolute root = true → Paths.name program →
  components (program_path root program) = ((components root ++ [Normal "Contents"]) ++ [Normal "MacOS"]) ++ [Normal program].
Proof.
  intros Ha Hp. assert (root ≠ "") as Hne by by intros ->. unfold program_path.
  rewrite components_push; [|by apply name_relative|by apply push_ne_nil]. rewrite name_body by done.
  rewrite components_push by done. by rewrite <- !app_assoc.
Qed.

Lemma parent_child p n : WindowsInstallers.path_parent (p ++ [Normal n]) = Some p.
Proof. unfold WindowsInstallers.path_parent. by rewrite last_snoc, length_app, Nat.add_sub, take_app_length. Qed.

(** A restart starts the program that the property list names. *)
Lemma restart_reads_plist read root program args plist n :
  is_absolute root = true → Paths.name program → Paths.name n →
  read (components root ++ [Normal "Contents"; Normal "Info.plist"]) = Some (plist_to_xml plist) →
  dict_get "CFBundleExecutable" plist = Some (PText n) →
  mac_restart read (Some (program_path root program)) args =
    [Installed.Spawn (collect_path (components root ++ [Normal "Contents"; Normal "MacOS"; Normal n])) (drop 1 args);
     Installed.ExitProcess 0].
Proof.
  intros Ha Hp Hn Hread Hget. unfold mac_restart, restart_macos_app. rewrite program_components, parent_child by done.
  cbn [mbind option_bind]. rewrite last_snoc, decide_True by done. rewrite parent_child. cbn [mbind option_bind].
  rewrite last_snoc, decide_True by done. rewrite !join_child_name by (done || by split || by destruct (components root)).
  replace ((components root ++ [Normal "Contents"]) ++ [Normal "Info.plist"])
    with (components root ++ [Normal "Contents"; Normal "Info.plist"]) by by rewrite <- app_assoc.
  rewrite Hread. cbn [mbind option_bind]. rewrite plist_reads_back. cbn [mbind option_bind].
  rewrite Hget, join_child_name by (done || by destruct (components root)). by rewrite <- !app_assoc.
Qed.

(** An application that is started again runs the main program of its bundle,
    whatever program of the bundle it was: the restart starts the program that
    the property list names, which the bundle holds a copy of. *)
Theorem restart_starts_main fuel s m t tools l it items root program args :
  app_bundle fuel s m = Ok (t, tools) → plain_app s → relative_walk →
  resources (bundle_settings s) = Some l → resources_map (bundle_settings s) = None →
  resource_files s = Ok it → all_of it = Ok items →
  (∀ p user, info_plist_path m = Some p → read_to_string p ≫= plist_from_xml = Some (PDict user) → "CFBundleExecutable" ∉ user.*1) →
  (∀ k, k ∈ ([Normal "Info.plist"] : PathBuf) :: ((λ b, [Normal "MacOS"; Normal (name b)]) <$> binaries s) →
    Forall (λ e, ¬ join_path (contents s) (without_root e.1) `prefix_of` (contents s ++ k)) (files_order (mac_files m))) →
  is_absolute root = true → Paths.name program →
  ∃ b, b ∈ binaries s ∧ main b = true ∧
    mac_restart (installed_text s t root) (Some (program_path root program)) args =
      [Installed.Spawn (collect_path (components root ++ [Normal "Contents"; Normal "MacOS"; Normal (name b)])) (drop 1 args);
       Installed.ExitProcess 0] ∧
    t !! (app_bundle_path s ++ [Normal "Contents"; Normal "MacOS"; Normal (name b)]) = Some (CopyOf (binary_path s b)).
Proof.
  intros Happ Hs Hw Hl Hm Hit Hi Huser Hc Hroot Hprog.
  destruct (app_steps fuel s m t tools Happ Hs Hw) as (t3 & t4 & icon & plist & Hplist & Htext & Hres & Hk).
  destruct (info_executable icon s m plist Hplist Huser) as (n & Hn & Hget).
  destruct (main_binary_in s n Hn) as (b & Hb & Hbm & <-). exists b. split_and!; [done..| |].
  - assert (t !! (app_bundle_path s ++ [Normal "Contents"; Normal "Info.plist"]) = Some (Text (plist_to_xml plist))) as Hinfo.
    { destruct (Hk (contents s ++ [Normal "Info.plist"])) as [Hk' _]; [by apply Hc; left|].
      apply (resources_copied s _ l it items) in Hres as [Hres _]; [|by destruct (contents s)|done..].
      unfold contents in *. rewrite <- !app_assoc in *. cbn in *. rewrite Hk', Hres.
      - rewrite insert_all_other; [done|]. unfold under. rewrite <- list_fmap_compose. intros (e & E & _)%list_elem_of_fmap.
        cbn in E. rewrite <- !app_assoc in E. by apply app_inv_head in E.
      - intros [x Hx]. rewrite <- !app_assoc in Hx. by apply app_inv_head in Hx. }
    eapply restart_reads_plist; [done|done| |by apply installed_text_at|done].
    pose proof (app_binaries s Hs) as Hbin. rewrite Forall_forall in Hbin. by apply Hbin.
  - destruct (Hk (contents s ++ [Normal "MacOS"; Normal (name b)])) as [_ Hk'].
    { apply Hc. right. apply list_elem_of_fmap. by exists b. }
    specialize (Hk' b Hb eq_refl). unfold contents in Hk'. by rewrite <- app_assoc in Hk'.
Qed.

(** A disk image needs the application: it is made and signed first, unless it
    is there already, and handed to the caller with the image. *)
Theorem dmg_makes_app_once fuel s m d bundles r :
  dmg_project fuel s m d bundles = Ok r →
  (MacOsBundle ∈ bundles → bundled_app r = []) ∧
  (MacOsBundle ∉ bundles → bundled_app r = [app_bundle_path s] ∧
     ∃ t tools, app_bundle fuel s m = Ok (t, tools) ∧ tools `prefix_of` bundled_tools r).
Proof.
  unfold dmg_project. intros ([[t app] paths] & Happ & H)%bind_ok.
  apply bind_ok in H as (arch & _ & ([t' icon] & _ & (k & _ & [= <-])%bind_ok)%bind_ok). cbn.
  case_decide as Hb; [injection Happ as <- <- <-; done|]. apply bind_ok in Happ as ([t1 tools] & Ha & [= <- <- <-]).
  split; [done|]. intros _. split; [done|]. exists t1, tools. split; [done|]. by eexists.
Qed.

(** ** Credentials *)

Lemma first_api_key_found folders n p :
  first_api_key folders n = Some p → path_exists p = true ∧ ∃ folder, folder ∈ folders ∧ p = join folder n.
Proof.
  induction folders as [|f folders IH]; [done|]. cbn [first_api_key]. unfold find_api_key.
  destruct (path_exists (join f n)) eqn:E; [intros [= <-]; split; [done|]; exists f; by split; [left|]|].
  intros H. destruct (IH H) as (? & f' & ? & ->). split; [done|]. exists f'. by split; [right|].
Qed.

(** The sources of credentials in their order: an account with its team, then a
    key that is named, then a key that is found. An account without a team is
    refused even where there is a key. *)
Theorem notarize_auth_decides :
  match notarize_auth with
  | Ok (AppleId id password team) => var_os "APPLE_ID" = Some id ∧ var_os "APPLE_PASSWORD" = Some password ∧ var_os "APPLE_TEAM_ID" = Some team
  | Ok (ApiKeyAuth issuer key_id (KeyPath p)) =>
      (var_os "APPLE_ID" = None ∨ var_os "APPLE_PASSWORD" = None) ∧
      var_os "APPLE_API_KEY" = Some key_id ∧ var_os "APPLE_API_ISSUER" = Some issuer ∧
      match var_os "APPLE_API_KEY_PATH" with
      | Some path => p = components path
      | None => path_exists p = true ∧ ∃ folder, folder ∈ search_paths ∧ p = join folder ("AuthKey_" +:+ key_id +:+ ".p8")
      end
  | Err MissingTeamId => is_Some (var_os "APPLE_ID") ∧ is_Some (var_os "APPLE_PASSWORD") ∧ var_os "APPLE_TEAM_ID" = None
  | Err (AuthFailed _) => var_os "APPLE_ID" = None ∨ var_os "APPLE_PASSWORD" = None
  | _ => False
  end.
Proof.
  unfold notarize_auth. destruct (var_os "APPLE_ID") as [id|], (var_os "APPLE_PASSWORD") as [password|];
    [destruct (var_os "APPLE_TEAM_ID") as [team|]; [done|by split_and!]|..];
    (destruct (var_os "APPLE_API_KEY") as [key_id|]; [|by auto]); (destruct (var_os "APPLE_API_ISSUER") as [issuer|]; [|by auto]);
    (destruct (var_os "APPLE_API_KEY_PATH") as [path|]; [by auto 10|]);
    (destruct (first_api_key _ _) as [p|] eqn:E; [|by auto]); apply first_api_key_found in E; auto 10.
Qed.

End App.

(** ** The search for code ends *)
Section Depth.
Context {FS : ResourceFs} {PL : PackLib} {ML : MacLib} (rank : PathBuf → nat).

(** A bundle in a folder of code ranks below the directory that has the folder,
    whichever directory in it is looked into. *)
Definition nested_ranks : Prop := ∀ src folder n q,
  folder ∈ NESTED_CODE_FOLDER → (n, false) ∈ dir_entries (src ++ [Normal folder]) →
  let path := src ++ [Normal folder; Normal n] in
  is_dir path = true → q ∈ [path; join path "Versions/Current"; join path "Contents"] → rank q < rank src.

Lemma for_each_succeeds {S A} (f : S → A → outcome BundleError S) l st :
  (∀ st x, x ∈ l → ∃ st', f st x = Ok st') → ∃ st', for_each f l st = Ok st'.
Proof.
  revert st. induction l as [|x l IH]; intros st Hf; [by eexists|].
  destruct (Hf st x) as [st1 H1]; [by left|]. cbn [for_each]. rewrite H1. apply IH. intros st2 y Hy. apply Hf. by right.
Qed.

(** Where bundles nest to a bounded depth the search for the code to sign ends,
    with any fuel above the rank of the framework. *)
Theorem nested_code_found fuel l src dest :
  nested_ranks → rank src < fuel → ∃ l', add_nested_code_sign_path fuel l src dest = Ok l'.
Proof.
  intros Hr. revert l src dest. induction fuel as [|fuel IH]; intros l src dest Hf; [lia|].
  apply for_each_succeeds. intros l1 folder Hfolder. cbn beta zeta. rewrite !join_child.
  destruct (path_exists _); [|by eexists]. apply for_each_succeeds. intros l2 [n link] Hn.
  unfold add_entry_sign_path. rewrite !join_child. destruct link; [by eexists|]. destruct (_ || _); [by eexists|].
  specialize (Hr src folder n). cbn zeta in Hr. replace (src ++ [Normal folder; Normal n]) with ((src ++ [Normal folder]) ++ [Normal n]) in Hr
    by by rewrite <- app_assoc.
  destruct (is_dir _) eqn:Hdir; [|destruct (is_file _); [repeat case_decide|]; by eexists].
  assert (∀ inner b, inner = "Versions/Current" ∨ inner = "Contents" → ∃ l', add_bundle_sign_path (add_nested_code_sign_path fuel) inner b
    ((src ++ [Normal folder]) ++ [Normal n]) ((dest ++ [Normal folder]) ++ [Normal n]) l2 = Ok l') as Hb.
  { intros inner b Hi. unfold add_bundle_sign_path.
    assert (∀ d q, q ∈ [(src ++ [Normal folder]) ++ [Normal n]; join ((src ++ [Normal folder]) ++ [Normal n]) "Versions/Current";
      join ((src ++ [Normal folder]) ++ [Normal n]) "Contents"] → ∃ l', add_nested_code_sign_path fuel l2 q d = Ok l') as Hq.
    { intros d q Hq. apply IH. specialize (Hr q Hfolder Hn eq_refl Hq). lia. }
    destruct (path_exists _); [edestruct Hq as [l3 ->]|edestruct Hq as [l3 ->]]; [|by eexists| |by eexists].
    - destruct Hi as [-> | ->]; set_solver.
    - set_solver. }
  repeat case_decide; auto. by eexists.
Qed.

End Depth.

(** ** Examples *)

(** A text that stands for a property list. *)
Fixpoint plist_tree (p : Plist) : gen_tree (string + bool) :=
  match p with
  | PText s => GenLeaf (inl s)
  | PBool b => GenLeaf (inr b)
  | PArray l => GenNode 0 (plist_tree <$> l)
  | PDict d => GenNode 1 (concat ((λ kv, [GenLeaf (inl kv.1); plist_tree kv.2]) <$> d))
  end.

Fixpoint tree_plist (t : gen_tree (string + bool)) : Plist :=
  match t with
  | GenLeaf (inl s) => PText s
  | GenLeaf (inr b) => PBool b
  | GenNode 0 l => PArray (tree_plist <$> l)
  | GenNode _ l =>
      PDict ((fix pairs l := match l with GenLeaf (inl k) :: v :: l => (k, tree_plist v) :: pairs l | _ => [] end) l)
  end.

Lemma tree_plist_tree : ∀ p, tree_plist (plist_tree p) = p.
Proof.
  fix IH 1. intros [s|b|l|d]; [done|done| |]; cbn; f_equal.
  - induction l as [|p l IHl]; [done|]. cbn. rewrite IH. by f_equal.
  - induction d as [|[k v] d IHd]; [done|]. cbn. rewrite IH. by f_equal.
Qed.

Fixpoint bits (p : positive) : string :=
  match p with xH => "" | xO p => String "0" (bits p) | xI p => String "1" (bits p) end.
Fixpoint of_bits (s : string) : positive :=
  match s with "" => xH | String c s => if decide (c = "0"%char) then xO (of_bits s) else xI (of_bits s) end.

Lemma of_bits_bits p : of_bits (bits p) = p.
Proof. induction p as [p IH|p IH|]; cbn; by rewrite ?IH. Qed.

Definition ex_to_xml (d : Dictionary) : string := bits (encode (plist_tree (PDict d))).
Definition ex_from_xml (s : string) : option Plist := tree_plist <$> decode (of_bits s).

Lemma ex_reads_back d : ex_from_xml (ex_to_xml d) = Some (PDict d).
Proof. unfold ex_from_xml, ex_to_xml. rewrite of_bits_bits, decode_encode. cbn [fmap option_fmap option_map]. by rewrite tree_plist_tree. Qed.

Definition ex_mac_files : list string :=
  ["target/app"; "target/helper"; "data.txt"; "icons/icon.icns"; "icons/wide.png"; "fw/S.framework/Versions/Current/XPCServices/D.xpc/Contents/MacOS/D";
   "fw/S.framework/Versions/Current/Libraries/l.dylib"].
Definition ex_mac_dirs : list string :=
  ["fw/S.framework"; "fw/S.framework/Versions/Current"; "fw/S.framework/Versions/Current/XPCServices";
   "fw/S.framework/Versions/Current/XPCServices/D.xpc"; "fw/S.framework/Versions/Current/XPCServices/D.xpc/Contents";
   "fw/S.framework/Versions/Current/XPCServices/D.xpc/Contents/MacOS"; "fw/S.framework/Versions/Current/Libraries";
   "/Library/Frameworks/SDL2.framework"].

#[local] Instance ex_mac_fs : ResourceFs := {|
  res_exists p := bool_decide (p ∈ ex_mac_files); res_is_dir _ := false; glob_glob _ := inr []; walk_dir _ := [];
|}.
#[local] Instance ex_mac_laws : BundleResources.ResourceFsLaws.
Proof.
  intros p He Hd. cbn in *. apply bool_decide_eq_true in He. unfold ex_mac_files in He.
  repeat (apply elem_of_cons in He as [->|He]; [by eexists|]). by apply not_elem_of_nil in He.
Qed.

#[local] Instance ex_mac_pack : PackLib := {|
  path_exists p := bool_decide (p ∈ components <$> ex_mac_files ++ ex_mac_dirs); is_file p := bool_decide (p ∈ components <$> ex_mac_files);
  is_dir p := bool_decide (p ∈ components <$> ex_mac_dirs); walk _ := [([], DirEntry)]; read_to_string _ := None;
  png_dimensions _ := Some (32, 32)%N; to_kebab_case t := t;
  render_desktop _ p := Some (p_exec p); files_order := map_to_list; files_order_perm m := reflexivity _;
  total_dir_size _ _ := 2048%N;
|}.

Definition ex_entries (p : string) : list (string * bool) :=
  if decide (p = "fw/S.framework/Versions/Current/XPCServices") then [("D.xpc", false)]
  else if decide (p = "fw/S.framework/Versions/Current/XPCServices/D.xpc/Contents/MacOS") then [("D", false)]
  else if decide (p = "fw/S.framework/Versions/Current/Libraries") then [("l.dylib", false); ("Sub", true)]
  else [].

Lemma ex_entries_distinct p : NoDup (ex_entries p).*1.
Proof. unfold ex_entries. repeat case_decide; apply (bool_decide_unpack _); vm_compute; exact I. Qed.

#[local] Instance ex_mac_lib : MacLib := {|
  var_os _ := None; home_dir := Some (components "/home/me"); current_dir := components "/p"; build_number := "20240101.000000";
  dir_entries p := ex_entries (collect_path p); dir_entries_distinct p := ex_entries_distinct _;
  with_certificate c _ := Ok c; image_dimensions p := if decide (path_file_name p = Some "wide.png") then Some (1024, 512)%N else Some (512, 512)%N;
  icns_supported_color _ := true; icns_type w h d := if decide (w = h) then Some (print_u32 w) else None;
  icns_images _ := None; icns_file l := String.concat "," l.*1;
  plist_to_xml := ex_to_xml; plist_from_xml := ex_from_xml; plist_reads_back := ex_reads_back;
|}.

Definition ex_mac_settings : Settings :=
  mk_settings LevelError (mk_package "App" "1.0.0" "An app" None None None) None [Normal "target"] None
    (ex_bundle (Some ["data.txt"]) None None) [mk_binary "helper" false None; mk_binary "app" true None] "aarch64-apple-darwin".

Definition with_icons (icons : option (list string)) (s : Settings) : Settings :=
  let b := bundle_settings s in
  mk_settings (log_level s) (package s) (requested_types s) (project_out_directory s) (local_tools_directory s)
    (mk_bundle (identifier b) (publisher b) (homepage b) icons (resources b) (resources_map b) (copyright b) (license b)
      (license_file b) (category b) (file_associations b) (bundle_short_description b) (bundle_long_description b) (external_bin b)
      (bundle_deep_links b) (deb b) (appimage b) (rpm b) (updater b) (webview_install_mode b)) (binaries s) (target s).

Definition ex_app : Settings := with_icons (Some ["icons/icon.icns"]) ex_mac_settings.
Definition ex_macos (fw : list string) : MacOsSettings :=
  mk_macos (Some fw) ∅ (Some "10.13") None (Some "Developer ID") true None (Some "e.plist") None.

Definition app_tree (r : outcome BundleError (Tree * list Tool)) : Tree := match r with Ok (t, _) => t | _ => ∅ end.
Definition app_tools (r : outcome BundleError (Tree * list Tool)) : list Tool := match r with Ok (_, l) => l | _ => [] end.
Lemma app_made r : match r with Ok _ => true | _ => false end = true → r = Ok (app_tree r, app_tools r).
Proof. by destruct r as [[]| | |]. Qed.

Definition ex_app_bundle : outcome BundleError (Tree * list Tool) := app_bundle 5 ex_app (ex_macos ["fw/S.framework"]).

Lemma ex_plain_app : plain_app ex_app.
Proof.
  split; [done|repeat constructor; done|]. intros items r Hi Hr. vm_compute in Hi. injection Hi as <-. by apply not_elem_of_nil in Hr.
Qed.

Definition ex_app_path (p : string) : PathBuf := components ("target/bundle/macos/App.app/Contents/" +:+ p).

Lemma signed_inside_out_witness :
  inside_out (signed (app_tools ex_app_bundle)) ∧
  (∃ l, signed (app_tools ex_app_bundle) = l ++ [app_bundle_path ex_app] ∧ Forall (λ p, below p (app_bundle_path ex_app)) l) ∧
  signed (app_tools ex_app_bundle) =
    [ex_app_path "Frameworks/S.framework/Versions/Current/XPCServices/D.xpc/Contents/MacOS/D";
     ex_app_path "Frameworks/S.framework/Versions/Current/XPCServices/D.xpc";
     ex_app_path "Frameworks/S.framework/Versions/Current/Libraries/l.dylib"; ex_app_path "Frameworks/S.framework";
     ex_app_path "MacOS/helper"; ex_app_path "MacOS/app"; components "target/bundle/macos/App.app"].
Proof.
  apply and_assoc. split; [|vm_compute; reflexivity].
  apply (signed_inside_out 5 ex_app (ex_macos ["fw/S.framework"]) (app_tree ex_app_bundle) (app_tools ex_app_bundle)).
  - apply app_made. vm_compute. reflexivity.
  - exact ex_plain_app.
  - apply NoDup_singleton.
  - intros E. apply (f_equal length) in E. vm_compute in E. discriminate.
Defined.

Lemma restart_starts_main_witness :
  ∃ b, b ∈ binaries ex_app ∧ main b = true ∧
    mac_restart (installed_text ex_app (app_tree ex_app_bundle) "/Applications/App.app")
        (Some (program_path "/Applications/App.app" "helper")) ["helper"; "--flag"] =
      [Installed.Spawn (collect_path (components "/Applications/App.app" ++ [Normal "Contents"; Normal "MacOS"; Normal (name b)])) ["--flag"];
       Installed.ExitProcess 0] ∧
    app_tree ex_app_bundle !! (app_bundle_path ex_app ++ [Normal "Contents"; Normal "MacOS"; Normal (name b)]) =
      Some (CopyOf (binary_path ex_app b)).
Proof.
  apply (restart_starts_main 5 ex_app (ex_macos ["fw/S.framework"]) (app_tree ex_app_bundle) (app_tools ex_app_bundle) ["data.txt"]
    (BundleResources.ResourcePaths_new ["data.txt"] true) [inr (BundleResources.mk_resource "data.txt" "data.txt")]
    "/Applications/App.app" "helper" ["helper"; "--flag"]).
  - apply app_made. vm_compute. reflexivity.
  - exact ex_plain_app.
  - intros p. by apply Forall_singleton.
  - reflexivity.
  - reflexivity.
  - reflexivity.
  - vm_compute. reflexivity.
  - done.
  - intros k _. cbn [ex_macos mac_files files_order ex_mac_pack]. rewrite map_to_list_empty. apply Forall_nil_2.
  - reflexivity.
  - by split.
Defined.

#[local] Instance ex_mac_host : Host := {|
  std_current_exe := Some "/Applications/App.app/Contents/MacOS/app";
  canonical_path p :=
    if decide (p = "/Applications/App.app/Contents/MacOS/../Resources") then Some "/Applications/App.app/Contents/Resources" else Some p;
  exists_at _ := true; env_var _ := None; args_os := []; std_temp_dir := "/tmp"; user_dir _ := None;
|}.

Lemma app_resource_found_witness :
  ∃ q k r', resolve (λ _, ok (mac_resource_dir (mac_starting_binary (λ _, false)))) "./data.txt" Resource = Ok q ∧
    components q = components "/Applications/App.app" ++ k ∧
    (inr r' : BundleResources.Item) ∈ [inr (BundleResources.mk_resource "data.txt" "data.txt")] ∧
    body (BundleResources.target r') = [Normal "data.txt"] ∧
    app_tree ex_app_bundle !! (app_bundle_path ex_app ++ k) = Some (CopyOf (components (BundleResources.path r'))).
Proof.
  apply (app_resource_found 5 ex_app (ex_macos ["fw/S.framework"]) (app_tree ex_app_bundle) (app_tools ex_app_bundle) ["data.txt"]
    (BundleResources.ResourcePaths_new ["data.txt"] true) [inr (BundleResources.mk_resource "data.txt" "data.txt")]
    (BundleResources.mk_resource "data.txt" "data.txt") "/Applications/App.app" "app").
  - apply app_made. vm_compute. reflexivity.
  - exact ex_plain_app.
  - intros p. by apply Forall_singleton.
  - reflexivity.
  - reflexivity.
  - reflexivity.
  - vm_compute. reflexivity.
  - by left.
  - cbn [ex_macos mac_files files_order ex_mac_pack]. rewrite map_to_list_empty. apply Forall_nil_2.
  - split; [reflexivity|by split|vm_compute; reflexivity|vm_compute; reflexivity].
  - vm_compute. reflexivity.
  - left. vm_compute. reflexivity.
Defined.

(** A framework that is configured by its name is copied into the bundle like
    one that is configured by its path, but it is not signed. *)
Theorem named_framework_not_signed :
  let r := app_bundle 5 ex_app (ex_macos ["SDL2"; "fw/S.framework"]) in
  app_tree r !! ex_app_path "Frameworks/SDL2.framework" = Some Directory ∧
  app_tree r !! ex_app_path "Frameworks/S.framework" = Some Directory ∧
  bool_decide (ex_app_path "Frameworks/SDL2.framework" ∈ signed (app_tools r)) = false ∧
  bool_decide (ex_app_path "Frameworks/S.framework" ∈ signed (app_tools r)) = true.
Proof. split_and!; vm_compute; reflexivity. Qed.

(** A file association without extensions ends the bundler, also when its name
    is given and the first extension is not needed; so does a protocol without
    schemes. *)
Theorem empty_association_panics s :
  document_type (mk_association [] (Some "Document") None Viewer None) = Panic "index out of bounds: the len is 0 but the index is 0" ∧
  url_type s (mk_deep_link [] (Some "App") Viewer) = Panic "index out of bounds: the len is 0 but the index is 0".
Proof. done. Qed.

(** An icon whose size is not the size of a type of icons is not passed over:
    no bundle is made. *)
Theorem odd_icon_refused :
  app_bundle 5 (with_icons (Some ["icons/wide.png"]) ex_mac_settings) (ex_macos []) = Err (PackagerError "No matching IconType").
Proof. vm_compute. reflexivity. Qed.

(** The files of a bundle for iOS are where their sources are, whatever targets
    they are configured with. *)
Theorem ios_ignores_resource_targets :
  let t := tree_of (ios_project (FS := LinuxPackages.ex_resource_fs) (PL := LinuxPackages.ex_pack) ex_map) in
  t !! components "target/bundle/ios/app.app/data.txt" = Some (CopyOf [Normal "data.txt"]) ∧
  t !! components "target/bundle/ios/app.app/texts/renamed.txt" = None.
Proof. split; vm_compute; reflexivity. Qed.

(** The texts of the property list for iOS are written as they are: a name with
    an ampersand does not make an XML file. *)
Theorem ios_plist_not_escaped s icons l :
  ios_info_plist s icons = Ok l → "  <string>" +:+ product_name (package s) +:+ "</string>" ∈ l.
Proof. unfold ios_info_plist. intros (main & _ & [= <-])%bind_ok. do 7 right. left. Qed.

End MacBundle.
