(* ===== verification/Serde.v ===== *)
(** * Types with a serialization

    Models what the derived [Serialize] and [Deserialize] of [serde] do for the
    structures of the repository on a [serde_json::Value]: fields with their
    names, aliases and defaults, unknown and repeated fields, structures given
    as arrays, enumerations of every representation. A structure is described
    by its fields in the order of its declaration; reading, writing and the
    theorem that a value that was written is read back are given once, for the
    description. Why a value is refused is not modelled. *)
From Stdlib Require Import Ascii SpecFloat.
From S2P Require Import Prelude Acl Values.
Import Values.

Module Serde.
#[local] Open Scope stdpp_scope.
#[local] Open Scope nat_scope.

Section Serde.
Context {SL : SerdeLib}.

Abbreviation obj := (list (string * json)).

(** ** Codecs *)

(** How a type is written and read; [valid] is what can be written. *)
Record Codec (A : Type) := mk_codec {
  encode : A → json;
  decode : json → option A;
  valid : A → Prop;
}.
#[global] Arguments mk_codec {A} _ _ _.
#[global] Arguments encode {A} _ _.
#[global] Arguments decode {A} _ _.
#[global] Arguments valid {A} _ _.

(** What is written is read back. *)
Class Lawful {A} (c : Codec A) : Prop := lawful a : valid c a → decode c (encode c a) = Some a.

(** Null is not written, so that it can stand for [None]. *)
Class NotNull {A} (c : Codec A) : Prop := not_null a : valid c a → encode c a ≠ JNull.

Definition string_codec : Codec string :=
  mk_codec JString (λ v, match v with JString s => Some s | _ => None end) (λ _, True).
Definition bool_codec : Codec bool :=
  mk_codec JBool (λ v, match v with JBool b => Some b | _ => None end) (λ _, True).
Definition json_codec : Codec json := mk_codec id Some (λ _, True).

(** Integers up to a maximum, as [u8] and [u32]. *)
Definition uint_codec (max : Z) : Codec Z :=
  mk_codec (λ z, JNumber (from_i64 z))
    (λ v, match v with JNumber n => z ← as_u64 n; if decide (0 ≤ z ≤ max)%Z then Some z else None | _ => None end)
    (λ z, 0 ≤ z ≤ max)%Z.
Definition u8_codec : Codec Z := uint_codec 255.
Definition u32_codec : Codec Z := uint_codec (2 ^ 32 - 1).

Definition i32_codec : Codec Z :=
  mk_codec (λ z, JNumber (from_i64 z))
    (λ v, match v with
          | JNumber n => z ← as_i64 n; if decide (- 2 ^ 31 ≤ z < 2 ^ 31)%Z then Some z else None
          | _ => None
          end)
    (λ z, - 2 ^ 31 ≤ z < 2 ^ 31)%Z.

(** A float that JSON has not is written as null. *)
Definition f64_codec : Codec spec_float :=
  mk_codec (λ f, match from_f64 f with Some n => JNumber n | None => JNull end)
    (λ v, match v with JNumber n => as_f64 n | _ => None end)
    (λ f, is_Some (from_f64 f)).

(** A codec for a type with an invariant of its own. *)
Definition check_codec {A} (c : Codec A) (f : A → option A) : Codec A :=
  mk_codec (encode c) (λ v, decode c v ≫= f) (λ a, valid c a ∧ f a = Some a).

Definition list_codec {A} (c : Codec A) : Codec (list A) :=
  mk_codec (λ l, JArray (encode c <$> l))
    (λ v, match v with JArray l => mapM (decode c) l | _ => None end)
    (Forall (valid c)).

(** [HashMap]: the last of equal keys counts. *)
Definition map_codec {A} (c : Codec A) : Codec (gmap string A) :=
  mk_codec (λ m, JObject ((λ e, (e.1, encode c e.2)) <$> map_to_list m))
    (λ v, match v with
          | JObject l => (λ l, list_to_map (rev l)) <$> mapM (λ e, a ← decode c e.2; Some (e.1, a)) l
          | _ => None
          end)
    (map_Forall (λ _, valid c)).

Definition option_codec {A} (c : Codec A) : Codec (option A) :=
  mk_codec (λ o, match o with Some a => encode c a | None => JNull end)
    (λ v, match v with JNull => Some None | _ => Some <$> decode c v end)
    (λ o, match o with Some a => valid c a | None => True end).

(** ** Enumerations *)

(** Variants without data: by name, or an object of the name with null. *)
Definition enum_codec {A} (all : list A) (name : A → string) : Codec A :=
  let of_name n := List.find (λ a, bool_decide (name a = n)) all in
  mk_codec (λ a, JString (name a))
    (λ v, match v with JString n => of_name n | JObject [(n, JNull)] => of_name n | _ => None end)
    (λ a, a ∈ all).

(** [untagged]: the first variant that reads the value. *)
Fixpoint first_of {A} (variants : list (json → option A)) (v : json) : option A :=
  match variants with
  | [] => None
  | f :: variants => match f v with Some a => Some a | None => first_of variants v end
  end.

(** ** Names *)
Definition is_lower (c : ascii) : bool := (97 <=? nat_of_ascii c) && (nat_of_ascii c <=? 122).
Definition is_upper (c : ascii) : bool := (65 <=? nat_of_ascii c) && (nat_of_ascii c <=? 90).
Definition to_upper (c : ascii) : ascii := if is_lower c then ascii_of_nat (nat_of_ascii c - 32) else c.
Definition to_lower (c : ascii) : ascii := if is_upper c then ascii_of_nat (nat_of_ascii c + 32) else c.

(** [rename_all = camelCase] of a field and of a variant, and [lowercase]. *)
Fixpoint pascal_case (capitalize : bool) (s : string) : string :=
  match s with
  | EmptyString => ""
  | String c s =>
      if decide (c = "_"%char) then pascal_case true s
      else String (if capitalize then to_upper c else c) (pascal_case false s)
  end.
Definition camel_variant (s : string) : string :=
  match s with EmptyString => "" | String c s => String (to_lower c) s end.
Definition camel (s : string) : string := camel_variant (pascal_case true s).

(** ** Structures *)

(** A field: the name it is written with, other names it is read by, its type,
    what it is when it is missing in an object and at the end of an array, and
    when it is not written. *)
Record Field (A : Type) := mk_field {
  key : string;
  aliases : list string;
  codec : Codec A;
  when_missing : option A;
  at_end : option A;
  skipped : A → bool;
}.
#[global] Arguments mk_field {A} _ _ _ _ _ _.
#[global] Arguments key {A} _.
#[global] Arguments aliases {A} _.
#[global] Arguments codec {A} _.
#[global] Arguments when_missing {A} _.
#[global] Arguments at_end {A} _.
#[global] Arguments skipped {A} _ _.

Definition names {A} (f : Field A) : list string := key f :: aliases f.

Definition is_none {A} (o : option A) : bool := match o with Some _ => false | None => true end.

(** A field that must be there, one with [default], an [Option], and one with
    [default]; [skip] is [skip_serializing_none]. *)
Definition required {A} (k : string) (al : list string) (c : Codec A) : Field A := mk_field k al c None None (λ _, false).
Definition defaulted {A} (k : string) (al : list string) (d : A) (c : Codec A) : Field A :=
  mk_field k al c (Some d) (Some d) (λ _, false).
Definition optional {A} (skip : bool) (k : string) (al : list string) (c : Codec A) : Field (option A) :=
  mk_field k al (option_codec c) (Some None) None (λ o, skip && is_none o).
Definition optional_default {A} (skip : bool) (k : string) (al : list string) (c : Codec A) : Field (option A) :=
  mk_field k al (option_codec c) (Some None) (Some None) (λ o, skip && is_none o).

(** The fields of [R] in their order, around the function that builds it. *)
Inductive Struct (R : Type) : Type → Type :=
| Build {A} (a : A) : Struct R A
| With {A B} (s : Struct R (A → B)) (f : Field A) (get : R → A) : Struct R B.
#[global] Arguments Build {R A} _.
#[global] Arguments With {R A B} _ _ _.

Fixpoint all_names {R B} (s : Struct R B) : list string :=
  match s with Build _ => [] | With s f _ => all_names s ++ names f end.

(** *** Writing *)
Definition entry {A} (f : Field A) (a : A) : obj := if skipped f a then [] else [(key f, encode (codec f) a)].
Fixpoint entries {R B} (s : Struct R B) (r : R) : obj :=
  match s with Build _ => [] | With s f get => entries s r ++ entry f (get r) end.

(** *** Reading *)
Definition values (ns : list string) (m : obj) : list json := (filter (λ e, e.1 ∈ ns) m).*2.

Definition field_value {A} (f : Field A) (m : obj) : option A :=
  match values (names f) m with
  | [] => when_missing f
  | [v] => decode (codec f) v
  | _ => None
  end.

Fixpoint from_map {R B} (s : Struct R B) (m : obj) : option B :=
  match s with
  | Build a => Some a
  | With s f _ => g ← from_map s m; a ← field_value f m; Some (g a)
  end.

(** The elements of an array are the fields in their order. *)
Fixpoint from_seq {R B} (s : Struct R B) (l : list json) : option (B * list json) :=
  match s with
  | Build a => Some (a, l)
  | With s f _ =>
      '(g, l) ← from_seq s l;
      match l with
      | [] => a ← at_end f; Some (g a, [])
      | v :: l => a ← decode (codec f) v; Some (g a, l)
      end
  end.

Definition unknown {R B} (s : Struct R B) (m : obj) : bool := existsb (λ e, bool_decide (e.1 ∉ all_names s)) m.

(** The fields in an object; [deny] is [deny_unknown_fields]. *)
Definition read_object {R B} (deny : bool) (s : Struct R B) (m : obj) : option B :=
  if deny && unknown s m then None else from_map s m.

Definition read_struct {R B} (deny : bool) (s : Struct R B) (v : json) : option B :=
  match v with
  | JObject m => read_object deny s m
  | JArray l => match from_seq s l with Some (b, []) => Some b | _ => None end
  | _ => None
  end.

(** A variant with fields of an [untagged] enumeration is not read from an
    array. *)
Definition read_variant {R B} (deny : bool) (s : Struct R B) (v : json) : option B :=
  match v with JObject m => read_object deny s m | _ => None end.

Fixpoint valid_struct {R B} (s : Struct R B) (r : R) : Prop :=
  match s with Build _ => True | With s f get => valid_struct s r ∧ valid (codec f) (get r) end.

Definition struct_codec {R} (deny : bool) (s : Struct R R) : Codec R :=
  mk_codec (λ r, JObject (entries s r)) (read_struct deny s) (valid_struct s).

(** What the fields of a value build. *)
Fixpoint built {R B} (s : Struct R B) (r : R) : B :=
  match s with Build a => a | With s f get => built s r (get r) end.

(** Every missing field has a default. *)
Definition default_of {R} (s : Struct R R) : option R := from_map s [].

End Serde.

Declare Scope serde_scope.
Notation "s '|+' f '@' get" := (With s f get) (at level 50, f at level 40, left associativity) : serde_scope.
Delimit Scope serde_scope with serde.

(** ** Laws *)
Section Laws.
Context {SL : SerdeLib}.

#[global] Instance string_lawful : Lawful string_codec.
Proof. done. Qed.
#[global] Instance bool_lawful : Lawful bool_codec.
Proof. done. Qed.
#[global] Instance json_lawful : Lawful json_codec.
Proof. done. Qed.
#[global] Instance string_not_null : NotNull string_codec.
Proof. done. Qed.
#[global] Instance bool_not_null : NotNull bool_codec.
Proof. done. Qed.
#[global] Instance uint_not_null max : NotNull (uint_codec max).
Proof. done. Qed.
#[global] Instance list_not_null {A} (c : Codec A) : NotNull (list_codec c).
Proof. done. Qed.
#[global] Instance map_not_null {A} (c : Codec A) : NotNull (map_codec c).
Proof. done. Qed.
#[global] Instance enum_not_null {A} all (name : A → string) : NotNull (enum_codec all name).
Proof. done. Qed.
#[global] Instance struct_not_null {R} deny (s : Struct R R) : NotNull (struct_codec deny s).
Proof. done. Qed.
#[global] Instance check_not_null {A} (c : Codec A) f : NotNull c → NotNull (check_codec c f).
Proof. intros H a [Hv _]. by apply H. Qed.

#[global] Instance check_lawful {A} (c : Codec A) f : Lawful c → Lawful (check_codec c f).
Proof. intros Hc a [Hv Hf]. cbn. by rewrite Hc. Qed.

Lemma mapM_fmap {A B} (f : A → B) (g : B → option A) l :
  Forall (λ a, g (f a) = Some a) l → mapM g (f <$> l) = Some l.
Proof. induction 1 as [|a l Ha _ IH]; [done|]. cbn. by rewrite Ha, IH. Qed.

#[global] Instance list_lawful {A} (c : Codec A) : Lawful c → Lawful (list_codec c).
Proof. intros Hc l Hv. cbn. apply mapM_fmap. eapply Forall_impl; [exact Hv|]. intros a. apply Hc. Qed.

#[global] Instance map_lawful {A} (c : Codec A) : Lawful c → Lawful (map_codec c).
Proof.
  intros Hc m Hv. cbn. rewrite (mapM_fmap (λ e : string * A, (e.1, encode c e.2)) (λ e, a ← decode c e.2; Some (e.1, a))).
  - cbn. f_equal. rewrite <- (list_to_map_to_list m) at 2. symmetry. apply list_to_map_proper; [apply NoDup_fst_map_to_list|].
    by rewrite <- Permutation_rev.
  - apply Forall_forall. intros [k a] Hka%elem_of_map_to_list. cbn. by rewrite Hc by by apply (Hv k).
Qed.

#[global] Instance option_lawful {A} (c : Codec A) : Lawful c → NotNull c → Lawful (option_codec c).
Proof.
  intros Hc Hn [a|] Hv; [|done]. cbn. specialize (Hn a Hv). specialize (Hc a Hv).
  destruct (encode c a); [done|by rewrite Hc..].
Qed.

Lemma enum_lawful {A} (all : list A) (name : A → string) : NoDup (name <$> all) → Lawful (enum_codec all name).
Proof.
  intros Hn a Ha. cbn in *. induction all as [|b all IH]; [by apply not_elem_of_nil in Ha|]. cbn in *.
  apply NoDup_cons in Hn as [Hb Hn]. case_bool_decide as E.
  - apply elem_of_cons in Ha as [->|Ha]; [done|]. exfalso. apply Hb. rewrite E. by apply list_elem_of_fmap_2.
  - apply IH; [done|]. apply elem_of_cons in Ha as [->|Ha]; [by destruct E|done].
Qed.

Lemma read_first {A} (f : json → option A) fs v a : f v = Some a → first_of (f :: fs) v = Some a.
Proof. intros H. cbn. by rewrite H. Qed.
Lemma read_second {A} (f g : json → option A) fs v a : f v = None → g v = Some a → first_of (f :: g :: fs) v = Some a.
Proof. intros Hf Hg. cbn. by rewrite Hf, Hg. Qed.
Lemma read_third {A} (f g h : json → option A) fs v a :
  f v = None → g v = None → h v = Some a → first_of (f :: g :: h :: fs) v = Some a.
Proof. intros Hf Hg Hh. cbn. by rewrite Hf, Hg, Hh. Qed.

(** *** Fields *)
Class LawfulField {A} (f : Field A) : Prop := {
  field_codec :: Lawful (codec f);
  field_skipped a : valid (codec f) a → skipped f a = true → when_missing f = Some a;
}.

#[global] Instance required_lawful {A} k al (c : Codec A) : Lawful c → LawfulField (required k al c).
Proof. by split. Qed.
#[global] Instance defaulted_lawful {A} k al d (c : Codec A) : Lawful c → LawfulField (defaulted k al d c).
Proof. by split. Qed.
#[global] Instance optional_lawful {A} skip k al (c : Codec A) : Lawful c → NotNull c → LawfulField (optional skip k al c).
Proof. split; [apply _|]. intros [a|] _; cbn; [by rewrite andb_false_r|done]. Qed.
#[global] Instance optional_default_lawful {A} skip k al (c : Codec A) :
  Lawful c → NotNull c → LawfulField (optional_default skip k al c).
Proof. split; [apply _|]. intros [a|] _; cbn; [by rewrite andb_false_r|done]. Qed.

(** *** Structures *)
Fixpoint lawful_fields {R B} (s : Struct R B) : Prop :=
  match s with Build _ => True | With s f _ => lawful_fields s ∧ LawfulField f end.

Lemma values_app ns m m' : values ns (m ++ m') = values ns m ++ values ns m'.
Proof. unfold values. by rewrite filter_app, fmap_app. Qed.

Lemma values_none ns m : (∀ k, k ∈ ns → k ∉ m.*1) → values ns m = [].
Proof.
  intros H. unfold values. induction m as [|[k v] m IH]; [done|].
  rewrite filter_cons_False; [apply IH; set_solver|]. cbn. intros Hk. apply (H k Hk). set_solver.
Qed.

Lemma from_map_app {R B} (s : Struct R B) m m' :
  (∀ k, k ∈ all_names s → k ∉ m'.*1) → from_map s (m ++ m') = from_map s m.
Proof.
  induction s as [A a|A B s IH f get]; intros H; [done|]. cbn [from_map all_names] in *.
  rewrite IH by set_solver. unfold field_value. rewrite values_app, (values_none _ m'), app_nil_r by set_solver. done.
Qed.

Lemma entries_named {R B} (s : Struct R B) r k : k ∈ (entries s r).*1 → k ∈ all_names s.
Proof.
  induction s as [A a|A B s IH f get]; cbn; [done|]. rewrite fmap_app, !elem_of_app. intros [Hk|Hk]; [by left; apply IH|].
  right. unfold entry in Hk. destruct (skipped f (get r)); cbn in Hk; set_solver.
Qed.

Lemma entry_reads {A} (f : Field A) a m :
  Lawful (codec f) → (skipped f a = false → valid (codec f) a) → (∀ k, k ∈ names f → k ∉ m.*1) →
  field_value f (m ++ entry f a) = if skipped f a then when_missing f else Some a.
Proof.
  intros Hf Hv Hm. unfold field_value. rewrite values_app, (values_none _ m) by done. cbn [app]. unfold entry.
  destruct (skipped f a); [done|]. unfold values.
  rewrite filter_cons_True by (cbn; set_solver). cbn. by apply Hf, Hv.
Qed.

(** What is read of the fields that were written: one that was not is what it
    is when it is missing. *)
Fixpoint rebuilt {R B} (s : Struct R B) (r : R) : option B :=
  match s with
  | Build a => Some a
  | With s f get => g ← rebuilt s r; a ← (if skipped f (get r) then when_missing f else Some (get r)); Some (g a)
  end.
Fixpoint lawful_codecs {R B} (s : Struct R B) : Prop :=
  match s with Build _ => True | With s f _ => lawful_codecs s ∧ Lawful (codec f) end.
Fixpoint written_valid {R B} (s : Struct R B) (r : R) : Prop :=
  match s with Build _ => True | With s f get => written_valid s r ∧ (skipped f (get r) = false → valid (codec f) (get r)) end.

Lemma from_entries {R B} (s : Struct R B) r :
  NoDup (all_names s) → lawful_codecs s → written_valid s r → from_map s (entries s r) = rebuilt s r.
Proof.
  induction s as [A a|A B s IH f get]; cbn; [done|]. intros (Hs & Hd & _)%NoDup_app [Hl Hf] [Hv Hg].
  rewrite from_map_app, IH by (done || (intros k Hk He; apply (Hd k Hk);
    unfold entry in He; destruct (skipped f (get r)); cbn in He; set_solver)).
  f_equal. rewrite entry_reads; [done|done|done|]. intros k Hk He%entries_named. by apply (Hd k).
Qed.

Lemma rebuilt_built {R B} (s : Struct R B) r :
  lawful_fields s → valid_struct s r → lawful_codecs s ∧ written_valid s r ∧ rebuilt s r = Some (built s r).
Proof.
  induction s as [A a|A B s IH f get]; cbn; [done|]. intros [Hl Hf] [Hv Hg]. destruct (IH Hl Hv) as (Hc & Hw & ->).
  split_and!; [done|apply _|done|done|]. cbn. destruct (skipped f (get r)) eqn:E; [|done]. by rewrite (field_skipped (get r)).
Qed.

Lemma entries_known {R B} (s : Struct R B) r : unknown s (entries s r) = false.
Proof.
  unfold unknown. apply not_true_iff_false. intros (e & He & Hb%bool_decide_eq_true)%existsb_exists.
  apply Hb, (entries_named s r). apply list_elem_of_fmap_2, list_elem_of_In, He.
Qed.

(** A value that was written is read back, whatever the fields are. *)
Lemma object_reads {R} deny (s : Struct R R) r :
  bool_decide (NoDup (all_names s)) = true → lawful_fields s → built s r = r → valid_struct s r →
  read_object deny s (entries s r) = Some r.
Proof.
  intros Hn%bool_decide_eq_true Hl Hb Hv. unfold read_object. rewrite entries_known, andb_false_r.
  destruct (rebuilt_built s r Hl Hv) as (Hc & Hw & Hr). by rewrite from_entries, Hr, Hb.
Qed.

Lemma struct_lawful {R} deny (s : Struct R R) :
  bool_decide (NoDup (all_names s)) = true → lawful_fields s → (∀ r, built s r = r) → Lawful (struct_codec deny s).
Proof. intros Hn Hl Hb r Hv. by apply object_reads. Qed.

(** *** Objects that were not written *)

(** The order of the fields does not matter. *)
Lemma from_map_perm {R B} (s : Struct R B) m m' : m ≡ₚ m' → from_map s m = from_map s m'.
Proof.
  intros Hp. induction s as [A a|A B s IH f get]; [done|]. cbn. rewrite IH. f_equal.
  assert (field_value f m = field_value f m') as ->; [|done]. unfold field_value.
  assert (values (names f) m ≡ₚ values (names f) m') as Hv by (unfold values; by rewrite Hp).
  destruct (values (names f) m) as [|v [|v' l]].
  - by apply Permutation_nil_l in Hv as <-.
  - apply Permutation_length_1_inv in Hv. by rewrite Hv.
  - apply Permutation_length in Hv. by destruct (values (names f) m') as [|? [|? ?]].
Qed.

(** A field is refused when it is given twice, under whatever names. *)
Lemma field_twice {A} (f : Field A) m m' k k' v v' :
  k ∈ names f → k' ∈ names f → field_value f ((k, v) :: m ++ (k', v') :: m') = None.
Proof.
  intros Hk Hk'. unfold field_value, values. rewrite filter_cons_True, filter_app, filter_cons_True by done. cbn.
  rewrite fmap_app. cbn. by destruct ((filter _ m).*2).
Qed.

(** An unknown field is refused where the structure says so. *)
Lemma unknown_refused {R B} (s : Struct R B) k v m :
  k ∉ all_names s → (k, v) ∈ m → read_object true s m = None.
Proof.
  intros Hk Hin. unfold read_object. assert (unknown s m = true) as ->; [|done].
  apply existsb_exists. exists (k, v). split; [by apply list_elem_of_In|]. by apply bool_decide_eq_true.
Qed.

(** A structure is refused without a field that it needs. *)
Fixpoint needs {R B} (s : Struct R B) (k : string) : Prop :=
  match s with Build _ => False | With s f _ => needs s k ∨ (names f = [k] ∧ when_missing f = None) end.

Lemma needed_refused {R B} (s : Struct R B) k m deny : needs s k → k ∉ m.*1 → read_object deny s m = None.
Proof.
  intros Hn Hk. unfold read_object. destruct (deny && unknown s m); [done|]. revert Hn.
  induction s as [A a|A B s IH f get]; cbn; [done|]. intros [Hn|[Hf Hm]]; [by rewrite IH|].
  destruct (from_map s m); [|done]. cbn. unfold field_value. rewrite values_none; [by rewrite Hm|].
  rewrite Hf. by intros k' ->%list_elem_of_singleton.
Qed.

(** A name of a field can be replaced by another one. *)
Fixpoint same_field {R B} (s : Struct R B) (k k' : string) : bool :=
  match s with
  | Build _ => true
  | With s f _ => eqb (bool_decide (k ∈ names f)) (bool_decide (k' ∈ names f)) && same_field s k k'
  end.

Lemma alias_reads {R B} (s : Struct R B) k k' v m m' :
  same_field s k k' = true → from_map s (m ++ (k, v) :: m') = from_map s (m ++ (k', v) :: m').
Proof.
  induction s as [A a|A B s IH f get]; [done|]. cbn. intros [Hf%eqb_prop Hs]%andb_true_iff. rewrite IH by done. f_equal.
  assert (values (names f) (m ++ (k, v) :: m') = values (names f) (m ++ (k', v) :: m')) as Hv; [|unfold field_value; by rewrite Hv].
  rewrite !values_app. f_equal. unfold values. destruct (decide (k ∈ names f)) as [Hk|Hk].
  - rewrite (bool_decide_eq_true_2 _ Hk) in Hf. symmetry in Hf. apply bool_decide_eq_true in Hf. by rewrite !filter_cons_True.
  - rewrite (bool_decide_eq_false_2 _ Hk) in Hf. symmetry in Hf. apply bool_decide_eq_false in Hf. by rewrite !filter_cons_False.
Qed.

End Laws.
End Serde.
