(* ===== verification/ConfigData.v ===== *)
(** * The configuration as data

    Models [tauri-utils/Source/config.rs]: the types of the configuration with
    their fields, defaults and representations, as the descriptions of [Serde];
    the types of [lib.rs] and of [acl/capability.rs], [acl/value.rs] that they
    are made of; and what the file has as functions of its own, colors and the
    versions of packages. Paths and the texts of urls are strings: a url is what
    the package [url] writes for it. *)
From Stdlib Require Import Ascii SpecFloat.
From S2P Require Import Prelude Identifier Acl Values Csp FsScope BuildSupport MigrateConfig Bundler CargoManifest AppAssets Runtime ConfigFiles TauriBuild WindowsInstallers Serde.
Import Identifier.Identifier Acl Values Serde.

(** The package [url]: what it makes of a text, and the scheme of that. *)
Class UrlText := {
  url_parse : string → option string;
  url_scheme : string → string;
}.

(** The packages [uuid] and [semver], and the file system of a version. *)
Class VersionLib := {
  uuid_parse : string → option string;
  semver_parse : string → option string;
  version_path_exists : string → bool;
}.

Module ConfigData.
#[local] Open Scope stdpp_scope.
#[local] Open Scope nat_scope.
#[local] Open Scope serde_scope.

(** ** Types of [config.rs] and [lib.rs] *)
Inductive WebviewUrl := External (url : string) | App (path : string) | CustomProtocol (url : string).

Record AppImageConfig := mk_app_image { bundle_media_framework : bool; appimage_files : gmap string string }.

Record DebConfig := mk_deb {
  deb_depends : option (list string);
  deb_recommends : option (list string);
  deb_provides : option (list string);
  deb_conflicts : option (list string);
  deb_replaces : option (list string);
  deb_files : gmap string string;
  deb_section : option string;
  deb_priority : option string;
  deb_changelog : option string;
  deb_desktop_template : option string;
  deb_pre_install_script : option string;
  deb_post_install_script : option string;
  deb_pre_remove_script : option string;
  deb_post_remove_script : option string;
}.

Record RpmConfig := mk_rpm {
  rpm_depends : option (list string);
  rpm_recommends : option (list string);
  rpm_provides : option (list string);
  rpm_conflicts : option (list string);
  rpm_obsoletes : option (list string);
  rpm_release : string;
  rpm_epoch : Z;
  rpm_files : gmap string string;
  rpm_desktop_template : option string;
  rpm_pre_install_script : option string;
  rpm_post_install_script : option string;
  rpm_pre_remove_script : option string;
  rpm_post_remove_script : option string;
  rpm_compression : option Bundler.RpmCompression;
}.

Record LinuxConfig := mk_linux { appimage : AppImageConfig; deb : DebConfig; rpm : RpmConfig }.

Record Position := mk_position { x : Z; y : Z }.
Record Size := mk_size { width : Z; height : Z }.

Record DmgConfig := mk_dmg {
  background : option string;
  window_position : option Position;
  window_size : Size;
  app_position : Position;
  application_folder_position : Position;
}.

Record MacConfig := mk_mac {
  mac_frameworks : option (list string);
  mac_files : gmap string string;
  mac_minimum_system_version : option string;
  exception_domain : option string;
  signing_identity : option string;
  hardened_runtime : bool;
  provider_short_name : option string;
  entitlements : option string;
  dmg : DmgConfig;
}.

Record WixLanguageConfig := mk_wix_language { locale_path : option string }.
Inductive WixLanguage := OneLanguage (s : string) | LanguageList (l : list string) | Localized (m : gmap string WixLanguageConfig).

Record WixConfig := mk_wix {
  wix_version : option string;
  upgrade_code : option string;
  wix_language : WixLanguage;
  wix_template : option string;
  fragment_paths : list string;
  component_group_refs : list string;
  component_refs : list string;
  feature_group_refs : list string;
  feature_refs : list string;
  merge_refs : list string;
  enable_elevated_update_task : bool;
  banner_path : option string;
  dialog_image_path : option string;
}.

Record NsisConfig := mk_nsis {
  nsis_template : option string;
  header_image : option string;
  sidebar_image : option string;
  installer_icon : option string;
  install_mode : WindowsInstallers.NSISInstallerMode;
  languages : option (list string);
  custom_language_files : option (gmap string string);
  display_language_selector : bool;
  compression : WindowsInstallers.NsisCompression;
  start_menu_folder : option string;
  installer_hooks : option string;
  minimum_webview2_version : option string;
}.

Inductive WebviewInstallMode :=
| Skip
| DownloadBootstrapper (silent : bool)
| EmbedBootstrapper (silent : bool)
| OfflineInstaller (silent : bool)
| FixedRuntime (path : string).

Inductive CustomSignCommandConfig := Command (s : string) | CommandWithOptions (cmd : string) (args : list string).

Record WindowsConfig := mk_windows {
  digest_algorithm : option string;
  certificate_thumbprint : option string;
  timestamp_url : option string;
  tsp : bool;
  webview_install_mode : WebviewInstallMode;
  allow_downgrades : bool;
  wix : option WixConfig;
  nsis : option NsisConfig;
  sign_command : option CustomSignCommandConfig;
}.

Inductive BundleResources := ResourcesList (l : list string) | ResourcesMap (m : gmap string string).

Inductive V1Compatible := IsV1Compatible.
Inductive Updater := UpdaterString (v : V1Compatible) | UpdaterBool (b : bool).

Record IosConfig := mk_ios {
  ios_template : option string;
  ios_frameworks : option (list string);
  development_team : option string;
  ios_minimum_system_version : string;
}.

Record AndroidConfig := mk_android { min_sdk_version : Z; version_code : option Z }.

Record BundleConfig := mk_bundle {
  active : bool;
  targets : Bundler.BundleTarget;
  create_updater_artifacts : Updater;
  publisher : option string;
  homepage : option string;
  icon : list string;
  resources : option BundleResources;
  copyright : option string;
  license : option string;
  license_file : option string;
  category : option string;
  file_associations : option (list Bundler.FileAssociation);
  short_description : option string;
  long_description : option string;
  use_local_tools_dir : bool;
  external_bin : option (list string);
  windows : WindowsConfig;
  linux : LinuxConfig;
  macos : MacConfig;
  ios : IosConfig;
  android : AndroidConfig;
}.

Record Color := mk_color { red : Z; green : Z; blue : Z; alpha : Z }.

Inductive WindowEffect :=
| AppearanceBased | EffectLight | EffectDark | MediumLight | UltraDark | Titlebar | Selection | Menu | Popover | Sidebar
| HeaderView | Sheet | WindowBackground | HudWindow | FullScreenUI | Tooltip | ContentBackground | UnderWindowBackground
| UnderPageBackground | Mica | MicaDark | MicaLight | Tabbed | TabbedDark | TabbedLight | Blur | Acrylic.
Inductive WindowEffectState := FollowsWindowActiveState | Active | Inactive.
Inductive TitleBarStyle := Visible | Transparent | Overlay.

#[global] Instance WindowEffect_eq_dec : EqDecision WindowEffect.
Proof. solve_decision. Defined.

Record WindowEffectsConfig := mk_effects {
  effects : list WindowEffect;
  effect_state : option WindowEffectState;
  radius : option spec_float;
  effect_color : option Color;
}.

Record WindowConfig := mk_window {
  label : string;
  create : bool;
  url : WebviewUrl;
  user_agent : option string;
  drag_drop_enabled : bool;
  center : bool;
  window_x : option spec_float;
  window_y : option spec_float;
  window_width : spec_float;
  window_height : spec_float;
  min_width : option spec_float;
  min_height : option spec_float;
  max_width : option spec_float;
  max_height : option spec_float;
  resizable : bool;
  maximizable : bool;
  minimizable : bool;
  closable : bool;
  title : string;
  fullscreen : bool;
  focus : bool;
  transparent : bool;
  maximized : bool;
  visible : bool;
  decorations : bool;
  always_on_bottom : bool;
  always_on_top : bool;
  visible_on_all_workspaces : bool;
  content_protected : bool;
  skip_taskbar : bool;
  window_classname : option string;
  theme : option Messages.Theme;
  title_bar_style : TitleBarStyle;
  hidden_title : bool;
  accept_first_mouse : bool;
  tabbing_identifier : option string;
  additional_browser_args : option string;
  shadow : bool;
  window_effects : option WindowEffectsConfig;
  incognito : bool;
  parent : option string;
  proxy_url : option string;
  zoom_hotkeys_enabled : bool;
  browser_extensions_enabled : bool;
  use_https_scheme : bool;
  devtools : option bool;
  background_color : option Color;
}.

Record AssetProtocolConfig := mk_asset_protocol { asset_scope : FsScope.FsScopeConfig; asset_enable : bool }.

Record SecurityConfig := mk_security {
  csp : option Csp.Csp;
  dev_csp : option Csp.Csp;
  freeze_prototype : bool;
  dangerous_disable_asset_csp_modification : Csp.DisabledCspModificationKind;
  asset_protocol : AssetProtocolConfig;
  pattern : CargoManifest.PatternKind;
  capabilities : list TauriBuild.CapabilityEntry;
  headers : option Csp.HeaderConfig;
}.

Record TrayIconConfig := mk_tray {
  tray_id : option string;
  icon_path : string;
  icon_as_template : bool;
  menu_on_left_click : bool;
  show_menu_on_left_click : bool;
  tray_title : option string;
  tray_tooltip : option string;
}.

Record AppConfig := mk_app {
  app_windows : list WindowConfig;
  security : SecurityConfig;
  tray_icon : option TrayIconConfig;
  macos_private_api : bool;
  with_global_tauri : bool;
  enable_gtk_app_id : bool;
}.

Inductive FrontendDist := DistUrl (url : string) | DistDirectory (path : string) | DistFiles (files : list string).
Inductive BeforeDevCommand := DevScript (s : string) | DevWithOptions (script : string) (cwd : option string) (wait : bool).
Inductive HookCommand := HookScript (s : string) | HookWithOptions (script : string) (cwd : option string).

Record BuildConfig := mk_build_config {
  config_runner : option string;
  dev_url : option string;
  frontend_dist : option FrontendDist;
  before_dev_command : option BeforeDevCommand;
  before_build_command : option HookCommand;
  before_bundle_command : option HookCommand;
  config_features : option (list string);
}.

Record Config `{SL : SerdeLib} := mk_config {
  schema : option string;
  product_name : option string;
  main_binary_name : option string;
  version : option string;
  identifier : string;
  app : AppConfig;
  build : BuildConfig;
  bundle : BundleConfig;
  plugins : gmap string json;
}.


(** ** Colors *)

Definition color_of_tuple (l : list Z) : option Color :=
  match l with
  | [r; g; b] => Some (mk_color r g b 255)
  | [r; g; b; a] => Some (mk_color r g b a)
  | _ => None
  end.

(** The characters of a text, as their bytes. *)
Fixpoint char_bytes (fuel : nat) (l : list ascii) : list (list ascii) :=
  match fuel, l with
  | S fuel, c :: _ =>
      let n := match AppAssets.utf8_lead (nat_of_ascii c) with Some (n, _) => n | None => 1 end in
      take n l :: char_bytes fuel (drop n l)
  | _, _ => []
  end.

(** Whether a text can be cut before a byte. *)
Definition is_char_boundary (l : list ascii) (i : nat) : bool :=
  match l !! i with
  | Some c => (nat_of_ascii c <? 128) || (192 <=? nat_of_ascii c)
  | None => i =? length l
  end.

Definition slice2 (l : list ascii) (i : nat) : outcome string (list ascii) :=
  if is_char_boundary l i && is_char_boundary l (i + 2) then Ok (take 2 (drop i l))
  else Panic "byte index is not a char boundary".

Definition hex_value (c : ascii) : option Z :=
  let n := Z.of_nat (nat_of_ascii c) in
  if decide (48 ≤ n ≤ 57)%Z then Some (n - 48)%Z
  else if decide (65 ≤ n ≤ 70)%Z then Some (n - 55)%Z
  else if decide (97 ≤ n ≤ 102)%Z then Some (n - 87)%Z
  else None.

(** [u8::from_str_radix] of two bytes: a sign may come first. *)
Definition hex_digits (l : list ascii) : list ascii :=
  match l with c :: (_ :: _) as l' => if decide (c = "+"%char) then l' else l | _ => l end.
Definition from_hex (l : list ascii) : outcome string Z :=
  ds ← ok_or (mapM hex_value (hex_digits l)) "invalid digit found in string";
  Ok (foldl (λ n d, n * 16 + d)%Z 0%Z ds).

Definition Color_from_str (color : string) : outcome string Color :=
  let color := bytes (default color (strip_prefix "#" (Csp.trim color))) in
  color ← (if decide (length color = 3) then
             Ok ((char_bytes (length color) color ≫= λ c, c ++ c) ++ bytes "ff")
           else if decide (length color = 6) then Ok (color ++ bytes "FF")
           else if decide (length color = 8) then Ok color
           else Err "Invalid hex color length, must be either 3, 6 or 8, for example: #fff, #ffffff, or #ffffffff");
  r ← slice2 color 0 ≫= from_hex;
  g ← slice2 color 2 ≫= from_hex;
  b ← slice2 color 4 ≫= from_hex;
  a ← slice2 color 6 ≫= from_hex;
  Ok (mk_color r g b a).

(** ** Representations *)
Section Data.
Context {SL : SerdeLib} {UT : UrlText} {VL : VersionLib}.

Definition texts : Codec (list string) := list_codec string_codec.
Definition files_codec : Codec (gmap string string) := map_codec string_codec.
Definition url_codec : Codec string := check_codec string_codec url_parse.

(** [tag = type]: an object or an array whose first entry is the variant. *)
Definition read_tagged {A} (tag : string) (variant : string → option (json → option A)) (v : json) : option A :=
  match v with
  | JObject m =>
      match values [tag] m with
      | [JString n] => f ← variant n; f (JObject (filter (λ e, e.1 ≠ tag) m))
      | _ => None
      end
  | JArray (JString n :: l) => f ← variant n; f (JArray l)
  | _ => None
  end.

(** A variant without fields of such an enumeration takes any fields. *)
Definition read_unit {A} (a : A) (v : json) : option A :=
  match v with JObject _ | JArray [] => Some a | _ => None end.

Definition tagged_object (tag n : string) (fields : list (string * json)) : json := JObject ((tag, JString n) :: fields).

(** *** [lib.rs] *)
Definition Theme_codec : Codec Messages.Theme :=
  mk_codec (λ t, JString (match t with Messages.Light => "light" | Messages.Dark => "dark" end))
    (λ v, match v with
          | JString s => Some (if decide (AclBuild.to_lowercase s = "dark") then Messages.Dark else Messages.Light)
          | _ => None
          end) (λ _, True).

Definition TitleBarStyle_codec : Codec TitleBarStyle :=
  mk_codec (λ t, JString (match t with Visible => "Visible" | Transparent => "Transparent" | Overlay => "Overlay" end))
    (λ v, match v with
          | JString s =>
              let s := AclBuild.to_lowercase s in
              Some (if decide (s = "transparent") then Transparent else if decide (s = "overlay") then Overlay else Visible)
          | _ => None
          end) (λ _, True).

Definition WindowEffect_all : list WindowEffect :=
  [AppearanceBased; EffectLight; EffectDark; MediumLight; UltraDark; Titlebar; Selection; Menu; Popover; Sidebar;
   HeaderView; Sheet; WindowBackground; HudWindow; FullScreenUI; Tooltip; ContentBackground; UnderWindowBackground;
   UnderPageBackground; Mica; MicaDark; MicaLight; Tabbed; TabbedDark; TabbedLight; Blur; Acrylic].

Definition WindowEffect_name (e : WindowEffect) : string :=
  camel_variant match e with
  | AppearanceBased => "AppearanceBased" | EffectLight => "Light" | EffectDark => "Dark" | MediumLight => "MediumLight"
  | UltraDark => "UltraDark" | Titlebar => "Titlebar" | Selection => "Selection" | Menu => "Menu" | Popover => "Popover"
  | Sidebar => "Sidebar" | HeaderView => "HeaderView" | Sheet => "Sheet" | WindowBackground => "WindowBackground"
  | HudWindow => "HudWindow" | FullScreenUI => "FullScreenUI" | Tooltip => "Tooltip"
  | ContentBackground => "ContentBackground" | UnderWindowBackground => "UnderWindowBackground"
  | UnderPageBackground => "UnderPageBackground" | Mica => "Mica" | MicaDark => "MicaDark" | MicaLight => "MicaLight"
  | Tabbed => "Tabbed" | TabbedDark => "TabbedDark" | TabbedLight => "TabbedLight" | Blur => "Blur" | Acrylic => "Acrylic"
  end.
Definition WindowEffect_codec : Codec WindowEffect := enum_codec WindowEffect_all WindowEffect_name.

Definition WindowEffectState_codec : Codec WindowEffectState :=
  enum_codec [FollowsWindowActiveState; Active; Inactive]
    (λ s, camel_variant match s with
          | FollowsWindowActiveState => "FollowsWindowActiveState" | Active => "Active" | Inactive => "Inactive"
          end).

(** *** Urls, colors *)
Definition is_external (u : string) : bool := bool_decide (url_scheme u = "https") || bool_decide (url_scheme u = "http").

Definition WebviewUrl_codec : Codec WebviewUrl :=
  mk_codec (λ u, JString match u with External s | App s | CustomProtocol s => s end)
    (λ v, match v with
          | JString s =>
              Some match url_parse s with
                   | Some u => if is_external u then External u else CustomProtocol u
                   | None => App s
                   end
          | _ => None
          end)
    (λ u, match u with
          | External s => url_parse s = Some s ∧ is_external s = true
          | CustomProtocol s => url_parse s = Some s ∧ is_external s = false
          | App s => url_parse s = None
          end).

(** The object form of a color. *)
Definition color_object : Struct Color Color :=
  Build mk_color |+ required "red" [] u8_codec @ red |+ required "green" [] u8_codec @ green
    |+ required "blue" [] u8_codec @ blue |+ defaulted "alpha" [] 255%Z u8_codec @ alpha.

Definition read_tuple (n : nat) (v : json) : option (list Z) :=
  match v with
  | JArray l => if decide (length l = n) then mapM (decode u8_codec) l else None
  | _ => None
  end.

(** A text that is no color is refused, as is one that panics. *)
Definition Color_codec : Codec Color :=
  mk_codec (λ c, JArray (encode u8_codec <$> [red c; green c; blue c; alpha c]))
    (λ v, match v with
          | JString s => ok (Color_from_str s)
          | _ => first_of [λ v, read_tuple 3 v ≫= color_of_tuple; λ v, read_tuple 4 v ≫= color_of_tuple;
                           read_variant false color_object] v
          end)
    (λ c, Forall (valid u8_codec) [red c; green c; blue c; alpha c]).

(** *** The bundle *)
Definition BundleTarget_codec : Codec Bundler.BundleTarget :=
  mk_codec (λ t, match Bundler.BundleTarget_serialize t with
                 | Bundler.TextValue s => JString s
                 | Bundler.ListValue l => JArray (JString <$> l)
                 end)
    (λ v, match v with
          | JString s => ok (Bundler.BundleTarget_deserialize (Bundler.TextValue s))
          | JArray l => l ← mapM (decode string_codec) l; ok (Bundler.BundleTarget_deserialize (Bundler.ListValue l))
          | _ => None
          end) (λ _, True).

Definition AppImageConfig_serde : Struct AppImageConfig AppImageConfig :=
  Build mk_app_image
    |+ defaulted (camel "bundle_media_framework") ["bundle-media-framework"] false bool_codec @ bundle_media_framework
    |+ defaulted "files" [] ∅ files_codec @ appimage_files.

Definition DebConfig_serde : Struct DebConfig DebConfig :=
  Build mk_deb
    |+ optional true "depends" [] texts @ deb_depends
    |+ optional true "recommends" [] texts @ deb_recommends
    |+ optional true "provides" [] texts @ deb_provides
    |+ optional true "conflicts" [] texts @ deb_conflicts
    |+ optional true "replaces" [] texts @ deb_replaces
    |+ defaulted "files" [] ∅ files_codec @ deb_files
    |+ optional true "section" [] string_codec @ deb_section
    |+ optional true "priority" [] string_codec @ deb_priority
    |+ optional true "changelog" [] string_codec @ deb_changelog
    |+ optional true (camel "desktop_template") ["desktop-template"] string_codec @ deb_desktop_template
    |+ optional true (camel "pre_install_script") ["pre-install-script"] string_codec @ deb_pre_install_script
    |+ optional true (camel "post_install_script") ["post-install-script"] string_codec @ deb_post_install_script
    |+ optional true (camel "pre_remove_script") ["pre-remove-script"] string_codec @ deb_pre_remove_script
    |+ optional true (camel "post_remove_script") ["post-remove-script"] string_codec @ deb_post_remove_script.

Definition level (r : Bundler.RpmCompression) : Z :=
  match r with
  | Bundler.Gzip l | Bundler.Zstd l | Bundler.Xz l | Bundler.Bzip2 l => l
  | Bundler.NoCompression => 0%Z
  end.
Definition level_serde (build : Z → Bundler.RpmCompression) (c : Codec Z) : Struct Bundler.RpmCompression Bundler.RpmCompression :=
  Build build |+ required "level" [] c @ level.

Definition RpmCompression_codec : Codec Bundler.RpmCompression :=
  mk_codec
    (λ r, match r with
          | Bundler.Gzip _ => tagged_object "type" "gzip" (entries (level_serde Bundler.Gzip u32_codec) r)
          | Bundler.Zstd _ => tagged_object "type" "zstd" (entries (level_serde Bundler.Zstd i32_codec) r)
          | Bundler.Xz _ => tagged_object "type" "xz" (entries (level_serde Bundler.Xz u32_codec) r)
          | Bundler.Bzip2 _ => tagged_object "type" "bzip2" (entries (level_serde Bundler.Bzip2 u32_codec) r)
          | Bundler.NoCompression => tagged_object "type" "none" []
          end)
    (read_tagged "type" (λ n,
       if decide (n = "gzip") then Some (read_struct true (level_serde Bundler.Gzip u32_codec))
       else if decide (n = "zstd") then Some (read_struct true (level_serde Bundler.Zstd i32_codec))
       else if decide (n = "xz") then Some (read_struct true (level_serde Bundler.Xz u32_codec))
       else if decide (n = "bzip2") then Some (read_struct true (level_serde Bundler.Bzip2 u32_codec))
       else if decide (n = "none") then Some (read_unit Bundler.NoCompression)
       else None))
    (λ r, match r with
          | Bundler.Gzip l | Bundler.Xz l | Bundler.Bzip2 l => valid u32_codec l
          | Bundler.Zstd l => valid i32_codec l
          | Bundler.NoCompression => True
          end).

Definition default_release : string := "1".

Definition RpmConfig_serde : Struct RpmConfig RpmConfig :=
  Build mk_rpm
    |+ optional true "depends" [] texts @ rpm_depends
    |+ optional true "recommends" [] texts @ rpm_recommends
    |+ optional true "provides" [] texts @ rpm_provides
    |+ optional true "conflicts" [] texts @ rpm_conflicts
    |+ optional true "obsoletes" [] texts @ rpm_obsoletes
    |+ defaulted "release" [] default_release string_codec @ rpm_release
    |+ defaulted "epoch" [] 0%Z u32_codec @ rpm_epoch
    |+ defaulted "files" [] ∅ files_codec @ rpm_files
    |+ optional true (camel "desktop_template") ["desktop-template"] string_codec @ rpm_desktop_template
    |+ optional true (camel "pre_install_script") ["pre-install-script"] string_codec @ rpm_pre_install_script
    |+ optional true (camel "post_install_script") ["post-install-script"] string_codec @ rpm_post_install_script
    |+ optional true (camel "pre_remove_script") ["pre-remove-script"] string_codec @ rpm_pre_remove_script
    |+ optional true (camel "post_remove_script") ["post-remove-script"] string_codec @ rpm_post_remove_script
    |+ optional true "compression" [] RpmCompression_codec @ rpm_compression.

Definition AppImageConfig_default : AppImageConfig := mk_app_image false ∅.
Definition DebConfig_default : DebConfig :=
  mk_deb None None None None None ∅ None None None None None None None None.
Definition RpmConfig_default : RpmConfig :=
  mk_rpm None None None None None default_release 0 ∅ None None None None None None.
Definition LinuxConfig_default : LinuxConfig := mk_linux AppImageConfig_default DebConfig_default RpmConfig_default.

Definition LinuxConfig_serde : Struct LinuxConfig LinuxConfig :=
  Build mk_linux
    |+ defaulted "appimage" [] AppImageConfig_default (struct_codec true AppImageConfig_serde) @ appimage
    |+ defaulted "deb" [] DebConfig_default (struct_codec true DebConfig_serde) @ deb
    |+ defaulted "rpm" [] RpmConfig_default (struct_codec true RpmConfig_serde) @ rpm.

(** *** macOS *)
Definition Position_serde : Struct Position Position :=
  Build mk_position |+ required "x" [] u32_codec @ x |+ required "y" [] u32_codec @ y.
Definition Position_codec : Codec Position := struct_codec true Position_serde.
Definition Size_serde : Struct Size Size :=
  Build mk_size |+ required "width" [] u32_codec @ width |+ required "height" [] u32_codec @ height.
Definition Size_codec : Codec Size := struct_codec true Size_serde.

Definition dmg_window_size : Size := mk_size 660 400.
Definition dmg_app_position : Position := mk_position 180 170.
Definition dmg_application_folder_position : Position := mk_position 480 170.

Definition DmgConfig_serde : Struct DmgConfig DmgConfig :=
  Build mk_dmg
    |+ optional true "background" [] string_codec @ background
    |+ optional true (camel "window_position") [] Position_codec @ window_position
    |+ defaulted (camel "window_size") ["window-size"] dmg_window_size Size_codec @ window_size
    |+ defaulted (camel "app_position") ["app-position"] dmg_app_position Position_codec @ app_position
    |+ defaulted (camel "application_folder_position") ["application-folder-position"]
         dmg_application_folder_position Position_codec @ application_folder_position.

Definition DmgConfig_default : DmgConfig :=
  mk_dmg None None dmg_window_size dmg_app_position dmg_application_folder_position.

Definition macos_minimum_system_version : option string := Some "10.13".
Definition ios_minimum_system_version' : string := "13.0".

(** An empty version is read as the default. *)
Definition de_macos_minimum_system_version : Codec (option string) :=
  mk_codec (encode (option_codec string_codec))
    (λ v, version ← decode (option_codec string_codec) v;
          match version with
          | Some "" => Some macos_minimum_system_version
          | e => Some e
          end)
    (λ o, ∃ s, o = Some s ∧ s ≠ "").

(** A version that is not given is the default, one that is [None] is not
    written. *)
Definition MacConfig_serde : Struct MacConfig MacConfig :=
  Build mk_mac
    |+ optional true "frameworks" [] texts @ mac_frameworks
    |+ defaulted "files" [] ∅ files_codec @ mac_files
    |+ mk_field (camel "minimum_system_version") ["minimum-system-version"] de_macos_minimum_system_version
         (Some macos_minimum_system_version) (Some macos_minimum_system_version) is_none @ mac_minimum_system_version
    |+ optional true (camel "exception_domain") ["exception-domain"] string_codec @ exception_domain
    |+ optional true (camel "signing_identity") ["signing-identity"] string_codec @ signing_identity
    |+ defaulted (camel "hardened_runtime") ["hardened-runtime"] true bool_codec @ hardened_runtime
    |+ optional true (camel "provider_short_name") ["provider-short-name"] string_codec @ provider_short_name
    |+ optional true "entitlements" [] string_codec @ entitlements
    |+ defaulted "dmg" [] DmgConfig_default (struct_codec true DmgConfig_serde) @ dmg.

Definition MacConfig_default : MacConfig :=
  mk_mac None ∅ macos_minimum_system_version None None true None None DmgConfig_default.

(** *** Windows *)
Definition WixLanguageConfig_serde : Struct WixLanguageConfig WixLanguageConfig :=
  Build mk_wix_language |+ optional false (camel "locale_path") ["locale-path"] string_codec @ locale_path.

Definition WixLanguage_codec : Codec WixLanguage :=
  mk_codec
    (λ l, match l with
          | OneLanguage s => JString s
          | LanguageList l => encode texts l
          | Localized m => encode (map_codec (struct_codec true WixLanguageConfig_serde)) m
          end)
    (first_of [λ v, OneLanguage <$> decode string_codec v; λ v, LanguageList <$> decode texts v;
               λ v, Localized <$> decode (map_codec (struct_codec true WixLanguageConfig_serde)) v])
    (λ l, match l with Localized m => valid (map_codec (struct_codec true WixLanguageConfig_serde)) m | _ => True end).

Definition WixLanguage_default : WixLanguage := OneLanguage "en-US".

Definition uuid_codec : Codec string := check_codec string_codec uuid_parse.

Definition WixConfig_serde : Struct WixConfig WixConfig :=
  Build mk_wix
    |+ optional false "version" [] string_codec @ wix_version
    |+ optional false (camel "upgrade_code") ["upgrade-code"] uuid_codec @ upgrade_code
    |+ defaulted "language" [] WixLanguage_default WixLanguage_codec @ wix_language
    |+ optional false "template" [] string_codec @ wix_template
    |+ defaulted (camel "fragment_paths") ["fragment-paths"] [] texts @ fragment_paths
    |+ defaulted (camel "component_group_refs") ["component-group-refs"] [] texts @ component_group_refs
    |+ defaulted (camel "component_refs") ["component-refs"] [] texts @ component_refs
    |+ defaulted (camel "feature_group_refs") ["feature-group-refs"] [] texts @ feature_group_refs
    |+ defaulted (camel "feature_refs") ["feature-refs"] [] texts @ feature_refs
    |+ defaulted (camel "merge_refs") ["merge-refs"] [] texts @ merge_refs
    |+ defaulted (camel "enable_elevated_update_task") ["enable-elevated-update-task"] false bool_codec @ enable_elevated_update_task
    |+ optional false (camel "banner_path") ["banner-path"] string_codec @ banner_path
    |+ optional false (camel "dialog_image_path") ["dialog-image-path"] string_codec @ dialog_image_path.

Definition WixConfig_default : WixConfig :=
  mk_wix None None WixLanguage_default None [] [] [] [] [] [] false None None.

Definition NsisCompression_codec : Codec WindowsInstallers.NsisCompression :=
  enum_codec [WindowsInstallers.Zlib; WindowsInstallers.NBzip2; WindowsInstallers.Lzma; WindowsInstallers.NNone]
    (λ c, camel_variant match c with
          | WindowsInstallers.Zlib => "Zlib" | WindowsInstallers.NBzip2 => "Bzip2"
          | WindowsInstallers.Lzma => "Lzma" | WindowsInstallers.NNone => "None"
          end).
Definition NSISInstallerMode_codec : Codec WindowsInstallers.NSISInstallerMode :=
  enum_codec [WindowsInstallers.CurrentUser; WindowsInstallers.PerMachine; WindowsInstallers.BothModes]
    (λ m, camel_variant match m with
          | WindowsInstallers.CurrentUser => "CurrentUser" | WindowsInstallers.PerMachine => "PerMachine"
          | WindowsInstallers.BothModes => "Both"
          end).
Definition NsisCompression_default : WindowsInstallers.NsisCompression := WindowsInstallers.Lzma.
Definition NSISInstallerMode_default : WindowsInstallers.NSISInstallerMode := WindowsInstallers.CurrentUser.

Definition NsisConfig_serde : Struct NsisConfig NsisConfig :=
  Build mk_nsis
    |+ optional false "template" [] string_codec @ nsis_template
    |+ optional false (camel "header_image") ["header-image"] string_codec @ header_image
    |+ optional false (camel "sidebar_image") ["sidebar-image"] string_codec @ sidebar_image
    |+ optional false (camel "installer_icon") ["install-icon"] string_codec @ installer_icon
    |+ defaulted (camel "install_mode") ["install-mode"] NSISInstallerMode_default NSISInstallerMode_codec @ install_mode
    |+ optional false "languages" [] texts @ languages
    |+ optional false (camel "custom_language_files") [] files_codec @ custom_language_files
    |+ defaulted (camel "display_language_selector") ["display-language-selector"] false bool_codec @ display_language_selector
    |+ defaulted "compression" [] NsisCompression_default NsisCompression_codec @ compression
    |+ optional false (camel "start_menu_folder") ["start-menu-folder"] string_codec @ start_menu_folder
    |+ optional false (camel "installer_hooks") ["installer-hooks"] string_codec @ installer_hooks
    |+ optional false (camel "minimum_webview2_version") ["minimum-webview2-version"] string_codec @ minimum_webview2_version.

Definition NsisConfig_default : NsisConfig :=
  mk_nsis None None None None NSISInstallerMode_default None None false NsisCompression_default None None None.

Definition silent (m : WebviewInstallMode) : bool :=
  match m with DownloadBootstrapper b | EmbedBootstrapper b | OfflineInstaller b => b | _ => true end.
Definition runtime_path (m : WebviewInstallMode) : string := match m with FixedRuntime p => p | _ => "" end.
Definition silent_serde (build : bool → WebviewInstallMode) : Struct WebviewInstallMode WebviewInstallMode :=
  Build build |+ defaulted "silent" [] true bool_codec @ silent.
Definition runtime_serde : Struct WebviewInstallMode WebviewInstallMode :=
  Build FixedRuntime |+ required "path" [] string_codec @ runtime_path.

Definition WebviewInstallMode_codec : Codec WebviewInstallMode :=
  mk_codec
    (λ m, match m with
          | Skip => tagged_object "type" "skip" []
          | DownloadBootstrapper _ => tagged_object "type" "downloadBootstrapper" (entries (silent_serde DownloadBootstrapper) m)
          | EmbedBootstrapper _ => tagged_object "type" "embedBootstrapper" (entries (silent_serde EmbedBootstrapper) m)
          | OfflineInstaller _ => tagged_object "type" "offlineInstaller" (entries (silent_serde OfflineInstaller) m)
          | FixedRuntime _ => tagged_object "type" "fixedRuntime" (entries runtime_serde m)
          end)
    (read_tagged "type" (λ n,
       if decide (n = "skip") then Some (read_unit Skip)
       else if decide (n = "downloadBootstrapper") then Some (read_struct true (silent_serde DownloadBootstrapper))
       else if decide (n = "embedBootstrapper") then Some (read_struct true (silent_serde EmbedBootstrapper))
       else if decide (n = "offlineInstaller") then Some (read_struct true (silent_serde OfflineInstaller))
       else if decide (n = "fixedRuntime") then Some (read_struct true runtime_serde)
       else None))
    (λ _, True).

Definition WebviewInstallMode_default : WebviewInstallMode := DownloadBootstrapper true.

Definition sign_cmd (c : CustomSignCommandConfig) : string := match c with Command s => s | CommandWithOptions cmd _ => cmd end.
Definition sign_args (c : CustomSignCommandConfig) : list string := match c with Command _ => [] | CommandWithOptions _ a => a end.
Definition sign_serde : Struct CustomSignCommandConfig CustomSignCommandConfig :=
  Build CommandWithOptions |+ required "cmd" [] string_codec @ sign_cmd |+ required "args" [] texts @ sign_args.

Definition CustomSignCommandConfig_codec : Codec CustomSignCommandConfig :=
  mk_codec (λ c, match c with Command s => JString s | CommandWithOptions _ _ => JObject (entries sign_serde c) end)
    (first_of [λ v, Command <$> decode string_codec v; read_variant true sign_serde])
    (λ _, True).

Definition WindowsConfig_serde : Struct WindowsConfig WindowsConfig :=
  Build mk_windows
    |+ optional false (camel "digest_algorithm") ["digest-algorithm"] string_codec @ digest_algorithm
    |+ optional false (camel "certificate_thumbprint") ["certificate-thumbprint"] string_codec @ certificate_thumbprint
    |+ optional false (camel "timestamp_url") ["timestamp-url"] string_codec @ timestamp_url
    |+ defaulted "tsp" [] false bool_codec @ tsp
    |+ defaulted (camel "webview_install_mode") ["webview-install-mode"] WebviewInstallMode_default WebviewInstallMode_codec
         @ webview_install_mode
    |+ defaulted (camel "allow_downgrades") ["allow-downgrades"] true bool_codec @ allow_downgrades
    |+ optional false "wix" [] (struct_codec true WixConfig_serde) @ wix
    |+ optional false "nsis" [] (struct_codec true NsisConfig_serde) @ nsis
    |+ optional false (camel "sign_command") ["sign-command"] CustomSignCommandConfig_codec @ sign_command.

Definition WindowsConfig_default : WindowsConfig :=
  mk_windows None None None false WebviewInstallMode_default true None None None.

(** *** The bundle *)
Definition BundleTypeRole_codec : Codec Bundler.BundleTypeRole :=
  enum_codec [Bundler.Editor; Bundler.Viewer; Bundler.Shell; Bundler.QLGenerator; Bundler.NoRole]
    (λ r, match r with
          | Bundler.Editor => "Editor" | Bundler.Viewer => "Viewer" | Bundler.Shell => "Shell"
          | Bundler.QLGenerator => "QLGenerator" | Bundler.NoRole => "None"
          end).

(** The extension of a file is read without its dot. *)
Definition AssociationExt_codec : Codec string :=
  mk_codec JString (λ v, match v with JString ext => Some (default ext (strip_prefix "." ext)) | _ => None end)
    (λ ext, strip_prefix "." ext = None).

Definition FileAssociation_serde : Struct Bundler.FileAssociation Bundler.FileAssociation :=
  Build Bundler.mk_association
    |+ required "ext" [] (list_codec AssociationExt_codec) @ Bundler.assoc_ext
    |+ optional false "name" [] string_codec @ Bundler.assoc_name
    |+ optional false "description" [] string_codec @ Bundler.assoc_description
    |+ defaulted "role" [] Bundler.Editor BundleTypeRole_codec @ Bundler.assoc_role
    |+ optional false (camel "mime_type") ["mime-type"] string_codec @ Bundler.assoc_mime_type.

Definition DeepLinkProtocol_serde : Struct Bundler.DeepLinkProtocol Bundler.DeepLinkProtocol :=
  Build Bundler.mk_deep_link
    |+ required "schemes" [] texts @ Bundler.schemes
    |+ optional false "name" [] string_codec @ Bundler.link_name
    |+ defaulted "role" [] Bundler.Editor BundleTypeRole_codec @ Bundler.link_role.

Definition BundleResources_codec : Codec BundleResources :=
  mk_codec (λ r, match r with ResourcesList l => encode texts l | ResourcesMap m => encode files_codec m end)
    (first_of [λ v, ResourcesList <$> decode texts v; λ v, ResourcesMap <$> decode files_codec v])
    (λ _, True).

(** [BundleResources::push]. *)
Definition resources_push (path : string) (r : BundleResources) : BundleResources :=
  match r with ResourcesList l => ResourcesList (l ++ [path]) | ResourcesMap m => ResourcesMap (<[path := path]> m) end.

Definition V1Compatible_codec : Codec V1Compatible := enum_codec [IsV1Compatible] (λ _, camel_variant "V1Compatible").
Definition Updater_codec : Codec Updater :=
  mk_codec (λ u, match u with UpdaterString v => encode V1Compatible_codec v | UpdaterBool b => JBool b end)
    (first_of [λ v, UpdaterString <$> decode V1Compatible_codec v; λ v, UpdaterBool <$> decode bool_codec v])
    (λ _, True).
Definition Updater_default : Updater := UpdaterBool false.

Definition IosConfig_serde : Struct IosConfig IosConfig :=
  Build mk_ios
    |+ optional true "template" [] string_codec @ ios_template
    |+ optional true "frameworks" [] texts @ ios_frameworks
    |+ optional true (camel "development_team") ["development-team"] string_codec @ development_team
    |+ defaulted (camel "minimum_system_version") ["minimum-system-version"] ios_minimum_system_version' string_codec
         @ ios_minimum_system_version.
Definition IosConfig_default : IosConfig := mk_ios None None None ios_minimum_system_version'.

Definition default_min_sdk_version : Z := 24.
Definition AndroidConfig_serde : Struct AndroidConfig AndroidConfig :=
  Build mk_android
    |+ defaulted (camel "min_sdk_version") ["min-sdk-version"] default_min_sdk_version u32_codec @ min_sdk_version
    |+ optional true (camel "version_code") ["version-code"] u32_codec @ version_code.
Definition AndroidConfig_default : AndroidConfig := mk_android default_min_sdk_version None.

Definition BundleConfig_serde : Struct BundleConfig BundleConfig :=
  Build mk_bundle
    |+ defaulted "active" [] false bool_codec @ active
    |+ defaulted "targets" [] Bundler.TargetAll BundleTarget_codec @ targets
    |+ defaulted (camel "create_updater_artifacts") [] Updater_default Updater_codec @ create_updater_artifacts
    |+ optional true "publisher" [] string_codec @ publisher
    |+ optional true "homepage" [] string_codec @ homepage
    |+ defaulted "icon" [] [] texts @ icon
    |+ optional true "resources" [] BundleResources_codec @ resources
    |+ optional true "copyright" [] string_codec @ copyright
    |+ optional true "license" [] string_codec @ license
    |+ optional true (camel "license_file") ["license-file"] string_codec @ license_file
    |+ optional true "category" [] string_codec @ category
    |+ optional true (camel "file_associations") [] (list_codec (struct_codec true FileAssociation_serde)) @ file_associations
    |+ optional true (camel "short_description") ["short-description"] string_codec @ short_description
    |+ optional true (camel "long_description") ["long-description"] string_codec @ long_description
    |+ defaulted (camel "use_local_tools_dir") ["use-local-tools-dir"] false bool_codec @ use_local_tools_dir
    |+ optional true (camel "external_bin") ["external-bin"] texts @ external_bin
    |+ defaulted "windows" [] WindowsConfig_default (struct_codec true WindowsConfig_serde) @ windows
    |+ defaulted "linux" [] LinuxConfig_default (struct_codec true LinuxConfig_serde) @ linux
    |+ defaulted "macOS" ["macos"] MacConfig_default (struct_codec true MacConfig_serde) @ macos
    |+ defaulted "iOS" ["ios"] IosConfig_default (struct_codec true IosConfig_serde) @ ios
    |+ defaulted "android" [] AndroidConfig_default (struct_codec true AndroidConfig_serde) @ android.

Definition BundleConfig_default : BundleConfig :=
  mk_bundle false Bundler.TargetAll Updater_default None None [] None None None None None None None None false None
    WindowsConfig_default LinuxConfig_default MacConfig_default IosConfig_default AndroidConfig_default.

(** *** Windows of the application *)
Definition WindowEffectsConfig_serde : Struct WindowEffectsConfig WindowEffectsConfig :=
  Build mk_effects
    |+ required "effects" [] (list_codec WindowEffect_codec) @ effects
    |+ optional true "state" [] WindowEffectState_codec @ effect_state
    |+ optional true "radius" [] f64_codec @ radius
    |+ optional true "color" [] Color_codec @ effect_color.

Definition WebviewUrl_default : WebviewUrl := App "index.html".
Definition TitleBarStyle_default : TitleBarStyle := Visible.
Definition default_window_label : string := "main".
Definition default_width : spec_float := Values.f64_of 800.
Definition default_height : spec_float := Values.f64_of 600.
Definition default_title : string := "Tauri App".

Definition WindowConfig_serde : Struct WindowConfig WindowConfig :=
  Build mk_window
    |+ defaulted "label" [] default_window_label string_codec @ label
    |+ defaulted "create" [] true bool_codec @ create
    |+ defaulted "url" [] WebviewUrl_default WebviewUrl_codec @ url
    |+ optional true (camel "user_agent") ["user-agent"] string_codec @ user_agent
    |+ defaulted (camel "drag_drop_enabled") ["drag-drop-enabled"] true bool_codec @ drag_drop_enabled
    |+ defaulted "center" [] false bool_codec @ center
    |+ optional true "x" [] f64_codec @ window_x
    |+ optional true "y" [] f64_codec @ window_y
    |+ defaulted "width" [] default_width f64_codec @ window_width
    |+ defaulted "height" [] default_height f64_codec @ window_height
    |+ optional true (camel "min_width") ["min-width"] f64_codec @ min_width
    |+ optional true (camel "min_height") ["min-height"] f64_codec @ min_height
    |+ optional true (camel "max_width") ["max-width"] f64_codec @ max_width
    |+ optional true (camel "max_height") ["max-height"] f64_codec @ max_height
    |+ defaulted "resizable" [] true bool_codec @ resizable
    |+ defaulted "maximizable" [] true bool_codec @ maximizable
    |+ defaulted "minimizable" [] true bool_codec @ minimizable
    |+ defaulted "closable" [] true bool_codec @ closable
    |+ defaulted "title" [] default_title string_codec @ title
    |+ defaulted "fullscreen" [] false bool_codec @ fullscreen
    |+ defaulted "focus" [] true bool_codec @ focus
    |+ defaulted "transparent" [] false bool_codec @ transparent
    |+ defaulted "maximized" [] false bool_codec @ maximized
    |+ defaulted "visible" [] true bool_codec @ visible
    |+ defaulted "decorations" [] true bool_codec @ decorations
    |+ defaulted (camel "always_on_bottom") ["always-on-bottom"] false bool_codec @ always_on_bottom
    |+ defaulted (camel "always_on_top") ["always-on-top"] false bool_codec @ always_on_top
    |+ defaulted (camel "visible_on_all_workspaces") ["visible-on-all-workspaces"] false bool_codec @ visible_on_all_workspaces
    |+ defaulted (camel "content_protected") ["content-protected"] false bool_codec @ content_protected
    |+ defaulted (camel "skip_taskbar") ["skip-taskbar"] false bool_codec @ skip_taskbar
    |+ optional true (camel "window_classname") [] string_codec @ window_classname
    |+ optional true "theme" [] Theme_codec @ theme
    |+ defaulted (camel "title_bar_style") ["title-bar-style"] TitleBarStyle_default TitleBarStyle_codec @ title_bar_style
    |+ defaulted (camel "hidden_title") ["hidden-title"] false bool_codec @ hidden_title
    |+ defaulted (camel "accept_first_mouse") ["accept-first-mouse"] false bool_codec @ accept_first_mouse
    |+ optional_default true (camel "tabbing_identifier") ["tabbing-identifier"] string_codec @ tabbing_identifier
    |+ optional_default true (camel "additional_browser_args") ["additional-browser-args"] string_codec @ additional_browser_args
    |+ defaulted "shadow" [] true bool_codec @ shadow
    |+ optional_default true (camel "window_effects") ["window-effects"] (struct_codec true WindowEffectsConfig_serde) @ window_effects
    |+ defaulted "incognito" [] false bool_codec @ incognito
    |+ optional true "parent" [] string_codec @ parent
    |+ optional true (camel "proxy_url") ["proxy-url"] url_codec @ proxy_url
    |+ defaulted (camel "zoom_hotkeys_enabled") ["zoom-hotkeys-enabled"] false bool_codec @ zoom_hotkeys_enabled
    |+ defaulted (camel "browser_extensions_enabled") ["browser-extensions-enabled"] false bool_codec @ browser_extensions_enabled
    |+ defaulted (camel "use_https_scheme") ["use-https-scheme"] false bool_codec @ use_https_scheme
    |+ optional true "devtools" [] bool_codec @ devtools
    |+ optional true (camel "background_color") ["background-color"] Color_codec @ background_color.

(** [impl Default for WindowConfig]. *)
Definition WindowConfig_default : WindowConfig := {|
  label := default_window_label; url := WebviewUrl_default; create := true; user_agent := None; drag_drop_enabled := true;
  center := false; window_x := None; window_y := None; window_width := default_width; window_height := default_height;
  min_width := None; min_height := None; max_width := None; max_height := None; resizable := true; maximizable := true;
  minimizable := true; closable := true; title := default_title; fullscreen := false; focus := false; transparent := false;
  maximized := false; visible := true; decorations := true; always_on_bottom := false; always_on_top := false;
  visible_on_all_workspaces := false; content_protected := false; skip_taskbar := false; window_classname := None;
  theme := None; title_bar_style := TitleBarStyle_default; hidden_title := false; accept_first_mouse := false;
  tabbing_identifier := None; additional_browser_args := None; shadow := true; window_effects := None; incognito := false;
  parent := None; proxy_url := None; zoom_hotkeys_enabled := false; browser_extensions_enabled := false;
  use_https_scheme := false; devtools := None; background_color := None;
|}.

(** *** [acl]: values, identifiers and capabilities *)

(** [BTreeMap]: the last of equal keys counts, in the order of the keys. *)
Definition btree_entries {A} (l : list (string * A)) : list (string * A) := btree_to_list (list_to_map (rev l)).

Fixpoint Value_decode (v : json) : option Value :=
  match v with
  | JNull => Some Null
  | JBool b => Some (Bool b)
  | JNumber n => match as_i64 n with Some i => Some (Number_ (Int i)) | None => (λ f, Number_ (Float f)) <$> as_f64 n end
  | JString s => Some (String_ s)
  | JArray l =>
      List <$> (fix go (l : list json) : option (list Value) :=
                  match l with
                  | [] => Some []
                  | v :: l => a ← Value_decode v; as' ← go l; Some (a :: as')
                  end) l
  | JObject m =>
      (λ m, Map (btree_entries m)) <$>
        (fix go (m : list (string * json)) : option (list (string * Value)) :=
           match m with
           | [] => Some []
           | (k, v) :: m => a ← Value_decode v; as' ← go m; Some ((k, a) :: as')
           end) m
  end.

Fixpoint Value_encode (v : Value) : json :=
  match v with
  | Null => JNull
  | Bool b => JBool b
  | Number_ (Int i) => JNumber (from_i64 i)
  | Number_ (Float f) => encode f64_codec f
  | String_ s => JString s
  | List l => JArray (map Value_encode l)
  | Map m => JObject (map (λ '(k, v), (k, Value_encode v)) m)
  end.

Fixpoint Value_valid (v : Value) : Prop :=
  match v with
  | Null | Bool _ | String_ _ => True
  | Number_ (Int i) => (- 2 ^ 63 ≤ i < 2 ^ 63)%Z
  | Number_ (Float f) => valid f64_codec f
  | List l => foldr and True (map Value_valid l)
  | Map m => btree_entries m = m ∧ foldr and True (map (λ '(_, v), Value_valid v) m)
  end.

Definition Value_codec : Codec Value := mk_codec Value_encode Value_decode Value_valid.

Definition Identifier_codec : Codec Identifier :=
  mk_codec (λ i, JString (Identifier.get i))
    (λ v, match v with JString s => ok (Identifier.try_from s) | _ => None end)
    (λ i, Identifier.try_from (Identifier.get i) = Ok i).

Definition entry_identifier (e : PermissionEntry) : Identifier := PermissionEntry_identifier e.
Definition entry_scopes (e : PermissionEntry) : Scopes :=
  match e with PermissionRef _ => mk_scopes None None | ExtendedPermission _ s => s end.

(** The fields of the scope are flattened into those of the entry. *)
Definition ExtendedPermission_serde : Struct PermissionEntry PermissionEntry :=
  Build (λ i allow deny, ExtendedPermission i (mk_scopes allow deny))
    |+ required "identifier" [] Identifier_codec @ entry_identifier
    |+ optional true "allow" [] (list_codec Value_codec) @ (λ e, scopes_allow (entry_scopes e))
    |+ optional true "deny" [] (list_codec Value_codec) @ (λ e, scopes_deny (entry_scopes e)).

Definition PermissionEntry_codec : Codec PermissionEntry :=
  mk_codec
    (λ e, match e with
          | PermissionRef i => encode Identifier_codec i
          | ExtendedPermission _ _ => JObject (entries ExtendedPermission_serde e)
          end)
    (λ v, match v with
          | JString _ => PermissionRef <$> decode Identifier_codec v
          | JObject _ => read_variant false ExtendedPermission_serde v
          | _ => None
          end)
    (λ e, match e with PermissionRef i => valid Identifier_codec i | ExtendedPermission _ _ => valid_struct ExtendedPermission_serde e end).

Definition CapabilityRemote_serde : Struct CapabilityRemote CapabilityRemote :=
  Build mk_capability_remote |+ required "urls" [] texts @ remote_urls.

Definition Target_codec : Codec Target :=
  enum_codec [MacOS; Windows; Linux; Android; Ios]
    (λ t, match t with
          | MacOS => "macOS" | Windows => camel_variant "Windows" | Linux => camel_variant "Linux"
          | Android => camel_variant "Android" | Ios => "iOS"
          end).

(** A list with [default] that is not written when it is empty. *)
Definition unless_empty (k : string) : Field (list string) :=
  mk_field k [] texts (Some []) (Some []) (λ l, bool_decide (l = [])).

Definition default_capability_local : bool := true.

Definition Capability_serde : Struct Capability Capability :=
  Build mk_capability
    |+ required "identifier" [] string_codec @ capability_identifier
    |+ defaulted "description" [] "" string_codec @ capability_description
    |+ optional_default true "remote" [] (struct_codec false CapabilityRemote_serde) @ capability_remote
    |+ defaulted "local" [] default_capability_local bool_codec @ capability_local
    |+ unless_empty "windows" @ capability_windows
    |+ unless_empty "webviews" @ capability_webviews
    |+ required "permissions" [] (list_codec PermissionEntry_codec) @ capability_permissions
    |+ optional true "platforms" [] (list_codec Target_codec) @ capability_platforms.

(** *** Security *)
Definition CspDirectiveSources_codec : Codec Csp.CspDirectiveSources :=
  mk_codec (λ s, match s with Csp.Inline s => JString s | Csp.List l => encode texts l end)
    (first_of [λ v, Csp.Inline <$> decode string_codec v; λ v, Csp.List <$> decode texts v])
    (λ _, True).

Definition Csp_codec : Codec Csp.Csp :=
  mk_codec (λ c, match c with Csp.Policy s => JString s | Csp.DirectiveMap m => encode (map_codec CspDirectiveSources_codec) m end)
    (first_of [λ v, Csp.Policy <$> decode string_codec v; λ v, Csp.DirectiveMap <$> decode (map_codec CspDirectiveSources_codec) v])
    (λ _, True).

Definition DisabledCspModificationKind_codec : Codec Csp.DisabledCspModificationKind :=
  mk_codec (λ k, match k with Csp.Flag b => JBool b | Csp.DisabledList l => encode texts l end)
    (first_of [λ v, Csp.Flag <$> decode bool_codec v; λ v, Csp.DisabledList <$> decode texts v])
    (λ _, True).
Definition DisabledCspModificationKind_default : Csp.DisabledCspModificationKind := Csp.Flag false.

Definition scope_allow (s : FsScope.FsScopeConfig) : list string := FsScope.allowed_paths s.
Definition scope_deny (s : FsScope.FsScopeConfig) : list string := default [] (FsScope.forbidden_paths s).
Definition scope_leading_dot (s : FsScope.FsScopeConfig) : option bool :=
  match s with FsScope.AllowedPaths _ => None | FsScope.ScopeConfig _ _ d => d end.
Definition FsScope_serde : Struct FsScope.FsScopeConfig FsScope.FsScopeConfig :=
  Build FsScope.ScopeConfig
    |+ defaulted "allow" [] [] texts @ scope_allow
    |+ defaulted "deny" [] [] texts @ scope_deny
    |+ optional false (camel "require_literal_leading_dot") ["require-literal-leading-dot"] bool_codec @ scope_leading_dot.
Definition FsScope_codec : Codec FsScope.FsScopeConfig :=
  mk_codec (λ s, match s with FsScope.AllowedPaths l => encode texts l | FsScope.ScopeConfig _ _ _ => JObject (entries FsScope_serde s) end)
    (first_of [λ v, FsScope.AllowedPaths <$> decode texts v; read_variant false FsScope_serde])
    (λ _, True).
Definition FsScope_default : FsScope.FsScopeConfig := FsScope.AllowedPaths [].

Definition AssetProtocolConfig_serde : Struct AssetProtocolConfig AssetProtocolConfig :=
  Build mk_asset_protocol
    |+ defaulted "scope" [] FsScope_default FsScope_codec @ asset_scope
    |+ defaulted "enable" [] false bool_codec @ asset_enable.
Definition AssetProtocolConfig_default : AssetProtocolConfig := mk_asset_protocol FsScope_default false.

Definition HeaderSource_codec : Codec Csp.HeaderSource :=
  mk_codec
    (λ h, match h with Csp.InlineHeader s => JString s | Csp.ListHeader l => encode texts l | Csp.MapHeader m => encode files_codec m end)
    (first_of [λ v, Csp.InlineHeader <$> decode string_codec v; λ v, Csp.ListHeader <$> decode texts v;
               λ v, Csp.MapHeader <$> decode files_codec v])
    (λ _, True).

Definition HeaderConfig_serde : Struct Csp.HeaderConfig Csp.HeaderConfig :=
  Build Csp.mk_header_config
    |+ optional false "Access-Control-Allow-Credentials" [] HeaderSource_codec @ Csp.access_control_allow_credentials
    |+ optional false "Access-Control-Allow-Headers" [] HeaderSource_codec @ Csp.access_control_allow_headers
    |+ optional false "Access-Control-Allow-Methods" [] HeaderSource_codec @ Csp.access_control_allow_methods
    |+ optional false "Access-Control-Expose-Headers" [] HeaderSource_codec @ Csp.access_control_expose_headers
    |+ optional false "Access-Control-Max-Age" [] HeaderSource_codec @ Csp.access_control_max_age
    |+ optional false "Cross-Origin-Embedder-Policy" [] HeaderSource_codec @ Csp.cross_origin_embedder_policy
    |+ optional false "Cross-Origin-Opener-Policy" [] HeaderSource_codec @ Csp.cross_origin_opener_policy
    |+ optional false "Cross-Origin-Resource-Policy" [] HeaderSource_codec @ Csp.cross_origin_resource_policy
    |+ optional false "Permissions-Policy" [] HeaderSource_codec @ Csp.permissions_policy
    |+ optional false "Timing-Allow-Origin" [] HeaderSource_codec @ Csp.timing_allow_origin
    |+ optional false "X-Content-Type-Options" [] HeaderSource_codec @ Csp.x_content_type_options
    |+ optional false "Tauri-Custom-Header" [] HeaderSource_codec @ Csp.tauri_custom_header.

Definition CapabilityEntry_codec : Codec TauriBuild.CapabilityEntry :=
  mk_codec (λ e, match e with TauriBuild.Inlined c => JObject (entries Capability_serde c) | TauriBuild.Reference s => JString s end)
    (λ v, match v with
          | JString s => Some (TauriBuild.Reference s)
          | JObject m => TauriBuild.Inlined <$> read_object false Capability_serde m
          | _ => None
          end)
    (λ e, match e with TauriBuild.Inlined c => valid_struct Capability_serde c | TauriBuild.Reference _ => True end).

Definition isolation_dir (p : CargoManifest.PatternKind) : string :=
  match p with CargoManifest.Isolation dir => dir | CargoManifest.Brownfield => "" end.
Definition isolation_serde : Struct CargoManifest.PatternKind CargoManifest.PatternKind :=
  Build CargoManifest.Isolation |+ required "dir" [] string_codec @ isolation_dir.

(** [tag = use, content = options]; a variant without data has no options, or
    null. *)
Definition read_pattern (n : string) (options : option json) : option CargoManifest.PatternKind :=
  if decide (n = "brownfield") then
    match options with None | Some JNull => Some CargoManifest.Brownfield | Some _ => None end
  else if decide (n = "isolation") then v ← options; read_struct false isolation_serde v
  else None.

Definition PatternKind_codec : Codec CargoManifest.PatternKind :=
  mk_codec
    (λ p, match p with
          | CargoManifest.Brownfield => JObject [("use", JString "brownfield")]
          | CargoManifest.Isolation _ => JObject [("use", JString "isolation"); ("options", JObject (entries isolation_serde p))]
          end)
    (λ v, match v with
          | JObject m =>
              match values ["use"] m, values ["options"] m with
              | [JString n], [] => read_pattern n None
              | [JString n], [v] => read_pattern n (Some v)
              | _, _ => None
              end
          | JArray [JString n; v] => read_pattern n (Some v)
          | _ => None
          end)
    (λ _, True).
Definition PatternKind_default : CargoManifest.PatternKind := CargoManifest.Brownfield.

Definition SecurityConfig_serde : Struct SecurityConfig SecurityConfig :=
  Build mk_security
    |+ optional true "csp" [] Csp_codec @ csp
    |+ optional true (camel "dev_csp") ["dev-csp"] Csp_codec @ dev_csp
    |+ defaulted (camel "freeze_prototype") ["freeze-prototype"] false bool_codec @ freeze_prototype
    |+ defaulted (camel "dangerous_disable_asset_csp_modification") ["dangerous-disable-asset-csp-modification"]
         DisabledCspModificationKind_default DisabledCspModificationKind_codec @ dangerous_disable_asset_csp_modification
    |+ defaulted (camel "asset_protocol") ["asset-protocol"] AssetProtocolConfig_default
         (struct_codec true AssetProtocolConfig_serde) @ asset_protocol
    |+ defaulted "pattern" [] PatternKind_default PatternKind_codec @ pattern
    |+ defaulted "capabilities" [] [] (list_codec CapabilityEntry_codec) @ capabilities
    |+ optional_default true "headers" [] (struct_codec true HeaderConfig_serde) @ headers.

Definition SecurityConfig_default : SecurityConfig :=
  mk_security None None false DisabledCspModificationKind_default AssetProtocolConfig_default PatternKind_default [] None.

(** *** The application *)
Definition TrayIconConfig_serde : Struct TrayIconConfig TrayIconConfig :=
  Build mk_tray
    |+ optional true "id" [] string_codec @ tray_id
    |+ required (camel "icon_path") ["icon-path"] string_codec @ icon_path
    |+ defaulted (camel "icon_as_template") ["icon-as-template"] false bool_codec @ icon_as_template
    |+ defaulted (camel "menu_on_left_click") ["menu-on-left-click"] true bool_codec @ menu_on_left_click
    |+ defaulted (camel "show_menu_on_left_click") ["show-menu-on-left-click"] true bool_codec @ show_menu_on_left_click
    |+ optional true "title" [] string_codec @ tray_title
    |+ optional true "tooltip" [] string_codec @ tray_tooltip.

Definition AppConfig_serde : Struct AppConfig AppConfig :=
  Build mk_app
    |+ defaulted "windows" [] [] (list_codec (struct_codec true WindowConfig_serde)) @ app_windows
    |+ defaulted "security" [] SecurityConfig_default (struct_codec true SecurityConfig_serde) @ security
    |+ optional true (camel "tray_icon") ["tray-icon"] (struct_codec true TrayIconConfig_serde) @ tray_icon
    |+ defaulted "macOSPrivateApi" ["macos-private-api"] false bool_codec @ macos_private_api
    |+ defaulted (camel "with_global_tauri") ["with-global-tauri"] false bool_codec @ with_global_tauri
    |+ defaulted "enableGTKAppId" ["enable-gtk-app-id"] false bool_codec @ enable_gtk_app_id.

Definition AppConfig_default : AppConfig := mk_app [] SecurityConfig_default None false false false.

(** *** Builds *)
Definition FrontendDist_codec : Codec FrontendDist :=
  mk_codec (λ d, match d with DistUrl s | DistDirectory s => JString s | DistFiles l => encode texts l end)
    (first_of [λ v, DistUrl <$> decode url_codec v; λ v, DistDirectory <$> decode string_codec v; λ v, DistFiles <$> decode texts v])
    (λ d, match d with DistUrl s => url_parse s = Some s | DistDirectory s => url_parse s = None | DistFiles _ => True end).

Definition dev_script (c : BeforeDevCommand) : string := match c with DevScript s | DevWithOptions s _ _ => s end.
Definition dev_cwd (c : BeforeDevCommand) : option string := match c with DevWithOptions _ cwd _ => cwd | DevScript _ => None end.
Definition dev_wait (c : BeforeDevCommand) : bool := match c with DevWithOptions _ _ wait => wait | DevScript _ => false end.
Definition dev_serde : Struct BeforeDevCommand BeforeDevCommand :=
  Build DevWithOptions |+ required "script" [] string_codec @ dev_script |+ optional false "cwd" [] string_codec @ dev_cwd
    |+ defaulted "wait" [] false bool_codec @ dev_wait.
Definition BeforeDevCommand_codec : Codec BeforeDevCommand :=
  mk_codec (λ c, match c with DevScript s => JString s | DevWithOptions _ _ _ => JObject (entries dev_serde c) end)
    (first_of [λ v, DevScript <$> decode string_codec v; read_variant false dev_serde]) (λ _, True).

Definition hook_script (c : HookCommand) : string := match c with HookScript s | HookWithOptions s _ => s end.
Definition hook_cwd (c : HookCommand) : option string := match c with HookWithOptions _ cwd => cwd | HookScript _ => None end.
Definition hook_serde : Struct HookCommand HookCommand :=
  Build HookWithOptions |+ required "script" [] string_codec @ hook_script |+ optional false "cwd" [] string_codec @ hook_cwd.
Definition HookCommand_codec : Codec HookCommand :=
  mk_codec (λ c, match c with HookScript s => JString s | HookWithOptions _ _ => JObject (entries hook_serde c) end)
    (first_of [λ v, HookScript <$> decode string_codec v; read_variant false hook_serde]) (λ _, True).

Definition BuildConfig_serde : Struct BuildConfig BuildConfig :=
  Build mk_build_config
    |+ optional true "runner" [] string_codec @ config_runner
    |+ optional true (camel "dev_url") ["dev-url"] url_codec @ dev_url
    |+ optional true (camel "frontend_dist") ["frontend-dist"] FrontendDist_codec @ frontend_dist
    |+ optional true (camel "before_dev_command") ["before-dev-command"] BeforeDevCommand_codec @ before_dev_command
    |+ optional true (camel "before_build_command") ["before-build-command"] HookCommand_codec @ before_build_command
    |+ optional true (camel "before_bundle_command") ["before-bundle-command"] HookCommand_codec @ before_bundle_command
    |+ optional true "features" [] texts @ config_features.

Definition default_build : BuildConfig := mk_build_config None None None None None None None.

(** *** The configuration *)

(** [PackageVersion]: a version, or the path of a JSON file that has one. *)
Definition package_version (read_json : string → option json) (value : string) : option string :=
  if version_path_exists value then
    package_json ← read_json value;
    match package_json with
    | JObject obj => v ← ConfigFiles.get "version" obj; s ← ConfigFiles.as_str v; semver_parse s
    | _ => None
    end
  else semver_parse value.

Definition version_codec (read_json : string → option json) : Codec (option string) :=
  mk_codec (encode (option_codec string_codec))
    (λ v, version ← decode (option_codec string_codec) v;
          match version with Some s => Some <$> package_version read_json s | None => Some None end)
    (λ o, match o with Some s => version_path_exists s = false ∧ semver_parse s = Some s | None => True end).

Definition PluginConfig_codec : Codec (gmap string json) := map_codec json_codec.

Definition Config_serde (read_json : string → option json) : Struct Config Config :=
  Build (mk_config _)
    |+ optional true "$schema" [] string_codec @ schema
    |+ optional true (camel "product_name") ["product-name"] string_codec @ product_name
    |+ optional true (camel "main_binary_name") ["main-binary-name"] string_codec @ main_binary_name
    |+ mk_field "version" [] (version_codec read_json) (Some None) (Some None) is_none @ version
    |+ required "identifier" [] string_codec @ identifier
    |+ defaulted "app" [] AppConfig_default (struct_codec true AppConfig_serde) @ app
    |+ defaulted "build" [] default_build (struct_codec true BuildConfig_serde) @ build
    |+ defaulted "bundle" [] BundleConfig_default (struct_codec true BundleConfig_serde) @ bundle
    |+ defaulted "plugins" [] ∅ PluginConfig_codec @ plugins.

Definition Config_codec (read_json : string → option json) : Codec Config := struct_codec true (Config_serde read_json).

End Data.
End ConfigData.
