(* ===== verification/ConfigLaws.v ===== *)
(** * The configuration is read back

    Theorems on [ConfigData]: a configuration that was written is read back,
    for every type of the configuration; the defaults of fields that are missing
    are those of [Default]; unknown and repeated fields are refused; colors. *)
From Stdlib Require Import Ascii SpecFloat.
From S2P Require Import Prelude Identifier Acl Values Csp FsScope BuildSupport MigrateConfig Bundler CargoManifest AppAssets Runtime ConfigFiles TauriBuild WindowsInstallers Serde ConfigData.
Import Identifier.Identifier Acl Values Serde ConfigData.

Module ConfigLaws.
#[local] Open Scope stdpp_scope.
#[local] Open Scope nat_scope.

(** What [serde_json] documents of its numbers. *)
Class NumberLaws {SL : SerdeLib} : Prop := {
  as_u64_from_i64 z : (0 ≤ z < 2 ^ 63)%Z → as_u64 (from_i64 z) = Some z;
  as_i64_from_i64 z : (- 2 ^ 63 ≤ z < 2 ^ 63)%Z → as_i64 (from_i64 z) = Some z;
  float_as_f64 f n : from_f64 f = Some n → as_f64 n = Some f;
  float_as_i64 f n : from_f64 f = Some n → as_i64 n = None;
}.

(** A description of a structure: its names differ, its fields are lawful, and
    it builds the value from its fields. *)
Ltac all_lawful :=
  match goal with |- lawful_fields ?s => let t := eval hnf in s in change (lawful_fields t) end;
  repeat match goal with
  | |- lawful_fields (Build _) => exact I
  | |- lawful_fields (With _ _ _) => split
  | |- LawfulField _ => apply _
  end.
Ltac all_valid :=
  match goal with |- valid_struct ?s ?r => let t := eval hnf in s in change (valid_struct t r) end;
  repeat match goal with
  | |- valid_struct (Build _) _ => exact I
  | |- valid_struct (With _ _ _) _ => split
  | |- valid _ _ => done || (by apply Forall_true)
  end.
(** The variants of an untagged enumeration. *)
Ltac expose_variants :=
  match goal with |- decode ?c ?v = ?r =>
    let c' := eval hnf in c in
    lazymatch c' with mk_codec _ ?d _ => change (d v = r) end
  end.
Ltac variant_law deny s :=
  match goal with |- _ = Some ?r =>
    transitivity (read_object deny s (entries s r)); [reflexivity|];
    apply object_reads; [vm_compute; reflexivity|all_lawful|done|all_valid]
  end.
Ltac struct_law := apply struct_lawful; [vm_compute; reflexivity|all_lawful|by intros []].

Section Laws.
Context {SL : SerdeLib} {NL : NumberLaws} {UT : UrlText} {VL : VersionLib}.

#[local] Instance u8_lawful : Lawful u8_codec.
Proof. intros z Hz. cbn in *. rewrite as_u64_from_i64 by lia. cbn. by rewrite decide_True by lia. Qed.
#[local] Instance u32_lawful : Lawful u32_codec.
Proof. intros z Hz. cbn in *. rewrite as_u64_from_i64 by lia. cbn. by rewrite decide_True by lia. Qed.
#[local] Instance i32_lawful : Lawful i32_codec.
Proof. intros z Hz. cbn in *. rewrite as_i64_from_i64 by lia. cbn. by rewrite decide_True by lia. Qed.
#[local] Instance f64_lawful : Lawful f64_codec.
Proof. intros f [n Hn]. cbn in *. rewrite Hn. by apply float_as_f64. Qed.
#[local] Instance f64_not_null : NotNull f64_codec.
Proof. intros f [n Hn]. cbn. by rewrite Hn. Qed.
#[local] Instance u8_not_null : NotNull u8_codec.
Proof. done. Qed.
#[local] Instance u32_not_null : NotNull u32_codec.
Proof. done. Qed.

#[local] Instance texts_lawful : Lawful texts := _.
#[local] Instance files_lawful : Lawful files_codec := _.
#[local] Instance url_lawful : Lawful url_codec := _.
#[local] Instance uuid_lawful : Lawful uuid_codec := _.
#[local] Instance texts_not_null : NotNull texts.
Proof. done. Qed.
#[local] Instance files_not_null : NotNull files_codec.
Proof. done. Qed.

#[local] Instance theme_lawful : Lawful Theme_codec.
Proof. by intros []. Qed.
#[local] Instance theme_not_null : NotNull Theme_codec.
Proof. done. Qed.
#[local] Instance title_bar_style_lawful : Lawful TitleBarStyle_codec.
Proof. by intros []. Qed.
#[local] Instance effect_lawful : Lawful WindowEffect_codec.
Proof. apply enum_lawful, (bool_decide_unpack _). vm_compute. exact I. Qed.
#[local] Instance effect_state_lawful : Lawful WindowEffectState_codec.
Proof. apply enum_lawful, (bool_decide_unpack _). vm_compute. exact I. Qed.
#[local] Instance compression_lawful : Lawful NsisCompression_codec.
Proof. apply enum_lawful, (bool_decide_unpack _). vm_compute. exact I. Qed.
#[local] Instance mode_lawful : Lawful NSISInstallerMode_codec.
Proof. apply enum_lawful, (bool_decide_unpack _). vm_compute. exact I. Qed.
#[local] Instance role_lawful : Lawful BundleTypeRole_codec.
Proof. apply enum_lawful, (bool_decide_unpack _). vm_compute. exact I. Qed.
#[local] Instance target_lawful : Lawful Target_codec.
Proof. apply enum_lawful, (bool_decide_unpack _). vm_compute. exact I. Qed.
#[local] Instance v1_lawful : Lawful V1Compatible_codec.
Proof. apply enum_lawful, (bool_decide_unpack _). vm_compute. exact I. Qed.

#[local] Instance webview_url_lawful : Lawful WebviewUrl_codec.
Proof. intros [s|s|s]; cbn; [intros [-> ->]|intros ->|intros [-> ->]]; done. Qed.

#[local] Instance color_lawful : Lawful Color_codec.
Proof.
  intros [r g b a] Hv. pose proof (list_lawful u8_codec u8_lawful _ Hv) as Hl. cbn in Hl. cbn. by rewrite Hl.
Qed.
#[local] Instance color_not_null : NotNull Color_codec.
Proof. done. Qed.

#[local] Instance bundle_target_lawful : Lawful BundleTarget_codec.
Proof.
  intros t _. pose proof (Bundler.targets_roundtrip t) as Ht. destruct t as [|l|t].
  - done.
  - change ((ls ← mapM (decode string_codec) (JString <$> (Bundler.BundleType_to_string <$> l));
              ok (Bundler.BundleTarget_deserialize (Bundler.ListValue ls))) = Some (Bundler.TargetList l)).
    rewrite (mapM_fmap JString (decode string_codec)) by (by apply Forall_true).
    change (ok (Bundler.BundleTarget_deserialize (Bundler.BundleTarget_serialize (Bundler.TargetList l))) = Some (Bundler.TargetList l)).
    by rewrite Ht.
  - change (ok (Bundler.BundleTarget_deserialize (Bundler.BundleTarget_serialize (Bundler.TargetOne t))) = Some (Bundler.TargetOne t)).
    by rewrite Ht.
Qed.

#[local] Instance app_image_lawful : Lawful (struct_codec true AppImageConfig_serde).
Proof. struct_law. Qed.
#[local] Instance deb_lawful : Lawful (struct_codec true DebConfig_serde).
Proof. struct_law. Qed.

#[local] Instance rpm_compression_lawful : Lawful RpmCompression_codec.
Proof.
  intros [z|z|z|z|] Hz; [..|done].
  - variant_law true (level_serde Bundler.Gzip u32_codec).
  - variant_law true (level_serde Bundler.Zstd i32_codec).
  - variant_law true (level_serde Bundler.Xz u32_codec).
  - variant_law true (level_serde Bundler.Bzip2 u32_codec).
Qed.
#[local] Instance rpm_compression_not_null : NotNull RpmCompression_codec.
Proof. by intros []. Qed.

#[local] Instance rpm_lawful : Lawful (struct_codec true RpmConfig_serde).
Proof. struct_law. Qed.
#[local] Instance linux_lawful : Lawful (struct_codec true LinuxConfig_serde).
Proof. struct_law. Qed.
#[local] Instance position_lawful : Lawful Position_codec.
Proof. struct_law. Qed.
#[local] Instance position_not_null : NotNull Position_codec.
Proof. done. Qed.
#[local] Instance size_lawful : Lawful Size_codec.
Proof. struct_law. Qed.
#[local] Instance dmg_lawful : Lawful (struct_codec true DmgConfig_serde).
Proof. struct_law. Qed.

#[local] Instance minimum_version_lawful : Lawful de_macos_minimum_system_version.
Proof. intros o (s & -> & Hs). cbn. by destruct s. Qed.
#[local] Instance mac_lawful : Lawful (struct_codec true MacConfig_serde).
Proof.
  apply struct_lawful; [vm_compute; reflexivity| |by intros []]. all_lawful.
  split; [apply _|]. by intros a (s & -> & _).
Qed.

#[local] Instance wix_language_config_lawful : Lawful (struct_codec true WixLanguageConfig_serde).
Proof. struct_law. Qed.

#[local] Instance wix_language_lawful : Lawful WixLanguage_codec.
Proof.
  intros [s|l|m] Hv; [done|..].
  - cbn. pose proof (lawful (c := texts) l ltac:(by apply Forall_true)) as H. cbn in H. by rewrite H.
  - cbn. pose proof (lawful (c := map_codec (struct_codec true WixLanguageConfig_serde)) m Hv) as H. cbn in H. by rewrite H.
Qed.

#[local] Instance wix_language_not_null : NotNull WixLanguage_codec.
Proof. by intros []. Qed.
#[local] Instance wix_lawful : Lawful (struct_codec true WixConfig_serde).
Proof. struct_law. Qed.
#[local] Instance nsis_lawful : Lawful (struct_codec true NsisConfig_serde).
Proof. struct_law. Qed.

#[local] Instance install_mode_lawful : Lawful WebviewInstallMode_codec.
Proof.
  intros [|b|b|b|p] _; [done|..].
  - variant_law true (silent_serde DownloadBootstrapper).
  - variant_law true (silent_serde EmbedBootstrapper).
  - variant_law true (silent_serde OfflineInstaller).
  - variant_law true runtime_serde.
Qed.

(** What a text, a flag or a list is written as is read by their variant. *)
#[local] Instance sign_command_lawful : Lawful CustomSignCommandConfig_codec.
Proof. intros [s|cmd args] _; [done|]. expose_variants; apply read_second; [reflexivity|]. variant_law true sign_serde. Qed.
#[local] Instance sign_command_not_null : NotNull CustomSignCommandConfig_codec.
Proof. by intros []. Qed.

#[local] Instance windows_lawful : Lawful (struct_codec true WindowsConfig_serde).
Proof. struct_law. Qed.

#[local] Instance association_ext_lawful : Lawful AssociationExt_codec.
Proof. intros s Hs. cbn in *. by rewrite Hs. Qed.
#[local] Instance association_lawful : Lawful (struct_codec true FileAssociation_serde).
Proof. struct_law. Qed.
#[local] Instance deep_link_lawful : Lawful (struct_codec true DeepLinkProtocol_serde).
Proof. struct_law. Qed.

Lemma texts_read l : decode texts (encode texts l) = Some l.
Proof. apply texts_lawful. by apply Forall_true. Qed.
Lemma files_read m : decode files_codec (encode files_codec m) = Some m.
Proof. apply files_lawful. by intros ? ? _. Qed.

(** The shape of what a list and a map are written as. *)
Lemma texts_array l : encode texts l = JArray (JString <$> l).
Proof. done. Qed.
Lemma map_object {A} (c : Codec A) m : ∃ l, encode (map_codec c) m = JObject l.
Proof. by eexists. Qed.

#[local] Instance resources_lawful : Lawful BundleResources_codec.
Proof.
  intros [l|m] _.
  - expose_variants; apply read_first; change (ResourcesList <$> decode texts (encode texts l) = Some (ResourcesList l)). by rewrite texts_read.
  - expose_variants; apply read_second; [reflexivity|]; change (ResourcesMap <$> decode files_codec (encode files_codec m) = Some (ResourcesMap m)). by rewrite files_read.
Qed.
#[local] Instance resources_not_null : NotNull BundleResources_codec.
Proof. by intros []. Qed.

#[local] Instance updater_lawful : Lawful Updater_codec.
Proof. by intros [[]|b] _. Qed.

#[local] Instance ios_lawful : Lawful (struct_codec true IosConfig_serde).
Proof. struct_law. Qed.
#[local] Instance android_lawful : Lawful (struct_codec true AndroidConfig_serde).
Proof. struct_law. Qed.
#[local] Instance bundle_lawful : Lawful (struct_codec true BundleConfig_serde).
Proof. struct_law. Qed.
#[local] Instance effects_lawful : Lawful (struct_codec true WindowEffectsConfig_serde).
Proof. struct_law. Qed.
#[local] Instance window_lawful : Lawful (struct_codec true WindowConfig_serde).
Proof. struct_law. Qed.

(** *** Values of scopes and capabilities *)
#[local] Instance value_lawful : Lawful Value_codec.
Proof.
  intros v. change (Value_valid v → Value_decode (Value_encode v) = Some v).
  induction v as [|b|[i|f]|s|l IH|m IH] using Value_nested_ind; cbn [Value_valid Value_encode]; intros Hv; try done.
  - cbn [Value_decode]. by rewrite as_i64_from_i64.
  - destruct Hv as [n Hn]. cbn. rewrite Hn. cbn. by rewrite (float_as_i64 f n), (float_as_f64 f n).
  - cbn [Value_decode]. match goal with |- List <$> ?go _ = _ => assert (go (map Value_encode l) = Some l) as ->; [|done] end.
    induction IH as [|v l Hi _ IHl]; [done|]. destruct Hv as [Hv Hl]. cbn. rewrite Hi by done. cbn. by rewrite IHl.
  - destruct Hv as [Hm Hv]. cbn [Value_decode].
    match goal with |- _ <$> ?go ?e = _ => assert (go e = Some m) as -> end; [|cbn; by rewrite Hm].
    clear Hm. induction IH as [|[k v] m Hi _ IHm]; [done|]. destruct Hv as [Hv Hl]. cbn in Hi |- *. rewrite Hi by done. cbn.
    by rewrite IHm.
Qed.

#[local] Instance identifier_lawful : Lawful Identifier_codec.
Proof. intros i Hi. cbn in *. by rewrite Hi. Qed.
#[local] Instance permission_lawful : Lawful PermissionEntry_codec.
Proof.
  intros [i|i [allow deny]] Hv.
  - change (PermissionRef <$> decode Identifier_codec (encode Identifier_codec i) = Some (PermissionRef i)). by rewrite lawful.
  - change (read_object false ExtendedPermission_serde (entries ExtendedPermission_serde (ExtendedPermission i (mk_scopes allow deny)))
              = Some (ExtendedPermission i (mk_scopes allow deny))).
    apply object_reads; [vm_compute; reflexivity|all_lawful|done|exact Hv].
Qed.
#[local] Instance capability_remote_lawful : Lawful (struct_codec false CapabilityRemote_serde).
Proof. struct_law. Qed.
#[local] Instance unless_empty_lawful k : LawfulField (unless_empty k).
Proof. split; [apply _|]. intros l _ Hl. cbn in *. by apply bool_decide_eq_true in Hl as ->. Qed.
Lemma capability_fields : lawful_fields Capability_serde.
Proof. all_lawful. Qed.
#[local] Instance capability_entry_lawful : Lawful CapabilityEntry_codec.
Proof.
  intros [c|s] Hv; [|done].
  change (TauriBuild.Inlined <$> read_object false Capability_serde (entries Capability_serde c) = Some (TauriBuild.Inlined c)).
  rewrite object_reads; [done|vm_compute; reflexivity|apply capability_fields|by destruct c|exact Hv].
Qed.

(** *** Security *)
#[local] Instance sources_lawful : Lawful CspDirectiveSources_codec.
Proof.
  intros [s|l] _; [done|]. expose_variants. apply read_second; [reflexivity|].
  change (Csp.List <$> decode texts (encode texts l) = Some (Csp.List l)). by rewrite texts_read.
Qed.
#[local] Instance csp_lawful : Lawful Csp_codec.
Proof.
  intros [s|m] _; [done|]. expose_variants. apply read_second; [reflexivity|].
  change (Csp.DirectiveMap <$> decode (map_codec CspDirectiveSources_codec) (encode (map_codec CspDirectiveSources_codec) m)
            = Some (Csp.DirectiveMap m)). rewrite lawful; [done|]. by intros ? ? _.
Qed.
#[local] Instance csp_not_null : NotNull Csp_codec.
Proof. by intros []. Qed.
#[local] Instance disabled_lawful : Lawful DisabledCspModificationKind_codec.
Proof.
  intros [b|l] _; [done|]. expose_variants. apply read_second; [reflexivity|].
  change (Csp.DisabledList <$> decode texts (encode texts l) = Some (Csp.DisabledList l)). by rewrite texts_read.
Qed.
#[local] Instance scope_lawful : Lawful FsScope_codec.
Proof.
  intros [l|allow deny dot] _; expose_variants.
  - apply read_first. change (FsScope.AllowedPaths <$> decode texts (encode texts l) = Some (FsScope.AllowedPaths l)). by rewrite texts_read.
  - apply read_second; [reflexivity|]. variant_law false FsScope_serde. by destruct dot.
Qed.
#[local] Instance asset_protocol_lawful : Lawful (struct_codec true AssetProtocolConfig_serde).
Proof. struct_law. Qed.
#[local] Instance header_source_lawful : Lawful HeaderSource_codec.
Proof.
  intros [s|l|m] _; [done|..]; expose_variants.
  - apply read_second; [reflexivity|].
    change (Csp.ListHeader <$> decode texts (encode texts l) = Some (Csp.ListHeader l)). by rewrite texts_read.
  - apply read_third; [reflexivity|reflexivity|].
    change (Csp.MapHeader <$> decode files_codec (encode files_codec m) = Some (Csp.MapHeader m)). by rewrite files_read.
Qed.
#[local] Instance header_source_not_null : NotNull HeaderSource_codec.
Proof. by intros []. Qed.
#[local] Instance headers_lawful : Lawful (struct_codec true HeaderConfig_serde).
Proof. struct_law. Qed.
#[local] Instance pattern_lawful : Lawful PatternKind_codec.
Proof. by intros []. Qed.
#[local] Instance security_lawful : Lawful (struct_codec true SecurityConfig_serde).
Proof. struct_law. Qed.

(** *** The application, builds and the whole *)
#[local] Instance tray_lawful : Lawful (struct_codec true TrayIconConfig_serde).
Proof. struct_law. Qed.
#[local] Instance app_lawful : Lawful (struct_codec true AppConfig_serde).
Proof. struct_law. Qed.
#[local] Instance frontend_dist_lawful : Lawful FrontendDist_codec.
Proof.
  intros [s|s|l] Hv; cbn in Hv.
  - cbn. by rewrite Hv.
  - cbn. by rewrite Hv.
  - expose_variants. apply read_third; [reflexivity|reflexivity|].
    change (DistFiles <$> decode texts (encode texts l) = Some (DistFiles l)). by rewrite texts_read.
Qed.
#[local] Instance frontend_dist_not_null : NotNull FrontendDist_codec.
Proof. by intros []. Qed.
#[local] Instance dev_command_lawful : Lawful BeforeDevCommand_codec.
Proof.
  intros [s|s cwd w] _; [done|]. expose_variants. apply read_second; [reflexivity|]. variant_law false dev_serde. by destruct cwd.
Qed.
#[local] Instance dev_command_not_null : NotNull BeforeDevCommand_codec.
Proof. by intros []. Qed.
#[local] Instance hook_lawful : Lawful HookCommand_codec.
Proof.
  intros [s|s cwd] _; [done|]. expose_variants. apply read_second; [reflexivity|]. variant_law false hook_serde. by destruct cwd.
Qed.
#[local] Instance hook_not_null : NotNull HookCommand_codec.
Proof. by intros []. Qed.
#[local] Instance build_lawful : Lawful (struct_codec true BuildConfig_serde).
Proof. struct_law. Qed.
#[local] Instance version_lawful read_json : Lawful (version_codec read_json).
Proof. intros [v|] Hv; [|done]. destruct Hv as [He Hs]. cbn. unfold package_version. by rewrite He, Hs. Qed.
#[local] Instance plugins_lawful : Lawful PluginConfig_codec.
Proof. unfold PluginConfig_codec. apply _. Qed.

#[local] Instance version_field_lawful read_json :
  LawfulField (mk_field "version" [] (version_codec read_json) (Some None) (Some None) is_none).
Proof. split; [apply _|]. by intros []. Qed.

(** C37. A configuration that was written is read back: the value of every field of
    every type in it is that which was written, under the conditions that
    [valid] names where reading may answer another value. *)
Theorem config_read_back read_json c :
  valid (Config_codec read_json) c → decode (Config_codec read_json) (encode (Config_codec read_json) c) = Some c.
Proof. revert c. change (Lawful (Config_codec read_json)). unfold Config_codec. struct_law. Qed.

(** *** Defaults *)

(** A type whose fields are all missing is its [Default], so that leaving a
    section out is the same as leaving it empty. *)
Theorem defaults_agree :
  default_of AppImageConfig_serde = Some AppImageConfig_default ∧ default_of DebConfig_serde = Some DebConfig_default ∧
  default_of RpmConfig_serde = Some RpmConfig_default ∧ default_of LinuxConfig_serde = Some LinuxConfig_default ∧
  default_of DmgConfig_serde = Some DmgConfig_default ∧ default_of MacConfig_serde = Some MacConfig_default ∧
  default_of WixConfig_serde = Some WixConfig_default ∧ default_of NsisConfig_serde = Some NsisConfig_default ∧
  default_of WindowsConfig_serde = Some WindowsConfig_default ∧ default_of IosConfig_serde = Some IosConfig_default ∧
  default_of AndroidConfig_serde = Some AndroidConfig_default ∧ default_of BundleConfig_serde = Some BundleConfig_default ∧
  default_of AssetProtocolConfig_serde = Some AssetProtocolConfig_default ∧
  default_of SecurityConfig_serde = Some SecurityConfig_default ∧ default_of AppConfig_serde = Some AppConfig_default ∧
  default_of BuildConfig_serde = Some default_build.
Proof. split_and!; reflexivity. Qed.

(** A window is the exception: one whose fields are missing is focused, the
    [Default] is not. *)
Theorem default_window_not_focused :
  (∃ w, default_of WindowConfig_serde = Some w ∧ focus w = true) ∧ focus WindowConfig_default = false.
Proof. split; [|done]. by eexists. Qed.

(** An identifier is all a configuration needs. *)
Theorem minimal_config read_json id :
  decode (Config_codec read_json) (JObject [("identifier", JString id)]) =
    Some (mk_config _ None None None None id AppConfig_default default_build BundleConfig_default ∅).
Proof. reflexivity. Qed.

(** Without one it is refused, as is the example of the documentation. *)
Theorem identifier_required read_json m :
  "identifier" ∉ m.*1 → decode (Config_codec read_json) (JObject m) = None.
Proof.
  intros Hm. apply (needed_refused (Config_serde read_json) "identifier"); [|done]. cbn. naive_solver.
Qed.

(** *** Fields that are not known, and names *)

(** What is written next to the known fields is an error, not ignored. *)
Theorem unknown_field_refused read_json k v m :
  k ∉ all_names (Config_serde read_json) → (k, v) ∈ m → decode (Config_codec read_json) (JObject m) = None.
Proof. intros Hk Hin. exact (unknown_refused (Config_serde read_json) k v m Hk Hin). Qed.

(** A name in kebab case stands for its name in camel case. *)
Theorem kebab_names_read m m' v :
  let same k k' := from_map WindowConfig_serde (m ++ (k, v) :: m') = from_map WindowConfig_serde (m ++ (k', v) :: m') in
  same "user-agent" "userAgent" ∧ same "always-on-top" "alwaysOnTop" ∧ same "background-color" "backgroundColor" ∧
  same "zoom-hotkeys-enabled" "zoomHotkeysEnabled" ∧ same "min-width" "minWidth".
Proof. cbn zeta. split_and!; apply alias_reads; vm_compute; reflexivity. Qed.

(** Some fields have no name in kebab case, and the icon of an installer has a
    wrong one. *)
Theorem kebab_names_missing v :
  read_object true BundleConfig_serde [("file-associations", v)] = None ∧
  read_object true BundleConfig_serde [("create-updater-artifacts", v)] = None ∧
  read_object true WindowConfig_serde [("window-classname", v)] = None ∧
  read_object true NsisConfig_serde [("installer-icon", v)] = None ∧
  (∃ c, read_object true NsisConfig_serde [("install-icon", JString "a.ico")] = Some c ∧ installer_icon c = Some "a.ico").
Proof. split_and!; [vm_compute; reflexivity..|]. eexists. split; [vm_compute; reflexivity|reflexivity]. Qed.

(** *** What is not read back *)

(** Null for the version of macOS is no version, which is not written: the
    default is back after a round trip, as when configurations are merged. *)
Theorem null_minimum_version_returns :
  ∃ c, decode (struct_codec true MacConfig_serde) (JObject [("minimumSystemVersion", JNull)]) = Some c ∧
    mac_minimum_system_version c = None ∧
    decode (struct_codec true MacConfig_serde) (encode (struct_codec true MacConfig_serde) c) = Some MacConfig_default.
Proof.
  eexists. split; [reflexivity|]. split; [reflexivity|]. cbn [decode encode struct_codec read_struct]. unfold read_object.
  rewrite entries_known, andb_false_r, from_entries; [reflexivity| | |].
  - apply (bool_decide_unpack _). vm_compute. exact I.
  - cbn. repeat split; apply _.
  - cbn. repeat split; try done; lia.
Qed.

(** The path of a page that can be read as a url is read as one. *)
Theorem app_path_read_as_url p u :
  url_parse p = Some u → is_external u = false → decode WebviewUrl_codec (encode WebviewUrl_codec (App p)) = Some (CustomProtocol u).
Proof. intros Hp Hu. cbn. by rewrite Hp, Hu. Qed.

(** A variant without fields takes any, though unknown fields are refused. *)
Theorem unit_variants_take_fields v :
  decode WebviewInstallMode_codec (JObject [("type", JString "skip"); ("silent", v)]) = Some Skip ∧
  decode RpmCompression_codec (JObject [("type", JString "none"); ("level", v)]) = Some Bundler.NoCompression.
Proof. split; reflexivity. Qed.

End Laws.

(** ** Colors *)
Lemma hex_value_bounds c z : hex_value c = Some z → (0 ≤ z < 16)%Z.
Proof. unfold hex_value. intros H. repeat case_decide; simplify_eq; lia. Qed.

Lemma slice2_length l i s : slice2 l i = Ok s → length s ≤ 2.
Proof. unfold slice2. destruct (_ && _); [|done]. intros [= <-]. rewrite length_take. lia. Qed.

Lemma from_hex_bounds l z : length l ≤ 2 → from_hex l = Ok z → (0 ≤ z < 256)%Z.
Proof.
  unfold from_hex. intros Hl H. apply bind_ok in H as (ds & Hd & [= <-]).
  assert (length (hex_digits l) ≤ 2) as Hlen.
  { unfold hex_digits. destruct l as [|c [|c' l]]; [cbn; lia..|]. case_decide; cbn in *; lia. }
  revert Hlen Hd. generalize (hex_digits l). intros digits Hlen Hd. destruct (mapM hex_value digits) as [ds'|] eqn:E; [|done]. injection Hd as ->. apply mapM_Some in E.
  destruct E as [|c d cs ds Hc E]; [cbn; lia|]. apply hex_value_bounds in Hc.
  destruct E as [|c' d' cs ds Hc' E]; [cbn; lia|]. apply hex_value_bounds in Hc'. cbn in Hlen.
  destruct E; cbn in *; lia.
Qed.

(** A text that is read as a color has components of a byte. *)
Theorem color_in_bounds s c :
  Color_from_str s = Ok c →
  (0 ≤ red c < 256 ∧ 0 ≤ green c < 256 ∧ 0 ≤ blue c < 256 ∧ 0 ≤ alpha c < 256)%Z.
Proof.
  unfold Color_from_str. intros H. apply bind_ok in H as (l & _ & H).
  apply bind_ok in H as (r & (s1 & H1 & Hr)%bind_ok & H). apply bind_ok in H as (g & (s2 & H2 & Hg)%bind_ok & H).
  apply bind_ok in H as (b & (s3 & H3 & Hb)%bind_ok & H). apply bind_ok in H as (a & (s4 & H4 & Ha)%bind_ok & [= <-]).
  apply from_hex_bounds in Hr, Hg, Hb, Ha; [by split_and!; cbn in *; lia|by eapply slice2_length..].
Qed.

(** The forms of a color: three digits are doubled, and an alpha is added. *)
Theorem color_forms :
  Color_from_str "#0af" = Color_from_str "#00aaff" ∧ Color_from_str "#00aaff" = Color_from_str "#00aaffff" ∧
  Color_from_str "#00AAFF80" = Ok (mk_color 0 170 255 128) ∧ is_Some (ok (Color_from_str "0af")).
Proof. split_and!; [vm_compute; reflexivity..|]. vm_compute. by eexists. Qed.

(** A text with a character of several bytes panics where it is cut. *)
Theorem color_panics :
  Color_from_str (String "#" (of_bytes (ascii_of_nat <$> [226; 130; 172]))) = Panic "byte index is not a char boundary".
Proof. vm_compute. reflexivity. Qed.

(** Signs are taken for digits, which the schema refuses. *)
Theorem signed_color_accepted : Color_from_str "#+f+f+f" = Ok (mk_color 15 15 15 255).
Proof. vm_compute. reflexivity. Qed.

(** A text is trimmed only before its sign. *)
Theorem color_trimmed_with_sign_only :
  is_Some (ok (Color_from_str " #fff ")) ∧ ok (Color_from_str " fff ") = None.
Proof. split; [vm_compute; by eexists|vm_compute; reflexivity]. Qed.

(** ** A configuration *)
#[local] Instance ex_numbers : SerdeLib := {|
  json_number := Z + spec_float;
  as_f64 n := match n with inl i => Some (Values.f64_of i) | inr f => Some f end;
  as_u64 n := match n with inl i => if (0 <=? i)%Z then Some i else None | inr _ => None end;
  as_i64 n := match n with inl i => Some i | inr _ => None end;
  from_f64 f := if Values.finite f then Some (inr f) else None;
  from_i64 i := inl i;
  toml_datetime := string;
  datetime_to_string d := d;
|}.
#[local] Instance ex_number_laws : NumberLaws.
Proof.
  split; cbn; intros.
  - by rewrite (proj2 (Z.leb_le 0 z)) by lia.
  - done.
  - destruct (Values.finite f); by simplify_eq.
  - destruct (Values.finite f); by simplify_eq.
Qed.
#[local] Instance ex_urls : UrlText := {|
  url_parse s := if starts_with "http" s then Some s else None;
  url_scheme s := "http";
|}.
#[local] Instance ex_versions : VersionLib := {| uuid_parse s := Some s; semver_parse s := Some s; version_path_exists _ := false |}.

Definition ex_window : WindowConfig := WindowConfig_default.
Definition ex_config : Config :=
  mk_config _ None (Some "app") None (Some "1.0.0") "org.app"
    (mk_app [ex_window] (mk_security (Some (Csp.Policy "default-src 'self'")) None true (Csp.Flag false)
       (mk_asset_protocol (FsScope.ScopeConfig ["$HOME/*"] [] (Some true)) true) (CargoManifest.Isolation "dist") [TauriBuild.Reference "main"] None)
       (Some (mk_tray None "icon.png" true true true None None)) false true false)
    (mk_build_config None (Some "http://localhost:1420") (Some (DistDirectory "../dist")) (Some (DevScript "npm run dev")) None None None)
    BundleConfig_default ∅.

Lemma config_read_back_witness :
  decode (Config_codec (λ _, None)) (encode (Config_codec (λ _, None)) ex_config) = Some ex_config.
Proof.
  apply (config_read_back (λ _, None) ex_config). cbn. repeat split; try done; try (by eexists).
  all: repeat first [apply Forall_nil_2|apply map_Forall_empty|apply Forall_cons; split]; cbn; repeat split; try done; by eexists.
Defined.

End ConfigLaws.
