(* ===== verification/DevCommand.v ===== *)
(** * Development and builds on the command line

    Models of [tauri-cli/Source] what comes before and after Cargo:
    [dev/builtin_dev_server.rs], the server for static files; of [dev.rs] the
    preparation of [tauri dev], the process started before it and the end of it;
    of [build.rs] the checks before a build; [run_hook] of [helpers/mod.rs]; and
    the directories of [helpers/app_paths.rs]. The file system that scripts
    change is a state that is passed on; sockets, scripts and the parser of HTML
    are parameters. *)
From Stdlib Require Import Ascii.
From S2P Require Import Prelude Acl Paths Numbers MigrateConfig Values ConfigFiles JsonObject CargoManifest Channel Listeners AssetProtocol AppAssets Html Bundler RustInterface ConfigData.
Import Acl Paths Values.

(** What the development server is built on. *)
Class DevServerLib := {
  (** [dunce::canonicalize] and [std::fs::read] *)
  dev_canonicalize : string → option string;
  dev_read : string → option string;
  (** whether a port of the address can be bound *)
  bind : N → bool;
  (** [kuchiki::parse_html] on a text *)
  parse_html : string → Html.Node;
  RELOAD_SCRIPT : string;
}.

(** The world that scripts change. *)
Class ScriptWorld := {
  World : Type;
  world_exists : World → string → bool;
  world_is_dir : World → string → bool;
  world_canonicalize : World → string → option string;
  (** [sh -c]: [None] where the shell does not start, else the exit code *)
  run_script : World → string → string → list (string * string) → World * option (option Z);
}.

Module DevCommand.

(** ** [builtin_dev_server.rs] *)
Section Server.
Context {DS : DevServerLib} {AL : AssetLib} {SE : HtmlSerializer} {SL : SelectorLib}.

(** [Path::starts_with]. *)
Definition path_starts_with (path scope : string) : bool := bool_decide (components scope `prefix_of` components path).

Definition fs_read_scoped (path scope : string) : option string :=
  path ← dev_canonicalize path;
  if path_starts_with path scope then dev_read path else None.

(** The script that reloads the page comes first in its head. *)
Definition reload_script (address : string) : Html.Node :=
  Html.Element (Html.html_name "script") [] None
    [Html.Text (Migrate.str_replace "{{reload_url}}" ("ws://" +:+ address +:+ "/__tauri_cli") RELOAD_SCRIPT)].

Definition inject_address (html_bytes address : string) : string :=
  let document := parse_html (AppAssets.from_utf8_lossy html_bytes) in
  Html.serialize_node (Html.with_head (Html.prepend_child (reload_script address)) document).

Record Response := mk_response { status : Z; content_type : string; content : string }.

Definition or_else (a b : option string) : option string := match a with Some x => Some x | None => b end.

(** The file for a path of a request: itself, a page of its name, the index of
    its directory, or the index of all. *)
Definition find_file (dir uri : string) : option string :=
  or_else (fs_read_scoped (push dir uri) dir)
    (or_else (fs_read_scoped (push dir (uri +:+ ".html")) dir)
      (or_else (fs_read_scoped (push dir (uri +:+ "/index.html")) dir) (dev_read (push dir "index.html")))).

Definition request_uri (uri : string) : string := if decide (uri = "/") then uri else default uri (strip_prefix "/" uri).

Definition handler (dir address uri : string) : Response :=
  let uri := request_uri uri in
  match find_file dir uri with
  | Some bytes =>
      let mime_type := AssetProtocol.parse_with_fallback bytes uri AssetProtocol.OctetStream in
      mk_response 200 mime_type
        (if decide (mime_type = AssetProtocol.MimeType_to_string AssetProtocol.Html) then inject_address bytes address else bytes)
  | None => mk_response 404 "text/plain" ""
  end.

(** The search for a port, from the first one: a port that is given is the only
    one. The port is a [u16]. *)
Fixpoint find_port (fuel : nat) (auto_port : bool) (port : N) : outcome string N :=
  match fuel with
  | O => Diverge
  | S fuel =>
      if bind port then Ok port
      else if negb auto_port then Err ("Couldn't bind to " +:+ print_u32 port)
      else if decide (port + 1 < 65536)%N then find_port fuel auto_port (port + 1)
      else Panic "attempt to add with overflow"
  end.

Definition start_port (port : option N) : outcome string N :=
  let first := default 1430%N port in find_port (N.to_nat (65536 - first)) (bool_decide (port = None)) first.

End Server.

(** ** Hooks *)
(** Why a command fails: an error it returns, or a call of [exit]. *)
Inductive Failure :=
| NotStarted (script : string)
| ScriptFailed (name script : string) (code : Z)
| AssetsNotFound (dist : string)
| DistIsApplication
| DistIncludes (folders : list string)
| ManifestError (e : RustInterface.CliError)
| ConfigError (e : ConfigFiles.CliError)
| PortTaken (text : string)
| IoFailed (path : string).
Inductive CommandError := Failed (why : Failure) | ExitWith (code : Z).

Section Hooks.
Context {SW : ScriptWorld} (platform_version frontend_dir : string) (interface_env : list (string * string)).

Definition command_env (debug : bool) : list (string * string) :=
  ("TAURI_ENV_PLATFORM_VERSION", platform_version) :: (if debug then [("TAURI_ENV_DEBUG", "true")] else []).

(** A script that is awaited; one without a code failed. *)
Definition run_awaited (name script cwd : string) (debug : bool) (w : World) : outcome CommandError World :=
  let '(w, status) := run_script w script cwd (command_env debug ++ interface_env) in
  match status with
  | None => Err (Failed (NotStarted script))
  | Some (Some 0%Z) => Ok w
  | Some code => Err (Failed (ScriptFailed name script (default 0%Z code)))
  end.

Definition run_hook (name : string) (hook : ConfigData.HookCommand) (debug : bool) (w : World) : outcome CommandError World :=
  let '(script, script_cwd) :=
    match hook with
    | ConfigData.HookScript "" => (None, None)
    | ConfigData.HookScript s => (Some s, None)
    | ConfigData.HookWithOptions script cwd => (Some script, cwd)
    end in
  let cwd := default frontend_dir script_cwd in
  match script with Some script => run_awaited name script cwd debug w | None => Ok w end.

(** ** [build.rs] *)
Context {U : UnicodeTables}.

(** The characters of an identifier. *)
Definition identifier_char (c : N) : bool := Listeners.is_alphanumeric c || (c =? 45)%N || (c =? 46)%N.
Definition valid_identifier (ident : string) : bool :=
  forallb identifier_char (Listeners.chars (String.length ident) (bytes ident)).

Definition bad_folders (w : World) (dist : string) : list string :=
  filter (λ folder, world_is_dir w (push dist folder) = true) ["node_modules"; "src-tauri"; "target"].

Definition file_name (p : string) : option string :=
  match last (components p) with Some (Normal n) => Some n | _ => None end.

Definition check_dist (w : World) (dist : string) : outcome CommandError () :=
  if negb (world_exists w dist) then Err (Failed (AssetsNotFound dist))
  else
    path ← ok_or (world_canonicalize w dist) (Failed (IoFailed dist));
    if decide (file_name path = Some "src-tauri") then Err (Failed DistIsApplication)
    else if decide (bad_folders w dist = []) then Ok ()
    else Err (Failed (DistIncludes (bad_folders w dist))).

(** The checks and the hook, before the options are completed. *)
Definition checked_build (ident : string) (debug : bool) (c : ConfigData.BuildConfig) (w : World) : outcome CommandError World :=
  if decide (ident = "com.tauri.dev") then Err (ExitWith 1)
  else if negb (valid_identifier ident) then Err (ExitWith 1)
  else
    w ← match ConfigData.before_build_command c with
        | Some before_build => run_hook "beforeBuildCommand" before_build debug w
        | None => Ok w
        end;
    _ ← match ConfigData.frontend_dist c with Some (ConfigData.DistDirectory dist) => check_dist w dist | _ => Ok () end;
    Ok w.

(** [setup]: the runner of the command line goes before that of the
    configuration, the features of both are used. *)
Definition build_setup {ML : CargoManifest.ManifestLib} (fuel : nat) (manifest : CargoManifest.Manifest) (ident : string)
    (o : RustInterface.BuildOptions) (c : ConfigData.BuildConfig) (mobile : bool) (w : World)
    : outcome CommandError (World * RustInterface.BuildOptions) :=
  w ← checked_build ident (RustInterface.build_debug o) c w;
  let runner := match RustInterface.build_runner o with Some r => Some r | None => ConfigData.config_runner c end in
  let features := default [] (RustInterface.build_features o) ++ default [] (ConfigData.config_features c) in
  match RustInterface.build_options fuel mobile manifest (RustInterface.build_args o) (Some features) with
  | Ok (args, features) =>
      Ok (w, RustInterface.mk_build runner (RustInterface.build_debug o) (RustInterface.build_target o) features
               (RustInterface.build_bundles o) (RustInterface.build_no_bundle o) args (RustInterface.build_ci o))
  | Err e => Err (Failed (ManifestError e))
  | Panic msg => Panic msg
  | Diverge => Diverge
  end.

(** ** [dev.rs] *)

(** The process that was started before the application, if any, whether it was
    ended, and how often. *)
Record BeforeDev := mk_before_dev { child : option N; kill_flag : bool; kills : nat }.

Definition kill_before_dev_process (b : BeforeDev) : BeforeDev :=
  match child b with
  | Some _ => if kill_flag b then b else mk_before_dev (child b) true (S (kills b))
  | None => b
  end.

(** A script that is not awaited gets a child of its own, or there is a panic. *)
Definition run_before_dev (spawn : string → string → list (string * string) → option N) (c : ConfigData.BuildConfig) (w : World) (b : BeforeDev)
    : outcome CommandError (World * BeforeDev) :=
  match ConfigData.before_dev_command c with
  | None => Ok (w, b)
  | Some before_dev =>
      let '(script, script_cwd, wait) :=
        match before_dev with
        | ConfigData.DevScript "" => (None, None, false)
        | ConfigData.DevScript s => (Some s, None, false)
        | ConfigData.DevWithOptions script cwd wait => (Some script, cwd, wait)
        end in
      let cwd := default frontend_dir script_cwd in
      match script with
      | None => Ok (w, b)
      | Some before_dev =>
          if wait : bool then w ← run_awaited "beforeDevCommand" before_dev cwd true w; Ok (w, b)
          else
            id ← expect (spawn before_dev cwd (command_env true ++ interface_env)) ("failed to run `" +:+ before_dev +:+ "`");
            Ok (w, mk_before_dev (Some id) false (kills b))
      end
  end.

End Hooks.

Section DevConfig.
Context {SV : SerdeLib}.

(** The address of the server, put into the configuration of the command line:
    where there is one it is changed only if it has an object of the build. *)
Definition with_dev_url (server_url : string) (config : option json) : option json :=
  match config with
  | Some (JObject root) =>
      match JsonObject.get "build" root with
      | Some (JObject build) =>
          Some (JObject (JsonObject.insert "build" (JObject (JsonObject.insert "devUrl" (JString server_url) build)) root))
      | _ => config
      end
  | Some _ => config
  | None => Some (JObject [("build", JObject [("devUrl", JString server_url)])])
  end.

Record DevOptions := mk_dev_options {
  opt_config : option json;
  opt_runner : option string;
  opt_host : option string;
  opt_port : option N;
  no_dev_server : bool;
  no_dev_server_wait : bool;
}.

End DevConfig.

Section Dev.
Context {DS : DevServerLib} {SW : ScriptWorld} {SV : SerdeLib} {CL : ConfigLib} {CF : ConfigFs}.

(** The url and network packages: the host and the port of a url, the addresses
    of a host, and whether an address can be connected to in a round. *)
Context (socket_addr : string → N → string) (url_host : string → option string) (url_port : string → option N)
  (to_socket_addrs : string → N → option (list string)) (connect : nat → string → bool).

Definition max_attempts : nat := 90.

(** A round tries every address; 90 rounds without one end the process. *)
Fixpoint wait_rounds (fuel i : nat) (addrs : list string) : outcome CommandError nat :=
  match fuel with
  | O => Diverge
  | S fuel =>
      if existsb (connect i) addrs then Ok i
      else if decide (i + 1 = max_attempts) then Err (ExitWith 1)
      else wait_rounds fuel (i + 1) addrs
  end.

Definition wait_for_url (url : string) : outcome CommandError nat :=
  host ← expect (url_host url) "No host name in the URL";
  port ← expect (url_port url) "No port number in the URL";
  addrs ← ok_or (to_socket_addrs host port) (Failed (IoFailed host));
  wait_rounds max_attempts 0 addrs.

(** The server for static files, where there is no url: it serves the directory
    of the frontend, and the configuration is read again with its url. *)
Definition builtin_server (tauri_dir : list Component) (o : DevOptions) (c : ConfigData.BuildConfig) (w : World) (st : ConfigFiles.Cli)
    : outcome CommandError (option string * DevOptions * ConfigFiles.Cli) :=
  if negb (no_dev_server o) && bool_decide (ConfigData.dev_url c = None) then
    match ConfigData.frontend_dist c with
    | Some (ConfigData.DistDirectory path) =>
        if world_exists w path then
          _ ← ok_or (world_canonicalize w path) (Failed (IoFailed path));
          let ip := default "127.0.0.1" (opt_host o) in
          port ← match start_port (opt_port o) with
                 | Ok p => Ok p | Err e => Err (Failed (PortTaken e)) | Panic msg => Panic msg | Diverge => Diverge
                 end;
          let server_url := "http://" +:+ socket_addr ip port in
          let config := with_dev_url server_url (opt_config o) in
          let o := mk_dev_options config (opt_runner o) (opt_host o) (opt_port o) (no_dev_server o) (no_dev_server_wait o) in
          match ConfigFiles.reload tauri_dir config st with
          | (Ok _, st) => Ok (Some server_url, o, st)
          | (Err e, _) => Err (Failed (ConfigError e))
          | (Panic msg, _) => Panic msg
          | (Diverge, _) => Diverge
          end
        else Ok (None, o, st)
    | _ => Ok (None, o, st)
    end
  else Ok (ConfigData.dev_url c, o, st).

(** What follows once the process before the application runs. *)
Definition dev_server_setup (tauri_dir : list Component) (o : DevOptions) (c : ConfigData.BuildConfig) (w : World) (st : ConfigFiles.Cli)
    : outcome CommandError (DevOptions * ConfigFiles.Cli) :=
  let runner := match opt_runner o with Some r => Some r | None => ConfigData.config_runner c end in
  let o := mk_dev_options (opt_config o) runner (opt_host o) (opt_port o) (no_dev_server o) (no_dev_server_wait o) in
  '(dev_url, o, st) ← builtin_server tauri_dir o c w st;
  _ ← match dev_url with
      | Some url => if no_dev_server_wait o then Ok 0 else wait_for_url url
      | None => Ok 0
      end;
  Ok (o, st).

(** [setup], with the process that was started before the application. *)
Definition dev_setup (platform_version frontend_dir : string) (interface_env : list (string * string))
    (spawn : string → string → list (string * string) → option N) (tauri_dir : list Component) (o : DevOptions) (c : ConfigData.BuildConfig)
    (w : World) (b : BeforeDev) (st : ConfigFiles.Cli)
    : outcome CommandError (DevOptions * ConfigFiles.Cli) * BeforeDev :=
  match run_before_dev platform_version frontend_dir interface_env spawn c w b with
  | Ok (w, b) => (dev_server_setup tauri_dir o c w st, b)
  | Err e => (Err e, b)
  | Panic msg => (Panic msg, b)
  | Diverge => (Diverge, b)
  end.

(** [command]: an error of the setup ends that process; a call of [exit] does
    not come back. *)
Definition dev_command (r : outcome CommandError (DevOptions * ConfigFiles.Cli) * BeforeDev)
    : outcome CommandError (DevOptions * ConfigFiles.Cli) * BeforeDev :=
  match r with
  | (Err (Failed why), b) => (Err (Failed why), kill_before_dev_process b)
  | _ => r
  end.

End Dev.

(** ** The end of the application *)
Inductive ExitReason := TriggeredKill | CompilationFailed | NormalExit.

#[global] Instance ExitReason_eq_dec : EqDecision ExitReason.
Proof. solve_decision. Defined.

(** The exit code of the command line, if it ends. *)
Definition on_app_exit (code : option Z) (reason : ExitReason) (exit_on_panic no_watch : bool) (b : BeforeDev) : BeforeDev * option Z :=
  if no_watch || (negb (bool_decide (reason = TriggeredKill)) && (exit_on_panic || bool_decide (reason = NormalExit)))
  then (kill_before_dev_process b, Some (default 0%Z code))
  else (b, None).

(** ** [helpers/app_paths.rs] *)
Section AppPaths.
Context {FS : ConfigFs}.

(** The environment, the directory of the process, and the package [ignore],
    which lists the entries of a directory down to a depth. *)
Context (env_var : string → option string) (canonicalize : string → option Bundler.PathBuf)
  (current_dir : option Bundler.PathBuf) (walk : Bundler.PathBuf → list Bundler.PathBuf) (is_dir : Bundler.PathBuf → bool).

(** How [lookup] has two entries of a directory compared. *)
Definition entry_order (a b : Bundler.PathBuf) : comparison :=
  match Bundler.path_extension a with Some _ => Lt | None => Gt end.

Definition lookup (dir : Bundler.PathBuf) (checker : Bundler.PathBuf → bool) : option Bundler.PathBuf :=
  List.find checker (Bundler.join_path dir <$> walk dir).

Definition env_tauri_app_path : option Bundler.PathBuf := s ← env_var "TAURI_APP_PATH"; canonicalize s.
Definition env_tauri_frontend_path : option Bundler.PathBuf := s ← env_var "TAURI_FRONTEND_PATH"; canonicalize s.

Definition parent_of (p : Bundler.PathBuf) : outcome CommandError Bundler.PathBuf :=
  expect (ConfigFiles.parent p) "called `Option::unwrap()` on a `None` value".

Definition tauri_checker (p : Bundler.PathBuf) : bool :=
  ConfigFiles.folder_has_configuration_file Linux p || ConfigFiles.is_configuration_file Linux p.

Definition resolve_tauri_dir : outcome CommandError (option Bundler.PathBuf) :=
  match (match env_tauri_app_path with Some p => Some p | None => current_dir end) with
  | None => Ok None
  | Some src_dir =>
      if exists_ (ConfigFiles.join_name src_dir (ConfigFiles.into_file_name ConfigFiles.Json))
         || exists_ (ConfigFiles.join_name src_dir (ConfigFiles.into_file_name ConfigFiles.Json5))
         || exists_ (ConfigFiles.join_name src_dir (ConfigFiles.into_file_name ConfigFiles.Toml))
      then Ok (Some src_dir)
      else match lookup src_dir tauri_checker with
           | Some p => if is_dir p then Ok (Some p) else Some <$> parent_of p
           | None => Ok None
           end
  end.

Definition resolve_frontend_dir : outcome CommandError (option Bundler.PathBuf) :=
  dir ← match env_tauri_frontend_path with Some p => Ok p | None => expect current_dir "failed to read cwd" end;
  if exists_ (ConfigFiles.join_name dir "package.json") then Ok (Some dir)
  else match lookup dir (λ p, bool_decide (Bundler.path_file_name p = Some "package.json")) with
       | Some p => Some <$> parent_of p
       | None => Ok None
       end.

(** The two cells, which can be set once. *)
Record AppPaths := mk_app_paths { TAURI_DIR : option Bundler.PathBuf; FRONTEND_DIR : option Bundler.PathBuf }.

Definition set_once (cell : option Bundler.PathBuf) (p : Bundler.PathBuf) (msg : string)
    : outcome CommandError (option Bundler.PathBuf) :=
  match cell with None => Ok (Some p) | Some _ => Panic msg end.

Definition resolve (st : AppPaths) : outcome CommandError AppPaths :=
  found ← resolve_tauri_dir;
  tauri ← expect found "Couldn't recognize the folder as a Tauri project.";
  cell ← set_once (TAURI_DIR st) tauri "tauri dir already resolved";
  frontend ← resolve_frontend_dir;
  frontend ← match frontend with Some p => Ok p | None => parent_of tauri end;
  front_cell ← set_once (FRONTEND_DIR st) frontend "app dir already resolved";
  Ok (mk_app_paths cell front_cell).

End AppPaths.

(** ** What the server serves *)
Section ServerProofs.
Context {DS : DevServerLib} {AL : AssetLib} {SE : HtmlSerializer} {SL : SelectorLib}.

Lemma scoped_inside path scope bytes :
  fs_read_scoped path scope = Some bytes →
  ∃ p, dev_canonicalize path = Some p ∧ components scope `prefix_of` components p ∧ dev_read p = Some bytes.
Proof.
  unfold fs_read_scoped. destruct (dev_canonicalize path) as [p|]; [|done]. cbn. unfold path_starts_with.
  case_bool_decide; [|done]. intros Hr. by exists p.
Qed.

(** Every file the server sends, whatever path is asked for, lies in the
    directory it serves once links are followed, but for the index of that
    directory, which is read where it leads to; it is sent as it is unless it is
    a page. *)
Theorem served_from_directory dir address uri :
  (handler dir address uri = mk_response 404 "text/plain" "" ∧ dev_read (push dir "index.html") = None) ∨
  ∃ bytes, status (handler dir address uri) = 200%Z ∧
    ((∃ path p, dev_canonicalize path = Some p ∧ components dir `prefix_of` components p ∧ dev_read p = Some bytes) ∨
     dev_read (push dir "index.html") = Some bytes) ∧
    (content_type (handler dir address uri) ≠ "text/html" → content (handler dir address uri) = bytes).
Proof.
  unfold handler. destruct (find_file dir (request_uri uri)) as [bytes|] eqn:E; unfold find_file, or_else in E.
  - right. exists bytes. split_and!; [done| |].
    + repeat match type of E with
      | match fs_read_scoped ?p ?d with _ => _ end = _ =>
          let H := fresh in destruct (fs_read_scoped p d) eqn:H;
            [injection E as ->; apply scoped_inside in H as (q & ? & ? & ?); left; by exists p, q|clear H]
      end. by right.
    + cbn. intros Hc. by rewrite decide_False.
  - left. repeat match type of E with match ?x with _ => _ end = _ => destruct x; [done|] end. done.
Qed.

Lemma find_port_spec fuel auto port :
  (port + N.of_nat fuel = 65536)%N →
  match find_port fuel auto port with
  | Ok q => (port ≤ q < 65536)%N ∧ bind q = true ∧ (∀ r, (port ≤ r < q)%N → bind r = false) ∧ (auto = false → q = port)
  | Err _ => auto = false ∧ bind port = false
  | Panic _ => auto = true ∧ ∀ r, (port ≤ r < 65536)%N → bind r = false
  | Diverge => fuel = 0
  end.
Proof.
  revert port. induction fuel as [|fuel IH]; intros port Hp; [done|]. cbn [find_port].
  destruct (bind port) eqn:Hb; [split_and!; [lia|lia|done|lia|done]|]. destruct auto; cbn [negb]; [|done].
  case_decide as Hlt.
  - specialize (IH (port + 1)%N ltac:(lia)). destruct (find_port fuel true (port + 1)).
    + destruct IH as (? & ? & Hr & ?). split_and!; [lia|lia|done| |done].
      intros r ?. destruct (decide (r = port)) as [->|]; [done|]. apply Hr. lia.
    + by destruct IH.
    + destruct IH as [_ Hr]. split; [done|]. intros r ?. destruct (decide (r = port)) as [->|]; [done|]. apply Hr. lia.
    + lia.
  - split; [done|]. intros r ?. by replace r with port by lia.
Qed.

(** The server is bound to the first free port from 1430 on, or to the port that
    is given, and to no other; the search ends. *)
Theorem port_found port :
  (default 1430 port < 65536)%N →
  match start_port port with
  | Ok q => bind q = true ∧ (q < 65536)%N ∧
      match port with Some p => q = p | None => (1430 ≤ q)%N ∧ ∀ r, (1430 ≤ r < q)%N → bind r = false end
  | Err _ => ∃ p, port = Some p ∧ bind p = false
  | Panic _ => port = None ∧ ∀ r, (1430 ≤ r < 65536)%N → bind r = false
  | Diverge => False
  end.
Proof.
  intros Hp. unfold start_port. pose proof (find_port_spec (N.to_nat (65536 - default 1430%N port)) (bool_decide (port = None)) (default 1430%N port) ltac:(lia)) as H.
  destruct (find_port _ _ _) as [q|e|msg|].
  - destruct H as (? & ? & Hr & Heq). split_and!; [done|lia|]. destruct port as [p|]; cbn in *; [by apply Heq|]. by split; [lia|].
  - destruct H as [Hd Hb]. destruct port as [p|]; [by exists p|done].
  - destruct H as [Hd Hr]. by destruct port.
  - lia.
Qed.

End ServerProofs.

(** ** Preparations *)
Section DevProofs.
Context {DS : DevServerLib} {SW : ScriptWorld} {SV : SerdeLib} {CL : ConfigLib} {CF : ConfigFs}.
Context (socket_addr : string → N → string) (url_host : string → option string) (url_port : string → option N)
  (to_socket_addrs : string → N → option (list string)) (connect : nat → string → bool).

Lemma wait_rounds_spec fuel i addrs :
  i + fuel = max_attempts →
  match wait_rounds connect fuel i addrs with
  | Ok n => i ≤ n < max_attempts ∧ existsb (connect n) addrs = true ∧ ∀ j, i ≤ j < n → existsb (connect j) addrs = false
  | Err e => e = ExitWith 1 ∧ ∀ j, i ≤ j < max_attempts → existsb (connect j) addrs = false
  | Panic _ => False
  | Diverge => fuel = 0
  end.
Proof.
  revert i. induction fuel as [|fuel IH]; intros i Hi; [done|]. cbn [wait_rounds].
  destruct (existsb (connect i) addrs) eqn:Hc; [split_and!; [lia|lia|done|lia]|]. case_decide as Hm.
  - split; [done|]. intros j ?. by replace j with i by lia.
  - specialize (IH (i + 1) ltac:(lia)). destruct (wait_rounds connect fuel (i + 1) addrs).
    + destruct IH as (? & ? & Hj). split_and!; [lia|lia|done|]. intros j ?. destruct (decide (j = i)) as [->|]; [done|]. apply Hj. lia.
    + destruct IH as [-> Hj]. split; [done|]. intros j ?. destruct (decide (j = i)) as [->|]; [done|]. apply Hj. lia.
    + done.
    + unfold max_attempts in *. lia.
Qed.

(** Waiting for the server of the frontend ends: after the first round in which
    one of its addresses answers, or, after 90 rounds without an answer, with
    the process. *)
Theorem waiting_ends url host port addrs :
  url_host url = Some host → url_port url = Some port → to_socket_addrs host port = Some addrs →
  match wait_for_url url_host url_port to_socket_addrs connect url with
  | Ok n => n < 90 ∧ (∃ a, a ∈ addrs ∧ connect n a = true) ∧ ∀ j a, j < n → a ∈ addrs → connect j a = false
  | Err e => e = ExitWith 1 ∧ ∀ j a, j < 90 → a ∈ addrs → connect j a = false
  | _ => False
  end.
Proof.
  intros Hh Hp Ha. unfold wait_for_url. rewrite Hh, Hp. cbn [expect mbind outcome_bind]. rewrite Ha. cbn [ok_or mbind outcome_bind].
  assert (∀ j, existsb (connect j) addrs = false → ∀ a, a ∈ addrs → connect j a = false) as Hno.
  { intros j Hj a Hin. destruct (connect j a) eqn:E; [|done]. rewrite <- Hj. symmetry. apply existsb_exists. exists a. by rewrite <- list_elem_of_In. }
  pose proof (wait_rounds_spec max_attempts 0 addrs eq_refl) as H. destruct (wait_rounds _ _ _ _) as [n|e| |].
  - destruct H as ([_ ?] & (a & Hin & Hc)%existsb_exists & Hj). split_and!; [done| |].
    + exists a. by rewrite list_elem_of_In.
    + intros j b ? Hb. eapply Hno; [|exact Hb]. apply Hj. lia.
  - destruct H as [-> Hj]. split; [done|]. intros j b ? Hb. eapply Hno; [|exact Hb]. apply Hj. unfold max_attempts. lia.
  - done.
  - done.
Qed.

Lemma reload_sets_config tauri_dir v st st' r :
  ConfigFiles.reload tauri_dir (Some v) st = (Ok r, st') → ConfigFiles.TAURI_CONFIG st' = Some (json_to_string v).
Proof.
  unfold ConfigFiles.reload, ConfigFiles.get_internal. destruct (ConfigFiles.config_handle st) as [m|]; [|done]. cbn [negb andb].
  destruct (ConfigFiles.read_layers _ _) as [[[config path] exts]| | |]; [|done..]. rewrite andb_false_r.
  unfold ConfigFiles.read_typed. destruct (ConfigFiles.parent path) as [d|]; [|done]. destruct (negb _); [done|].
  destruct (config_from_value _ _) as [e|c]; [done|]. destruct (negb _); [done|]. by intros [= <- <-].
Qed.

(** The url of the development server reaches the configuration that the build
    of the application reads: without a configuration on the command line, the
    one handed on has it as [build.devUrl]. *)
Theorem dev_url_handed_on tauri_dir o c w st url o' st' :
  ConfigData.dev_url c = None → opt_config o = None → builtin_server socket_addr tauri_dir o c w st = Ok (Some url, o', st') →
  ∃ root build, opt_config o' = Some (JObject root) ∧ JsonObject.get "build" root = Some (JObject build) ∧
    JsonObject.get "devUrl" build = Some (JString url) ∧
    ConfigFiles.TAURI_CONFIG st' = Some (json_to_string (JObject root)).
Proof.
  unfold builtin_server. intros -> Hn. destruct (negb (no_dev_server o) && _); [|done].
  destruct (ConfigData.frontend_dist c) as [[|path|]|]; [done| |done..]. destruct (world_exists w path); [|done].
  intros (p & _ & (port & _ & H)%bind_ok)%bind_ok. cbn zeta in H. rewrite Hn in H. cbn [with_dev_url] in H.
  destruct (ConfigFiles.reload _ _ st) as [[r| | |] st1] eqn:E; simplify_eq. apply reload_sets_config in E.
  eexists _, _. by split_and!.
Qed.

(** A configuration on the command line without an object of the build does not
    get the url: the application is built without it. *)
Theorem given_config_loses_dev_url url root :
  JsonObject.get "build" root = None → with_dev_url url (Some (JObject root)) = Some (JObject root).
Proof. intros H. cbn. by rewrite H. Qed.

(** *** The process before the application *)

(** It is ended once, however often that is asked for. *)
Theorem killed_once b : kill_before_dev_process (kill_before_dev_process b) = kill_before_dev_process b.
Proof. destruct b as [[id|] [] n]; done. Qed.

(** When the preparation fails the process that was started is ended; when the
    application ends, in the cases that end the command line, it is ended too. *)
Theorem failure_ends_process pv fd env spawn tauri_dir o c w st script cwd id why b' :
  ConfigData.before_dev_command c = Some (ConfigData.DevWithOptions script cwd false) → spawn script (default fd cwd) (command_env pv true ++ env) = Some id →
  dev_command (dev_setup socket_addr url_host url_port to_socket_addrs connect pv fd env spawn tauri_dir o c w
    (mk_before_dev None false 0) st) = (Err (Failed why), b') →
  child b' = Some id ∧ kills b' = 1.
Proof.
  intros Hc Hs. unfold dev_setup, run_before_dev. rewrite Hc, Hs. cbn [expect mbind outcome_bind].
  destruct (dev_server_setup _ _ _ _ _ _ _ _ _) as [x|[t|code]|msg|]; cbn; intros [= ? <-]; done.
Qed.

(** A server that does not answer ends the command line at once: the process
    that was started before it goes on. *)
Theorem unreachable_server_leaves_process pv fd env spawn tauri_dir o c w st script cwd id url host port addrs :
  ConfigData.before_dev_command c = Some (ConfigData.DevWithOptions script cwd false) → spawn script (default fd cwd) (command_env pv true ++ env) = Some id →
  ConfigData.dev_url c = Some url → no_dev_server_wait o = false →
  url_host url = Some host → url_port url = Some port → to_socket_addrs host port = Some addrs →
  (∀ j a, connect j a = false) →
  dev_command (dev_setup socket_addr url_host url_port to_socket_addrs connect pv fd env spawn tauri_dir o c w
    (mk_before_dev None false 0) st) = (Err (ExitWith 1), mk_before_dev (Some id) false 0).
Proof.
  intros Hc Hs Hu Hw Hh Hp Ha Hno. unfold dev_setup, run_before_dev. rewrite Hc, Hs. cbn [expect mbind outcome_bind].
  assert (dev_server_setup socket_addr url_host url_port to_socket_addrs connect tauri_dir o c w st = Err (ExitWith 1)) as ->; [|done].
  unfold dev_server_setup, builtin_server. rewrite Hu. cbn. rewrite andb_false_r. cbn. rewrite Hw.
  pose proof (waiting_ends url host port addrs Hh Hp Ha) as H.
  destruct (wait_for_url _ _ _ _ _) as [n|e| |]; [|by destruct H as [-> _]|done..].
  destruct H as (_ & (a & _ & E) & _). by rewrite Hno in E.
Qed.

End DevProofs.

(** ** Builds *)
Section BuildProofs.
Context {SW : ScriptWorld} {U : UnicodeTables} (pv fd : string) (env : list (string * string)).

(** A build that is not refused has an identifier of its own, of the characters
    allowed, and after its hook has run, which may have made it, a directory of
    the frontend that exists, is not the one of the application and holds none
    of the directories that must not be embedded. *)
Theorem build_checked ident debug c w w' :
  checked_build pv fd env ident debug c w = Ok w' →
  ident ≠ "com.tauri.dev" ∧ valid_identifier ident = true ∧
  match ConfigData.before_build_command c with Some hook => run_hook pv fd env "beforeBuildCommand" hook debug w = Ok w' | None => w' = w end ∧
  match ConfigData.frontend_dist c with
  | Some (ConfigData.DistDirectory dist) =>
      world_exists w' dist = true ∧ (∃ p, world_canonicalize w' dist = Some p ∧ file_name p ≠ Some "src-tauri") ∧
      ∀ folder, folder ∈ ["node_modules"; "src-tauri"; "target"] → world_is_dir w' (push dist folder) = false
  | _ => True
  end.
Proof.
  unfold checked_build. case_decide as Hi; [done|]. destruct (valid_identifier ident) eqn:Hv; cbn [negb]; [|done].
  intros (w1 & Hh & (u & Hd & [= <-])%bind_ok)%bind_ok. split_and!; [done..| |].
  - destruct (ConfigData.before_build_command c); [done|]. by injection Hh.
  - destruct (ConfigData.frontend_dist c) as [[|dist|]|]; [done| |done..]. unfold check_dist in Hd.
    destruct (world_exists w1 dist); [|done]. cbn [negb] in Hd. apply bind_ok in Hd as (p & Hp & Hd).
    destruct (world_canonicalize w1 dist) as [q|]; [|done]. injection Hp as ->. case_decide as Hf; [done|]. case_decide as Hb; [|done].
    split_and!; [done|by exists p|]. intros folder Hin. destruct (world_is_dir w1 (push dist folder)) eqn:E; [|done].
    assert (folder ∈ bad_folders w1 dist) as Hx by by apply list_elem_of_filter. rewrite Hb in Hx. by apply not_elem_of_nil in Hx.
Qed.

(** A build uses the features of the command line and those of the
    configuration, and has the custom protocol; the runner of the command line
    goes before that of the configuration. *)
Theorem build_features {ML : CargoManifest.ManifestLib} fuel manifest ident o c mobile w w' o' :
  build_setup pv fd env fuel manifest ident o c mobile w = Ok (w', o') →
  (∀ f, f ∈ default [] (RustInterface.build_features o) ∨ f ∈ default [] (ConfigData.config_features c) ∨ f = "tauri/custom-protocol" →
     f ∈ default [] (RustInterface.build_features o')) ∧
  (is_Some (RustInterface.build_runner o) → RustInterface.build_runner o' = RustInterface.build_runner o) ∧
  (RustInterface.build_runner o = None → RustInterface.build_runner o' = ConfigData.config_runner c).
Proof.
  unfold build_setup. intros (w1 & _ & H)%bind_ok. destruct (RustInterface.build_options _ _ _ _ _) as [[args fs]| | |] eqn:E; simplify_eq.
  cbn. split_and!; [|by intros [r ->]|by intros ->]. intros f Hf. unfold RustInterface.build_options in E.
  eapply RustInterface.shared_keeps; [exact E|]. unfold RustInterface.push_feature. cbn. set_solver.
Qed.

End BuildProofs.

(** ** The directories of a project *)
Section AppPathsProofs.
Context {FS : ConfigFs}.
Context (env_var : string → option string) (canonicalize : string → option Bundler.PathBuf)
  (current_dir : option Bundler.PathBuf) (walk : Bundler.PathBuf → list Bundler.PathBuf) (is_dir : Bundler.PathBuf → bool).

Lemma parent_join p d n : parent_of p = Ok d → Bundler.path_file_name p = Some n → p = ConfigFiles.join_name d n.
Proof.
  unfold parent_of, ConfigFiles.parent, Bundler.path_file_name, ConfigFiles.join_name.
  destruct p as [|x q _] using rev_ind; [done|]. rewrite last_snoc, length_app. cbn [length]. rewrite Nat.add_sub, take_app_length.
  destruct x; cbn; by intros [= ->] [= ->].
Qed.

Lemma set_once_ok cell p msg c : set_once cell p msg = Ok c → cell = None ∧ c = Some p.
Proof. unfold set_once. destruct cell; [done|]. by intros [= <-]. Qed.

(** A file with the name of a configuration makes its directory one that has a
    configuration. *)
Lemma config_in_folder p d :
  exists_ p = true → parent_of p = Ok d → ConfigFiles.is_configuration_file Linux p = true →
  ConfigFiles.folder_has_configuration_file Linux d = true.
Proof.
  intros He Hd. unfold ConfigFiles.is_configuration_file, ConfigFiles.path_file_name.
  destruct (last p) as [[| | |n]|] eqn:Hl; [done..| |done].
  assert (Bundler.path_file_name p = Some n) as Hn by (unfold Bundler.path_file_name; by rewrite Hl).
  pose proof (parent_join p d n Hd Hn) as ->. unfold ConfigFiles.folder_has_configuration_file.
  intros H. repeat (apply orb_true_iff in H as [H|H]); apply bool_decide_eq_true in H; subst n; rewrite He; by rewrite ?orb_true_r.
Qed.

Lemma folder_is_dir d :
  (∀ p n, exists_ (ConfigFiles.join_name p n) = true → is_dir p = true) →
  ConfigFiles.folder_has_configuration_file Linux d = true → is_dir d = true.
Proof.
  intros Hd H. unfold ConfigFiles.folder_has_configuration_file in H.
  repeat (apply orb_true_iff in H as [H|H]); by eapply Hd.
Qed.

(** The command line works in a directory with a configuration (or, where an
    entry was a directory of that name, in that one), and takes for the frontend
    a directory with a manifest of JavaScript, or the one above; the directories
    are set once. *)
Theorem project_directories st st' :
  (∀ d p, p ∈ walk d → exists_ (Bundler.join_path d p) = true) →
  (∀ p n, exists_ (ConfigFiles.join_name p n) = true → is_dir p = true) →
  resolve env_var canonicalize current_dir walk is_dir st = Ok st' →
  st = mk_app_paths None None ∧ ∃ t f, st' = mk_app_paths (Some t) (Some f) ∧
    (ConfigFiles.folder_has_configuration_file Linux t = true ∨ ConfigFiles.is_configuration_file Linux t = true) ∧
    (exists_ (ConfigFiles.join_name f "package.json") = true ∨ ConfigFiles.parent t = Some f).
Proof.
  intros Hw Hdir H. unfold resolve in H. apply bind_ok in H as (found & Ht & (t & Hf & (cell & [Hc ->]%set_once_ok &
    (fr & Hfr & (f & Hpf & (fc & [Hfc ->]%set_once_ok & [= <-])%bind_ok)%bind_ok)%bind_ok)%bind_ok)%bind_ok).
  destruct found as [t'|]; [|done]. injection Hf as ->. destruct st as [a b]; cbn in *. subst a b. split; [done|].
  exists t, f. split; [done|].
  assert (∀ dir check p, lookup walk dir check = Some p → exists_ p = true ∧ check p = true) as Hlook.
  { intros dir check p [Hin Hch]%List.find_some. split; [|done]. apply list_elem_of_In, list_elem_of_fmap in Hin as (q & -> & Hq). by apply Hw. }
  split.
  - unfold resolve_tauri_dir in Ht. destruct (match env_tauri_app_path env_var canonicalize with Some p => _ | None => _ end) as [src|]; [|done].
    destruct (_ || _ || _) eqn:Hany.
    + injection Ht as ->. left. unfold ConfigFiles.folder_has_configuration_file. by rewrite Hany.
    + destruct (lookup walk src tauri_checker) as [p|] eqn:Hl; [|done]. apply Hlook in Hl as [He Hch].
      unfold tauri_checker in Hch. apply orb_true_iff in Hch. destruct (is_dir p) eqn:Hisd.
      * injection Ht as ->. naive_solver.
      * apply fmap_ok in Ht as (d & Hd & [= ->]). destruct Hch as [Hch|Hch]; [|left; by eapply config_in_folder].
        apply folder_is_dir in Hch; [congruence|done].
  - unfold resolve_frontend_dir in Hfr. apply bind_ok in Hfr as (dir & _ & Hfr).
    destruct (exists_ (ConfigFiles.join_name dir "package.json")) eqn:Hp; [injection Hfr as <-; injection Hpf as ->; by left|].
    destruct (lookup walk dir _) as [p|] eqn:Hl.
    + apply Hlook in Hl as [He Hn%bool_decide_eq_true]. apply fmap_ok in Hfr as (d & Hd & ->). injection Hpf as ->.
      left. by rewrite <- (parent_join p f _ Hd Hn).
    + injection Hfr as <-. right. unfold parent_of in Hpf. destruct (ConfigFiles.parent t); [by injection Hpf as ->|done].
Qed.

(** The order that entries are sorted by is none: an entry is not equal to
    itself, and each of two files comes before the other. *)
Theorem entry_order_is_none a b :
  entry_order a a ≠ Eq ∧
  (is_Some (Bundler.path_extension a) → is_Some (Bundler.path_extension b) → entry_order a b = Lt ∧ entry_order b a = Lt).
Proof.
  unfold entry_order. split; [by destruct (Bundler.path_extension a)|]. by intros [? ->] [? ->].
Qed.

End AppPathsProofs.

(** ** Development and production *)
Section SameFiles.
Context {DS : DevServerLib} {AL : AssetLib} {SE : HtmlSerializer} {SL : SelectorLib}.
Context {HO : Csp.HashOrder} {SV : ServeLib} {A : Type} {AS : Assets A}.

(** The assets of the application are the files of a directory. *)
Definition assets_of (m : AppAssets.AppManager (A := A)) (dir : string) : Prop :=
  (∀ k, assets_get (AppAssets.app_assets m) (AppAssets.AssetKey_from k) = fs_read_scoped (push dir k) dir) ∧
  fs_read_scoped (push dir "index.html") dir = dev_read (push dir "index.html").

(** A page gets the same file from the server in development and from the
    application that the directory was put into, for a path that is not
    encoded: the two look for it under the same names in the same order. *)
Theorem same_file_served m dir path :
  assets_of m dir → ends_with "/" ("/" +:+ path) = false → percent_decode_lossy ("/" +:+ path) = "/" +:+ path →
  (AppAssets.find_asset m (AppAssets.request_path ("/" +:+ path))).1 = find_file dir (request_uri ("/" +:+ path)).
Proof.
  intros [Hk Hi] Hs Hd. assert (AppAssets.request_path ("/" +:+ path) = path) as ->.
  { unfold AppAssets.request_path. rewrite Hs, Hd, decide_False by done. exact (of_bytes_bytes path). }
  assert (request_uri ("/" +:+ path) = path) as ->.
  { unfold request_uri. rewrite decide_False.
    - assert (strip_prefix "/" ("/" +:+ path) = Some path) as -> by by apply strip_prefix_spec. done.
    - intros E. by rewrite E in Hs. }
  unfold AppAssets.find_asset, find_file, or_else. rewrite <- Hi, <- !Hk. cbn [fst].
  by repeat match goal with |- context [assets_get ?a ?k] => destruct (assets_get a k); cbn [fst] end.
Qed.

End SameFiles.

(** ** Examples *)

(** A directory with a page whose name has a space, and an index that is a link
    out of it. *)
Definition ex_site (p : string) : option string :=
  if decide (p = "/site/a b.html") then Some "page" else if decide (p = "/etc/hosts") then Some "hosts"
  else if decide (p = "/site/index.html") then Some "hosts" else None.

#[local] Instance ex_server : DevServerLib := {|
  dev_canonicalize p := if decide (p = "/site/index.html") then Some "/etc/hosts" else p' ← ex_site p; Some p;
  dev_read := ex_site; bind p := bool_decide (1432 ≤ p)%N; parse_html _ := Html.Document []; RELOAD_SCRIPT := "";
|}.

(** A path is not decoded: a page with a space in its name is not found under
    its encoded path, for which the index is sent, while the application
    decodes it. *)
Theorem encoded_path_falls_back :
  find_file "/site" (request_uri "/a b.html") = Some "page" ∧
  find_file "/site" (request_uri "/a%20b.html") = dev_read "/site/index.html".
Proof. split; vm_compute; reflexivity. Qed.

(** The last fallback does not follow the rule of the others: an index that
    leads out of the directory is sent, where a file that does is not. *)
Theorem index_leaves_directory :
  fs_read_scoped "/site/index.html" "/site" = None ∧ find_file "/site" "missing" = Some "hosts".
Proof. split; vm_compute; reflexivity. Qed.

(** The port is the first that is free, the third here. *)
Theorem third_port : start_port None = Ok 1432%N ∧ start_port (Some 1430%N) = Err "Couldn't bind to 1430".
Proof. split; vm_compute; reflexivity. Qed.

(** An identifier may have letters that are not in ASCII, which the message of
    the check rules out. *)
Theorem identifier_beyond_ascii `{U : UnicodeTables} :
  unicode_alphanumeric 233 = true → valid_identifier (of_bytes (bytes "com." ++ (ascii_of_nat <$> [195; 169]))) = true.
Proof.
  intros H. unfold valid_identifier.
  assert (Listeners.chars (String.length (of_bytes (bytes "com." ++ (ascii_of_nat <$> [195; 169]))))
            (bytes (of_bytes (bytes "com." ++ (ascii_of_nat <$> [195; 169])))) = [99; 111; 109; 46; 233]%N) as -> by (vm_compute; reflexivity).
  unfold identifier_char, Listeners.is_alphanumeric. cbn. by rewrite H.
Qed.

End DevCommand.
