(* ===== verification/Signer.v ===== *)
(** * Signatures of updates

    Models what [tauri-cli/Source] signs with: [helpers/updater_signature.rs]
    (keys, signatures and the files they are put in), the commands
    [signer/generate.rs] and [signer/sign.rs], and [sign_updaters] of
    [bundle.rs], which signs the packages of a build. The state is the files, by
    canonical path, so that [canonicalize] of a file that was written is that path. The packages [minisign] and [base64] are the class [Minisign], what is
    relied on of them the class [MinisignLaws]. *)
From Stdlib Require Import Ascii.
From S2P Require Import Prelude Acl Paths BuildSupport AppAssets Bundler RustInterface.
Import Paths.

(** Keys, boxes and signatures of [minisign], and the alphabet of [base64]. *)
Class Minisign := {
  MinisignPublic : Type;
  MinisignSecret : Type;
  MinisignPublicBox : Type;
  MinisignSecretBox : Type;
  SignatureBox : Type;
  generate_encrypted_keypair : option string → option (MinisignPublic * MinisignSecret);
  pk_to_box_string : MinisignPublic → string;
  sk_to_box_string : MinisignSecret → string;
  secret_box_from_string : string → option MinisignSecretBox;
  into_secret_key : MinisignSecretBox → option string → option MinisignSecret;
  public_box_from_string : string → option MinisignPublicBox;
  into_public_key : MinisignPublicBox → option MinisignPublic;
  (** a key, the data and the trusted comment *)
  minisign_sign : MinisignSecret → string → string → option SignatureBox;
  signature_to_string : SignatureBox → string;
  (** what an application does with an update *)
  minisign_verify : MinisignPublic → SignatureBox → string → bool;
  base64_encode : string → string;
  base64_decode : string → option string;
}.

Module Signer.
#[local] Open Scope stdpp_scope.
#[local] Open Scope nat_scope.

Abbreviation PathBuf := (list Component).
Abbreviation Files := (gmap PathBuf string).

Inductive SignError :=
| KeyExists (sk_path : PathBuf)
| NotFound (path : PathBuf)
| NotRemoved (path : PathBuf)
| NotCreated (path : PathBuf)
| NotDecoded
| BoxInvalid
| WrongPassword
| NotSigned
| NoPrivateKey.

(** Operations on files can fail after some of them were written. *)
Definition IO (A : Type) : Type := Files → outcome SignError A * Files.
#[global] Instance io_ret : MRet IO := λ A a fs, (Ok a, fs).
#[global] Instance io_bind : MBind IO := λ A B f m fs,
  match m fs with
  | (Ok a, fs) => f a fs
  | (Err e, fs) => (Err e, fs)
  | (Panic msg, fs) => (Panic msg, fs)
  | (Diverge, fs) => (Diverge, fs)
  end.
Definition lift {A} (r : outcome SignError A) : IO A := λ fs, (r, fs).
Definition fail {A} (e : SignError) : IO A := lift (Err e).
Definition or_fail {A} (o : option A) (e : SignError) : IO A := lift (ok_or o e).

(** [expect]: an error is a panic. *)
Definition io_expect {A} (m : IO A) (msg : string) : IO A := λ fs,
  match m fs with (Err _, fs) => (Panic msg, fs) | r => r end.

Fixpoint io_collect {A B} (f : A → IO B) (l : list A) : IO (list B) :=
  match l with
  | [] => mret []
  | a :: l => b ← f a; bs ← io_collect f l; mret (b :: bs)
  end.

(** [str::from_utf8]: the bytes that the lossy conversion keeps. *)
Definition from_utf8 (s : string) : option string := if decide (AppAssets.from_utf8_lossy s = s) then Some s else None.

(** ** Files and keys *)
Section Keys.
Context {MS : Minisign}.

(** The file system besides the files: directories, and where files can be
    created or removed. *)
Context (is_directory creatable removable : PathBuf → bool).

Definition exists_path (p : PathBuf) : IO bool := λ fs, (Ok (bool_decide (is_Some (fs !! p)) || is_directory p), fs).
Definition read_file (p : PathBuf) : IO string := λ fs, (ok_or (fs !! p) (NotFound p), fs).
Definition read_to_string (p : PathBuf) : IO string := s ← read_file p; or_fail (from_utf8 s) NotDecoded.
Definition write_file (p : PathBuf) (s : string) : IO () := λ fs, (Ok (), <[p := s]> fs).
Definition remove_file (p : PathBuf) : IO () := λ fs,
  if removable p && bool_decide (is_Some (fs !! p)) then (Ok (), delete p fs) else (Err (NotRemoved p), fs).

(** The file is emptied, its directories are created. *)
Definition create_file (p : PathBuf) : IO () :=
  if creatable p && negb (is_directory p) then write_file p "" else fail (NotCreated p).

Record KeyPair := mk_key_pair { pk : string; sk : string }.

Definition generate_key (password : option string) : outcome SignError KeyPair :=
  match generate_encrypted_keypair password with
  | Some (pk, sk) => Ok (mk_key_pair (base64_encode (pk_to_box_string pk)) (base64_encode (sk_to_box_string sk)))
  | None => Panic "called `Result::unwrap()` on an `Err` value"
  end.

Definition decode_key (base64_key : string) : outcome SignError string :=
  decoded_str ← ok_or (base64_decode base64_key) NotDecoded;
  ok_or (from_utf8 decoded_str) NotDecoded.

Definition save_keypair (force : bool) (sk_path key pubkey : string) : IO (PathBuf * PathBuf) :=
  let pubkey_path := components (sk_path +:+ ".pub") in
  let sk_path := components sk_path in
  sk_exists ← exists_path sk_path;
  _ ← if sk_exists : bool then if negb force then fail (KeyExists sk_path) else remove_file sk_path else mret ();
  pk_exists ← exists_path pubkey_path;
  _ ← if pk_exists : bool then remove_file pubkey_path else mret ();
  _ ← create_file sk_path;
  _ ← write_file sk_path key;
  _ ← create_file pubkey_path;
  _ ← write_file pubkey_path pubkey;
  mret (sk_path, pubkey_path).

Definition secret_key (private_key : string) (password : option string) : outcome SignError MinisignSecret :=
  decoded_secret ← decode_key private_key;
  sk_box ← ok_or (secret_box_from_string decoded_secret) BoxInvalid;
  ok_or (into_secret_key sk_box password) WrongPassword.

Definition pub_key (public_key : string) : outcome SignError MinisignPublic :=
  decoded_public ← decode_key public_key;
  pk_box ← ok_or (public_box_from_string decoded_public) BoxInvalid;
  ok_or (into_public_key pk_box) BoxInvalid.

(** ** Signing a file *)

(** Where the signature of a file is put: its extension gets [.sig]. *)
Definition signature_path (bin_path : PathBuf) : outcome SignError PathBuf :=
  ext ← expect (Bundler.path_extension bin_path) "called `Option::unwrap()` on a `None` value";
  Ok (Bundler.with_extension bin_path (ext +:+ ".sig")).

(** [format!] of the time and the name of the file. *)
Definition trusted_comment (unix_timestamp : N) (bin_path : PathBuf) : string :=
  "timestamp:" +:+ Numbers.print_u32 unix_timestamp +:+ String "009" "file:" +:+
  AppAssets.from_utf8_lossy (default "" (Bundler.path_file_name bin_path)).

Definition sign_file (unix_timestamp : N) (secret_key : MinisignSecret) (bin_path : PathBuf) : IO (PathBuf * SignatureBox) :=
  signature_path ← lift (signature_path bin_path);
  _ ← create_file signature_path;
  data ← read_file bin_path;
  signature_box ← or_fail (minisign_sign secret_key data (trusted_comment unix_timestamp bin_path)) NotSigned;
  _ ← write_file signature_path (base64_encode (signature_to_string signature_box));
  mret (signature_path, signature_box).

(** ** [signer/generate.rs] and [signer/sign.rs] *)
Inductive Generated := Saved (secret_path public_path : PathBuf) | Printed (keys : KeyPair).

(** An error of the pair or of its files is a panic. *)
Definition generate_command (ci force : bool) (password write_keys : option string) : IO Generated :=
  let password := if ci && bool_decide (password = None) then Some "" else password in
  keypair ← lift (generate_key password);
  match write_keys with
  | Some output_path =>
      '(secret_path, public_path) ← io_expect (save_keypair force output_path (sk keypair) (pk keypair)) "Unable to write keypair";
      mret (Saved secret_path public_path)
  | None => mret (Printed keypair)
  end.

(** The options of [signer sign], each from its flag or its variable. *)
Record SignOptions := mk_sign { private_key : option string; private_key_path : option string; sign_password : option string }.

Definition sign_options (env_var : string → option string) (flags : SignOptions) : SignOptions :=
  let or_env o name := match o with Some v => Some v | None => env_var name end in
  mk_sign (or_env (private_key flags) "TAURI_PRIVATE_KEY") (or_env (private_key_path flags) "TAURI_PRIVATE_KEY_PATH")
    (or_env (sign_password flags) "TAURI_PRIVATE_KEY_PASSWORD").

(** The place of the signature, and what is printed. *)
Definition sign_command (unix_timestamp : N) (options : SignOptions) (file : PathBuf) : IO (PathBuf * string) :=
  key ← match private_key_path options with
        | Some path => text ← io_expect (read_to_string (components path)) "Unable to extract private key"; mret (Some text)
        | None => mret (private_key options)
        end;
  private_key ← or_fail key NoPrivateKey;
  secret_key ← lift (secret_key private_key (sign_password options));
  '(manifest_dir, signature) ← sign_file unix_timestamp secret_key file;
  mret (manifest_dir, base64_encode (signature_to_string signature)).

(** ** [sign_updaters] of [bundle.rs] *)
Definition update_enabled (t : Bundler.PackageType) : bool :=
  bool_decide (t ∈ [Bundler.UpdaterPackage; Bundler.Nsis; Bundler.WindowsMsi; Bundler.AppImage; Bundler.Deb]).

(** A key is a text, or the path of a file with it. *)
Definition key_text (key : string) : IO string :=
  maybe_path ← exists_path (components key);
  if maybe_path : bool then read_to_string (components key) else mret key.

(** The places of the signatures, in the order of the packages. *)
Definition sign_updaters (env_var : string → option string) (unix_timestamp : N) (updater : option Bundler.UpdaterSettings)
    (bundles : list Bundler.Bundle) (ci : bool) : IO (list PathBuf) :=
  match updater with
  | None => mret []
  | Some update_settings =>
      let update_enabled_bundles := filter (λ b, update_enabled (Bundler.package_type b) = true) bundles in
      match update_enabled_bundles with
      | [] => mret []
      | _ =>
          pubkey ← key_text (Bundler.pubkey update_settings);
          let password := match env_var "TAURI_SIGNING_PRIVATE_KEY_PASSWORD" with
                          | Some p => Some p
                          | None => if ci then Some "" else None
                          end in
          private_key ← or_fail (env_var "TAURI_SIGNING_PRIVATE_KEY") NoPrivateKey;
          private_key ← key_text private_key;
          secret_key ← lift (secret_key private_key password);
          _ ← lift (pub_key pubkey);
          signed ← io_collect (sign_file unix_timestamp secret_key) (update_enabled_bundles ≫= Bundler.bundle_paths);
          mret signed.*1
      end
  end.

End Keys.

(** What the packages promise: a pair that was generated is read back with its
    password, and what its secret key signs its public key verifies; an encoded
    text is decoded to itself. *)
Class MinisignLaws {MS : Minisign} := {
  base64_round_trip s : base64_decode (base64_encode s) = Some s;
  boxes_are_text password p s :
    generate_encrypted_keypair password = Some (p, s) →
    from_utf8 (pk_to_box_string p) = Some (pk_to_box_string p) ∧ from_utf8 (sk_to_box_string s) = Some (sk_to_box_string s);
  base64_is_text s : from_utf8 (base64_encode s) = Some (base64_encode s);
  pair_signs password p s :
    generate_encrypted_keypair password = Some (p, s) →
    ∃ sb k pb p', secret_box_from_string (sk_to_box_string s) = Some sb ∧ into_secret_key sb password = Some k ∧
      public_box_from_string (pk_to_box_string p) = Some pb ∧ into_public_key pb = Some p' ∧
      ∀ data comment, ∃ signature, minisign_sign k data comment = Some signature ∧ minisign_verify p' signature data = true;
}.

(** ** Lemmas on operations and names *)
Lemma io_bind_ok {A B} (f : A → IO B) (m : IO A) fs b fs' :
  (m ≫= f) fs = (Ok b, fs') → ∃ a fs1, m fs = (Ok a, fs1) ∧ f a fs1 = (Ok b, fs').
Proof. unfold mbind, io_bind. destruct (m fs) as [[a|e|msg|] fs1]; [|done..]. intros H. by exists a, fs1. Qed.

Lemma io_bind_run {A B} (f : A → IO B) (m : IO A) fs a fs1 : m fs = (Ok a, fs1) → (m ≫= f) fs = f a fs1.
Proof. unfold mbind, io_bind. by intros ->. Qed.

Lemma lift_run {A} (r : outcome SignError A) a fs : r = Ok a → lift r fs = (Ok a, fs).
Proof. by intros ->. Qed.

Lemma concat_cons sep x y l : String.concat sep (x :: y :: l) = x +:+ sep +:+ String.concat sep (y :: l).
Proof. done. Qed.

Lemma concat_split_on c s : String.concat (String c "") (split_on c s) = s.
Proof.
  unfold split_on. induction s as [|a s IH]; [done|]. cbn [bytes split_bytes].
  destruct (split_bytes c (bytes s)) as [|p ps] eqn:E; [by destruct (split_bytes_ne c (bytes s))|].
  cbn [fmap list_fmap] in IH. case_decide as Ha; cbn [fmap list_fmap of_bytes].
  - subst a. by rewrite concat_cons, IH.
  - destruct ps as [|q ps]; cbn [fmap list_fmap] in *; [cbn in *; by rewrite IH|].
    rewrite concat_cons in *. cbn [of_bytes]. by rewrite append_cons, IH.
Qed.

Lemma concat_snoc sep x l e : String.concat sep (x :: l ++ [e]) = String.concat sep (x :: l) +:+ sep +:+ e.
Proof.
  revert x. induction l as [|y l IH]; intros x; [done|]. cbn [app]. rewrite !concat_cons, IH. by rewrite !append_assoc.
Qed.

(** The parts of a name with an extension are the name. *)
Lemma split_name_parts n stem e : Bundler.split_name n = (stem, Some e) → n = stem +:+ "." +:+ e.
Proof.
  unfold Bundler.split_name. destruct (rev (split_on "." n)) as [|x [|y l]] eqn:E; [done..|].
  case_decide as Hs; [done|]. intros [= <- <-]. rewrite <- (concat_split_on "." n) at 1.
  apply (f_equal (@rev string)) in E. rewrite rev_involutive in E. rewrite E.
  change (rev (x :: y :: l)) with (rev (y :: l) ++ [x]).
  change (rev l ++ [y]) with (rev (y :: l)). destruct (rev (y :: l)) as [|z l'] eqn:E'; [by cbn in Hs|].
  exact (concat_snoc "." z l' x).
Qed.

(** The signature of a file is next to it, with its whole name before [.sig]. *)
Lemma signature_beside p q :
  signature_path p = Ok q → ∃ d n, p = d ++ [Normal n] ∧ q = d ++ [Normal (n +:+ ".sig")].
Proof.
  unfold signature_path. destruct p as [|x d _] using rev_ind; [done|].
  destruct x as [| | |n]; [unfold Bundler.path_extension, Bundler.path_file_name; by rewrite last_snoc..|].
  rewrite RustInterface.path_extension_snoc.
  destruct (Bundler.split_name n) as [stem [e|]] eqn:E; [|done]. cbn [snd expect mbind outcome_bind].
  rewrite RustInterface.extension_snoc, E. cbn [fst]. intros [= <-].
  exists d, n. split; [done|]. apply split_name_parts in E as ->. rewrite decide_False by by destruct e. by rewrite !append_assoc.
Qed.

Lemma append_inj_r a b s : a +:+ s = b +:+ s → a = b.
Proof.
  intros H. apply (f_equal bytes) in H. rewrite !bytes_append in H. apply app_inj_2 in H as [H _]; [|done].
  by rewrite <- (of_bytes_bytes a), H, of_bytes_bytes.
Qed.

Lemma signature_path_inj p p' q : signature_path p = Ok q → signature_path p' = Ok q → p = p'.
Proof.
  intros (d & n & -> & ->)%signature_beside (d' & n' & -> & [Hd Hn]%app_inj_2)%signature_beside; [|done].
  injection Hn as Hn%append_inj_r. by subst.
Qed.

(** ** Keys *)
Section KeyProofs.
Context {MS : Minisign} {ML : MinisignLaws}.
Context (is_directory creatable : PathBuf → bool).

Lemma decode_encoded s : from_utf8 s = Some s → decode_key (base64_encode s) = Ok s.
Proof. intros H. unfold decode_key. rewrite base64_round_trip. cbn [ok_or mbind outcome_bind]. by rewrite H. Qed.

(** A pair that was generated is read back with its password, as keys that go
    together. *)
Lemma generated_pair password kp :
  generate_key password = Ok kp →
  ∃ k p, secret_key (sk kp) password = Ok k ∧ pub_key (pk kp) = Ok p ∧
    ∀ data comment, ∃ s, minisign_sign k data comment = Some s ∧ minisign_verify p s data = true.
Proof.
  unfold generate_key. destruct (generate_encrypted_keypair password) as [[p s]|] eqn:Hg; [|done]. intros [= <-].
  destruct (boxes_are_text _ _ _ Hg) as [Hp Hs]. destruct (pair_signs _ _ _ Hg) as (sb & k & pb & p' & Hsb & Hk & Hpb & Hp' & Hsign).
  exists k, p'. unfold secret_key, pub_key. cbn [pk sk]. rewrite !decode_encoded by done. cbn [mbind outcome_bind].
  rewrite Hsb, Hpb. cbn [ok_or mbind outcome_bind]. by rewrite Hk, Hp'.
Qed.

Lemma create_file_run q fs : creatable q = true → is_directory q = false → create_file is_directory creatable q fs = (Ok (), <[q := ""]> fs).
Proof. intros Hc Hd. unfold create_file. by rewrite Hc, Hd. Qed.

(** ** One file *)
Lemma sign_file_run t k p q data s fs :
  signature_path p = Ok q → creatable q = true → is_directory q = false → q ≠ p → fs !! p = Some data →
  minisign_sign k data (trusted_comment t p) = Some s →
  sign_file is_directory creatable t k p fs = (Ok (q, s), <[q := base64_encode (signature_to_string s)]> fs).
Proof.
  intros Hq Hc Hd Hne Hp Hs. unfold sign_file. rewrite (io_bind_run _ _ _ _ _ (lift_run _ _ _ Hq)).
  rewrite (io_bind_run _ _ _ _ _ (create_file_run _ _ Hc Hd)).
  rewrite (io_bind_run _ _ _ data (<[q := ""]> fs)) by (unfold read_file; by rewrite lookup_insert_ne, Hp).
  rewrite (io_bind_run _ _ _ s (<[q := ""]> fs)) by (unfold or_fail, lift; by rewrite Hs).
  unfold mbind, io_bind, write_file, mret, io_ret. by rewrite insert_insert_eq.
Qed.

(** The place of the signature is emptied before the file is opened: where there
    is no file an empty signature stays, in place of what was there. *)
Theorem missing_file_leaves_signature t k p q fs :
  signature_path p = Ok q → creatable q = true → is_directory q = false → fs !! p = None → q ≠ p →
  sign_file is_directory creatable t k p fs = (Err (NotFound p), <[q := ""]> fs).
Proof.
  intros Hq Hc Hd Hp Hne. unfold sign_file. rewrite (io_bind_run _ _ _ _ _ (lift_run _ _ _ Hq)).
  rewrite (io_bind_run _ _ _ _ _ (create_file_run _ _ Hc Hd)).
  unfold mbind, io_bind, read_file. by rewrite lookup_insert_ne, Hp.
Qed.

(** ** Many files *)

(** [fs] has the signature of a file with these data, which the key verifies. *)
Definition signed_at (public : MinisignPublic) (fs : Files) (q : PathBuf) (data : string) : Prop :=
  ∃ s, fs !! q = Some (base64_encode (signature_to_string s)) ∧ minisign_verify public s data = true.

Section Many.
Context (t : N) (k : MinisignSecret) (public : MinisignPublic) (contents : Files) (paths : list PathBuf).
Hypothesis Hsign : ∀ data comment, ∃ s, minisign_sign k data comment = Some s ∧ minisign_verify public s data = true.
Hypothesis Hpaths : ∀ p, p ∈ paths →
  ∃ q data, signature_path p = Ok q ∧ creatable q = true ∧ is_directory q = false ∧ contents !! p = Some data.
Hypothesis Hapart : ∀ p p' q, p ∈ paths → p' ∈ paths → signature_path p' = Ok q → q ≠ p.

Lemma sign_all l fs :
  l ⊆ paths → (∀ p, p ∈ paths → fs !! p = contents !! p) →
  ∃ signed fs', io_collect (sign_file is_directory creatable t k) l fs = (Ok signed, fs') ∧
    Forall2 (λ p q, signature_path p = Ok q ∧ ∃ data, contents !! p = Some data ∧ signed_at public fs' q data) l signed.*1 ∧
    ∀ q, q ∉ signed.*1 → fs' !! q = fs !! q.
Proof.
  revert fs. induction l as [|p l IH]; intros fs Hl Hfs; [by exists [], fs|].
  destruct (Hpaths p ltac:(set_solver)) as (q & data & Hq & Hc & Hd & Hp). destruct (Hsign data (trusted_comment t p)) as (s & Hs & Hv).
  assert (∀ p', p' ∈ paths → q ≠ p') as Hne by (intros p' ?; eapply Hapart; [done| |exact Hq]; set_solver).
  pose proof (sign_file_run t k p q data s fs Hq Hc Hd (Hne p ltac:(set_solver)) ltac:(rewrite Hfs; set_solver) Hs) as Hrun.
  destruct (IH (<[q := base64_encode (signature_to_string s)]> fs) ltac:(set_solver)) as (signed & fs' & Hr & Hall & Hframe).
  { intros p' Hp'. rewrite lookup_insert_ne by by apply Hne. by apply Hfs. }
  exists ((q, s) :: signed), fs'. split_and!.
  - cbn [io_collect]. rewrite (io_bind_run _ _ _ _ _ Hrun), (io_bind_run _ _ _ _ _ Hr). done.
  - cbn. constructor; [|done]. split; [done|]. exists data. split; [done|].
    destruct (decide (q ∈ signed.*1)) as [Hin|Hin].
    + apply list_elem_of_lookup in Hin as (i & Hi). destruct (Forall2_lookup_r _ _ _ _ _ Hall Hi) as (p' & _ & Hq' & data' & Hp' & Hs').
      assert (p' = p) as -> by by eapply signature_path_inj. by rewrite Hp in Hp'; injection Hp' as <-.
    + exists s. rewrite Hframe by done. by rewrite lookup_insert_eq.
  - intros q' [Hn Hq']%not_elem_of_cons. rewrite Hframe by done. by rewrite lookup_insert_ne.
Qed.

End Many.

(** A text or the path of a file stands for a key. *)
Definition stands_for (fs : Files) (text key : string) : Prop := key_text is_directory text fs = (Ok key, fs).

(** A key that is not the name of a file stands for itself; the path of a file
    for what is in it. *)
Lemma text_stands fs text :
  fs !! components text = None → is_directory (components text) = false → stands_for fs text text.
Proof. intros Hn Hd. unfold stands_for, key_text, mbind, io_bind, exists_path. by rewrite Hn, Hd. Qed.

Lemma file_stands fs path key : fs !! components path = Some key → from_utf8 key = Some key → stands_for fs path key.
Proof.
  intros Hk Hu. unfold stands_for, key_text, mbind, io_bind, exists_path. rewrite Hk. cbn.
  unfold read_to_string, mbind, io_bind, read_file, or_fail, lift. rewrite Hk. cbn. by rewrite Hu.
Qed.

Definition signing_password (env_var : string → option string) (ci : bool) : option string :=
  match env_var "TAURI_SIGNING_PRIVATE_KEY_PASSWORD" with Some p => Some p | None => if ci then Some "" else None end.

Definition updater_paths (bundles : list Bundler.Bundle) : list PathBuf :=
  filter (λ b, update_enabled (Bundler.package_type b) = true) bundles ≫= Bundler.bundle_paths.

(** C39. Updates work from end to end: for a pair that was generated, with its
    password and both keys given as texts or as files, every package that the
    updater can install gets a signature next to it that the public key of the
    configuration verifies; no other file changes. *)
Theorem updates_verify env_var t u bundles ci kp key fs :
  generate_key (signing_password env_var ci) = Ok kp →
  env_var "TAURI_SIGNING_PRIVATE_KEY" = Some key → stands_for fs key (sk kp) → stands_for fs (Bundler.pubkey u) (pk kp) →
  (∀ p, p ∈ updater_paths bundles →
     ∃ q data, signature_path p = Ok q ∧ creatable q = true ∧ is_directory q = false ∧ fs !! p = Some data) →
  (∀ p p' q, p ∈ updater_paths bundles → p' ∈ updater_paths bundles → signature_path p' = Ok q → q ≠ p) →
  ∃ signed fs' public, pub_key (pk kp) = Ok public ∧
    sign_updaters is_directory creatable env_var t (Some u) bundles ci fs = (Ok signed, fs') ∧
    Forall2 (λ p q, signature_path p = Ok q ∧ ∃ data, fs !! p = Some data ∧ signed_at public fs' q data)
      (updater_paths bundles) signed ∧
    ∀ q, q ∉ signed → fs' !! q = fs !! q.
Proof.
  intros Hg Hkey Hsk Hpk Hpaths Hapart. destruct (generated_pair _ _ Hg) as (k & public & Hk & Hp & Hsign).
  destruct (sign_all t k public fs (updater_paths bundles) Hsign Hpaths Hapart (updater_paths bundles) fs
    ltac:(done) ltac:(done)) as (signed & fs' & Hr & Hall & Hframe).
  exists signed.*1, fs', public. split; [done|]. split; [|done].
  unfold sign_updaters, updater_paths in *. destruct (filter _ bundles) as [|b l].
  { cbn in *. by injection Hr as <- <-. }
  rewrite (io_bind_run _ _ _ _ _ Hpk). cbn zeta. rewrite Hkey.
  rewrite (io_bind_run _ _ _ key fs) by done. rewrite (io_bind_run _ _ _ _ _ Hsk).
  fold (signing_password env_var ci).
  rewrite (io_bind_run _ _ _ k fs) by by apply lift_run. rewrite (io_bind_run _ _ _ public fs) by by apply lift_run.
  by rewrite (io_bind_run _ _ _ _ _ Hr).
Qed.

(** Without an updater, and for packages it does not install, nothing is
    signed. *)
Theorem nothing_signed env_var t u bundles ci fs :
  Forall (λ b, update_enabled (Bundler.package_type b) = false) bundles →
  sign_updaters is_directory creatable env_var t None bundles ci fs = (Ok [], fs) ∧
  sign_updaters is_directory creatable env_var t (Some u) bundles ci fs = (Ok [], fs).
Proof.
  intros Hb. split; [done|]. unfold sign_updaters. assert (filter (λ b, update_enabled (Bundler.package_type b) = true) bundles = []) as ->; [|done].
  induction Hb as [|b l Hb _ IH]; [done|]. rewrite filter_cons_False; [done|by rewrite Hb].
Qed.

End KeyProofs.

(** ** The files of a pair *)
Section Save.
Context {MS : Minisign}.
Context (is_directory creatable removable : PathBuf → bool).

(** A private key that exists is kept, with all other files, unless it is
    forced. *)
Theorem existing_key_kept sk_path key pubkey fs :
  is_Some (fs !! components sk_path) →
  save_keypair is_directory creatable removable false sk_path key pubkey fs = (Err (KeyExists (components sk_path)), fs).
Proof. intros [x H]. unfold save_keypair, mbind, io_bind, exists_path. by rewrite H. Qed.

(** What [remove] leaves where a path exists or not. *)
Lemma removed_if_there p fs fs1 :
  (b ← exists_path is_directory p; if b : bool then remove_file removable p else mret ()) fs = (Ok (), fs1) →
  fs1 = delete p fs.
Proof.
  unfold mbind, io_bind, exists_path, remove_file. destruct (fs !! p) as [x|] eqn:E; cbn.
  - destruct (removable p); [|done]. rewrite E. cbn. by intros [= <-].
  - destruct (is_directory p); [rewrite E; cbn; by rewrite andb_false_r|]. intros [= <-]. by rewrite delete_id.
Qed.

Lemma create_file_ok p fs u fs1 : create_file is_directory creatable p fs = (Ok u, fs1) → fs1 = <[p := ""]> fs.
Proof. unfold create_file. destruct (_ && _); [by intros [= _ <-]|done]. Qed.

(** A pair that was saved is in its two files, and no other file changed. *)
Theorem pair_saved force sk_path key pubkey fs sp pp fs' :
  save_keypair is_directory creatable removable force sk_path key pubkey fs = (Ok (sp, pp), fs') →
  sp = components sk_path ∧ pp = components (sk_path +:+ ".pub") ∧
  fs' !! pp = Some pubkey ∧ (sp ≠ pp → fs' !! sp = Some key) ∧ ∀ q, q ≠ sp → q ≠ pp → fs' !! q = fs !! q.
Proof.
  unfold save_keypair. cbn zeta. intros (b & fs1 & [= <- <-] & H)%io_bind_ok.
  apply io_bind_ok in H as (u & fs2 & H1 & H). apply io_bind_ok in H as (b & fs3 & [= <- <-] & H).
  apply io_bind_ok in H as (u' & fs3 & H2 & H). apply io_bind_ok in H as (u1 & fs4 & ->%create_file_ok & H).
  apply io_bind_ok in H as (u2 & fs5 & [= <- <-] & H). apply io_bind_ok in H as (u3 & fs6 & ->%create_file_ok & H).
  apply io_bind_ok in H as (u4 & fs7 & [= <- <-] & [= <- <- <-]).
  assert (∀ q, q ≠ components sk_path → fs2 !! q = fs !! q) as Hfs2.
  { intros q Hq. destruct u. destruct (_ || _); [|by injection H1 as <-]. destruct force; [|done]. cbn in H1.
    unfold remove_file in H1. destruct (_ && _); [|done]. injection H1 as <-. by rewrite lookup_delete_ne. }
  assert (fs3 = delete (components (sk_path +:+ ".pub")) fs2) as ->.
  { destruct u'. apply removed_if_there. unfold mbind, io_bind, exists_path. done. }
  split_and!; [done|done|by rewrite lookup_insert_eq| |].
  - intros Hne. rewrite !lookup_insert_ne, lookup_insert_eq by done. done.
  - intros q Hs Hp. rewrite !lookup_insert_ne, lookup_delete_ne by done. by apply Hfs2.
Qed.

(** The public key is not asked for: one that exists without its private key is
    lost, though nothing was forced. *)
Theorem public_key_lost sk_path key pubkey old fs :
  let sp := components sk_path in let pp := components (sk_path +:+ ".pub") in
  fs !! sp = None → fs !! pp = Some old → is_directory sp = false → is_directory pp = false →
  creatable sp = true → creatable pp = true → removable pp = true →
  ∃ fs', save_keypair is_directory creatable removable false sk_path key pubkey fs = (Ok (sp, pp), fs') ∧
    fs' !! pp = Some pubkey.
Proof.
  cbn zeta. intros Hs Hp Hds Hdp Hcs Hcp Hr. eexists. unfold save_keypair, mbind, io_bind, exists_path. rewrite Hs, Hds.
  cbn. rewrite Hp. cbn. unfold remove_file. rewrite Hr, Hp. cbn. unfold create_file. rewrite Hcs, Hds. cbn. rewrite Hcp, Hdp. cbn.
  split; [done|]. by rewrite lookup_insert_eq.
Qed.

(** The command that signs a file does not read the variables that the command
    that makes the key names: with these alone there is no key. *)
Theorem signer_ignores_documented_variable t env_var file fs :
  env_var "TAURI_PRIVATE_KEY" = None → env_var "TAURI_PRIVATE_KEY_PATH" = None →
  sign_command is_directory creatable t (sign_options env_var (mk_sign None None None)) file fs = (Err NoPrivateKey, fs).
Proof. intros H1 H2. unfold sign_command, sign_options. cbn. by rewrite H1, H2. Qed.

End Save.

Section Commands.
Context {MS : Minisign} {ML : MinisignLaws}.
Context (is_directory creatable removable : PathBuf → bool).

(** A pair that was generated into files signs: the command for files, with the
    private key that was written and the password, puts a signature next to the
    file, and prints it, which the public key that was written verifies. *)
Theorem generated_pair_signs t ci force password path fs sp pp fs1 file q data :
  password ≠ None → components (path +:+ ".pub") ≠ components path →
  generate_command is_directory creatable removable ci force password (Some path) fs = (Ok (Saved sp pp), fs1) →
  signature_path file = Ok q → creatable q = true → is_directory q = false → q ≠ file → fs1 !! file = Some data →
  ∃ s public public_text, fs1 !! pp = Some public_text ∧ pub_key public_text = Ok public ∧
    minisign_verify public s data = true ∧
    sign_command is_directory creatable t (mk_sign None (Some path) password) file fs1 =
      (Ok (q, base64_encode (signature_to_string s)), <[q := base64_encode (signature_to_string s)]> fs1).
Proof.
  intros Hpw Hne Hg Hq Hc Hd Hqf Hf. unfold generate_command in Hg. cbn zeta in Hg.
  rewrite (bool_decide_eq_false_2 _ Hpw), andb_false_r in Hg.
  apply io_bind_ok in Hg as (kp & fs0 & Hk & Hg). unfold lift in Hk. injection Hk as Hk <-.
  apply io_bind_ok in Hg as ([a b] & fs2 & Hs & Hg). injection Hg as -> -> ->. unfold io_expect in Hs.
  destruct (save_keypair _ _ _ _ _ _ _ _) as [[[a b]|e|msg|] fs'] eqn:E; [|done..]. injection Hs as -> -> ->.
  apply pair_saved in E as (-> & -> & Hpub & Hsec & _). specialize (Hsec ltac:(congruence)).
  destruct (generated_pair _ _ Hk) as (k & public & Hk' & Hp & Hsign).
  destruct (Hsign data (trusted_comment t file)) as (s & Hs & Hv). exists s, public, (pk kp). split_and!; [done..|].
  assert (from_utf8 (sk kp) = Some (sk kp)) as Hu.
  { unfold generate_key in Hk. destruct (generate_encrypted_keypair password) as [[]|]; [|done]. injection Hk as <-. apply base64_is_text. }
  unfold sign_command. cbn [private_key_path sign_password].
  rewrite (io_bind_run _ _ _ (Some (sk kp)) fs1).
  2:{ unfold io_expect, read_to_string, mbind, io_bind, read_file, or_fail, lift. rewrite Hsec. cbn. by rewrite Hu. }
  rewrite (io_bind_run _ _ _ (sk kp) fs1) by done. rewrite (io_bind_run _ _ _ k fs1) by by apply lift_run.
  by rewrite (io_bind_run _ _ _ _ _ (sign_file_run is_directory creatable t k file q data s fs1 Hq Hc Hd Hqf Hf Hs)).
Qed.

End Commands.

(** ** Examples *)

(** Each byte in two letters. *)
Definition letter (n : nat) : ascii := ascii_of_nat (97 + n).
Definition unletter (c : ascii) : nat := nat_of_ascii c - 97.
Fixpoint to_letters (s : string) : string :=
  match s with
  | EmptyString => ""
  | String c s => String (letter (nat_of_ascii c / 16)) (String (letter (nat_of_ascii c mod 16)) (to_letters s))
  end.
Fixpoint of_letters (s : string) : option string :=
  match s with
  | EmptyString => Some ""
  | String a (String b s) => String (ascii_of_nat (unletter a * 16 + unletter b)) <$> of_letters s
  | _ => None
  end.

Lemma of_to_letters s : of_letters (to_letters s) = Some s.
Proof.
  induction s as [|c s IH]; [done|]. cbn [to_letters of_letters]. rewrite IH.
  assert (ascii_of_nat (unletter (letter (nat_of_ascii c / 16)) * 16 + unletter (letter (nat_of_ascii c mod 16))) = c) as Hc
    by by destruct c as [[] [] [] [] [] [] [] []].
  exact (f_equal (λ x, Some (String x s)) Hc).
Qed.

Lemma letters_text s : from_utf8 (to_letters s) = Some (to_letters s).
Proof.
  unfold from_utf8. rewrite decide_True; [done|]. unfold AppAssets.from_utf8_lossy.
  assert (AppAssets.lossy (String.length (to_letters s)) (bytes (to_letters s)) = bytes (to_letters s)) as ->; [|apply of_bytes_bytes].
  induction s as [|c s IH]; [done|]. cbn [to_letters String.length bytes].
  assert (∀ n fuel l, n < 16 → AppAssets.lossy (S fuel) (letter n :: l) = letter n :: AppAssets.lossy fuel l) as Hl.
  { intros n fuel l Hn. do 16 (destruct n as [|n]; [done|]). lia. }
  assert (nat_of_ascii c < 256) by apply nat_ascii_bounded.
  rewrite !Hl, IH; [done|by apply Nat.mod_upper_bound|by apply Nat.Div0.div_lt_upper_bound].
Qed.

(** A toy pair, whose signature of a text is the text. *)
#[local] Instance ex_minisign : Minisign := {|
  MinisignPublic := string; MinisignSecret := string; MinisignPublicBox := string; MinisignSecretBox := string;
  SignatureBox := string;
  generate_encrypted_keypair p := Some ("pub", "sec");
  pk_to_box_string p := p; sk_to_box_string s := s; secret_box_from_string s := Some s; into_secret_key s _ := Some s;
  public_box_from_string p := Some p; into_public_key p := Some p;
  minisign_sign k data _ := Some data; signature_to_string s := s;
  minisign_verify p s data := bool_decide (s = data);
  base64_encode := to_letters; base64_decode := of_letters;
|}.

#[local] Instance ex_laws : MinisignLaws.
Proof.
  split; [exact of_to_letters|by intros ? ? ? [= <- <-]|exact letters_text|].
  intros ? ? ? [= <- <-]. do 4 eexists. split_and!; [done..|]. intros data comment. exists data. split; [done|]. by apply bool_decide_eq_true.
Qed.

Definition ex_package : PathBuf := components "/out/app_1.0.AppImage".
Definition ex_files : Files :=
  <[ex_package := "program"]> (<[components "/keys/app.key" := to_letters "sec"]> ∅).
Definition ex_env (name : string) : option string :=
  if decide (name = "TAURI_SIGNING_PRIVATE_KEY") then Some "/keys/app.key" else None.

(** The private key in a file, the public key as a text. *)
Lemma updates_verify_witness :
  ∃ signed fs' public, pub_key (to_letters "pub") = Ok public ∧
    sign_updaters (λ _, false) (λ _, true) ex_env 0 (Some (Bundler.mk_updater false (to_letters "pub") []))
      [Bundler.mk_bundled Bundler.AppImage [ex_package]] true ex_files = (Ok signed, fs') ∧
    Forall2 (λ p q, signature_path p = Ok q ∧ ∃ data, ex_files !! p = Some data ∧ signed_at public fs' q data)
      (updater_paths [Bundler.mk_bundled Bundler.AppImage [ex_package]]) signed ∧
    ∀ q, q ∉ signed → fs' !! q = ex_files !! q.
Proof.
  apply (updates_verify (λ _, false) (λ _, true) ex_env 0 (Bundler.mk_updater false (to_letters "pub") [])
    [Bundler.mk_bundled Bundler.AppImage [ex_package]] true (mk_key_pair (to_letters "pub") (to_letters "sec")) "/keys/app.key").
  - reflexivity.
  - reflexivity.
  - apply file_stands; [vm_compute; reflexivity|apply letters_text].
  - apply text_stands; [vm_compute; reflexivity|reflexivity].
  - intros p Hp. assert (p = ex_package) as -> by (change (p ∈ [ex_package]) in Hp; by apply list_elem_of_singleton in Hp).
    exists (components "/out/app_1.0.AppImage.sig"), "program". split_and!; (vm_compute; reflexivity).
  - intros p p' q Hp Hp' Hq. assert (p = ex_package) as -> by (change (p ∈ [ex_package]) in Hp; by apply list_elem_of_singleton in Hp).
    assert (p' = ex_package) as -> by (change (p' ∈ [ex_package]) in Hp'; by apply list_elem_of_singleton in Hp').
    vm_compute in Hq. injection Hq as <-. vm_compute. discriminate.
Defined.

End Signer.
